(* ===== verification/_CoqProject ===== *)
-Q . S2P
Prelude.v
Errno.v
Bytes.v
AllocSpec.v
Address.v
BitVec.v
BitmapAlloc.v
FrameAlloc.v
PageTable.v
Sv39.v
PageStore.v
BlockCache.v
DiskStore.v
PageCache.v
Fat.v
FatFile.v
FatLayout.v
FatDir.v
FatDisk.v
Ext4Layout.v
Ext4Alloc.v
Trackers.v
MapArea.v
Pid.v
MemorySet.v
AddressSpace.v
Reclaim.v
MemSystem.v
Fork.v
MemRun.v
KernelMemory.v
UserBuffer.v
UserSpace.v
UserMemory.v
KernelUser.v
Signal.v
KernelSignal.v
BTree.v
Sched.v
SchedClass.v
TaskManager.v
KernelOom.v
Timer.v
WaitQueue.v
Kill.v
Futex.v
Processor.v
Pipe.v
FdTable.v
StateMachine.v
