(* ===== verification/Prelude.v ===== *)
(** * NPUcore: a verification development for the kernel

    NPUcore is a Unix-like kernel in Rust for RISC-V and LoongArch. This library models
    the parts below as Rocq functions, written after the source (paths are relative to
    os/src), and proves what the rest of the kernel relies on. Where a build has a choice
    the model is the RISC-V build.

    ** Parts and how they interact

    Common ground: this file, [Errno] (syscall/errno.rs) and [Bytes], integers as bytes in
    memory and ranges of byte strings.

    Physical memory. Frames come from a frame allocator and are returned when their
    tracker is dropped; page tables take their frames from it and live in the memory it
    manages; pages that have to leave memory go to compressed memory or to swap.
    - [Address]: mm/address.rs. Addresses and page numbers as 64-bit integers, page-table
      indices, the range iterator; physical memory as a function of frame and word.
    - [AllocSpec]: what an id allocator promises (class [AllocatorOk]) and the theorem a
      holder of handles gets from the promise alone.
    - [BitVec]: the bit vectors the allocators and the managers use.
    - [BitmapAlloc]: mm/bitmap_alloc.rs, and [FrameAlloc]: mm/frame_allocator.rs with the
      out-of-memory cascade of task/manager.rs. Both discharge [AllocatorOk].
    - [PageTable]: the trait of mm/page_table.rs as a class with its laws ([PageTableOk]),
      and [Sv39]: hal/arch/riscv/sv39.rs, the implementation that discharges it.
    - [PageStore]: the interface of a page store ([PageStoreOk]), and its two
      implementations mm/zram.rs ([Zram]) and fs/swap.rs ([Swap], on
      drivers/block/mem_blk.rs).
    - [Pid]: task/pid.rs and hal/arch/riscv/kern_stack.rs. Ids of processes, threads and
      kernel stacks, and the areas computed from them.

    Address spaces. A process has a page table and a list of areas, whose pages are held
    by reference-counted trackers that fork shares.
    - [Trackers]: [Frame] of mm/map_area.rs and the memory of the kernel as a whole, with
      the strong count of every tracker.
    - [MapArea]: mm/map_area.rs, and [MemorySet]: mm/memory_set.rs, written against
      [PageTable], [PageStore] and [MapFile], the interface of a mapped file.
    - [AddressSpace]: the invariant of areas, page table and trackers, kept by every
      operation; [Reclaim]: cleaning under memory pressure; [Fork]: from_existing_user;
      [MemSystem] and [MemRun]: many processes on one memory and the machine of private
      memories they implement; [KernelMemory]: all of it for Sv39, zram and swap;
      [KernelOom]: the out-of-memory cascade of [FrameAlloc] on it, with the task managers of
      [TaskManager].
    - [UserBuffer]: the functions of mm/page_table.rs that reach into user memory;
      [UserMemory]: their correctness; [UserSpace]: the interface the rest of the kernel
      uses; [KernelUser]: its implementation on [KernelMemory].
    - [Signal]: task/signal.rs against [UserSpace]; [KernelSignal]: signal handlers on the
      memory of a process; [Kill]: the sending calls of syscall/process.rs.

    Scheduling. A task waits in one of the run queues of a CPU's manager, or sleeps; each
    CPU's idle loop takes tasks from its manager and puts back the one it switched from;
    wait queues, timers and futexes wake sleeping tasks through the managers.
    - [Sched]: task/cfs_scheduler.rs. Entities, weights, the fair run queue, on the
      ordered maps of [BTree].
    - [SchedClass]: task/sched_class.rs. The real-time and idle run queues.
    - [TaskManager]: task/manager.rs. The manager of a CPU ([TaskManager]) and the
      functions over all managers ([Managers]), with the group exit of task/mod.rs.
    - [Timer]: timer.rs. Clock conversions, [TimeSpec] and [TimeVal].
    - [WaitQueue]: the wait queue and the timeout queue of task/manager.rs.
    - [Futex]: task/threads.rs.
    - [Processor]: the idle loop of task/processor.rs and the switching functions of
      task/mod.rs, as steps that the CPUs interleave.
    - [StateMachine]: task/state_machine.rs, a lock-free state cell, with its
      interleavings.

    Files. A descriptor table maps numbers to shared file objects; a pipe is one. A file of
    FAT32 is a chain of clusters; its data go through a page cache, the table of chains
    through the block cache, and both share the device. A directory is such a file.
    - [Pipe]: fs/dev/pipe.rs.
    - [FdTable]: fs/file_descriptor.rs and the calls of syscall/fs.rs on it.
    - [BlockCache] and [PageCache]: fs/cache.rs; [DiskStore]: what a file system relies on
      when the two share a device, discharged by the block cache.
    - [Fat]: fs/fat32/bitmap.rs, the allocation table, against [BlockStore].
    - [FatFile]: the content of files, fs/fat32/efs.rs and the inode of
      fs/fat32/fat_inode.rs, against [DiskStore].
    - [FatLayout]: fs/fat32/layout.rs. Boot block, directory entries, long and short names.
    - [FatDir]: fs/fat32/dir_iter.rs and the directory operations of fat_inode.rs, against
      [DirFile], the file a directory is kept in; [FatDisk] discharges [DirFileOk] for the
      inodes of [FatFile].
    - [Ext4Layout]: the checksums, bitmaps and disk structures of fs/ext4 (crc.rs, bitmap.rs,
      superblock.rs, block_group.rs, the inodes of ext4_inode.rs); [Ext4Alloc]:
      fs/ext4/balloc.rs, against [BlockDevice]. The file system has blocks of 4096 bytes, as
      in the LoongArch build.

    ** How the code is modelled

    A struct is a record, an enum an inductive type, a method a function of the same name
    that returns its result and the new value of what it changes. Integers are [Z];
    additions, subtractions and products that can leave the width of their type wrap
    around, as in a release build ([⊕], [⊖], [⊗] on 64 bits, [wrap] elsewhere). A panic, a
    failed assertion, an [unwrap] of nothing and an index out of range are the outcome
    [Panic], everything else is [Ret]; theorems that say a call returns exclude the
    panic. [Vec] and [VecDeque] are lists, [BTreeMap] is a sorted list of entries, a [String]
    of FAT32 the list of its characters. A reference-counted task is an integer handle into
    a store of task records, so that two queues that hold the same task see the same
    status; a page tracker is one with its strong count in [Trackers]. A lock makes one
    atomic step of the section it guards; where the code lets other CPUs in between two
    sections, the model has two steps ([Processor], [Futex], [StateMachine]).

    Loops that are not structural have fuel, and the theorems that say such a loop returns
    show the fuel sufficient: the search loops of [BitmapAlloc] run once per word or
    frame; a pipe copies at most twice per part of a buffer ([Pipe]); reading and writing a
    file takes one round per page; following a chain takes at most one round per entry of
    the table ([Fat]); the loops over a directory take at most one round per entry of it,
    or two per wanted entry when it grows ([FatDir]); the search for a short name tries nine
    digits and then hexadecimal tails, of which 4446 always reach a free one when fewer
    names are taken ([FatLayout]). A wake-up scan repeats once per contended round, which is
    an argument ([Managers.wake_interruptible]).

    Parameters stand for what is not part of the source: the LZ4 compressor (with its
    round trip), the clock's tick counter and frequency, mapped files ([MapFile]). What the
    out-of-memory cascade calls are arguments in [FrameAlloc] and [TaskManager]; [KernelOom]
    puts the cleaning of the processes' memories for them, with file caches that have
    nothing to give back. The pages an access to a file's cache may evict are chosen by an
    argument ([pressure]) that theorems quantify over.

    ** What the theorems show

    - Refinement: both frame allocators and the id allocator implement the abstract
      allocator for every sequence of requests; a page table implements a finite map, with
      panics exactly where the map says; the real-time queue is a stable priority
      queue; a descriptor table is a finite map that hands out the lowest free number;
      compressed memory and swap are lossless page stores; the block cache is a plain array
      of blocks; the memory system implements private memories, whatever faults, forks,
      stores and reclaims the processes run into (faults on pages with no file behind them,
      areas of at most 65536 pages: the numbers of active pages are 16 bits wide); a file of FAT32 is a byte string, and a
      directory on the disk a list of names.
    - Safety: processes see only their own stores; no interleaving of the CPUs runs a task
      twice; no task is lost or duplicated by a manager whose callers add only tasks that are
      in none of its queues; reclaiming memory changes no process's memory; no interleaving takes
      a process through an invalid transition; stacks of different threads are disjoint;
      files with different clusters do not interfere; a pending [SIGKILL] ends the process or
      stays pending; a block ext4 allocates was free and no data is written.
    - Functional behaviour: page faults, fork and cleaning; copying from and to user memory;
      signal delivery in order; the fair queue picks the least virtual time and accounts it in
      proportion to weight; classes are served in order; stealing respects affinity
      and context; wait queues and timers wake exactly whom they should, in order; futex
      requeueing conserves waiters; a group exit collects the group; a pipe is a lossless
      first-in first-out channel; several frames are allocated all or nothing; clusters
      are appended to and cut off a chain; files are found, created and removed in a
      directory.
    - Round trips, bounds and termination: addresses and page-table indices, time values,
      the tick conversion at full width, range iteration; a signal handler's frame; a created
      file is found under its name; pages written in runs of blocks; the search for a short
      name ends; the table-driven checksum is the division bit by bit.
    - Defects, each as a theorem about the code as it is: a task that blocks while it is
      woken is queued twice; a wake-up across CPUs leaves a stale sleeper; a futex
      wake-up can be lost, and requeueing onto the same word loses waiters; [F_DUPFD] and a
      raised descriptor limit overwrite open descriptors; zero-length pipe calls corrupt
      the pipe; the load total of the fair queue drifts; system calls write through
      copy-on-write pages; lowering the break panics; a process can block [SIGKILL]; a full
      disk gives a file the same cluster twice and loses writes; closing a file does not
      store its size; ext4 clears the wrong bits when it frees blocks. Examples beside the definitions record smaller ones.

    ** Not modelled

    - Loading an ELF image, the kernel's own address space and the control block of a task
      beyond the fields the scheduler and the signals use: the first is input parsing by a
      vendored crate, the others fill records from linker symbols and arguments.
    - On FAT32: linking an inode into another directory, stat and time stamps. The results on
      creating and removing are for names in ASCII; for others the examples of [FatLayout] show
      what goes wrong.
    - On ext4: extent trees, file content, directories and the allocation of inodes, which sit
      on the block allocation.
    - The directory tree above the file systems, open files and poll: each is a layer of its
      own on top of the parts above (caches, descriptor table, wait queues), which do not
      depend on it.
    - The LoongArch port: its page table is another implementation of [PageTable]; its entry
      code and registers are assembly.
    - Device drivers, trap entry, register access, boot code, the network layer over its
      vendored stack, the console and the tracing are input, output or assembly. *)
From stdpp Require Export base numbers list gmap sets.
From Stdlib Require Export ZArith Lia.
#[global] Open Scope Z_scope.

(** ** Notation scope of the development *)
Declare Scope kernel_scope.
Delimit Scope kernel_scope with kernel.

(** ** Automation *)

(** Turns every boolean comparison of integers in the goal or the context into
    the proposition it decides, one case per outcome. *)
Ltac case_Z_goal :=
  match goal with
  | |- context [?a <? ?b] => destruct (Z.ltb_spec a b)
  | |- context [?a <=? ?b] => destruct (Z.leb_spec a b)
  | |- context [?a =? ?b] => destruct (Z.eqb_spec a b)
  end.
Ltac case_Z_hyp :=
  match goal with
  | H : context [?a <? ?b] |- _ => destruct (Z.ltb_spec a b)
  | H : context [?a <=? ?b] |- _ => destruct (Z.leb_spec a b)
  | H : context [?a =? ?b] |- _ => destruct (Z.eqb_spec a b)
  end.
Ltac case_Z := repeat (case_Z_goal || case_Z_hyp).

Create HintDb kernel.
Create Rewrite HintDb bits.

(** ** Panics

    A Rust [panic!], failed [assert!], [unwrap] of [None] or out-of-range index
    is the value [Panic]; everything else a function returns is [Ret]. *)
Inductive outcome (A : Type) : Type :=
| Ret (a : A)
| Panic.
Arguments Ret {A} a.
Arguments Panic {A}.

#[global] Instance outcome_ret : MRet outcome := @Ret.
#[global] Instance outcome_bind : MBind outcome :=
  fun A B f m => match m with Ret a => f a | Panic => Panic end.
#[global] Instance outcome_fmap : FMap outcome :=
  fun A B f m => match m with Ret a => Ret (f a) | Panic => Panic end.

#[global] Instance outcome_eq_dec {A} `{EqDecision A} : EqDecision (outcome A).
Proof. solve_decision. Defined.

(** [assert!(b)] *)
Definition rust_assert (b : bool) : outcome unit := if b then Ret tt else Panic.

(** [Option::unwrap] *)
Definition unwrap {A} (o : option A) : outcome A :=
  match o with Some a => Ret a | None => Panic end.

(** [v[i]] as a read and as a place to write; [i] is a [usize]. *)
Definition index {A} (l : list A) (i : Z) : outcome A := unwrap (l !! Z.to_nat i).
Definition store {A} (l : list A) (i : Z) (x : A) : outcome (list A) :=
  if bool_decide (Z.to_nat i < length l)%nat then Ret (<[Z.to_nat i := x]> l) else Panic.

(** [Result<A, E>] *)
Inductive Result (A E : Type) : Type :=
| Ok (a : A)
| Err (e : E).
Arguments Ok {A E} a.
Arguments Err {A E} e.
(** [Result::map] *)
Definition map_ok {A B E} (f : A -> B) (r : Result A E) : Result B E := match r with Ok a => Ok (f a) | Err e => Err e end.

Lemma bind_ret_inv {A B} (m : outcome A) (f : A -> outcome B) b :
  m ≫= f = Ret b <-> exists a, m = Ret a /\ f a = Ret b.
Proof.
  destruct m as [a|]; cbn; split.
  - eauto.
  - by intros (? & [= ->] & ?).
  - done.
  - by intros (? & ? & ?).
Qed.

Lemma index_ret {A} (l : list A) i x : index l i = Ret x <-> l !! Z.to_nat i = Some x.
Proof. unfold index. destruct (l !! Z.to_nat i); cbn; naive_solver. Qed.

Lemma index_lt {A} (l : list A) i :
  (Z.to_nat i < length l)%nat -> exists x, index l i = Ret x /\ l !! Z.to_nat i = Some x.
Proof.
  intros H. destruct (lookup_lt_is_Some_2 l (Z.to_nat i) H) as [x Hx].
  exists x. unfold index. rewrite Hx. done.
Qed.

Lemma store_lt {A} (l : list A) i x :
  (Z.to_nat i < length l)%nat -> store l i x = Ret (<[Z.to_nat i := x]> l).
Proof. intros H. unfold store. by rewrite bool_decide_eq_true_2. Qed.

Lemma store_ret {A} (l l' : list A) i x :
  store l i x = Ret l' -> (Z.to_nat i < length l)%nat /\ l' = <[Z.to_nat i := x]> l.
Proof. unfold store. case_bool_decide; naive_solver. Qed.

(** ** Machine integers

    A [w]-bit unsigned integer is a [Z] in [0, 2^w). Arithmetic is that of the
    release build, which is the Makefile's default: it wraps around. *)
Definition wrap (w x : Z) : Z := x mod 2 ^ w.
Definition in_range (w x : Z) : Prop := 0 <= x < 2 ^ w.

Definition add64 (a b : Z) : Z := wrap 64 (a + b).
Definition sub64 (a b : Z) : Z := wrap 64 (a - b).
Definition mul64 (a b : Z) : Z := wrap 64 (a * b).
Notation "a ⊕ b" := (add64 a b) (at level 50, left associativity) : kernel_scope.
Notation "a ⊖ b" := (sub64 a b) (at level 50, left associativity) : kernel_scope.
Notation "a ⊗ b" := (mul64 a b) (at level 40, left associativity) : kernel_scope.
#[global] Open Scope kernel_scope.

Definition usize_max : Z := 2 ^ 64 - 1.

(** [saturating_sub], [saturating_add] on 64-bit unsigned integers. *)
Definition sat_sub (a b : Z) : Z := Z.max 0 (a - b).
Definition sat_add64 (a b : Z) : Z := Z.min usize_max (a + b).

(** A [w]-bit signed integer wraps around into [-2^(w-1), 2^(w-1)); [as_unsigned] is
    the cast to a wider or equal unsigned type, which keeps the two's complement. *)
Definition wrap_signed (w x : Z) : Z := (x + 2 ^ (w - 1)) mod 2 ^ w - 2 ^ (w - 1).
Definition as_unsigned (w x : Z) : Z := x mod 2 ^ w.

Lemma wrap_signed_small w x : 0 < w -> - 2 ^ (w - 1) <= x < 2 ^ (w - 1) -> wrap_signed w x = x.
Proof.
  intros Hw Hx. unfold wrap_signed.
  assert (2 ^ w = 2 * 2 ^ (w - 1)) by (rewrite <- Z.pow_succ_r by lia; f_equal; lia).
  rewrite Z.mod_small; lia.
Qed.

Lemma wrap_range w x : 0 <= w -> in_range w (wrap w x).
Proof. intros. unfold in_range, wrap. apply Z.mod_pos_bound. lia. Qed.

Lemma wrap_small w x : in_range w x -> wrap w x = x.
Proof. unfold in_range, wrap. intros. by apply Z.mod_small. Qed.

Lemma add64_small a b : in_range 64 (a + b) -> a ⊕ b = a + b.
Proof. apply wrap_small. Qed.

Lemma sub64_small a b : 0 <= b <= a -> a < 2 ^ 64 -> a ⊖ b = a - b.
Proof. intros. apply wrap_small. unfold in_range. lia. Qed.

Lemma mul64_small a b : in_range 64 (a * b) -> a ⊗ b = a * b.
Proof. apply wrap_small. Qed.

#[global] Hint Resolve wrap_range : kernel.

(** Wrapping inside a sum or a difference that is wrapped itself does not matter. *)
Lemma wrap_add_l w x y : wrap w (wrap w x + y) = wrap w (x + y).
Proof. apply Zplus_mod_idemp_l. Qed.
Lemma wrap_add_r w x y : wrap w (x + wrap w y) = wrap w (x + y).
Proof. apply Zplus_mod_idemp_r. Qed.
Lemma wrap_sub_l w x y : wrap w (wrap w x - y) = wrap w (x - y).
Proof. apply Zminus_mod_idemp_l. Qed.
Lemma wrap_sub_r w x y : wrap w (x - wrap w y) = wrap w (x - y).
Proof. apply Zminus_mod_idemp_r. Qed.
Lemma wrap_wrap w x : wrap w (wrap w x) = wrap w x.
Proof. apply Zmod_mod. Qed.
#[global] Hint Rewrite wrap_add_l wrap_add_r wrap_sub_l wrap_sub_r wrap_wrap : wrap.

(** ** Bits *)

(** [!x] on a [w]-bit word. *)
Definition not_bits (w x : Z) : Z := Z.lxor x (Z.ones w).
(** [x | 1 << k] and [x & !(1 << k)] on a [w]-bit word, [k < w]. *)
Definition bit_set (x k : Z) : Z := Z.lor x (Z.shiftl 1 k).
Definition bit_clear (w x k : Z) : Z := Z.land x (not_bits w (Z.shiftl 1 k)).

Lemma testbit_one_shift k i : 0 <= k -> 0 <= i -> Z.testbit (Z.shiftl 1 k) i = (i =? k).
Proof.
  intros Hk Hi. rewrite Z.shiftl_spec by lia. destruct (Z.eqb_spec i k) as [->|].
  - by rewrite Z.sub_diag.
  - destruct (Z.ltb_spec i k).
    + by rewrite Z.testbit_neg_r by lia.
    + apply Z.bits_above_log2; cbn; lia.
Qed.

Lemma testbit_not_bits w x i :
  0 <= i < w -> Z.testbit (not_bits w x) i = negb (Z.testbit x i).
Proof.
  intros. unfold not_bits. rewrite Z.lxor_spec, Z.ones_spec_low by lia.
  by destruct (Z.testbit x i).
Qed.

Lemma testbit_bit_set x k i :
  0 <= k -> 0 <= i -> Z.testbit (bit_set x k) i = (i =? k) || Z.testbit x i.
Proof.
  intros. unfold bit_set. rewrite Z.lor_spec, testbit_one_shift by done.
  apply orb_comm.
Qed.

Lemma testbit_bit_clear w x k i :
  0 <= k < w -> 0 <= i < w ->
  Z.testbit (bit_clear w x k) i = negb (i =? k) && Z.testbit x i.
Proof.
  intros. unfold bit_clear. rewrite Z.land_spec, testbit_not_bits, testbit_one_shift by lia.
  apply andb_comm.
Qed.

#[global] Hint Rewrite testbit_one_shift testbit_not_bits testbit_bit_set
  testbit_bit_clear Z.land_spec Z.lor_spec Z.lxor_spec using lia : bits.

(** A word is in range when no bit at or above its width is set. *)
Lemma in_range_testbit w x :
  0 <= w -> in_range w x <-> 0 <= x /\ forall i, w <= i -> Z.testbit x i = false.
Proof.
  intros Hw. unfold in_range. split.
  - intros [H0 H]. split; [done|]. intros i Hi.
    rewrite <- (Z.mod_small x (2 ^ w)) by lia. apply Z.mod_pow2_bits_high. lia.
  - intros [H0 H]. split; [done|].
    destruct (Z.eqb_spec x 0) as [->|Hne]; [lia|].
    assert (Z.log2 x < w) as Hlog.
    { destruct (Z.ltb_spec (Z.log2 x) w); [done|].
      specialize (H (Z.log2 x) ltac:(lia)). rewrite Z.bit_log2 in H by lia. done. }
    apply Z.log2_lt_pow2; lia.
Qed.

Lemma testbit_high w x i : in_range w x -> 0 <= w <= i -> Z.testbit x i = false.
Proof. intros H Hi. apply in_range_testbit in H as [_ H]; [|lia]. apply H. lia. Qed.

Lemma bit_set_range w x k : in_range w x -> 0 <= k < w -> in_range w (bit_set x k).
Proof.
  intros Hx Hk. pose proof Hx as [H0 _]. apply in_range_testbit; [lia|]. split.
  - unfold bit_set. apply Z.lor_nonneg. split; [done|]. apply Z.shiftl_nonneg. lia.
  - intros i Hi. rewrite testbit_bit_set by lia. rewrite (testbit_high w) by (done || lia).
    destruct (Z.eqb_spec i k); [lia|done].
Qed.

Lemma bit_clear_range w x k : in_range w x -> 0 <= k < w -> in_range w (bit_clear w x k).
Proof.
  intros Hx Hk. pose proof Hx as [H0 _]. apply in_range_testbit; [lia|]. split.
  - unfold bit_clear. apply Z.land_nonneg. by left.
  - intros i Hi. unfold bit_clear. rewrite Z.land_spec, (testbit_high w x) by (done || lia). done.
Qed.

Lemma not_bits_range w x : 0 <= w -> in_range w x -> in_range w (not_bits w x).
Proof.
  intros Hw Hx. pose proof Hx as [H0 _]. apply in_range_testbit; [done|]. unfold not_bits. split.
  - apply Z.lxor_nonneg. rewrite Z.ones_equiv. lia.
  - intros i Hi. rewrite Z.lxor_spec, (testbit_high w x), Z.ones_spec_high by (done || lia). done.
Qed.

#[global] Hint Resolve bit_set_range bit_clear_range not_bits_range : kernel.

(** Equality of words by their bits. *)
Lemma word_ext w x y :
  0 <= w -> in_range w x -> in_range w y ->
  (forall i, 0 <= i < w -> Z.testbit x i = Z.testbit y i) -> x = y.
Proof.
  intros Hw Hx Hy H. apply Z.bits_inj'. intros i Hi.
  destruct (Z.ltb_spec i w); [by apply H|].
  rewrite !(testbit_high w) by (done || lia). done.
Qed.

Lemma all_ones_testbit w x :
  0 <= w -> in_range w x ->
  x = 2 ^ w - 1 <-> (forall i, 0 <= i < w -> Z.testbit x i = true).
Proof.
  intros Hw Hx. replace (2 ^ w - 1) with (Z.ones w) by (rewrite Z.ones_equiv; lia). split.
  - intros -> i Hi. apply Z.ones_spec_low. lia.
  - intros H. apply (word_ext w); [done..| |].
    + rewrite Z.ones_equiv. unfold in_range. lia.
    + intros i Hi. rewrite H, Z.ones_spec_low by lia. done.
Qed.

(** [trailing_zeros] of a [w]-bit word, scanning from bit 0; it is [w] on 0. *)
Fixpoint tz_from (fuel : nat) (x i : Z) : Z :=
  match fuel with
  | O => i
  | S f => if Z.testbit x i then i else tz_from f x (i + 1)
  end.
Definition trailing_zeros (w : nat) (x : Z) : Z := tz_from w x 0.

Lemma tz_from_spec fuel x i :
  let r := tz_from fuel x i in
  i <= r <= i + Z.of_nat fuel /\
  (forall j, i <= j < r -> Z.testbit x j = false) /\
  (r < i + Z.of_nat fuel -> Z.testbit x r = true).
Proof.
  revert i. induction fuel as [|f IH]; intros i; cbn -[Z.testbit Z.of_nat].
  - repeat split; try lia.
  - destruct (Z.testbit x i) eqn:E.
    + repeat split; try lia. done.
    + destruct (IH (i + 1)) as (H1 & H2 & H3). repeat split; try lia.
      * intros j Hj. destruct (Z.eqb_spec j i) as [->|]; [done|]. apply H2. lia.
      * intros. apply H3. lia.
Qed.

Lemma trailing_zeros_spec w x :
  0 <= trailing_zeros w x <= Z.of_nat w /\
  (forall j, 0 <= j < trailing_zeros w x -> Z.testbit x j = false) /\
  (trailing_zeros w x < Z.of_nat w -> Z.testbit x (trailing_zeros w x) = true).
Proof. apply (tz_from_spec w x 0). Qed.

(** The first zero bit of a word that is not all ones, found the way the kernel
    does: [(!word).trailing_zeros()]. *)
Lemma first_zero_spec (w : nat) x :
  in_range (Z.of_nat w) x -> x <> 2 ^ Z.of_nat w - 1 ->
  let k := trailing_zeros w (not_bits (Z.of_nat w) x) in
  0 <= k < Z.of_nat w /\ Z.testbit x k = false /\
  (forall j, 0 <= j < k -> Z.testbit x j = true).
Proof.
  intros Hx Hne k. destruct (trailing_zeros_spec w (not_bits (Z.of_nat w) x)) as (H1 & H2 & H3).
  fold k in H1, H2, H3.
  assert (Hlow : forall j, 0 <= j < k -> Z.testbit x j = true).
  { intros j Hj. specialize (H2 j Hj). rewrite testbit_not_bits in H2 by lia.
    by apply negb_false_iff in H2. }
  assert (k < Z.of_nat w).
  { destruct (Z.ltb_spec k (Z.of_nat w)); [done|]. exfalso. apply Hne.
    apply all_ones_testbit; [lia|done|]. intros i Hi. apply Hlow. lia. }
  repeat split; try lia; try done.
  specialize (H3 ltac:(lia)). rewrite testbit_not_bits in H3 by lia. by apply negb_true_iff in H3.
Qed.

(** [leading_zeros] of a [w]-bit word. *)
Definition leading_zeros (w x : Z) : Z := if x =? 0 then w else w - 1 - Z.log2 x.

(** ** Lists *)

(** [Vec::pop]: the last element, and the rest. *)
Definition vec_pop {A} (l : list A) : option (A * list A) :=
  match reverse l with
  | [] => None
  | x :: r => Some (x, reverse r)
  end.

Lemma vec_pop_spec {A} (l : list A) :
  match vec_pop l with
  | None => l = []
  | Some (x, r) => l = r ++ [x]
  end.
Proof.
  unfold vec_pop. destruct (reverse l) as [|x r] eqn:E.
  - apply (f_equal reverse) in E. by rewrite reverse_involutive in E.
  - apply (f_equal reverse) in E. rewrite reverse_involutive in E. by rewrite E, reverse_cons.
Qed.

Lemma vec_pop_snoc {A} (l : list A) x : vec_pop (l ++ [x]) = Some (x, l).
Proof. unfold vec_pop. by rewrite reverse_snoc, reverse_involutive. Qed.

(** [iter().find] *)
Fixpoint find_first {A} (p : A -> bool) (l : list A) : option A :=
  match l with
  | [] => None
  | x :: r => if p x then Some x else find_first p r
  end.

Lemma find_first_Some {A} (p : A -> bool) l x :
  find_first p l = Some x -> x ∈ l /\ p x = true.
Proof.
  induction l as [|y r IH]; cbn; [done|]. destruct (p y) eqn:E.
  - intros [= ->]. split; [left|done].
  - intros H. destruct (IH H). split; [by right|done].
Qed.

Lemma find_first_None {A} (p : A -> bool) l :
  find_first p l = None <-> (forall x, x ∈ l -> p x = false).
Proof.
  induction l as [|y r IH]; cbn; [split; [intros _ x Hx; by apply not_elem_of_nil in Hx|done]|].
  destruct (p y) eqn:E; split.
  - done.
  - intros H. rewrite (H y) in E; [done|left].
  - intros H x Hx. apply elem_of_cons in Hx as [->|Hx]; [done|]. by apply IH.
  - intros H. apply IH. intros x Hx. apply H. by right.
Qed.

(** Sum of a list of integers. *)
Definition zsum (l : list Z) : Z := foldr Z.add 0 l.

Lemma zsum_app l1 l2 : zsum (l1 ++ l2) = zsum l1 + zsum l2.
Proof. unfold zsum. induction l1 as [|x l IH]; [done|]. cbn in *. lia. Qed.

Lemma zsum_perm l1 l2 : l1 ≡ₚ l2 -> zsum l1 = zsum l2.
Proof. unfold zsum. induction 1; cbn; lia. Qed.

#[global] Instance zsum_proper : Proper ((≡ₚ) ==> (=)) zsum.
Proof. intros l1 l2. apply zsum_perm. Qed.

(** A filter and its complement partition a list. *)
Lemma filter_partition_perm {A} (p : A -> bool) (l : list A) :
  l ≡ₚ List.filter p l ++ List.filter (fun x => negb (p x)) l.
Proof.
  induction l as [|x l IH]; [done|]. cbn. destruct (p x); cbn.
  - by rewrite <- IH.
  - rewrite <- Permutation_middle. by rewrite <- IH.
Qed.

(** The first hit from the back splits the list at the last element that satisfies
    the predicate. *)
Lemma find_first_reverse {A} (p : A -> bool) (l : list A) x :
  find_first p (reverse l) = Some x ->
  exists l1 l2, l = l1 ++ x :: l2 /\ p x = true /\ Forall (fun y => p y = false) l2.
Proof.
  induction l as [|y l IH] using rev_ind; [done|]. rewrite reverse_snoc. cbn.
  destruct (p y) eqn:E.
  - intros [= ->]. by exists l, [].
  - intros H. destruct (IH H) as (l1 & l2 & -> & Hx & Hf). exists l1, (l2 ++ [y]).
    rewrite <- app_assoc. split_and!; [done..|]. apply Forall_app. by repeat constructor.
Qed.

(** [iter().position] followed by [remove]: take the first element that satisfies the
    predicate out of the sequence. *)
Fixpoint remove_first {A} (p : A -> bool) (l : list A) : option A * list A :=
  match l with
  | [] => (None, [])
  | x :: r => if p x then (Some x, r) else let '(o, r') := remove_first p r in (o, x :: r')
  end.

Lemma remove_first_spec {A} (p : A -> bool) (l : list A) :
  match remove_first p l with
  | (Some x, r) => exists l1 l2, l = l1 ++ x :: l2 /\ r = l1 ++ l2 /\ p x = true /\
      forall y, y ∈ l1 -> p y = false
  | (None, r) => r = l /\ forall y, y ∈ l -> p y = false
  end.
Proof.
  induction l as [|x l IH]; cbn; [split; [done|intros y Hy; by apply not_elem_of_nil in Hy]|].
  destruct (p x) eqn:E; [exists [], l; split_and!; try done; intros y Hy; by apply not_elem_of_nil in Hy|].
  destruct (remove_first p l) as [[y|] r].
  - destruct IH as (l1 & l2 & -> & -> & Hy & Hf). exists (x :: l1), l2. split_and!; try done.
    intros z Hz. apply elem_of_cons in Hz as [->|Hz]; [done|by apply Hf].
  - destruct IH as [-> Hf]. split; [done|]. intros z Hz. apply elem_of_cons in Hz as [->|Hz]; [done|by apply Hf].
Qed.

(** The highest set bit of a non-zero [w]-bit word is [w - 1 - leading_zeros]. *)
Lemma leading_zeros_highest w x : in_range w x -> x <> 0 ->
  let p := w - 1 - leading_zeros w x in
  0 <= p < w /\ Z.testbit x p = true /\ forall q, p < q -> Z.testbit x q = false.
Proof.
  intros [H0 Hw] Hx. unfold leading_zeros. destruct (Z.eqb_spec x 0); [done|]. cbv zeta.
  replace (w - 1 - (w - 1 - Z.log2 x)) with (Z.log2 x) by lia.
  assert (0 <= w) by (destruct (Z.lt_decidable w 0); [rewrite (Z.pow_neg_r 2 w) in Hw by lia; lia|lia]).
  split_and!; [apply Z.log2_nonneg|apply Z.log2_lt_pow2; lia|apply Z.bit_log2; lia|].
  intros q Hq. apply Z.bits_above_log2; lia.
Qed.

Lemma find_first_app {A} (p : A -> bool) l1 l2 :
  find_first p (l1 ++ l2) = match find_first p l1 with Some x => Some x | None => find_first p l2 end.
Proof. induction l1 as [|x l1 IH]; [done|]. cbn. by destruct (p x). Qed.

Lemma filter_ext_elem {A} (f g : A -> bool) (l : list A) :
  (forall e, e ∈ l -> f e = g e) -> List.filter f l = List.filter g l.
Proof. intros H. apply filter_ext_in. intros e He. apply H. by apply list_elem_of_In. Qed.

Lemma sublist_filter_bool {A} (p : A -> bool) l : List.filter p l `sublist_of` l.
Proof. induction l as [|x l IH]; [constructor|]. cbn [List.filter]. destruct (p x); [by apply sublist_skip|by apply sublist_cons]. Qed.
Lemma NoDup_filter_bool {A} (p : A -> bool) l : NoDup l -> NoDup (List.filter p l).
Proof. intros H. eapply sublist_NoDup; [exact H|apply sublist_filter_bool]. Qed.
Lemma list_bind_ext_in {A B} (f g : A -> list B) l : (forall x, x ∈ l -> f x = g x) -> l ≫= f = l ≫= g.
Proof. induction l as [|x l IH]; intros H; [done|]. rewrite !bind_cons, (H x) by left. f_equal. apply IH. intros y Hy. apply H. by right. Qed.
Lemma elem_of_filter_bool {A} (p : A -> bool) l x : x ∈ List.filter p l <-> x ∈ l /\ p x = true.
Proof. rewrite !list_elem_of_In. apply filter_In. Qed.

Lemma zsum_nonneg l : Forall (fun n => 0 <= n) l -> 0 <= zsum l.
Proof. unfold zsum. induction 1; cbn; lia. Qed.

Lemma zsum_cons x l : zsum (x :: l) = x + zsum l.
Proof. done. Qed.

Lemma take_seqZ a m n : take n (seqZ a m) = seqZ a (Z.min (Z.of_nat n) m).
Proof.
  apply list_eq. intros i. destruct (decide (i < n)%nat) as [Hi|Hi].
  - rewrite lookup_take_lt by done. destruct (decide (Z.of_nat i < m)).
    + rewrite !lookup_seqZ_lt by lia. done.
    + rewrite !lookup_seqZ_ge by lia. done.
  - rewrite lookup_take_ge by lia. rewrite lookup_seqZ_ge by lia. done.
Qed.

Lemma drop_seqZ a m n : drop n (seqZ a m) = seqZ (a + Z.of_nat n) (m - Z.of_nat n).
Proof.
  apply list_eq. intros i. rewrite lookup_drop. destruct (decide (Z.of_nat (n + i) < m)).
  - rewrite !lookup_seqZ_lt by lia. f_equal. lia.
  - rewrite !lookup_seqZ_ge by lia. done.
Qed.
