(* ===== verification/Errno.v ===== *)
(** Error codes of system calls ([os/src/syscall/errno.rs]), the ones the modelled parts use. *)
From S2P Require Import Prelude.

Definition SUCCESS : Z := 0.
Definition EPERM : Z := -1.
Definition ENOENT : Z := -2.
Definition ESRCH : Z := -3.
Definition EINTR : Z := -4.
Definition EIO : Z := -5.
Definition EBADF : Z := -9.
Definition EAGAIN : Z := -11.
Definition ENOMEM : Z := -12.
Definition EACCES : Z := -13.
Definition EFAULT : Z := -14.
Definition EEXIST : Z := -17.
Definition EXDEV : Z := -18.
Definition ENOTDIR : Z := -20.
Definition EISDIR : Z := -21.
Definition EINVAL : Z := -22.
Definition EMFILE : Z := -24.
Definition ENOSPC : Z := -28.
Definition ESPIPE : Z := -29.
Definition EPIPE : Z := -32.
Definition ERANGE : Z := -34.
Definition ENAMETOOLONG : Z := -36.
Definition ENOSYS : Z := -38.
Definition ENOTEMPTY : Z := -39.
Definition ERESTART : Z := -85.
