(* ===== verification/Bytes.v ===== *)
(** * Bytes: integers in memory and ranges of byte strings

    Words as little-endian bytes, and reading and replacing a range of a buffer, as the
    code does through casts of byte arrays. *)
From S2P Require Import Prelude.

(** The bytes of a word, lowest first, and back. *)
Fixpoint le_split (n : nat) (w : Z) : list Z :=
  match n with O => [] | S n' => w mod 256 :: le_split n' (w / 256) end.
Fixpoint le_combine (l : list Z) : Z :=
  match l with [] => 0 | b :: r => b + 256 * le_combine r end.

Definition byte_ok (b : Z) : Prop := 0 <= b < 256.

Lemma le_split_length n : forall w, length (le_split n w) = n.
Proof. induction n; intros; cbn; auto. Qed.
Lemma le_split_bytes n : forall w, Forall byte_ok (le_split n w).
Proof. induction n; intros; cbn; constructor; [apply Z.mod_pos_bound; lia|auto]. Qed.
Lemma le_split_combine l : Forall byte_ok l -> le_split (length l) (le_combine l) = l.
Proof.
  induction 1 as [|b l Hb Hl IH]; cbn; [done|]. unfold byte_ok in Hb.
  replace ((b + 256 * le_combine l) mod 256) with b by (rewrite Z.mul_comm, Z_mod_plus_full, Z.mod_small; lia).
  replace ((b + 256 * le_combine l) / 256) with (le_combine l) by (rewrite Z.mul_comm, Z_div_plus, Z.div_small; lia).
  by rewrite IH.
Qed.
Lemma le_combine_split n : forall w, 0 <= w < 256 ^ Z.of_nat n -> le_combine (le_split n w) = w.
Proof.
  induction n as [|n IH]; intros w Hw; [cbn in *; lia|]. cbn [le_split le_combine].
  rewrite IH; [pose proof (Z.div_mod w 256); lia|]. replace (Z.of_nat (S n)) with (1 + Z.of_nat n) in Hw by lia. rewrite Z.pow_add_r in Hw by lia.
  split; [apply Z.div_pos; lia|apply Z.div_lt_upper_bound; lia].
Qed.
Lemma le_combine_range l : Forall byte_ok l -> 0 <= le_combine l < 256 ^ Z.of_nat (length l).
Proof.
  induction 1 as [|b l Hb Hl IH]; cbn [le_combine length]; [cbn; lia|]. unfold byte_ok in Hb.
  replace (Z.of_nat (S (length l))) with (1 + Z.of_nat (length l)) by lia. rewrite Z.pow_add_r by lia. lia.
Qed.

(** ** Ranges *)
Definition get_bytes (l : list Z) (o n : Z) : list Z := take (Z.to_nat n) (drop (Z.to_nat o) l).
Definition set_bytes (l : list Z) (o : Z) (bs : list Z) : list Z :=
  take (Z.to_nat o) l ++ bs ++ drop (Z.to_nat o + length bs) l.

Lemma get_bytes_length l o n : 0 <= o -> 0 <= n -> o + n <= Z.of_nat (length l) -> Z.of_nat (length (get_bytes l o n)) = n.
Proof. intros. unfold get_bytes. rewrite length_take, length_drop. lia. Qed.
Lemma get_bytes_lookup l o n i : 0 <= o -> Z.of_nat i < n -> get_bytes l o n !! i = l !! (Z.to_nat o + i)%nat.
Proof. intros. unfold get_bytes. rewrite lookup_take_lt by lia. apply lookup_drop. Qed.
Lemma set_bytes_length l o bs : 0 <= o -> o + Z.of_nat (length bs) <= Z.of_nat (length l) -> length (set_bytes l o bs) = length l.
Proof. intros. unfold set_bytes. rewrite !length_app, length_take, length_drop. lia. Qed.
Lemma set_bytes_lookup l o bs i : 0 <= o -> o + Z.of_nat (length bs) <= Z.of_nat (length l) ->
  set_bytes l o bs !! i = if decide (o <= Z.of_nat i < o + Z.of_nat (length bs)) then bs !! (i - Z.to_nat o)%nat else l !! i.
Proof.
  intros Ho Hl. unfold set_bytes. destruct (decide (Z.of_nat i < o)).
  - rewrite decide_False by lia. rewrite lookup_app_l by (rewrite length_take; lia). apply lookup_take_lt. lia.
  - rewrite lookup_app_r by (rewrite length_take; lia). rewrite length_take. replace (Nat.min (Z.to_nat o) (length l)) with (Z.to_nat o) by lia.
    case_decide.
    + rewrite lookup_app_l by lia. done.
    + rewrite lookup_app_r by lia. rewrite lookup_drop. f_equal. lia.
Qed.
Lemma get_set_same l o bs : 0 <= o -> o + Z.of_nat (length bs) <= Z.of_nat (length l) -> get_bytes (set_bytes l o bs) o (Z.of_nat (length bs)) = bs.
Proof.
  intros Ho Hl. unfold get_bytes, set_bytes. rewrite drop_app_length' by (rewrite length_take; lia). rewrite Nat2Z.id. by rewrite take_app_length.
Qed.
Lemma get_set_apart l o bs o' n : 0 <= o -> o + Z.of_nat (length bs) <= Z.of_nat (length l) -> 0 <= o' -> 0 <= n ->
  o' + n <= o \/ o + Z.of_nat (length bs) <= o' -> get_bytes (set_bytes l o bs) o' n = get_bytes l o' n.
Proof.
  intros Ho Hl Ho' Hn Hd. apply list_eq. intros i. destruct (decide (Z.of_nat i < n)).
  - rewrite !get_bytes_lookup by lia. rewrite set_bytes_lookup by lia. by rewrite decide_False by lia.
  - unfold get_bytes. rewrite !lookup_take_ge by lia. done.
Qed.
Lemma set_bytes_Forall (P : Z -> Prop) l o bs : Forall P l -> Forall P bs -> Forall P (set_bytes l o bs).
Proof. intros Hl Hb. unfold set_bytes. rewrite !Forall_app. split; [by apply Forall_take|]. split; [done|by apply Forall_drop]. Qed.
Lemma get_bytes_ok (P : Z -> Prop) l o n : Forall P l -> Forall P (get_bytes l o n).
Proof. intros Hl. by apply Forall_take, Forall_drop. Qed.
Lemma set_bytes_app l o a b : 0 <= o -> o + Z.of_nat (length a) + Z.of_nat (length b) <= Z.of_nat (length l) ->
  set_bytes (set_bytes l o a) (o + Z.of_nat (length a)) b = set_bytes l o (a ++ b).
Proof.
  intros Ho Hl. assert (length (set_bytes l o a) = length l) as La by (apply set_bytes_length; lia). apply list_eq. intros i.
  rewrite !set_bytes_lookup by (rewrite ?La, ?length_app; lia). rewrite length_app. repeat case_decide; try lia; try done.
  - rewrite lookup_app_r by lia. f_equal. lia.
  - by rewrite lookup_app_l by lia.
Qed.
Lemma get_bytes_get l o n o' n' : 0 <= o -> 0 <= o' -> 0 <= n' -> o' + n' <= n -> get_bytes (get_bytes l o n) o' n' = get_bytes l (o + o') n'.
Proof.
  intros. apply list_eq. intros i. destruct (decide (Z.of_nat i < n')) as [Hi|Hi].
  - rewrite !get_bytes_lookup by lia. f_equal. lia.
  - unfold get_bytes. rewrite !lookup_take_ge by lia. done.
Qed.
Lemma get_bytes_mid a b c o n : o = Z.of_nat (length a) -> n = Z.of_nat (length b) -> get_bytes (a ++ b ++ c) o n = b.
Proof. intros -> ->. unfold get_bytes. rewrite !Nat2Z.id. rewrite drop_app_length, take_app_length. done. Qed.
