(* ===== verification/AllocSpec.v ===== *)
(** * AllocSpec: what an id allocator promises, and what its clients may rely on

    Frames, bitmap frames and pids are all handed out by allocators of the same
    shape: [alloc] returns an id nobody holds, [dealloc] takes one back, and an
    RAII handle ([FrameTracker], [PidHandle]) calls [dealloc] exactly once, when it
    is dropped. This file holds the abstract machine (a set of live ids), the
    interface class an implementation discharges, and the client theorem proved
    against the interface only: a program that holds handles and drops them never
    panics the allocator and never holds the same id twice. *)
From S2P Require Import Prelude.

(** ** The abstract machine: live ids drawn from a universe *)
Inductive event : Type :=
| EvAlloc (x : Z)
| EvFree (x : Z)
| EvFull.

Inductive spec_step (U : Z -> Prop) : gset Z -> event -> gset Z -> Prop :=
| spec_alloc L x : U x -> x ∉ L -> spec_step U L (EvAlloc x) ({[x]} ∪ L)
| spec_free L x : x ∈ L -> spec_step U L (EvFree x) (L ∖ {[x]})
| spec_full L : (forall x, U x -> x ∈ L) -> spec_step U L EvFull L.

Inductive spec_steps (U : Z -> Prop) : gset Z -> list event -> gset Z -> Prop :=
| spec_nil L : spec_steps U L [] L
| spec_cons L e L1 es L2 :
    spec_step U L e L1 -> spec_steps U L1 es L2 -> spec_steps U L (e :: es) L2.

Lemma spec_steps_snoc U L es L1 e L2 :
  spec_steps U L es L1 -> spec_step U L1 e L2 -> spec_steps U L (es ++ [e]) L2.
Proof.
  induction 1 as [L|L e' L' es' L'' Hs _ IH]; intros H; cbn.
  - econstructor; [done|constructor].
  - econstructor; [done|]. by apply IH.
Qed.

(** ** The interface *)
Class Allocator (S : Type) := {
  a_alloc : S -> outcome (option Z * S);
  a_free : S -> Z -> outcome S;
}.

(** [rep s L]: the concrete state [s] stands for the set [L] of live ids. *)
Class AllocatorOk (S : Type) `{Allocator S} (U : Z -> Prop) (rep : S -> gset Z -> Prop) := {
  a_alloc_ok : forall s L, rep s L ->
    exists o s', a_alloc s = Ret (o, s') /\
      match o with
      | Some x => U x /\ x ∉ L /\ rep s' ({[x]} ∪ L)
      | None => s' = s /\ forall x, U x -> x ∈ L
      end;
  a_free_ok : forall s L x, rep s L -> x ∈ L ->
    exists s', a_free s x = Ret s' /\ rep s' (L ∖ {[x]});
}.

(** ** A client that owns handles

    [held] is the collection of live trackers; a request allocates one more, or
    drops the one at a position (a position that holds nothing is skipped). *)
Inductive request : Type :=
| ReqAlloc
| ReqDrop (k : nat).

Record client (S : Type) := Client { c_alloc : S; c_held : list Z; c_trace : list event }.
Arguments Client {S}.
Arguments c_alloc {S}.
Arguments c_held {S}.
Arguments c_trace {S}.

Lemma NoDup_delete_set (l : list Z) k x :
  NoDup l -> l !! k = Some x ->
  NoDup (delete k l) /\
  (list_to_set (delete k l) : gset Z) = list_to_set l ∖ {[x]}.
Proof.
  intros Hnd Hk. apply delete_Permutation in Hk as Hp.
  rewrite Hp in Hnd. apply NoDup_cons in Hnd as [Hx Hnd]. split; [done|].
  rewrite (list_to_set_perm_L _ _ Hp). cbn. set_solver.
Qed.

Section Client.
Context {S : Type} `{Allocator S}.

Definition client_step (c : client S) (r : request) : outcome (client S) :=
  match r with
  | ReqAlloc =>
      '(o, s') ← a_alloc (c_alloc c);
      match o with
      | Some x => Ret (Client s' (c_held c ++ [x]) (c_trace c ++ [EvAlloc x]))
      | None => Ret (Client s' (c_held c) (c_trace c ++ [EvFull]))
      end
  | ReqDrop k =>
      match c_held c !! k with
      | Some x =>
          s' ← a_free (c_alloc c) x;
          Ret (Client s' (delete k (c_held c)) (c_trace c ++ [EvFree x]))
      | None => Ret c
      end
  end.

Fixpoint client_run (c : client S) (rs : list request) : outcome (client S) :=
  match rs with
  | [] => Ret c
  | r :: rs' => c' ← client_step c r; client_run c' rs'
  end.

Context {U : Z -> Prop} {rep : S -> gset Z -> Prop} `{!AllocatorOk S U rep}.

(** The client's view agrees with the allocator's, and its history is a run of
    the abstract machine. *)
Definition client_inv (L0 : gset Z) (c : client S) : Prop :=
  NoDup (c_held c) /\
  rep (c_alloc c) (L0 ∪ list_to_set (c_held c)) /\
  (list_to_set (c_held c) : gset Z) ## L0 /\
  spec_steps U L0 (c_trace c) (L0 ∪ list_to_set (c_held c)).

Lemma client_step_inv L0 c r :
  client_inv L0 c -> exists c', client_step c r = Ret c' /\ client_inv L0 c'.
Proof.
  intros (Hnd & Hrep & Hdj & Hsp). destruct r as [|k]; cbn.
  - destruct (a_alloc_ok _ _ Hrep) as (o & s' & Ha & Ho). rewrite Ha. cbn.
    destruct o as [x|].
    + destruct Ho as (HU & Hx & Hrep'). eexists. split; [done|].
      assert ({[x]} ∪ (L0 ∪ list_to_set (c_held c)) =
              L0 ∪ list_to_set (c_held c ++ [x])) as Heq.
      { rewrite list_to_set_app_L. cbn. set_solver. }
      repeat split; cbn.
      * apply NoDup_app. split; [done|]. split; [|apply NoDup_singleton].
        intros y Hy ->%list_elem_of_singleton. apply Hx. set_solver.
      * by rewrite <- Heq.
      * rewrite list_to_set_app_L. cbn. set_solver.
      * rewrite <- Heq. eapply spec_steps_snoc; [done|]. by constructor.
    + destruct Ho as [-> Hfull]. eexists. split; [done|].
      repeat split; cbn; try done. eapply spec_steps_snoc; [done|]. by constructor.
  - destruct (c_held c !! k) as [x|] eqn:Hk; [|by eexists].
    destruct (NoDup_delete_set _ _ _ Hnd Hk) as [Hnd' Hset].
    assert (x ∈ c_held c) as Hin by (by eapply list_elem_of_lookup_2).
    destruct (a_free_ok _ _ x Hrep) as (s' & Hf & Hrep'); [set_solver|].
    rewrite Hf. cbn. eexists. split; [done|].
    assert ((L0 ∪ list_to_set (c_held c)) ∖ {[x]} =
            L0 ∪ list_to_set (delete k (c_held c))) as Heq.
    { rewrite Hset. set_solver. }
    repeat split; cbn.
    + done.
    + by rewrite <- Heq.
    + rewrite Hset. set_solver.
    + rewrite <- Heq. eapply spec_steps_snoc; [done|]. constructor. set_solver.
Qed.

Lemma client_run_inv L0 rs : forall c,
  client_inv L0 c -> exists c', client_run c rs = Ret c' /\ client_inv L0 c'.
Proof.
  induction rs as [|r rs IH]; intros c Hc; [by exists c|].
  destruct (client_step_inv L0 c r Hc) as (c1 & H1 & Hc1). cbn. rewrite H1. cbn. by apply IH.
Qed.

(** Starting from a represented state, every sequence of requests runs without
    panic, the ids held stay pairwise distinct and apart from what was live
    before, and the history refines the abstract machine. *)
Lemma client_safe s L0 rs :
  rep s L0 ->
  exists c, client_run (Client s [] []) rs = Ret c /\
    NoDup (c_held c) /\
    (forall x, x ∈ c_held c -> x ∉ L0) /\
    rep (c_alloc c) (L0 ∪ list_to_set (c_held c)) /\
    spec_steps U L0 (c_trace c) (L0 ∪ list_to_set (c_held c)).
Proof.
  intros Hrep. assert (client_inv L0 (Client s [] [])) as H0.
  { split; [by apply NoDup_nil_2|]. cbn. rewrite union_empty_r_L.
    split; [done|]. split; [set_solver|constructor]. }
  destruct (client_run_inv L0 rs _ H0) as (c & Hc & H1 & H2 & H3 & H4).
  exists c. repeat split; try done. set_solver.
Qed.

End Client.
