(* ===== verification/Address.v ===== *)
(** * Address: addresses, page numbers and page ranges (os/src/mm/address.rs)

    [PhysAddr], [VirtAddr], [PhysPageNum] and [VirtPageNum] are one-field wrappers of
    [usize]; here they are the 64-bit integers themselves. The physical and the
    virtual variants have the same bodies, so each pair is one definition. *)
From S2P Require Import Prelude.

Definition PAGE_SIZE : Z := 0x1000.
Definition PAGE_SIZE_BITS : Z := 12.

(** ** VirtAddr and PhysAddr *)
Definition addr_floor (a : Z) : Z := a / PAGE_SIZE.
Definition addr_ceil (a : Z) : Z := (a ⊖ 1 ⊕ PAGE_SIZE) / PAGE_SIZE.
Definition page_offset (a : Z) : Z := Z.land a (PAGE_SIZE - 1).
Definition addr_aligned (a : Z) : bool := page_offset a =? 0.

(** [From<VirtAddr> for VirtPageNum], [From<PhysAddr> for PhysPageNum]: asserts alignment. *)
Definition pn_from_addr (a : Z) : outcome Z :=
  rust_assert (page_offset a =? 0) ;; Ret (addr_floor a).
(** [From<VirtPageNum> for VirtAddr], [start_addr]: the shift drops the high bits. *)
Definition addr_from_pn (p : Z) : Z := wrap 64 (Z.shiftl p PAGE_SIZE_BITS).
Definition start_addr (p : Z) : Z := wrap 64 (Z.shiftl p PAGE_SIZE_BITS).
(** [VirtPageNum::offset], [PhysPageNum::offset] *)
Definition pn_offset (p off : Z) : Z := wrap 64 (Z.shiftl p PAGE_SIZE_BITS) ⊕ off.

(** [VirtPageNum::indexes]: the loop fills the array from its last slot. *)
Fixpoint indexes_loop (n : nat) (vpn : Z) (acc : list Z) : list Z :=
  match n with
  | O => acc
  | S n' => indexes_loop n' (Z.shiftr vpn 9) (Z.land vpn 511 :: acc)
  end.
Definition indexes (T : nat) (vpn : Z) : list Z := indexes_loop T vpn [].

(** ** Physical memory, by page and 64-bit word ([get_dwords_array], [get_pte_array]) *)
Definition pmem : Type := Z -> Z -> Z.
Definition mem_zero_page (m : pmem) (ppn : Z) : pmem :=
  fun p i => if p =? ppn then 0 else m p i.
Definition mem_write (m : pmem) (ppn idx v : Z) : pmem :=
  fun p i => if (p =? ppn) && (i =? idx) then v else m p i.

Lemma mem_write_same m p i v : mem_write m p i v p i = v.
Proof. unfold mem_write. by rewrite !Z.eqb_refl. Qed.
Lemma mem_write_other m p i v q j : (q, j) <> (p, i) -> mem_write m p i v q j = m q j.
Proof. intros H. unfold mem_write. case_Z; cbn; congruence. Qed.
Lemma mem_zero_same m p i : mem_zero_page m p p i = 0.
Proof. unfold mem_zero_page. by rewrite Z.eqb_refl. Qed.
Lemma mem_zero_other m p q i : q <> p -> mem_zero_page m p q i = m q i.
Proof. intros H. unfold mem_zero_page. by case_Z. Qed.

(** ** SimpleRange and its iterator *)
Record SimpleRange : Type := MkRange { range_l : Z; range_r : Z }.
Definition range_new (start end_ : Z) : outcome SimpleRange :=
  rust_assert (start <=? end_) ;; Ret (MkRange start end_).
Definition get_start (r : SimpleRange) : Z := range_l r.
Definition get_end (r : SimpleRange) : Z := range_r r.

(** [StepByOne::step] *)
Definition step (p : Z) : Z := p ⊕ 1.

Record SimpleRangeIterator : Type := MkIter { it_current : Z; it_end : Z }.
Definition into_iter (r : SimpleRange) : SimpleRangeIterator := MkIter (range_l r) (range_r r).
Definition iter_next (it : SimpleRangeIterator) : option Z * SimpleRangeIterator :=
  if it_current it =? it_end it then (None, it)
  else (Some (it_current it), MkIter (step (it_current it)) (it_end it)).

(** [for x in range]: runs the iterator until it answers [None]; the fuel is a
    number of calls of [next], and [None] says it was not enough. *)
Fixpoint iter_collect (fuel : nat) (it : SimpleRangeIterator) : option (list Z) :=
  match fuel with
  | O => None
  | S f =>
      match iter_next it with
      | (None, _) => Some []
      | (Some x, it') => cons x <$> iter_collect f it'
      end
  end.

(** ** Lemmas *)
Lemma page_offset_mod a : 0 <= a -> page_offset a = a mod PAGE_SIZE.
Proof. intros. unfold page_offset. change (PAGE_SIZE - 1) with (Z.ones 12). by rewrite Z.land_ones. Qed.

Lemma start_addr_mul p : 0 <= p < 2 ^ 52 -> start_addr p = p * PAGE_SIZE.
Proof.
  intros. unfold start_addr. rewrite Z.shiftl_mul_pow2 by (unfold PAGE_SIZE_BITS; lia).
  apply wrap_small. unfold in_range, PAGE_SIZE, PAGE_SIZE_BITS. lia.
Qed.

Lemma floor_offset a : 0 <= a -> a = addr_floor a * PAGE_SIZE + page_offset a.
Proof.
  intros. rewrite page_offset_mod by done. unfold addr_floor, PAGE_SIZE.
  pose proof (Z.div_mod a 4096). lia.
Qed.

Lemma indexes3 vpn : indexes 3 vpn =
  [Z.land (Z.shiftr (Z.shiftr vpn 9) 9) 511; Z.land (Z.shiftr vpn 9) 511; Z.land vpn 511].
Proof. reflexivity. Qed.

(** Taking an address apart and putting it together. For every 64-bit address
    [floor], [page_offset] and [VirtPageNum::offset] are inverse, [floor] is the page
    that contains it, and the checked conversion to a page number succeeds exactly
    on page-aligned addresses, where converting back gives the address. *)
Theorem address_decomposition a :
  in_range 64 a ->
  pn_offset (addr_floor a) (page_offset a) = a /\
  start_addr (addr_floor a) <= a < start_addr (addr_floor a) + PAGE_SIZE /\
  (addr_aligned a = true -> pn_from_addr a = Ret (addr_floor a) /\ addr_from_pn (addr_floor a) = a) /\
  (addr_aligned a = false -> pn_from_addr a = Panic).
Proof.
  intros Ha. pose proof Ha as [H0 H1]. pose proof (floor_offset a H0) as Hd.
  pose proof (Z.mod_pos_bound a PAGE_SIZE ltac:(done)) as Hm. rewrite <- page_offset_mod in Hm by done.
  assert (0 <= addr_floor a < 2 ^ 52) as Hf.
  { unfold addr_floor, PAGE_SIZE. split; [apply Z.div_pos; lia|apply Z.div_lt_upper_bound; lia]. }
  pose proof (start_addr_mul _ Hf) as Hs.
  repeat split.
  - unfold pn_offset. fold (start_addr (addr_floor a)). rewrite Hs, add64_small; [done|].
    by rewrite <- Hd.
  - lia.
  - lia.
  - unfold addr_aligned in H. unfold pn_from_addr. by rewrite H.
  - unfold addr_aligned in H. apply Z.eqb_eq in H.
    change (addr_from_pn (addr_floor a)) with (start_addr (addr_floor a)). lia.
  - intros H. unfold addr_aligned in H. unfold pn_from_addr. by rewrite H.
Qed.

(** At an unaligned user address. *)
Lemma address_decomposition_witness :
  in_range 64 0x60001234 /\
  pn_offset (addr_floor 0x60001234) (page_offset 0x60001234) = 0x60001234 /\
  start_addr (addr_floor 0x60001234) <= 0x60001234 < start_addr (addr_floor 0x60001234) + PAGE_SIZE /\
  (addr_aligned 0x60001234 = true -> pn_from_addr 0x60001234 = Ret (addr_floor 0x60001234) /\
     addr_from_pn (addr_floor 0x60001234) = 0x60001234) /\
  (addr_aligned 0x60001234 = false -> pn_from_addr 0x60001234 = Panic).
Proof.
  assert (in_range 64 0x60001234) by (unfold in_range; lia).
  split; [done|]. by apply (address_decomposition 0x60001234).
Defined.

(** [ceil] rounds up, except that addresses in the last page wrap to page 0. *)
Lemma addr_ceil_spec a : in_range 64 a ->
  addr_ceil a = if a <=? 2 ^ 64 - PAGE_SIZE then (a + (PAGE_SIZE - 1)) / PAGE_SIZE else 0.
Proof.
  intros [H0 H1]. unfold addr_ceil, add64, sub64, wrap, PAGE_SIZE.
  rewrite Zplus_mod_idemp_l. replace (a - 1 + 0x1000) with (a + 4095) by lia.
  destruct (Z.leb_spec a (2 ^ 64 - 0x1000)).
  - rewrite Z.mod_small by lia. f_equal.
  - rewrite <- (Z_mod_plus_full _ (-1)), Z.mod_small by lia. apply Z.div_small. lia.
Qed.

(** ** Page-table indices *)
Definition join_indexes (l : list Z) : Z := foldl (fun acc i => acc * 512 + i) 0 l.

Lemma indexes_loop_join n : forall vpn acc,
  0 <= vpn -> foldl (fun a i => a * 512 + i) (vpn / 512 ^ Z.of_nat n) (indexes_loop n vpn acc) =
  foldl (fun a i => a * 512 + i) vpn acc.
Proof.
  induction n as [|n IH]; intros vpn acc Hv; cbn [indexes_loop].
  - by rewrite Z.div_1_r.
  - assert (vpn / 512 ^ Z.of_nat (S n) = Z.shiftr vpn 9 / 512 ^ Z.of_nat n) as Hq.
    { rewrite Z.shiftr_div_pow2 by lia. rewrite Z.div_div by lia. f_equal.
      rewrite Nat2Z.inj_succ, Z.pow_succ_r by lia. done. }
    rewrite Hq, IH by (apply Z.shiftr_nonneg; lia). cbn [foldl]. f_equal.
    rewrite Z.shiftr_div_pow2 by lia. change 511 with (Z.ones 9). rewrite Z.land_ones by lia.
    pose proof (Z.div_mod vpn (2 ^ 9)). lia.
Qed.

Lemma indexes_loop_range n : forall vpn acc,
  Forall (in_range 9) acc -> Forall (in_range 9) (indexes_loop n vpn acc).
Proof.
  induction n as [|n IH]; intros vpn acc H; [done|]. apply IH. constructor; [|done].
  change 511 with (Z.ones 9). rewrite Z.land_ones by lia. apply wrap_range. lia.
Qed.

Lemma indexes_length n : forall vpn acc, length (indexes_loop n vpn acc) = (n + length acc)%nat.
Proof. induction n as [|n IH]; intros; [done|]. cbn. rewrite IH. cbn. lia. Qed.

(** The three indices of a 27-bit page number are in range and determine it. *)
Lemma indexes3_range vpn : Forall (fun i => 0 <= i < 512) (indexes 3 vpn).
Proof. apply (indexes_loop_range 3 vpn []). constructor. Qed.

(** Only the low 27 bits of a page number are indexed. *)
Lemma indexes3_low v : indexes 3 v = indexes 3 (v mod 2 ^ 27).
Proof.
  rewrite !indexes3, !Z.shiftr_shiftr by lia.
  assert (forall k, 0 <= k <= 18 -> Z.land (Z.shiftr v k) 511 = Z.land (Z.shiftr (v mod 2 ^ 27) k) 511) as H.
  { intros k Hk. apply Z.bits_inj'. intros i Hi. rewrite !Z.land_spec, !Z.shiftr_spec by lia. change 511 with (Z.ones 9).
    destruct (Z.ltb_spec i 9); [by rewrite Z.mod_pow2_bits_low by lia|].
    rewrite Z.ones_spec_high by lia. by rewrite !andb_false_r. }
  rewrite (H (9 + 9)), (H 9) by lia. do 2 f_equal. specialize (H 0 ltac:(lia)). rewrite !Z.shiftr_0_r in H. by rewrite H.
Qed.

Lemma indexes3_inj v1 v2 : 0 <= v1 < 2 ^ 27 -> 0 <= v2 < 2 ^ 27 -> indexes 3 v1 = indexes 3 v2 -> v1 = v2.
Proof.
  intros H1 H2 E. pose proof (indexes_loop_join 3 v1 []) as J1. pose proof (indexes_loop_join 3 v2 []) as J2.
  change (512 ^ Z.of_nat 3) with (2 ^ 27) in *. rewrite Z.div_small in J1 by lia. rewrite Z.div_small in J2 by lia.
  unfold indexes in E. rewrite E in J1. rewrite J2 in J1 by lia. symmetry. apply J1. lia.
Qed.

(** [indexes] splits a virtual page number into [T] table indices below 512,
    most significant first, from which the page number is recovered: for a page
    number of [9 T] bits nothing is lost, so distinct pages have distinct paths. *)
Theorem indexes_roundtrip T vpn :
  0 <= vpn < 512 ^ Z.of_nat T ->
  length (indexes T vpn) = T /\ Forall (fun i => 0 <= i < 512) (indexes T vpn) /\
  join_indexes (indexes T vpn) = vpn.
Proof.
  intros Hv. repeat split.
  - unfold indexes. rewrite indexes_length. cbn. lia.
  - apply (indexes_loop_range T vpn []). constructor.
  - pose proof (indexes_loop_join T vpn []) as H. rewrite Z.div_small in H by lia. apply H. lia.
Qed.

(** At the three-level index of the page of address 0x60001234. *)
Lemma indexes_roundtrip_witness :
  length (indexes 3 0x60001) = 3%nat /\ Forall (fun i => 0 <= i < 512) (indexes 3 0x60001) /\
  join_indexes (indexes 3 0x60001) = 0x60001.
Proof. apply (indexes_roundtrip 3 0x60001). lia. Defined.

(** ** Iteration *)
Lemma iter_collect_spec fuel : forall l r,
  0 <= l <= r -> r < 2 ^ 64 -> r - l < Z.of_nat fuel ->
  iter_collect fuel (MkIter l r) = Some (seqZ l (r - l)).
Proof.
  induction fuel as [|f IH]; intros l r Hl Hr Hf; [lia|].
  cbn. unfold iter_next. cbn. destruct (Z.eqb_spec l r) as [->|Hne].
  - by rewrite Z.sub_diag.
  - cbn. unfold step. rewrite add64_small by (unfold in_range; lia).
    rewrite IH by lia. cbn. f_equal. rewrite (seqZ_cons l) by lia.
    f_equal. f_equal; lia.
Qed.

(** A page range built by [SimpleRange::new] is iterated completely: the loop
    ends, after [r - l + 1] calls of [next], having yielded exactly the page numbers
    from [l] up to, not including, [r], in order. *)
Theorem range_iteration l r :
  0 <= l <= r -> r < 2 ^ 64 ->
  exists rg, range_new l r = Ret rg /\
    iter_collect (Z.to_nat (r - l + 1)) (into_iter rg) = Some (seqZ l (r - l)).
Proof.
  intros Hl Hr. unfold range_new. destruct (Z.leb_spec l r); [|lia]. cbn.
  eexists. split; [done|]. apply iter_collect_spec; lia.
Qed.

(** On the pages 5, 6, 7. *)
Lemma range_iteration_witness :
  exists rg, range_new 5 8 = Ret rg /\
    iter_collect (Z.to_nat (8 - 5 + 1)) (into_iter rg) = Some (seqZ 5 (8 - 5)).
Proof. apply (range_iteration 5 8); lia. Defined.
