(* ===== verification/BitVec.v ===== *)
(** * BitVec: a bit vector stored as a list of machine words

    The frame bitmap, the swap map, the active-task tracker and the ext4 block
    bitmap all keep one bit per item in a vector of words of some width, and read
    and write bit [i] through word [i / W] and bit [i mod W]. The lemmas here are
    shared by those components. *)
From S2P Require Import Prelude.

Definition bv_test (W : Z) (bm : list Z) (i : Z) : bool :=
  match bm !! Z.to_nat (i / W) with
  | Some w => Z.testbit w (i mod W)
  | None => false
  end.

Definition bv_words (W : Z) (bm : list Z) : Prop := Forall (in_range W) bm.

(** [w & (1 << k) == 0], the way the kernel tests a bit. *)
Lemma land_bit_zero w k : 0 <= w -> 0 <= k -> (Z.land w (Z.shiftl 1 k) =? 0) = negb (Z.testbit w k).
Proof.
  intros Hw Hk. destruct (Z.eqb_spec (Z.land w (Z.shiftl 1 k)) 0) as [E|E].
  - apply (f_equal (fun x => Z.testbit x k)) in E.
    rewrite Z.land_spec, testbit_one_shift, Z.eqb_refl, Z.bits_0, andb_true_r in E by lia.
    by rewrite E.
  - destruct (Z.testbit w k) eqn:T; [done|]. exfalso. apply E. apply Z.bits_inj'.
    intros i Hi. rewrite Z.land_spec, testbit_one_shift, Z.bits_0 by lia.
    destruct (Z.eqb_spec i k) as [->|]; [by rewrite T|apply andb_false_r].
Qed.

Section Width.
Context (W : Z) (HW : 0 < W).

Lemma bv_index_nat i : 0 <= i -> Z.of_nat (Z.to_nat (i / W)) = i / W.
Proof. intros. rewrite Z2Nat.id; [done|]. apply Z.div_pos; lia. Qed.

Lemma bv_lookup_lt (bm : list Z) i :
  0 <= i < W * Z.of_nat (length bm) -> exists w, bm !! Z.to_nat (i / W) = Some w.
Proof.
  intros Hi. apply lookup_lt_is_Some_2.
  assert (i / W < Z.of_nat (length bm)) by (apply Z.div_lt_upper_bound; lia).
  apply Nat2Z.inj_lt. rewrite bv_index_nat; lia.
Qed.

Lemma bv_lookup_range bm i w :
  bv_words W bm -> bm !! i = Some w -> in_range W w.
Proof. intros H Hi. by eapply Forall_lookup_1 in H. Qed.

Lemma bv_test_lookup bm i w :
  bm !! Z.to_nat (i / W) = Some w -> bv_test W bm i = Z.testbit w (i mod W).
Proof. intros H. unfold bv_test. by rewrite H. Qed.

Lemma bv_test_word bm j k w :
  0 <= j -> 0 <= k < W -> bm !! Z.to_nat j = Some w ->
  bv_test W bm (j * W + k) = Z.testbit w k.
Proof.
  intros Hj Hk H. unfold bv_test.
  rewrite Z.div_add_l, Z.div_small, Z.add_0_r by lia. rewrite H.
  rewrite Z.add_comm, Z_mod_plus_full, Z.mod_small by lia. done.
Qed.

(** Items in different words, or at different bits of one word. *)
Lemma bv_split i j : 0 <= i -> 0 <= j -> i <> j ->
  Z.to_nat (i / W) <> Z.to_nat (j / W) \/ i / W = j / W /\ i mod W <> j mod W.
Proof.
  intros Hi Hj Hne. destruct (Z.eqb_spec (i / W) (j / W)) as [E|E].
  - right. split; [done|]. intros Hm. apply Hne.
    rewrite (Z.div_mod i W), (Z.div_mod j W) by lia. by rewrite E, Hm.
  - left. intros Hn. apply E. rewrite <- (bv_index_nat i), <- (bv_index_nat j), Hn by lia. done.
Qed.

Lemma bv_test_update bm i j w w' :
  0 <= i -> 0 <= j -> bm !! Z.to_nat (i / W) = Some w ->
  (forall k, 0 <= k < W -> k <> i mod W -> Z.testbit w' k = Z.testbit w k) ->
  bv_test W (<[Z.to_nat (i / W) := w']> bm) j =
  if j =? i then Z.testbit w' (i mod W) else bv_test W bm j.
Proof.
  intros Hi Hj Hw Hk. unfold bv_test.
  assert (Z.to_nat (i / W) < length bm)%nat by (by eapply lookup_lt_Some).
  destruct (Z.eqb_spec j i) as [->|Hne].
  - by rewrite list_lookup_insert_eq.
  - destruct (bv_split i j Hi Hj ltac:(done)) as [Hn|[Hq Hm]].
    + by rewrite list_lookup_insert_ne.
    + rewrite <- Hq, list_lookup_insert_eq, Hw by done. apply Hk; [|done].
      apply Z.mod_pos_bound. lia.
Qed.

Lemma bv_test_set bm i j w :
  0 <= i -> 0 <= j -> bm !! Z.to_nat (i / W) = Some w ->
  bv_test W (<[Z.to_nat (i / W) := bit_set w (i mod W)]> bm) j =
  (j =? i) || bv_test W bm j.
Proof.
  intros Hi Hj Hw. pose proof (Z.mod_pos_bound i W HW).
  rewrite (bv_test_update _ _ _ w) by (try done; intros k Hk Hne;
    rewrite testbit_bit_set by lia; destruct (Z.eqb_spec k (i mod W)); done).
  case_Z; [|done]. by rewrite testbit_bit_set, Z.eqb_refl by lia.
Qed.

Lemma bv_test_clear bm i j w :
  0 <= i -> 0 <= j -> bm !! Z.to_nat (i / W) = Some w ->
  bv_test W (<[Z.to_nat (i / W) := bit_clear W w (i mod W)]> bm) j =
  negb (j =? i) && bv_test W bm j.
Proof.
  intros Hi Hj Hw. pose proof (Z.mod_pos_bound i W HW).
  rewrite (bv_test_update _ _ _ w) by (try done; intros k Hk Hne;
    rewrite testbit_bit_clear by lia; destruct (Z.eqb_spec k (i mod W)); done).
  case_Z; [|done]. by rewrite testbit_bit_clear, Z.eqb_refl by lia.
Qed.

Lemma bv_words_insert bm i w : bv_words W bm -> in_range W w -> bv_words W (<[i := w]> bm).
Proof. intros. by apply Forall_insert. Qed.

Lemma bv_words_set bm i w :
  bv_words W bm -> bm !! Z.to_nat (i / W) = Some w ->
  bv_words W (<[Z.to_nat (i / W) := bit_set w (i mod W)]> bm).
Proof.
  intros H Hw. apply bv_words_insert; [done|]. apply bit_set_range.
  - by eapply bv_lookup_range.
  - apply Z.mod_pos_bound. lia.
Qed.

Lemma bv_words_clear bm i w :
  bv_words W bm -> bm !! Z.to_nat (i / W) = Some w ->
  bv_words W (<[Z.to_nat (i / W) := bit_clear W w (i mod W)]> bm).
Proof.
  intros H Hw. apply bv_words_insert; [done|]. apply bit_clear_range.
  - by eapply bv_lookup_range.
  - apply Z.mod_pos_bound. lia.
Qed.

Lemma bv_test_replicate n i : bv_test W (replicate n 0) i = false.
Proof.
  unfold bv_test. destruct (replicate n 0 !! Z.to_nat (i / W)) as [w|] eqn:E; [|done].
  apply lookup_replicate in E as [-> _]. apply Z.bits_0.
Qed.

Lemma bv_words_replicate n : bv_words W (replicate n 0).
Proof. apply Forall_replicate. unfold in_range. lia. Qed.

End Width.

#[export] Hint Resolve bv_words_set bv_words_clear bv_words_replicate : kernel.
