(* ===== verification/BitmapAlloc.v ===== *)
(** * BitmapAlloc: the bitmap frame allocator (os/src/mm/bitmap_alloc.rs)

    One bit per frame in a vector of 64-bit words, next-fit from a word hint. The
    words are [Z] with [Z.testbit]; indexing can panic, so the operations return an
    [outcome]. The refinement relation [bm_rep] reads the bitmap as a set of live
    frame numbers and discharges the allocator interface of AllocSpec. *)
From S2P Require Import Prelude BitVec AllocSpec.

Module BitmapFrameAllocator.

Definition BITS_PER_WORD : Z := 64.

Record t : Type := Mk {
  bitmap : list Z;
  start_ppn : Z;
  total_frames : Z;
  alloc_hint : Z;
  allocated_count : Z;
}.

Definition new : t := Mk [] 0 0 0 0.

(** The words of a fresh bitmap: zero, with the padding bits of the last word set. *)
Definition init_words (total : Z) : list Z :=
  let word_count := (total ⊕ BITS_PER_WORD ⊖ 1) / BITS_PER_WORD in
  let bm := replicate (Z.to_nat word_count) 0 in
  let valid_bits_in_last := total mod BITS_PER_WORD in
  if negb (valid_bits_in_last =? 0) && negb (bool_decide (bm = [])) then
    let last_idx := (length bm - 1)%nat in
    let mask := not_bits 64 (Z.shiftl 1 valid_bits_in_last - 1) in
    <[last_idx := Z.lor (default 0 (bm !! last_idx)) mask]> bm
  else bm.

Definition init (s : t) (start end_ : Z) : outcome t :=
  rust_assert (start <? end_) ;;
  let total := end_ ⊖ start in
  Ret (Mk (init_words total) start total 0 0).

Definition unallocated_frames (s : t) : Z := total_frames s ⊖ allocated_count s.
Definition allocated_frames (s : t) : Z := allocated_count s.

Definition index_to_ppn (s : t) (idx : Z) : Z := start_ppn s ⊕ idx.

Definition ppn_to_index (s : t) (ppn : Z) : option Z :=
  if (start_ppn s <=? ppn) && (ppn <? start_ppn s ⊕ total_frames s)
  then Some (ppn ⊖ start_ppn s) else None.

(** The search loop of [alloc_frame]: [fuel] offsets remain, [offset] is next. *)
Fixpoint alloc_scan (s : t) (fuel : nat) (offset : Z) : outcome (option Z * t) :=
  match fuel with
  | O => Ret (None, s)
  | S f =>
      let word_count := Z.of_nat (length (bitmap s)) in
      let word_idx := (alloc_hint s ⊕ offset) mod word_count in
      word ← index (bitmap s) word_idx;
      if word =? 2 ^ 64 - 1 then alloc_scan s f (offset + 1)
      else
        let bit_idx := trailing_zeros 64 (not_bits 64 word) in
        let frame_idx := word_idx ⊗ BITS_PER_WORD ⊕ bit_idx in
        if frame_idx <? total_frames s then
          bm' ← store (bitmap s) word_idx (bit_set word bit_idx);
          Ret (Some (index_to_ppn s frame_idx),
               Mk bm' (start_ppn s) (total_frames s) word_idx (allocated_count s ⊕ 1))
        else alloc_scan s f (offset + 1)
  end.

Definition alloc_frame (s : t) : outcome (option Z * t) :=
  if bool_decide (bitmap s = []) then Ret (None, s)
  else alloc_scan s (length (bitmap s)) 0.

(** [for i in i..i+n { bitmap[i/64] |= 1 << (i%64) }] *)
Fixpoint mark_range (bm : list Z) (i : Z) (n : nat) : outcome (list Z) :=
  match n with
  | O => Ret bm
  | S n' =>
      let w := i / BITS_PER_WORD in
      let b := i mod BITS_PER_WORD in
      word ← index bm w;
      bm' ← store bm w (bit_set word b);
      mark_range bm' (i + 1) n'
  end.

(** The scan of [alloc_contiguous]: [fuel] indices remain, [idx] is next. *)
Fixpoint contiguous_scan (s : t) (count : Z) (fuel : nat) (idx consecutive start_idx : Z)
  : outcome (option Z * t) :=
  match fuel with
  | O => Ret (None, s)
  | S f =>
      word ← index (bitmap s) (idx / BITS_PER_WORD);
      let is_free := Z.land word (Z.shiftl 1 (idx mod BITS_PER_WORD)) =? 0 in
      if is_free then
        let start_idx' := if consecutive =? 0 then idx else start_idx in
        let consecutive' := consecutive + 1 in
        if count <=? consecutive' then
          bm' ← mark_range (bitmap s) start_idx' (Z.to_nat count);
          Ret (Some (index_to_ppn s start_idx'),
               Mk bm' (start_ppn s) (total_frames s) (alloc_hint s) (allocated_count s ⊕ count))
        else contiguous_scan s count f (idx + 1) consecutive' start_idx'
      else contiguous_scan s count f (idx + 1) 0 start_idx
  end.

Definition alloc_contiguous (s : t) (count : Z) : outcome (option Z * t) :=
  if count =? 0 then Ret (None, s)
  else if count =? 1 then alloc_frame s
  else contiguous_scan s count (Z.to_nat (total_frames s)) 0 0 0.

(** [debug_assertions] is the compile-time configuration flag. *)
Definition dealloc_frame (debug_assertions : bool) (s : t) (ppn : Z) : outcome t :=
  match ppn_to_index s ppn with
  | None => Panic
  | Some frame_idx =>
      let word_idx := frame_idx / BITS_PER_WORD in
      let bit_idx := frame_idx mod BITS_PER_WORD in
      word ← index (bitmap s) word_idx;
      rust_assert (negb debug_assertions || negb (Z.land word (Z.shiftl 1 bit_idx) =? 0)) ;;
      bm' ← store (bitmap s) word_idx (bit_clear 64 word bit_idx);
      Ret (Mk bm' (start_ppn s) (total_frames s) word_idx (allocated_count s ⊖ 1))
  end.

Definition is_allocated (s : t) (ppn : Z) : outcome bool :=
  match ppn_to_index s ppn with
  | None => Ret false
  | Some idx =>
      word ← index (bitmap s) (idx / BITS_PER_WORD);
      Ret (negb (Z.land word (Z.shiftl 1 (idx mod BITS_PER_WORD)) =? 0))
  end.

Record AllocatorStats : Type := MkStats {
  st_total_frames : Z;
  st_allocated_frames : Z;
  st_free_frames : Z;
  st_bitmap_words : Z;
  st_bitmap_bytes : Z;
}.

Definition statistics (s : t) : AllocatorStats :=
  MkStats (total_frames s) (allocated_count s) (unallocated_frames s)
    (Z.of_nat (length (bitmap s))) (Z.of_nat (length (bitmap s)) ⊗ 8).

(** The test of os/src/mm/bitmap_alloc.rs, run on the model. *)
Example bitmap_alloc_test :
  (s0 ← init new 0x1000 0x1100;
   '(f1, s1) ← alloc_frame s0;
   '(f2, s2) ← alloc_frame s1;
   s3 ← dealloc_frame true s2 0x1000;
   a1 ← is_allocated s3 0x1000;
   a2 ← is_allocated s3 0x1001;
   Ret (f1, f2, allocated_frames s2, a1, a2, allocated_frames s3, unallocated_frames s3))
  = Ret (Some 0x1000, Some 0x1001, 2, false, true, 1, 255).
Proof. vm_compute. reflexivity. Qed.

Example bitmap_contiguous_test :
  (s0 ← init new 0 1024;
   '(_, s1) ← alloc_frame s0;
   '(o, s2) ← alloc_contiguous s1 70;
   a ← is_allocated s2 70;
   b ← is_allocated s2 71;
   Ret (o, allocated_frames s2, a, b)) = Ret (Some 1, 71, true, false).
Proof. vm_compute. reflexivity. Qed.

(** ** The representation invariant *)

(** Shape of the bitmap: enough words, all in range, padding bits set. *)
Record bm_wf (s : t) : Prop := {
  wf_start : 0 <= start_ppn s;
  wf_total : 0 < total_frames s;
  wf_end : start_ppn s + total_frames s < 2 ^ 64;
  wf_len : Z.of_nat (length (bitmap s)) = (total_frames s + 63) / 64;
  wf_words : bv_words 64 (bitmap s);
  wf_pad : forall i, total_frames s <= i < 64 * Z.of_nat (length (bitmap s)) ->
    bv_test 64 (bitmap s) i = true;
  wf_hint : 0 <= alloc_hint s < Z.of_nat (length (bitmap s));
}.

(** Frame [x] is live when it is managed and its bit is set. *)
Definition bm_live (s : t) (x : Z) : Prop :=
  start_ppn s <= x < start_ppn s + total_frames s /\
  bv_test 64 (bitmap s) (x - start_ppn s) = true.

Definition bm_rep (s : t) (L : gset Z) : Prop :=
  bm_wf s /\ (forall x, x ∈ L <-> bm_live s x) /\ allocated_count s = Z.of_nat (size L).

Definition bm_universe (start total : Z) (x : Z) : Prop := start <= x < start + total.

Lemma wf_len_bounds s : bm_wf s ->
  0 < Z.of_nat (length (bitmap s)) < 2 ^ 58 + 1 /\
  total_frames s <= 64 * Z.of_nat (length (bitmap s)).
Proof.
  intros [H1 H2 H3 H4 _ _ _]. rewrite H4.
  pose proof (Z.div_mod (total_frames s + 63) 64). pose proof (Z.mod_pos_bound (total_frames s + 63) 64).
  lia.
Qed.

Lemma wf_lookup s i : bm_wf s -> 0 <= i < total_frames s ->
  exists w, bitmap s !! Z.to_nat (i / 64) = Some w /\ in_range 64 w.
Proof.
  intros Hwf Hi. destruct (wf_len_bounds s Hwf) as [_ Hb].
  destruct (bv_lookup_lt 64 ltac:(lia) (bitmap s) i) as [w Hw]; [lia|].
  exists w. split; [done|]. eapply bv_lookup_range; [apply Hwf|done].
Qed.

(** A set of managed frames has at most as many members as there are frames. *)
Lemma managed_size start total (L : gset Z) :
  0 <= total -> (forall x, x ∈ L -> bm_universe start total x) -> Z.of_nat (size L) <= total.
Proof.
  intros Ht HL. assert (L ⊆ list_to_set (seqZ start total)) as Hs.
  { intros x Hx%HL. apply elem_of_list_to_set, elem_of_seqZ. done. }
  apply subseteq_size in Hs. rewrite size_list_to_set in Hs by apply NoDup_seqZ.
  rewrite length_seqZ in Hs. lia.
Qed.

Lemma bm_rep_managed s L x : bm_rep s L -> x ∈ L -> bm_universe (start_ppn s) (total_frames s) x.
Proof. intros (_ & HL & _) Hx. by apply HL in Hx as [Hx _]. Qed.

Lemma bm_rep_size s L : bm_rep s L -> Z.of_nat (size L) <= total_frames s.
Proof.
  intros Hrep. apply (managed_size (start_ppn s)).
  - apply Z.lt_le_incl, Hrep.
  - intros x. by apply bm_rep_managed.
Qed.

Lemma ppn_to_index_spec s ppn : bm_wf s -> 0 <= ppn < 2 ^ 64 ->
  ppn_to_index s ppn =
  if (start_ppn s <=? ppn) && (ppn <? start_ppn s + total_frames s)
  then Some (ppn - start_ppn s) else None.
Proof.
  intros [H1 H2 H3 _ _ _ _] Hp. unfold ppn_to_index.
  rewrite add64_small by (unfold in_range; lia).
  case_Z; cbn; try done. by rewrite sub64_small by lia.
Qed.

(** ** Setting and clearing one bit of a represented state *)

Lemma bm_rep_set s L i w hint :
  bm_rep s L -> 0 <= i < total_frames s -> bitmap s !! Z.to_nat (i / 64) = Some w ->
  0 <= hint < Z.of_nat (length (bitmap s)) -> bv_test 64 (bitmap s) i = false ->
  bm_rep (Mk (<[Z.to_nat (i / 64) := bit_set w (i mod 64)]> (bitmap s))
             (start_ppn s) (total_frames s) hint (allocated_count s ⊕ 1))
         ({[start_ppn s + i]} ∪ L) /\ start_ppn s + i ∉ L.
Proof.
  intros Hrep Hi Hw Hh Hf. pose proof (bm_rep_size s L Hrep) as Hsz.
  destruct Hrep as (Hwf & HL & Hc). pose proof Hwf as [H1 H2 H3 H4 H5 H6 _].
  assert (start_ppn s + i ∉ L) as Hnew.
  { intros [_ Hx]%HL. by replace (start_ppn s + i - start_ppn s) with i in Hx by lia; rewrite Hx in Hf. }
  split; [|done]. split; [|split].
  - constructor; cbn; rewrite ?length_insert; try done.
    + by apply bv_words_set.
    + intros j Hj. rewrite bv_test_set by (done || lia). rewrite H6 by lia. apply orb_true_r.
  - intros x. unfold bm_live. cbn. rewrite elem_of_union, elem_of_singleton, HL. unfold bm_live.
    split.
    + intros [->|[Hr Ht]]; (split; [lia|]); rewrite bv_test_set by (done || lia).
      * replace (start_ppn s + i - start_ppn s) with i by lia. by rewrite Z.eqb_refl.
      * by rewrite Ht, orb_true_r.
    + intros [Hr Ht]. rewrite bv_test_set in Ht by (done || lia).
      destruct (Z.eqb_spec (x - start_ppn s) i); [left; lia|by right].
  - cbn. rewrite size_union, size_singleton by set_solver.
    assert (Z.of_nat (size ({[start_ppn s + i]} ∪ L)) <= total_frames s) as Hsz'.
    { apply (managed_size (start_ppn s)); [lia|]. intros x. rewrite elem_of_union, elem_of_singleton.
      unfold bm_universe. intros [->|[? _]%HL]; lia. }
    rewrite size_union, size_singleton in Hsz' by set_solver.
    rewrite Hc, add64_small; unfold in_range; lia.
Qed.

Lemma bm_rep_clear s L i w hint :
  bm_rep s L -> 0 <= i < total_frames s -> bitmap s !! Z.to_nat (i / 64) = Some w ->
  0 <= hint < Z.of_nat (length (bitmap s)) -> start_ppn s + i ∈ L ->
  bm_rep (Mk (<[Z.to_nat (i / 64) := bit_clear 64 w (i mod 64)]> (bitmap s))
             (start_ppn s) (total_frames s) hint (allocated_count s ⊖ 1))
         (L ∖ {[start_ppn s + i]}).
Proof.
  intros Hrep Hi Hw Hh Hin. pose proof (bm_rep_size s L Hrep) as Hsz.
  destruct Hrep as (Hwf & HL & Hc). pose proof Hwf as [H1 H2 H3 H4 H5 H6 _].
  split; [|split].
  - constructor; cbn; rewrite ?length_insert; try done.
    + by apply bv_words_clear.
    + intros j Hj. rewrite bv_test_clear by (done || lia). rewrite H6 by lia. case_Z; [lia|done].
  - intros x. unfold bm_live. cbn. rewrite elem_of_difference, elem_of_singleton, HL. unfold bm_live.
    split.
    + intros [[Hr Ht] Hne]. split; [lia|]. rewrite bv_test_clear by (done || lia).
      rewrite Ht. case_Z; [lia|done].
    + intros [Hr Ht]. rewrite bv_test_clear in Ht by (done || lia).
      apply andb_true_iff in Ht as [Hn Ht]. case_Z; [done|]. split; [done|lia].
  - cbn. rewrite Hc. assert (size ({[start_ppn s + i]} : gset Z) = 1%nat) as H1s by apply size_singleton.
    rewrite size_difference by set_solver. rewrite H1s.
    assert (size L <> 0)%nat by (intros E%size_empty_inv; set_solver).
    rewrite sub64_small; lia.
Qed.

(** ** Initialisation *)

Lemma word_count_spec total : 0 < total < 2 ^ 63 ->
  (total ⊕ BITS_PER_WORD ⊖ 1) / BITS_PER_WORD = (total + 63) / 64.
Proof.
  intros H. unfold BITS_PER_WORD. rewrite add64_small by (unfold in_range; lia).
  rewrite sub64_small by lia. f_equal. lia.
Qed.

Lemma testbit_pad_mask v j : 0 <= v -> 0 <= j < 64 ->
  Z.testbit (Z.lor 0 (not_bits 64 (Z.shiftl 1 v - 1))) j = (v <=? j).
Proof.
  intros Hv Hj. rewrite Z.lor_0_l, testbit_not_bits by lia.
  rewrite Z.shiftl_1_l. replace (2 ^ v - 1) with (Z.ones v) by (rewrite Z.ones_equiv; lia).
  case_Z; [by rewrite Z.ones_spec_high by lia|by rewrite Z.ones_spec_low by lia].
Qed.

Lemma pad_mask_range v : 0 <= v < 64 -> in_range 64 (Z.lor 0 (not_bits 64 (Z.shiftl 1 v - 1))).
Proof.
  intros Hv. rewrite Z.lor_0_l, Z.shiftl_1_l. apply not_bits_range; [lia|].
  assert (2 ^ v <= 2 ^ 64) by (apply Z.pow_le_mono_r; lia). unfold in_range. lia.
Qed.

Lemma init_words_spec total : 0 < total < 2 ^ 63 ->
  Z.of_nat (length (init_words total)) = (total + 63) / 64 /\
  bv_words 64 (init_words total) /\
  (forall i, 0 <= i < 64 * Z.of_nat (length (init_words total)) ->
     bv_test 64 (init_words total) i = (total <=? i)).
Proof.
  intros Ht. unfold init_words. rewrite word_count_spec by done. unfold BITS_PER_WORD.
  set (n := (total + 63) / 64). set (v := total mod 64).
  assert (0 < n) as Hn by (apply Z.div_str_pos; lia).
  pose proof (Z.div_mod total 64 ltac:(lia)) as Hd. pose proof (Z.mod_pos_bound total 64 ltac:(lia)) as Hm.
  fold v in Hd, Hm. replace (Z.to_nat n) with (S (Z.to_nat (n - 1))) by lia.
  rewrite (bool_decide_eq_false_2 (replicate _ _ = [])) by done. rewrite andb_true_r.
  assert (Z.of_nat (length (replicate (S (Z.to_nat (n - 1))) 0)) = n) as Hlen
    by (rewrite length_replicate; lia).
  destruct (Z.eqb_spec v 0) as [Hv|Hv]; cbn [negb].
  - split; [done|]. split; [apply bv_words_replicate; lia|].
    intros i Hi. rewrite bv_test_replicate. rewrite Hlen in Hi.
    assert (n = total / 64) by (subst n; Z.div_mod_to_equations; lia). case_Z; [lia|done].
  - rewrite length_insert. split; [done|].
    assert (n = total / 64 + 1) as Hnq by (subst n; Z.div_mod_to_equations; lia).
    rewrite length_replicate. replace (S (Z.to_nat (n - 1)) - 1)%nat with (Z.to_nat (n - 1)) by lia.
    rewrite lookup_replicate_2 by lia. cbn [default from_option]. split.
    + apply bv_words_insert; [apply bv_words_replicate; lia|].
      by apply pad_mask_range.
    + intros i Hi.
      pose proof (Z.mod_pos_bound i 64 ltac:(lia)) as Him. pose proof (Z.div_mod i 64 ltac:(lia)) as Hid.
      assert (0 <= i / 64 <= n - 1) as Hq by (Z.div_mod_to_equations; lia).
      unfold bv_test. destruct (decide (i / 64 = n - 1)) as [E|E].
      * rewrite E, list_lookup_insert_eq by (rewrite length_replicate; lia).
        rewrite testbit_pad_mask by lia. case_Z; lia.
      * rewrite list_lookup_insert_ne by lia. rewrite lookup_replicate_2 by lia.
        rewrite Z.bits_0. case_Z; lia.
Qed.

(** A freshly initialised allocator stands for the empty set of live frames. *)
Lemma init_rep s start end_ :
  0 <= start < end_ -> end_ <= 2 ^ 52 ->
  exists s', init s start end_ = Ret s' /\ bm_rep s' ∅ /\
    start_ppn s' = start /\ total_frames s' = end_ - start.
Proof.
  intros Hs He. unfold init, rust_assert. destruct (Z.ltb_spec start end_); [|lia].
  cbn -[init_words]. eexists. split; [done|]. cbn -[init_words].
  rewrite sub64_small by lia.
  destruct (init_words_spec (end_ - start)) as (H1 & H2 & H3); [lia|].
  split; [|done]. split; [|split].
  - constructor; cbn -[init_words]; try lia; try done.
    + intros i Hi. rewrite H3 by lia. case_Z; lia.
    + split; [lia|]. rewrite H1. apply Z.div_str_pos. lia.
  - intros x. split; [set_solver|]. intros [Hr Ht]. cbn -[init_words] in *.
    rewrite H3 in Ht.
    + case_Z; [lia|done].
    + rewrite H1. Z.div_mod_to_equations. lia.
  - by rewrite size_empty.
Qed.

(** ** Allocating one frame *)

Lemma next_word_idx s offset : bm_wf s -> 0 <= offset < Z.of_nat (length (bitmap s)) ->
  alloc_hint s ⊕ offset = alloc_hint s + offset.
Proof.
  intros Hwf Ho. destruct (wf_len_bounds s Hwf). pose proof (wf_hint s Hwf).
  apply add64_small. unfold in_range. lia.
Qed.

(** Every word index is visited by the wrap-around scan. *)
Lemma scan_covers hint len j : 0 <= hint < len -> 0 <= j < len ->
  exists o, 0 <= o < len /\ (hint + o) mod len = j.
Proof.
  intros Hh Hj. exists ((j - hint) mod len). split; [apply Z.mod_pos_bound; lia|].
  rewrite Zplus_mod_idemp_r. replace (hint + (j - hint)) with j by lia. by apply Z.mod_small.
Qed.

(** The loop either claims the first free bit of some word, or every word it
    looked at is full. *)
Lemma alloc_scan_spec s fuel : forall offset,
  bm_wf s -> 0 <= offset -> offset + Z.of_nat fuel <= Z.of_nat (length (bitmap s)) ->
  exists o s', alloc_scan s fuel offset = Ret (o, s') /\
  match o with
  | None => s' = s /\ forall k, offset <= k < offset + Z.of_nat fuel ->
      bitmap s !! Z.to_nat ((alloc_hint s + k) mod Z.of_nat (length (bitmap s))) = Some (2 ^ 64 - 1)
  | Some x => exists i w, 0 <= i < total_frames s /\ x = start_ppn s + i /\
      bitmap s !! Z.to_nat (i / 64) = Some w /\ bv_test 64 (bitmap s) i = false /\
      s' = Mk (<[Z.to_nat (i / 64) := bit_set w (i mod 64)]> (bitmap s))
              (start_ppn s) (total_frames s) (i / 64) (allocated_count s ⊕ 1)
  end.
Proof.
  induction fuel as [|f IH]; intros offset Hwf Ho Hb.
  { do 2 eexists. split; [done|]. split; [done|]. intros. lia. }
  destruct (wf_len_bounds s Hwf) as [Hl1 Hl2].
  cbn [alloc_scan]. rewrite next_word_idx by (done || lia).
  set (len := Z.of_nat (length (bitmap s))) in *. set (j := (alloc_hint s + offset) mod len).
  assert (0 <= j < len) as Hj by (apply Z.mod_pos_bound; lia).
  destruct (index_lt (bitmap s) j) as (w & Hiw & Hw); [lia|].
  assert (in_range 64 w) as Hrange by (eapply bv_lookup_range; [apply Hwf|done]).
  rewrite Hiw. cbn [mbind outcome_bind]. destruct (Z.eqb_spec w (2 ^ 64 - 1)) as [Hfull|Hfree].
  - destruct (IH (offset + 1)) as (o & s' & H1 & H2); [done|lia|lia|].
    exists o, s'. split; [done|]. destruct o; [done|]. destruct H2 as [-> H2]. split; [done|].
    intros k Hk. destruct (Z.eqb_spec k offset) as [->|]; [fold j; by rewrite Hw, Hfull|]. apply H2. lia.
  - destruct (first_zero_spec 64 w Hrange Hfree) as (Hk & Hz & _).
    set (k := trailing_zeros 64 _) in *.
    assert (bv_test 64 (bitmap s) (j * 64 + k) = false) as Hbit
      by (rewrite (bv_test_word 64) with (w := w); lia || done).
    assert (j * 64 + k < total_frames s) as Hin.
    { destruct (Z.ltb_spec (j * 64 + k) (total_frames s)); [done|].
      rewrite (wf_pad s Hwf) in Hbit; [done|lia]. }
    assert (total_frames s < 2 ^ 64) by (destruct Hwf; lia).
    unfold BITS_PER_WORD. rewrite mul64_small by (unfold in_range; lia).
    rewrite add64_small by (unfold in_range; lia).
    destruct (Z.ltb_spec (j * 64 + k) (total_frames s)); [|lia].
    rewrite store_lt by lia. cbn [mbind outcome_bind].
    assert ((j * 64 + k) / 64 = j /\ (j * 64 + k) mod 64 = k) as [Hdiv Hmod]
      by (Z.div_mod_to_equations; lia).
    do 2 eexists. split; [done|]. cbn beta iota. exists (j * 64 + k), w.
    rewrite Hdiv, Hmod. repeat split; try done; try lia.
    unfold index_to_ppn. apply add64_small. unfold in_range. destruct Hwf. lia.
Qed.

Lemma alloc_frame_ok s L : bm_rep s L ->
  exists o s', alloc_frame s = Ret (o, s') /\
  match o with
  | Some x => bm_universe (start_ppn s) (total_frames s) x /\ x ∉ L /\ bm_rep s' ({[x]} ∪ L) /\
      start_ppn s' = start_ppn s /\ total_frames s' = total_frames s
  | None => s' = s /\ forall x, bm_universe (start_ppn s) (total_frames s) x -> x ∈ L
  end.
Proof.
  intros Hrep. pose proof Hrep as (Hwf & HL & _). destruct (wf_len_bounds s Hwf) as [Hl Hl2].
  unfold alloc_frame. rewrite bool_decide_eq_false_2 by (intros E; rewrite E in Hl; cbn in Hl; lia).
  destruct (alloc_scan_spec s (length (bitmap s)) 0 Hwf) as (o & s' & Hs & Ho); [lia|lia|].
  exists o, s'. split; [done|]. destruct o as [x|].
  - destruct Ho as (i & w & Hi & -> & Hw & Hbit & ->).
    assert (0 <= i / 64 < Z.of_nat (length (bitmap s))) by (Z.div_mod_to_equations; lia).
    destruct (bm_rep_set s L i w (i / 64)) as [H1 H2]; try done.
    split; [unfold bm_universe; lia|done].
  - destruct Ho as [-> Hfull]. split; [done|]. intros x Hx. apply HL. split; [done|].
    unfold bm_universe in Hx. set (i := x - start_ppn s).
    assert (0 <= i / 64 < Z.of_nat (length (bitmap s))) as Hq by (subst i; Z.div_mod_to_equations; lia).
    destruct (scan_covers (alloc_hint s) _ (i / 64) (wf_hint s Hwf) Hq) as (k & Hk & Hkm).
    specialize (Hfull k ltac:(lia)). rewrite Hkm in Hfull.
    erewrite bv_test_lookup by done. replace (2 ^ 64 - 1) with (Z.ones 64) by done.
    apply Z.ones_spec_low. apply Z.mod_pos_bound. lia.
Qed.

(** ** Freeing one frame *)

Lemma dealloc_frame_ok dbg s L x : bm_rep s L -> x ∈ L ->
  exists s', dealloc_frame dbg s x = Ret s' /\ bm_rep s' (L ∖ {[x]}) /\
    start_ppn s' = start_ppn s /\ total_frames s' = total_frames s.
Proof.
  intros Hrep Hx. pose proof Hrep as (Hwf & HL & _). destruct (wf_len_bounds s Hwf) as [Hl Hl2].
  pose proof Hx as [Hr Ht]%HL. pose proof (wf_start s Hwf). pose proof (wf_end s Hwf).
  unfold dealloc_frame. rewrite ppn_to_index_spec by (done || lia).
  replace ((_ <=? x) && (x <? _)) with true by (case_Z; lia || done).
  set (i := x - start_ppn s) in *. unfold BITS_PER_WORD.
  destruct (wf_lookup s i Hwf) as (w & Hw & Hrange); [lia|].
  assert (0 <= i / 64 < Z.of_nat (length (bitmap s))) as Hq by (subst i; Z.div_mod_to_equations; lia).
  destruct (index_lt (bitmap s) (i / 64)) as (w' & Hiw & Hw'); [lia|].
  replace w' with w in * by congruence. rewrite Hiw. cbn [mbind outcome_bind].
  rewrite land_bit_zero by (destruct Hrange; try apply Z.mod_pos_bound; lia).
  erewrite bv_test_lookup in Ht by done. rewrite Ht. cbn [negb]. rewrite orb_true_r.
  cbn [rust_assert]. rewrite store_lt by lia. cbn [mbind outcome_bind].
  eexists. split; [done|]. split; [|done].
  replace x with (start_ppn s + i) by lia. apply bm_rep_clear; try done; [lia|].
  by replace (start_ppn s + i) with x by lia.
Qed.

(** ** Allocating a run of frames *)

Lemma mark_range_spec n : forall bm i,
  0 <= i -> i + Z.of_nat n <= 64 * Z.of_nat (length bm) -> bv_words 64 bm ->
  exists bm', mark_range bm i n = Ret bm' /\ length bm' = length bm /\ bv_words 64 bm' /\
    forall j, 0 <= j ->
      bv_test 64 bm' j = ((i <=? j) && (j <? i + Z.of_nat n)) || bv_test 64 bm j.
Proof.
  induction n as [|n IH]; intros bm i Hi Hb Hwd.
  { exists bm. repeat split; try done. intros j Hj. case_Z; lia || done. }
  destruct (bv_lookup_lt 64 ltac:(lia) bm i) as [w Hw]; [lia|].
  cbn [mark_range]. unfold BITS_PER_WORD.
  rewrite (proj2 (index_ret bm (i / 64) w) Hw). cbn [mbind outcome_bind].
  rewrite store_lt by (by eapply lookup_lt_Some). cbn [mbind outcome_bind].
  destruct (IH (<[Z.to_nat (i / 64) := bit_set w (i mod 64)]> bm) (i + 1))
    as (bm' & H1 & H2 & H3 & H4).
  - lia.
  - rewrite length_insert. lia.
  - by apply bv_words_set.
  - exists bm'. split; [done|]. rewrite length_insert in H2. repeat split; [done..|].
    intros j Hj. rewrite H4, bv_test_set by (done || lia).
    case_Z; cbn; try done; lia.
Qed.

(** Frames [x .. x+count) as a set. *)
Definition frame_run (x count : Z) : gset Z := list_to_set (seqZ x count).

Lemma elem_of_frame_run x count y : y ∈ frame_run x count <-> x <= y < x + count.
Proof. unfold frame_run. by rewrite elem_of_list_to_set, elem_of_seqZ. Qed.

Lemma size_frame_run x count : 0 <= count -> Z.of_nat (size (frame_run x count)) = count.
Proof.
  intros. unfold frame_run. rewrite size_list_to_set by apply NoDup_seqZ.
  rewrite length_seqZ. lia.
Qed.

Lemma bm_rep_mark s L i count bm' :
  bm_rep s L -> 0 <= i -> 0 < count -> i + count <= total_frames s ->
  (forall k, i <= k < i + count -> bv_test 64 (bitmap s) k = false) ->
  mark_range (bitmap s) i (Z.to_nat count) = Ret bm' ->
  bm_rep (Mk bm' (start_ppn s) (total_frames s) (alloc_hint s) (allocated_count s ⊕ count))
    (frame_run (start_ppn s + i) count ∪ L) /\
  frame_run (start_ppn s + i) count ## L.
Proof.
  intros Hrep Hi Hc Ht Hfree Hm. pose proof Hrep as (Hwf & HL & Hcnt).
  destruct (wf_len_bounds s Hwf) as [Hl Hl2].
  destruct (mark_range_spec (Z.to_nat count) (bitmap s) i) as (bm1 & H1 & H2 & H3 & H4);
    [done|lia|apply Hwf|].
  rewrite Hm in H1. injection H1 as <-.
  assert (frame_run (start_ppn s + i) count ## L) as Hdj.
  { intros x Hx%elem_of_frame_run [_ Hx2]%HL.
    rewrite Hfree in Hx2 by lia. done. }
  assert (forall x, x ∈ frame_run (start_ppn s + i) count ∪ L ->
    bm_universe (start_ppn s) (total_frames s) x) as Hman.
  { intros x. rewrite elem_of_union, elem_of_frame_run. unfold bm_universe.
    intros [?|[? _]%HL]; lia. }
  split; [|done]. pose proof Hwf as [W1 W2 W3 W4 W5 W6 W7]. split; [|split].
  - constructor; cbn; rewrite ?H2; try done.
    intros j Hj. rewrite H4, W6 by lia. apply orb_true_r.
  - intros x. unfold bm_live. cbn. rewrite elem_of_union, elem_of_frame_run, HL. unfold bm_live.
    split.
    + intros [Hx|[Hx1 Hx2]]; (split; [lia|]); rewrite H4 by lia.
      * case_Z; cbn; lia || done.
      * by rewrite Hx2, orb_true_r.
    + intros [Hr Hx]. rewrite H4 in Hx by lia. apply orb_true_iff in Hx as [Hx|Hx]; [|by right].
      apply andb_true_iff in Hx as [Hx1 Hx2]. left. case_Z; try done. lia.
  - cbn. apply managed_size in Hman; [|lia]. rewrite size_union in Hman |- * by done.
    pose proof (size_frame_run (start_ppn s + i) count). rewrite Hcnt, add64_small; unfold in_range; lia.
Qed.

(** The scan finds the first run of [count] free bits, or there is none.
    Invariant: the last [c] bits before [idx] are free, and every window that
    starts before them is blocked by an allocated bit. *)
Lemma contiguous_scan_spec s count fuel : forall idx c st,
  bm_wf s -> 1 < count -> 0 <= c < count -> 0 <= idx -> c <= idx ->
  idx + Z.of_nat fuel = total_frames s ->
  (c <> 0 -> st = idx - c) ->
  (forall k, idx - c <= k < idx -> bv_test 64 (bitmap s) k = false) ->
  (forall j, 0 <= j < idx - c -> exists k, j <= k < j + count /\ k < idx /\ bv_test 64 (bitmap s) k = true) ->
  exists o s', contiguous_scan s count fuel idx c st = Ret (o, s') /\
  match o with
  | None => s' = s /\ forall j, 0 <= j -> j + count <= total_frames s ->
      exists k, j <= k < j + count /\ bv_test 64 (bitmap s) k = true
  | Some x => exists i bm', 0 <= i /\ i + count <= total_frames s /\ x = start_ppn s + i /\
      (forall k, i <= k < i + count -> bv_test 64 (bitmap s) k = false) /\
      mark_range (bitmap s) i (Z.to_nat count) = Ret bm' /\
      s' = Mk bm' (start_ppn s) (total_frames s) (alloc_hint s) (allocated_count s ⊕ count)
  end.
Proof.
  induction fuel as [|f IH]; intros idx c st Hwf Hcount Hc Hidx Hci Hend Hst Hrun Hblk.
  { do 2 eexists. split; [done|]. split; [done|]. intros j Hj Hjc.
    destruct (Hblk j) as (k & H1 & _ & H2); [lia|]. eauto. }
  destruct (wf_len_bounds s Hwf) as [Hl Hl2].
  destruct (wf_lookup s idx Hwf) as (w & Hw & Hrange); [lia|].
  cbn [contiguous_scan]. unfold BITS_PER_WORD.
  rewrite (proj2 (index_ret _ (idx / 64) w) Hw). cbn [mbind outcome_bind].
  rewrite land_bit_zero by (destruct Hrange; try apply Z.mod_pos_bound; lia).
  rewrite <- (bv_test_lookup 64 _ idx w) by done.
  destruct (bv_test 64 (bitmap s) idx) eqn:Hbit; cbn [negb].
  - apply IH; try done; try lia.
    intros j Hj. destruct (decide (j < idx - c)) as [Hlt|Hge].
    + destruct (Hblk j) as (k & H1 & H2 & H3); [lia|]. exists k. repeat split; try done; lia.
    + exists idx. repeat split; try done; lia.
  - assert ((if c =? 0 then idx else st) = idx - c) as Hst'.
    { destruct (Z.eqb_spec c 0); [lia|by apply Hst]. }
    rewrite Hst'.
    assert (forall k, idx - c <= k < idx + 1 -> bv_test 64 (bitmap s) k = false) as Hrun'.
    { intros k Hk. destruct (Z.eqb_spec k idx) as [->|]; [done|]. apply Hrun. lia. }
    destruct (Z.leb_spec count (c + 1)) as [Hdone|Hmore].
    + destruct (mark_range_spec (Z.to_nat count) (bitmap s) (idx - c)) as (bm' & Hm & _);
        [lia|lia|apply Hwf|].
      rewrite Hm. cbn [mbind outcome_bind]. do 2 eexists. split; [done|].
      exists (idx - c), bm'. repeat split; try done; try lia.
      * unfold index_to_ppn. apply add64_small. unfold in_range. destruct Hwf. lia.
      * intros k Hk. apply Hrun'. lia.
    + apply IH; try done; try lia.
      * intros k Hk. apply Hrun'. lia.
      * intros j Hj. destruct (Hblk j) as (k & H1 & H2 & H3); [lia|].
        exists k. repeat split; try done; lia.
Qed.

(** On a represented state [alloc_contiguous] never panics; it returns the first
    frame of a run of [count] managed frames none of which was live, and afterwards
    exactly these frames are live in addition; it returns [None], leaving the state
    as it was, only if [count] is 0 or every window of [count] managed frames
    contains a live one. *)
Theorem alloc_contiguous_ok s L count : bm_rep s L -> 0 <= count ->
  exists o s', alloc_contiguous s count = Ret (o, s') /\
  match o with
  | Some x => 0 < count /\ start_ppn s <= x /\ x + count <= start_ppn s + total_frames s /\
      frame_run x count ## L /\ bm_rep s' (frame_run x count ∪ L)
  | None => s' = s /\ (count = 0 \/
      forall x, start_ppn s <= x -> x + count <= start_ppn s + total_frames s ->
        exists y, x <= y < x + count /\ y ∈ L)
  end.
Proof.
  intros Hrep Hcount. pose proof Hrep as (Hwf & HL & _). unfold alloc_contiguous.
  destruct (Z.eqb_spec count 0) as [->|Hn0].
  { do 2 eexists. split; [done|]. split; [done|]. by left. }
  destruct (Z.eqb_spec count 1) as [->|Hn1].
  { destruct (alloc_frame_ok s L Hrep) as (o & s' & Ha & Ho). exists o, s'. split; [done|].
    destruct o as [x|].
    - destruct Ho as (HU & Hx & Hr & _). unfold bm_universe in HU.
      assert (frame_run x 1 = {[x]}) as Hone.
      { apply set_eq. intros y. rewrite elem_of_frame_run, elem_of_singleton. lia. }
      rewrite Hone. split; [lia|]. split; [lia|]. split; [lia|]. split; [set_solver|done].
    - destruct Ho as [-> Hfull]. split; [done|]. right. intros x Hx1 Hx2. exists x.
      split; [lia|]. apply Hfull. unfold bm_universe. lia. }
  destruct (contiguous_scan_spec s count (Z.to_nat (total_frames s)) 0 0 0)
    as (o & s' & Ha & Ho); try done; try lia.
  { pose proof (wf_total s Hwf). lia. }
  exists o, s'. split; [done|]. destruct o as [x|].
  - destruct Ho as (i & bm' & Hi & Hic & -> & Hfree & Hm & ->).
    destruct (bm_rep_mark s L i count bm') as [H1 H2]; try done; try lia.
    split; [lia|]. split; [lia|]. split; [lia|]. done.
  - destruct Ho as [-> Hno]. split; [done|]. right. intros x Hx1 Hx2.
    destruct (Hno (x - start_ppn s)) as (k & Hk & Hbit); [lia|lia|].
    exists (start_ppn s + k). split; [lia|]. apply HL. split; [lia|].
    by replace (start_ppn s + k - start_ppn s) with k by lia.
Qed.

(** C25's hypotheses hold of the state after one allocation out of 130 frames, where
    a run of 64 frames is then found. *)
Lemma alloc_contiguous_ok_witness :
  exists s L, bm_rep s L /\
  exists o s', alloc_contiguous s 64 = Ret (o, s') /\
  match o with
  | Some x => 0 < 64 /\ start_ppn s <= x /\ x + 64 <= start_ppn s + total_frames s /\
      frame_run x 64 ## L /\ bm_rep s' (frame_run x 64 ∪ L)
  | None => s' = s /\ (64 = 0 \/
      forall x, start_ppn s <= x -> x + 64 <= start_ppn s + total_frames s ->
        exists y, x <= y < x + 64 /\ y ∈ L)
  end.
Proof.
  destruct (init_rep new 0x80000 (0x80000 + 130)) as (s0 & _ & Hrep & _); [lia|lia|].
  destruct (alloc_frame_ok s0 ∅ Hrep) as (o & s1 & _ & Ho). destruct o as [x|].
  - exists s1, ({[x]} ∪ ∅). split; [apply Ho|]. apply (alloc_contiguous_ok s1 ({[x]} ∪ ∅) 64); [apply Ho|lia].
  - exists s0, ∅. split; [done|]. apply (alloc_contiguous_ok s0 ∅ 64); [done|lia].
Defined.

(** ** The allocator interface *)

Lemma is_allocated_spec s L ppn : bm_rep s L -> 0 <= ppn < 2 ^ 64 ->
  is_allocated s ppn = Ret (bool_decide (ppn ∈ L)).
Proof.
  intros (Hwf & HL & _) Hp. unfold is_allocated. rewrite ppn_to_index_spec by done.
  destruct ((start_ppn s <=? ppn) && (ppn <? start_ppn s + total_frames s)) eqn:E.
  - apply andb_true_iff in E as [E1 E2]. apply Z.leb_le in E1. apply Z.ltb_lt in E2.
    destruct (wf_lookup s (ppn - start_ppn s) Hwf) as (w & Hw & Hrange); [lia|].
    unfold BITS_PER_WORD. rewrite (proj2 (index_ret _ _ w) Hw). cbn [mbind outcome_bind].
    rewrite land_bit_zero, negb_involutive by (destruct Hrange; try apply Z.mod_pos_bound; lia).
    rewrite <- (bv_test_lookup 64 _ _ w Hw). f_equal. apply eq_bool_prop_intro.
    rewrite Is_true_true, bool_decide_spec, HL. unfold bm_live. tauto.
  - rewrite bool_decide_eq_false_2; [done|]. intros [Hr _]%HL.
    apply andb_false_iff in E as [E%Z.leb_gt|E%Z.ltb_ge]; lia.
Qed.

#[global] Instance bitmap_allocator (dbg : bool) : Allocator t := {|
  a_alloc := alloc_frame;
  a_free := dealloc_frame dbg;
|}.

Definition bm_rep_at (start total : Z) (s : t) (L : gset Z) : Prop :=
  bm_rep s L /\ start_ppn s = start /\ total_frames s = total.

#[global] Instance bitmap_allocator_ok dbg start total :
  @AllocatorOk t (bitmap_allocator dbg) (bm_universe start total) (bm_rep_at start total).
Proof.
  constructor.
  - intros s L (Hrep & <- & <-). destruct (alloc_frame_ok s L Hrep) as (o & s' & Ha & Ho).
    exists o, s'. split; [done|]. destruct o; [|done].
    destruct Ho as (HU & Hx & Hrep' & Hst & Htot). do 2 (split; [done|]). by split.
  - intros s L x (Hrep & <- & <-) Hx. destruct (dealloc_frame_ok dbg s L x Hrep Hx) as (s' & Hd & Hrep' & ? & ?).
    exists s'. split; [done|]. by split.
Qed.

(** C23: the bitmap allocator refines the abstract allocator. After [init start end],
    whatever sequence of allocations and drops of held frames a client performs, in
    either build mode, nothing panics, the frames held are pairwise distinct, the
    history is a run of the abstract machine over the frames [start .. end) (so an
    allocation fails only when every frame is live), [is_allocated] answers exactly
    for the frames held, and [unallocated_frames] counts the rest. *)
Theorem bitmap_allocator_refines dbg start end_ rs :
  0 <= start < end_ -> end_ <= 2 ^ 52 ->
  exists s c, init new start end_ = Ret s /\
    @client_run t (bitmap_allocator dbg) (Client s [] []) rs = Ret c /\
    NoDup (c_held c) /\
    spec_steps (bm_universe start (end_ - start)) ∅ (c_trace c) (list_to_set (c_held c)) /\
    (forall ppn, 0 <= ppn < 2 ^ 64 ->
       is_allocated (c_alloc c) ppn = Ret (bool_decide (ppn ∈ c_held c))) /\
    unallocated_frames (c_alloc c) = end_ - start - Z.of_nat (length (c_held c)).
Proof.
  intros Hs He. destruct (init_rep new start end_ Hs He) as (s & Hi & Hrep & H1 & H2).
  destruct (@client_safe t (bitmap_allocator dbg) (bm_universe start (end_ - start))
    (bm_rep_at start (end_ - start)) _ s ∅ rs) as (c & Hc & Hnd & _ & (Hrep' & H3 & H4) & Hsp).
  { by split. }
  rewrite union_empty_l_L in Hrep', Hsp. exists s, c. repeat split; try done.
  - intros ppn Hp. rewrite (is_allocated_spec _ _ _ Hrep' Hp). f_equal.
    apply bool_decide_ext. by rewrite elem_of_list_to_set.
  - pose proof (bm_rep_size _ _ Hrep') as Hsz. destruct Hrep' as (_ & _ & Hcnt).
    unfold unallocated_frames. rewrite size_list_to_set in Hcnt, Hsz by done.
    rewrite Hcnt, H4, sub64_small; lia.
Qed.

(** At 100 frames, with a client that allocates three and drops the middle one. *)
Lemma bitmap_allocator_refines_witness :
  exists s c, init new 0x80000 0x80064 = Ret s /\
    @client_run t (bitmap_allocator true) (Client s [] []) [ReqAlloc; ReqAlloc; ReqAlloc; ReqDrop 1] = Ret c /\
    NoDup (c_held c) /\
    spec_steps (bm_universe 0x80000 (0x80064 - 0x80000)) ∅ (c_trace c) (list_to_set (c_held c)) /\
    (forall ppn, 0 <= ppn < 2 ^ 64 ->
       is_allocated (c_alloc c) ppn = Ret (bool_decide (ppn ∈ c_held c))) /\
    unallocated_frames (c_alloc c) = 0x80064 - 0x80000 - Z.of_nat (length (c_held c)).
Proof. apply (bitmap_allocator_refines true 0x80000 0x80064); lia. Defined.

End BitmapFrameAllocator.
