(* ===== verification/FrameAlloc.v ===== *)
(** * FrameAlloc: the physical frame allocator and its users (os/src/mm/frame_allocator.rs)

    The stack allocator the kernel runs with: a bump pointer and a stack of recycled
    frames; [FrameTracker] zeroes a frame when it is handed out and returns it when
    dropped. On top of it the allocation entry points: [frame_alloc] with the
    out-of-memory cascade, [frames_alloc] for several frames at once. The state is
    the allocator and the physical memory it zeroes. *)
From S2P Require Import Prelude AllocSpec Address.

Module StackFrameAllocator.

Record t : Type := Mk {
  current : Z;
  end_ : Z;
  recycled : list Z;
}.

Definition new : t := Mk 0 0 [].

Definition init (s : t) (l r : Z) : t := Mk l r (recycled s).

Definition unallocated_frames (s : t) : Z := end_ s ⊖ current s ⊕ Z.of_nat (length (recycled s)).

(** Build configuration: the cargo feature [zero_init] and [option_env!("MODE")]. *)
Record config : Type := MkConfig { zero_init : bool; debug_mode : bool }.

(** [FrameTracker::new] clears the frame, [new_uninit] does not. *)
Definition tracker_new (ppn : Z) (m : pmem) : pmem := mem_zero_page m ppn.
Definition tracker_new_uninit (ppn : Z) (m : pmem) : pmem := m.

Record world : Type := World { fa : t; mem : pmem }.

Definition alloc (cfg : config) (w : world) : option Z * world :=
  let s := fa w in
  match vec_pop (recycled s) with
  | Some (ppn, rest) => (Some ppn, World (Mk (current s) (end_ s) rest) (tracker_new ppn (mem w)))
  | None =>
      if current s =? end_ s then (None, w)
      else
        let cur := current s ⊕ 1 in
        let ppn := cur ⊖ 1 in
        (Some ppn, World (Mk cur (end_ s) (recycled s))
          (if zero_init cfg then tracker_new_uninit ppn (mem w) else tracker_new ppn (mem w)))
  end.

Definition alloc_uninit (w : world) : option Z * world :=
  let s := fa w in
  match vec_pop (recycled s) with
  | Some (ppn, rest) => (Some ppn, World (Mk (current s) (end_ s) rest) (tracker_new_uninit ppn (mem w)))
  | None =>
      if current s =? end_ s then (None, w)
      else
        let cur := current s ⊕ 1 in
        let ppn := cur ⊖ 1 in
        (Some ppn, World (Mk cur (end_ s) (recycled s)) (tracker_new_uninit ppn (mem w)))
  end.

Definition dealloc (cfg : config) (w : world) (ppn : Z) : outcome world :=
  let s := fa w in
  if (debug_mode cfg && (current s <=? ppn)) || bool_decide (ppn ∈ recycled s) then Panic
  else Ret (World (Mk (current s) (end_ s) (recycled s ++ [ppn])) (mem w)).

(** Boot: the frames from the end of the kernel image to the end of memory. *)
Definition init_frame_allocator (ekernel memory_end : Z) (w : world) : world :=
  World (init (fa w) (addr_ceil ekernel) (addr_floor memory_end)) (mem w).

(** ** The out-of-memory cascade *)
Section Oom.
Context (cfg : config).
(** The kernel's state [W] has the allocator in it. *)
Context {W : Type} (allocator : W -> world) (with_allocator : W -> world -> W).
(** What other components do when asked for frames: [directory_tree::oom]; [do_shallow_clean] of the running
    task's memory behind its [try_lock], where there is a running task; and [do_oom_local] of each CPU's task
    manager. *)
Context (fs_oom : W -> outcome (Z * W)).
Context (current_task : option (W -> outcome (option (Z * W)))).
Context (managers : list (Z -> W -> outcome (Z * W))).

(** [task::do_oom]: each manager is asked for what is still missing. *)
Fixpoint do_oom_loop (ms : list (Z -> W -> outcome (Z * W))) (req total : Z) (w : W) : outcome (bool * W) :=
  match ms with
  | [] => Ret (req <=? total, w)
  | m :: ms' =>
      if req <=? total then Ret (true, w)
      else '(n, w') ← m (req ⊖ total) w; do_oom_loop ms' req (total ⊕ n) w'
  end.
Definition do_oom (req : Z) (w : W) : outcome (bool * W) := do_oom_loop managers req 0 w.

(** [true] is [Ok(())]. *)
Definition oom_handler (req : Z) (w : W) : outcome (bool * W) :=
  '(n1, w1) ← fs_oom w;
  if req <=? n1 then Ret (true, w1)
  else
    task ← unwrap current_task;
    r ← task w1;
    let '(released, w2) := match r with Some (n2, w2) => (n1 ⊕ n2, w2) | None => (n1, w1) end in
    if req <=? released then Ret (true, w2) else do_oom (req ⊖ released) w2.

Definition frame_reserve (num : Z) (w : W) : outcome W :=
  let remain := unallocated_frames (fa (allocator w)) in
  if remain <? num then
    '(ok, w') ← oom_handler (num ⊖ remain) w;
    rust_assert ok ;; Ret w'
  else Ret w.

Definition frame_alloc_oom (w : W) : outcome (option Z * W) :=
  match alloc cfg (allocator w) with
  | (Some ppn, a) => Ret (Some ppn, with_allocator w a)
  | (None, a) =>
      '(ok, w2) ← oom_handler 1 (with_allocator w a);
      rust_assert ok ;;
      let '(o, a2) := alloc cfg (allocator w2) in Ret (o, with_allocator w2 a2)
  end.

Definition frame_alloc_uninit_oom (w : W) : outcome (option Z * W) :=
  match alloc_uninit (allocator w) with
  | (Some ppn, a) => Ret (Some ppn, with_allocator w a)
  | (None, a) =>
      '(ok, w2) ← oom_handler 1 (with_allocator w a);
      rust_assert ok ;;
      let '(o, a2) := alloc_uninit (allocator w2) in Ret (o, with_allocator w2 a2)
  end.

(** [current_task().unwrap()]: with no running task (an interrupt on an idle CPU) the handler panics unless
    the file system gave back enough. *)
Lemma oom_handler_no_task req w n w1 : current_task = None -> fs_oom w = Ret (n, w1) -> n < req -> oom_handler req w = Panic.
Proof. intros Hc Hf Hn. unfold oom_handler. rewrite Hf. cbn [mbind outcome_bind]. rewrite (proj2 (Z.leb_gt _ _)) by lia. by rewrite Hc. Qed.
End Oom.

(** Without the [oom_handler] feature. *)
Definition frame_alloc (cfg : config) (w : world) : outcome (option Z * world) := Ret (alloc cfg w).
Definition frame_dealloc (cfg : config) (w : world) (ppn : Z) : outcome world := dealloc cfg w ppn.

(** Dropping a vector of trackers returns its frames in order. *)
Fixpoint drop_trackers (cfg : config) (w : world) (l : list Z) : outcome world :=
  match l with
  | [] => Ret w
  | ppn :: r => w' ← frame_dealloc cfg w ppn; drop_trackers cfg w' r
  end.

(** [frames_alloc]: on failure the frames already taken are dropped with the vector. *)
Section Frames.
Context (cfg : config) (falloc : world -> outcome (option Z * world)).
Fixpoint frames_alloc_loop (n : nat) (frames : list Z) (w : world) : outcome (option (list Z) * world) :=
  match n with
  | O => Ret (Some frames, w)
  | S n' =>
      '(o, w') ← falloc w;
      match o with
      | Some ppn => frames_alloc_loop n' (frames ++ [ppn]) w'
      | None => w2 ← drop_trackers cfg w' frames; Ret (None, w2)
      end
  end.
Definition frames_alloc (num : Z) (w : world) : outcome (option (list Z) * world) :=
  frames_alloc_loop (Z.to_nat num) [] w.
End Frames.

Example stack_alloc_test :
  let cfg := MkConfig false true in
  let w0 := init_frame_allocator 0x80401001 0x80405000 (World new (fun _ _ => 7)) in
  (fst <$> (w1 ← Ret (snd (alloc cfg w0));
   w2 ← dealloc cfg w1 0x80402;
   frames_alloc cfg (frame_alloc cfg) 3 w2)) = Ret (Some [0x80402; 0x80403; 0x80404]).
Proof. vm_compute. reflexivity. Qed.

(** ** The representation relation *)

(** Frames below [current] are live unless they sit on the recycle stack. *)
Record fa_rep (base limit : Z) (w : world) (L : gset Z) : Prop := {
  rep_base : 0 <= base <= current (fa w);
  rep_limit : current (fa w) <= limit;
  rep_end : end_ (fa w) = limit;
  rep_top : limit < 2 ^ 64;
  rep_nodup : NoDup (recycled (fa w));
  rep_recycled : forall x, x ∈ recycled (fa w) -> base <= x < current (fa w);
  rep_live : forall x, x ∈ L <-> base <= x < current (fa w) /\ x ∉ recycled (fa w);
}.

Definition fa_universe (base limit x : Z) : Prop := base <= x < limit.

Lemma init_frame_allocator_rep ekernel memory_end w :
  recycled (fa w) = [] -> 0 <= addr_ceil ekernel <= addr_floor memory_end ->
  addr_floor memory_end < 2 ^ 64 ->
  fa_rep (addr_ceil ekernel) (addr_floor memory_end) (init_frame_allocator ekernel memory_end w) ∅.
Proof.
  intros Hr Hle Htop. constructor; cbn; rewrite ?Hr; try lia.
  - apply NoDup_nil_2.
  - intros x Hx. by apply not_elem_of_nil in Hx.
  - intros x. split; [set_solver|lia].
Qed.

(** The number of frames still available is what the live set leaves over. *)
Lemma live_partition base limit w L : fa_rep base limit w L ->
  Z.of_nat (size L) + Z.of_nat (length (recycled (fa w))) = current (fa w) - base.
Proof.
  intros [H1 H2 H3 H4 H5 H6 H7].
  assert (L ∪ list_to_set (recycled (fa w)) = list_to_set (seqZ base (current (fa w) - base))) as Heq.
  { apply set_eq. intros x. rewrite elem_of_union, !elem_of_list_to_set, elem_of_seqZ, H7.
    destruct (decide (x ∈ recycled (fa w))) as [Hin|Hin].
    - specialize (H6 x Hin). split; [lia|tauto].
    - split; [intros [[? _]|]; [lia|done]|]. intros. left. split; [lia|done]. }
  apply (f_equal size) in Heq. rewrite size_union in Heq.
  - rewrite !size_list_to_set, length_seqZ in Heq by (done || apply NoDup_seqZ). lia.
  - intros x [_ Hx]%H7 Hin%elem_of_list_to_set. done.
Qed.

Lemma unallocated_frames_spec base limit w L : fa_rep base limit w L ->
  unallocated_frames (fa w) = limit - base - Z.of_nat (size L).
Proof.
  intros Hrep. pose proof (live_partition _ _ _ _ Hrep). destruct Hrep as [H1 H2 H3 H4 H5 H6 H7].
  unfold unallocated_frames. rewrite H3, sub64_small by lia.
  rewrite add64_small; unfold in_range; lia.
Qed.

(** [alloc_uninit] and [alloc] take the same frame; they differ in memory only. *)
Lemma alloc_uninit_fa cfg w :
  fst (alloc_uninit w) = fst (alloc cfg w) /\ fa (snd (alloc_uninit w)) = fa (snd (alloc cfg w)).
Proof.
  unfold alloc_uninit, alloc. destruct (vec_pop (recycled (fa w))) as [[? ?]|]; [done|].
  by case_Z_goal.
Qed.

Lemma alloc_rep cfg base limit w L : fa_rep base limit w L ->
  match alloc cfg w with
  | (Some x, w') => fa_universe base limit x /\ x ∉ L /\ fa_rep base limit w' ({[x]} ∪ L)
  | (None, w') => w' = w /\ forall x, fa_universe base limit x -> x ∈ L
  end.
Proof.
  intros [H1 H2 H3 H4 H5 H6 H7]. unfold alloc, fa_universe.
  pose proof (vec_pop_spec (recycled (fa w))) as Hpop.
  destruct (vec_pop (recycled (fa w))) as [[ppn rest]|].
  - rewrite Hpop in H5, H6, H7. apply NoDup_app in H5 as (Hnd & Hnotin & _).
    assert (ppn ∉ rest) as Hppn by (intros Hin; apply (Hnotin _ Hin); set_solver).
    assert (base <= ppn < current (fa w)) as Hb by (apply H6; set_solver).
    split; [lia|]. split; [rewrite H7; set_solver|].
    constructor; cbn; try done.
    + intros x Hx. apply H6. set_solver.
    + intros x. rewrite elem_of_union, elem_of_singleton, H7.
      split; [intros [->|]; [done|set_solver]|]. intros [Hx Hxr].
      destruct (decide (x = ppn)); [by left|]. right. split; [done|]. set_solver.
  - rewrite Hpop in *. destruct (Z.eqb_spec (current (fa w)) (end_ (fa w))) as [E|E].
    + split; [done|]. intros x Hx. apply H7. split; [lia|apply not_elem_of_nil].
    + rewrite add64_small by (unfold in_range; lia). rewrite sub64_small by lia.
      replace (current (fa w) + 1 - 1) with (current (fa w)) by lia.
      split; [lia|]. split; [rewrite H7; lia|].
      constructor; cbn; try done; try lia.
      * intros x Hx. by apply not_elem_of_nil in Hx.
      * intros x. rewrite elem_of_union, elem_of_singleton, H7. split.
        -- intros [->|[? ?]]; (split; [lia|apply not_elem_of_nil]).
        -- intros [Hx _]. destruct (decide (x = current (fa w))); [by left|].
           right. split; [lia|apply not_elem_of_nil].
Qed.

(** What an allocation does to memory: the frame handed out is zero, unless the
    feature [zero_init] trusts a never-used frame to be; nothing else changes. *)
Lemma alloc_mem cfg w x w' :
  alloc cfg w = (Some x, w') ->
  (zero_init cfg = false -> forall i, mem w' x i = 0) /\
  (forall p i, p <> x -> mem w' p i = mem w p i).
Proof.
  unfold alloc. destruct (vec_pop (recycled (fa w))) as [[ppn rest]|].
  - intros [= <- <-]. cbn. split; [intros; apply mem_zero_same|intros; by apply mem_zero_other].
  - case_Z_goal; [done|]. intros [= <- <-]. cbn.
    destruct (zero_init cfg); split; try done; intros; [apply mem_zero_same|by apply mem_zero_other].
Qed.

Lemma dealloc_rep cfg base limit w L x : fa_rep base limit w L -> x ∈ L ->
  exists w', dealloc cfg w x = Ret w' /\ fa_rep base limit w' (L ∖ {[x]}) /\ mem w' = mem w.
Proof.
  intros [H1 H2 H3 H4 H5 H6 H7] Hx. apply H7 in Hx as [Hb Hn]. unfold dealloc.
  rewrite bool_decide_eq_false_2 by done. rewrite orb_false_r.
  replace (debug_mode cfg && (current (fa w) <=? x)) with false
    by (destruct (debug_mode cfg); [case_Z; [lia|done]|done]).
  eexists. split; [done|]. split; [|done]. constructor; cbn; try done.
  - apply NoDup_app. split; [done|]. split; [|apply NoDup_singleton].
    intros y Hy Hy2. apply list_elem_of_singleton in Hy2 as ->. done.
  - intros y Hy. apply elem_of_app in Hy as [Hy|Hy]; [by apply H6|].
    apply list_elem_of_singleton in Hy as ->. lia.
  - intros y. rewrite elem_of_difference, elem_of_singleton, elem_of_app, list_elem_of_singleton, H7.
    tauto.
Qed.

(** ** The allocator interface *)
#[global] Instance stack_allocator (cfg : config) : Allocator world := {|
  a_alloc := frame_alloc cfg;
  a_free := frame_dealloc cfg;
|}.

#[global] Instance stack_allocator_ok cfg base limit :
  @AllocatorOk world (stack_allocator cfg) (fa_universe base limit) (fa_rep base limit).
Proof.
  constructor.
  - intros w L Hrep. pose proof (alloc_rep cfg base limit w L Hrep) as H. cbn. unfold frame_alloc.
    destruct (alloc cfg w) as [o w']. exists o, w'. split; [done|]. destruct o; done.
  - intros w L x Hrep Hx. destruct (dealloc_rep cfg base limit w L x Hrep Hx) as (w' & ? & ? & _).
    by exists w'.
Qed.

(** C22: the frame allocator the kernel boots with refines the abstract allocator.
    Whatever its clients allocate and drop, in any build configuration, it never
    panics, no frame is held twice, only frames between the end of the kernel image
    and the end of memory are handed out, an allocation fails only when all of them
    are held, and [unallocated_frames] is exact. *)
Theorem frame_allocator_refines cfg ekernel memory_end m rs :
  in_range 64 ekernel -> in_range 64 memory_end -> addr_ceil ekernel <= addr_floor memory_end ->
  exists c,
    @client_run world (stack_allocator cfg)
      (Client (init_frame_allocator ekernel memory_end (World new m)) [] []) rs = Ret c /\
    NoDup (c_held c) /\
    spec_steps (fa_universe (addr_ceil ekernel) (addr_floor memory_end)) ∅
      (c_trace c) (list_to_set (c_held c)) /\
    unallocated_frames (fa (c_alloc c)) =
      addr_floor memory_end - addr_ceil ekernel - Z.of_nat (length (c_held c)).
Proof.
  intros He [Hm0 Hm1] Hle.
  assert (0 <= addr_ceil ekernel) by (apply Z.div_pos; [apply wrap_range; lia|done]).
  assert (addr_floor memory_end < 2 ^ 64) by (unfold addr_floor, PAGE_SIZE; Z.div_mod_to_equations; lia).
  destruct (@client_safe world (stack_allocator cfg) _ _ _
    (init_frame_allocator ekernel memory_end (World new m)) ∅ rs
    (init_frame_allocator_rep ekernel memory_end (World new m) eq_refl ltac:(lia) ltac:(lia)))
    as (c & Hc & Hnd & _ & Hrep & Hsp).
  rewrite union_empty_l_L in Hrep, Hsp. exists c. repeat split; try done.
  rewrite (unallocated_frames_spec _ _ _ _ Hrep), size_list_to_set by done. done.
Qed.

(** On a machine with four free frames, of which one is dropped again. *)
Lemma frame_allocator_refines_witness :
  exists c,
    @client_run world (stack_allocator (MkConfig false true))
      (Client (init_frame_allocator 0x80401001 0x80406000 (World new (fun _ _ => 0))) [] [])
      [ReqAlloc; ReqAlloc; ReqDrop 0; ReqAlloc] = Ret c /\
    NoDup (c_held c) /\
    spec_steps (fa_universe (addr_ceil 0x80401001) (addr_floor 0x80406000)) ∅
      (c_trace c) (list_to_set (c_held c)) /\
    unallocated_frames (fa (c_alloc c)) =
      addr_floor 0x80406000 - addr_ceil 0x80401001 - Z.of_nat (length (c_held c)).
Proof.
  apply (frame_allocator_refines (MkConfig false true) 0x80401001 0x80406000 (fun _ _ => 0)
    [ReqAlloc; ReqAlloc; ReqDrop 0; ReqAlloc]); [unfold in_range; lia..|].
  vm_compute. discriminate.
Defined.

(** ** Several frames at once *)

Lemma drop_trackers_rep cfg base limit l : forall w L,
  NoDup l -> (list_to_set l : gset Z) ## L -> fa_rep base limit w (list_to_set l ∪ L) ->
  exists w', drop_trackers cfg w l = Ret w' /\ fa_rep base limit w' L /\ mem w' = mem w.
Proof.
  induction l as [|x l IH]; intros w L Hnd Hdj Hrep.
  - exists w. cbn in *. by rewrite union_empty_l_L in Hrep.
  - apply NoDup_cons in Hnd as [Hx Hnd]. cbn in Hdj, Hrep.
    destruct (dealloc_rep cfg base limit w _ x Hrep) as (w1 & H1 & H2 & H3); [set_solver|].
    cbn [drop_trackers]. unfold frame_dealloc. rewrite H1. cbn [mbind outcome_bind].
    destruct (IH w1 L) as (w2 & H4 & H5 & H6); [done|set_solver| |].
    + replace (list_to_set l ∪ L) with (({[x]} ∪ list_to_set l ∪ L) ∖ {[x]}); [done|set_solver].
    + exists w2. split; [done|]. split; [done|]. by rewrite H6, H3.
Qed.

Lemma frames_alloc_loop_ok cfg base limit n : forall frames w L,
  NoDup frames -> (list_to_set frames : gset Z) ## L ->
  fa_rep base limit w (list_to_set frames ∪ L) ->
  exists o w', frames_alloc_loop cfg (frame_alloc cfg) n frames w = Ret (o, w') /\
  (forall p i, p ∈ L -> mem w' p i = mem w p i) /\
  match o with
  | Some fs => exists new, fs = frames ++ new /\ length new = n /\ NoDup fs /\
      (list_to_set fs : gset Z) ## L /\ fa_rep base limit w' (list_to_set fs ∪ L) /\
      (forall x, x ∈ new -> fa_universe base limit x) /\
      (forall p i, p ∉ new -> mem w' p i = mem w p i) /\
      (zero_init cfg = false -> forall x i, x ∈ new -> mem w' x i = 0)
  | None => fa_rep base limit w' L /\
      limit - base - Z.of_nat (size L) < Z.of_nat (length frames + n)
  end.
Proof.
  induction n as [|n IH]; intros frames w L Hnd Hdj Hrep; cbn [frames_alloc_loop].
  { do 2 eexists. split; [done|]. split; [done|]. exists []. rewrite app_nil_r.
    do 5 (split; [done|]). split; [intros x Hx; by apply not_elem_of_nil in Hx|].
    split; [done|]. intros _ x i Hx. by apply not_elem_of_nil in Hx. }
  change (frame_alloc cfg w) with (Ret (alloc cfg w)). cbn [mbind outcome_bind].
  pose proof (alloc_rep cfg base limit w _ Hrep) as Ha. pose proof (alloc_mem cfg w) as Hmem.
  destruct (alloc cfg w) as [[x|] w1].
  - destruct Ha as (HU & Hx & Hrep1). destruct (Hmem x w1 eq_refl) as [Hz Hother].
    assert ({[x]} ∪ (list_to_set frames ∪ L) = (list_to_set (frames ++ [x]) : gset Z) ∪ L) as Heq.
    { rewrite list_to_set_app_L. cbn. set_solver. }
    rewrite Heq in Hrep1.
    destruct (IH (frames ++ [x]) w1 L) as (o & w' & Hrun & HL & Ho); [| |done|].
    { apply NoDup_app. split; [done|]. split; [|apply NoDup_singleton].
      intros y Hy Hy2. apply list_elem_of_singleton in Hy2 as ->. set_solver. }
    { rewrite list_to_set_app_L. cbn. set_solver. }
    exists o, w'. split; [done|]. split.
    { intros p i Hp. rewrite HL by done. apply Hother. set_solver. }
    destruct o as [fs|].
    + destruct Ho as (nw & -> & Hlen & Hnd' & Hdj' & Hrep' & HU' & Hmem' & Hz').
      assert (x ∉ nw) as Hxn.
      { apply NoDup_app in Hnd' as (_ & Hd & _). intros Hin. by apply (Hd x); [set_solver|]. }
      exists (x :: nw). rewrite <- app_assoc in *. cbn in *.
      do 2 (split; [done || (by f_equal)|]). do 3 (split; [done|]). split.
      { intros y Hy. apply elem_of_cons in Hy as [->|Hy]; [done|by apply HU']. }
      split.
      { intros p i Hp. apply not_elem_of_cons in Hp as [Hp1 Hp2]. rewrite Hmem' by done. by apply Hother. }
      intros Hzi y i Hy. apply elem_of_cons in Hy as [->|Hy]; [|by apply Hz'].
      rewrite Hmem' by done. by apply Hz.
    + destruct Ho as [Ho1 Ho2]. split; [done|]. rewrite length_app in Ho2. cbn in Ho2. lia.
  - destruct Ha as [-> Hfull].
    destruct (drop_trackers_rep cfg base limit frames w L Hnd Hdj Hrep) as (w2 & H1 & H2 & H3).
    rewrite H1. cbn [mbind outcome_bind]. do 2 eexists. split; [done|]. split; [by rewrite H3|].
    split; [done|].
    assert (size (list_to_set (seqZ base (limit - base)) : gset Z) <= size (list_to_set frames ∪ L : gset Z))%nat as Hsz.
    { apply subseteq_size. intros y Hy%elem_of_list_to_set%elem_of_seqZ. apply Hfull.
      unfold fa_universe. lia. }
    rewrite size_union, !size_list_to_set, length_seqZ in Hsz by (done || apply NoDup_seqZ). lia.
Qed.

(** [frames_alloc n] is all or nothing. If it succeeds it returns [n] distinct
    managed frames that were not live, all zero, and every other page of memory is
    untouched; if it fails the live frames and their contents are exactly what they
    were, so nothing leaks, and fewer than [n] frames were available. *)
Theorem frames_alloc_ok cfg base limit w L num :
  zero_init cfg = false -> fa_rep base limit w L -> 0 <= num ->
  exists o w', frames_alloc cfg (frame_alloc cfg) num w = Ret (o, w') /\
  match o with
  | Some fs => Z.of_nat (length fs) = num /\ NoDup fs /\
      (forall x, x ∈ fs -> base <= x < limit /\ x ∉ L /\ forall i, mem w' x i = 0) /\
      fa_rep base limit w' (list_to_set fs ∪ L) /\
      (forall p i, p ∉ fs -> mem w' p i = mem w p i)
  | None => fa_rep base limit w' L /\ (forall p i, p ∈ L -> mem w' p i = mem w p i) /\
      unallocated_frames (fa w) < num
  end.
Proof.
  intros Hzi Hrep Hnum.
  destruct (frames_alloc_loop_ok cfg base limit (Z.to_nat num) [] w L) as (o & w' & Hr & HL & Ho).
  - apply NoDup_nil_2.
  - set_solver.
  - cbn. by rewrite union_empty_l_L.
  - exists o, w'. split; [done|]. destruct o as [fs|].
    + destruct Ho as (nw & -> & Hlen & Hnd & Hdj & Hrep' & HU & Hmem & Hz). cbn in *.
      split; [lia|]. split; [done|]. split; [|done].
      intros x Hx. split; [by apply HU|]. split; [set_solver|]. intros i. by apply Hz.
    + destruct Ho as [Ho1 Ho2]. split; [done|]. split; [done|].
      rewrite (unallocated_frames_spec _ _ _ _ Hrep). cbn in Ho2. lia.
Qed.

(** At boot, asking for two frames out of four. *)
Lemma frames_alloc_ok_witness :
  let cfg := MkConfig false false in
  let w := init_frame_allocator 0x80401001 0x80406000 (World new (fun _ _ => 9)) in
  zero_init cfg = false /\ fa_rep 0x80402 0x80406 w ∅ /\
  exists o w', frames_alloc cfg (frame_alloc cfg) 2 w = Ret (o, w') /\
  match o with
  | Some fs => Z.of_nat (length fs) = 2 /\ NoDup fs /\
      (forall x, x ∈ fs -> 0x80402 <= x < 0x80406 /\ x ∉ (∅ : gset Z) /\ forall i, mem w' x i = 0) /\
      fa_rep 0x80402 0x80406 w' (list_to_set fs ∪ ∅) /\
      (forall p i, p ∉ fs -> mem w' p i = mem w p i)
  | None => fa_rep 0x80402 0x80406 w' ∅ /\ (forall p i, p ∈ (∅ : gset Z) -> mem w' p i = mem w p i) /\
      unallocated_frames (fa w) < 2
  end.
Proof.
  intros cfg w.
  assert (fa_rep 0x80402 0x80406 w ∅) as Hrep.
  { apply (init_frame_allocator_rep 0x80401001 0x80406000 (World new (fun _ _ => 9))); vm_compute; intuition discriminate. }
  split; [done|]. split; [done|]. apply (frames_alloc_ok cfg 0x80402 0x80406 w ∅ 2); [done|done|lia].
Defined.

End StackFrameAllocator.
