(* ===== verification/PageTable.v ===== *)
(** * PageTable: the interface of a page table, and pages as bytes (os/src/mm/page_table.rs)

    Memory areas and memory sets are written against the trait [PageTable]. This file
    holds the trait as a class of operations, what an implementation promises
    ([PageTableOk]: a page table is a finite map from page numbers to a frame and its
    permissions, kept in frames of its own), and the byte view of a physical page that
    the rest of the kernel copies, compresses and swaps. *)
From S2P Require Import Prelude Bytes AllocSpec Address FrameAlloc.
Import StackFrameAllocator.

(** ** The bytes of a page ([get_bytes_array]) *)

Definition page_bytes (m : pmem) (ppn : Z) : list Z :=
  mjoin ((fun i => le_split 8 (m ppn i)) <$> seqZ 0 512).
Definition mem_set_bytes (m : pmem) (ppn : Z) (bs : list Z) : pmem :=
  fun p i => if p =? ppn then le_combine (take 8 (drop (Z.to_nat (8 * i)) bs)) else m p i.

Definition bytes_ok (bs : list Z) : Prop := Z.of_nat (length bs) = PAGE_SIZE /\ Forall byte_ok bs.
Definition zero_page : list Z := replicate 4096 0.

Lemma mjoin_chunks (f : Z -> list Z) bs n : forall k, (forall i, k <= i < k + Z.of_nat n -> f i = take 8 (drop (Z.to_nat (8 * (i - k))) bs)) ->
  length bs = (8 * n)%nat -> mjoin (f <$> seqZ k (Z.of_nat n)) = bs.
Proof.
  revert bs. induction n as [|n IH]; intros bs k Hf Hl.
  { by destruct bs. }
  rewrite seqZ_cons by lia. cbn [fmap list_fmap mjoin list_join]. rewrite (Hf k) by lia.
  replace (8 * (k - k)) with 0 by lia. change (drop (Z.to_nat 0) bs) with bs.
  replace (Z.pred (Z.of_nat (S n))) with (Z.of_nat n) by lia. rewrite <- (take_drop 8 bs) at 2. f_equal.
  apply IH; [|rewrite length_drop; lia]. intros i Hi. rewrite (Hf i) by lia. rewrite drop_drop. do 2 f_equal. lia.
Qed.

Lemma page_bytes_set m p bs : bytes_ok bs -> page_bytes (mem_set_bytes m p bs) p = bs.
Proof.
  intros [Hl Hb]. unfold page_bytes. apply (mjoin_chunks _ bs 512); [|unfold PAGE_SIZE in Hl; lia].
  intros i Hi. unfold mem_set_bytes. rewrite Z.eqb_refl, Z.sub_0_r.
  set (c := take 8 (drop (Z.to_nat (8 * i)) bs)).
  replace 8%nat with (length c); [apply le_split_combine; by apply Forall_take, Forall_drop|].
  unfold c. rewrite length_take, length_drop. unfold PAGE_SIZE in Hl. lia.
Qed.

Lemma page_bytes_ext m m' p : (forall i, m' p i = m p i) -> page_bytes m' p = page_bytes m p.
Proof. intros H. unfold page_bytes. f_equal. apply list_fmap_ext. intros ? ? _. by rewrite H. Qed.

Lemma mem_set_bytes_other m p bs q i : q <> p -> mem_set_bytes m p bs q i = m q i.
Proof. intros H. unfold mem_set_bytes. by case_Z. Qed.

Lemma page_bytes_ok m p : bytes_ok (page_bytes m p).
Proof.
  unfold page_bytes. assert (forall l, length (mjoin ((fun i => le_split 8 (m p i)) <$> l)) = (8 * length l)%nat /\
    Forall byte_ok (mjoin ((fun i => le_split 8 (m p i)) <$> l))) as H.
  { induction l as [|i l [IH1 IH2]]; [done|].
    change (mjoin ((fun i => le_split 8 (m p i)) <$> i :: l)) with (le_split 8 (m p i) ++ mjoin ((fun i => le_split 8 (m p i)) <$> l)).
    rewrite length_app, le_split_length, IH1. split; [cbn [length]; lia|].
    apply Forall_app. split; [apply le_split_bytes|done]. }
  destruct (H (seqZ 0 512)) as [H1 H2]. split; [|done]. rewrite H1, length_seqZ. reflexivity.
Qed.

Lemma page_bytes_zero m p : (forall i, m p i = 0) -> page_bytes m p = zero_page.
Proof.
  intros H. rewrite (page_bytes_ext (fun _ _ => 0) m p) by done. vm_compute. reflexivity.
Qed.

(** Pages are compared as wholes; conversion has no business with their bytes. *)
#[global] Opaque zero_page page_bytes mem_set_bytes.

(** ** The trait *)

(** [bool] results stand for [Result<(), ()>]. [pt_tables] is the field that keeps the
    trackers of the table frames. *)
Class PageTable (T : Type) := {
  pt_new : world -> outcome (T * world);
  pt_map : T -> world -> Z -> Z -> Z -> outcome (T * world);
  pt_map_identical : T -> world -> Z -> Z -> Z -> outcome (T * world);
  pt_unmap : T -> world -> Z -> outcome world;
  pt_is_mapped : T -> pmem -> Z -> bool;
  pt_translate : T -> pmem -> Z -> option Z;
  pt_translate_va : T -> pmem -> Z -> option Z;
  pt_set_pte_flags : T -> world -> Z -> Z -> bool * world;
  pt_block_and_ret_mut : T -> world -> Z -> option Z * world;
  pt_writable : T -> pmem -> Z -> option bool;
  pt_tables : T -> list Z;
}.

(** [MapPermission] *)
Module MapPermission.
Definition R : Z := 2.
Definition W : Z := 4.
Definition X : Z := 8.
Definition U : Z := 16.
(** [contains], [difference] and [|] of [bitflags]. *)
Definition contains (a b : Z) : bool := Z.land a b =? b.
Definition difference (a b : Z) : Z := Z.land a (not_bits 8 b).
Definition ok (perm : Z) : Prop := Z.land perm 0x1e = perm.
End MapPermission.

(** What an operation that may add tables leaves behind: the live frames [L] grow by at
    most [k] new table frames, and nothing others own is written. *)
Definition pt_grown {T} `{PageTable T} (rep : T -> pmem -> gmap Z (Z * Z) -> Prop) (base limit k : Z)
    (tables : list Z) (L : gset Z) (w : world) (pt' : T) (w' : world) (M' : gmap Z (Z * Z)) : Prop :=
  exists L', fa_rep base limit w' L' /\ L ⊆ L' /\ (forall x, x ∈ L' -> x ∈ L \/ x ∈ pt_tables pt') /\
    Z.of_nat (size L') <= Z.of_nat (size L) + k /\
    (forall x, x ∈ tables -> x ∈ pt_tables pt') /\
    (forall x, x ∈ pt_tables pt' -> x ∈ L' /\ (x ∈ tables \/ x ∉ L)) /\
    rep pt' (mem w') M' /\ (forall q j, q ∈ L -> q ∉ tables -> mem w' q j = mem w q j).

(** An update in place: only the page table's own frames are written. *)
Definition pt_changed {T} `{PageTable T} (rep : T -> pmem -> gmap Z (Z * Z) -> Prop)
    (pt : T) (w w' : world) (M' : gmap Z (Z * Z)) : Prop :=
  fa w' = fa w /\ rep pt (mem w') M' /\ (forall q j, q ∉ pt_tables pt -> mem w' q j = mem w q j).

(** A page table in a running system: its tables are live frames. *)
Definition pt_at {T} `{PageTable T} (rep : T -> pmem -> gmap Z (Z * Z) -> Prop) (base limit : Z)
    (pt : T) (w : world) (L : gset Z) (M : gmap Z (Z * Z)) : Prop :=
  rep pt (mem w) M /\ fa_rep base limit w L /\ (forall x, x ∈ pt_tables pt -> x ∈ L).

(** The frames from [base] to [limit] are managed; [vpn_ok] and [ppn_ok] say which
    numbers fit the table's format. *)
Class PageTableOk (T : Type) `{PageTable T} (base limit : Z) (vpn_ok ppn_ok : Z -> Prop)
    (rep : T -> pmem -> gmap Z (Z * Z) -> Prop) := {
  pt_local : forall pt m m' M, rep pt m M ->
    (forall q j, q ∈ pt_tables pt -> m' q j = m q j) -> rep pt m' M;
  pt_query_ok : forall pt m M vpn, rep pt m M -> vpn_ok vpn ->
    pt_is_mapped pt m vpn = bool_decide (is_Some (M !! vpn)) /\
    pt_translate pt m vpn = fst <$> M !! vpn /\
    pt_writable pt m vpn = (fun e => MapPermission.contains e.2 MapPermission.W) <$> M !! vpn;
  pt_va_ok : forall pt m M va, rep pt m M -> vpn_ok (addr_floor va) ->
    pt_translate_va pt m va = (fun e => pn_offset e.1 (page_offset va)) <$> M !! addr_floor va;
  pt_new_ok : forall w L, fa_rep base limit w L -> Z.of_nat (size L) < limit - base ->
    exists pt w', pt_new w = Ret (pt, w') /\ pt_grown rep base limit 1 [] L w pt w' ∅;
  pt_map_ok : forall pt w L M vpn ppn perm, pt_at rep base limit pt w L M -> Z.of_nat (size L) + 1 < limit - base ->
    vpn_ok vpn -> ppn_ok ppn -> MapPermission.ok perm -> M !! vpn = None ->
    exists pt' w', pt_map pt w vpn ppn perm = Ret (pt', w') /\
      pt_grown rep base limit 2 (pt_tables pt) L w pt' w' (<[vpn := (ppn, perm)]> M);
  pt_unmap_ok : forall pt w L M vpn e, pt_at rep base limit pt w L M -> vpn_ok vpn -> M !! vpn = Some e ->
    exists w', pt_unmap pt w vpn = Ret w' /\ pt_changed rep pt w w' (delete vpn M);
  pt_flags_ok : forall pt w L M vpn perm, pt_at rep base limit pt w L M -> vpn_ok vpn -> MapPermission.ok perm ->
    exists w', pt_set_pte_flags pt w vpn perm = (bool_decide (is_Some (M !! vpn)), w') /\
      pt_changed rep pt w w' (alter (fun e => (e.1, perm)) vpn M);
  pt_block_ok : forall pt w L M vpn, pt_at rep base limit pt w L M -> vpn_ok vpn ->
    exists w', pt_block_and_ret_mut pt w vpn = (fst <$> M !! vpn, w') /\
      pt_changed rep pt w w' (alter (fun e => (e.1, MapPermission.difference e.2 MapPermission.W)) vpn M);
}.
