(* ===== verification/Sv39.v ===== *)
(** Sv39 page tables ([os/src/hal/arch/riscv/sv39.rs]).

    A page table is its root frame and the frames it owns; the tables themselves are
    in physical memory. A reference to an entry is its place, a (frame, index) pair.
    The page table is shown to implement a finite map from virtual page numbers to
    entries, over the frame allocator of [FrameAlloc]. *)
From S2P Require Import Prelude AllocSpec Address FrameAlloc Bytes PageTable.
Import StackFrameAllocator.

(** [PTEFlags] *)
Module PTEFlags.
Definition V : Z := 1.
Definition R : Z := 2.
Definition W : Z := 4.
Definition X : Z := 8.
Definition U : Z := 16.
Definition G : Z := 32.
Definition A : Z := 64.
Definition D : Z := 128.
End PTEFlags.

Module Sv39PageTableEntry.
Import PTEFlags.

Definition PPN_MASK : Z := Z.shiftl (Z.shiftl 1 44 - 1) 10.
Definition new (ppn flags : Z) : Z := Z.lor (wrap 64 (Z.shiftl ppn 10)) flags.
Definition empty : Z := 0.
Definition ppn (bits : Z) : Z := Z.shiftr (Z.land bits PPN_MASK) 10.
(** Every bit of [PTEFlags] is declared, so [from_bits] never fails. *)
Definition flags (bits : Z) : Z := wrap 8 bits.
Definition has (bits flag : Z) : bool := negb (Z.land (flags bits) flag =? 0).
Definition is_valid (bits : Z) : bool := has bits V.
Definition is_dirty (bits : Z) : bool := has bits D.
Definition readable (bits : Z) : bool := has bits R.
Definition writable (bits : Z) : bool := has bits W.
Definition executable (bits : Z) : bool := has bits X.
Definition clear_access (bits : Z) : Z := Z.land bits (not_bits 64 A).
Definition clear_dirty (bits : Z) : Z := Z.land bits (not_bits 64 D).
Definition revoke_read (bits : Z) : Z := Z.land bits (not_bits 64 R).
Definition revoke_write (bits : Z) : Z := Z.land bits (not_bits 64 W).
Definition revoke_execute (bits : Z) : Z := Z.land bits (not_bits 64 X).
Definition set_permission (bits perm : Z) : Z := Z.lor (Z.land bits 0xffffffffffffffe1) perm.
Definition set_ppn (bits ppn : Z) : Z :=
  Z.lor (Z.land bits (not_bits 64 PPN_MASK)) (Z.land (wrap 64 (Z.shiftl ppn 10)) PPN_MASK).

Lemma ppn_mask_testbit i : 0 <= i -> Z.testbit PPN_MASK i = (10 <=? i) && (i <? 54).
Proof.
  intros Hi. unfold PPN_MASK. rewrite Z.shiftl_spec by lia. change (Z.shiftl 1 44 - 1) with (Z.ones 44).
  destruct (Z.leb_spec 10 i); cbn [andb]; [|by rewrite Z.testbit_neg_r by lia].
  rewrite Z.testbit_ones_nonneg by lia. case_Z; lia.
Qed.

Lemma has_testbit bits k : 0 <= k < 8 -> has bits (Z.shiftl 1 k) = Z.testbit bits k.
Proof.
  intros Hk. unfold has, flags. assert (0 <= wrap 8 bits) by (apply wrap_range; lia).
  destruct (Z.eqb_spec (Z.land (wrap 8 bits) (Z.shiftl 1 k)) 0) as [E|E]; cbn [negb]; symmetry.
  - apply (f_equal (fun z => Z.testbit z k)) in E. rewrite Z.land_spec, testbit_one_shift, Z.eqb_refl, andb_true_r, Z.testbit_0_l in E by lia.
    unfold wrap in E. by rewrite Z.mod_pow2_bits_low in E by lia.
  - destruct (Z.testbit bits k) eqn:Hb; [done|]. exfalso. apply E. apply Z.bits_inj'. intros i Hi.
    rewrite Z.land_spec, testbit_one_shift, Z.testbit_0_l by lia. destruct (Z.eqb_spec i k) as [->|]; [|by rewrite andb_false_r].
    unfold wrap. by rewrite Z.mod_pow2_bits_low, Hb by lia.
Qed.

Lemma is_valid_testbit bits : is_valid bits = Z.testbit bits 0.
Proof. apply (has_testbit bits 0). lia. Qed.

Lemma new_testbit p f i : 0 <= p < 2 ^ 44 -> 0 <= f < 1024 -> 0 <= i ->
  Z.testbit (new p f) i = if i <? 10 then Z.testbit f i else Z.testbit p (i - 10).
Proof.
  intros Hp Hf Hi. unfold new. rewrite wrap_small by (unfold in_range; rewrite Z.shiftl_mul_pow2 by lia; lia).
  rewrite Z.lor_spec, Z.shiftl_spec by lia. destruct (Z.ltb_spec i 10).
  - by rewrite (Z.testbit_neg_r p) by lia.
  - rewrite (testbit_high 10 f) by (unfold in_range; lia). by rewrite orb_false_r.
Qed.

Lemma ppn_testbit bits i : 0 <= i -> Z.testbit (ppn bits) i = Z.testbit bits (i + 10) && (i <? 44).
Proof.
  intros Hi. unfold ppn. rewrite Z.shiftr_spec, Z.land_spec, ppn_mask_testbit by lia. f_equal. case_Z; lia.
Qed.

Lemma ppn_new p f : 0 <= p < 2 ^ 44 -> 0 <= f < 1024 -> ppn (new p f) = p.
Proof.
  intros Hp Hf. apply Z.bits_inj'. intros i Hi. rewrite ppn_testbit, new_testbit by lia.
  destruct (Z.ltb_spec (i + 10) 10); [lia|]. replace (i + 10 - 10) with i by lia.
  destruct (Z.ltb_spec i 44); [by rewrite andb_true_r|]. rewrite (testbit_high 44 p) by (unfold in_range; lia). done.
Qed.

Lemma valid_new p f : 0 <= p < 2 ^ 44 -> 0 <= f < 1024 -> is_valid (new p f) = Z.testbit f 0.
Proof. intros. rewrite is_valid_testbit, new_testbit by lia. done. Qed.

Lemma set_ppn_ok bits p : 0 <= p < 2 ^ 44 -> is_valid (set_ppn bits p) = is_valid bits /\ ppn (set_ppn bits p) = p.
Proof.
  intros Hp. unfold set_ppn. split.
  - rewrite !is_valid_testbit, Z.lor_spec, !Z.land_spec, testbit_not_bits, !ppn_mask_testbit by lia.
    cbn. by rewrite andb_true_r, andb_false_r, orb_false_r.
  - apply Z.bits_inj'. intros i Hi. rewrite ppn_testbit, Z.lor_spec, !Z.land_spec, ppn_mask_testbit by lia.
    rewrite wrap_small by (unfold in_range; rewrite Z.shiftl_mul_pow2 by lia; lia). rewrite Z.shiftl_spec by lia.
    replace (i + 10 - 10) with i by lia. destruct (Z.ltb_spec i 44) as [Hlt|Hge].
    + rewrite testbit_not_bits, ppn_mask_testbit by lia.
      destruct (Z.leb_spec 10 (i + 10)); [|lia]. destruct (Z.ltb_spec (i + 10) 54); [|lia]. cbn.
      by rewrite andb_false_r, !andb_true_r.
    + rewrite andb_false_r. symmetry. apply (testbit_high 44); [unfold in_range|]; lia.
Qed.

(** The flag-changing updates keep an entry valid and keep its frame. *)
Lemma pt_clear_bit_ok bits k : 1 <= k < 8 ->
  is_valid (Z.land bits (not_bits 64 (Z.shiftl 1 k))) = is_valid bits /\
  ppn (Z.land bits (not_bits 64 (Z.shiftl 1 k))) = ppn bits.
Proof.
  intros Hk. split.
  - rewrite !is_valid_testbit, Z.land_spec, testbit_not_bits, testbit_one_shift by lia.
    destruct (Z.eqb_spec 0 k); [lia|]. by rewrite andb_true_r.
  - apply Z.bits_inj'. intros i Hi. rewrite !ppn_testbit by lia. destruct (Z.ltb_spec i 44); [|by rewrite !andb_false_r].
    rewrite Z.land_spec, testbit_not_bits, testbit_one_shift by lia. destruct (Z.eqb_spec (i + 10) k); [lia|].
    by rewrite !andb_true_r.
Qed.

Lemma set_permission_ok bits perm : Z.land perm 0x1e = perm ->
  is_valid (set_permission bits perm) = is_valid bits /\ ppn (set_permission bits perm) = ppn bits.
Proof.
  intros Hp. assert (forall i, 0 <= i -> i = 0 \/ 10 <= i -> Z.testbit perm i = false) as Hb.
  { intros i Hi Hc. rewrite <- Hp, Z.land_spec. replace (Z.testbit 30 i) with false; [by rewrite andb_false_r|].
    destruct Hc as [->|Hc]; [done|]. symmetry. apply (testbit_high 10); [unfold in_range|]; lia. }
  unfold set_permission. split.
  - rewrite !is_valid_testbit, Z.lor_spec, Z.land_spec, (Hb 0) by lia. cbn. by rewrite andb_true_r, orb_false_r.
  - apply Z.bits_inj'. intros i Hi. rewrite !ppn_testbit by lia. destruct (Z.ltb_spec i 44); [|by rewrite !andb_false_r].
    rewrite Z.lor_spec, Z.land_spec, (Hb (i + 10)) by lia. rewrite orb_false_r. f_equal.
    replace 0xffffffffffffffe1 with (not_bits 64 0x1e) by reflexivity. rewrite testbit_not_bits by lia.
    rewrite (testbit_high 10 0x1e) by (unfold in_range; lia). cbn. by rewrite andb_true_r.
Qed.

End Sv39PageTableEntry.

Module Sv39PageTable.
Import PTEFlags.

Record t : Type := Mk { root_ppn : Z; frames : list Z }.

(** [find_pte] and [find_pte_refmut]: the place of a valid leaf entry. *)
Fixpoint walk (m : pmem) (ppn : Z) (idxs : list Z) : option (Z * Z) :=
  match idxs with
  | [] => None
  | i :: rest =>
      let pte := m ppn i in
      if negb (Sv39PageTableEntry.is_valid pte) then None
      else match rest with [] => Some (ppn, i) | _ => walk m (Sv39PageTableEntry.ppn pte) rest end
  end.
Definition find_pte (pt : t) (m : pmem) (vpn : Z) : option (Z * Z) :=
  walk m (root_ppn pt) (indexes 3 vpn).

(** [find_pte_create]: missing interior tables are allocated on the way. *)
Fixpoint walk_create (cfg : config) (ppn : Z) (idxs : list Z) (fs : list Z) (w : world)
    : outcome (option (Z * Z) * list Z * world) :=
  match idxs with
  | [] => Ret (None, fs, w)
  | [i] => Ret (Some (ppn, i), fs, w)
  | i :: rest =>
      let pte := mem w ppn i in
      if negb (Sv39PageTableEntry.is_valid pte) then
        '(o, w1) ← frame_alloc cfg w;
        frame ← unwrap o;
        let pte := Sv39PageTableEntry.new frame V in
        walk_create cfg (Sv39PageTableEntry.ppn pte) rest (fs ++ [frame])
          (World (fa w1) (mem_write (mem w1) ppn i pte))
      else walk_create cfg (Sv39PageTableEntry.ppn pte) rest fs w
  end.
Definition find_pte_create (cfg : config) (pt : t) (w : world) (vpn : Z) : outcome (option (Z * Z) * t * world) :=
  '(o, fs, w') ← walk_create cfg (root_ppn pt) (indexes 3 vpn) (frames pt) w;
  Ret (o, Mk (root_ppn pt) fs, w').

Definition read (m : pmem) (pl : Z * Z) : Z := m (fst pl) (snd pl).
Definition write (w : world) (pl : Z * Z) (pte : Z) : world := World (fa w) (mem_write (mem w) (fst pl) (snd pl) pte).

Definition new (cfg : config) (w : world) : outcome (t * world) :=
  '(o, w') ← frame_alloc cfg w;
  frame ← unwrap o;
  Ret (Mk frame [frame], w').
Definition from_token (satp : Z) : t := Mk (Z.land satp (Z.shiftl 1 44 - 1)) [].
Definition token (pt : t) : Z := Z.lor (wrap 64 (Z.shiftl 8 60)) (root_ppn pt).

Definition is_mapped (pt : t) (m : pmem) (vpn : Z) : bool :=
  match find_pte pt m vpn with Some pl => Sv39PageTableEntry.is_valid (read m pl) | None => false end.

Definition map (cfg : config) (pt : t) (w : world) (vpn ppn perm : Z) : outcome (t * world) :=
  '(o, pt', w') ← find_pte_create cfg pt w vpn;
  pl ← unwrap o;
  rust_assert (negb (Sv39PageTableEntry.is_valid (read (mem w') pl))) ;;
  Ret (pt', write w' pl (Sv39PageTableEntry.new ppn (Z.lor (Z.lor (Z.lor perm V) A) D))).

Definition unmap (pt : t) (w : world) (vpn : Z) : outcome world :=
  pl ← unwrap (find_pte pt (mem w) vpn);
  rust_assert (Sv39PageTableEntry.is_valid (read (mem w) pl)) ;;
  Ret (write w pl Sv39PageTableEntry.empty).

Definition translate (pt : t) (m : pmem) (vpn : Z) : option Z :=
  (fun pl => Sv39PageTableEntry.ppn (read m pl)) <$> find_pte pt m vpn.
Definition translate_va (pt : t) (m : pmem) (va : Z) : option Z :=
  (fun pl => addr_from_pn (Sv39PageTableEntry.ppn (read m pl)) ⊕ page_offset va) <$> find_pte pt m (addr_floor va).

(** The updates of one entry: [true] is [Ok(())], [false] is [Err(())]. *)
Definition update_pte (f : Z -> Z) (pt : t) (w : world) (vpn : Z) : bool * world :=
  match find_pte pt (mem w) vpn with
  | Some pl => (true, write w pl (f (read (mem w) pl)))
  | None => (false, w)
  end.
Definition revoke_read := update_pte Sv39PageTableEntry.revoke_read.
Definition revoke_write := update_pte Sv39PageTableEntry.revoke_write.
Definition revoke_execute := update_pte Sv39PageTableEntry.revoke_execute.
Definition clear_access_bit := update_pte Sv39PageTableEntry.clear_access.
Definition clear_dirty_bit := update_pte Sv39PageTableEntry.clear_dirty.
Definition set_ppn (pt : t) (w : world) (vpn ppn : Z) : bool * world :=
  update_pte (fun e => Sv39PageTableEntry.set_ppn e ppn) pt w vpn.
Definition set_pte_flags (pt : t) (w : world) (vpn perm : Z) : bool * world :=
  update_pte (fun e => Sv39PageTableEntry.set_permission e perm) pt w vpn.
Definition block_and_ret_mut (pt : t) (w : world) (vpn : Z) : option Z * world :=
  match find_pte pt (mem w) vpn with
  | Some pl =>
      let e := Sv39PageTableEntry.revoke_write (read (mem w) pl) in
      (Some (Sv39PageTableEntry.ppn e), write w pl e)
  | None => (None, w)
  end.

Definition pte_query (q : Z -> bool) (pt : t) (m : pmem) (vpn : Z) : option bool :=
  (fun pl => q (read m pl)) <$> find_pte pt m vpn.
Definition is_valid := pte_query Sv39PageTableEntry.is_valid.
Definition is_dirty := pte_query Sv39PageTableEntry.is_dirty.
Definition readable := pte_query Sv39PageTableEntry.readable.
Definition writable := pte_query Sv39PageTableEntry.writable.
Definition executable := pte_query Sv39PageTableEntry.executable.

(** ** The tree of tables

    [T] gives the frame of the table at each path of indices from the root. *)
Section Tree.
Context (cfg : config) (base limit : Z).
Hypothesis (Hzero : zero_init cfg = false) (Hbase : 0 <= base) (Hlimit : limit <= 2 ^ 44).

(** The tables themselves, *)
Record tree (pt : t) (m : pmem) (T : gmap (list Z) Z) : Prop := {
  t_nodup : NoDup (frames pt);
  t_root : T !! [] = Some (root_ppn pt);
  t_vals : forall k p, T !! k = Some p -> p ∈ frames pt /\ (length k <= 2)%nat;
  t_inj : forall k1 k2 p, T !! k1 = Some p -> T !! k2 = Some p -> k1 = k2;
  t_closed : forall k i, is_Some (T !! (k ++ [i])) -> is_Some (T !! k);
  t_step : forall k p i, T !! k = Some p -> (length k < 2)%nat -> 0 <= i < 512 ->
    T !! (k ++ [i]) =
      if Sv39PageTableEntry.is_valid (m p i) then Some (Sv39PageTableEntry.ppn (m p i)) else None;
}.

(** and their frames among the live ones. *)
Record inv (pt : t) (w : world) (L : gset Z) (T : gmap (list Z) Z) : Prop := {
  i_rep : fa_rep base limit w L;
  i_frames : forall f, f ∈ frames pt -> f ∈ L;
  i_tree : tree pt (mem w) T;
}.
Definition i_root pt w L T (H : inv pt w L T) := t_root _ _ _ (i_tree _ _ _ _ H).
Definition i_vals pt w L T (H : inv pt w L T) := t_vals _ _ _ (i_tree _ _ _ _ H).
Definition i_inj pt w L T (H : inv pt w L T) := t_inj _ _ _ (i_tree _ _ _ _ H).
Definition i_closed pt w L T (H : inv pt w L T) := t_closed _ _ _ (i_tree _ _ _ _ H).
Definition i_step pt w L T (H : inv pt w L T) := t_step _ _ _ (i_tree _ _ _ _ H).

(** The entry of a page, by its three indices. *)
Definition place (T : gmap (list Z) Z) (m : pmem) (a b c : Z) : option (Z * Z) :=
  match T !! [a; b] with
  | Some p => if Sv39PageTableEntry.is_valid (m p c) then Some (p, c) else None
  | None => None
  end.
Definition entry (T : gmap (list Z) Z) (m : pmem) (a b c : Z) : option Z := read m <$> place T m a b c.

Lemma walk_place pt m T a b c : tree pt m T -> 0 <= a < 512 -> 0 <= b < 512 ->
  walk m (root_ppn pt) [a; b; c] = place T m a b c.
Proof.
  intros Hi Ha Hb. unfold place. cbn [walk].
  pose proof (t_step _ _ _ Hi [] _ a (t_root _ _ _ Hi) ltac:(cbn; lia) Ha) as H1. cbn [app] in H1.
  destruct (Sv39PageTableEntry.is_valid (m (root_ppn pt) a)); cbn [negb].
  - pose proof (t_step _ _ _ Hi [a] _ b H1 ltac:(cbn; lia) Hb) as H2. cbn [app] in H2. rewrite H2.
    destruct (Sv39PageTableEntry.is_valid (m _ b)); cbn [negb]; [|done].
    by destruct (Sv39PageTableEntry.is_valid (m _ c)).
  - destruct (T !! [a; b]) as [p|] eqn:E; [|done]. exfalso.
    destruct (t_closed _ _ _ Hi [a] b) as [q Hq]; [by exists p|]. congruence.
Qed.

Lemma frame_range pt w L T p : inv pt w L T -> p ∈ frames pt -> 0 <= p < 2 ^ 44.
Proof.
  intros Hi Hp. apply (i_frames _ _ _ _ Hi), (rep_live _ _ _ _ (i_rep _ _ _ _ Hi)) in Hp as [Hp _].
  pose proof (rep_limit _ _ _ _ (i_rep _ _ _ _ Hi)). lia.
Qed.

(** An allocation succeeds while frames are left. *)
Lemma alloc_some w L : fa_rep base limit w L -> Z.of_nat (size L) < limit - base ->
  exists x w', alloc cfg w = (Some x, w') /\ x ∉ L /\ fa_rep base limit w' ({[x]} ∪ L) /\
    (forall i, mem w' x i = 0) /\ (forall p i, p <> x -> mem w' p i = mem w p i).
Proof.
  intros Hr Hs. pose proof (alloc_rep cfg base limit w L Hr) as H. destruct (alloc cfg w) as [[x|] w'] eqn:E.
  - destruct H as (_ & Hx & Hr'). destruct (alloc_mem cfg w x w' E) as [Hm1 Hm2]. exists x, w'. split_and!; auto.
  - exfalso. destruct H as [-> Hall]. pose proof (live_partition _ _ _ _ Hr) as Hp.
    unfold alloc in E. pose proof (vec_pop_spec (recycled (fa w))) as Hpop.
    destruct (vec_pop (recycled (fa w))) as [[? ?]|]; [done|]. rewrite Hpop in Hp. cbn in Hp.
    destruct (Z.eqb_spec (current (fa w)) (end_ (fa w))); [|done]. rewrite <- (rep_end _ _ _ _ Hr) in Hs. lia.
Qed.

(** ** Adding an interior table *)

Section Grow.
Context (pt : t) (w w1 : world) (L : gset Z) (T : gmap (list Z) Z) (k : list Z) (p i x : Z).
Hypothesis (Hi : inv pt w L T) (Hk : T !! k = Some p) (Hlen : (length k < 2)%nat) (Hidx : 0 <= i < 512).
Hypothesis (Hinv : Sv39PageTableEntry.is_valid (mem w p i) = false).
Hypothesis (Hx : x ∉ L) (Hrep : fa_rep base limit w1 ({[x]} ∪ L)).
Hypothesis (Hm0 : forall j, mem w1 x j = 0) (Hm1 : forall q j, q <> x -> mem w1 q j = mem w q j).

Let pte := Sv39PageTableEntry.new x V.
Let w' := World (fa w1) (mem_write (mem w1) p i pte).
Let T' := <[k ++ [i] := x]> T.
Let pt' := Mk (root_ppn pt) (frames pt ++ [x]).

Lemma x_range : 0 <= x < 2 ^ 44.
Proof.
  assert (x ∈ {[x]} ∪ L) as H by (by apply elem_of_union_l, elem_of_singleton). apply (rep_live _ _ _ _ Hrep) in H as [H _].
  pose proof (rep_limit _ _ _ _ Hrep). lia.
Qed.

Lemma new_pte_ok : Sv39PageTableEntry.is_valid pte = true /\ Sv39PageTableEntry.ppn pte = x.
Proof.
  pose proof x_range. unfold pte. split; [by rewrite Sv39PageTableEntry.valid_new by (unfold V; lia)|].
  apply Sv39PageTableEntry.ppn_new; unfold V; lia.
Qed.

Lemma x_not_table q : q ∈ frames pt -> q <> x.
Proof. intros Hq ->. apply Hx. by apply (i_frames _ _ _ _ Hi). Qed.

Lemma path_free : T !! (k ++ [i]) = None.
Proof. rewrite (i_step _ _ _ _ Hi k p i Hk Hlen Hidx). by rewrite Hinv. Qed.

Lemma p_table : p ∈ frames pt.
Proof. by apply (i_vals _ _ _ _ Hi k). Qed.

(** Tables other than the one written to keep their contents. *)
Lemma grow_mem q j : q ∈ frames pt -> (q, j) <> (p, i) -> mem w' q j = mem w q j.
Proof.
  intros Hq Hne. cbn. rewrite mem_write_other by done. apply Hm1. by apply x_not_table.
Qed.

Lemma grow_new j : mem w' x j = 0.
Proof.
  cbn. rewrite mem_write_other; [done|]. intros [= E _]. apply (x_not_table p p_table). congruence.
Qed.

Lemma grow_step q c j : T' !! q = Some c -> (length q < 2)%nat -> 0 <= j < 512 ->
  T' !! (q ++ [j]) =
    if Sv39PageTableEntry.is_valid (mem w' c j) then Some (Sv39PageTableEntry.ppn (mem w' c j)) else None.
Proof.
  unfold T'. intros Hq Hl Hj. apply lookup_insert_Some in Hq as [[<- <-]|[Hne Hq]].
  - rewrite grow_new. cbn. rewrite lookup_insert_ne by (intros E; apply (f_equal length) in E; rewrite !length_app in E; cbn in E; lia).
    destruct (T !! ((k ++ [i]) ++ [j])) eqn:E; [|done].
    destruct (i_closed _ _ _ _ Hi (k ++ [i]) j) as [? ?]; [by eexists|]. by rewrite path_free in *.
  - destruct (decide (q = k /\ j = i)) as [[-> ->]|Hd].
    + assert (c = p) as -> by congruence. rewrite lookup_insert_eq. unfold w'. cbn [mem]. rewrite mem_write_same.
      destruct new_pte_ok as [-> ->]. done.
    + rewrite lookup_insert_ne by (intros E; apply app_inj_tail in E; naive_solver).
      rewrite grow_mem; [by apply (i_step _ _ _ _ Hi)|by apply (i_vals _ _ _ _ Hi q)|].
      intros [= -> ->]. apply Hd. split; [|done]. by apply (i_inj _ _ _ _ Hi q k p).
Qed.

Lemma grow_tree : tree pt' (mem w') T'.
Proof.
  constructor.
  - cbn. apply NoDup_app. split; [apply (t_nodup _ _ _ (i_tree _ _ _ _ Hi))|]. split; [|apply NoDup_singleton].
    intros y Hy Hy2. apply list_elem_of_singleton in Hy2 as ->. by apply (x_not_table x).
  - unfold T'. rewrite lookup_insert_ne by (by destruct k). apply (i_root _ _ _ _ Hi).
  - intros q c Hq. unfold T' in Hq. cbn. apply lookup_insert_Some in Hq as [[<- <-]|[_ Hq]].
    + rewrite elem_of_app, length_app. cbn. split; [right; left|lia].
    + destruct (i_vals _ _ _ _ Hi q c Hq). rewrite elem_of_app. split; [by left|done].
  - intros k1 k2 c H1 H2. unfold T' in H1, H2.
    apply lookup_insert_Some in H1 as [[<- <-]|[_ H1]]; apply lookup_insert_Some in H2 as [[<- E2]|[_ H2]]; try done.
    + exfalso. destruct (i_vals _ _ _ _ Hi k2 x H2) as [H _]. by apply (x_not_table x).
    + exfalso. subst c. destruct (i_vals _ _ _ _ Hi k1 x H1) as [H _]. by apply (x_not_table x).
    + by apply (i_inj _ _ _ _ Hi k1 k2 c).
  - intros q j [c Hq]. unfold T' in *. destruct (decide (q = k ++ [i])) as [->|Hne]; [rewrite lookup_insert_eq; by eexists|].
    rewrite lookup_insert_ne by done. apply lookup_insert_Some in Hq as [[E _]|[_ Hq]].
    + apply app_inj_tail in E as [<- _]. by eexists.
    + apply (i_closed _ _ _ _ Hi q j). by eexists.
  - intros q c j. apply grow_step.
Qed.

Lemma grow_inv : inv pt' w' ({[x]} ∪ L) T'.
Proof.
  constructor.
  - destruct Hrep. by constructor.
  - intros f Hf. cbn in Hf. apply elem_of_app in Hf as [Hf|Hf]; [|apply list_elem_of_singleton in Hf as ->; set_solver].
    apply elem_of_union. right. by apply (i_frames _ _ _ _ Hi).
  - apply grow_tree.
Qed.

Lemma grow_entry a b c : entry T' (mem w') a b c = entry T (mem w) a b c.
Proof.
  unfold entry, place, T'. destruct (decide (k ++ [i] = [a; b])) as [E|E].
  - rewrite <- E, lookup_insert_eq, path_free, grow_new. done.
  - rewrite lookup_insert_ne by done. destruct (T !! [a; b]) as [q|] eqn:Eq; [|done].
    assert (q ∈ frames pt) as Hq by (by apply (i_vals _ _ _ _ Hi [a; b])).
    assert ((q, c) <> (p, i)) as Hne.
    { intros [= -> ->]. assert ([a; b] = k) as <- by (by apply (i_inj _ _ _ _ Hi _ _ p)). cbn in Hlen. lia. }
    rewrite (grow_mem q c Hq Hne). destruct (Sv39PageTableEntry.is_valid (mem w q c)); [|done]. cbn. unfold read. f_equal.
    apply grow_mem; done.
Qed.
End Grow.

(** Memory outside the page table, as far as clients hold it, is not written. *)
Definition keeps (pt : t) (L : gset Z) (w w' : world) : Prop :=
  forall q j, q ∈ L -> q ∉ frames pt -> mem w' q j = mem w q j.

(** Every frame that became live is a table of the page table. *)
Definition adds (pt : t) (L : gset Z) (pt' : t) (L' : gset Z) : Prop :=
  (forall f, f ∈ frames pt -> f ∈ frames pt') /\ (forall x, x ∈ L' -> x ∈ L \/ x ∈ frames pt').

Lemma adds_refl pt L : adds pt L pt L.
Proof. split; auto. Qed.
Lemma adds_trans pt L pt1 L1 pt2 L2 : adds pt L pt1 L1 -> adds pt1 L1 pt2 L2 -> adds pt L pt2 L2.
Proof. intros [H1 H2] [H3 H4]. split; [auto|]. intros x Hx. destruct (H4 x Hx) as [Hx1|Hx1]; [|by right]. destruct (H2 x Hx1); auto. Qed.

(** One step of [find_pte_create]: the next table exists or is added. *)
Lemma ensure pt w L T k p i rest : inv pt w L T -> T !! k = Some p -> (length k < 2)%nat -> 0 <= i < 512 -> rest <> [] ->
  Z.of_nat (size L) < limit - base ->
  exists p' pt' w' L' T', walk_create cfg p (i :: rest) (frames pt) w = walk_create cfg p' rest (frames pt') w' /\
    inv pt' w' L' T' /\ root_ppn pt' = root_ppn pt /\ T' !! (k ++ [i]) = Some p' /\
    (forall a b c, entry T' (mem w') a b c = entry T (mem w) a b c) /\
    L ⊆ L' /\ Z.of_nat (size L') <= Z.of_nat (size L) + 1 /\ keeps pt L w w' /\
    (forall f, f ∈ frames pt' -> f ∈ frames pt \/ f ∉ L) /\ adds pt L pt' L'.
Proof.
  intros Hi Hk Hl Hidx Hrest Hs. destruct rest as [|r0 rest]; [done|]. cbn [walk_create].
  pose proof (i_step _ _ _ _ Hi k p i Hk Hl Hidx) as Hst.
  destruct (Sv39PageTableEntry.is_valid (mem w p i)) eqn:Ev; cbn [negb].
  - exists (Sv39PageTableEntry.ppn (mem w p i)), pt, w, L, T. split_and!; try done; try lia; auto using adds_refl.
  - destruct (alloc_some w L (i_rep _ _ _ _ Hi) Hs) as (x & w1 & Ha & Hx & Hr & Hm0 & Hm1).
    change (frame_alloc cfg w) with (Ret (alloc cfg w)). rewrite Ha. cbn [mbind outcome_bind unwrap].
    assert (Sv39PageTableEntry.is_valid (Sv39PageTableEntry.new x V) = true /\
      Sv39PageTableEntry.ppn (Sv39PageTableEntry.new x V) = x) as [_ ->] by (eapply new_pte_ok; eassumption).
    exists x, (Mk (root_ppn pt) (frames pt ++ [x])), (World (fa w1) (mem_write (mem w1) p i (Sv39PageTableEntry.new x V))),
      ({[x]} ∪ L), (<[k ++ [i] := x]> T). split; [done|]. split; [by eapply grow_inv|]. split; [done|].
    split; [apply lookup_insert_eq|]. split; [intros a b c; by eapply grow_entry|]. split; [set_solver|].
    split; [rewrite size_union by set_solver; rewrite size_singleton; lia|]. split.
    + intros q j Hq Hqf. cbn. rewrite mem_write_other; [apply Hm1; by intros ->|].
      intros [= -> _]. apply Hqf. by apply (i_vals _ _ _ _ Hi k).
    + split; [|split; cbn; intros f Hf; [rewrite elem_of_app; by left|rewrite elem_of_app, list_elem_of_singleton; set_solver]].
      intros f Hf. cbn in Hf. apply elem_of_app in Hf as [Hf|Hf]; [by left|].
      apply list_elem_of_singleton in Hf as ->. by right.
Qed.

(** [find_pte_create] on a page: its leaf table exists afterwards, no entry changes. *)
Lemma create_ok pt w L T a b c : inv pt w L T -> 0 <= a < 512 -> 0 <= b < 512 ->
  Z.of_nat (size L) + 1 < limit - base ->
  exists p pt' w' L' T', walk_create cfg (root_ppn pt) [a; b; c] (frames pt) w = Ret (Some (p, c), frames pt', w') /\
    inv pt' w' L' T' /\ root_ppn pt' = root_ppn pt /\ T' !! [a; b] = Some p /\
    (forall a b c, entry T' (mem w') a b c = entry T (mem w) a b c) /\
    L ⊆ L' /\ Z.of_nat (size L') <= Z.of_nat (size L) + 2 /\ keeps pt L w w' /\
    (forall f, f ∈ frames pt' -> f ∈ frames pt \/ f ∉ L) /\ adds pt L pt' L'.
Proof.
  intros Hi Ha Hb Hs.
  destruct (ensure pt w L T [] (root_ppn pt) a [b; c]) as (p1 & pt1 & w1 & L1 & T1 & -> & Hi1 & Hr1 & H1 & He1 & Hs1 & Hz1 & Hk1 & Hf1 & Ha1);
    [done|apply (i_root _ _ _ _ Hi)|cbn; lia|done|done|lia|].
  destruct (ensure pt1 w1 L1 T1 [a] p1 b [c]) as (p2 & pt2 & w2 & L2 & T2 & -> & Hi2 & Hr2 & H2 & He2 & Hs2 & Hz2 & Hk2 & Hf2 & Ha2);
    [done|done|cbn; lia|done|done|lia|].
  exists p2, pt2, w2, L2, T2. split; [done|]. split; [done|]. split; [congruence|]. split; [done|].
  split; [intros; by rewrite He2|]. split; [by trans L1|]. split; [lia|]. split.
  - intros q j Hq Hqf. rewrite Hk2, Hk1; [done|done|done|by apply Hs1|]. intros Hq1. by apply Hf1 in Hq1 as [?|?].
  - split; [|by eapply adds_trans]. intros f Hf. apply Hf2 in Hf as [Hf|Hf]; [by apply Hf1|]. right. intros HL. by apply Hf, Hs1.
Qed.

(** ** Writing a leaf entry *)
Lemma leaf_write pt w L T a b c p e : inv pt w L T -> T !! [a; b] = Some p ->
  inv pt (write w (p, c) e) L T /\
  entry T (mem (write w (p, c) e)) a b c = (if Sv39PageTableEntry.is_valid e then Some e else None) /\
  (forall a' b' c', [a'; b'; c'] <> [a; b; c] ->
     entry T (mem (write w (p, c) e)) a' b' c' = entry T (mem w) a' b' c').
Proof.
  intros Hi Hp. split_and!.
  - destruct Hi as [H1 H2 [H3 H4 H5 H6 H7 H8]]. constructor; [by destruct H1; constructor|done|]. constructor; try done.
    intros k q i Hk Hl Hidx. cbn. rewrite mem_write_other; [by apply H8|]. intros [= -> _].
    assert (k = [a; b]) as -> by by apply (H6 _ _ p). cbn in Hl. lia.
  - unfold entry, place. rewrite Hp. cbn. rewrite mem_write_same. destruct (Sv39PageTableEntry.is_valid e); [|done].
    cbn. unfold read. cbn. by rewrite mem_write_same.
  - intros a' b' c' Hne. unfold entry, place. destruct (T !! [a'; b']) as [q|] eqn:E; [|done].
    assert ((q, c') <> (p, c)) as Hq.
    { intros [= -> ->]. assert ([a'; b'] = [a; b]) as [= -> ->] by by apply (i_inj _ _ _ _ Hi _ _ p). done. }
    cbn. rewrite (mem_write_other _ _ _ _ q c' Hq). destruct (Sv39PageTableEntry.is_valid (mem w q c')); [|done].
    cbn. unfold read. cbn. by rewrite (mem_write_other _ _ _ _ q c' Hq).
Qed.

(** ** The abstract page table *)

Inductive update : Type :=
| URevokeRead | URevokeWrite | URevokeExecute | UClearAccess | UClearDirty | USetPpn (ppn : Z) | USetFlags (perm : Z).
Definition apply_update (u : update) : Z -> Z :=
  match u with
  | URevokeRead => Sv39PageTableEntry.revoke_read
  | URevokeWrite => Sv39PageTableEntry.revoke_write
  | URevokeExecute => Sv39PageTableEntry.revoke_execute
  | UClearAccess => Sv39PageTableEntry.clear_access
  | UClearDirty => Sv39PageTableEntry.clear_dirty
  | USetPpn ppn => fun e => Sv39PageTableEntry.set_ppn e ppn
  | USetFlags perm => fun e => Sv39PageTableEntry.set_permission e perm
  end.

Inductive op : Type := OpMap (vpn ppn perm : Z) | OpUnmap (vpn : Z) | OpUpdate (u : update) (vpn : Z).

(** [MapPermission] has the bits R, W, X and U. *)
Definition perm_ok (perm : Z) : Prop := Z.land perm 0x1e = perm.
(** Page numbers of canonical addresses: bits 38 to 63 of the address are equal. *)
Definition vpn_ok (vpn : Z) : Prop := 0 <= vpn < 2 ^ 26 \/ 2 ^ 52 - 2 ^ 26 <= vpn < 2 ^ 52.
Definition op_ok (o : op) : Prop :=
  match o with
  | OpMap vpn ppn perm => vpn_ok vpn /\ 0 <= ppn < 2 ^ 44 /\ perm_ok perm
  | OpUnmap vpn => vpn_ok vpn
  | OpUpdate u vpn => vpn_ok vpn /\
      match u with USetPpn ppn => 0 <= ppn < 2 ^ 44 | USetFlags perm => perm_ok perm | _ => True end
  end.

Definition step (pt : t) (w : world) (o : op) : outcome (bool * t * world) :=
  match o with
  | OpMap vpn ppn perm => '(pt', w') ← map cfg pt w vpn ppn perm; Ret (true, pt', w')
  | OpUnmap vpn => w' ← unmap pt w vpn; Ret (true, pt, w')
  | OpUpdate u vpn => let '(ok, w') := update_pte (apply_update u) pt w vpn in Ret (ok, pt, w')
  end.

Definition leaf_entry (ppn perm : Z) : Z := Sv39PageTableEntry.new ppn (Z.lor (Z.lor (Z.lor perm V) A) D).
Definition spec_step (M : gmap Z Z) (o : op) : outcome (bool * gmap Z Z) :=
  match o with
  | OpMap vpn ppn perm =>
      match M !! vpn with Some _ => Panic | None => Ret (true, <[vpn := leaf_entry ppn perm]> M) end
  | OpUnmap vpn => match M !! vpn with Some _ => Ret (true, delete vpn M) | None => Panic end
  | OpUpdate u vpn =>
      Ret (match M !! vpn with Some e => (true, <[vpn := apply_update u e]> M) | None => (false, M) end)
  end.

Fixpoint run (pt : t) (w : world) (ops : list op) : outcome (list bool * t * world) :=
  match ops with
  | [] => Ret ([], pt, w)
  | o :: r => '(b, pt1, w1) ← step pt w o; '(bs, pt2, w2) ← run pt1 w1 r; Ret (b :: bs, pt2, w2)
  end.
Fixpoint spec_run (M : gmap Z Z) (ops : list op) : outcome (list bool * gmap Z Z) :=
  match ops with
  | [] => Ret ([], M)
  | o :: r => '(b, M1) ← spec_step M o; '(bs, M2) ← spec_run M1 r; Ret (b :: bs, M2)
  end.

(** ** Refinement *)

(** Bit facts about permissions. *)
Lemma leaf_flags_ok perm : perm_ok perm ->
  0 <= Z.lor (Z.lor (Z.lor perm V) A) D < 1024 /\ Z.testbit (Z.lor (Z.lor (Z.lor perm V) A) D) 0 = true.
Proof.
  intros Hp. assert (0 <= perm < 32) as Hr.
  { unfold perm_ok in Hp. rewrite <- Hp. split; [apply Z.land_nonneg; right; lia|].
    assert (in_range 5 (Z.land perm 30)) as [_ ?]; [|lia]. apply in_range_testbit; [lia|].
    split; [apply Z.land_nonneg; right; lia|]. intros i Hi.
    rewrite Z.land_spec, (testbit_high 5 30) by (unfold in_range; lia). apply andb_false_r. }
  assert (in_range 10 (Z.lor (Z.lor (Z.lor perm V) A) D)) as Hin.
  { apply in_range_testbit; [lia|]. split; [rewrite !Z.lor_nonneg; unfold V, A, D; lia|]. intros i Hi.
    unfold V, A, D. rewrite !Z.lor_spec, (testbit_high 5 perm), (testbit_high 10 1), (testbit_high 10 64), (testbit_high 10 128)
      by (unfold in_range; lia). done. }
  split; [unfold in_range in Hin; lia|]. rewrite !Z.lor_spec. by rewrite orb_true_r.
Qed.

Lemma leaf_entry_ok ppn perm : 0 <= ppn < 2 ^ 44 -> perm_ok perm ->
  Sv39PageTableEntry.is_valid (leaf_entry ppn perm) = true /\ Sv39PageTableEntry.ppn (leaf_entry ppn perm) = ppn.
Proof.
  intros Hp Hf%leaf_flags_ok. destruct Hf as [Hf H0]. unfold leaf_entry.
  rewrite Sv39PageTableEntry.valid_new, Sv39PageTableEntry.ppn_new by done. done.
Qed.

Lemma update_valid u e : match u with USetPpn ppn => 0 <= ppn < 2 ^ 44 | USetFlags perm => perm_ok perm | _ => True end ->
  Sv39PageTableEntry.is_valid (apply_update u e) = Sv39PageTableEntry.is_valid e.
Proof.
  destruct u as [| | | | |ppn|perm]; intros H; cbn [apply_update].
  - apply (Sv39PageTableEntry.pt_clear_bit_ok e 1); lia.
  - apply (Sv39PageTableEntry.pt_clear_bit_ok e 2); lia.
  - apply (Sv39PageTableEntry.pt_clear_bit_ok e 3); lia.
  - apply (Sv39PageTableEntry.pt_clear_bit_ok e 6); lia.
  - apply (Sv39PageTableEntry.pt_clear_bit_ok e 7); lia.
  - by apply Sv39PageTableEntry.set_ppn_ok.
  - by apply Sv39PageTableEntry.set_permission_ok.
Qed.

(** The index path determines a canonical page number. *)
Lemma indexes_canonical v1 v2 : vpn_ok v1 -> vpn_ok v2 -> indexes 3 v1 = indexes 3 v2 -> v1 = v2.
Proof.
  intros H1 H2 E. rewrite !(indexes3_low v1), !(indexes3_low v2) in E.
  apply indexes3_inj in E; [|apply Z.mod_pos_bound; lia..]. unfold vpn_ok in *.
  assert (forall v, vpn_ok v -> v mod 2 ^ 27 = v \/ v mod 2 ^ 27 = v - (2 ^ 52 - 2 ^ 27)) as Hm.
  { intros v [Hv|Hv]; [left; apply Z.mod_small; lia|right].
    replace v with ((v - (2 ^ 52 - 2 ^ 27)) + (2 ^ 25 - 1) * 2 ^ 27) at 1 by lia. rewrite Z_mod_plus_full. apply Z.mod_small. lia. }
  destruct (Hm v1 H1), (Hm v2 H2); lia.
Qed.

(** The entry of a page number. *)
Definition entry_of (T : gmap (list Z) Z) (m : pmem) (vpn : Z) : option Z :=
  match indexes 3 vpn with [a; b; c] => entry T m a b c | _ => None end.

(** [L0]: the frames that others held when the page table was made. *)
Record rep (L0 : gset Z) (pt : t) (w : world) (L : gset Z) (T : gmap (list Z) Z) (M : gmap Z Z) : Prop := {
  p_inv : inv pt w L T;
  p_map : forall vpn, vpn_ok vpn -> entry_of T (mem w) vpn = M !! vpn;
  p_sub : L0 ⊆ L;
  p_own : forall f, f ∈ frames pt -> f ∉ L0;
}.

Lemma find_pte_entry pt m T vpn : tree pt m T ->
  match find_pte pt m vpn with
  | Some pl => entry_of T m vpn = Some (read m pl) /\ Sv39PageTableEntry.is_valid (read m pl) = true /\
      exists a b c, indexes 3 vpn = [a; b; c] /\ T !! [a; b] = Some (fst pl) /\ snd pl = c
  | None => entry_of T m vpn = None
  end.
Proof.
  intros Hi. unfold find_pte, entry_of. pose proof (indexes3_range vpn) as Hf. rewrite indexes3 in *.
  set (a := Z.land _ 511) in *. set (b := Z.land (Z.shiftr vpn 9) 511) in *. set (c := Z.land vpn 511) in *.
  apply Forall_cons in Hf as [Ha Hf]. apply Forall_cons in Hf as [Hb _]. rewrite (walk_place pt m T) by done.
  unfold entry, place. destruct (T !! [a; b]) as [p|] eqn:E; [|done].
  destruct (Sv39PageTableEntry.is_valid (m p c)) eqn:Ev; [|done]. cbn. split_and!; try done. by exists a, b, c.
Qed.

(** Writing the entry of a page changes the abstract map at that page only. *)
Lemma write_rep L0 pt w L T M vpn a b c p e : rep L0 pt w L T M -> vpn_ok vpn ->
  indexes 3 vpn = [a; b; c] -> T !! [a; b] = Some p ->
  rep L0 pt (write w (p, c) e) L T (if Sv39PageTableEntry.is_valid e then <[vpn := e]> M else delete vpn M) /\
  (forall q j, q ∈ L0 -> mem (write w (p, c) e) q j = mem w q j).
Proof.
  intros [Hi Hm Hs Ho] Hv Hidx Hp. destruct (leaf_write pt w L T a b c p e Hi Hp) as (Hi' & He & Hne).
  split; [constructor; try done|].
  - intros v Hvok. destruct (decide (v = vpn)) as [->|Hd].
    + unfold entry_of. rewrite Hidx, He. destruct (Sv39PageTableEntry.is_valid e);
        [by rewrite lookup_insert_eq|by rewrite lookup_delete_eq].
    + replace ((if Sv39PageTableEntry.is_valid e then <[vpn := e]> M else delete vpn M) !! v) with (M !! v)
        by (destruct (Sv39PageTableEntry.is_valid e); [by rewrite lookup_insert_ne|by rewrite lookup_delete_ne]).
      rewrite <- Hm by done. unfold entry_of. pose proof (indexes_canonical v vpn Hvok Hv) as Hinj. rewrite Hidx in Hinj.
      rewrite indexes3 in *. apply Hne. intros E. by apply Hd, Hinj.
  - intros q j Hq. cbn. apply mem_write_other. intros [= -> _].
    apply (Ho p); [by apply (i_vals _ _ _ _ Hi [a; b])|done].
Qed.

Definition step_post (L0 : gset Z) (pt : t) (w : world) (L : gset Z) (M : gmap Z Z) (o : op) : Prop :=
  match spec_step M o with
  | Panic => step pt w o = Panic
  | Ret (ok, M') => exists pt' w' L' T', step pt w o = Ret (ok, pt', w') /\ rep L0 pt' w' L' T' M' /\
      Z.of_nat (size L') <= Z.of_nat (size L) + 2 /\ (forall q j, q ∈ L0 -> mem w' q j = mem w q j) /\
      adds pt L pt' L'
  end.

Lemma map_ok L0 pt w L T M vpn ppn perm : rep L0 pt w L T M -> op_ok (OpMap vpn ppn perm) ->
  Z.of_nat (size L) + 1 < limit - base -> step_post L0 pt w L M (OpMap vpn ppn perm).
Proof.
  intros Hrep (Hv & Hp & Hf) Hs. unfold step_post. cbn [spec_step step].
  pose proof (indexes3_range vpn) as Hr. pose proof (p_map _ _ _ _ _ _ Hrep vpn Hv) as Hent.
  unfold map, find_pte_create. destruct (indexes 3 vpn) as [|a [|b [|c [|]]]] eqn:Ei;
    try (rewrite indexes3 in Ei; done).
  apply Forall_cons in Hr as [Ha Hr]. apply Forall_cons in Hr as [Hb _].
  destruct (create_ok pt w L T a b c (p_inv _ _ _ _ _ _ Hrep) Ha Hb Hs)
    as (p & pt' & w' & L' & T' & -> & Hi' & Hroot & HT & Hee & HL & Hsz & Hk & Hfr & Had).
  cbn [mbind outcome_bind unwrap]. rewrite <- Hroot.
  assert (rep L0 pt' w' L' T' M) as Hrep'.
  { destruct Hrep as [Hi Hm Hsub Ho]. constructor; [done| |by trans L|].
    - intros v Hvok. rewrite <- Hm by done. unfold entry_of. rewrite indexes3. apply Hee.
    - intros f Hfin. apply Hfr in Hfin as [Hfin|Hfin]; [by apply Ho|]. intros H0. by apply Hfin, Hsub. }
  assert (forall q j, q ∈ L0 -> mem w' q j = mem w q j) as Hmem.
  { intros q j Hq. apply Hk; [by apply (p_sub _ _ _ _ _ _ Hrep)|]. intros Hqf. by apply (p_own _ _ _ _ _ _ Hrep q). }
  assert (entry T' (mem w') a b c = M !! vpn) as Hent'.
  { rewrite <- Hent. unfold entry_of. rewrite Ei. apply Hee. }
  unfold entry, place in Hent'. rewrite HT in Hent'. unfold read in *. cbn [fst snd] in *.
  destruct (Sv39PageTableEntry.is_valid (mem w' p c)) eqn:Ev; cbn [negb rust_assert mbind outcome_bind].
  - cbn in Hent'. by rewrite <- Hent'.
  - cbn in Hent'. rewrite <- Hent'. destruct (leaf_entry_ok ppn perm Hp Hf) as [Hval _].
    destruct (write_rep L0 pt' w' L' T' M vpn a b c p (leaf_entry ppn perm) Hrep' Hv Ei HT) as [Hw Hm].
    rewrite Hval in Hw. destruct pt' as [r fs]. cbn in Hroot |- *. do 4 eexists. split; [done|]. split; [exact Hw|]. split; [done|].
    split; [intros q j Hq; rewrite Hm by done; by apply Hmem|exact Had].
Qed.

Lemma unmap_ok L0 pt w L T M vpn : rep L0 pt w L T M -> op_ok (OpUnmap vpn) -> step_post L0 pt w L M (OpUnmap vpn).
Proof.
  intros Hrep Hv. unfold step_post. cbn [spec_step step].
  pose proof (find_pte_entry pt (mem w) T vpn (i_tree _ _ _ _ (p_inv _ _ _ _ _ _ Hrep))) as Hf.
  rewrite (p_map _ _ _ _ _ _ Hrep vpn Hv) in Hf. unfold unmap.
  destruct (find_pte pt (mem w) vpn) as [[p c]|]; [|by rewrite Hf].
  destruct Hf as (-> & Hval & a & b & c' & Hidx & HT & Hc). cbn in Hc, HT. subst c'. cbn [unwrap mbind outcome_bind].
  rewrite Hval. cbn [rust_assert mbind outcome_bind].
  destruct (write_rep L0 pt w L T M vpn a b c p Sv39PageTableEntry.empty Hrep Hv Hidx HT) as [Hw Hm].
  do 4 eexists. split; [done|]. split; [exact Hw|]. split; [lia|]. split; [done|apply adds_refl].
Qed.

Lemma update_ok L0 pt w L T M u vpn : rep L0 pt w L T M -> op_ok (OpUpdate u vpn) ->
  step_post L0 pt w L M (OpUpdate u vpn).
Proof.
  intros Hrep [Hv Hu]. unfold step_post. cbn [spec_step step].
  pose proof (find_pte_entry pt (mem w) T vpn (i_tree _ _ _ _ (p_inv _ _ _ _ _ _ Hrep))) as Hf.
  rewrite (p_map _ _ _ _ _ _ Hrep vpn Hv) in Hf. unfold update_pte.
  destruct (find_pte pt (mem w) vpn) as [[p c]|]; [|rewrite Hf; exists pt, w, L, T; split; [done|]; split; [done|]; split; [lia|]; split; [done|apply adds_refl]].
  destruct Hf as (-> & Hval & a & b & c' & Hidx & HT & Hc). cbn in Hc, HT. subst c'.
  destruct (write_rep L0 pt w L T M vpn a b c p (apply_update u (read (mem w) (p, c))) Hrep Hv Hidx HT) as [Hw Hm].
  rewrite update_valid, Hval in Hw by done. do 4 eexists. split; [done|]. split; [exact Hw|]. split; [lia|]. split; [done|apply adds_refl].
Qed.

Lemma pt_step_ok L0 pt w L T M o : rep L0 pt w L T M -> op_ok o -> Z.of_nat (size L) + 1 < limit - base ->
  step_post L0 pt w L M o.
Proof. destruct o; intros; [by eapply map_ok|by eapply unmap_ok|by eapply update_ok]. Qed.

Lemma pt_run_ok L0 ops : forall pt w L T M, rep L0 pt w L T M -> Forall op_ok ops ->
  Z.of_nat (size L) + 2 * Z.of_nat (length ops) <= limit - base ->
  match spec_run M ops with
  | Panic => run pt w ops = Panic
  | Ret (bs, M') => exists pt' w' L' T', run pt w ops = Ret (bs, pt', w') /\ rep L0 pt' w' L' T' M' /\
      (forall q j, q ∈ L0 -> mem w' q j = mem w q j)
  end.
Proof.
  induction ops as [|o ops IH]; intros pt w L T M Hrep Hok Hs; cbn [spec_run run].
  { exists pt, w, L, T. done. }
  apply Forall_cons in Hok as [Ho Hok]. cbn [length] in Hs.
  pose proof (pt_step_ok L0 pt w L T M o Hrep Ho ltac:(lia)) as Hst. unfold step_post in Hst.
  destruct (spec_step M o) as [[ok M1]|]; [|by rewrite Hst]. destruct Hst as (pt1 & w1 & L1 & T1 & -> & Hrep1 & Hsz & Hm1 & _).
  cbn [mbind outcome_bind]. specialize (IH pt1 w1 L1 T1 M1 Hrep1 Hok ltac:(lia)).
  destruct (spec_run M1 ops) as [[bs M2]|]; [|by rewrite IH]. destruct IH as (pt2 & w2 & L2 & T2 & -> & Hrep2 & Hm2).
  exists pt2, w2, L2, T2. split_and!; try done. intros q j Hq. rewrite Hm2 by done. by apply Hm1.
Qed.

Lemma new_ok w L : fa_rep base limit w L -> Z.of_nat (size L) < limit - base ->
  exists pt w' T, new cfg w = Ret (pt, w') /\ rep L pt w' ({[root_ppn pt]} ∪ L) T ∅ /\
    root_ppn pt ∉ L /\ (forall q j, q ∈ L -> mem w' q j = mem w q j).
Proof.
  intros Hr Hs. destruct (alloc_some w L Hr Hs) as (x & w1 & Ha & Hx & Hr1 & Hm0 & Hm1).
  unfold new. change (frame_alloc cfg w) with (Ret (alloc cfg w)). rewrite Ha. cbn [mbind outcome_bind unwrap].
  exists (Mk x [x]), w1, {[[] := x]}. split; [done|]. cbn [root_ppn]. split; [|split; [done|]].
  - constructor; [constructor; [done| |constructor]|..]; try done; cbn [frames root_ppn].
    + intros f Hf. apply list_elem_of_singleton in Hf as ->. set_solver.
    + apply NoDup_singleton.
    + intros k p [<- <-]%lookup_singleton_Some. split; [left|cbn; lia].
    + intros k1 k2 p [<- _]%lookup_singleton_Some [<- _]%lookup_singleton_Some. done.
    + intros k i [q [E _]%lookup_singleton_Some]. by destruct k.
    + intros k p i [<- <-]%lookup_singleton_Some _ _. rewrite Hm0. by rewrite lookup_singleton_ne.
    + intros vpn _. unfold entry_of. rewrite indexes3. unfold entry, place. by rewrite lookup_singleton_ne.
    + set_solver.
    + intros f Hf. apply list_elem_of_singleton in Hf as ->. done.
  - intros q j Hq. apply Hm1. by intros ->.
Qed.

Lemma pt_rep_lookup L0 pt w L T M vpn : rep L0 pt w L T M -> vpn_ok vpn ->
  translate pt (mem w) vpn = Sv39PageTableEntry.ppn <$> M !! vpn /\
  is_mapped pt (mem w) vpn = match M !! vpn with Some _ => true | None => false end /\
  (forall q, pte_query q pt (mem w) vpn = q <$> M !! vpn).
Proof.
  intros Hrep Hv. pose proof (find_pte_entry pt (mem w) T vpn (i_tree _ _ _ _ (p_inv _ _ _ _ _ _ Hrep))) as Hf.
  rewrite (p_map _ _ _ _ _ _ Hrep vpn Hv) in Hf. unfold translate, is_mapped, pte_query.
  destruct (find_pte pt (mem w) vpn) as [pl|]; [|by rewrite Hf].
  destruct Hf as (-> & Hval & _). by rewrite Hval.
Qed.

(** ** The interface of the memory sets *)

(** The frame and the permissions an entry stands for. *)
Definition decode (e : Z) : Z * Z := (Sv39PageTableEntry.ppn e, Z.land e 0x1e).
Definition ppn_ok (ppn : Z) : Prop := 0 <= ppn < 2 ^ 44.

Lemma perm_mask_testbit i : 0 <= i -> Z.testbit 0x1e i = (1 <=? i) && (i <? 5).
Proof.
  intros Hi. destruct (Z.ltb_spec i 5).
  - assert (i = 0 \/ i = 1 \/ i = 2 \/ i = 3 \/ i = 4) as [->|[->|[->|[->| ->]]]] by lia; reflexivity.
  - rewrite (testbit_high 5) by (unfold in_range; lia). by rewrite andb_false_r.
Qed.

Lemma perm_testbit perm i : perm_ok perm -> 0 <= i -> (1 <=? i) && (i <? 5) = false -> Z.testbit perm i = false.
Proof. intros Hp Hi Hb. unfold perm_ok in Hp. rewrite <- Hp, Z.land_spec, perm_mask_testbit, Hb by done. apply andb_false_r. Qed.

Lemma decode_leaf ppn perm : ppn_ok ppn -> perm_ok perm -> decode (leaf_entry ppn perm) = (ppn, perm).
Proof.
  intros Hp Hf. unfold decode. rewrite (proj2 (leaf_entry_ok ppn perm Hp Hf)). f_equal.
  destruct (leaf_flags_ok perm Hf) as [Hl _]. unfold leaf_entry. apply Z.bits_inj'. intros i Hi.
  rewrite Z.land_spec, perm_mask_testbit, Sv39PageTableEntry.new_testbit by (done || lia).
  destruct ((1 <=? i) && (i <? 5)) eqn:E; [|by rewrite andb_false_r, perm_testbit].
  rewrite andb_true_r. apply andb_true_iff in E as [E1%Z.leb_le E2%Z.ltb_lt].
  destruct (Z.ltb_spec i 10); [|lia]. unfold V, A, D. rewrite !Z.lor_spec.
  assert (i = 1 \/ i = 2 \/ i = 3 \/ i = 4) as [->|[->|[->| ->]]] by lia; cbn; by rewrite !orb_false_r.
Qed.

Lemma decode_flags e perm : perm_ok perm -> decode (Sv39PageTableEntry.set_permission e perm) = ((decode e).1, perm).
Proof.
  intros Hf. unfold decode. rewrite (proj2 (Sv39PageTableEntry.set_permission_ok e perm Hf)). f_equal. cbn.
  unfold Sv39PageTableEntry.set_permission. apply Z.bits_inj'. intros i Hi.
  rewrite Z.land_spec, perm_mask_testbit, Z.lor_spec, Z.land_spec by done.
  destruct ((1 <=? i) && (i <? 5)) eqn:E; [|by rewrite andb_false_r, perm_testbit].
  apply andb_true_iff in E as [E1%Z.leb_le E2%Z.ltb_lt].
  assert (i = 1 \/ i = 2 \/ i = 3 \/ i = 4) as [->|[->|[->| ->]]] by lia; cbn; by rewrite andb_false_r, andb_true_r.
Qed.

Lemma decode_block e : decode (Sv39PageTableEntry.revoke_write e) =
  ((decode e).1, MapPermission.difference (decode e).2 MapPermission.W).
Proof.
  unfold decode. f_equal; [apply (Sv39PageTableEntry.pt_clear_bit_ok e 2); lia|]. cbn.
  unfold Sv39PageTableEntry.revoke_write, MapPermission.difference, MapPermission.W, W. apply Z.bits_inj'. intros i Hi.
  rewrite !Z.land_spec, perm_mask_testbit by done.
  destruct ((1 <=? i) && (i <? 5)) eqn:E; [|by rewrite !andb_false_r].
  apply andb_true_iff in E as [E1%Z.leb_le E2%Z.ltb_lt]. rewrite !testbit_not_bits by lia. by rewrite !andb_true_r.
Qed.

Lemma decode_writable e : Sv39PageTableEntry.writable e = MapPermission.contains (decode e).2 MapPermission.W.
Proof.
  unfold Sv39PageTableEntry.writable, MapPermission.contains, MapPermission.W. change PTEFlags.W with (Z.shiftl 1 2).
  rewrite Sv39PageTableEntry.has_testbit by lia. unfold decode. cbn [snd]. change 4 with (Z.shiftl 1 2).
  rewrite <- Z.land_assoc. change (Z.land 0x1e (Z.shiftl 1 2)) with (Z.shiftl 1 2).
  destruct (Z.testbit e 2) eqn:E; symmetry; [apply Z.eqb_eq|apply Z.eqb_neq].
  - apply Z.bits_inj'. intros i Hi. rewrite Z.land_spec, !testbit_one_shift by lia.
    destruct (Z.eqb_spec i 2) as [->|]; [by rewrite E|apply andb_false_r].
  - intros H. apply (f_equal (fun z => Z.testbit z 2)) in H. rewrite Z.land_spec, E in H. done.
Qed.

Definition pt_repr (pt : t) (m : pmem) (M : gmap Z (Z * Z)) : Prop :=
  exists T raw, tree pt m T /\ (forall vpn, vpn_ok vpn -> entry_of T m vpn = raw !! vpn) /\ M = decode <$> raw.

(** A page table in the middle of a running system: [L0] is what others hold. *)
Lemma repr_rep pt w L M : pt_repr pt (mem w) M -> fa_rep base limit w L -> (forall f, f ∈ frames pt -> f ∈ L) ->
  exists T raw, rep (L ∖ list_to_set (frames pt)) pt w L T raw /\ M = decode <$> raw.
Proof.
  intros (T & raw & Ht & He & ->) Hr Hf. exists T, raw. split; [|done]. constructor; [by constructor|done|set_solver|].
  intros f Hin. rewrite elem_of_difference, elem_of_list_to_set. naive_solver.
Qed.

Lemma entry_of_local pt m m' T vpn : tree pt m T -> (forall q j, q ∈ frames pt -> m' q j = m q j) ->
  entry_of T m' vpn = entry_of T m vpn.
Proof.
  intros Ht Hm. unfold entry_of. rewrite indexes3. unfold entry, place. destruct (T !! _) as [p|] eqn:E; [|done].
  apply t_vals with (pt := pt) (m := m) in E as [Hp _]; [|done]. rewrite Hm by done.
  destruct (Sv39PageTableEntry.is_valid _); [|done]. cbn. unfold read. cbn. by rewrite Hm.
Qed.

Lemma repr_local pt m m' M : pt_repr pt m M -> (forall q j, q ∈ frames pt -> m' q j = m q j) -> pt_repr pt m' M.
Proof.
  intros (T & raw & Ht & He & ->) Hm. exists T, raw. split_and!; [|intros vpn Hv; by rewrite (entry_of_local pt m), He|done].
  destruct Ht as [H1 H2 H3 H4 H5 H6]. constructor; try done. intros k p i Hk Hl Hi. destruct (H3 k p Hk) as [Hp _].
  rewrite Hm by done. by apply H6.
Qed.

(** The three operations, in the form the interface states. *)
Lemma repr_step pt w L M o : pt_repr pt (mem w) M -> fa_rep base limit w L -> (forall f, f ∈ frames pt -> f ∈ L) -> op_ok o ->
  Z.of_nat (size L) + 1 < limit - base \/ match o with OpMap _ _ _ => False | _ => True end ->
  exists raw, M = decode <$> raw /\
  match spec_step raw o with
  | Panic => step pt w o = Panic
  | Ret (ok, raw') => exists pt' w', step pt w o = Ret (ok, pt', w') /\ exists L', fa_rep base limit w' L' /\ L ⊆ L' /\
      (forall x, x ∈ L' -> x ∈ L \/ x ∈ frames pt') /\ Z.of_nat (size L') <= Z.of_nat (size L) + 2 /\
      (forall x, x ∈ frames pt -> x ∈ frames pt') /\
      (forall x, x ∈ frames pt' -> x ∈ L' /\ (x ∈ frames pt \/ x ∉ L)) /\
      pt_repr pt' (mem w') (decode <$> raw') /\ (forall q j, q ∈ L -> q ∉ frames pt -> mem w' q j = mem w q j)
  end.
Proof.
  intros HM Hr Hf Ho Hs. destruct (repr_rep pt w L M HM Hr Hf) as (T & raw & Hrep & ->). exists raw. split; [done|].
  assert (step_post (L ∖ list_to_set (frames pt)) pt w L raw o) as Hp.
  { destruct o; [destruct Hs as [Hs|[]]; by eapply map_ok|by eapply unmap_ok|by eapply update_ok]. }
  unfold step_post in Hp. destruct (spec_step raw o) as [[ok raw']|]; [|done].
  destruct Hp as (pt' & w' & L' & T' & -> & [Hi Hm Hsub Hown] & Hsz & Hk & Ha1 & Ha2). exists pt', w'. split; [done|]. exists L'.
  destruct Hi as [Hr' Hf' Ht]. split; [done|]. assert (L ⊆ L') as HL.
  { intros x Hx. destruct (decide (x ∈ frames pt)) as [Hin|Hin]; [by apply Hf', Ha1|]. apply Hsub.
    rewrite elem_of_difference, elem_of_list_to_set. done. }
  split_and!; try done.
  - intros x Hx. split; [by apply Hf'|]. specialize (Hown x Hx). rewrite elem_of_difference, elem_of_list_to_set in Hown.
    destruct (decide (x ∈ frames pt)); [by left|]. right. tauto.
  - by exists T', raw'.
  - intros q j Hq Hqf. apply Hk. rewrite elem_of_difference, elem_of_list_to_set. done.
Qed.

#[global] Instance sv39_page_table : PageTable t := {
  pt_new := new cfg;
  pt_map := map cfg;
  pt_map_identical := map cfg;
  pt_unmap := unmap;
  pt_is_mapped := is_mapped;
  pt_translate := translate;
  pt_translate_va := translate_va;
  pt_set_pte_flags := set_pte_flags;
  pt_block_and_ret_mut := block_and_ret_mut;
  pt_writable := writable;
  pt_tables := frames;
}.

Lemma repr_query pt m M vpn : pt_repr pt m M -> vpn_ok vpn ->
  is_mapped pt m vpn = bool_decide (is_Some (M !! vpn)) /\ translate pt m vpn = fst <$> M !! vpn /\
  writable pt m vpn = (fun e => MapPermission.contains e.2 MapPermission.W) <$> M !! vpn.
Proof.
  intros (T & raw & Ht & He & ->) Hv. pose proof (find_pte_entry pt m T vpn Ht) as Hf. rewrite He in Hf by done.
  rewrite lookup_fmap. unfold is_mapped, translate, writable, pte_query.
  destruct (find_pte pt m vpn) as [pl|]; [|rewrite Hf; cbn; split_and!; try done].
  destruct Hf as (-> & Hval & _). cbn. by rewrite Hval, decode_writable.
Qed.

Lemma repr_translate_va pt m M va : pt_repr pt m M -> vpn_ok (addr_floor va) ->
  translate_va pt m va = (fun e => pn_offset e.1 (page_offset va)) <$> M !! addr_floor va.
Proof.
  intros HM Hv. destruct (repr_query pt m M _ HM Hv) as (_ & Ht & _). revert Ht. unfold translate, translate_va, pn_offset, addr_from_pn.
  destruct (find_pte pt m (addr_floor va)) as [pl|]; destruct (M !! addr_floor va) as [e|]; cbn; congruence.
Qed.

(** A change in place of the entry of a page. *)
Lemma repr_update pt w L M f g vpn : pt_repr pt (mem w) M -> fa_rep base limit w L -> (forall f, f ∈ frames pt -> f ∈ L) ->
  vpn_ok vpn -> (forall e, Sv39PageTableEntry.is_valid (f e) = Sv39PageTableEntry.is_valid e) -> (forall e, decode (f e) = g (decode e)) ->
  exists w', update_pte f pt w vpn = (bool_decide (is_Some (M !! vpn)), w') /\ pt_changed pt_repr pt w w' (alter g vpn M).
Proof.
  intros HM Hr Hf Hv Hval Hg. destruct (repr_rep pt w L M HM Hr Hf) as (T & raw & Hrep & ->).
  pose proof (find_pte_entry pt (mem w) T vpn (i_tree _ _ _ _ (p_inv _ _ _ _ _ _ Hrep))) as Hfe.
  rewrite (p_map _ _ _ _ _ _ Hrep vpn Hv) in Hfe. rewrite lookup_fmap. unfold update_pte.
  destruct (find_pte pt (mem w) vpn) as [[p c]|].
  - destruct Hfe as (E & Hve & a & b & c' & Hidx & HT & Hc). cbn in Hc, HT. subst c'. rewrite E. cbn. eexists. split; [done|].
    destruct (write_rep _ pt w L T raw vpn a b c p (f (read (mem w) (p, c))) Hrep Hv Hidx HT) as [[Hi Hm _ _] _].
    rewrite Hval, Hve in Hm. split_and!; [done| |].
    + exists T, (<[vpn := f (read (mem w) (p, c))]> raw). split_and!; [apply Hi|done|].
      apply map_eq. intros v. destruct (decide (v = vpn)) as [->|Hne].
      * rewrite lookup_alter_eq, !lookup_fmap, E, lookup_insert_eq. cbn. by rewrite Hg.
      * rewrite lookup_alter_ne by done. by rewrite !lookup_fmap, lookup_insert_ne.
    + intros q j Hq. cbn. apply mem_write_other. intros [= -> _]. apply Hq. by apply (i_vals _ _ _ _ Hi [a; b]).
  - rewrite Hfe. cbn. eexists. split; [done|].
    split_and!; [done| |done]. replace (alter g vpn (decode <$> raw)) with (decode <$> raw); [done|].
    apply map_eq. intros v. destruct (decide (v = vpn)) as [->|Hne].
    + by rewrite lookup_alter_eq, !lookup_fmap, Hfe.
    + by rewrite lookup_alter_ne.
Qed.

Lemma repr_unmap pt w L M vpn e : pt_at pt_repr base limit pt w L M -> vpn_ok vpn -> M !! vpn = Some e ->
  exists w', unmap pt w vpn = Ret w' /\ pt_changed pt_repr pt w w' (delete vpn M).
Proof.
  intros (HM & Hr & Hf) Hv He. destruct (repr_rep pt w L M HM Hr Hf) as (T & raw & Hrep & ->).
  pose proof (find_pte_entry pt (mem w) T vpn (i_tree _ _ _ _ (p_inv _ _ _ _ _ _ Hrep))) as Hfe.
  rewrite (p_map _ _ _ _ _ _ Hrep vpn Hv) in Hfe. rewrite lookup_fmap in He. unfold unmap.
  destruct (find_pte pt (mem w) vpn) as [[p c]|]; [|by rewrite Hfe in He].
  destruct Hfe as (E & Hve & a & b & c' & Hidx & HT & Hc). cbn in Hc, HT. subst c'. cbn. rewrite Hve. cbn.
  eexists. split; [done|].
  destruct (write_rep _ pt w L T raw vpn a b c p Sv39PageTableEntry.empty Hrep Hv Hidx HT) as [[Hi Hm _ _] _]. cbn in Hm.
  split_and!; [done| |].
  - exists T, (delete vpn raw). split_and!; [apply Hi|done|]. by rewrite fmap_delete.
  - intros q j Hq. cbn. apply mem_write_other. intros [= -> _]. apply Hq. by apply (i_vals _ _ _ _ Hi [a; b]).
Qed.

Lemma block_update pt w vpn : block_and_ret_mut pt w vpn =
  (translate pt (mem w) vpn, snd (update_pte Sv39PageTableEntry.revoke_write pt w vpn)).
Proof.
  unfold block_and_ret_mut, translate, update_pte. destruct (find_pte pt (mem w) vpn) as [pl|]; [|done]. cbn.
  do 2 f_equal. apply (Sv39PageTableEntry.pt_clear_bit_ok (read (mem w) pl) 2). lia.
Qed.

#[global] Instance sv39_page_table_ok : PageTableOk t base limit vpn_ok ppn_ok pt_repr.
Proof using Hzero Hbase Hlimit.
  constructor.
  - apply repr_local.
  - apply repr_query.
  - apply repr_translate_va.
  - intros w L Hr Hs. destruct (new_ok w L Hr Hs) as (pt & w' & T & Hn & [[Hr' Hf Ht] Hm Hsub Hown] & Hx & Hk).
    exists pt, w'. split; [done|]. exists ({[root_ppn pt]} ∪ L). split_and!; try done.
    + intros x Hxin. apply elem_of_union in Hxin as [->%elem_of_singleton|?]; [right|by left]. apply (t_vals _ _ _ Ht [] _ (t_root _ _ _ Ht)).
    + rewrite size_union, size_singleton by set_solver. lia.
    + intros x Hxin. by apply not_elem_of_nil in Hxin.
    + intros x Hxin. split; [by apply Hf|]. right. by apply Hown.
    + exists T, ∅. split_and!; [done|done|by rewrite fmap_empty].
    + intros q j Hq _. by apply Hk.
  - intros pt w L M vpn ppn perm (HM & Hr & Hf) Hs Hv Hp Hperm Hn.
    destruct (repr_step pt w L M (OpMap vpn ppn perm) HM Hr Hf) as (raw & -> & H); [done|by left|].
    cbn [spec_step step] in H. rewrite lookup_fmap in Hn. destruct (raw !! vpn); [done|].
    destruct H as (pt' & w' & Hm & L' & H). cbn [sv39_page_table PageTable.pt_map]. destruct (map cfg pt w vpn ppn perm) as [[pt1 w1]|]; [|done].
    cbn in Hm. injection Hm as -> ->. exists pt', w'. split; [done|]. exists L'.
    rewrite fmap_insert, decode_leaf in H by done. exact H.
  - apply repr_unmap.
  - intros pt w L M vpn perm (HM & Hr & Hf) Hv Hp. apply (repr_update pt w L M); try done.
    + intros e. by apply Sv39PageTableEntry.set_permission_ok.
    + intros e. by apply decode_flags.
  - intros pt w L M vpn (HM & Hr & Hf) Hv.
    destruct (repr_update pt w L M Sv39PageTableEntry.revoke_write (fun e => (e.1, MapPermission.difference e.2 MapPermission.W)) vpn) as (w' & Hu & Hc);
      try done; [intros e; apply (Sv39PageTableEntry.pt_clear_bit_ok e 2); lia|intros e; by rewrite decode_block|].
    exists w'. split; [|done]. cbn [sv39_page_table PageTable.pt_block_and_ret_mut]. rewrite block_update, Hu. cbn. f_equal. by apply repr_query.
Qed.

End Tree.

(** C20: a page table is a finite map from page numbers to entries. Over a frame
    allocator with enough frames left, any sequence of [map], [unmap] and entry updates
    on a new page table panics exactly when the abstract map says so (mapping a mapped
    page or unmapping an unmapped one) and otherwise answers the same; afterwards
    [translate], [is_mapped] and the permission queries agree with the map on every
    page, and no frame that others held has been written. *)
Theorem page_table_refines cfg base limit w L ops :
  zero_init cfg = false -> 0 <= base -> limit <= 2 ^ 44 -> fa_rep base limit w L -> Forall op_ok ops ->
  Z.of_nat (size L) + 1 + 2 * Z.of_nat (length ops) <= limit - base ->
  exists pt w1, new cfg w = Ret (pt, w1) /\
  match spec_run ∅ ops with
  | Panic => run cfg pt w1 ops = Panic
  | Ret (bs, M) => exists pt' w', run cfg pt w1 ops = Ret (bs, pt', w') /\
      (forall vpn, vpn_ok vpn ->
         translate pt' (mem w') vpn = Sv39PageTableEntry.ppn <$> M !! vpn /\
         is_mapped pt' (mem w') vpn = (match M !! vpn with Some _ => true | None => false end) /\
         (forall q, pte_query q pt' (mem w') vpn = q <$> M !! vpn)) /\
      (forall q j, q ∈ L -> mem w' q j = mem w q j)
  end.
Proof.
  intros Hz Hb Hl Hr Hok Hs. destruct (new_ok cfg base limit Hz Hb Hl w L Hr) as (pt & w1 & T & Hn & Hrep & Hx & Hm); [lia|].
  exists pt, w1. split; [done|].
  pose proof (pt_run_ok cfg base limit Hz Hb Hl L ops pt w1 _ T ∅ Hrep Hok) as H.
  rewrite size_union, size_singleton in H by set_solver. specialize (H ltac:(lia)).
  destruct (spec_run ∅ ops) as [[bs M]|]; [|done]. destruct H as (pt' & w' & L' & T' & Hrun & Hrep' & Hm').
  exists pt', w'. split; [done|]. split; [intros vpn Hv; by eapply pt_rep_lookup|].
  intros q j Hq. rewrite Hm' by done. by apply Hm.
Qed.

(** C20: two pages mapped, one write-protected and one unmapped again, on a machine
    with 256 free frames. *)
Lemma page_table_refines_witness :
  let cfg := MkConfig false false in
  let w := init_frame_allocator 0x80400000 0x80500000 (World StackFrameAllocator.new (fun _ _ => 0)) in
  let ops := [OpMap 0x60001 0x80600 6; OpMap 0x60002 0x80601 22; OpUpdate URevokeWrite 0x60001; OpUnmap 0x60002] in
  exists pt w1, new cfg w = Ret (pt, w1) /\
  match spec_run ∅ ops with
  | Panic => run cfg pt w1 ops = Panic
  | Ret (bs, M) => exists pt' w', run cfg pt w1 ops = Ret (bs, pt', w') /\
      (forall vpn, vpn_ok vpn ->
         translate pt' (mem w') vpn = Sv39PageTableEntry.ppn <$> M !! vpn /\
         is_mapped pt' (mem w') vpn = (match M !! vpn with Some _ => true | None => false end) /\
         (forall q, pte_query q pt' (mem w') vpn = q <$> M !! vpn)) /\
      (forall q j, q ∈ (∅ : gset Z) -> mem w' q j = mem w q j)
  end.
Proof.
  intros cfg w ops. apply (page_table_refines cfg (addr_ceil 0x80400000) (addr_floor 0x80500000) w ∅ ops);
    [reflexivity|vm_compute; congruence|vm_compute; congruence| | |vm_compute; congruence].
  - apply init_frame_allocator_rep; [reflexivity|vm_compute; split; congruence|vm_compute; reflexivity].
  - repeat constructor; unfold vpn_ok; vm_compute; try congruence; left; split; congruence.
Defined.

(** Every index path counts: page numbers that agree in their low 27 bits share an
    entry, so a canonical kernel page and the page number without its sign extension
    are the same page to this table. *)
Example vpn_high_bits_ignored pt m : find_pte pt m 0x7ffffff = find_pte pt m 0xfffffffffffff.
Proof. reflexivity. Qed.
End Sv39PageTable.
