(* ===== verification/PageStore.v ===== *)
(** Stores for pages that leave memory: the interface that compressed memory
    ([os/src/mm/zram.rs]) and swap ([os/src/fs/swap.rs]) offer to the memory areas, and
    the two implementations.

    A tracker ([Arc<ZramTracker>], [Arc<SwapTracker>]) is the id of a stored page; its
    [Drop] is the [discard] of that id. *)
From S2P Require Import Prelude Address BitVec.

(** ** The interface

    A store holds a finite map from ids to pages. A page written gets an id that is not
    in use, and is read back until it is discarded. *)
Class PageStore (S : Type) := {
  ps_write : S -> list Z -> outcome (option Z * S);
  ps_read : S -> Z -> outcome (list Z);
  ps_discard : S -> Z -> outcome S;
}.

Definition page_ok (p : list Z) : Prop := Z.of_nat (length p) = PAGE_SIZE.

(** [room M]: a further page fits. *)
Class PageStoreOk (S : Type) `{PageStore S} (rep : S -> gmap Z (list Z) -> Prop) (room : gmap Z (list Z) -> Prop) := {
  ps_write_ok : forall s M p, rep s M -> room M -> page_ok p ->
    exists id s', ps_write s p = Ret (Some id, s') /\ M !! id = None /\ rep s' (<[id := p]> M);
  ps_read_ok : forall s M id p, rep s M -> M !! id = Some p -> ps_read s id = Ret p;
  ps_discard_ok : forall s M id p, rep s M -> M !! id = Some p ->
    exists s', ps_discard s id = Ret s' /\ rep s' (delete id M);
}.

(** A store that answers when it is full instead of failing. *)
Class PageStoreTotal (S : Type) `{PageStore S} (rep : S -> gmap Z (list Z) -> Prop) :=
  ps_write_total : forall s M p, rep s M -> page_ok p ->
    (exists id s', ps_write s p = Ret (Some id, s') /\ M !! id = None /\ rep s' (<[id := p]> M)) \/
    ps_write s p = Ret (None, s).

(** ** Compressed memory *)

Inductive ZramError : Type := InvalidIndex | NoSpace | NotAllocated.

Module Zram.
Section Zram.

(** [lz4_flex]: [compress_prepend_size] and [decompress_size_prepended]. *)
Context (compress : list Z -> list Z) (decompress : list Z -> option (list Z)).

Record t : Type := Mk { compressed : list (option (list Z)); recycled : list Z; tail : Z }.

(** [cap] is the capacity the vector got, at least what was asked for. *)
Definition new (cap : Z) : t := Mk (replicate (Z.to_nat cap) None) [] 0.

Definition insert (z : t) (data : list Z) : outcome (Result Z ZramError * t) :=
  match vec_pop (recycled z) with
  | Some (zram_id, r) =>
      l ← store (compressed z) zram_id (Some data); Ret (Ok zram_id, Mk l r (tail z))
  | None =>
      if tail z =? Z.of_nat (length (compressed z)) then Ret (Err NoSpace, z)
      else
        let tail' := wrap 16 (tail z + 1) in
        let zram_id := wrap 16 (tail' - 1) in
        l ← store (compressed z) zram_id (Some data); Ret (Ok zram_id, Mk l (recycled z) tail')
  end.
Definition get (z : t) (zram_id : Z) : outcome (Result (list Z) ZramError) :=
  if Z.of_nat (length (compressed z)) <=? zram_id then Ret (Err InvalidIndex)
  else o ← index (compressed z) zram_id; Ret (match o with Some d => Ok d | None => Err NotAllocated end).
Definition remove (z : t) (zram_id : Z) : outcome (Result (list Z) ZramError * t) :=
  if Z.of_nat (length (compressed z)) <=? zram_id then Ret (Err InvalidIndex, z)
  else
    let '(r, tail') := if zram_id =? wrap 16 (tail z - 1) then (recycled z, wrap 16 zram_id)
                       else (recycled z ++ [wrap 16 zram_id], tail z) in
    o ← index (compressed z) zram_id;
    l ← store (compressed z) zram_id None;
    Ret (match o with Some d => Ok d | None => Err NotAllocated end, Mk l r tail').

(** [read] into a buffer of [buf_len] bytes, which [copy_from_slice] wants of the same length. *)
Definition read (z : t) (zram_id buf_len : Z) : outcome (Result (list Z) ZramError) :=
  r ← get z zram_id;
  match r with
  | Ok compressed_data =>
      data ← unwrap (decompress compressed_data);
      rust_assert (Z.of_nat (length data) =? buf_len) ;; Ret (Ok data)
  | Err error => Ret (Err error)
  end.
Definition write (z : t) (buf : list Z) : outcome (Result Z ZramError * t) := insert z (compress buf).
Definition discard (z : t) (zram_id : Z) : outcome (Result unit ZramError * t) :=
  '(r, z') ← remove z zram_id;
  Ret (match r with Ok _ => Ok tt | Err error => Err error end, z').

(** The callers: a full store is reported, the other errors are [unwrap]ped. *)
#[global] Instance Zram_PageStore : PageStore t := {
  ps_write z p := '(r, z') ← write z p; Ret (match r with Ok id => Some id | Err _ => None end, z');
  ps_read z id := r ← read z id PAGE_SIZE; match r with Ok d => Ret d | Err _ => Panic end;
  ps_discard z id := '(r, z') ← discard z id; match r with Ok _ => Ret z' | Err _ => Panic end;
}.

Hypothesis lz4_roundtrip : forall b, decompress (compress b) = Some b.

(** Slots from [tail] on are empty, and below it [recycled] lists the empty ones. *)
Record rep (z : t) (M : gmap Z (list Z)) : Prop := {
  rp_len : Z.of_nat (length (compressed z)) < 2 ^ 16;
  rp_tail : 0 <= tail z <= Z.of_nat (length (compressed z));
  rp_nodup : NoDup (recycled z);
  rp_holes : forall i, i ∈ recycled z <-> 0 <= i < tail z /\ M !! i = None;
  rp_live : forall i p, M !! i = Some p -> 0 <= i < tail z /\ compressed z !! Z.to_nat i = Some (Some (compress p));
  rp_empty : forall i, (i < length (compressed z))%nat -> M !! Z.of_nat i = None -> compressed z !! i = Some None;
  rp_pages : map_Forall (fun _ p => page_ok p) M;
}.

(** Room: fewer pages than slots. *)
Definition room (cap : Z) (M : gmap Z (list Z)) : Prop := exists i, 0 <= i < cap /\ M !! i = None.

Lemma zram_rep_new cap : 0 <= cap < 2 ^ 16 -> rep (new cap) ∅.
Proof.
  intros Hc. constructor; cbn; rewrite ?length_replicate; try lia.
  - constructor.
  - intros i. split; [intros H; by apply not_elem_of_nil in H|lia].
  - done.
  - intros i Hi _. by apply lookup_replicate_2.
  - apply map_Forall_empty.
Qed.

(** Storing a page in an empty slot below the new tail. *)
Lemma zram_rep_store z M p id r tl : rep z M -> page_ok p -> M !! id = None -> 0 <= id < tl ->
  tail z <= tl <= Z.of_nat (length (compressed z)) -> NoDup r ->
  (forall i, i ∈ r <-> 0 <= i < tl /\ i <> id /\ M !! i = None) ->
  exists l, store (compressed z) id (Some (compress p)) = Ret l /\ rep (Mk l r tl) (<[id := p]> M).
Proof.
  intros [R1 R2 R3 R4 R5 R6 R7] Hp Hn Hid Htl Hnd Hr. eexists. split; [apply store_lt; lia|].
  constructor; cbn; rewrite ?length_insert; try done; try lia.
  - intros i. rewrite Hr. destruct (decide (i = id)) as [->|Hne].
    + rewrite lookup_insert_eq. naive_solver.
    + rewrite lookup_insert_ne by done. naive_solver.
  - intros i q. destruct (decide (i = id)) as [->|Hne].
    + rewrite lookup_insert_eq. intros [= <-]. split; [lia|]. apply list_lookup_insert_eq. lia.
    + rewrite lookup_insert_ne by done. intros [? ?]%R5. split; [lia|]. by rewrite list_lookup_insert_ne by lia.
  - intros i Hi. destruct (decide (Z.of_nat i = id)) as [<-|Hne]; [by rewrite lookup_insert_eq|].
    rewrite lookup_insert_ne by done. intros H. rewrite list_lookup_insert_ne by lia. by apply R6.
  - by apply map_Forall_insert_2.
Qed.

Lemma zram_write_ok z M p cap : rep z M -> cap = Z.of_nat (length (compressed z)) -> page_ok p ->
  (room cap M -> exists id z', write z p = Ret (Ok id, z') /\ 0 <= id < cap /\ M !! id = None /\
     rep z' (<[id := p]> M) /\ length (compressed z') = length (compressed z)) /\
  (~ room cap M -> write z p = Ret (Err NoSpace, z)).
Proof.
  intros R -> Hp. pose proof R as [R1 R2 R3 R4 R5 R6 R7]. unfold write, insert. pose proof (vec_pop_spec (recycled z)) as Hpop.
  destruct (vec_pop (recycled z)) as [[id r]|].
  - assert (id ∈ recycled z) as Hid%R4 by (rewrite Hpop; apply elem_of_app; right; by apply list_elem_of_singleton).
    rewrite Hpop in R3, R4. apply NoDup_app in R3 as (N1 & N2 & _).
    destruct (zram_rep_store z M p id r (tail z) R Hp) as (l & Hs & R'); try done; try lia; try tauto.
    { intros i. split.
      - intros Hi. assert (i <> id) as Hne by (intros ->; apply (N2 id Hi); by apply list_elem_of_singleton).
        destruct (proj1 (R4 i)) as [? ?]; [apply elem_of_app; by left|]. done.
      - intros (H1 & H2 & H3). pose proof (proj2 (R4 i) (conj H1 H3)) as Hx. by apply elem_of_app in Hx as [Hx|Hx%list_elem_of_singleton]. }
    rewrite Hs. split; [intros _|intros Hno; exfalso; apply Hno; exists id; naive_solver lia].
    exists id, (Mk l r (tail z)). split_and!; try done; try tauto; try lia.
    apply store_ret in Hs as [_ ->]. apply length_insert.
  - assert (forall i, 0 <= i < tail z -> M !! i <> None) as Hfull.
    { intros i Hi Hn. assert (i ∈ recycled z) as H by (by apply R4). rewrite Hpop in H. by apply not_elem_of_nil in H. }
    destruct (Z.eqb_spec (tail z) (Z.of_nat (length (compressed z)))) as [E|E].
    + split; [|done]. intros (i & Hi & Hn). destruct (Hfull i); [lia|done].
    + assert (wrap 16 (tail z + 1) = tail z + 1) as -> by (apply wrap_small; unfold in_range; lia).
      replace (tail z + 1 - 1) with (tail z) by lia. rewrite (wrap_small 16 (tail z)) by (unfold in_range; lia).
      assert (M !! tail z = None) as Hn by (destruct (M !! tail z) eqn:Em; [apply R5 in Em; lia|done]).
      destruct (zram_rep_store z M p (tail z) (recycled z) (tail z + 1) R Hp Hn) as (l & Hs & R'); try done; try lia.
      { intros i. rewrite R4. split; [intros [H1 H2]; split_and!; done || lia|]. intros (H1 & H2 & H3). split; [lia|done]. }
      rewrite Hs. split; [intros _|intros Hno; exfalso; apply Hno; exists (tail z); split; [lia|done]].
      exists (tail z), (Mk l (recycled z) (tail z + 1)). split_and!; try done; try lia.
      apply store_ret in Hs as [_ ->]. apply length_insert.
Qed.

Lemma get_ok z M id p : rep z M -> M !! id = Some p -> get z id = Ret (Ok (compress p)).
Proof.
  intros R Hid. destruct (rp_live _ _ R _ _ Hid) as [Hr Hl]. unfold get. pose proof (rp_tail _ _ R).
  destruct (Z.leb_spec (Z.of_nat (length (compressed z))) id); [lia|]. by rewrite (proj2 (index_ret _ _ _) Hl).
Qed.

Lemma zram_read_ok z M id p : rep z M -> M !! id = Some p -> read z id PAGE_SIZE = Ret (Ok p).
Proof.
  intros R Hid. unfold read. rewrite (get_ok _ _ _ _ R Hid). cbn [mbind outcome_bind]. rewrite lz4_roundtrip. cbn.
  pose proof (rp_pages _ _ R id p Hid) as Hp. unfold page_ok in Hp. by rewrite Hp, Z.eqb_refl.
Qed.

Lemma zram_discard_ok z M id p : rep z M -> M !! id = Some p -> exists z', discard z id = Ret (Ok tt, z') /\
  rep z' (delete id M) /\ length (compressed z') = length (compressed z).
Proof.
  intros R Hid. pose proof R as [R1 R2 R3 R4 R5 R6 R7]. destruct (R5 _ _ Hid) as [Hr Hl]. unfold discard, remove.
  destruct (Z.leb_spec (Z.of_nat (length (compressed z))) id); [lia|].
  rewrite (wrap_small 16 id), (wrap_small 16 (tail z - 1)) by (unfold in_range; lia).
  set (rt := if id =? tail z - 1 then (recycled z, id) else (recycled z ++ [id], tail z)).
  rewrite (surjective_pairing rt), (proj2 (index_ret _ _ _) Hl). cbn [mbind outcome_bind]. rewrite store_lt by lia. cbn.
  assert (id ∉ recycled z) as Hnr by (intros Hx%R4; destruct Hx; congruence).
  eexists. split; [done|]. split; [|apply length_insert].
  assert (NoDup (fst rt) /\ (forall i, i ∈ fst rt <-> 0 <= i < snd rt /\ delete id M !! i = None) /\
    (forall i q, delete id M !! i = Some q -> i < snd rt) /\ 0 <= snd rt <= tail z) as (P1 & P2 & P3 & P4).
  { unfold rt. destruct (Z.eqb_spec id (tail z - 1)) as [E|E]; cbn.
    - split_and!; [done| | |lia|lia].
      + intros i. rewrite R4. destruct (decide (i = id)) as [->|Hne]; [rewrite lookup_delete_eq; naive_solver lia|].
        rewrite lookup_delete_ne by done. naive_solver lia.
      + intros i q Hq. apply lookup_delete_Some in Hq as [Hne Hq%R5]. lia.
    - split_and!; [| | |lia|lia].
      + apply NoDup_app. split_and!; [done| |apply NoDup_singleton]. by intros x Hx ->%list_elem_of_singleton.
      + intros i. rewrite elem_of_app, list_elem_of_singleton, R4. destruct (decide (i = id)) as [->|Hne].
        * rewrite lookup_delete_eq. naive_solver.
        * rewrite lookup_delete_ne by done. naive_solver.
      + intros i q Hq. apply lookup_delete_Some in Hq as [Hne Hq%R5]. lia. }
  constructor; cbn; rewrite ?length_insert; try done; try lia.
  - intros i q Hq. specialize (P3 i q Hq). apply lookup_delete_Some in Hq as [Hne [? ?]%R5]. split; [lia|].
    by rewrite list_lookup_insert_ne by lia.
  - intros i Hi. destruct (decide (Z.of_nat i = id)) as [<-|Hne].
    + intros _. rewrite Nat2Z.id. apply list_lookup_insert_eq. lia.
    + rewrite lookup_delete_ne by done. intros H'. rewrite list_lookup_insert_ne by lia. by apply R6.
  - by apply map_Forall_delete.
Qed.

(** The store of a fixed number of slots implements the interface. *)
#[global] Instance Zram_PageStoreOk cap :
  PageStoreOk t (fun z M => rep z M /\ Z.of_nat (length (compressed z)) = cap) (room cap).
Proof using lz4_roundtrip.
  constructor.
  - intros z M p [R Hc] Hroom Hp. destruct (proj1 (zram_write_ok z M p cap R (eq_sym Hc) Hp) Hroom) as (id & z' & Hw & _ & Hn & R' & Hl).
    exists id, z'. cbn. rewrite Hw. split_and!; try done. by rewrite Hl.
  - intros z M id p [R Hc] Hid. cbn. by rewrite (zram_read_ok _ _ _ _ R Hid).
  - intros z M id p [R Hc] Hid. destruct (zram_discard_ok _ _ _ _ R Hid) as (z' & Hd & R' & Hl). exists z'. cbn. rewrite Hd.
    split; [done|]. split; [done|]. by rewrite Hl.
Qed.

#[global] Instance room_dec cap M : Decision (room cap M).
Proof.
  refine (cast_if (decide (Exists (fun i => M !! i = None) (seqZ 0 cap)))).
  - apply Exists_exists in e as (i & Hi%elem_of_seqZ & Hn). exists i. split; [lia|done].
  - intros (i & Hi & Hn). apply n, Exists_exists. exists i. split; [apply elem_of_seqZ; lia|done].
Defined.

#[global] Instance Zram_PageStoreTotal cap :
  PageStoreTotal t (fun z M => rep z M /\ Z.of_nat (length (compressed z)) = cap).
Proof using lz4_roundtrip.
  intros z M p [R Hc] Hp. destruct (zram_write_ok z M p cap R (eq_sym Hc) Hp) as [H1 H2]. destruct (decide (room cap M)) as [Hr|Hr].
  - left. destruct (H1 Hr) as (id & z' & Hw & _ & Hn & R' & Hl). exists id, z'. cbn. rewrite Hw. split_and!; try done. by rewrite Hl.
  - right. cbn. by rewrite (H2 Hr).
Qed.

(** C38: compressed memory is a lossless page store. On a store with fewer than 2^16
    slots, a page goes to a slot that is not in use, is read back unchanged, does not
    disturb the pages of other slots, and its slot is free again after its tracker is
    dropped; writing fails with [NoSpace], changing nothing, exactly when every slot is
    taken. *)
Theorem zram_store z M p (cap := Z.of_nat (length (compressed z))) : rep z M -> page_ok p ->
  (room cap M -> exists id z', write z p = Ret (Ok id, z') /\ 0 <= id < cap /\ M !! id = None /\ rep z' (<[id := p]> M) /\
     read z' id PAGE_SIZE = Ret (Ok p) /\ (forall j q, M !! j = Some q -> read z' j PAGE_SIZE = Ret (Ok q))) /\
  (~ room cap M -> write z p = Ret (Err NoSpace, z)) /\
  (forall id q, M !! id = Some q -> exists z', discard z id = Ret (Ok tt, z') /\ rep z' (delete id M) /\
     forall j r, j <> id -> M !! j = Some r -> read z' j PAGE_SIZE = Ret (Ok r)).
Proof.
  intros R Hp. destruct (zram_write_ok z M p cap R eq_refl Hp) as [H1 H2]. split_and!; [|done|].
  - intros Hroom. destruct (H1 Hroom) as (id & z' & Hw & Hid & Hn & R' & _). exists id, z'. split_and!; try done; try lia.
    + apply (zram_read_ok z' _ id p R'). apply lookup_insert_eq.
    + intros j q Hq. apply (zram_read_ok z' _ j q R'). rewrite lookup_insert_ne; [done|]. intros ->. congruence.
  - intros id q Hq. destruct (zram_discard_ok z M id q R Hq) as (z' & Hd & R' & _). exists z'. split_and!; try done.
    intros j r Hne Hr. apply (zram_read_ok z' _ j r R'). by rewrite lookup_delete_ne.
Qed.

End Zram.

(** Witness: a store of 2048 slots, with a compressor that stores bytes as they are. *)
Lemma zram_store_witness : exists z',
  write (fun b => b) (new 2048) (replicate 4096 7) = Ret (Ok 0, z') /\
  read Some z' 0 PAGE_SIZE = Ret (Ok (replicate 4096 7)).
Proof.
  destruct (zram_store (fun b => b) Some (fun b => eq_refl) (new 2048) ∅ (replicate 4096 7)) as (H & _ & _).
  - by apply zram_rep_new.
  - done.
  - destruct H as (id & z' & Hw & _ & _ & _ & Hr & _); [by exists 0|]. exists z'.
    assert (fst <$> write (fun b => b) (new 2048) (replicate 4096 7) = Ret (Ok 0)) as E by (vm_compute; reflexivity).
    rewrite Hw in E. cbn in E. injection E as ->. done.
Defined.

(** The slot of a page that is not stored is recycled all the same, so that dropping the
    same id twice makes two later writes share a slot. *)
Example double_discard_shares_slot : forall p q, exists z z1 z2,
  discard (Mk [Some p; Some p; Some p] [] 3) 0 = Ret (Ok tt, z) /\
  (r ← discard z 0; Ret (fst r)) = Ret (Err NotAllocated) /\
  (r ← discard z 0; write (fun b => b) (snd r) p) = Ret (Ok 0, z1) /\
  write (fun b => b) z1 q = Ret (Ok 0, z2).
Proof. intros p q. do 3 eexists. by split_and!. Qed.
End Zram.

(** ** Swap *)

Definition BLOCK_SZ : Z := 512.

(** The memory block device ([os/src/drivers/block/mem_blk.rs]): bytes from the image base. *)
(** A device in memory: the bytes behind its base address. Blocks have numbers below 2^55, so
    that the offset of a block fits 64 bits. *)
Module MemBlock.
Definition t : Type := Z -> Z.
Definition read_block (d : t) (block_id len : Z) : list Z := map d (seqZ (block_id * BLOCK_SZ) len).
Definition write_block (d : t) (block_id : Z) (buf : list Z) : t :=
  fun a => if (block_id * BLOCK_SZ <=? a) && (a <? block_id * BLOCK_SZ + Z.of_nat (length buf))
           then buf !!! Z.to_nat (a - block_id * BLOCK_SZ) else d a.

Lemma read_write_same d id buf : read_block (write_block d id buf) id (Z.of_nat (length buf)) = buf.
Proof.
  apply list_eq. intros i. unfold read_block. rewrite list_lookup_fmap. destruct (decide (i < length buf)%nat) as [Hi|Hi].
  - rewrite lookup_seqZ_lt by lia. cbn. unfold write_block.
    destruct (Z.leb_spec (id * BLOCK_SZ) (id * BLOCK_SZ + Z.of_nat i)); [|lia].
    destruct (Z.ltb_spec (id * BLOCK_SZ + Z.of_nat i) (id * BLOCK_SZ + Z.of_nat (length buf))); [|lia]. cbn.
    replace (Z.to_nat (id * BLOCK_SZ + Z.of_nat i - id * BLOCK_SZ)) with i by lia.
    symmetry. by apply list_lookup_lookup_total_lt.
  - rewrite lookup_seqZ_ge by lia. cbn. symmetry. apply lookup_ge_None_2. lia.
Qed.

Lemma read_write_apart d id buf id' len :
  id' * BLOCK_SZ + len <= id * BLOCK_SZ \/ id * BLOCK_SZ + Z.of_nat (length buf) <= id' * BLOCK_SZ ->
  read_block (write_block d id buf) id' len = read_block d id' len.
Proof.
  intros Hd. unfold read_block. apply map_ext_in. intros a Ha%list_elem_of_In%elem_of_seqZ. unfold write_block.
  destruct (Z.leb_spec (id * BLOCK_SZ) a), (Z.ltb_spec a (id * BLOCK_SZ + Z.of_nat (length buf))); cbn; lia || done.
Qed.
End MemBlock.

Module Swap.

Definition BLK_PER_PG : Z := PAGE_SIZE / BLOCK_SZ.
Definition SWAP_SIZE : Z := 1024 * 1024.

(** The device is part of the state. *)
Record t : Type := Mk { bitmap : list Z; block_ids : list Z; device : MemBlock.t }.

(** [size] MiB on blocks the file system has allocated; the vector has exactly the
    capacity asked for. *)
Definition new (size : Z) (blocks : list Z) (d : MemBlock.t) : t :=
  let bit := size * (SWAP_SIZE / PAGE_SIZE) in
  Mk (replicate (Z.to_nat (bit / 64)) 0) blocks d.

Definition read_page (d : MemBlock.t) (ids : list Z) (len : Z) : outcome (list Z) :=
  first ← index ids 0;
  last ← index ids (BLK_PER_PG - 1);
  rust_assert (first ⊕ BLK_PER_PG ⊖ 1 =? last) ;;
  Ret (MemBlock.read_block d first len).
Definition write_page (d : MemBlock.t) (ids buf : list Z) : outcome MemBlock.t :=
  first ← index ids 0;
  last ← index ids (BLK_PER_PG - 1);
  rust_assert (first ⊕ (BLK_PER_PG - 1) =? last) ;;
  Ret (MemBlock.write_block d first buf).

Definition set_bit (s : t) (pos : Z) : outcome t :=
  w ← index (bitmap s) (pos / 64);
  l ← store (bitmap s) (pos / 64) (bit_set w (pos mod 64));
  Ret (Mk l (block_ids s) (device s)).
Definition clear_bit (s : t) (pos : Z) : outcome t :=
  w ← index (bitmap s) (pos / 64);
  l ← store (bitmap s) (pos / 64) (bit_clear 64 w (pos mod 64));
  Ret (Mk l (block_ids s) (device s)).

Fixpoint alloc_from (words : list Z) (i : Z) : option Z :=
  match words with
  | [] => None
  | bit :: rest =>
      if bit =? usize_max then alloc_from rest (i + 1)
      else Some (i * 64 + trailing_zeros 64 (not_bits 64 bit))
  end.
Definition alloc_page (s : t) : option Z := alloc_from (bitmap s) 0.

Definition get_block_ids (s : t) (swap_id : Z) : outcome (list Z) :=
  rust_assert (swap_id * BLK_PER_PG + BLK_PER_PG <=? Z.of_nat (length (block_ids s))) ;;
  Ret (take (Z.to_nat BLK_PER_PG) (drop (Z.to_nat (swap_id * BLK_PER_PG)) (block_ids s))).

Definition read (s : t) (swap_id len : Z) : outcome (list Z) :=
  ids ← get_block_ids s swap_id; read_page (device s) ids len.
Definition write (s : t) (buf : list Z) : outcome (Z * t) :=
  match alloc_page s with
  | Some swap_id =>
      ids ← get_block_ids s swap_id;
      d ← write_page (device s) ids buf;
      s' ← set_bit (Mk (bitmap s) (block_ids s) d) swap_id;
      Ret (swap_id, s')
  | None => Panic
  end.
Definition discard (s : t) (swap_id : Z) : outcome t := clear_bit s swap_id.

#[global] Instance Swap_PageStore : PageStore t := {
  ps_write s p := '(id, s') ← write s p; Ret (Some id, s');
  ps_read s id := read s id PAGE_SIZE;
  ps_discard := discard;
}.

(** The first block of a page. *)
Definition base (s : t) (id : Z) : Z := block_ids s !!! Z.to_nat (8 * id).

(** The blocks of each page are contiguous, and no block is used twice. *)
Record layout (ids : list Z) (pages : Z) : Prop := {
  ly_len : Z.of_nat (length ids) = 8 * pages;
  ly_nodup : NoDup ids;
  ly_run : forall id k, 0 <= id < pages -> 0 <= k < 8 ->
    ids !! Z.to_nat (8 * id + k) = Some (ids !!! Z.to_nat (8 * id) + k);
  ly_range : Forall (fun b => 0 <= b < 2 ^ 54) ids;
}.

Record rep (s : t) (M : gmap Z (list Z)) : Prop := {
  rp_words : bv_words 64 (bitmap s);
  rp_layout : layout (block_ids s) (64 * Z.of_nat (length (bitmap s)));
  rp_bits : forall i, 0 <= i -> bv_test 64 (bitmap s) i = bool_decide (is_Some (M !! i));
  rp_keys : forall i p, M !! i = Some p -> 0 <= i;
  rp_data : forall i p, M !! i = Some p -> page_ok p /\ MemBlock.read_block (device s) (base s i) PAGE_SIZE = p;
}.

Definition room (pages : Z) (M : gmap Z (list Z)) : Prop := exists i, 0 <= i < pages /\ M !! i = None.

Lemma swap_rep_new size blocks d : 0 <= size -> layout blocks (256 * size) -> rep (new size blocks d) ∅.
Proof.
  intros Hs Hl. unfold new. change (SWAP_SIZE / PAGE_SIZE) with 256.
  assert (size * 256 / 64 = 4 * size) as -> by (replace (size * 256) with (4 * size * 64) by lia; apply Z.div_mul; lia).
  constructor; cbn [bitmap block_ids].
  - by apply bv_words_replicate.
  - rewrite length_replicate, Z2Nat.id by lia. by replace (64 * (4 * size)) with (256 * size) by lia.
  - intros i Hi. rewrite bv_test_replicate. by rewrite lookup_empty, bool_decide_eq_false_2 by (by intros [? ?]).
  - done.
  - done.
Qed.

(** The pages of two ids lie apart on the device. *)
Lemma base_apart s pages a b : layout (block_ids s) pages -> 0 <= a < pages -> 0 <= b < pages -> a <> b ->
  base s a + 8 <= base s b \/ base s b + 8 <= base s a.
Proof.
  intros [_ Hnd Hrun _] Ha Hb Hne. unfold base.
  assert (forall x y, 0 <= x < pages -> 0 <= y < pages -> x <> y ->
    ~ (block_ids s !!! Z.to_nat (8 * x) <= block_ids s !!! Z.to_nat (8 * y) < block_ids s !!! Z.to_nat (8 * x) + 8)) as H.
  { intros x y Hx Hy Hxy Hr. set (bx := block_ids s !!! Z.to_nat (8 * x)) in *. set (by_ := block_ids s !!! Z.to_nat (8 * y)) in *.
    pose proof (Hrun x (by_ - bx) Hx ltac:(lia)) as H1. pose proof (Hrun y 0 Hy ltac:(lia)) as H2.
    fold bx in H1. fold by_ in H2. replace (bx + (by_ - bx)) with (by_ + 0) in H1 by lia.
    pose proof (NoDup_lookup _ _ _ _ Hnd H1 H2). lia. }
  pose proof (H a b Ha Hb Hne). pose proof (H b a Hb Ha ltac:(done)). lia.
Qed.

Lemma get_block_ids_ok s pages id : layout (block_ids s) pages -> 0 <= id < pages ->
  exists ids, get_block_ids s id = Ret ids /\ index ids 0 = Ret (base s id) /\
    index ids 7 = Ret (base s id + 7) /\ 0 <= base s id < 2 ^ 54.
Proof.
  intros [Hlen _ Hrun Hr] Hid. unfold get_block_ids. change BLK_PER_PG with 8.
  destruct (Z.leb_spec (id * 8 + 8) (Z.of_nat (length (block_ids s)))); [|lia]. eexists. split; [done|].
  assert (forall k, 0 <= k < 8 -> take (Z.to_nat 8) (drop (Z.to_nat (id * 8)) (block_ids s)) !! Z.to_nat k = Some (base s id + k)) as Hk.
  { intros k Hk. rewrite lookup_take_lt by lia. rewrite lookup_drop.
    replace (Z.to_nat (id * 8) + Z.to_nat k)%nat with (Z.to_nat (8 * id + k)) by lia. by apply Hrun. }
  split_and!.
  - apply index_ret. rewrite Hk by lia. f_equal. lia.
  - apply index_ret. by rewrite Hk by lia.
  - pose proof (Hrun id 0 Hid ltac:(lia)) as H0. apply (Forall_lookup_1 _ _ _ _ Hr) in H0. unfold base. lia.
  - pose proof (Hrun id 0 Hid ltac:(lia)) as H0. apply (Forall_lookup_1 _ _ _ _ Hr) in H0. unfold base. lia.
Qed.

Lemma swap_read_ok s M id p : rep s M -> M !! id = Some p -> read s id PAGE_SIZE = Ret p.
Proof.
  intros [R1 R2 R3 R4 R5] Hid. pose proof (R4 _ _ Hid) as H0. destruct (R5 _ _ Hid) as [_ Hd].
  assert (id < 64 * Z.of_nat (length (bitmap s))) as Hlt.
  { pose proof (R3 id H0) as Hb. rewrite bool_decide_eq_true_2 in Hb by (by eexists). unfold bv_test in Hb.
    destruct (bitmap s !! Z.to_nat (id / 64)) eqn:E; [|done]. apply lookup_lt_Some in E.
    pose proof (Z.div_pos id 64). pose proof (Z.mul_div_le id 64). pose proof (Z.mod_pos_bound id 64).
    pose proof (Z.div_mod id 64). lia. }
  destruct (get_block_ids_ok s _ id R2 ltac:(lia)) as (ids & Hg & H1 & H2 & Hb). unfold read. rewrite Hg.
  cbn [mbind outcome_bind]. unfold read_page. change BLK_PER_PG with 8. rewrite H1. cbn [mbind outcome_bind].
  change (8 - 1) with 7. rewrite H2. cbn [mbind outcome_bind].
  rewrite add64_small by (unfold in_range; lia). rewrite sub64_small by lia.
  destruct (Z.eqb_spec (base s id + 8 - 1) (base s id + 7)); [|lia]. cbn. by rewrite Hd.
Qed.

Lemma alloc_from_spec words : bv_words 64 words -> forall i, 0 <= i ->
  match alloc_from words i with
  | Some id => i * 64 <= id < (i + Z.of_nat (length words)) * 64 /\ bv_test 64 words (id - i * 64) = false /\
      (forall j, 0 <= j < id - i * 64 -> bv_test 64 words j = true)
  | None => forall j, 0 <= j < Z.of_nat (length words) * 64 -> bv_test 64 words j = true
  end.
Proof.
  induction 1 as [|w words Hw Hws IH]; intros i Hi; cbn [alloc_from length]; [lia|].
  assert (forall j, 0 <= j < 64 -> bv_test 64 (w :: words) j = Z.testbit w j) as Hhd.
  { intros j Hj. unfold bv_test. by rewrite Z.div_small, Z.mod_small by lia. }
  assert (forall j, 64 <= j -> bv_test 64 (w :: words) j = bv_test 64 words (j - 64)) as Htl.
  { intros j Hj. unfold bv_test. assert (j / 64 = (j - 64) / 64 + 1 /\ j mod 64 = (j - 64) mod 64) as [-> ->].
    { pose proof (Z.div_add (j - 64) 1 64). pose proof (Z.mod_add (j - 64) 1 64).
      replace (j - 64 + 1 * 64) with j in * by lia. lia. }
    pose proof (Z.div_pos (j - 64) 64). replace (Z.to_nat ((j - 64) / 64 + 1)) with (S (Z.to_nat ((j - 64) / 64))) by lia. done. }
  destruct (Z.eqb_spec w usize_max) as [E|E].
  - assert (forall j, 0 <= j < 64 -> bv_test 64 (w :: words) j = true) as Hfull.
    { intros j Hj. rewrite Hhd by lia. pose proof (proj1 (all_ones_testbit 64 w ltac:(lia) Hw)) as H. by apply H. }
    specialize (IH (i + 1) ltac:(lia)). destruct (alloc_from words (i + 1)) as [id|].
    + destruct IH as (I1 & I2 & I3). split_and!; [lia|lia| |].
      * rewrite Htl by lia. rewrite <- I2. f_equal. lia.
      * intros j Hj. destruct (Z.ltb_spec j 64); [apply Hfull; lia|]. rewrite Htl by lia. apply I3. lia.
    + intros j Hj. destruct (Z.ltb_spec j 64); [apply Hfull; lia|]. rewrite Htl by lia. apply IH. lia.
  - destruct (first_zero_spec 64 w Hw E) as (H1 & H2 & H3). change (Z.of_nat 64) with 64 in *.
    set (k := trailing_zeros 64 (not_bits 64 w)) in *. replace (i * 64 + k - i * 64) with k by lia.
    split_and!; [lia|lia| |].
    + by rewrite Hhd by lia.
    + intros j Hj. rewrite Hhd by lia. by apply H3.
Qed.

Lemma set_bit_ok s i : bv_words 64 (bitmap s) -> 0 <= i < 64 * Z.of_nat (length (bitmap s)) ->
  exists l, set_bit s i = Ret (Mk l (block_ids s) (device s)) /\ length l = length (bitmap s) /\ bv_words 64 l /\
    forall j, 0 <= j -> bv_test 64 l j = (j =? i) || bv_test 64 (bitmap s) j.
Proof.
  intros Hw Hi. destruct (bv_lookup_lt 64 ltac:(lia) _ i Hi) as [w Hl]. unfold set_bit.
  rewrite (proj2 (index_ret _ _ _) Hl). cbn [mbind outcome_bind]. pose proof (lookup_lt_Some _ _ _ Hl). pose proof (Z.div_pos i 64).
  rewrite store_lt by lia. eexists. split; [done|]. split; [apply length_insert|]. split; [by apply bv_words_set|].
  intros j Hj. by apply (bv_test_set 64 ltac:(lia)); [lia|lia|].
Qed.

Lemma swap_clear_bit_ok s i : bv_words 64 (bitmap s) -> 0 <= i < 64 * Z.of_nat (length (bitmap s)) ->
  exists l, clear_bit s i = Ret (Mk l (block_ids s) (device s)) /\ length l = length (bitmap s) /\ bv_words 64 l /\
    forall j, 0 <= j -> bv_test 64 l j = negb (j =? i) && bv_test 64 (bitmap s) j.
Proof.
  intros Hw Hi. destruct (bv_lookup_lt 64 ltac:(lia) _ i Hi) as [w Hl]. unfold clear_bit.
  rewrite (proj2 (index_ret _ _ _) Hl). cbn [mbind outcome_bind]. pose proof (lookup_lt_Some _ _ _ Hl). pose proof (Z.div_pos i 64).
  rewrite store_lt by lia. eexists. split; [done|]. split; [apply length_insert|]. split; [by apply bv_words_clear|].
  intros j Hj. by apply (bv_test_clear 64 ltac:(lia)); [lia|lia|].
Qed.

Definition pages (s : t) : Z := 64 * Z.of_nat (length (bitmap s)).

Lemma bits_lt s M i p : rep s M -> M !! i = Some p -> 0 <= i < pages s.
Proof.
  intros [R1 R2 R3 R4 R5] Hi. pose proof (R4 _ _ Hi) as H0. split; [done|].
  pose proof (R3 i H0) as Hb. rewrite bool_decide_eq_true_2 in Hb by (by eexists). unfold bv_test, pages in *.
  destruct (bitmap s !! Z.to_nat (i / 64)) eqn:E; [|done]. apply lookup_lt_Some in E.
  pose proof (Z.div_pos i 64). pose proof (Z.mod_pos_bound i 64). pose proof (Z.div_mod i 64). lia.
Qed.

(** The lowest free page, where there is one. *)
Lemma alloc_page_ok s M : rep s M ->
  match alloc_page s with
  | Some id => 0 <= id < pages s /\ M !! id = None /\ forall j, 0 <= j < id -> M !! j <> None
  | None => ~ room (pages s) M
  end.
Proof.
  intros [R1 R2 R3 R4 R5]. pose proof (alloc_from_spec (bitmap s) R1 0 ltac:(lia)) as H. unfold alloc_page, pages.
  destruct (alloc_from (bitmap s) 0) as [id|].
  - destruct H as (H1 & H2 & H3). rewrite Z.mul_0_l, Z.sub_0_r in *. split_and!; [lia|lia| |].
    + rewrite R3 in H2 by lia. apply bool_decide_eq_false in H2. by apply eq_None_not_Some.
    + intros j Hj E. specialize (H3 j Hj). rewrite R3, E in H3 by lia. by apply bool_decide_eq_true in H3 as [? ?].
  - intros (i & Hi & Hn). specialize (H i ltac:(lia)). rewrite R3, Hn in H by lia. by apply bool_decide_eq_true in H as [? ?].
Qed.

Lemma write_page_ok s id buf : layout (block_ids s) (pages s) -> 0 <= id < pages s -> exists ids,
  get_block_ids s id = Ret ids /\
  write_page (device s) ids buf = Ret (MemBlock.write_block (device s) (base s id) buf).
Proof.
  intros Hl Hid. destruct (get_block_ids_ok s _ id Hl Hid) as (ids & Hg & H1 & H2 & Hb). exists ids. split; [done|].
  unfold write_page. change BLK_PER_PG with 8. rewrite H1. cbn [mbind outcome_bind].
  change (8 - 1) with 7. rewrite H2. cbn [mbind outcome_bind]. rewrite add64_small by (unfold in_range; lia).
  by rewrite Z.eqb_refl.
Qed.

Lemma swap_write_ok s M p : rep s M -> page_ok p ->
  (room (pages s) M -> exists id s', write s p = Ret (id, s') /\ 0 <= id < pages s /\ M !! id = None /\
     rep s' (<[id := p]> M) /\ pages s' = pages s) /\
  (~ room (pages s) M -> write s p = Panic).
Proof.
  intros R Hp. pose proof (alloc_page_ok s M R) as Ha. unfold write. destruct (alloc_page s) as [id|]; [|done].
  destruct Ha as (Hid & Hn & _). split; [intros _|intros Hno; exfalso; apply Hno; by exists id].
  pose proof R as [R1 R2 R3 R4 R5]. destruct (write_page_ok s id p R2 Hid) as (ids & -> & Hw). cbn [mbind outcome_bind].
  rewrite Hw. cbn [mbind outcome_bind]. set (d := MemBlock.write_block (device s) (base s id) p).
  destruct (set_bit_ok (Mk (bitmap s) (block_ids s) d) id R1 Hid) as (l & -> & Hl & Hlw & Hb). cbn [mbind outcome_bind bitmap block_ids device] in *.
  exists id, (Mk l (block_ids s) d). split_and!; try done; try lia; [|unfold pages; cbn; by rewrite Hl].
  constructor; cbn [bitmap block_ids device]; [done|by rewrite Hl| | |].
  - intros i Hi. rewrite Hb, R3 by done. destruct (Z.eqb_spec i id) as [->|Hne]; cbn.
    + by rewrite lookup_insert_eq, bool_decide_eq_true_2 by (by eexists).
    + by rewrite lookup_insert_ne.
  - intros i q Hq. apply lookup_insert_Some in Hq as [[<- _]|[_ Hq]]; [lia|by eapply R4].
  - intros i q Hq. apply lookup_insert_Some in Hq as [[<- <-]|[Hne Hq]].
    + split; [done|]. unfold d, base. cbn [block_ids]. fold (base s id). rewrite <- Hp. apply MemBlock.read_write_same.
    + destruct (R5 _ _ Hq) as [Hpq Hd]. split; [done|]. rewrite <- Hd. unfold d, base. cbn [block_ids].
      apply MemBlock.read_write_apart. fold (base s id). fold (base s i). rewrite Hp.
      pose proof (base_apart s (pages s) id i R2 Hid (bits_lt _ _ _ _ R Hq) Hne). unfold BLOCK_SZ, PAGE_SIZE. lia.
Qed.

Lemma swap_discard_ok s M id p : rep s M -> M !! id = Some p -> exists s', discard s id = Ret s' /\
  rep s' (delete id M) /\ pages s' = pages s.
Proof.
  intros R Hid. pose proof R as [R1 R2 R3 R4 R5].
  destruct (swap_clear_bit_ok s id R1 (bits_lt _ _ _ _ R Hid)) as (l & Hc & Hl & Hlw & Hb). unfold discard. rewrite Hc.
  eexists. split; [done|]. split; [|unfold pages; cbn; by rewrite Hl].
  constructor; cbn [bitmap block_ids device]; [done|by rewrite Hl| | |].
  - intros i Hi. rewrite Hb, R3 by done. destruct (Z.eqb_spec i id) as [->|Hne]; cbn.
    + by rewrite lookup_delete_eq, bool_decide_eq_false_2 by (by intros [? ?]).
    + by rewrite lookup_delete_ne.
  - intros i q [_ Hq]%lookup_delete_Some. by eapply R4.
  - intros i q [_ Hq]%lookup_delete_Some. apply (R5 i q Hq).
Qed.

#[global] Instance Swap_PageStoreOk n : PageStoreOk t (fun s M => rep s M /\ pages s = n) (room n).
Proof.
  constructor.
  - intros s M p [R <-] Hroom Hp. destruct (proj1 (swap_write_ok s M p R Hp) Hroom) as (id & s' & Hw & _ & Hn & R' & Hs).
    exists id, s'. cbn. by rewrite Hw.
  - intros s M id p [R _] Hid. by apply (swap_read_ok s M).
  - intros s M id p [R <-] Hid. destruct (swap_discard_ok _ _ _ _ R Hid) as (s' & Hd & R' & Hs). by exists s'.
Qed.

(** C39: swap is a lossless page store. On distinct blocks, contiguous within each page, a
    page is written to the lowest free slot, read back unchanged, does not disturb the
    pages of other slots, and its slot is free again after its tracker is dropped;
    writing panics exactly when every slot is taken. *)
Theorem swap_store s M p : rep s M -> page_ok p ->
  (room (pages s) M -> exists id s', write s p = Ret (id, s') /\ M !! id = None /\
     (forall j, 0 <= j < id -> M !! j <> None) /\ rep s' (<[id := p]> M) /\
     read s' id PAGE_SIZE = Ret p /\ (forall j q, M !! j = Some q -> read s' j PAGE_SIZE = Ret q)) /\
  (~ room (pages s) M -> write s p = Panic) /\
  (forall id q, M !! id = Some q -> exists s', discard s id = Ret s' /\ rep s' (delete id M) /\
     forall j r, j <> id -> M !! j = Some r -> read s' j PAGE_SIZE = Ret r).
Proof.
  intros R Hp. destruct (swap_write_ok s M p R Hp) as [H1 H2]. split_and!; [|done|].
  - intros Hroom. destruct (H1 Hroom) as (id & s' & Hw & Hid & Hn & R' & _). exists id, s'. split_and!; try done.
    + pose proof (alloc_page_ok s M R) as Ha. unfold write in Hw. destruct (alloc_page s) as [a|]; [|done].
      apply bind_ret_inv in Hw as (ids & _ & Hw). apply bind_ret_inv in Hw as (d & _ & Hw).
      apply bind_ret_inv in Hw as (s'' & _ & [= <- _]). apply Ha.
    + apply (swap_read_ok s' _ id p R'). apply lookup_insert_eq.
    + intros j q Hq. apply (swap_read_ok s' _ j q R'). rewrite lookup_insert_ne; [done|]. intros ->. congruence.
  - intros id q Hq. destruct (swap_discard_ok s M id q R Hq) as (s' & Hd & R' & _). exists s'. split_and!; try done.
    intros j r Hne Hr. apply (swap_read_ok s' _ j r R'). by rewrite lookup_delete_ne.
Qed.

(** A device of 2 MiB of consecutive blocks. *)
Definition demo : t := new 1 (seqZ 100 2048) (fun _ => 0).

Lemma demo_layout : layout (seqZ 100 2048) 256.
Proof.
  constructor.
  - done.
  - apply NoDup_seqZ.
  - intros id k Hid Hk. rewrite lookup_seqZ_lt by lia. f_equal.
    rewrite (list_lookup_total_correct _ _ (100 + 8 * id)); [lia|]. rewrite lookup_seqZ_lt by lia. f_equal. lia.
  - apply Forall_forall. intros b Hb%elem_of_seqZ. lia.
Qed.

(** Witness: the first page written to a new swap device. *)
Lemma swap_store_witness : exists s',
  write demo (replicate 4096 7) = Ret (0, s') /\ read s' 0 PAGE_SIZE = Ret (replicate 4096 7).
Proof.
  destruct (swap_store demo ∅ (replicate 4096 7) (swap_rep_new 1 _ _ ltac:(lia) demo_layout) eq_refl) as (H & _ & _).
  destruct H as (id & s' & Hw & _ & Hlow & _ & Hr & _); [by exists 0|]. exists s'.
  assert (fst <$> write demo (replicate 4096 7) = Ret 0) as E by (vm_compute; reflexivity).
  rewrite Hw in E. cbn in E. injection E as ->. done.
Defined.
End Swap.
