(* ===== verification/BlockCache.v ===== *)
(** * BlockCache: the cache of disk blocks (os/src/fs/cache.rs)

    [BlockCacheManager] keeps a pool of buffers, each holding one block of the device. The
    device is the memory block device of [PageStore]; the pool entries carry their strong
    count, which keeps a buffer that is in use from being written back and reused.
    [block_cache_refines] and the lemmas of [BlockStore] show that the cache cannot be
    seen: through it every block reads as last written. *)
From S2P Require Import Prelude Bytes PageStore.

(** What a file system relies on: a block can be read and changed, on its own, whatever the
    store does behind it. [bs_block s i] is what block [i] reads as. *)
Class BlockStore (S : Type) := {
  bs_read : S -> Z -> outcome (list Z * S);
  bs_modify : S -> Z -> (list Z -> list Z) -> outcome S;
  bs_block : S -> Z -> list Z;
}.
Class BlockStoreOk (S : Type) `{BlockStore S} (valid : Z -> Prop) (ok : S -> Prop) := {
  bs_length : forall s i, ok s -> valid i -> Z.of_nat (length (bs_block s i)) = BLOCK_SZ /\ Forall byte_ok (bs_block s i);
  bs_read_ok : forall s i, ok s -> valid i ->
    exists s', bs_read s i = Ret (bs_block s i, s') /\ ok s' /\ forall j, valid j -> bs_block s' j = bs_block s j;
  bs_modify_ok : forall s i f, ok s -> valid i -> (Z.of_nat (length (f (bs_block s i))) = BLOCK_SZ) -> Forall byte_ok (f (bs_block s i)) ->
    exists s', bs_modify s i f = Ret s' /\ ok s' /\ forall j, valid j -> bs_block s' j = if decide (j = i) then f (bs_block s i) else bs_block s j;
}.

Definition PRIORITY_UPPERBOUND : Z := 1.

Record BufferCache : Type := Buf { priority : Z; block_id : Z; dirty : bool; buffer : list Z }.
(** A buffer of the pool and its strong count. *)
Record slot : Type := Slot { refs : Z; cache : BufferCache }.

Module BufferCache.
Definition new (b : list Z) : BufferCache := Buf 0 usize_max false b.
Definition read_block (c : BufferCache) (id : Z) (d : MemBlock.t) : BufferCache :=
  Buf (priority c) id (dirty c) (MemBlock.read_block d id BLOCK_SZ).
(** [read] and [modify] with a closure on the bytes. *)
Definition read {V} (c : BufferCache) (f : list Z -> V) : V := f (buffer c).
Definition modify (c : BufferCache) (f : list Z -> list Z) : BufferCache := Buf (priority c) (block_id c) true (f (buffer c)).
Definition raise (c : BufferCache) : BufferCache :=
  if priority c <? PRIORITY_UPPERBOUND then Buf (priority c + 1) (block_id c) (dirty c) (buffer c) else c.
End BufferCache.

Module BlockCacheManager.
Record t : Type := Mk { cache_pool : list slot; device : MemBlock.t }.

(** [new]: [pages] frames of eight buffers, [fresh] what they hold. *)
Definition new (fresh : list (list Z)) (d : MemBlock.t) : t := Mk (Slot 1 ∘ BufferCache.new <$> fresh) d.

(** The loop body of [oom]. *)
Definition oom_one (s : slot) (d : MemBlock.t) : slot * MemBlock.t :=
  let c := cache s in
  if 1 <? refs s then (s, d)
  else if 0 <? priority c then (Slot (refs s) (Buf (priority c - 1) (block_id c) (dirty c) (buffer c)), d)
  else
    let '(di, d') := if dirty c then (false, MemBlock.write_block d (block_id c) (buffer c)) else (dirty c, d) in
    (Slot (refs s) (Buf (priority c) usize_max di (buffer c)), d').
Fixpoint oom_pool (l : list slot) (d : MemBlock.t) : list slot * MemBlock.t :=
  match l with
  | [] => ([], d)
  | s :: l => let '(s', d1) := oom_one s d in let '(l', d2) := oom_pool l d1 in (s' :: l', d2)
  end.
Definition oom (m : t) : t := let '(l, d) := oom_pool (cache_pool m) (device m) in Mk l d.

Fixpoint position (p : BufferCache -> bool) (l : list slot) (i : nat) : option nat :=
  match l with [] => None | s :: l => if p (cache s) then Some i else position p l (S i) end.
Definition update (m : t) (i : nat) (f : slot -> slot) : t := Mk (alter f i (cache_pool m)) (device m).
(** [buffer_cache.clone()] and its drop. *)
Definition clone (s : slot) : slot := Slot (refs s + 1) (cache s).
Definition release (m : t) (i : nat) : t := update m i (fun s => Slot (refs s - 1) (cache s)).

(** [alloc_buffer_cache]; [None] is a loop that still runs. *)
Fixpoint alloc_buffer_cache (fuel : nat) (m : t) : option (nat * t) :=
  match fuel with
  | O => None
  | S fuel =>
      match position (fun c => block_id c =? usize_max) (cache_pool m) 0 with
      | Some i => Some (i, update m i clone)
      | None => alloc_buffer_cache fuel (oom m)
      end
  end.
Definition try_get_block_cache (m : t) (id : Z) : option (nat * t) :=
  match position (fun c => block_id c =? id) (cache_pool m) 0 with
  | Some i => Some (i, update m i (fun s => clone (Slot (refs s) (BufferCache.raise (cache s)))))
  | None => None
  end.
Definition get_block_cache (fuel : nat) (m : t) (id : Z) : option (nat * t) :=
  match try_get_block_cache m id with
  | Some r => Some r
  | None =>
      match alloc_buffer_cache fuel m with
      | Some (i, m') => Some (i, update m' i (fun s => Slot (refs s) (BufferCache.raise (BufferCache.read_block (cache s) id (device m')))))
      | None => None
      end
  end.

(** [mgr.lock().get_block_cache(id, device).lock().read(..)] and the same with [modify]: the
    buffer is released at the end of the statement. *)
Definition read (fuel : nat) (m : t) (id : Z) : outcome (list Z * t) :=
  '(i, m1) ← unwrap (get_block_cache fuel m id);
  s ← unwrap (cache_pool m1 !! i);
  Ret (BufferCache.read (cache s) (fun b => b), release m1 i).
Definition modify (fuel : nat) (m : t) (id : Z) (f : list Z -> list Z) : outcome t :=
  '(i, m1) ← unwrap (get_block_cache fuel m id);
  Ret (release (update m1 i (fun s => Slot (refs s) (BufferCache.modify (cache s) f))) i).

(** ** What a block reads as *)
Definition dev_block (d : MemBlock.t) (id : Z) : list Z := MemBlock.read_block d id BLOCK_SZ.
Definition cached (l : list slot) (id : Z) : option BufferCache :=
  cache <$> find_first (fun s => block_id (cache s) =? id) l.
Definition block (m : t) (id : Z) : list Z :=
  match cached (cache_pool m) id with Some c => buffer c | None => dev_block (device m) id end.
Definition valid (id : Z) : Prop := 0 <= id < usize_max.

Record slot_ok (d : MemBlock.t) (s : slot) : Prop := {
  so_refs : 1 <= refs s;
  so_priority : 0 <= priority (cache s) <= PRIORITY_UPPERBOUND;
  so_id : block_id (cache s) = usize_max \/ valid (block_id (cache s));
  so_buffer : Z.of_nat (length (buffer (cache s))) = BLOCK_SZ /\ Forall byte_ok (buffer (cache s));
  so_unused : block_id (cache s) = usize_max -> dirty (cache s) = false;
  so_clean : dirty (cache s) = false -> valid (block_id (cache s)) -> buffer (cache s) = dev_block d (block_id (cache s));
}.
Definition distinct (l : list slot) : Prop :=
  forall i j s1 s2, l !! i = Some s1 -> l !! j = Some s2 -> block_id (cache s1) = block_id (cache s2) -> valid (block_id (cache s1)) -> i = j.
Record inv (m : t) : Prop := {
  i_slots : Forall (slot_ok (device m)) (cache_pool m);
  i_distinct : distinct (cache_pool m);
  i_device : forall a, byte_ok (device m a);
}.

Lemma cached_hit l id i s : distinct l -> valid id -> l !! i = Some s -> block_id (cache s) = id -> cached l id = Some (cache s).
Proof.
  intros Hd Hv Hi E. unfold cached. destruct (find_first _ l) as [s'|] eqn:F.
  - apply find_first_Some in F as [(j & Hj)%list_elem_of_lookup_1 E'%Z.eqb_eq]. cbn. do 2 f_equal.
    assert (i = j) as <-; [|congruence]. eapply Hd; [exact Hi|exact Hj|congruence|congruence].
  - exfalso. rewrite find_first_None in F. specialize (F s). rewrite E, Z.eqb_refl in F.
    discriminate F. by eapply list_elem_of_lookup_2.
Qed.
Lemma cached_miss l id : (forall i s, l !! i = Some s -> block_id (cache s) <> id) -> cached l id = None.
Proof.
  intros H. unfold cached. destruct (find_first _ l) as [s|] eqn:F; [|done].
  apply find_first_Some in F as [(j & Hj)%list_elem_of_lookup_1 E%Z.eqb_eq]. by destruct (H j s Hj).
Qed.
Lemma cached_None l id : cached l id = None -> forall i s, l !! i = Some s -> block_id (cache s) <> id.
Proof.
  unfold cached. destruct (find_first _ l) as [s'|] eqn:F; [done|]. intros _ i s Hi E. rewrite find_first_None in F.
  specialize (F s). rewrite E, Z.eqb_refl in F. discriminate F. by eapply list_elem_of_lookup_2.
Qed.
Lemma cached_Some l id c : cached l id = Some c -> exists i s, l !! i = Some s /\ cache s = c /\ block_id c = id.
Proof.
  unfold cached. destruct (find_first _ l) as [s|] eqn:F; [|done]. intros [= <-]. apply find_first_Some in F as [(j & Hj)%list_elem_of_lookup_1 E%Z.eqb_eq].
  by exists j, s.
Qed.

(** Replacing one slot by one of the same block and bytes changes nothing that can be seen. *)
Lemma block_same l i s s' d id : l !! i = Some s -> block_id (cache s') = block_id (cache s) -> buffer (cache s') = buffer (cache s) ->
  block (Mk (<[i := s']> l) d) id = block (Mk l d) id.
Proof.
  intros Hi E1 E2. unfold block, cached. cbn [cache_pool device]. revert i Hi. induction l as [|x l IH]; intros [|i] Hi; try done.
  - injection Hi as ->. cbn. rewrite E1. by destruct (block_id (cache s) =? id); cbn; [rewrite E2|].
  - cbn in *. destruct (block_id (cache x) =? id); [done|]. by apply IH.
Qed.
Lemma distinct_insert l i s : distinct l -> (valid (block_id (cache s)) -> forall j x, j <> i -> l !! j = Some x -> block_id (cache x) <> block_id (cache s)) ->
  distinct (<[i := s]> l).
Proof.
  intros Hd Hs j k s1 s2 H1 H2 E Hv. apply list_lookup_insert_Some in H1 as [(-> & -> & _)|[N1 H1]]; apply list_lookup_insert_Some in H2 as [(-> & -> & _)|[N2 H2]]; [done| | |by eapply Hd].
  - by destruct (Hs Hv k s2 (not_eq_sym N2) H2).
  - rewrite E in Hv. by destruct (Hs Hv j s1 (not_eq_sym N1) H1).
Qed.
Lemma inv_same m i s s' : inv m -> cache_pool m !! i = Some s -> slot_ok (device m) s' -> block_id (cache s') = block_id (cache s) ->
  inv (Mk (<[i := s']> (cache_pool m)) (device m)).
Proof.
  intros [H1 H2 H3] Hi Hs E. split; [by apply Forall_insert| |done]. apply distinct_insert; [done|]. rewrite E. intros Hv j x N Hj E'.
  apply N. eapply H2; [exact Hj|exact Hi|done|by rewrite E'].
Qed.

Lemma dev_block_write_same d id b : Z.of_nat (length b) = BLOCK_SZ -> dev_block (MemBlock.write_block d id b) id = b.
Proof. intros H. unfold dev_block. rewrite <- H. apply MemBlock.read_write_same. Qed.
Lemma dev_block_write_ne d id b id' : Z.of_nat (length b) = BLOCK_SZ -> id <> id' -> dev_block (MemBlock.write_block d id b) id' = dev_block d id'.
Proof. intros H Hne. apply MemBlock.read_write_apart. rewrite H. unfold BLOCK_SZ. lia. Qed.
Lemma dev_block_ok d id : (forall a, byte_ok (d a)) -> Z.of_nat (length (dev_block d id)) = BLOCK_SZ /\ Forall byte_ok (dev_block d id).
Proof.
  intros H. unfold dev_block, MemBlock.read_block. rewrite length_map, length_seqZ. split; [unfold BLOCK_SZ; lia|].
  apply Forall_map, Forall_forall. intros. apply H.
Qed.
Lemma write_block_ok d id b : (forall a, byte_ok (d a)) -> Forall byte_ok b -> forall a, byte_ok (MemBlock.write_block d id b a).
Proof.
  intros Hd Hb a. unfold MemBlock.write_block. destruct ((_ <=? a) && (a <? _)) eqn:E; [|apply Hd].
  apply andb_true_iff in E as [E1%Z.leb_le E2%Z.ltb_lt]. eapply Forall_lookup_1; [exact Hb|]. apply list_lookup_lookup_total_lt. lia.
Qed.

(** Taking a slot out of use after writing it back. *)
Lemma buffer_evict_ok m i s d' : inv m -> cache_pool m !! i = Some s -> refs s <= 1 -> priority (cache s) = 0 ->
  d' = (if dirty (cache s) then MemBlock.write_block (device m) (block_id (cache s)) (buffer (cache s)) else device m) ->
  let m' := Mk (<[i := Slot (refs s) (Buf 0 usize_max false (buffer (cache s)))]> (cache_pool m)) d' in
  inv m' /\ forall id, valid id -> block m' id = block m id.
Proof.
  intros Hi Hl Hr Hp Ed m'. pose proof Hi as [H1 H2 H3]. pose proof (Forall_lookup_1 _ _ _ _ H1 Hl) as Hs. pose proof Hs as [R P I [L B] U C].
  assert (forall j x, j <> i -> cache_pool m !! j = Some x -> valid (block_id (cache x)) -> block_id (cache x) <> block_id (cache s)) as Hne.
  { intros j x N Hx Hv E. apply N. eapply H2; [exact Hx|exact Hl|done|done]. }
  assert (forall id, (dirty (cache s) = true -> id <> block_id (cache s)) -> dev_block d' id = dev_block (device m) id) as Hdev.
  { intros id Hid. subst d'. destruct (dirty (cache s)) eqn:Di; [|done]. apply dev_block_write_ne; [done|]. by apply not_eq_sym, Hid. }
  assert (forall id, valid id -> block m' id = block m id) as Hb.
  { intros id Hv. unfold block. cbn [m' cache_pool device]. destruct (decide (id = block_id (cache s))) as [->|Hid].
    - rewrite (cached_hit _ _ i s H2 Hv Hl eq_refl). rewrite cached_miss.
      + subst d'. destruct (dirty (cache s)) eqn:Di; [by apply dev_block_write_same|]. symmetry. by apply C.
      + intros j x Hj. apply list_lookup_insert_Some in Hj as [(<- & <- & _)|[N Hj]]; [cbn; unfold valid in Hv; lia|].
        intros E. eapply Hne; [exact (not_eq_sym N)|exact Hj|congruence|done].
    - destruct (cached (cache_pool m) id) as [c|] eqn:Ec.
      + apply cached_Some in Ec as (j & x & Hj & <- & E). assert (j <> i) as N by (intros ->; rewrite Hl in Hj; injection Hj as ->; congruence).
        rewrite (cached_hit (<[i:=_]> (cache_pool m)) id j x); [done| |done|by rewrite list_lookup_insert_ne|done].
        apply distinct_insert; [done|]. cbn. unfold valid. lia.
      + rewrite cached_miss; [apply Hdev; congruence|]. intros j x Hj. apply list_lookup_insert_Some in Hj as [(<- & <- & _)|[N Hj]]; [cbn; unfold valid in Hv; lia|].
        by eapply cached_None. }
  split; [|exact Hb]. split; cbn [m' cache_pool device].
  - apply Forall_lookup_2. intros j x Hj. apply list_lookup_insert_Some in Hj as [(<- & <- & _)|[N Hj]].
    + split; cbn; [done|unfold PRIORITY_UPPERBOUND; lia|by left|done|done|]. unfold valid. lia.
    + pose proof (Forall_lookup_1 _ _ _ _ H1 Hj) as [R' P' I' B' U' C']. split; [done..|]. intros Dx Vx. rewrite C' by done. symmetry. apply Hdev.
      intros _. by eapply Hne.
  - apply distinct_insert; [done|]. cbn. unfold valid. lia.
  - subst d'. destruct (dirty (cache s)); [by apply write_block_ok|done].
Qed.

Lemma oom_one_ok m i s s' d' : inv m -> cache_pool m !! i = Some s -> oom_one s (device m) = (s', d') ->
  let m' := Mk (<[i := s']> (cache_pool m)) d' in inv m' /\ forall id, valid id -> block m' id = block m id.
Proof.
  intros Hi Hl. pose proof (Forall_lookup_1 _ _ _ _ (i_slots _ Hi) Hl) as Hs. pose proof Hs as [R P I B U C]. unfold oom_one.
  destruct (Z.ltb_spec 1 (refs s)).
  { intros [= <- <-]. rewrite list_insert_id by done. by destruct m. }
  destruct (Z.ltb_spec 0 (priority (cache s))).
  - intros [= <- <-]. split; [|intros; by apply (block_same _ _ s)]. apply (inv_same m i s); [done|done| |done].
    split; cbn; [done|lia|done..].
  - destruct (dirty (cache s)) eqn:Di; intros [= <- <-]; replace (priority (cache s)) with 0 by lia; apply buffer_evict_ok; try done; try lia; by rewrite Di.
Qed.

Lemma insert_middle {A} (l1 l2 : list A) x y : <[length l1 := y]> (l1 ++ x :: l2) = l1 ++ y :: l2.
Proof. induction l1 as [|z l1 IH]; [done|]. cbn. by rewrite <- IH. Qed.
Lemma oom_pool_ok l : forall pre d l' d', inv (Mk (pre ++ l) d) -> oom_pool l d = (l', d') ->
  inv (Mk (pre ++ l') d') /\ forall id, valid id -> block (Mk (pre ++ l') d') id = block (Mk (pre ++ l) d) id.
Proof.
  induction l as [|s l IH]; intros pre d l' d' Hi; cbn [oom_pool]; [intros [= <- <-]; done|].
  destruct (oom_one s d) as [s' d1] eqn:E1. destruct (oom_pool l d1) as [l2 d2] eqn:E2. intros [= <- <-].
  destruct (oom_one_ok (Mk (pre ++ s :: l) d) (length pre) s s' d1 Hi) as [Hi1 Hb1]; [by apply list_lookup_middle|done|].
  cbn [cache_pool] in *. rewrite insert_middle in Hi1, Hb1.
  replace (pre ++ s' :: l) with ((pre ++ [s']) ++ l) in * by (by rewrite <- app_assoc).
  destruct (IH (pre ++ [s']) d1 l2 d2 Hi1 E2) as [Hi2 Hb2]. rewrite <- app_assoc in Hi2, Hb2. split; [done|].
  intros id Hv. by rewrite Hb2, Hb1.
Qed.
Lemma oom_ok m : inv m -> inv (oom m) /\ forall id, valid id -> block (oom m) id = block m id.
Proof. intros Hi. unfold oom. destruct m as [l d]. cbn [cache_pool device]. destruct (oom_pool l d) as [l' d'] eqn:E. by apply (oom_pool_ok l [] d l' d'). Qed.

Lemma position_Some p l : forall k j, position p l k = Some j -> exists s, l !! (j - k)%nat = Some s /\ p (cache s) = true /\ (k <= j)%nat.
Proof.
  induction l as [|x l IH]; intros k j; cbn [position]; [done|]. destruct (p (cache x)) eqn:E.
  - intros [= <-]. exists x. rewrite Nat.sub_diag. done.
  - intros H. destruct (IH (S k) j H) as (s & Hl & Hp & Hle). exists s. split; [|split; [done|lia]]. replace (j - k)%nat with (S (j - S k)) by lia. done.
Qed.
Lemma position_None p l : forall k, position p l k = None -> forall s, s ∈ l -> p (cache s) = false.
Proof.
  induction l as [|x l IH]; intros k; cbn [position]; [by intros _ s ?%elem_of_nil|]. destruct (p (cache x)) eqn:E; [done|].
  intros H s [->|Hs]%elem_of_cons; [done|by eapply IH].
Qed.

Lemma oom_pool_lookup l : forall d l' d' i s, oom_pool l d = (l', d') -> l !! i = Some s -> exists d0, l' !! i = Some (fst (oom_one s d0)).
Proof.
  induction l as [|x l IH]; intros d l' d' i s; cbn [oom_pool]; [done|]. destruct (oom_one x d) as [x' d1] eqn:E1. destruct (oom_pool l d1) as [l2 d2] eqn:E2.
  intros [= <- <-]. destruct i as [|i]; [intros [= <-]; exists d; by rewrite E1|]. intros Hs. exact (IH d1 l2 d2 i s E2 Hs).
Qed.
(** Every round of write-back brings a buffer nobody uses closer to being free. *)
Lemma oom_progress m i s : cache_pool m !! i = Some s -> refs s <= 1 -> exists s', cache_pool (oom m) !! i = Some s' /\ refs s' = refs s /\
  if 0 <? priority (cache s) then priority (cache s') = priority (cache s) - 1 else block_id (cache s') = usize_max.
Proof.
  intros Hi Hr. unfold oom. destruct (oom_pool (cache_pool m) (device m)) as [l d] eqn:E. destruct (oom_pool_lookup _ _ _ _ _ _ E Hi) as [d0 Hl].
  cbn [cache_pool]. eexists. split; [exact Hl|]. unfold oom_one. rewrite (proj2 (Z.ltb_ge _ _)) by done. destruct (0 <? priority (cache s)); [done|].
  destruct (dirty (cache s)); done.
Qed.

Definition same_blocks (m m' : t) : Prop := forall id, valid id -> block m' id = block m id.

(** What [alloc_buffer_cache] returns: a buffer that is not in use, in a pool that reads the same. *)
Definition allocated (m : t) (r : option (nat * t)) : Prop := exists j m' x, r = Some (j, update m' j clone) /\ inv m' /\ same_blocks m m' /\
  cache_pool m' !! j = Some x /\ block_id (cache x) = usize_max /\ refs <$> cache_pool m' = refs <$> cache_pool m /\
  (forall id, valid id -> cached (cache_pool m) id = None -> cached (cache_pool m') id = None).

Lemma oom_refs m : refs <$> cache_pool (oom m) = refs <$> cache_pool m.
Proof.
  unfold oom. destruct m as [l d]. cbn [cache_pool device]. destruct (oom_pool l d) as [l' d'] eqn:E. cbn [cache_pool]. revert d l' d' E.
  induction l as [|x l IH]; intros d l' d' E; cbn [oom_pool] in E; [by injection E as <- <-|].
  destruct (oom_one x d) as [x' d1] eqn:E1. destruct (oom_pool l d1) as [l2 d2] eqn:E2. injection E as <- <-. rewrite !fmap_cons. f_equal; [|by eapply IH].
  unfold oom_one in E1. destruct (1 <? refs x); [by injection E1 as <- <-|]. destruct (0 <? _); [by injection E1 as <- <-|].
  by destruct (dirty (cache x)); injection E1 as <- <-.
Qed.
Lemma oom_uncached m id : valid id -> cached (cache_pool m) id = None -> cached (cache_pool (oom m)) id = None.
Proof.
  intros Hv Hc. apply cached_miss. intros j s' Hj. assert (is_Some (cache_pool m !! j)) as [s Hs].
  { apply lookup_lt_is_Some. pose proof (f_equal length (oom_refs m)) as E. rewrite !length_fmap in E. rewrite <- E. by eapply lookup_lt_Some. }
  pose proof (cached_None _ _ Hc j s Hs) as Hne. unfold oom in Hj. destruct (oom_pool (cache_pool m) (device m)) as [l d] eqn:E.
  destruct (oom_pool_lookup _ _ _ _ _ _ E Hs) as [d0 Hl]. cbn [cache_pool] in Hj. rewrite Hl in Hj. injection Hj as <-.
  unfold oom_one. destruct (1 <? refs s); [done|]. destruct (0 <? _); [done|]. unfold valid in Hv. destruct (dirty (cache s)); cbn; lia.
Qed.
Lemma allocated_oom m r : inv m -> allocated (oom m) r -> allocated m r.
Proof.
  intros Hi (j & m' & x & -> & Hi' & Hb & Hx & E & Hr & Hc). exists j, m', x. split; [done|]. split; [done|]. split; [|split; [done|split; [done|split; [by rewrite Hr, oom_refs|]]]].
  - intros id Hv. rewrite Hb by done. by apply oom_ok.
  - intros id Hv Hn. apply Hc; [done|]. by apply oom_uncached.
Qed.
Lemma alloc_step fuel m : inv m -> (position (fun c => block_id c =? usize_max) (cache_pool m) 0 = None -> allocated m (alloc_buffer_cache fuel (oom m))) ->
  allocated m (alloc_buffer_cache (S fuel) m).
Proof.
  intros Hi H. cbn [alloc_buffer_cache]. destruct (position _ _ 0) as [j|] eqn:Ep; [|by apply H].
  apply position_Some in Ep as (x & Hx & Hp & _). rewrite Nat.sub_0_r in Hx. exists j, m, x. split; [done|]. split; [done|]. split; [done|]. split; [done|].
  split; [by apply Z.eqb_eq|done].
Qed.
Lemma alloc_free fuel m i s : inv m -> cache_pool m !! i = Some s -> block_id (cache s) = usize_max -> (0 < fuel)%nat -> allocated m (alloc_buffer_cache fuel m).
Proof.
  intros Hi Hs E Hf. destruct fuel as [|fuel]; [lia|]. apply alloc_step; [done|]. intros Hn. exfalso.
  assert (block_id (cache s) =? usize_max = false) as Hp by (apply (position_None _ _ 0 Hn s); by eapply list_elem_of_lookup_2). by rewrite E in Hp.
Qed.
Lemma alloc_buffer_cache_ok p : forall fuel m i s, inv m -> cache_pool m !! i = Some s -> refs s <= 1 -> priority (cache s) <= Z.of_nat p -> (S p < fuel)%nat ->
  allocated m (alloc_buffer_cache fuel m).
Proof.
  induction p as [|p IH]; intros [|fuel] m i s Hi Hs Hr Hp Hf; try lia; (apply alloc_step; [done|]); intros _; apply allocated_oom; try done;
    destruct (oom_progress m i s Hs Hr) as (s' & Hs' & Hr' & Hpr); destruct (oom_ok m Hi) as [Hi' _]; destruct (Z.ltb_spec 0 (priority (cache s))); try lia.
  - apply (alloc_free _ _ i s'); [done|done|done|lia].
  - apply (IH fuel _ i s'); [done|done|lia|lia|lia].
  - apply (alloc_free _ _ i s'); [done|done|done|lia].
Qed.

(** ** The cache as a store of blocks *)

(** Nobody holds a buffer. *)
Definition idle (m : t) : Prop := cache_pool m <> [] /\ Forall (fun s => refs s = 1) (cache_pool m).
Definition ok (m : t) : Prop := inv m /\ idle m.

(** A buffer is handed out: slot [i] of [m'] holds block [id] of [m]; the other slots may have been
    written back. *)
Definition handed (m : t) (id : Z) (i : nat) (m' : t) : Prop := inv m' /\ same_blocks m m' /\ exists s, cache_pool m' !! i = Some s /\
  block_id (cache s) = id /\ buffer (cache s) = block m id /\ refs <$> cache_pool m' = alter (Z.add 1) i (refs <$> cache_pool m).

Lemma alter_insert {A} (f : A -> A) (l : list A) i x : l !! i = Some x -> alter f i l = <[i := f x]> l.
Proof. revert i. induction l as [|y l IH]; intros [|i] H; try done; cbn in *; [by injection H as ->|]. f_equal. by apply IH. Qed.
Lemma update_insert m i s f : cache_pool m !! i = Some s -> update m i f = Mk (<[i := f s]> (cache_pool m)) (device m).
Proof. intros H. unfold update. by rewrite (alter_insert f _ _ s). Qed.
Lemma block_other (l : list slot) (i : nat) s s' d id : l !! i = Some s -> id <> block_id (cache s) -> id <> block_id (cache s') ->
  block (Mk (<[i := s']> l) d) id = block (Mk l d) id.
Proof.
  intros Hi E1 E2. unfold block, cached. cbn [cache_pool device]. revert i Hi. induction l as [|x l IH]; intros [|i] Hi; try done.
  - injection Hi as ->. cbn. by rewrite !(proj2 (Z.eqb_neq _ _)) by congruence.
  - cbn in *. destruct (block_id (cache x) =? id); [done|]. by apply IH.
Qed.
Lemma raise_ok c : 0 <= priority c <= PRIORITY_UPPERBOUND -> let c' := BufferCache.raise c in
  0 <= priority c' <= PRIORITY_UPPERBOUND /\ block_id c' = block_id c /\ dirty c' = dirty c /\ buffer c' = buffer c.
Proof. intros H. unfold BufferCache.raise. destruct (Z.ltb_spec (priority c) PRIORITY_UPPERBOUND); cbn; unfold PRIORITY_UPPERBOUND in *; split; done || lia. Qed.
Lemma slot_ok_raise d s n : slot_ok d s -> 1 <= n -> slot_ok d (Slot n (BufferCache.raise (cache s))).
Proof.
  intros [R P I B U C] Hn. destruct (raise_ok _ P) as (P' & E1 & E2 & E3). split; cbn; rewrite ?E1, ?E2, ?E3; done.
Qed.
Lemma refs_insert (l : list slot) (i : nat) s s' : l !! i = Some s -> refs s' = refs s + 1 -> refs <$> <[i := s']> l = alter (Z.add 1) i (refs <$> l).
Proof. intros H E. rewrite list_fmap_insert, E, (alter_insert _ _ _ (refs s)); [by rewrite Z.add_comm|]. by rewrite list_lookup_fmap, H. Qed.

Lemma get_hit m id i : inv m -> valid id -> position (fun c => block_id c =? id) (cache_pool m) 0 = Some i ->
  handed m id i (update m i (fun s => clone (Slot (refs s) (BufferCache.raise (cache s))))).
Proof.
  intros Hi Hv Hp. apply position_Some in Hp as (s & Hs & E%Z.eqb_eq & _). rewrite Nat.sub_0_r in Hs. rewrite (update_insert m i s) by done.
  pose proof (Forall_lookup_1 _ _ _ _ (i_slots _ Hi) Hs) as Hok. destruct (raise_ok _ (so_priority _ _ Hok)) as (_ & E1 & _ & E3). unfold clone. cbn [refs cache].
  split; [|split].
  - apply (inv_same m i s); [done|done| |done]. apply slot_ok_raise; [done|]. pose proof (so_refs _ _ Hok). lia.
  - intros j Hj. destruct m. by apply (block_same _ _ s).
  - eexists. split; [apply list_lookup_insert_eq; by eapply lookup_lt_Some|]. cbn [cache]. split; [by rewrite E1|]. split; [|by apply (refs_insert _ _ s)].
    rewrite E3. unfold block. by rewrite (cached_hit _ _ i s (i_distinct _ Hi) Hv Hs E).
Qed.
Lemma get_miss m m1 id j x : inv m1 -> valid id -> same_blocks m m1 -> cache_pool m1 !! j = Some x -> block_id (cache x) = usize_max ->
  refs <$> cache_pool m1 = refs <$> cache_pool m -> cached (cache_pool m1) id = None ->
  handed m id j (update (update m1 j clone) j (fun s => Slot (refs s) (BufferCache.raise (BufferCache.read_block (cache s) id (device (update m1 j clone)))))).
Proof.
  intros Hi Hv Hb Hx Ex Er Hc. pose proof (Forall_lookup_1 _ _ _ _ (i_slots _ Hi) Hx) as [R P I [L B] U C].
  rewrite (update_insert m1 j x) by done. cbn [device]. rewrite (update_insert _ j (clone x)) by (apply list_lookup_insert_eq; by eapply lookup_lt_Some).
  cbn [cache_pool device]. rewrite list_insert_insert_eq. unfold clone. cbn [refs cache]. set (c := BufferCache.read_block (cache x) id (device m1)).
  destruct (raise_ok c P) as (P' & E1 & E2 & E3). assert (buffer c = block m id) as Ebuf by (rewrite <- Hb by done; unfold block; by rewrite Hc).
  assert (distinct (<[j := Slot (refs x + 1) (BufferCache.raise c)]> (cache_pool m1))) as Hd.
  { apply distinct_insert; [apply Hi|]. cbn [cache]. rewrite E1. intros _ k y N Hy. by eapply cached_None. }
  split; [|split].
  - split; cbn [cache_pool device]; [|done|apply Hi]. apply Forall_insert; [apply Hi|]. destruct (dev_block_ok (device m1) id (i_device _ Hi)) as [Ld Bd].
    split; cbn [refs cache]; rewrite ?E1, ?E2, ?E3; [lia|done|by right|done|by intros; apply U|done].
  - intros k Hk. unfold same_blocks in Hb. destruct (decide (k = id)) as [->|Hne].
    + unfold block at 1. cbn [cache_pool]. rewrite (cached_hit _ id j (Slot (refs x + 1) (BufferCache.raise c)) Hd Hv); [by cbn [cache]; rewrite E3|apply list_lookup_insert_eq; by eapply lookup_lt_Some|by cbn [cache]; rewrite E1].
    + rewrite <- (Hb k Hk). destruct m1. apply (block_other _ _ x); [done|unfold valid in Hk; lia|cbn [cache]; by rewrite E1].
  - eexists. split; [apply list_lookup_insert_eq; by eapply lookup_lt_Some|]. cbn [cache]. rewrite E1, E3. split; [done|]. split; [done|]. rewrite <- Er. by apply (refs_insert _ _ x).
Qed.

Lemma get_block_cache_ok m id : ok m -> valid id -> exists i m', get_block_cache 3 m id = Some (i, m') /\ handed m id i m'.
Proof.
  intros [Hi [Hne Hr]] Hv. unfold get_block_cache, try_get_block_cache. destruct (position _ _ 0) as [i|] eqn:Ep; [by eexists _, _; split; [done|apply get_hit]|].
  assert (exists s, cache_pool m !! 0%nat = Some s) as [s Hs] by (destruct (cache_pool m) as [|s ?]; [done|by exists s]).
  pose proof (Forall_lookup_1 _ _ _ _ (i_slots _ Hi) Hs) as Hok. pose proof (Forall_lookup_1 _ _ _ _ Hr Hs) as Hr1. cbn in Hr1.
  destruct (alloc_buffer_cache_ok 1 3 m 0 s Hi Hs ltac:(lia)) as (j & m1 & x & -> & Hi1 & Hb & Hx & Ex & Er & Hc); [apply Hok|lia|].
  eexists _, _. split; [done|]. eapply get_miss; try done. apply Hc; [done|]. apply cached_miss. intros k y Hy.
  assert (block_id (cache y) =? id = false) as E by (apply (position_None _ _ 0 Ep y); by eapply list_elem_of_lookup_2). by apply Z.eqb_neq.
Qed.

(** Releasing the buffer again. *)
Lemma buffer_release_ok m i m' s : idle m -> inv m' -> cache_pool m' !! i = Some s -> refs <$> cache_pool m' = alter (Z.add 1) i (refs <$> cache_pool m) ->
  ok (release m' i) /\ forall id, block (release m' i) id = block m' id.
Proof.
  intros [Hne Hr] Hi Hs Er. unfold release. rewrite (update_insert m' i s) by done.
  assert (length (cache_pool m') = length (cache_pool m)) as Hlen by (pose proof (f_equal length Er) as E'; by rewrite length_alter, !length_fmap in E').
  assert (forall j x, cache_pool m' !! j = Some x -> refs x = if decide (j = i) then 2 else 1) as Href.
  { intros j x Hj. pose proof (f_equal (lookup j) Er) as Ej. rewrite list_lookup_fmap, Hj in Ej. cbn in Ej.
    assert (is_Some (cache_pool m !! j)) as [y Hy] by (apply lookup_lt_is_Some; rewrite <- Hlen; by eapply lookup_lt_Some).
    pose proof (Forall_lookup_1 _ _ _ _ Hr Hy) as Hy1. cbn in Hy1. destruct (decide (j = i)) as [->|N].
    - rewrite list_lookup_alter_eq, list_lookup_fmap, Hy in Ej. cbn in Ej. injection Ej as ->. lia.
    - rewrite list_lookup_alter_ne, list_lookup_fmap, Hy in Ej by congruence. cbn in Ej. injection Ej as ->. done. }
  pose proof (Forall_lookup_1 _ _ _ _ (i_slots _ Hi) Hs) as [R P I B U C]. pose proof (Href i s Hs) as R2. rewrite decide_True in R2 by done.
  split; [split|].
  - apply (inv_same m' i s); [done|done| |done]. by split; cbn; [lia|..].
  - split; cbn [cache_pool].
    + intros H. apply (f_equal length) in H. rewrite length_insert in H. destruct (cache_pool m); [done|]. cbn in *. lia.
    + apply Forall_lookup_2. intros j x Hj. apply list_lookup_insert_Some in Hj as [(<- & <- & _)|[N Hj]]; [cbn; lia|].
      rewrite (Href j x Hj), decide_False by congruence. done.
  - intros j. destruct m'. by apply (block_same _ _ s).
Qed.

Lemma block_cache_read m id : ok m -> valid id -> exists m', read 3 m id = Ret (block m id, m') /\ ok m' /\ forall j, valid j -> block m' j = block m j.
Proof.
  intros Hok Hv. destruct (get_block_cache_ok m id Hok Hv) as (i & m1 & Eg & Hh). pose proof Hh as (Hi & Hb & s & Hs & E & Ebuf & Er).
  destruct (buffer_release_ok m i m1 s (proj2 Hok) Hi Hs Er) as [Hok' Hb']. unfold read. rewrite Eg. cbn [unwrap mbind outcome_bind]. rewrite Hs. cbn [unwrap mbind outcome_bind].
  unfold BufferCache.read. rewrite Ebuf. eexists. split; [done|]. split; [done|]. intros j Hj. rewrite Hb'. by apply Hb.
Qed.
Lemma update_refs m i f : (forall s, refs (f s) = refs s) -> refs <$> cache_pool (update m i f) = refs <$> cache_pool m.
Proof.
  intros H. unfold update. cbn [cache_pool]. generalize i. induction (cache_pool m) as [|s l IH]; intros [|k]; cbn; [done|done|by rewrite H|]. f_equal. apply IH.
Qed.
Lemma block_cache_modify m id f : ok m -> valid id -> Z.of_nat (length (f (block m id))) = BLOCK_SZ -> Forall byte_ok (f (block m id)) ->
  exists m', modify 3 m id f = Ret m' /\ ok m' /\ forall j, valid j -> block m' j = if decide (j = id) then f (block m id) else block m j.
Proof.
  intros Hok Hv L F. destruct (get_block_cache_ok m id Hok Hv) as (i & m1 & Eg & (Hi & Hb & s & Hs & E & Ebuf & Er)).
  unfold modify. rewrite Eg. cbn [unwrap mbind outcome_bind]. set (g := fun s => Slot (refs s) (BufferCache.modify (cache s) f)).
  pose proof (Forall_lookup_1 _ _ _ _ (i_slots _ Hi) Hs) as [R P I B U C].
  assert (update m1 i g = Mk (<[i := g s]> (cache_pool m1)) (device m1)) as Eu by (by apply update_insert).
  assert (inv (update m1 i g)) as Hi2.
  { rewrite Eu. apply (inv_same m1 i s); [done|done| |done]. split; cbn; [done|done|done|by rewrite Ebuf| |done]. unfold valid in Hv. lia. }
  assert (cache_pool (update m1 i g) !! i = Some (g s)) as Hl by (rewrite Eu; apply list_lookup_insert_eq; by eapply lookup_lt_Some).
  destruct (buffer_release_ok m i (update m1 i g) (g s) (proj2 Hok) Hi2 Hl) as [Hok' Hb']; [by rewrite update_refs|].
  eexists. split; [done|]. split; [done|]. intros j Hj. rewrite Hb'. case_decide as D.
  - subst j. unfold block at 1. rewrite (cached_hit _ id i (g s) (i_distinct _ Hi2) Hv Hl); [cbn; by rewrite Ebuf|done].
  - rewrite <- Hb by done. rewrite Eu. destruct m1. apply (block_other _ _ s); [done|by rewrite E|cbn; by rewrite E].
Qed.

#[global] Instance block_store : BlockStore t := { bs_read := read 3; bs_modify := modify 3; bs_block := block }.
#[global] Instance block_store_ok : BlockStoreOk t valid ok.
Proof.
  split.
  - intros m id [Hi _] Hv. cbn. unfold block. destruct (cached (cache_pool m) id) as [c|] eqn:E; [|by apply dev_block_ok; apply Hi].
    apply cached_Some in E as (j & s & Hj & <- & _). by destruct (Forall_lookup_1 _ _ _ _ (i_slots _ Hi) Hj).
  - intros. by apply block_cache_read.
  - intros. by apply block_cache_modify.
Qed.

(** ** Against a plain device *)
Inductive op : Type := Read (id : Z) | Modify (id : Z) (f : list Z -> list Z).
Definition op_ok (o : op) : Prop :=
  match o with
  | Read id => valid id
  | Modify id f => valid id /\ forall b, Z.of_nat (length b) = BLOCK_SZ -> Forall byte_ok b -> Z.of_nat (length (f b)) = BLOCK_SZ /\ Forall byte_ok (f b)
  end.
Fixpoint run (m : t) (ops : list op) : outcome (list (list Z) * t) :=
  match ops with
  | [] => Ret ([], m)
  | Read id :: ops => '(b, m1) ← read 3 m id; '(bs, m2) ← run m1 ops; Ret (b :: bs, m2)
  | Modify id f :: ops => m1 ← modify 3 m id f; run m1 ops
  end.
Fixpoint plain (d : Z -> list Z) (ops : list op) : list (list Z) :=
  match ops with
  | [] => []
  | Read id :: ops => d id :: plain d ops
  | Modify id f :: ops => plain (fun j => if decide (j = id) then f (d id) else d j) ops
  end.
Lemma plain_ext ops : Forall op_ok ops -> forall d d', (forall j, valid j -> d j = d' j) -> plain d ops = plain d' ops.
Proof.
  induction 1 as [|o ops Ho Hops IH]; intros d d' E; [done|]. destruct o as [id|id f]; cbn in *.
  - rewrite (E id Ho). f_equal. by apply IH.
  - apply IH. intros j Hj. case_decide; [by rewrite E by apply Ho|by apply E].
Qed.

(** C25: The block cache cannot be seen. For every sequence of reads and changes of blocks, the
    reads give what a plain array of blocks would give, whatever the cache holds and
    writes back on the way; no read or change runs out of buffers. *)
Theorem block_cache_refines ops : Forall op_ok ops -> forall m, ok m -> exists m', run m ops = Ret (plain (block m) ops, m') /\ ok m'.
Proof.
  induction 1 as [|o ops Ho Hops IH]; intros m Hm; [by exists m|]. destruct o as [id|id f]; cbn [run plain].
  - destruct (block_cache_read m id Hm Ho) as (m1 & -> & Hm1 & Hb). cbn [mbind outcome_bind]. destruct (IH m1 Hm1) as (m2 & -> & Hm2). cbn [mbind outcome_bind].
    exists m2. split; [|done]. do 3 f_equal. by apply plain_ext.
  - destruct Ho as [Hv Hf]. destruct (bs_length m id Hm Hv) as [L B]. destruct (Hf _ L B) as [L' B'].
    destruct (block_cache_modify m id f Hm Hv L' B') as (m1 & -> & Hm1 & Hb). cbn [mbind outcome_bind]. destruct (IH m1 Hm1) as (m2 & -> & Hm2).
    exists m2. split; [|done]. do 2 f_equal. by apply plain_ext.
Qed.

Lemma block_cache_new_ok fresh d : fresh <> [] -> Forall (fun b => Z.of_nat (length b) = BLOCK_SZ /\ Forall byte_ok b) fresh -> (forall a, byte_ok (d a)) -> ok (new fresh d).
Proof.
  intros Hne Hf Hd. unfold new. split; [split|split]; cbn [cache_pool device]; try done.
  - apply Forall_fmap. eapply Forall_impl; [exact Hf|]. intros b Hb. split; cbn; [lia|unfold PRIORITY_UPPERBOUND; lia|by left|done|done|]. unfold valid. lia.
  - intros i j s1 s2 H1 _ _ Hv. rewrite list_lookup_fmap in H1. destruct (fresh !! i); [|done]. injection H1 as <-. unfold valid in Hv. cbn in Hv. lia.
  - by destruct fresh.
  - apply Forall_fmap. by apply Forall_true.
Qed.
(** One buffer, three blocks. *)
Definition demo_ops : list op := [Modify 5 (fun b => set_bytes b 8 [1; 2; 3]); Read 7; Modify 9 (fun b => b); Read 5].
Lemma block_cache_refines_witness : exists m', run (new [replicate 512 0] (fun _ => 0)) demo_ops = Ret (plain (block (new [replicate 512 0] (fun _ => 0))) demo_ops, m') /\ ok m'.
Proof.
  apply (block_cache_refines demo_ops).
  - unfold demo_ops. repeat (apply Forall_cons_2 || apply Forall_nil_2); cbn; unfold valid, usize_max; try (split; [lia|]); try lia; intros b Hl Hb; [|done].
    rewrite set_bytes_length by (unfold BLOCK_SZ in Hl; cbn; lia). split; [done|]. apply set_bytes_Forall; [done|]. repeat constructor; unfold byte_ok; lia.
  - apply block_cache_new_ok; [done| |intros; unfold byte_ok; lia]. apply Forall_singleton. split; [done|]. apply Forall_replicate. unfold byte_ok. lia.
Defined.
End BlockCacheManager.
