(* ===== verification/DiskStore.v ===== *)
(** * DiskStore: one device behind two caches (os/src/fs/cache.rs, os/src/fs/fat32/efs.rs)

    The allocation table is read and changed through the block cache, the data of files through
    page caches that go to the device. [DiskStore] states what a file system relies on when the two
    share a device: the blocks of the one kind are not touched by accesses of the other. It is
    discharged for the block cache of [BlockCache], as long as no data block is in its pool. *)
From S2P Require Import Prelude Bytes PageStore BlockCache.

(** [raw_read] and [raw_write] are [read_block] and [write_block] of the device. *)
Class RawStore (S : Type) := {
  raw_read : S -> Z -> Z -> list Z;
  raw_write : S -> Z -> list Z -> S;
}.
Definition raw_block {S} `{RawStore S} (s : S) (i : Z) : list Z := raw_read s i BLOCK_SZ.

(** A state in which the data blocks hold [R]. *)
Definition holding {S} `{RawStore S} (data : Z -> Prop) (ok : S -> Prop) (R : Z -> list Z) (s : S) : Prop := ok s /\ forall j, data j -> raw_block s j = R j.

(** [meta] blocks go through the block cache, [data] blocks do not: whatever the data blocks hold,
    accesses to [meta] blocks are right and leave it. *)
Class DiskStore (S : Type) `{BlockStore S, RawStore S} (meta data : Z -> Prop) (ok : S -> Prop) := {
  ds_blocks : forall R, BlockStoreOk S meta (holding data ok R);
  ds_length : forall s i, ok s -> Z.of_nat (length (raw_block s i)) = BLOCK_SZ /\ Forall byte_ok (raw_block s i);
  ds_read : forall s i n, 0 <= n -> raw_read s i (n * BLOCK_SZ) = seqZ i n ≫= raw_block s;
  ds_write : forall s i n b, ok s -> 0 <= n -> Z.of_nat (length b) = n * BLOCK_SZ -> Forall byte_ok b -> (forall j, i <= j < i + n -> data j) ->
    ok (raw_write s i b) /\ (forall j, meta j -> bs_block (raw_write s i b) j = bs_block s j) /\
    forall j, data j -> raw_block (raw_write s i b) j = if decide (i <= j < i + n) then get_bytes b ((j - i) * BLOCK_SZ) BLOCK_SZ else raw_block s j;
}.

Module BlockDisk.
Import BlockCacheManager.
#[global] Instance raw_store : RawStore t :=
  { raw_read m id len := MemBlock.read_block (device m) id len; raw_write m id b := Mk (cache_pool m) (MemBlock.write_block (device m) id b) }.

(** The blocks in the pool. *)
Definition ids (l : list slot) : list Z := (fun s => block_id (cache s)) <$> l.
Lemma cached_ids l id : cached l id = None <-> id ∉ ids l.
Proof.
  unfold ids. rewrite list_elem_of_fmap. split.
  - intros H (s & -> & (i & Hi)%list_elem_of_lookup_1). by eapply (cached_None _ _ H i s).
  - intros H. apply cached_miss. intros i s Hi E. apply H. exists s. split; [done|by eapply list_elem_of_lookup_2].
Qed.
Lemma update_ids m i f : (forall s, block_id (cache (f s)) = block_id (cache s)) -> ids (cache_pool (update m i f)) = ids (cache_pool m).
Proof.
  intros H. unfold update, ids. cbn [cache_pool]. generalize i. induction (cache_pool m) as [|s l IH]; intros [|k]; cbn; [done|done|by rewrite H|]. f_equal. apply IH.
Qed.
Lemma raise_id c : block_id (BufferCache.raise c) = block_id c.
Proof. unfold BufferCache.raise. by case_match. Qed.
Lemma alloc_buffer_ids j fuel : valid j -> forall m i m', alloc_buffer_cache fuel m = Some (i, m') -> j ∉ ids (cache_pool m) -> j ∉ ids (cache_pool m').
Proof.
  intros Hv. induction fuel as [|fuel IH]; intros m i m'; cbn [alloc_buffer_cache]; [done|]. destruct (position _ _ 0) as [k|].
  - intros [= <- <-]. by rewrite update_ids by done.
  - intros H Hj. eapply IH; [exact H|]. apply cached_ids. apply oom_uncached; [done|]. by apply cached_ids.
Qed.
(** Reading a block brings only that block into the pool. *)
Lemma get_block_ids fuel m id i m' j : get_block_cache fuel m id = Some (i, m') -> valid j -> j <> id -> j ∉ ids (cache_pool m) -> j ∉ ids (cache_pool m').
Proof.
  unfold get_block_cache, try_get_block_cache. intros H Hv Hne Hj. destruct (position _ _ 0) as [k|].
  - injection H as <- <-. rewrite update_ids; [done|]. intros s. apply raise_id.
  - destruct (alloc_buffer_cache fuel m) as [[k m1]|] eqn:Ea; [|done]. injection H as <- <-. pose proof (alloc_buffer_ids j fuel Hv _ _ _ Ea Hj) as Hj1.
    apply cached_ids, cached_miss. intros x s Hx E. unfold update in Hx. cbn [cache_pool] in Hx. destruct (decide (x = k)) as [->|N].
    + rewrite list_lookup_alter_eq in Hx. apply fmap_Some in Hx as (s0 & _ & ->). cbn [cache] in E. rewrite raise_id in E. by cbn in E.
    + rewrite list_lookup_alter_ne in Hx by done. apply cached_ids in Hj1. by eapply cached_None.
Qed.
Lemma read_ids m id b m' j : read 3 m id = Ret (b, m') -> valid j -> j <> id -> j ∉ ids (cache_pool m) -> j ∉ ids (cache_pool m').
Proof.
  unfold read. destruct (get_block_cache 3 m id) as [[i m1]|] eqn:Eg; cbn [unwrap mbind outcome_bind]; [|done]. destruct (cache_pool m1 !! i); cbn [unwrap mbind outcome_bind]; [|done].
  intros [= _ <-] Hv Hne Hj. unfold release. rewrite update_ids by done. by eapply get_block_ids.
Qed.
Lemma modify_ids m id f m' j : modify 3 m id f = Ret m' -> valid j -> j <> id -> j ∉ ids (cache_pool m) -> j ∉ ids (cache_pool m').
Proof.
  unfold modify. destruct (get_block_cache 3 m id) as [[i m1]|] eqn:Eg; cbn [unwrap mbind outcome_bind]; [|done].
  intros [= <-] Hv Hne Hj. unfold release. rewrite !update_ids by done. by eapply get_block_ids.
Qed.

Lemma read_block_split d i n : MemBlock.read_block d i (Z.of_nat n * BLOCK_SZ) = seqZ i (Z.of_nat n) ≫= dev_block d.
Proof.
  revert i. induction n as [|n IH]; intros i; [done|]. rewrite seqZ_cons by lia. rewrite bind_cons. replace (Z.pred (Z.of_nat (S n))) with (Z.of_nat n) by lia. rewrite <- (IH (Z.succ i)).
  unfold dev_block, MemBlock.read_block. rewrite <- map_app. f_equal. replace (Z.of_nat (S n) * BLOCK_SZ) with (BLOCK_SZ + Z.of_nat n * BLOCK_SZ) by lia.
  rewrite seqZ_app by (unfold BLOCK_SZ; lia). f_equal. f_equal. lia.
Qed.
Lemma dev_block_write d i n b j : Z.of_nat (length b) = n * BLOCK_SZ ->
  dev_block (MemBlock.write_block d i b) j = if decide (i <= j < i + n) then get_bytes b ((j - i) * BLOCK_SZ) BLOCK_SZ else dev_block d j.
Proof.
  intros L. case_decide as D.
  - apply list_eq. intros k. unfold dev_block, MemBlock.read_block. rewrite list_lookup_fmap. destruct (decide (Z.of_nat k < BLOCK_SZ)) as [Hk|Hk].
    + rewrite lookup_seqZ_lt by lia. cbn. rewrite get_bytes_lookup by (unfold BLOCK_SZ in *; lia). unfold MemBlock.write_block.
      rewrite (proj2 (Z.leb_le _ _)), (proj2 (Z.ltb_lt _ _)) by (unfold BLOCK_SZ in *; lia). cbn. symmetry.
      replace (Z.to_nat ((j - i) * BLOCK_SZ) + k)%nat with (Z.to_nat (j * BLOCK_SZ + Z.of_nat k - i * BLOCK_SZ)) by (unfold BLOCK_SZ in *; lia).
      apply list_lookup_lookup_total_lt. unfold BLOCK_SZ in *. lia.
    + rewrite lookup_seqZ_ge by lia. symmetry. apply lookup_ge_None. pose proof (get_bytes_length b ((j - i) * BLOCK_SZ) BLOCK_SZ). unfold BLOCK_SZ in *. lia.
  - apply MemBlock.read_write_apart. unfold BLOCK_SZ in *. lia.
Qed.

Section Regions.
Context {meta data : Z -> Prop} (Hmeta : forall i, meta i -> valid i /\ ~ data i) (Hdata : forall i, data i -> valid i).
(** No data block is in the pool. *)
Definition apart (m : t) : Prop := ok m /\ forall j, data j -> j ∉ ids (cache_pool m).
Lemma raw_block_apart m j : apart m -> data j -> raw_block m j = block m j.
Proof. intros [_ H] Hj. unfold block. by rewrite (proj2 (cached_ids _ j) (H j Hj)). Qed.

Lemma apart_read m i : apart m -> meta i -> exists m', read 3 m i = Ret (block m i, m') /\ apart m' /\ forall j, valid j -> block m' j = block m j.
Proof.
  intros [Hok Hno] Hi. destruct (Hmeta i Hi) as [Hv Hnd]. destruct (block_cache_read m i Hok Hv) as (m' & Er & Hok' & Hb). exists m'. split; [done|]. split; [split; [done|]|done].
  intros j Hj. eapply read_ids; [exact Er|by apply Hdata|by intros ->|by apply Hno].
Qed.
Lemma apart_modify m i f : apart m -> meta i -> Z.of_nat (length (f (block m i))) = BLOCK_SZ -> Forall byte_ok (f (block m i)) ->
  exists m', modify 3 m i f = Ret m' /\ apart m' /\ forall j, valid j -> block m' j = if decide (j = i) then f (block m i) else block m j.
Proof.
  intros [Hok Hno] Hi L B. destruct (Hmeta i Hi) as [Hv Hnd]. destruct (block_cache_modify m i f Hok Hv L B) as (m' & Er & Hok' & Hb). exists m'. split; [done|]. split; [split; [done|]|done].
  intros j Hj. eapply modify_ids; [exact Er|by apply Hdata|by intros ->|by apply Hno].
Qed.
Lemma apart_write m i n b : apart m -> 0 <= n -> Z.of_nat (length b) = n * BLOCK_SZ -> Forall byte_ok b -> (forall j, i <= j < i + n -> data j) ->
  apart (raw_write m i b) /\ forall j, meta j -> block (raw_write m i b) j = block m j.
Proof.
  intros [[Hi Hidle] Hno] Hn L B Hd. assert (forall j, j ∈ ids (cache_pool m) -> dev_block (MemBlock.write_block (device m) i b) j = dev_block (device m) j) as Hdev.
  { intros j Hj. rewrite (dev_block_write _ _ n) by done. rewrite decide_False; [done|]. intros D. by apply (Hno j (Hd j D)). }
  split; [split; [split; [|done]|done]|].
  - destruct Hi as [H1 H2 H3]. split; cbn [raw_write raw_store cache_pool device]; [|done|by apply write_block_ok]. apply Forall_lookup_2. intros k s Hk.
    pose proof (Forall_lookup_1 _ _ _ _ H1 Hk) as [R P I Bf U C]. split; [done..|]. intros Hc Hv. rewrite C by done. symmetry. apply Hdev. apply list_elem_of_fmap. exists s. split; [done|by eapply list_elem_of_lookup_2].
  - intros j Hj. unfold block. cbn [raw_write raw_store cache_pool device]. destruct (cached (cache_pool m) j); [done|]. rewrite (dev_block_write _ _ n) by done.
    rewrite decide_False; [done|]. intros D. by apply (Hmeta j Hj), Hd.
Qed.

Lemma disk_store : DiskStore t meta data apart.
Proof.
  split.
  - intros R. split.
    + intros m i [Hm _] Hi. apply bs_length; [apply Hm|by apply Hmeta].
    + intros m i [Hm HR] Hi. destruct (apart_read m i Hm Hi) as (m' & E & A & B). exists m'. split; [done|]. split; [split; [done|]|intros j Hj; apply B; by apply Hmeta].
      intros j Hj. rewrite <- HR, !raw_block_apart by done. apply B. by apply Hdata.
    + intros m i f [Hm HR] Hi L B. destruct (apart_modify m i f Hm Hi L B) as (m' & E & A & Hb). exists m'. split; [done|]. split; [split; [done|]|intros j Hj; apply Hb; by apply Hmeta].
      intros j Hj. rewrite <- HR, !raw_block_apart by done. rewrite Hb by (by apply Hdata). rewrite decide_False; [done|]. intros ->. by apply (Hmeta i Hi).
  - intros m i [[Hi _] _]. apply dev_block_ok, Hi.
  - intros m i n Hn. cbn. replace n with (Z.of_nat (Z.to_nat n)) by lia. apply read_block_split.
  - intros m i n b Hm Hn L B Hd. destruct (apart_write m i n b Hm Hn L B Hd) as [A Hb]. split; [done|]. split; [done|]. intros j _. by apply dev_block_write.
Qed.
End Regions.
End BlockDisk.
