(* ===== verification/PageCache.v ===== *)
(** * PageCache: the cached pages of a file (os/src/fs/cache.rs)

    [PageCache] holds one page of a file and moves it from and to the device, neighbouring blocks in
    one request; [PageCacheManager] is the file's table of such pages. [neighbor] is the closure that
    gives the blocks of a page. The model is the RISC-V build: the frame of a page is mapped with its
    dirty bit set ([Sv39.map]) and nothing clears it. *)
From S2P Require Import Prelude Address Bytes PageStore BlockCache DiskStore.

Definition BUFFER_SIZE : Z := BLOCK_SZ.
Definition PAGE_BUFFERS : Z := PAGE_SIZE / BUFFER_SIZE.
Definition CACHE_SZ : Z := PAGE_SIZE.

(** The page, its priority, and the dirty bit and strong count of its frame. *)
Record PageCache : Type := MkPage { pc_priority : Z; page_ptr : list Z; pc_dirty : bool; tracker_refs : Z }.
Definition with_page (p : PageCache) (b : list Z) : PageCache := MkPage (pc_priority p) b (pc_dirty p) (tracker_refs p).

Module PageCache.
Section Operations.
Context {S : Type} `{!RawStore S}.

(** [frame]: what the uninitialised frame holds. *)
Definition new (frame : list Z) : PageCache := MkPage 0 frame true 1.
Definition read {V} (p : PageCache) (f : list Z -> V) : V := f (page_ptr p).
Definition modify (p : PageCache) (f : list Z -> list Z) : PageCache := MkPage (pc_priority p) (f (page_ptr p)) true (tracker_refs p).

(** The loop of [read_in]: the page so far, the start and length of the current run of blocks, and
    where in the page it goes. *)
Fixpoint read_loop (s : S) (page : list Z) (block_ids : list Z) (start_block_id con_length start_buf_id : Z) : list Z :=
  match block_ids with
  | [] => set_bytes page (start_buf_id * BUFFER_SIZE) (raw_read s start_block_id (con_length * BUFFER_SIZE))
  | block_id :: r =>
      if con_length =? 0 then read_loop s page r block_id 1 start_buf_id
      else if negb (block_id =? start_block_id ⊕ con_length) then
        read_loop s (set_bytes page (start_buf_id * BUFFER_SIZE) (raw_read s start_block_id (con_length * BUFFER_SIZE))) r block_id 1 (start_buf_id + con_length)
      else read_loop s page r start_block_id (con_length + 1) start_buf_id
  end.
Definition fill_zero (page : list Z) (from : Z) : list Z := take (Z.to_nat from) page ++ replicate (length page - Z.to_nat from) 0.
Definition read_in (p : PageCache) (block_ids : list Z) (s : S) : outcome PageCache :=
  match block_ids with
  | [] => Ret p
  | _ =>
      rust_assert (Z.of_nat (length block_ids) <=? PAGE_BUFFERS) ;;
      Ret (with_page p (fill_zero (read_loop s (page_ptr p) block_ids usize_max 0 0) (Z.of_nat (length block_ids) * BUFFER_SIZE)))
  end.

Fixpoint write_loop (s : S) (page : list Z) (block_ids : list Z) (start_block_id con_length start_buf_id : Z) : S :=
  match block_ids with
  | [] => raw_write s start_block_id (get_bytes page (start_buf_id * BUFFER_SIZE) (con_length * BUFFER_SIZE))
  | block_id :: r =>
      if con_length =? 0 then write_loop s page r block_id 1 start_buf_id
      else if negb (block_id =? start_block_id ⊕ con_length) then
        write_loop (raw_write s start_block_id (get_bytes page (start_buf_id * BUFFER_SIZE) (con_length * BUFFER_SIZE))) page r block_id 1 (start_buf_id + con_length)
      else write_loop s page r start_block_id (con_length + 1) start_buf_id
  end.
Definition write_back (p : PageCache) (block_ids : list Z) (s : S) : S :=
  match block_ids with [] => s | _ => write_loop s (page_ptr p) block_ids usize_max 0 0 end.
(** [kernel_space]: whether the lock of the kernel's address space could be taken. *)
Definition sync (kernel_space : bool) (p : PageCache) (block_ids : list Z) (s : S) : S :=
  if kernel_space && negb (pc_dirty p) then s else write_back p block_ids s.
End Operations.

(** ** Against one block at a time *)
Section Reference.
Context {S : Type} `{!BlockStore S, !RawStore S} {meta data : Z -> Prop} {ok : S -> Prop} `{!DiskStore S meta data ok}.

(** What [read_in] gives when every block is read on its own. *)
Definition page_of (s : S) (ids : list Z) : list Z := (ids ≫= raw_block s) ++ replicate (Z.to_nat PAGE_SIZE - length ids * Z.to_nat BLOCK_SZ) 0.
Definition chunk (page : list Z) (k : nat) : list Z := get_bytes page (Z.of_nat k * BLOCK_SZ) BLOCK_SZ.

Lemma bind_length s ids : ok s -> length (ids ≫= raw_block s) = (length ids * Z.to_nat BLOCK_SZ)%nat.
Proof.
  intros Hs. induction ids as [|i ids IH]; [done|]. rewrite bind_cons, length_app, IH. destruct (ds_length s i Hs) as [L _]. cbn [length]. unfold BLOCK_SZ in *. lia.
Qed.
Lemma bind_bytes s ids : ok s -> Forall byte_ok (ids ≫= raw_block s).
Proof. intros Hs. induction ids as [|i ids IH]; [constructor|]. rewrite bind_cons. apply Forall_app. split; [apply ds_length, Hs|done]. Qed.

(** The loop, with [con] blocks from [st] on still to be read. *)
Lemma page_read_loop_ok s : ok s -> forall ids page st con buf, 0 <= buf -> 1 <= con -> 0 <= st -> st + con <= 2 ^ 63 -> Forall (fun i => 0 <= i < 2 ^ 63) ids ->
  (buf + con + Z.of_nat (length ids)) * BLOCK_SZ <= Z.of_nat (length page) ->
  read_loop s page ids st con buf = set_bytes page (buf * BLOCK_SZ) ((seqZ st con ++ ids) ≫= raw_block s).
Proof.
  intros Hs ids. induction ids as [|i ids IH]; intros page st con buf Hb Hc Hst Hov Hi Hl; cbn [read_loop]; unfold BUFFER_SIZE.
  { rewrite app_nil_r, ds_read by lia. done. }
  apply Forall_cons in Hi as [Hi Hids]. cbn [length] in Hl. rewrite (proj2 (Z.eqb_neq con 0)) by lia. rewrite add64_small by (unfold in_range; lia).
  destruct (Z.eqb_spec i (st + con)) as [->|Hne]; cbn [negb].
  - rewrite IH by (done || lia). rewrite (seqZ_app st con 1) by lia. by rewrite <- app_assoc.
  - assert (Z.of_nat (length (seqZ st con ≫= raw_block s)) = con * BLOCK_SZ) as La by (rewrite bind_length, length_seqZ by done; unfold BLOCK_SZ; lia).
    rewrite ds_read by lia. rewrite IH; try done; try lia; [|by rewrite set_bytes_length; unfold BLOCK_SZ in *; lia].
    rewrite Z.mul_add_distr_r, <- La. assert (length ((i :: ids) ≫= raw_block s) = (Datatypes.S (length ids) * Z.to_nat BLOCK_SZ)%nat) as Lb by (by rewrite bind_length).
    change (seqZ i 1 ++ ids) with (i :: ids). rewrite set_bytes_app by (unfold BLOCK_SZ in *; lia). by rewrite bind_app.
Qed.
Lemma read_in_ok s p ids : ok s -> ids <> [] -> Forall (fun i => 0 <= i < 2 ^ 63) ids -> Z.of_nat (length ids) <= PAGE_BUFFERS -> Z.of_nat (length (page_ptr p)) = PAGE_SIZE ->
  read_in p ids s = Ret (with_page p (page_of s ids)).
Proof.
  intros Hs Hne Hi Hl Hp. destruct ids as [|i ids]; [done|]. apply Forall_cons in Hi as [Hi Hids]. unfold read_in. rewrite (proj2 (Z.leb_le _ _)) by done. cbn [rust_assert mbind outcome_bind read_loop Z.eqb].
  change PAGE_BUFFERS with 8 in Hl. unfold PAGE_SIZE in Hp. cbn [length] in Hl. rewrite page_read_loop_ok by (done || unfold BLOCK_SZ; lia). change (seqZ i 1 ++ ids) with (i :: ids).
  do 2 f_equal. unfold fill_zero, page_of, BUFFER_SIZE. pose proof (bind_length s (i :: ids) Hs) as L. rewrite set_bytes_length by (unfold BLOCK_SZ in *; cbn [length] in L; lia).
  cbn [length] in *. f_equal.
  - unfold set_bytes. cbn [Z.mul]. change (Z.to_nat 0) with O. rewrite take_0. cbn [app]. rewrite take_app_length' by (unfold BLOCK_SZ in *; lia). done.
  - f_equal. unfold PAGE_SIZE, BLOCK_SZ. lia.
Qed.

Lemma chunk_length page k : (Z.of_nat k + 1) * BLOCK_SZ <= Z.of_nat (length page) -> Z.of_nat (length (chunk page k)) = BLOCK_SZ.
Proof. intros H. unfold chunk. apply get_bytes_length; unfold BLOCK_SZ in *; lia. Qed.

(** One run of neighbouring blocks. *)
Lemma write_run_ok page s st con buf : Forall byte_ok page -> ok s -> 0 <= buf -> 1 <= con -> Forall data (seqZ st con) -> (buf + con) * BLOCK_SZ <= Z.of_nat (length page) ->
  let s' := raw_write s st (get_bytes page (buf * BLOCK_SZ) (con * BLOCK_SZ)) in ok s' /\ (forall j, meta j -> bs_block s' j = bs_block s j) /\
    (forall k j, seqZ st con !! k = Some j -> raw_block s' j = chunk page (Z.to_nat buf + k)) /\ (forall j, data j -> j ∉ seqZ st con -> raw_block s' j = raw_block s j).
Proof.
  intros Hbytes Hs Hb Hc Hd Hl. rewrite Forall_forall in Hd. destruct (ds_write s st con (get_bytes page (buf * BLOCK_SZ) (con * BLOCK_SZ)) Hs) as (Ho & Hm & Hw).
  - lia.
  - apply get_bytes_length; unfold BLOCK_SZ in *; lia.
  - by apply get_bytes_ok.
  - intros j Hj. apply Hd, elem_of_seqZ. lia.
  - split; [done|]. split; [done|]. split.
    + intros k j [-> Hk]%lookup_seqZ. rewrite Hw by (apply Hd, elem_of_seqZ; lia). rewrite decide_True by lia. rewrite get_bytes_get by (unfold BLOCK_SZ; lia).
      unfold chunk. f_equal. unfold BLOCK_SZ. lia.
    + intros j Hj Hno. rewrite Hw by done. apply decide_False. intros D. apply Hno, elem_of_seqZ. lia.
Qed.
(** The same for [write_back]: each block gets its part of the page, the others stay. *)
Lemma page_write_loop_ok page : Forall byte_ok page -> forall ids s st con buf, ok s -> 0 <= buf -> 1 <= con -> 0 <= st -> st + con <= 2 ^ 63 -> Forall (fun i => 0 <= i < 2 ^ 63) ids ->
  NoDup (seqZ st con ++ ids) -> Forall data (seqZ st con ++ ids) -> (buf + con + Z.of_nat (length ids)) * BLOCK_SZ <= Z.of_nat (length page) ->
  let s' := write_loop s page ids st con buf in ok s' /\ (forall j, meta j -> bs_block s' j = bs_block s j) /\
    (forall k j, (seqZ st con ++ ids) !! k = Some j -> raw_block s' j = chunk page (Z.to_nat buf + k)) /\
    (forall j, data j -> j ∉ seqZ st con ++ ids -> raw_block s' j = raw_block s j).
Proof.
  intros Hbytes ids. induction ids as [|i ids IH]; intros s st con buf Hs Hb Hc Hst Hov Hi Hnd Hd Hl; cbn [write_loop]; unfold BUFFER_SIZE.
  { rewrite app_nil_r in *. exact (write_run_ok page s st con buf Hbytes Hs Hb Hc Hd ltac:(cbn [length] in Hl; unfold BLOCK_SZ in *; lia)). }
  apply Forall_cons in Hi as [Hi Hids]. cbn [length] in Hl. rewrite (proj2 (Z.eqb_neq con 0)) by lia. rewrite add64_small by (unfold in_range; lia).
  destruct (Z.eqb_spec i (st + con)) as [->|Hne]; cbn [negb].
  - replace (seqZ st con ++ (st + con) :: ids) with (seqZ st (con + 1) ++ ids) in * by (rewrite (seqZ_app st con 1) by lia; by rewrite <- app_assoc).
    apply IH; done || lia.
  - apply Forall_app in Hd as [Hd1 Hd2]. apply NoDup_app in Hnd as (Hn1 & Hn2 & Hn3).
    destruct (write_run_ok page s st con buf Hbytes Hs Hb Hc Hd1 ltac:(unfold BLOCK_SZ in *; lia)) as (Hs1 & Hm1 & Hw1 & Ho1).
    destruct (IH _ i 1 (buf + con) Hs1) as (Hs2 & Hm2 & Hw2 & Ho2); try done; try lia. change (seqZ i 1 ++ ids) with (i :: ids) in *. cbn zeta. split; [done|].
    split; [intros j Hj; by rewrite Hm2, Hm1|]. split.
    + intros k j Hk. apply lookup_app_Some in Hk as [Hk|[Hk1 Hk]].
      * rewrite <- (Hw1 k j Hk). assert (j ∈ seqZ st con) as Hj by (by eapply list_elem_of_lookup_2). apply Ho2; [rewrite Forall_forall in Hd1; by apply Hd1|by apply Hn2].
      * rewrite (Hw2 _ j Hk). rewrite length_seqZ in Hk1 |- *. f_equal. lia.
    + intros j Hj Hno. rewrite not_elem_of_app in Hno. destruct Hno as [H1 H2]. by rewrite Ho2, Ho1.
Qed.
Lemma write_back_ok s p ids : ok s -> Forall byte_ok (page_ptr p) -> NoDup ids -> Forall data ids -> Forall (fun i => 0 <= i < 2 ^ 63) ids ->
  Z.of_nat (length ids) * BLOCK_SZ <= Z.of_nat (length (page_ptr p)) ->
  let s' := write_back p ids s in ok s' /\ (forall j, meta j -> bs_block s' j = bs_block s j) /\
    (forall k j, ids !! k = Some j -> raw_block s' j = chunk (page_ptr p) k) /\ (forall j, data j -> j ∉ ids -> raw_block s' j = raw_block s j).
Proof.
  intros Hs Hb Hn Hd Hi Hl. destruct ids as [|i ids]; [by cbn; split; [|split; [|split]]|]. apply Forall_cons in Hi as [Hi Hids]. cbn [write_back write_loop Z.eqb].
  exact (page_write_loop_ok (page_ptr p) Hb ids s i 1 0 Hs ltac:(lia) ltac:(lia) ltac:(lia) ltac:(lia) Hids Hn Hd ltac:(cbn [length] in Hl; unfold BLOCK_SZ in *; lia)).
Qed.
End Reference.
End PageCache.

(** A page of the pool and its strong count. *)
Record cell : Type := Cell { strong : Z; pg : PageCache }.

Module PageCacheManager.
Record t : Type := Mk { cache_pool : list (option cell); allocated_cache : list nat }.
Definition new : t := Mk [] [].

Definition raise (p : PageCache) : PageCache :=
  if pc_priority p <? PRIORITY_UPPERBOUND then MkPage (pc_priority p + 1) (page_ptr p) (pc_dirty p) (tracker_refs p) else p.
Definition lower (p : PageCache) : PageCache := MkPage (pc_priority p - 1) (page_ptr p) (pc_dirty p) (tracker_refs p).
Definition update (m : t) (i : nat) (f : cell -> cell) : t := Mk (alter (fmap f) i (cache_pool m)) (allocated_cache m).
Definition clone (c : cell) : cell := Cell (strong c + 1) (pg c).
Definition release (m : t) (i : nat) : t := update m i (fun c => Cell (strong c - 1) (pg c)).
Definition lookup_cell (m : t) (i : nat) : option cell := mjoin (cache_pool m !! i).

Section Operations.
Context {S : Type} `{!RawStore S}.

Definition try_get_cache (m : t) (inner_cache_id : nat) : option cell * t :=
  match lookup_cell m inner_cache_id with
  | Some c => (Some c, update m inner_cache_id (fun c => clone (Cell (strong c) (raise (pg c)))))
  | None => (None, m)
  end.

(** [get_cache] behind its [frame_reserve]; [frame] is what the new frame holds. *)
Definition grow (pool : list (option cell)) (inner_cache_id : nat) : list (option cell) := pool ++ replicate (Datatypes.S inner_cache_id - length pool) None.
Definition load (frame : list Z) (m : t) (inner_cache_id : nat) (neighbor : nat -> list Z) (s : S) : outcome t :=
  let pool := grow (cache_pool m) inner_cache_id in
  match mjoin (pool !! inner_cache_id) with
  | Some _ => Ret (Mk pool (allocated_cache m))
  | None =>
      p ← PageCache.read_in (PageCache.new frame) (neighbor inner_cache_id) s;
      Ret (Mk (<[inner_cache_id := Some (Cell 1 p)]> pool) (allocated_cache m ++ [inner_cache_id]))
  end.
Definition get_cache (frame : list Z) (m : t) (inner_cache_id : nat) (neighbor : nat -> list Z) (s : S) : outcome t :=
  m1 ← load frame m inner_cache_id neighbor s;
  Ret (update m1 inner_cache_id (fun c => clone (Cell (strong c) (raise (pg c))))).

(** The loop of [oom]: the caches kept, how many were dropped. *)
Fixpoint oom_loop (kernel_space : bool) (neighbor : nat -> list Z) (ids : list nat) (m : t) (s : S) : outcome (list nat * Z * t * S) :=
  match ids with
  | [] => Ret ([], 0, m, s)
  | i :: ids =>
      c ← unwrap (lookup_cell m i);
      if 1 <? strong c then '(l, n, m', s') ← oom_loop kernel_space neighbor ids m s; Ret (i :: l, n, m', s')
      else if 1 <? tracker_refs (pg c) then '(l, n, m', s') ← oom_loop kernel_space neighbor ids m s; Ret (i :: l, n, m', s')
      else if 0 <? pc_priority (pg c) then
        '(l, n, m', s') ← oom_loop kernel_space neighbor ids (update m i (fun c => Cell (strong c) (lower (pg c)))) s; Ret (i :: l, n, m', s')
      else
        '(l, n, m', s') ← oom_loop kernel_space neighbor ids (Mk (<[i := None]> (cache_pool m)) (allocated_cache m)) (PageCache.sync kernel_space (pg c) (neighbor i) s);
        Ret (l, n + 1, m', s')
  end.
Definition oom (kernel_space : bool) (neighbor : nat -> list Z) (m : t) (s : S) : outcome (Z * t * S) :=
  '(l, n, m', s') ← oom_loop kernel_space neighbor (allocated_cache m) m s;
  Ret (n, Mk (cache_pool m') l, s').

(** The pages behind the new size, the last one first. *)
Fixpoint pop_beyond (n : nat) (pool : list (option cell)) : outcome (list (option cell)) :=
  match n with
  | O => Ret pool
  | Datatypes.S n =>
      match vec_pop pool with
      | None => Ret pool
      | Some (o, rest) =>
          match o with
          | Some c => if 1 <? strong c then Panic else pop_beyond n rest
          | None => pop_beyond n rest
          end
      end
  end.
Definition notify_new_size (m : t) (new_size : Z) : outcome t :=
  let new_pages := Z.to_nat ((new_size + PAGE_SIZE - 1) / PAGE_SIZE) in
  pool ← pop_beyond (length (cache_pool m) - new_pages) (cache_pool m);
  Ret (Mk pool (List.filter (fun i => Nat.ltb i new_pages) (allocated_cache m))).

(** A page is used and released in one statement. *)
Definition read_page {V} (frame : list Z) (m : t) (i : nat) (neighbor : nat -> list Z) (s : S) (f : list Z -> V) : outcome (V * t) :=
  m1 ← get_cache frame m i neighbor s;
  c ← unwrap (lookup_cell m1 i);
  Ret (PageCache.read (pg c) f, release m1 i).
Definition modify_page (frame : list Z) (m : t) (i : nat) (neighbor : nat -> list Z) (s : S) (f : list Z -> list Z) : outcome t :=
  m1 ← get_cache frame m i neighbor s;
  Ret (release (update m1 i (fun c => Cell (strong c) (PageCache.modify (pg c) f))) i).
End Operations.

(** ** What a page reads as *)
Record cell_ok (c : cell) : Prop := {
  co_strong : 1 <= strong c;
  co_priority : 0 <= pc_priority (pg c) <= PRIORITY_UPPERBOUND;
  co_page : Z.of_nat (length (page_ptr (pg c))) = PAGE_SIZE /\ Forall byte_ok (page_ptr (pg c));
  co_dirty : pc_dirty (pg c) = true;
}.
Record inv (m : t) : Prop := {
  pi_cells : forall i c, lookup_cell m i = Some c -> cell_ok c;
  pi_nodup : NoDup (allocated_cache m);
  pi_allocated : forall i, i ∈ allocated_cache m <-> is_Some (lookup_cell m i);
}.
(** Nobody holds a page. *)
Definition idle (m : t) : Prop := forall i c, lookup_cell m i = Some c -> strong c = 1.

Lemma lookup_update m i f j : lookup_cell (update m i f) j = if decide (j = i) then f <$> lookup_cell m i else lookup_cell m j.
Proof.
  unfold lookup_cell, update. cbn [cache_pool]. case_decide as D.
  - subst j. rewrite list_lookup_alter_eq. by destruct (cache_pool m !! i) as [[c|]|].
  - by rewrite list_lookup_alter_ne.
Qed.
Lemma lookup_grow pool i j : mjoin (grow pool i !! j) = mjoin (pool !! j).
Proof.
  unfold grow. destruct (decide (j < length pool)%nat) as [H|H]; [by rewrite lookup_app_l|]. rewrite lookup_app_r by lia. rewrite (lookup_ge_None_2 pool) by lia.
  destruct (replicate _ None !! _) as [x|] eqn:E; [|done]. by apply lookup_replicate in E as [-> _].
Qed.
Lemma lookup_insert pool l i o j : (i < length pool)%nat -> lookup_cell (Mk (<[i := o]> pool) l) j = if decide (j = i) then o else mjoin (pool !! j).
Proof.
  intros H. unfold lookup_cell. cbn [cache_pool]. case_decide as D; [subst j; by rewrite list_lookup_insert_eq|by rewrite list_lookup_insert_ne].
Qed.
Lemma cache_inv_update m i f : inv m -> (forall c, cell_ok c -> cell_ok (f c)) -> inv (update m i f).
Proof.
  intros [H1 H2 H3] Hf. split; [|done|].
  - intros j c. rewrite lookup_update. case_decide; [|apply H1]. intros Hc. apply fmap_Some in Hc as (c0 & H0 & ->). by eapply Hf, H1.
  - intros j. rewrite lookup_update. cbn [allocated_cache update]. rewrite H3. case_decide as D; [subst j; by rewrite fmap_is_Some|done].
Qed.
Lemma raise_page p : page_ptr (raise p) = page_ptr p /\ pc_dirty (raise p) = pc_dirty p /\ tracker_refs (raise p) = tracker_refs p.
Proof. unfold raise. by case_match. Qed.
Lemma raise_priority p : 0 <= pc_priority p <= PRIORITY_UPPERBOUND -> 0 <= pc_priority (raise p) <= PRIORITY_UPPERBOUND.
Proof. unfold raise, PRIORITY_UPPERBOUND. case_match; cbn; lia. Qed.
Lemma cell_ok_raise c : cell_ok c -> cell_ok (clone (Cell (strong c) (raise (pg c)))).
Proof.
  intros [H1 H2 H3 H4]. destruct (raise_page (pg c)) as (E1 & E2 & _). split; cbn [clone strong pg]; rewrite ?E1, ?E2; [lia|by apply raise_priority|done|done].
Qed.

Section Pages.
Context {S : Type} `{!BlockStore S, !RawStore S} {meta data : Z -> Prop} {ok : S -> Prop} `{!DiskStore S meta data ok}.
Implicit Types (nb : nat -> list Z) (s : S).

(** The blocks of the pages: data blocks, none in two places. *)
Record blocks_ok nb : Prop := {
  bo_nodup : forall i, NoDup (nb i);
  bo_data : forall i, Forall data (nb i);
  bo_range : forall i, Forall (fun b => 0 <= b < 2 ^ 63) (nb i);
  bo_length : forall i, Z.of_nat (length (nb i)) <= PAGE_BUFFERS;
  bo_apart : forall i j b, b ∈ nb i -> b ∈ nb j -> i = j;
}.
Definition room nb (i : nat) : nat := length (nb i) * Z.to_nat BLOCK_SZ.
Definition page_at nb s (m : t) (i : nat) : list Z := match lookup_cell m i with Some c => page_ptr (pg c) | None => PageCache.page_of s (nb i) end.
(** The bytes of the page that have a place on the disk. *)
Definition view nb s (m : t) (i : nat) : list Z := take (room nb i) (page_at nb s m i).

Lemma page_of_room nb s i : ok s -> take (room nb i) (PageCache.page_of s (nb i)) = nb i ≫= raw_block s.
Proof. intros Hs. unfold PageCache.page_of, room. by rewrite take_app_length' by (by rewrite PageCache.bind_length). Qed.
Lemma page_of_length nb s i : ok s -> blocks_ok nb -> Z.of_nat (length (PageCache.page_of s (nb i))) = PAGE_SIZE /\ Forall byte_ok (PageCache.page_of s (nb i)).
Proof.
  intros Hs Hn. pose proof (bo_length _ Hn i) as Hl. change PAGE_BUFFERS with 8 in Hl. unfold PageCache.page_of. split.
  - rewrite length_app, length_replicate, PageCache.bind_length by done. unfold PAGE_SIZE, BLOCK_SZ in *. lia.
  - apply Forall_app. split; [by apply PageCache.bind_bytes|]. apply Forall_replicate. unfold byte_ok. lia.
Qed.
Lemma room_le nb i : blocks_ok nb -> (room nb i <= Z.to_nat PAGE_SIZE)%nat.
Proof. intros Hn. pose proof (bo_length _ Hn i) as Hl. change PAGE_BUFFERS with 8 in Hl. unfold room, PAGE_SIZE, BLOCK_SZ. lia. Qed.
Lemma page_at_ok nb s m i : ok s -> blocks_ok nb -> inv m -> Z.of_nat (length (page_at nb s m i)) = PAGE_SIZE /\ Forall byte_ok (page_at nb s m i).
Proof. intros Hs Hn Hi. unfold page_at. destruct (lookup_cell m i) as [c|] eqn:E; [by apply (pi_cells m Hi i c E)|by apply page_of_length]. Qed.

Definition frame_ok (frame : list Z) : Prop := Z.of_nat (length frame) = PAGE_SIZE /\ Forall byte_ok frame.
Lemma load_page nb s frame i : ok s -> blocks_ok nb -> frame_ok frame -> exists p, PageCache.read_in (PageCache.new frame) (nb i) s = Ret p /\
  cell_ok (Cell 1 p) /\ take (room nb i) (page_ptr p) = nb i ≫= raw_block s.
Proof.
  intros Hs Hn [Lf Bf]. destruct (nb i) as [|b r] eqn:E.
  - exists (PageCache.new frame). split; [done|]. split; [by split|]. unfold room. by rewrite E.
  - rewrite <- E. rewrite PageCache.read_in_ok; [|done|by rewrite E|apply Hn|apply Hn|done]. eexists. split; [done|]. split; [|cbn; by apply page_of_room].
    split; cbn; [done|unfold PRIORITY_UPPERBOUND; lia|by apply page_of_length|done].
Qed.
(** Loading a page changes neither the other pages nor what this one holds. *)
Lemma load_ok nb s m i frame : ok s -> blocks_ok nb -> inv m -> frame_ok frame ->
  exists m' c, load frame m i nb s = Ret m' /\ inv m' /\ lookup_cell m' i = Some c /\ take (room nb i) (page_ptr (pg c)) = view nb s m i /\
    strong c = default 1 (strong <$> lookup_cell m i) /\ forall j, j <> i -> lookup_cell m' j = lookup_cell m j.
Proof.
  intros Hs Hn Hi Hf. unfold load. rewrite lookup_grow. fold (lookup_cell m i). set (pool := grow (cache_pool m) i).
  assert (i < length pool)%nat as Hlen by (unfold pool, grow; rewrite length_app, length_replicate; lia).
  assert (forall l j, lookup_cell (Mk pool l) j = lookup_cell m j) as Hpool by (intros; apply lookup_grow).
  unfold view, page_at. destruct (lookup_cell m i) as [c|] eqn:Ec.
  - exists (Mk pool (allocated_cache m)), c. split; [done|]. rewrite Hpool. split; [|done]. destruct Hi as [H1 H2 H3].
    split; [intros j c'; rewrite Hpool; apply H1|done|intros j; rewrite Hpool; apply H3].
  - destruct (load_page nb s frame i Hs Hn Hf) as (p & -> & Hc & Hp). cbn [mbind outcome_bind]. exists (Mk (<[i := Some (Cell 1 p)]> pool) (allocated_cache m ++ [i])), (Cell 1 p).
    assert (forall j, lookup_cell (Mk (<[i := Some (Cell 1 p)]> pool) (allocated_cache m ++ [i])) j = if decide (j = i) then Some (Cell 1 p) else lookup_cell m j) as Hl.
    { intros j. rewrite lookup_insert by done. case_decide; [done|apply lookup_grow]. }
    split; [done|]. rewrite Hl, decide_True by done. split; [|split; [done|split; [by rewrite page_of_room|split; [done|intros j N; rewrite Hl; by apply decide_False]]]].
    destruct Hi as [H1 H2 H3]. split; cbn [allocated_cache].
    + intros j c'. rewrite Hl. case_decide; [by intros [= <-]|apply H1].
    + apply NoDup_app. split; [done|]. split; [|apply NoDup_singleton]. intros j Hj Hji. apply list_elem_of_singleton in Hji as ->. apply H3 in Hj. rewrite Ec in Hj. by destruct Hj.
    + intros j. rewrite Hl, elem_of_app, list_elem_of_singleton, H3. case_decide; naive_solver.
Qed.
Lemma get_cache_ok nb s m i frame : ok s -> blocks_ok nb -> inv m -> frame_ok frame ->
  exists m' c, get_cache frame m i nb s = Ret m' /\ inv m' /\ lookup_cell m' i = Some c /\ take (room nb i) (page_ptr (pg c)) = view nb s m i /\
    strong c = default 1 (strong <$> lookup_cell m i) + 1 /\ forall j, j <> i -> lookup_cell m' j = lookup_cell m j.
Proof.
  intros Hs Hn Hi Hf. unfold get_cache. destruct (load_ok nb s m i frame Hs Hn Hi Hf) as (m1 & c & -> & Hi1 & Hc & Hv & Hst & Ho). cbn [mbind outcome_bind].
  eexists _, _. split; [done|]. split; [apply cache_inv_update; [done|apply cell_ok_raise]|]. rewrite lookup_update, decide_True, Hc by done. split; [done|]. cbn [clone pg strong].
  destruct (raise_page (pg c)) as (-> & _). split; [done|]. split; [by rewrite Hst|]. intros j N. rewrite lookup_update, decide_False by done. by apply Ho.
Qed.

(** Using a page: what it holds changes as asked, the other pages stay, and it is released again. *)
Definition used nb s (m m' : t) (i : nat) (page : list Z) : Prop := inv m' /\ idle m' /\ view nb s m' i = take (room nb i) page /\ forall j, j <> i -> lookup_cell m' j = lookup_cell m j.
Lemma use_ok nb s m m1 i c page : idle m -> inv m1 -> lookup_cell m1 i = Some c -> strong c = default 1 (strong <$> lookup_cell m i) + 1 ->
  (forall j, j <> i -> lookup_cell m1 j = lookup_cell m j) -> page_ptr (pg c) = page -> used nb s m (release m1 i) i page.
Proof.
  intros Hid Hi Hc Hst Ho Hp. assert (strong c = 2) as E2 by (rewrite Hst; destruct (lookup_cell m i) as [c0|] eqn:E0; cbn; [by rewrite (Hid i c0 E0)|done]).
  unfold release. assert (forall j, lookup_cell (update m1 i (fun c => Cell (strong c - 1) (pg c))) j = if decide (j = i) then Some (Cell 1 (pg c)) else lookup_cell m j) as Hl.
  { intros j. rewrite lookup_update, Hc. cbn. rewrite E2. case_decide; [done|by apply Ho]. }
  split; [|split; [|split]].
  - destruct Hi as [H1 H2 H3]. split; [|done|].
    + intros j c'. rewrite Hl. case_decide as D; [|rewrite <- (Ho j D); apply H1]. intros [= <-]. destruct (H1 i c Hc) as [A B C D']. by split.
    + intros j. rewrite Hl. cbn [allocated_cache update]. rewrite H3. case_decide as D; [subst j; rewrite Hc; by split; eexists|by rewrite Ho].
  - intros j c'. rewrite Hl. case_decide; [by intros [= <-]|apply Hid].
  - unfold view, page_at. by rewrite Hl, decide_True, <- Hp.
  - intros j N. rewrite Hl. by apply decide_False.
Qed.
Lemma read_page_ok {V} nb s m i frame (f : list Z -> V) : ok s -> blocks_ok nb -> inv m -> idle m -> frame_ok frame ->
  exists m' page, read_page frame m i nb s f = Ret (f page, m') /\ take (room nb i) page = view nb s m i /\ Z.of_nat (length page) = PAGE_SIZE /\ used nb s m m' i page.
Proof.
  intros Hs Hn Hi Hid Hf. unfold read_page. destruct (get_cache_ok nb s m i frame Hs Hn Hi Hf) as (m1 & c & -> & Hi1 & Hc & Hv & Hst & Ho). cbn [mbind outcome_bind]. rewrite Hc. cbn [unwrap mbind outcome_bind].
  eexists _, (page_ptr (pg c)). split; [done|]. split; [done|]. split; [by apply (pi_cells _ Hi1 i c)|]. by eapply use_ok.
Qed.
Lemma modify_page_ok nb s m i frame f : ok s -> blocks_ok nb -> inv m -> idle m -> frame_ok frame ->
  (forall b, Z.of_nat (length b) = PAGE_SIZE -> Forall byte_ok b -> Z.of_nat (length (f b)) = PAGE_SIZE /\ Forall byte_ok (f b)) ->
  exists m' page, modify_page frame m i nb s f = Ret m' /\ take (room nb i) page = view nb s m i /\ Z.of_nat (length page) = PAGE_SIZE /\ used nb s m m' i (f page).
Proof.
  intros Hs Hn Hi Hid Hf Hfok. unfold modify_page. destruct (get_cache_ok nb s m i frame Hs Hn Hi Hf) as (m1 & c & -> & Hi1 & Hc & Hv & Hst & Ho). cbn [mbind outcome_bind].
  eexists _, (page_ptr (pg c)). split; [done|]. split; [done|]. split; [by apply (pi_cells _ Hi1 i c)|].
  eapply (use_ok nb s m _ i (Cell (strong c) (PageCache.modify (pg c) f))); [done| |by rewrite lookup_update, decide_True, Hc|done| |done].
  - apply cache_inv_update; [done|]. intros x [A B [C1 C2] D]. destruct (Hfok _ C1 C2) as [C3 C4]. split; cbn; [done|done|by split|done].
  - intros j N. rewrite lookup_update, decide_False by done. by apply Ho.
Qed.

(** ** Writing pages back *)
Lemma chunks_join s page : forall ids k, ok s -> Z.of_nat (length page) = PAGE_SIZE -> Z.of_nat k + Z.of_nat (length ids) <= PAGE_BUFFERS ->
  (forall x j, ids !! x = Some j -> raw_block s j = PageCache.chunk page (k + x)) ->
  ids ≫= raw_block s = take (length ids * Z.to_nat BLOCK_SZ) (drop (k * Z.to_nat BLOCK_SZ) page).
Proof.
  intros ids. induction ids as [|b ids IH]; intros k Hs Lp Hk H; [done|]. change PAGE_BUFFERS with 8 in *. unfold PAGE_SIZE in Lp. cbn [length] in *. rewrite bind_cons.
  rewrite (IH (Datatypes.S k)); [|done|done|lia|intros x j Hx; rewrite (H (Datatypes.S x) j Hx); f_equal; lia]. rewrite (H O b eq_refl), Nat.add_0_r.
  unfold PageCache.chunk, get_bytes. cbn [Nat.mul]. replace (Z.to_nat (Z.of_nat k * BLOCK_SZ)) with (k * Z.to_nat BLOCK_SZ)%nat by (unfold BLOCK_SZ; lia).
  rewrite <- take_take_drop. f_equal. f_equal. rewrite drop_drop. f_equal. lia.
Qed.
(** What evicting a page leaves alone. *)
Definition elsewhere nb s s' : Prop := ok s' /\ (forall j, meta j -> bs_block s' j = bs_block s j) /\ forall j, data j -> (forall i, j ∉ nb i) -> raw_block s' j = raw_block s j.
Lemma elsewhere_refl nb s : ok s -> elsewhere nb s s.
Proof. by split. Qed.
Lemma elsewhere_trans nb s1 s2 s3 : elsewhere nb s1 s2 -> elsewhere nb s2 s3 -> elsewhere nb s1 s3.
Proof. intros (A1 & A2 & A3) (B1 & B2 & B3). split; [done|]. split; intros; [by rewrite B2, A2|by rewrite B3, A3]. Qed.
Lemma sync_dirty ks p ids s : pc_dirty p = true -> PageCache.sync ks p ids s = PageCache.write_back p ids s.
Proof. intros E. unfold PageCache.sync. by rewrite E, andb_false_r. Qed.

Lemma evict_view nb s m i c ks : ok s -> blocks_ok nb -> cell_ok c -> lookup_cell m i = Some c ->
  let s' := PageCache.sync ks (pg c) (nb i) s in let m' := Mk (<[i := None]> (cache_pool m)) (allocated_cache m) in
  elsewhere nb s s' /\ (forall j, lookup_cell m' j = if decide (j = i) then None else lookup_cell m j) /\ forall j, view nb s' m' j = view nb s m j.
Proof.
  intros Hs Hn Hc Hl s' m'. unfold s'. rewrite sync_dirty by apply Hc. destruct Hc as [_ _ [Lp Bp] _]. pose proof (bo_length _ Hn i) as Hle. change PAGE_BUFFERS with 8 in Hle.
  destruct (PageCache.write_back_ok s (pg c) (nb i) Hs Bp (bo_nodup _ Hn i) (bo_data _ Hn i) (bo_range _ Hn i)) as (Hs1 & Hm1 & Hw1 & Ho1); [rewrite Lp; unfold PAGE_SIZE, BLOCK_SZ; lia|].
  assert (forall j, lookup_cell m' j = if decide (j = i) then None else lookup_cell m j) as Hl'.
  { intros j. apply lookup_insert. unfold lookup_cell in Hl. destruct (cache_pool m !! i) eqn:E; [by eapply lookup_lt_Some|done]. }
  split; [split; [done|split; [done|]]|split; [done|]].
  - intros j Hj Hno. apply Ho1; [done|apply Hno].
  - intros j. unfold view, page_at. rewrite Hl'. case_decide as D.
    + subst j. rewrite Hl, page_of_room by done. rewrite (chunks_join _ (page_ptr (pg c)) (nb i) 0); [done|done|done|change PAGE_BUFFERS with 8; lia|done].
    + destruct (lookup_cell m j); [done|]. rewrite !page_of_room by done.
      apply list_bind_ext_in. intros b Hb. apply Ho1; [pose proof (bo_data _ Hn j) as Hd; rewrite Forall_forall in Hd; by apply Hd|]. intros Hb2. apply D. by apply (bo_apart _ Hn j i b).
Qed.

(** A pass over the pages [ids]: [l] is kept, and no page reads differently. *)
Record swept nb (ids : list nat) (m : t) s (l : list nat) (m' : t) s' : Prop := {
  sw_store : elsewhere nb s s';
  sw_cells : forall i c, lookup_cell m' i = Some c -> cell_ok c;
  sw_nodup : NoDup l;
  sw_kept : forall i, i ∈ l <-> i ∈ ids /\ is_Some (lookup_cell m' i);
  sw_other : forall i, i ∉ ids -> lookup_cell m' i = lookup_cell m i;
  sw_idle : idle m -> idle m';
  sw_view : forall i, view nb s' m' i = view nb s m i;
}.
Lemma swept_keep nb i ids m m1 s l m' s' : i ∉ ids -> is_Some (lookup_cell m1 i) -> (forall j, j <> i -> lookup_cell m1 j = lookup_cell m j) ->
  (idle m -> idle m1) -> (forall j, view nb s m1 j = view nb s m j) -> swept nb ids m1 s l m' s' -> swept nb (i :: ids) m s (i :: l) m' s'.
Proof.
  intros Hi Hs Ho Hid Hv [H1 H2 H3 H4 H5 H6 H7]. split; try done.
  - constructor; [|done]. rewrite H4. by intros [? _].
  - intros j. rewrite !elem_of_cons, H4. split; [|naive_solver]. intros [->|[? ?]]; [split; [by left|]|by split; [right|]]. by rewrite H5.
  - intros j [Hj Hj2]%not_elem_of_cons. by rewrite H5, Ho.
  - intros Hm. by apply H6, Hid.
  - intros j. by rewrite H7.
Qed.
Lemma swept_drop nb i ids m m1 s s1 l m' s' : i ∉ ids -> elsewhere nb s s1 -> (forall j, lookup_cell m1 j = if decide (j = i) then None else lookup_cell m j) ->
  (forall j, view nb s1 m1 j = view nb s m j) -> swept nb ids m1 s1 l m' s' -> swept nb (i :: ids) m s l m' s'.
Proof.
  intros Hi He Hl Hv [H1 H2 H3 H4 H5 H6 H7]. split; try done.
  - by eapply elsewhere_trans.
  - intros j. rewrite H4, elem_of_cons. split; [naive_solver|]. intros [[->|?] Hj]; [|done]. rewrite H5, Hl, decide_True in Hj by done. by destruct Hj.
  - intros j [Hj Hj2]%not_elem_of_cons. by rewrite H5, Hl, decide_False.
  - intros Hm. apply H6. intros j c. rewrite Hl. case_decide; [done|apply Hm].
  - intros j. by rewrite H7.
Qed.
Lemma lower_ok m i c : lookup_cell m i = Some c -> 0 < pc_priority (pg c) -> (forall i c, lookup_cell m i = Some c -> cell_ok c) ->
  let m1 := update m i (fun c => Cell (strong c) (lower (pg c))) in
  (forall i c, lookup_cell m1 i = Some c -> cell_ok c) /\ is_Some (lookup_cell m1 i) /\ (forall j, j <> i -> lookup_cell m1 j = lookup_cell m j) /\ (idle m -> idle m1) /\
  forall nb s j, view nb s m1 j = view nb s m j.
Proof.
  intros Hl Hp Hc m1. assert (forall j, lookup_cell m1 j = if decide (j = i) then Some (Cell (strong c) (lower (pg c))) else lookup_cell m j) as H1.
  { intros j. unfold m1. rewrite lookup_update, Hl. done. }
  split; [|split; [rewrite H1, decide_True by done; by eexists|split; [intros j N; rewrite H1; by apply decide_False|split]]].
  - intros j c'. rewrite H1. case_decide; [|apply Hc]. intros [= <-]. destruct (Hc i c Hl) as [A B C D]. split; cbn; [done|lia|done|done].
  - intros Hm j c'. rewrite H1. case_decide; [|apply Hm]. intros [= <-]. by apply (Hm i c).
  - intros nb s j. unfold view, page_at. rewrite H1. case_decide as D; [subst j; by rewrite Hl|done].
Qed.
Lemma oom_loop_ok nb ks : blocks_ok nb -> forall ids m s, ok s -> (forall i c, lookup_cell m i = Some c -> cell_ok c) -> NoDup ids -> (forall i, i ∈ ids -> is_Some (lookup_cell m i)) ->
  exists l n m' s', oom_loop ks nb ids m s = Ret (l, n, m', s') /\ swept nb ids m s l m' s'.
Proof.
  intros Hn ids. induction ids as [|i ids IH]; intros m s Hs Hc Hnd Hin; cbn [oom_loop].
  { exists [], 0, m, s. split; [done|]. split; try done. intros i. rewrite elem_of_nil. naive_solver. }
  apply NoDup_cons in Hnd as [Hi Hnd]. destruct (Hin i) as [c Hl]; [left|]. rewrite Hl. cbn [unwrap mbind outcome_bind].
  assert (forall m1, (forall j, j <> i -> lookup_cell m1 j = lookup_cell m j) -> forall j, j ∈ ids -> is_Some (lookup_cell m1 j)) as Hin1.
  { intros m1 H1 j Hj. rewrite H1 by (intros ->; done). apply Hin. by right. }
  assert (forall m1, (forall i c, lookup_cell m1 i = Some c -> cell_ok c) -> is_Some (lookup_cell m1 i) -> (forall j, j <> i -> lookup_cell m1 j = lookup_cell m j) -> (idle m -> idle m1) ->
    (forall j, view nb s m1 j = view nb s m j) -> exists l n m' s', ('(l, n, m', s') ← oom_loop ks nb ids m1 s; Ret (i :: l, n, m', s')) = Ret (l, n, m', s') /\ swept nb (i :: ids) m s l m' s') as Hkeep.
  { intros m1 A B C D E. destruct (IH m1 s Hs A Hnd (Hin1 m1 C)) as (l & n & m' & s' & -> & Hsw). cbn [mbind outcome_bind]. exists (i :: l), n, m', s'. split; [done|]. by eapply swept_keep. }
  assert (is_Some (lookup_cell m i)) as Hsome by (by exists c). destruct (1 <? strong c); [by apply Hkeep|]. destruct (1 <? tracker_refs (pg c)); [by apply Hkeep|].
  destruct (Z.ltb_spec 0 (pc_priority (pg c))) as [Hp|_].
  - destruct (lower_ok m i c Hl Hp Hc) as (A & B & C & D & E). by apply Hkeep.
  - destruct (evict_view nb s m i c ks Hs Hn (Hc i c Hl) Hl) as (He & Hl' & Hv). destruct (IH (Mk (<[i := None]> (cache_pool m)) (allocated_cache m)) _ (proj1 He)) as (l & n & m' & s' & -> & Hsw).
    + intros j c'. rewrite Hl'. case_decide; [done|apply Hc].
    + done.
    + apply Hin1. intros j N. rewrite Hl'. by apply decide_False.
    + cbn [mbind outcome_bind]. exists l, (n + 1), m', s'. split; [done|]. by eapply swept_drop.
Qed.

(** [oom] does not fail, and no page reads differently after it. *)
Lemma page_oom_ok nb ks m s : ok s -> blocks_ok nb -> inv m -> exists n m' s', oom ks nb m s = Ret (n, m', s') /\ elsewhere nb s s' /\ inv m' /\ (idle m -> idle m') /\
  forall i, view nb s' m' i = view nb s m i.
Proof.
  intros Hs Hn [H1 H2 H3]. unfold oom. destruct (oom_loop_ok nb ks Hn (allocated_cache m) m s Hs H1 H2) as (l & n & m' & s' & -> & [A B C D E F G]); [by intros i ?%H3|].
  cbn [mbind outcome_bind]. exists n, (Mk (cache_pool m') l), s'. split; [done|]. split; [done|]. split; [|done]. split; [done|done|].
  intros i. cbn [allocated_cache]. rewrite D. split; [by intros [_ ?]|]. intros Hi. split; [|done]. destruct (decide (i ∈ allocated_cache m)) as [|Hno]; [done|].
  apply H3. change (lookup_cell (Mk (cache_pool m') l) i) with (lookup_cell m' i) in Hi. by rewrite E in Hi.
Qed.

(** ** Cutting the file *)
Lemma pop_beyond_ok n : forall pool, (n <= length pool)%nat -> (forall i c, pool !! i = Some (Some c) -> strong c = 1) -> pop_beyond n pool = Ret (take (length pool - n) pool).
Proof.
  induction n as [|n IH]; intros pool Hn Hp; cbn [pop_beyond]; [by rewrite Nat.sub_0_r, take_ge|]. destruct pool as [|x pool] using rev_ind; [cbn in Hn; lia|clear IHpool]. rewrite vec_pop_snoc.
  rewrite length_app in *. cbn [length] in *. assert (pop_beyond n pool = Ret (take (length pool + 1 - Datatypes.S n) (pool ++ [x]))) as E.
  { rewrite IH; [|lia|intros i c Hi; apply (Hp i c); by apply lookup_app_l_Some]. f_equal. rewrite take_app_le by lia. f_equal. lia. }
  destruct x as [c|]; [|done]. rewrite (Hp (length pool) c) by (by rewrite lookup_app_r, Nat.sub_diag). done.
Qed.
Lemma notify_ok m size : 0 <= size -> inv m -> idle m -> let n := Z.to_nat ((size + PAGE_SIZE - 1) / PAGE_SIZE) in
  exists m', notify_new_size m size = Ret m' /\ inv m' /\ idle m' /\ forall i, lookup_cell m' i = if decide (i < n)%nat then lookup_cell m i else None.
Proof.
  intros Hsz [H1 H2 H3] Hid n. unfold notify_new_size. fold n. rewrite pop_beyond_ok; [|lia|intros i c Hi; apply (Hid i c); unfold lookup_cell; by rewrite Hi].
  cbn [mbind outcome_bind]. set (m' := Mk _ _). assert (forall i, lookup_cell m' i = if decide (i < n)%nat then lookup_cell m i else None) as Hl.
  { intros i. unfold m', lookup_cell. cbn [cache_pool]. case_decide as D.
    - destruct (decide (i < length (cache_pool m))%nat); [by rewrite lookup_take_lt by lia|]. rewrite lookup_ge_None_2 by (rewrite length_take; lia). by rewrite (lookup_ge_None_2 (cache_pool m)) by lia.
    - by rewrite lookup_ge_None_2 by (rewrite length_take; lia). }
  exists m'. split; [done|]. split; [|split; [|done]].
  - split; [| |].
    + intros i c. rewrite Hl. case_decide; [apply H1|done].
    + cbn. by apply NoDup_filter_bool.
    + intros i. rewrite Hl. change (allocated_cache m') with (List.filter (fun i => Nat.ltb i n) (allocated_cache m)). rewrite elem_of_filter_bool, H3, Nat.ltb_lt. case_decide; naive_solver.
  - intros i c. rewrite Hl. case_decide; [apply Hid|done].
Qed.

(** C30: A page goes to the device and back. Writing a page back in runs of neighbouring blocks puts each
    512 bytes of it on their own block, as one request per block would, and changes no other data block;
    reading the blocks in again gives the page, with zeros behind the last block. *)
Theorem page_io_blockwise s p ids frame : ok s -> Z.of_nat (length (page_ptr p)) = PAGE_SIZE -> Forall byte_ok (page_ptr p) -> frame_ok frame ->
  ids <> [] -> NoDup ids -> Forall data ids -> Forall (fun i => 0 <= i < 2 ^ 63) ids -> Z.of_nat (length ids) <= PAGE_BUFFERS ->
  let s' := PageCache.write_back p ids s in let n := (length ids * Z.to_nat BLOCK_SZ)%nat in
  (forall k j, ids !! k = Some j -> raw_block s' j = PageCache.chunk (page_ptr p) k) /\ (forall j, data j -> j ∉ ids -> raw_block s' j = raw_block s j) /\
  PageCache.read_in (PageCache.new frame) ids s' = Ret (with_page (PageCache.new frame) (take n (page_ptr p) ++ replicate (Z.to_nat PAGE_SIZE - n) 0)).
Proof.
  intros Hs Lp Bp [Lf Bf] Hne Hnd Hd Hr Hl s' n. assert (Z.of_nat (length ids) * BLOCK_SZ <= Z.of_nat (length (page_ptr p))) as Hfit.
  { change PAGE_BUFFERS with 8 in Hl. rewrite Lp. unfold BLOCK_SZ, PAGE_SIZE. lia. }
  destruct (PageCache.write_back_ok s p ids Hs Bp Hnd Hd Hr Hfit) as (Hs' & _ & Hw & Ho). split; [done|]. split; [done|].
  rewrite PageCache.read_in_ok by done. do 2 f_equal. unfold PageCache.page_of. f_equal. fold s'. rewrite (chunks_join s' (page_ptr p) ids 0); done.
Qed.
End Pages.

(** Blocks 8, 9 and 12 of a device, in two runs. *)
Lemma page_io_blockwise_witness : let s := BlockCacheManager.new [replicate 512 0] (fun _ => 0) in let p := MkPage 0 (replicate 4096 5) true 1 in let s' := PageCache.write_back p [8; 9; 12] s in
  (forall k j, [8; 9; 12] !! k = Some j -> raw_block s' j = PageCache.chunk (page_ptr p) k) /\ (forall j, 8 <= j < 16 -> j ∉ [8; 9; 12] -> raw_block s' j = raw_block s j) /\
  PageCache.read_in (PageCache.new (replicate 4096 1)) [8; 9; 12] s' =
    Ret (with_page (PageCache.new (replicate 4096 1)) (take (3 * Z.to_nat BLOCK_SZ) (page_ptr p) ++ replicate (Z.to_nat PAGE_SIZE - 3 * Z.to_nat BLOCK_SZ) 0)).
Proof.
  intros s p s'. assert (DiskStore BlockCacheManager.t (fun i => i = 1) (fun i => 8 <= i < 16) (BlockDisk.apart (data := fun i => 8 <= i < 16))) as HD.
  { apply BlockDisk.disk_store; unfold BlockCacheManager.valid, usize_max; intros; lia. }
  apply (page_io_blockwise (meta := fun i => i = 1) (ok := BlockDisk.apart (data := fun i => 8 <= i < 16)) s p [8; 9; 12] (replicate 4096 1)).
  - split; [|intros j Hj [Hq|Hq%elem_of_nil]%elem_of_cons; [|done]; change (j = usize_max) in Hq; unfold usize_max in Hq; lia].
    apply BlockCacheManager.block_cache_new_ok; [done| |intros; unfold byte_ok; lia]. apply Forall_singleton. split; [done|]. apply Forall_replicate. unfold byte_ok. lia.
  - done.
  - apply Forall_replicate. unfold byte_ok. lia.
  - split; [done|]. apply Forall_replicate. unfold byte_ok. lia.
  - done.
  - by apply (bool_decide_unpack _).
  - repeat (constructor; [lia|]). constructor.
  - repeat (constructor; [lia|]). constructor.
  - done.
Defined.
End PageCacheManager.
