(* ===== verification/Fat.v ===== *)
(** * Fat: the file allocation table of FAT32 (os/src/fs/fat32/bitmap.rs)

    Clusters are linked into chains by 32-bit entries in the sectors of the table, which are
    read and changed through the block cache ([BlockStore]). *)
From S2P Require Import Prelude Bytes PageStore BlockCache.

Definition VACANT_CLUS_CACHE_SIZE : Z := 64.
Definition FAT_ENTRY_FREE : Z := 0.
Definition FAT_ENTRY_RESERVED_TO_END : Z := 0x0FFFFFF8.
Definition EOC : Z := 0x0FFFFFFF.
Definition BAD_BLOCK : Z := 0x0FFFFFF7.

Record Fat : Type := MkFat { start_block_id : Z; byts_per_sec : Z; tot_ent : Z; vacant_clus : list Z; hint : Z }.
Definition with_vacant (f : Fat) (v : list Z) : Fat := MkFat (start_block_id f) (byts_per_sec f) (tot_ent f) v (hint f).
Definition with_hint (f : Fat) (h : Z) : Fat := MkFat (start_block_id f) (byts_per_sec f) (tot_ent f) (vacant_clus f) h.
Definition new (rsvd_sec_cnt byts clus : Z) : Fat := MkFat rsvd_sec_cnt byts clus [] 0.

Definition this_fat_sec_num (f : Fat) (clus_num : Z) : Z :=
  wrap 32 (wrap 32 (start_block_id f) + wrap 32 (clus_num * 4) / wrap 32 (byts_per_sec f)).
Definition this_fat_ent_offset (f : Fat) (clus_num : Z) : Z := wrap 32 (clus_num * 4) mod wrap 32 (byts_per_sec f).

Section Operations.
Context {S : Type} `{!BlockStore S}.

Definition get_next_clus_num (f : Fat) (s : S) (current_clus_num : Z) : outcome (Z * S) :=
  '(b, s') ← bs_read s (this_fat_sec_num f current_clus_num);
  Ret (Z.land (le_combine (get_bytes b (this_fat_ent_offset f current_clus_num) 4)) EOC, s').

(** The values that end a chain. *)
Definition ends_chain (n : Z) : bool := (n =? BAD_BLOCK) || (n =? FAT_ENTRY_FREE) || (FAT_ENTRY_RESERVED_TO_END <=? n).
(** [None] is a loop that still runs. *)
Fixpoint get_all_clus_num (fuel : nat) (f : Fat) (s : S) (current_clus_num : Z) : outcome (option (list Z) * S) :=
  match fuel with
  | O => Ret (None, s)
  | Datatypes.S fuel =>
      '(next, s1) ← get_next_clus_num f s current_clus_num;
      if ends_chain next then Ret (Some [current_clus_num], s1)
      else '(o, s2) ← get_all_clus_num fuel f s1 next; Ret (option_map (cons current_clus_num) o, s2)
  end.

Definition set_next_clus (f : Fat) (s : S) (current : option Z) (next : Z) : outcome S :=
  match current with
  | None => Ret s
  | Some current => bs_modify s (this_fat_sec_num f current) (fun b => set_bytes b (this_fat_ent_offset f current) (le_split 4 next))
  end.

(** The scans of [get_next_free_clus]. *)
Fixpoint scan_free (f : Fat) (s : S) (clus_ids : list Z) : outcome (option Z * S) :=
  match clus_ids with
  | [] => Ret (None, s)
  | c :: r =>
      '(n, s1) ← get_next_clus_num f s c;
      if FAT_ENTRY_FREE =? n then Ret (Some c, s1) else scan_free f s1 r
  end.
Definition get_next_free_clus (f : Fat) (s : S) (start : Z) : outcome (option Z * S) :=
  '(o, s1) ← scan_free f s (seqZ start (wrap 32 (tot_ent f) - start));
  match o with
  | Some c => Ret (Some c, s1)
  | None => scan_free f s1 (seqZ 0 start)
  end.

Definition alloc_one (f : Fat) (s : S) (last : option Z) : outcome (option Z * Fat * S) :=
  '(_, s) ← (match last with Some c => get_next_clus_num f s c | None => Ret (0, s) end);
  match vec_pop (vacant_clus f) with
  | Some (free_clus_id, rest) =>
      s' ← set_next_clus f s last free_clus_id;
      Ret (Some free_clus_id, with_vacant f rest, s')
  | None =>
      '(o, s1) ← get_next_free_clus f s (wrap 32 (hint f));
      match o with
      | None => Ret (None, f, s1)
      | Some free_clus_id =>
          s2 ← set_next_clus f s1 last free_clus_id;
          Ret (Some free_clus_id, with_hint f (wrap 32 (free_clus_id + 1) mod tot_ent f), s2)
      end
  end.
Fixpoint alloc_loop (alloc_num : nat) (f : Fat) (s : S) (last : option Z) : outcome (list Z * option Z * Fat * S) :=
  match alloc_num with
  | O => Ret ([], last, f, s)
  | Datatypes.S n =>
      '(o, f1, s1) ← alloc_one f s last;
      match o with
      | None => Ret ([], None, f1, s1)
      | Some c => '(l, last', f2, s2) ← alloc_loop n f1 s1 (Some c); Ret (c :: l, last', f2, s2)
      end
  end.
Definition alloc (f : Fat) (s : S) (alloc_num : nat) (last : option Z) : outcome (list Z * Fat * S) :=
  '(l, last', f1, s1) ← alloc_loop alloc_num f s last;
  s2 ← set_next_clus f1 s1 last' EOC;
  Ret (l, f1, s2).

Fixpoint free_loop (f : Fat) (s : S) (cluster_list : list Z) : outcome (Fat * S) :=
  match cluster_list with
  | [] => Ret (f, s)
  | c :: r =>
      s1 ← set_next_clus f s (Some c) FAT_ENTRY_FREE;
      free_loop (if Z.of_nat (length (vacant_clus f)) <? VACANT_CLUS_CACHE_SIZE then with_vacant f (vacant_clus f ++ [c]) else f) s1 r
  end.
Definition free (f : Fat) (s : S) (cluster_list : list Z) (last : option Z) : outcome (Fat * S) :=
  '(f1, s1) ← free_loop f s cluster_list;
  s2 ← set_next_clus f1 s1 last EOC;
  Ret (f1, s2).
End Operations.

(** ** The table as a function *)
Section Table.
Context {S : Type} `{!BlockStore S} {valid : Z -> Prop} {ok : S -> Prop} `{!BlockStoreOk S valid ok}.
Implicit Types (f : Fat) (s : S) (E : Z -> Z).

(** The table lies on valid blocks, and no entry number overflows. *)
Record geometry (f : Fat) : Prop := {
  ge_sector : byts_per_sec f = BLOCK_SZ;
  ge_size : 0 < tot_ent f /\ tot_ent f + 2 <= BAD_BLOCK;
  ge_start : 0 <= start_block_id f < 2 ^ 31;
  ge_valid : forall i, start_block_id f <= i <= start_block_id f + (tot_ent f + 2) * 4 / BLOCK_SZ -> valid i;
}.
Definition in_table (f : Fat) (c : Z) : Prop := 0 <= c < tot_ent f + 2.
Definition entry (f : Fat) (s : S) (c : Z) : Z := le_combine (get_bytes (bs_block s (this_fat_sec_num f c)) (this_fat_ent_offset f c) 4).
(** Two allocation tables in the same place. *)
Definition same_place (f f' : Fat) : Prop := start_block_id f' = start_block_id f /\ byts_per_sec f' = byts_per_sec f /\ tot_ent f' = tot_ent f.

(** The table on the disk has the entries [E]. *)
Definition table (f : Fat) (s : S) (E : Z -> Z) : Prop := ok s /\ forall c, in_table f c -> entry f s c = E c.
(** Blocks outside the table are left alone. *)
Definition outside (f : Fat) (s s' : S) : Prop := forall i, valid i -> ~ (start_block_id f <= i <= start_block_id f + (tot_ent f + 2) * 4 / BLOCK_SZ) -> bs_block s' i = bs_block s i.

Lemma place_sector f c : geometry f -> in_table f c -> this_fat_sec_num f c = start_block_id f + c * 4 / BLOCK_SZ /\ this_fat_ent_offset f c = (c * 4) mod BLOCK_SZ.
Proof.
  intros [Es [Ht1 Ht2] Hs Hv] Hc. unfold this_fat_sec_num, this_fat_ent_offset, in_table, BAD_BLOCK in *. rewrite Es. unfold BLOCK_SZ.
  assert (0 <= c * 4 / 512 <= 2 ^ 21) by (Z.to_euclidean_division_equations; lia).
  rewrite (wrap_small 32 (c * 4)), (wrap_small 32 512), (wrap_small 32 (start_block_id f)) by (unfold in_range; lia). rewrite wrap_small by (unfold in_range; lia). done.
Qed.
Lemma place_valid f c : geometry f -> in_table f c -> valid (this_fat_sec_num f c) /\ 0 <= this_fat_ent_offset f c /\ this_fat_ent_offset f c + 4 <= BLOCK_SZ /\
  start_block_id f <= this_fat_sec_num f c <= start_block_id f + (tot_ent f + 2) * 4 / BLOCK_SZ.
Proof.
  intros Hg Hc. destruct (place_sector f c Hg Hc) as [-> ->]. pose proof Hg as [Es Ht Hs Hv]. unfold in_table, BLOCK_SZ in *.
  assert (0 <= c * 4 / 512 <= (tot_ent f + 2) * 4 / 512) by (Z.to_euclidean_division_equations; lia).
  split; [apply Hv; lia|]. Z.to_euclidean_division_equations; lia.
Qed.
(** Entries do not overlap. *)
Lemma place_apart f c c' : geometry f -> in_table f c -> in_table f c' -> c <> c' -> this_fat_sec_num f c = this_fat_sec_num f c' ->
  this_fat_ent_offset f c' + 4 <= this_fat_ent_offset f c \/ this_fat_ent_offset f c + 4 <= this_fat_ent_offset f c'.
Proof.
  intros Hg Hc Hc' Hne. destruct (place_sector f c Hg Hc) as [-> ->]. destruct (place_sector f c' Hg Hc') as [-> ->]. unfold BLOCK_SZ. Z.to_euclidean_division_equations; lia.
Qed.

Lemma get_next_ok f s E c : geometry f -> table f s E -> in_table f c ->
  exists s', get_next_clus_num f s c = Ret (Z.land (E c) EOC, s') /\ table f s' E /\ forall i, valid i -> bs_block s' i = bs_block s i.
Proof.
  intros Hg [Hok Ht] Hc. destruct (place_valid f c Hg Hc) as (Hv & _). unfold get_next_clus_num.
  destruct (bs_read_ok s (this_fat_sec_num f c) Hok Hv) as (s' & -> & Hok' & Hb). cbn [mbind outcome_bind]. exists s'. split; [by rewrite <- Ht|]. split; [|done].
  split; [done|]. intros c' Hc'. destruct (place_valid f c' Hg Hc') as (Hv' & _). unfold entry. rewrite Hb by done. by apply Ht.
Qed.
Definition upd (E : Z -> Z) (c v : Z) : Z -> Z := fun x => if decide (x = c) then v else E x.
Lemma set_next_ok f s E c v : geometry f -> table f s E -> in_table f c -> in_range 32 v ->
  exists s', set_next_clus f s (Some c) v = Ret s' /\ table f s' (upd E c v) /\ outside f s s'.
Proof.
  intros Hg [Hok Ht] Hc Hv. destruct (place_valid f c Hg Hc) as (Hvs & Ho & Ho4 & Hin). cbn [set_next_clus].
  destruct (bs_length s _ Hok Hvs) as [L B]. set (g := fun b => set_bytes b (this_fat_ent_offset f c) (le_split 4 v)).
  assert (length (g (bs_block s (this_fat_sec_num f c))) = length (bs_block s (this_fat_sec_num f c))) as Lg by (apply set_bytes_length; [done|rewrite le_split_length; lia]).
  destruct (bs_modify_ok s (this_fat_sec_num f c) g Hok Hvs) as (s' & -> & Hok' & Hb); [by rewrite Lg|by apply set_bytes_Forall; [|apply le_split_bytes]|].
  exists s'. split; [done|]. split; [split; [done|]|].
  - intros c' Hc'. destruct (place_valid f c' Hg Hc') as (Hvs' & Ho' & Ho4' & _). unfold entry, upd. rewrite Hb by done. case_decide as Es.
    + unfold g. case_decide as D.
      * subst c'. replace 4 with (Z.of_nat (length (le_split 4 v))) at 1 by (by rewrite le_split_length). rewrite get_set_same by (done || rewrite le_split_length; lia). by apply le_combine_split.
      * pose proof (place_apart f c c' Hg Hc Hc' (not_eq_sym D) (eq_sym Es)) as Hap. rewrite get_set_apart by (rewrite ?le_split_length; lia). rewrite <- Es. by apply Ht.
    + rewrite decide_False by congruence. by apply Ht.
  - intros i Hi Hno. rewrite Hb by done. rewrite decide_False; [done|]. intros ->. by apply Hno.
Qed.

Lemma geometry_place f f' : same_place f f' -> geometry f -> geometry f'.
Proof. intros (E1 & E2 & E3) [H1 H2 H3 H4]. split; rewrite ?E1, ?E2, ?E3; done. Qed.
Lemma table_place f f' s E : same_place f f' -> table f s E -> table f' s E.
Proof.
  destruct f, f'. unfold same_place. cbn. intros (-> & -> & ->) H. exact H.
Qed.
Lemma outside_trans f s1 s2 s3 : outside f s1 s2 -> outside f s2 s3 -> outside f s1 s3.
Proof. intros H1 H2 i Hi Hn. by rewrite H2, H1. Qed.
Lemma outside_read f s s' : (forall i, valid i -> bs_block s' i = bs_block s i) -> outside f s s'.
Proof. intros H i Hi _. by apply H. Qed.

(** ** Chains *)
Definition nxt (E : Z -> Z) (c : Z) : Z := Z.land (E c) EOC.
Definition is_free (E : Z -> Z) (c : Z) : bool := FAT_ENTRY_FREE =? nxt E c.
Fixpoint path (E : Z -> Z) (l : list Z) : Prop :=
  match l with
  | c :: (d :: _) as r => nxt E c = d /\ ends_chain d = false /\ path E r
  | _ => True
  end.
(** The clusters of a file, the last one marked. *)
Definition chain (E : Z -> Z) (l : list Z) : Prop := path E l /\ exists z, last l = Some z /\ FAT_ENTRY_RESERVED_TO_END <= nxt E z.

Lemma get_all_ok f : geometry f -> forall l s E c fuel, table f s E -> Forall (in_table f) (c :: l) -> chain E (c :: l) -> (length l < fuel)%nat ->
  exists s', get_all_clus_num fuel f s c = Ret (Some (c :: l), s') /\ table f s' E /\ outside f s s'.
Proof.
  intros Hg l. induction l as [|d l IH]; intros s E c [|fuel] Ht Hin [Hp (z & Hz & He)] Hf; try (cbn in Hf; lia);
    apply Forall_cons in Hin as [Hc Hl]; cbn [get_all_clus_num]; destruct (get_next_ok f s E c Hg Ht Hc) as (s1 & -> & Ht1 & Hb1); cbn [mbind outcome_bind]; fold (nxt E c).
  - cbn in Hz. injection Hz as <-. assert (ends_chain (nxt E c) = true) as ->.
    { unfold ends_chain. rewrite (proj2 (Z.leb_le _ _) He). apply orb_true_r. }
    exists s1. split; [done|]. split; [done|]. by apply outside_read.
  - destruct Hp as (E1 & E2 & Hp). rewrite E1, E2. destruct (IH s1 E d fuel Ht1 Hl) as (s2 & -> & Ht2 & Ho2); [split; [done|by exists z]|cbn in Hf; lia|].
    exists s2. split; [done|]. split; [done|]. eapply outside_trans; [by apply outside_read|done].
Qed.

Lemma scan_free_ok f E : geometry f -> forall cs s, table f s E -> Forall (in_table f) cs ->
  exists s', scan_free f s cs = Ret (find_first (is_free E) cs, s') /\ table f s' E /\ outside f s s'.
Proof.
  intros Hg cs. induction cs as [|c cs IH]; intros s Ht Hin; cbn [scan_free find_first]; [by exists s|]. apply Forall_cons in Hin as [Hc Hcs].
  destruct (get_next_ok f s E c Hg Ht Hc) as (s1 & -> & Ht1 & Hb1). cbn [mbind outcome_bind]. fold (nxt E c). fold (is_free E c).
  destruct (is_free E c); [exists s1; split; [done|]; split; [done|by apply outside_read]|].
  destruct (IH s1 Ht1 Hcs) as (s2 & -> & Ht2 & Ho2). exists s2. split; [done|]. split; [done|]. eapply outside_trans; [by apply outside_read|done].
Qed.

(** ** Allocation *)
Definition link1 (E : Z -> Z) (z : option Z) (c : Z) : Z -> Z := match z with Some z => upd E z c | None => E end.
Fixpoint link (E : Z -> Z) (z : option Z) (l : list Z) : Z -> Z :=
  match l with [] => E | c :: l => link (link1 E z c) (Some c) l end.
Definition final (z : option Z) (l : list Z) : option Z := match last l with Some c => Some c | None => z end.
Definition opt_in (f : Fat) (z : option Z) : Prop := match z with Some c => in_table f c | None => True end.

Lemma set_opt_ok f s E z v : geometry f -> table f s E -> opt_in f z -> in_range 32 v ->
  exists s', set_next_clus f s z v = Ret s' /\ table f s' (link1 E z v) /\ outside f s s'.
Proof. destruct z as [c|]; cbn [opt_in link1]; intros; [by apply set_next_ok|]. exists s. split; [done|]. split; [done|by intros i]. Qed.
Lemma table_range f c : geometry f -> in_table f c -> in_range 32 c.
Proof. intros [_ Ht _ _] H. unfold in_table, in_range, BAD_BLOCK in *. lia. Qed.
Lemma peek_ok f s E z : geometry f -> table f s E -> opt_in f z ->
  exists n s', match z with Some c => get_next_clus_num f s c | None => Ret (0, s) end = Ret (n, s') /\ table f s' E /\ outside f s s'.
Proof.
  destruct z as [c|]; intros Hg Ht Hz; [|by exists 0, s]. destruct (get_next_ok f s E c Hg Ht Hz) as (s' & -> & Ht' & Hb). exists (Z.land (E c) EOC), s'.
  split; [done|]. split; [done|by apply outside_read].
Qed.

(** A cluster from the queue of known free clusters. *)
Lemma alloc_one_vacant f s E z v c : geometry f -> table f s E -> opt_in f z -> vacant_clus f = v ++ [c] -> in_table f c ->
  exists s', alloc_one f s z = Ret (Some c, with_vacant f v, s') /\ table f s' (link1 E z c) /\ outside f s s'.
Proof.
  intros Hg Ht Hz Hv Hc. unfold alloc_one. destruct (peek_ok f s E z Hg Ht Hz) as (n & s1 & -> & Ht1 & Ho1). cbn [mbind outcome_bind]. rewrite Hv, vec_pop_snoc.
  destruct (set_opt_ok f s1 E z c Hg Ht1 Hz (table_range f c Hg Hc)) as (s2 & -> & Ht2 & Ho2). exists s2. split; [done|]. split; [done|]. by eapply outside_trans.
Qed.
(** A cluster from the table, when there is a free one at or after the hint. *)
Lemma alloc_one_scan f s E z c : geometry f -> table f s E -> opt_in f z -> vacant_clus f = [] -> 0 <= hint f < tot_ent f ->
  find_first (is_free E) (seqZ (hint f) (tot_ent f - hint f)) = Some c ->
  exists s', alloc_one f s z = Ret (Some c, with_hint f ((c + 1) mod tot_ent f), s') /\ table f s' (link1 E z c) /\ outside f s s'.
Proof.
  intros Hg Ht Hz Hv Hh Hff. pose proof Hg as [_ Hs _ _]. unfold BAD_BLOCK in Hs. assert (in_table f c) as Hc.
  { apply find_first_Some in Hff as [Hin _]. apply elem_of_seqZ in Hin. unfold in_table. lia. }
  unfold alloc_one. destruct (peek_ok f s E z Hg Ht Hz) as (n & s1 & -> & Ht1 & Ho1). cbn [mbind outcome_bind]. rewrite Hv. cbn [vec_pop].
  unfold get_next_free_clus. rewrite !(wrap_small 32) by (unfold in_range; lia).
  destruct (scan_free_ok f E Hg (seqZ (hint f) (tot_ent f - hint f)) s1 Ht1) as (s2 & -> & Ht2 & Ho2).
  { apply Forall_forall. intros x Hx. apply elem_of_seqZ in Hx. unfold in_table. lia. }
  rewrite Hff. cbn [mbind outcome_bind]. destruct (set_opt_ok f s2 E z c Hg Ht2 Hz (table_range f c Hg Hc)) as (s3 & -> & Ht3 & Ho3). cbn [mbind outcome_bind].
  exists s3. split.
  - do 3 f_equal. unfold in_table in Hc. rewrite wrap_small by (unfold in_range; lia). done.
  - split; [done|]. eapply outside_trans; [done|]. by eapply outside_trans.
Qed.

Lemma final_cons z c l : final z (c :: l) = final (Some c) l.
Proof. unfold final. rewrite last_cons. by destruct (last l). Qed.
Lemma alloc_loop_vacant l : forall f s E z v, geometry f -> table f s E -> opt_in f z -> vacant_clus f = v ++ reverse l -> Forall (in_table f) l ->
  exists s', alloc_loop (length l) f s z = Ret (l, final z l, with_vacant f v, s') /\ table f s' (link E z l) /\ outside f s s'.
Proof.
  induction l as [|c l IH]; intros f s E z v Hg Ht Hz Hv Hl; cbn [length alloc_loop link].
  { rewrite app_nil_r in Hv. exists s. split; [destruct f; cbn in *; by subst|]. split; [done|by intros i]. }
  apply Forall_cons in Hl as [Hc Hl]. rewrite reverse_cons, app_assoc in Hv.
  destruct (alloc_one_vacant f s E z (v ++ reverse l) c Hg Ht Hz Hv Hc) as (s1 & -> & Ht1 & Ho1). cbn [mbind outcome_bind].
  set (f1 := with_vacant f (v ++ reverse l)). assert (same_place f f1) as Hp by done.
  destruct (IH f1 s1 (link1 E z c) (Some c) v (geometry_place _ _ Hp Hg) (table_place _ _ _ _ Hp Ht1) Hc eq_refl Hl) as (s2 & -> & Ht2 & Ho2).
  cbn [mbind outcome_bind]. exists s2. rewrite final_cons. split; [done|]. split; [exact Ht2|]. by eapply outside_trans.
Qed.

(** The free clusters from [h] on. *)
Definition frees (f : Fat) (E : Z -> Z) (h : Z) : list Z := List.filter (is_free E) (seqZ h (tot_ent f - h)).
Lemma filter_seqZ p n : forall h c r, List.filter p (seqZ h (Z.of_nat n)) = c :: r ->
  h <= c < h + Z.of_nat n /\ find_first p (seqZ h (Z.of_nat n)) = Some c /\ r = List.filter p (seqZ (c + 1) (h + Z.of_nat n - (c + 1))).
Proof.
  induction n as [|n IH]; intros h c r; [done|]. rewrite seqZ_cons by lia. replace (Z.pred (Z.of_nat (Datatypes.S n))) with (Z.of_nat n) by lia. cbn [List.filter find_first].
  destruct (p h).
  - intros [= <- <-]. split; [lia|]. split; [done|]. f_equal. f_equal; lia.
  - intros H. destruct (IH _ _ _ H) as (H1 & H2 & H3). split; [lia|]. split; [done|]. rewrite H3. f_equal. f_equal. lia.
Qed.
Lemma frees_cons f E h c r : 0 <= h < tot_ent f -> frees f E h = c :: r ->
  h <= c < tot_ent f /\ find_first (is_free E) (seqZ h (tot_ent f - h)) = Some c /\ r = frees f E (c + 1).
Proof.
  intros Hh H. unfold frees in *. replace (tot_ent f - h) with (Z.of_nat (Z.to_nat (tot_ent f - h))) in H by lia. destruct (filter_seqZ _ _ _ _ _ H) as (H1 & H2 & H3).
  replace (Z.of_nat (Z.to_nat (tot_ent f - h))) with (tot_ent f - h) in * by lia. split; [lia|]. split; [done|]. rewrite H3. f_equal. f_equal. lia.
Qed.
Lemma nxt_small E c : 0 <= E c <= EOC -> nxt E c = E c.
Proof.
  intros H. unfold nxt. change EOC with (Z.ones 28). rewrite Z.land_ones by lia. apply Z.mod_small. unfold EOC in H. lia.
Qed.
Lemma link1_free E z c x : 0 < c <= EOC -> (forall y, z = Some y -> x = y -> is_free E y = false) -> is_free (link1 E z c) x = is_free E x.
Proof.
  intros Hc Hz. destruct z as [y|]; [|done]. cbn [link1]. unfold is_free, nxt, upd. case_decide as D; [|done]. subst x. specialize (Hz y eq_refl eq_refl).
  unfold is_free, nxt in Hz. rewrite Hz. unfold FAT_ENTRY_FREE. change EOC with (Z.ones 28). rewrite Z.land_ones by lia. unfold EOC in Hc. rewrite Z.mod_small by lia. lia.
Qed.

Lemma alloc_loop_scan n : forall f s E z, geometry f -> table f s E -> opt_in f z -> vacant_clus f = [] -> 0 <= hint f < tot_ent f -> is_free E 0 = false ->
  (forall y, z = Some y -> y < hint f \/ is_free E y = false) -> (n <= length (frees f E (hint f)))%nat ->
  let l := take n (frees f E (hint f)) in exists f' s', alloc_loop n f s z = Ret (l, final z l, f', s') /\ table f s' (link E z l) /\ outside f s s' /\
    same_place f f' /\ vacant_clus f' = [] /\ 0 <= hint f' < tot_ent f /\ hint f' = match last l with Some c => (c + 1) mod tot_ent f | None => hint f end.
Proof.
  induction n as [|n IH]; intros f s E z Hg Ht Hz Hv Hh H0 Hy Hn; cbn [alloc_loop].
  { cbn. exists f, s. split; [done|]. split; [done|]. by split; [intros i|]. }
  destruct (frees f E (hint f)) as [|c r] eqn:Ef; [cbn in Hn; lia|]. destruct (frees_cons f E (hint f) c r Hh Ef) as (Hc & Hff & Hr).
  destruct (alloc_one_scan f s E z c Hg Ht Hz Hv Hh Hff) as (s1 & -> & Ht1 & Ho1). cbn [mbind outcome_bind take length] in *.
  set (f1 := with_hint f ((c + 1) mod tot_ent f)). assert (same_place f f1) as Hp by done. pose proof Hg as [_ Hs _ _]. unfold BAD_BLOCK in Hs.
  assert (0 <= (c + 1) mod tot_ent f < tot_ent f) as Hh1 by (apply Z.mod_pos_bound; lia).
  assert (is_free E c = true) as Hcf by (by apply find_first_Some in Hff as [_ ?]). assert (0 < c) as Hc0 by (destruct (decide (c = 0)) as [->|]; [congruence|lia]).
  assert (forall x, (x = 0 \/ c < x) -> is_free (link1 E z c) x = is_free E x) as Hsame.
  { intros x Hx. apply link1_free; [unfold EOC; lia|]. intros y Ez ->. destruct (Hy y Ez) as [Hyh|]; [|done]. destruct Hx as [->|]; [done|lia]. }
  destruct n as [|n].
  { exists f1, s1. cbn [alloc_loop mbind outcome_bind take link]. split_and!; done || apply Hh1. }
  assert (c + 1 < tot_ent f) as Hlt.
  { destruct (decide (c + 1 < tot_ent f)); [done|]. assert (frees f E (c + 1) = []) as E0 by (unfold frees; by replace (tot_ent f - (c + 1)) with 0 by lia). rewrite Hr, E0 in Hn. cbn [length] in Hn. lia. }
  assert (hint f1 = c + 1) as Eh by (unfold f1; cbn; apply Z.mod_small; lia).
  assert (frees f1 (link1 E z c) (hint f1) = r) as Er.
  { rewrite Hr, Eh. unfold frees. apply filter_ext_elem. intros x Hx. apply elem_of_seqZ in Hx. apply Hsame. lia. }
  destruct (IH f1 s1 (link1 E z c) (Some c) (geometry_place _ _ Hp Hg) (table_place _ _ _ _ Hp Ht1)) as (f2 & s2 & E2 & Ht2 & Ho2 & Hp2 & Hv2 & Hh2 & Hl2); try done.
  - unfold opt_in, in_table. cbn. lia.
  - by rewrite Hsame by (by left).
  - intros y [= <-]. left. lia.
  - rewrite Er. lia.
  - rewrite Er in E2, Ht2, Hl2. rewrite E2. cbn [mbind outcome_bind]. exists f2, s2. rewrite final_cons. split; [done|]. split; [exact Ht2|]. split; [by eapply outside_trans|].
    split; [destruct Hp as (P1 & P2 & P3), Hp2 as (Q1 & Q2 & Q3); by split_and!|]. split; [done|]. split; [done|]. rewrite Hl2, last_cons. destruct r as [|d r]; [cbn [length] in Hn; lia|]. cbn [take]. rewrite last_cons. by destruct (last (take n r)).
Qed.

(** ** What allocation does to chains *)
Lemma path_ext E E' l z : (forall x, x ∈ l -> E' x = E x) -> path E (l ++ [z]) -> path E' (l ++ [z]).
Proof.
  induction l as [|c l IH]; intros H Hp; [done|]. assert (E' c = E c) as Ec by (apply H; left).
  assert (forall x, x ∈ l -> E' x = E x) as Hl by (intros x Hx; apply H; by right). specialize (IH Hl).
  destruct l as [|d l]; cbn in *; unfold nxt in *; rewrite Ec; naive_solver.
Qed.
Lemma path_snoc E l z c : path E (l ++ [z]) -> nxt E z = c -> ends_chain c = false -> path E (l ++ [z] ++ [c]).
Proof.
  induction l as [|d l IH]; intros Hp Hz He; [done|]. destruct l as [|e l]; cbn in *; naive_solver.
Qed.
Lemma path_cons_inv E c l : path E (c :: l) -> path E l.
Proof. destruct l; [done|]. by intros (_ & _ & H). Qed.
Lemma path_nonfree E l z : path E (l ++ [z]) -> forall x, x ∈ l -> is_free E x = false.
Proof.
  induction l as [|c l IH]; intros Hp x; [by intros ?%elem_of_nil|]. intros [->|Hx]%elem_of_cons.
  - unfold is_free. assert (exists d, nxt E c = d /\ ends_chain d = false) as (d & -> & Hd) by (destruct l as [|d l]; cbn in Hp; naive_solver).
    unfold ends_chain in Hd. apply orb_false_iff in Hd as [Hd _]. apply orb_false_iff in Hd as [_ Hd]. rewrite Z.eqb_sym. exact Hd.
  - apply IH; [|done]. by eapply path_cons_inv.
Qed.
Lemma end_nonfree E z : FAT_ENTRY_RESERVED_TO_END <= nxt E z -> is_free E z = false.
Proof. unfold is_free, FAT_ENTRY_RESERVED_TO_END, FAT_ENTRY_FREE. lia. Qed.
Lemma upd_eq E c v : upd E c v c = v.
Proof. unfold upd. by rewrite decide_True. Qed.
Lemma upd_ne E c v x : x <> c -> upd E c v x = E x.
Proof. intros. unfold upd. by rewrite decide_False. Qed.
Lemma nxt_upd E c v : 0 <= v <= EOC -> nxt (upd E c v) c = v.
Proof. intros H. rewrite nxt_small; by rewrite upd_eq. Qed.

(** Cluster numbers that can be linked. *)
Definition linkable (c : Z) : Prop := 0 < c < BAD_BLOCK.
Lemma linkable_spec c : linkable c -> 0 <= c <= EOC /\ ends_chain c = false.
Proof. unfold linkable, ends_chain, BAD_BLOCK, EOC, FAT_ENTRY_FREE, FAT_ENTRY_RESERVED_TO_END. lia. Qed.

Lemma link_path l : forall E old z, path E (old ++ [z]) -> NoDup (old ++ z :: l) -> Forall linkable l ->
  path (link E (Some z) l) (old ++ z :: l) /\ forall x, x ∉ z :: l -> link E (Some z) l x = E x.
Proof.
  induction l as [|c l IH]; intros E old z Hp Hn Hl; cbn [link]; [by split|]. apply Forall_cons in Hl as [Hc Hl]. destruct (linkable_spec c Hc) as [Hr He].
  assert (z ∉ old) as Hz by (intros H; apply NoDup_app in Hn as (_ & Hn & _); apply (Hn z H); left).
  destruct (IH (upd E z c) (old ++ [z]) c) as [IP IX]; [|by rewrite <- app_assoc|done|].
  - rewrite <- app_assoc. apply path_snoc; [|by apply nxt_upd|done]. apply (path_ext E); [|done]. intros x Hx. apply upd_ne. by intros ->.
  - rewrite <- app_assoc in IP. split; [exact IP|]. intros x Hx. rewrite not_elem_of_cons in Hx. destruct Hx as [Hxz Hxl]. cbn [link1]. rewrite IX by done. by apply upd_ne.
Qed.

(** The table after allocating [l] behind [z]. *)
Definition linked (E : Z -> Z) (z : option Z) (l : list Z) : Z -> Z := link1 (link E z l) (final z l) EOC.
Lemma linked_some E old z l : path E (old ++ [z]) -> NoDup (old ++ z :: l) -> Forall linkable l ->
  chain (linked E (Some z) l) (old ++ z :: l) /\ forall x, x ∉ z :: l -> linked E (Some z) l x = E x.
Proof.
  intros Hp Hn Hl. destruct (link_path l E old z Hp Hn Hl) as [HP HX]. unfold linked. assert (exists init w, z :: l = init ++ [w]) as (init & w & Ew).
  { destruct (exists_last (l := z :: l)) as (i & w & Ew); [done|by exists i, w]. }
  assert (final (Some z) l = Some w) as -> by (rewrite <- (final_cons (Some z)), Ew; unfold final; by rewrite last_snoc). cbn [link1].
  rewrite Ew in *. rewrite app_assoc in *. split; [split|].
  - apply (path_ext (link E (Some z) l)); [|done]. intros x Hx. apply upd_ne. intros ->. apply NoDup_app in Hn as (_ & Hn & _). apply (Hn w Hx). left.
  - exists w. rewrite last_snoc. split; [done|]. rewrite nxt_upd; unfold EOC, FAT_ENTRY_RESERVED_TO_END; lia.
  - intros x Hx. rewrite upd_ne; [by apply HX|]. intros ->. apply Hx. apply elem_of_app. right. left.
Qed.
Lemma linked_none E c l : NoDup (c :: l) -> Forall linkable (c :: l) -> chain (linked E None (c :: l)) (c :: l) /\ forall x, x ∉ c :: l -> linked E None (c :: l) x = E x.
Proof.
  intros Hn Hl. apply Forall_cons in Hl as [_ Hl]. unfold linked. rewrite final_cons. cbn [link link1]. apply (linked_some E [] c l); done.
Qed.

(** The bookkeeping in memory agrees with the table: the queue holds free clusters, once each. *)
Record fat_ok (f : Fat) (E : Z -> Z) : Prop := {
  fo_vacant : Forall (fun c => 2 <= c < tot_ent f + 2 /\ is_free E c = true) (vacant_clus f);
  fo_nodup : NoDup (vacant_clus f);
  fo_hint : 0 <= hint f < tot_ent f;
  fo_reserved : is_free E 0 = false /\ is_free E 1 = false;
}.
(** The clusters given out next: the end of the queue, or, when it is empty, the first free ones from the
    hint to the end of the table. *)
Definition supply (f : Fat) (E : Z -> Z) (l : list Z) : Prop :=
  (exists v, vacant_clus f = v ++ reverse l) \/ (vacant_clus f = [] /\ exists n, l = take n (frees f E (hint f)) /\ (n <= length (frees f E (hint f)))%nat).

Lemma supply_spec f E l : fat_ok f E -> supply f E l -> NoDup l /\ Forall (fun c => 2 <= c < tot_ent f + 2 /\ is_free E c = true) l.
Proof.
  intros [Hv Hn Hh [H0 H1]] Hs. destruct Hs as [(v & E1)|(_ & n & -> & _)].
  - rewrite E1 in Hv, Hn. apply NoDup_app in Hn as (_ & _ & Hn). apply Forall_app in Hv as [_ Hv]. split; [by rewrite reverse_Permutation in Hn|]. by apply (proj1 (Forall_reverse _ _)) in Hv.
  - split.
    + apply (sublist_NoDup _ (seqZ (hint f) (tot_ent f - hint f))); [apply NoDup_seqZ|]. transitivity (frees f E (hint f)); [apply sublist_take|apply sublist_filter_bool].
    + apply Forall_take, Forall_forall. intros c Hc. apply elem_of_filter_bool in Hc as [Hin Hf]. apply elem_of_seqZ in Hin. split; [|done].
      assert (c <> 0) by (intros ->; congruence). assert (c <> 1) by (intros ->; congruence). lia.
Qed.

Lemma alloc_loop_ok f s E z l : geometry f -> table f s E -> fat_ok f E -> opt_in f z -> (forall y, z = Some y -> is_free E y = false) -> supply f E l ->
  exists f' s', alloc f s (length l) z = Ret (l, f', s') /\ same_place f f' /\ table f s' (linked E z l) /\ outside f s s' /\ 0 <= hint f' < tot_ent f /\
    ((vacant_clus f = vacant_clus f' ++ reverse l /\ hint f' = hint f) \/ (vacant_clus f = [] /\ vacant_clus f' = [] /\ hint f' = match last l with Some c => (c + 1) mod tot_ent f | None => hint f end)).
Proof.
  intros Hg Ht Hok Hz Hzf Hs. destruct (supply_spec f E l Hok Hs) as [Hnd Hl]. unfold alloc.
  assert (Forall (in_table f) l) as Hin by (eapply Forall_impl; [exact Hl|]; cbn; intros c [Hc _]; unfold in_table; lia).
  assert (opt_in f (final z l)) as Hfin.
  { unfold final. destruct (last l) as [c|] eqn:El; [|done]. cbn. rewrite Forall_forall in Hin. apply Hin. by apply last_Some_elem_of. }
  assert (in_range 32 EOC) as Heoc by (unfold in_range, EOC; lia).
  destruct Hs as [(v & E1)|(Hv & n & El & Hn)].
  - destruct (alloc_loop_vacant l f s E z v Hg Ht Hz E1 Hin) as (s1 & -> & Ht1 & Ho1). cbn [mbind outcome_bind]. set (f1 := with_vacant f v).
    destruct (set_opt_ok f1 s1 (link E z l) (final z l) EOC (geometry_place f f1 ltac:(done) Hg) Ht1 Hfin Heoc) as (s2 & -> & Ht2 & Ho2). cbn [mbind outcome_bind].
    exists f1, s2. split; [done|]. split; [done|]. split; [done|]. split; [by eapply outside_trans|]. split; [apply Hok|by left].
  - assert (length l = n) as <- by (rewrite El, length_take; lia).
    destruct (alloc_loop_scan (length l) f s E z Hg Ht Hz Hv (fo_hint _ _ Hok) (proj1 (fo_reserved _ _ Hok))) as (f1 & s1 & E1 & Ht1 & Ho1 & Hp1 & Hv1 & Hh1 & Hn1); [intros y Ey; right; by apply Hzf|done|].
    rewrite <- El in E1, Ht1, Hn1. rewrite E1. cbn [mbind outcome_bind].
    destruct (set_opt_ok f1 s1 (link E z l) (final z l) EOC (geometry_place f f1 Hp1 Hg) (table_place f f1 _ _ Hp1 Ht1)) as (s2 & -> & Ht2 & Ho2); [|done|].
    { unfold opt_in, in_table in *. destruct Hp1 as (_ & _ & ->). done. }
    cbn [mbind outcome_bind]. exists f1, s2. split; [done|]. split; [done|]. split.
    + apply (table_place f1 f); [|done]. destruct Hp1 as (P1 & P2 & P3). by split_and!.
    + split; [eapply outside_trans; [done|]|by split; [|right]]. unfold outside in *. by destruct Hp1 as (<- & _ & <-).
Qed.
Lemma is_free_ext E E' x : E' x = E x -> is_free E' x = is_free E x.
Proof. intros H. unfold is_free, nxt. by rewrite H. Qed.


(** A chain's clusters are in use. *)
Lemma chain_used E l x : chain E l -> x ∈ l -> is_free E x = false.
Proof.
  intros [Hp (z & Hz & He)] Hx. apply last_Some in Hz as (o & ->). apply elem_of_app in Hx as [Hx|Hx]; [by eapply path_nonfree|].
  apply list_elem_of_singleton in Hx as ->. by apply end_nonfree.
Qed.
(** A file: no cluster yet, or a chain. *)
Definition file_chain (f : Fat) (E : Z -> Z) (l : list Z) : Prop :=
  (l = [] \/ chain E l) /\ NoDup l /\ Forall (fun c => 2 <= c < tot_ent f + 2) l.
Lemma file_used f E l x : file_chain f E l -> x ∈ l -> is_free E x = false.
Proof. intros [[->|Hc] _] Hx; [by apply elem_of_nil in Hx|by eapply chain_used]. Qed.

Lemma linked_chain f E old l : geometry f -> fat_ok f E -> file_chain f E old -> supply f E l ->
  file_chain f (linked E (last old) l) (old ++ l) /\ forall x, last old <> Some x -> x ∉ l -> linked E (last old) l x = E x.
Proof.
  intros Hg Hok Hold Hs. destruct (supply_spec f E l Hok Hs) as [Hndl Hl]. pose proof (ge_size f Hg) as Hsz. pose proof Hold as (Hch & Hnd & Hin).
  assert (Forall linkable l) as Hlk by (eapply Forall_impl; [exact Hl|]; cbn; unfold linkable; intros; lia).
  assert (NoDup (old ++ l)) as Hnd2.
  { apply NoDup_app. split; [done|]. split; [|done]. intros x Hx Hxl. rewrite Forall_forall in Hl. destruct (Hl x Hxl) as [_ F]. by rewrite (file_used f E old x Hold Hx) in F. }
  assert (Forall (fun c => 2 <= c < tot_ent f + 2) (old ++ l)) as Hin2.
  { apply Forall_app. split; [done|]. eapply Forall_impl; [exact Hl|]. by intros c [? _]. }
  destruct Hch as [->|[Hp (z & Hz & He)]].
  - destruct l as [|c l]; [by split; [split; [left|]|]|]. destruct (linked_none E c l Hndl Hlk) as [A B]. split; [by split; [right|]|]. intros x _ Hx. by apply B.
  - rewrite Hz. apply last_Some in Hz as (o & ->). rewrite <- app_assoc in *. destruct (linked_some E o z l Hp Hnd2 Hlk) as [A B]. split; [by split; [right|]|].
    intros x Hxz Hxl. apply B. rewrite not_elem_of_cons. split; [congruence|done].
Qed.
(** The bookkeeping stays right when no cluster of the queue and no reserved one changes. *)
Lemma fat_ok_change f f' E E' : fat_ok f E -> same_place f f' -> 0 <= hint f' < tot_ent f -> NoDup (vacant_clus f') ->
  Forall (fun c => 2 <= c < tot_ent f + 2 /\ is_free E' c = true) (vacant_clus f') -> (forall x, x < 2 -> E' x = E x) -> fat_ok f' E'.
Proof.
  intros [Hv Hn Hh [H0 H1]] (_ & _ & P3) Hh' Hn' Hv' Hr. split; rewrite ?P3; try done. by rewrite (is_free_ext E E' 0), (is_free_ext E E' 1) by (apply Hr; lia).
Qed.
Lemma last_in {A} (P : A -> Prop) l x : Forall P l -> last l = Some x -> P x.
Proof. intros H Hx. rewrite Forall_forall in H. by apply H, last_Some_elem_of. Qed.

(** What is left for the next file. *)
Lemma frees_drop f E k : forall h c, 0 <= h < tot_ent f -> last (take k (frees f E h)) = Some c -> frees f E h = take k (frees f E h) ++ frees f E (c + 1).
Proof.
  induction k as [|k IH]; intros h c Hh; [done|]. destruct (frees f E h) as [|d r] eqn:Ef; [done|]. cbn [take]. destruct (frees_cons f E h d r Hh Ef) as (Hd & _ & Hr). rewrite last_cons. destruct (last (take k r)) as [x|] eqn:Ex.
  - intros [= <-]. destruct (decide (d + 1 < tot_ent f)) as [Hlt|Hge]; [|rewrite Hr in Ex; unfold frees in Ex; rewrite seqZ_nil in Ex by lia; by destruct k].
    cbn [app]. f_equal. rewrite Hr in Ex |- *. apply IH; [lia|done].
  - intros [= <-]. apply last_None in Ex. by rewrite Ex, Hr.
Qed.
Lemma frees_change f f' E E' h (l : list Z) : tot_ent f' = tot_ent f -> (forall x, x ∉ l -> is_free E' x = is_free E x) -> (forall x, x ∈ l -> x ∉ seqZ h (tot_ent f - h)) -> frees f' E' h = frees f E h.
Proof. intros Et H Hl. unfold frees. rewrite Et. apply filter_ext_elem. intros x Hx. apply H. intros Hxl. by apply (Hl x Hxl). Qed.
Lemma supply_nil f E : supply f E [].
Proof. left. exists (vacant_clus f). by rewrite app_nil_r. Qed.
Lemma supply_rest f f' E E' l l2 : fat_ok f E -> tot_ent f' = tot_ent f -> supply f E (l ++ l2) -> (forall x, x ∉ l -> is_free E' x = is_free E x) ->
  (vacant_clus f = vacant_clus f' ++ reverse l /\ hint f' = hint f) \/ (vacant_clus f = [] /\ vacant_clus f' = [] /\ hint f' = match last l with Some c => (c + 1) mod tot_ent f | None => hint f end) -> supply f' E' l2.
Proof.
  intros Hok Et Hs Hfree Hv. destruct Hs as [(v & Ev)|(Ev & n & El & Hn)].
  - rewrite reverse_app in Ev. destruct Hv as [[Hv Hh]|(Hv & _ & _)].
    + left. exists v. rewrite Hv, app_assoc in Ev. by apply app_inv_tail in Ev.
    + rewrite Hv in Ev. symmetry in Ev. apply app_eq_nil in Ev as [_ Ev]. apply app_eq_nil in Ev as [Ev _]. destruct l2 as [|x l2]; [apply supply_nil|]. rewrite reverse_cons in Ev. by destruct (reverse l2).
  - assert (vacant_clus f' = []) as Hv' by (destruct Hv as [[Hv _]|(_ & Hv & _)]; [rewrite Ev in Hv; symmetry in Hv; by apply app_eq_nil in Hv as [? _]|done]).
    destruct (last l) as [c|] eqn:Ec.
    + destruct Hv as [[Hv _]|(_ & _ & Hh)]; [rewrite Ev in Hv; symmetry in Hv; apply app_eq_nil in Hv as [_ Hv]; destruct l as [|x l]; [done|rewrite reverse_cons in Hv; by destruct (reverse l)]|].
      set (F := frees f E (hint f)) in *. assert (l = take (length l) F) as Etl. { pose proof (f_equal length El) as Ll. rewrite length_app, length_take in Ll. pose proof (f_equal (take (length l)) El) as Et2. rewrite take_app_length, take_take, Nat.min_l in Et2 by lia. done. }
      pose proof (frees_drop f E (length l) (hint f) c (fo_hint _ _ Hok)) as Hd. fold F in Hd. rewrite <- Etl in Hd. specialize (Hd Ec). rewrite Hd in El. rewrite take_app in El.
      assert (l2 = take (n - length l) (frees f E (c + 1))) as El2. { destruct (decide (length l <= n)%nat) as [Hle|Hgt]; [rewrite (take_ge l) in El by done; by apply app_inv_head in El|]. apply (f_equal length) in El. rewrite !length_app, !length_take in El. destruct l2; [by replace (n - length l)%nat with O by lia|cbn [length] in El; lia]. }
      assert (hint f <= c < tot_ent f) as Hcr. { assert (c ∈ F) as Hc by (rewrite Hd; apply elem_of_app; left; by apply last_Some_elem_of). apply elem_of_filter_bool in Hc as [Hc _]. apply elem_of_seqZ in Hc. lia. }
      destruct (decide (c + 1 < tot_ent f)) as [Hlt|Hge]; [|rewrite El2; unfold frees; rewrite seqZ_nil by lia; cbn [List.filter]; rewrite take_nil; apply supply_nil].
      pose proof (fo_hint _ _ Hok) as Hh0. rewrite Z.mod_small in Hh by lia. right. split; [done|]. exists (n - length l)%nat. rewrite Hh. rewrite (frees_change f f' E E' (c + 1) l Et Hfree); [split; [done|]|].
      * rewrite Hd, length_app in Hn. lia.
      * intros x Hx Hin. assert (x ∈ frees f E (c + 1)) as Hxf. { apply elem_of_filter_bool. split; [done|]. assert (x ∈ F) as HxF by (rewrite Hd; apply elem_of_app; by left). by apply elem_of_filter_bool in HxF as [_ ?]. }
        assert (NoDup F) as HnF by (unfold F, frees; apply NoDup_filter_bool, NoDup_seqZ). rewrite Hd in HnF. apply NoDup_app in HnF as (_ & HnF & _). by apply (HnF x Hx).
    + apply last_None in Ec as ->. cbn [app] in El. right. split; [done|]. exists n. assert (hint f' = hint f) as -> by (by destruct Hv as [[_ ?]|(_ & _ & ?)]). rewrite (frees_change f f' E E' (hint f) [] Et Hfree); [done|]. intros x Hx. by apply elem_of_nil in Hx.
Qed.
Lemma supply_prefix f E l l2 : supply f E (l ++ l2) -> supply f E l.
Proof.
  intros [(v & Ev)|(Ev & n & El & Hn)]; [left; exists (v ++ reverse l2); by rewrite Ev, reverse_app, app_assoc|]. right. split; [done|]. exists (length l). pose proof (f_equal length El) as Ll. rewrite length_app, length_take in Ll.
  pose proof (f_equal (take (length l)) El) as Et. rewrite take_app_length, take_take, Nat.min_l in Et by lia. split; [done|lia].
Qed.
Lemma supply_same f E l l' : supply f E l -> supply f E l' -> length l = length l' -> l = l'.
Proof.
  intros Hs Hs' Hl. assert (forall l, vacant_clus f = [] -> forall v, vacant_clus f = v ++ reverse l -> l = []) as Hnil.
  { intros m E0 v Ev. rewrite E0 in Ev. symmetry in Ev. apply app_eq_nil in Ev as [_ Ev]. destruct m as [|x m]; [done|]. rewrite reverse_cons in Ev. by destruct (reverse m). }
  destruct Hs as [(v & Ev)|(Ev & n & El & Hn)], Hs' as [(v' & Ev')|(Ev' & n' & El' & Hn')].
  - rewrite Ev in Ev'. apply app_inj_2 in Ev' as [_ Er]; [|by rewrite !length_reverse]. by apply (inj reverse) in Er.
  - pose proof (Hnil l Ev' v Ev) as ->. by destruct l'.
  - pose proof (Hnil l' Ev v' Ev') as ->. by destruct l.
  - rewrite El, El' in Hl. rewrite !length_take in Hl. rewrite El, El'. f_equal. lia.
Qed.
Lemma supply_ext f E E' l : 0 <= hint f -> (forall c, in_table f c -> E' c = E c) -> supply f E l -> supply f E' l.
Proof.
  intros Hh H [Hs|(Ev & n & El & Hn)]; [by left|right]. split; [done|]. exists n. assert (frees f E' (hint f) = frees f E (hint f)) as ->; [|done].
  unfold frees. apply filter_ext_elem. intros x Hx. apply is_free_ext, H. apply elem_of_seqZ in Hx. unfold in_table. lia.
Qed.
Lemma fat_ok_ext f E E' : geometry f -> (forall c, in_table f c -> E' c = E c) -> fat_ok f E -> fat_ok f E'.
Proof.
  intros Hg H [Hv Hn Hh [H0 H1]]. pose proof (ge_size f Hg) as Hs. split; [|done|done|].
  - eapply Forall_impl; [exact Hv|]. intros c [Hc Hf]. split; [done|]. rewrite (is_free_ext E E' c); [done|]. apply H. unfold in_table. lia.
  - rewrite (is_free_ext E E' 0), (is_free_ext E E' 1); [done|apply H; unfold in_table; lia|apply H; unfold in_table; lia].
Qed.
Lemma chain_alloc_ok f s E old l : geometry f -> table f s E -> fat_ok f E -> file_chain f E old -> supply f E l ->
  exists f' s' E', alloc f s (length l) (last old) = Ret (l, f', s') /\ same_place f f' /\ table f' s' E' /\ fat_ok f' E' /\ file_chain f' E' (old ++ l) /\
    Forall (fun c => is_free E c = true) l /\ (forall x, last old <> Some x -> x ∉ l -> E' x = E x) /\ outside f s s' /\ forall l2, supply f E (l ++ l2) -> supply f' E' l2.
Proof.
  intros Hg Ht Hok Hold Hs. destruct (supply_spec f E l Hok Hs) as [Hndl Hl]. destruct (linked_chain f E old l Hg Hok Hold Hs) as [Hch Hx]. pose proof Hold as (_ & _ & Hin).
  destruct (alloc_loop_ok f s E (last old) l Hg Ht Hok) as (f' & s' & Ea & Hp & Ht' & Ho & Hh & Hv); [| |done|].
  { destruct (last old) as [z|] eqn:Ez; [|done]. cbn. unfold in_table. pose proof (last_in _ _ _ Hin Ez). cbn in *. lia. }
  { intros y Ey. apply (file_used f E old); [done|]. by apply last_Some_elem_of. }
  exists f', s', (linked E (last old) l). split; [done|]. split; [done|]. split; [by eapply table_place|]. pose proof (fo_vacant _ _ Hok) as Hvac. rewrite Forall_forall in Hvac.
  assert (forall x, x < 2 -> linked E (last old) l x = E x) as Hlow.
  { intros x Hlt. rewrite Forall_forall in Hl. apply Hx; [|intros Hxl; destruct (Hl x Hxl); lia]. intros Hlast. pose proof (last_in _ _ _ Hin Hlast). cbn in *. lia. }
  split; [apply (fat_ok_change f f' E); try done|split; [|split; [|split; [done|split; [done|]]]]].
  - destruct Hv as [[Ev _]|(_ & -> & _)]; [|constructor]. pose proof (fo_nodup _ _ Hok) as Hn. rewrite Ev in Hn. by apply NoDup_app in Hn as [? _].
  - apply Forall_forall. intros x Hxv. destruct Hv as [[Ev _]|(_ & E0 & _)]; [|rewrite E0 in Hxv; by apply elem_of_nil in Hxv]. pose proof (fo_nodup _ _ Hok) as Hn. rewrite Ev in Hn.
    apply NoDup_app in Hn as (_ & Hn & _). destruct (Hvac x) as [Hr Hf]; [rewrite Ev; apply elem_of_app; by left|]. split; [done|]. rewrite (is_free_ext E); [done|]. apply Hx.
    + intros Hlast. by rewrite (file_used f E old x Hold (last_Some_elem_of _ _ Hlast)) in Hf.
    + intros Hxl. apply (Hn x Hxv). by apply elem_of_reverse.
  - destruct Hch as (? & ? & ?). split; [done|]. split; [done|]. by destruct Hp as (_ & _ & ->).
  - eapply Forall_impl; [exact Hl|]. by intros c [_ ?].
  - intros l2 Hs2. apply (supply_rest f f' E _ l); [done|by destruct Hp as (_ & _ & ?)|done| |done]. intros x Hxl. destruct (decide (last old = Some x)) as [Hlast|Hlast]; [|apply is_free_ext; by apply Hx].
    rewrite (file_used f E old x Hold (last_Some_elem_of _ _ Hlast)). apply (file_used f (linked E (last old) l) (old ++ l)); [done|]. apply elem_of_app. left. by apply last_Some_elem_of.
Qed.

(** ** Freeing *)
Definition clear (E : Z -> Z) (l : list Z) : Z -> Z := fun x => if decide (x ∈ l) then FAT_ENTRY_FREE else E x.
Lemma table_ext f s E E' : (forall x, E' x = E x) -> table f s E -> table f s E'.
Proof. intros H [H1 H2]. split; [done|]. intros c Hc. by rewrite H, H2. Qed.
Lemma clear_cons E c l x : clear E (c :: l) x = clear (upd E c FAT_ENTRY_FREE) l x.
Proof. unfold clear, upd. repeat case_decide; set_solver. Qed.
Lemma free_loop_ok l : forall f s E, geometry f -> table f s E -> Forall (in_table f) l ->
  exists s', free_loop f s l = Ret (with_vacant f (vacant_clus f ++ take (Z.to_nat VACANT_CLUS_CACHE_SIZE - length (vacant_clus f)) l), s') /\ table f s' (clear E l) /\ outside f s s'.
Proof.
  induction l as [|c l IH]; intros f s E Hg Ht Hl; cbn [free_loop].
  { rewrite take_nil, app_nil_r. exists s. split; [by destruct f|]. split; [|by intros i]. eapply table_ext; [|done]. intros x. unfold clear. by rewrite decide_False by (by intros ?%elem_of_nil). }
  apply Forall_cons in Hl as [Hc Hl]. destruct (set_next_ok f s E c FAT_ENTRY_FREE Hg Ht Hc) as (s1 & -> & Ht1 & Ho1); [unfold in_range, FAT_ENTRY_FREE; lia|]. cbn [mbind outcome_bind].
  set (f1 := if _ : bool then _ else _). assert (same_place f f1) as Hp by (unfold f1; by case_match). assert (outside f1 = outside f) as Eo by (unfold f1; by case_match).
  assert (Forall (in_table f1) l) as Hl1 by (unfold in_table in *; by destruct Hp as (_ & _ & ->)).
  destruct (IH f1 s1 _ (geometry_place _ _ Hp Hg) (table_place _ _ _ _ Hp Ht1) Hl1) as (s2 & -> & Ht2 & Ho2). rewrite Eo in Ho2. exists s2. split; [|split].
  - do 2 f_equal. unfold f1, VACANT_CLUS_CACHE_SIZE. destruct (Z.ltb_spec (Z.of_nat (length (vacant_clus f))) 64) as [Hlt|Hge]; unfold with_vacant; cbn.
    + f_equal. rewrite <- app_assoc, length_app. cbn [length]. replace (Z.to_nat 64 - length (vacant_clus f))%nat with (Datatypes.S (Z.to_nat 64 - (length (vacant_clus f) + 1))) by lia. done.
    + f_equal. replace (Z.to_nat 64 - length (vacant_clus f))%nat with O by lia. done.
  - apply (table_ext f s2 (clear (upd E c FAT_ENTRY_FREE) l)); [intros x; apply clear_cons|]. apply (table_place f1 f); [|done]. destruct Hp as (P1 & P2 & P3). by split_and!.
  - by eapply outside_trans.
Qed.
Lemma path_app_l E l r : path E (l ++ r) -> path E l.
Proof. induction l as [|c l IH]; [done|]. destruct l as [|d l]; [done|]. intros (H1 & H2 & H3). by split; [|split; [|apply IH]]. Qed.

(** The table after cutting [drop] off the chain. *)
Definition cut (E : Z -> Z) (keep drop : list Z) : Z -> Z := link1 (clear E drop) (last keep) EOC.
Lemma cut_other E keep drop x : x ∉ drop -> last keep <> Some x -> cut E keep drop x = E x.
Proof.
  intros Hd Hk. unfold cut, clear. destruct (last keep) as [z|]; cbn [link1]; [rewrite upd_ne by congruence|]; by rewrite decide_False.
Qed.
Lemma cut_drop E keep drop x : x ∈ drop -> NoDup (keep ++ drop) -> is_free (cut E keep drop) x = true.
Proof.
  intros Hx Hn. unfold is_free, nxt, cut, clear. replace (link1 _ _ _ x) with FAT_ENTRY_FREE; [done|]. destruct (last keep) as [z|] eqn:Ez; cbn [link1]; [rewrite upd_ne|]; rewrite ?decide_True by done; try done.
  intros ->. apply NoDup_app in Hn as (_ & Hn & _). by apply (Hn z); [apply last_Some_elem_of|].
Qed.
Lemma cut_keep E keep drop : chain E (keep ++ drop) -> NoDup (keep ++ drop) -> keep = [] \/ chain (cut E keep drop) keep.
Proof.
  intros [Hp _] Hn. destruct (last keep) as [z|] eqn:Ez; [right|by left; apply last_None]. pose proof Ez as Ek. apply last_Some in Ek as (o & ->). split.
  - apply path_app_l in Hp. apply (path_ext E); [|done]. intros x Hx. apply NoDup_app in Hn as (Ho & Hn & _). apply cut_other.
    + apply Hn. apply elem_of_app. by left.
    + rewrite last_snoc. intros [= <-]. apply NoDup_app in Ho as (_ & Ho & _). by apply (Ho z Hx), list_elem_of_singleton.
  - exists z. split; [done|]. unfold cut. rewrite Ez. cbn [link1]. rewrite nxt_upd; unfold EOC, FAT_ENTRY_RESERVED_TO_END; lia.
Qed.

Lemma free_ok f s E keep drop drop' : geometry f -> table f s E -> fat_ok f E -> file_chain f E (keep ++ drop) -> drop' ≡ₚ drop ->
  exists f' s', free f s drop' (last keep) = Ret (f', s') /\ same_place f f' /\ table f' s' (cut E keep drop) /\ fat_ok f' (cut E keep drop) /\
    file_chain f' (cut E keep drop) keep /\ outside f s s'.
Proof.
  intros Hg Ht Hok Hfile Hperm. pose proof Hfile as (Hch & Hn & Hin). apply Forall_app in Hin as [Hk Hd]. unfold free.
  assert (Forall (in_table f) drop') as Hd1 by (rewrite Hperm; eapply Forall_impl; [exact Hd|]; unfold in_table; cbn; intros; lia).
  destruct (free_loop_ok drop' f s E Hg Ht Hd1) as (s1 & -> & Ht1 & Ho1). apply (table_ext f s1 _ (clear E drop)) in Ht1; [|intros x; unfold clear; apply decide_ext; by rewrite Hperm]. cbn [mbind outcome_bind]. set (f1 := with_vacant f _). assert (same_place f f1) as Hp by done.
  destruct (set_opt_ok f1 s1 (clear E drop) (last keep) EOC (geometry_place _ _ Hp Hg) Ht1) as (s2 & -> & Ht2 & Ho2).
  { destruct (last keep) as [z|] eqn:Ez; [|done]. pose proof (last_in _ _ _ Hk Ez). cbn. unfold in_table. cbn in *. lia. }
  { unfold in_range, EOC. lia. }
  cbn [mbind outcome_bind]. exists f1, s2. split; [done|]. split; [done|]. split; [done|]. split; [|split; [|by eapply outside_trans]].
  - assert (forall x, x ∈ vacant_clus f -> x ∉ keep ++ drop) as Hvk.
    { intros x Hx Hx2. pose proof (fo_vacant _ _ Hok) as Hv. rewrite Forall_forall in Hv. destruct (Hv x Hx) as [_ F]. by rewrite (file_used f E _ x Hfile Hx2) in F. }
    apply (fat_ok_change f f1 E); [done|done|apply Hok| | |].
    + cbn. apply NoDup_app. split; [apply Hok|]. split; [intros x Hx Hx2; apply (Hvk x Hx), elem_of_app; right; rewrite <- Hperm; by apply (subseteq_take _ _ x Hx2)|].
      apply NoDup_app in Hn as (_ & _ & Hn). rewrite <- Hperm in Hn. eapply sublist_NoDup; [exact Hn|apply sublist_take].
    + unfold f1, with_vacant. cbn [vacant_clus]. apply Forall_app. split; [|apply Forall_take]; apply Forall_forall; intros x Hx.
      * pose proof (fo_vacant _ _ Hok) as Hv. rewrite Forall_forall in Hv. destruct (Hv x Hx) as [Hr F]. split; [done|]. specialize (Hvk x Hx). rewrite not_elem_of_app in Hvk.
        rewrite (is_free_ext E); [done|]. apply cut_other; [apply Hvk|]. intros Hl. by apply (proj1 Hvk), last_Some_elem_of.
      * rewrite Hperm in Hx. rewrite Forall_forall in Hd. split; [by apply Hd|by apply cut_drop].
    + intros x Hx. rewrite Forall_forall in Hk, Hd. apply cut_other; [intros Hxd; specialize (Hd x Hxd); lia|]. intros Hl%last_Some_elem_of. specialize (Hk x Hl). lia.
  - split; [|split; [|done]]; [|by apply NoDup_app in Hn as [? _]]. destruct Hch as [E0|Hch]; [apply app_nil in E0 as [-> _]; by left|by apply cut_keep].
Qed.

(** C28: Allocating clusters for a file, then reading its chain. The clusters returned were free, each is
    returned once, and following the chain from the first cluster gives the file's old clusters
    and then the new ones; no other entry of the table and no block outside it changes. This holds
    as long as the queue of known free clusters covers the request, or is empty with enough free
    clusters behind the hint. *)
Theorem fat_alloc_appends f s E old l c r fuel : geometry f -> table f s E -> fat_ok f E -> file_chain f E old -> supply f E l -> old ++ l = c :: r -> (length r < fuel)%nat ->
  exists f' s' s'' E', alloc f s (length l) (last old) = Ret (l, f', s') /\ get_all_clus_num fuel f' s' c = Ret (Some (old ++ l), s'') /\ table f' s'' E' /\ fat_ok f' E' /\
    NoDup (old ++ l) /\ Forall (fun c => is_free E c = true) l /\ (forall x, last old <> Some x -> x ∉ l -> E' x = E x) /\ outside f s s''.
Proof.
  intros Hg Ht Hok Hold Hs Ec Hf. destruct (chain_alloc_ok f s E old l Hg Ht Hok Hold Hs) as (f' & s' & E' & Ea & Hp & Ht' & Hok' & (Hch & Hn & Hin) & Hfr & Hx & Ho & _).
  rewrite Ec in *. destruct Hch as [|Hch]; [done|]. destruct (get_all_ok f' (geometry_place _ _ Hp Hg) r s' E' c fuel Ht') as (s'' & Eg & Ht2 & Ho2); [|done|done|].
  { eapply Forall_impl; [exact Hin|]. unfold in_table. cbn. intros. lia. }
  exists f', s', s'', E'. do 7 (split; [done|]). apply (outside_trans f s s'); [done|]. destruct Hp as (P1 & P2 & P3). unfold outside in *. by rewrite <- P1, <- P3.
Qed.

(** C29: Cutting a file's chain, the clusters cut off given in any order. The clusters that stay still form the file's chain, the ones cut off
    become free, every other entry is left alone, and the queue of known free clusters stays right:
    it holds free clusters only, each once, and never more than its limit allows. *)
Theorem fat_free_cuts f s E keep drop drop' : geometry f -> table f s E -> fat_ok f E -> file_chain f E (keep ++ drop) -> drop' ≡ₚ drop ->
  Z.of_nat (length (vacant_clus f)) <= VACANT_CLUS_CACHE_SIZE ->
  exists f' s' E', free f s drop' (last keep) = Ret (f', s') /\ table f' s' E' /\ fat_ok f' E' /\ file_chain f' E' keep /\ Forall (fun c => is_free E' c = true) drop /\
    (forall x, x ∉ drop -> last keep <> Some x -> E' x = E x) /\ Z.of_nat (length (vacant_clus f')) <= VACANT_CLUS_CACHE_SIZE /\ outside f s s'.
Proof.
  intros Hg Ht Hok Hfile Hperm Hlen. destruct (free_ok f s E keep drop drop' Hg Ht Hok Hfile Hperm) as (f' & s' & Ef & Hp & Ht' & Hok' & Hk & Ho). pose proof Hfile as (_ & Hn & Hin).
  exists f', s', (cut E keep drop). do 4 (split; [done|]). split; [|split; [|split; [|done]]].
  - apply Forall_forall. intros x Hx. by apply cut_drop.
  - intros x Hx Hl. by apply cut_other.
  - apply Forall_app in Hin as [_ Hd]. destruct (free_loop_ok drop' f s E Hg Ht) as (s1 & E1 & _); [rewrite Hperm; eapply Forall_impl; [exact Hd|]; unfold in_table; cbn; intros; lia|].
    unfold free in Ef. rewrite E1 in Ef. cbn [mbind outcome_bind] in Ef. destruct (set_next_clus _ s1 _ _) as [s2|]; [|done]. injection Ef as <- _. cbn.
    rewrite length_app, length_take. unfold VACANT_CLUS_CACHE_SIZE in *. lia.
Qed.
End Table.

(** ** A small disk: a table of four entries behind block 1, clusters 2 and 3 free *)
Definition demo_disk (es : list Z) : MemBlock.t := fun a => if a <? 512 then 0 else default 0 ((es ≫= le_split 4) !! Z.to_nat (a - 512)).
Definition demo_store_of (es : list Z) : BlockCacheManager.t := BlockCacheManager.new [replicate 512 0] (demo_disk es).
Definition demo_store : BlockCacheManager.t := demo_store_of [EOC; EOC; 0; 0].
(** The same disk with a file of two clusters. *)
Definition demo_file : BlockCacheManager.t := demo_store_of [EOC; EOC; 3; EOC].
Definition demo_fat : Fat := new 1 512 4.
Lemma demo_geometry : geometry (valid := BlockCacheManager.valid) demo_fat.
Proof. split; cbn [demo_fat new byts_per_sec tot_ent start_block_id]; try done; try (unfold BAD_BLOCK; lia). intros i Hi. change (1 <= i <= 1 + 0) in Hi. unfold BlockCacheManager.valid, usize_max. lia. Qed.
Lemma demo_table es : table (ok := BlockCacheManager.ok) demo_fat (demo_store_of es) (entry demo_fat (demo_store_of es)).
Proof.
  split; [|done]. apply BlockCacheManager.block_cache_new_ok; [done| |].
  - apply Forall_singleton. split; [done|]. apply Forall_replicate. unfold byte_ok. lia.
  - intros a. unfold demo_disk, byte_ok. case_match; [lia|]. destruct (_ !! _) as [b|] eqn:Eb; cbn; [|lia].
    apply list_elem_of_lookup_2, list_elem_of_bind in Eb as (x & Hb & _). pose proof (le_split_bytes 4 x) as Hx. rewrite Forall_forall in Hx. by apply Hx.
Qed.
Lemma demo_fat_ok : fat_ok demo_fat (entry demo_fat demo_store).
Proof. split; [constructor|constructor|cbn; lia|by vm_compute]. Qed.

Lemma fat_alloc_appends_witness : exists f' s' s'' E', alloc demo_fat demo_store 2 (last []) = Ret ([2; 3], f', s') /\ get_all_clus_num 2 f' s' 2 = Ret (Some ([] ++ [2; 3]), s'') /\
  table (ok := BlockCacheManager.ok) f' s'' E' /\ fat_ok f' E' /\ NoDup ([] ++ [2; 3]) /\ Forall (fun c => is_free (entry demo_fat demo_store) c = true) [2; 3] /\
  (forall x, last [] <> Some x -> x ∉ [2; 3] -> E' x = entry demo_fat demo_store x) /\ outside (valid := BlockCacheManager.valid) demo_fat demo_store s''.
Proof.
  apply (fat_alloc_appends demo_fat demo_store (entry demo_fat demo_store) [] [2; 3] 2 [3] 2); [apply demo_geometry|apply demo_table|apply demo_fat_ok| | |done|cbn; lia].
  - split; [by left|]. split; constructor.
  - right. split; [done|]. exists 2%nat. by vm_compute.
Defined.

Lemma fat_free_cuts_witness : exists f' s' E', free demo_fat demo_file [3] (last [2]) = Ret (f', s') /\ table (ok := BlockCacheManager.ok) f' s' E' /\ fat_ok f' E' /\ file_chain f' E' [2] /\
  Forall (fun c => is_free E' c = true) [3] /\ (forall x, x ∉ [3] -> last [2] <> Some x -> E' x = entry demo_fat demo_file x) /\
  Z.of_nat (length (vacant_clus f')) <= VACANT_CLUS_CACHE_SIZE /\ outside (valid := BlockCacheManager.valid) demo_fat demo_file s'.
Proof.
  apply (fat_free_cuts demo_fat demo_file (entry demo_fat demo_file) [2] [3] [3]); [apply demo_geometry|apply demo_table| | |done|by vm_compute].
  - split; [constructor|constructor|cbn; lia|by vm_compute].
  - split; [right; split; [by vm_compute|by exists 3]|]. split; [by apply (bool_decide_unpack _)|]. repeat (constructor; [cbn; lia|]). constructor.
Defined.

(** ** Clusters given out twice
    A cluster stays marked free in the table until its successor is set, so a scan finds it again. *)
Definition clusters (r : outcome (list Z * Fat * BlockCacheManager.t)) : option (list Z) := match r with Ret (l, _, _) => Some l | Panic => None end.
(** Asking for more clusters than there are does not fail: the last one is given out again. *)
Example alloc_past_the_end_repeats : clusters (alloc demo_fat demo_store 3 None) = Some [2; 3; 3].
Proof. by vm_compute. Qed.
(** A cluster taken from the queue is found by the scan that follows. *)
Example alloc_after_free_repeats :
  clusters ('(l, f1, s1) ← alloc demo_fat demo_store 2 None; '(f2, s2) ← free f1 s1 l None; alloc f2 s2 3 None) = Some [3; 2; 2].
Proof. by vm_compute. Qed.
