(* ===== verification/FatFile.v ===== *)
(** * FatFile: the content of files on FAT32 (os/src/fs/fat32/efs.rs, os/src/fs/fat32/fat_inode.rs)

    A file is a list of clusters and a size; its bytes are read and changed through its page cache
    ([PageCache]), clusters are taken from and given back to the allocation table ([Fat]). *)
From S2P Require Import Prelude Address Bytes PageStore BlockCache DiskStore PageCache Fat.

Record EasyFileSystem : Type := MkEfs { fat : Fat; data_area_start_block : Z; root_clus : Z; sec_per_clus : Z; efs_byts_per_sec : Z }.
Definition with_fat (e : EasyFileSystem) (f : Fat) : EasyFileSystem := MkEfs f (data_area_start_block e) (root_clus e) (sec_per_clus e) (efs_byts_per_sec e).
(** [FatInode], with the fields of its [FileContent]. *)
Record FatInode : Type := MkInode { size : Z; clus_list : list Z; dir_hint : Z; file_cache_mgr : PageCacheManager.t }.
Definition with_cache (f : FatInode) (m : PageCacheManager.t) : FatInode := MkInode (size f) (clus_list f) (dir_hint f) m.
Definition with_clus (f : FatInode) (l : list Z) : FatInode := MkInode (size f) l (dir_hint f) (file_cache_mgr f).
Definition with_size (f : FatInode) (n : Z) : FatInode := MkInode n (clus_list f) (dir_hint f) (file_cache_mgr f).

Module EasyFileSystem.
Definition clus_size (e : EasyFileSystem) : Z := wrap 32 (efs_byts_per_sec e * sec_per_clus e).
Definition first_sector_of_cluster (e : EasyFileSystem) (clus_num : Z) : Z :=
  wrap 32 (data_area_start_block e + wrap 32 (wrap 32 (clus_num - 2) * sec_per_clus e)).
Definition alloc_blocks {S} `{BlockStore S} (e : EasyFileSystem) (s : S) (blocks : Z) : outcome (list Z * EasyFileSystem * S) :=
  let alloc_num := (blocks ⊖ 1 ⊕ sec_per_clus e) / sec_per_clus e in
  '(clus, f', s') ← Fat.alloc (fat e) s (Z.to_nat alloc_num) None;
  Ret (clus ≫= (fun clus_id => map (fun offset => first_sector_of_cluster e clus_id + offset) (seqZ 0 (sec_per_clus e))), with_fat e f', s').
End EasyFileSystem.
Import EasyFileSystem.

Module FatInode.
Definition div_ceil (mult deno : Z) : Z := wrap 32 (wrap 32 (mult - 1) + deno) / deno.
Definition total_clus (e : EasyFileSystem) (sz : Z) : Z := div_ceil sz (clus_size e).
Definition get_first_clus (f : FatInode) : option Z := head (clus_list f).
Definition get_inode_num (e : EasyFileSystem) (f : FatInode) : option Z := first_sector_of_cluster e <$> get_first_clus f.
Definition get_block_id (e : EasyFileSystem) (f : FatInode) (inner_cache_id : Z) : option Z :=
  (fun clus => wrap 32 (first_sector_of_cluster e clus + inner_cache_id mod sec_per_clus e)) <$> clus_list f !! Z.to_nat (inner_cache_id / sec_per_clus e).

Fixpoint neighboring (e : EasyFileSystem) (clus : list Z) (n : nat) (sec_id : Z) : list Z :=
  match n with
  | O => []
  | S n =>
      match clus !! Z.to_nat (sec_id / sec_per_clus e) with
      | None => []
      | Some c => (first_sector_of_cluster e c + sec_id mod sec_per_clus e) :: neighboring e clus n (sec_id + 1)
      end
  end.
Definition get_neighboring_sec (e : EasyFileSystem) (clus : list Z) (inner_cache_id : nat) : list Z :=
  let sec_per_cache := CACHE_SZ / efs_byts_per_sec e in
  neighboring e clus (Z.to_nat sec_per_cache) (Z.of_nat inner_cache_id * sec_per_cache).

Section Operations.
Context {S : Type} `{!BlockStore S, !RawStore S}.

(** [new]; the chain is followed with [fuel]. *)
Definition new (fuel : nat) (e : EasyFileSystem) (s : S) (fst_clus : Z) (sz : option Z) : outcome (option FatInode * S) :=
  '(o, s') ← ((if fst_clus =? 0 then Ret (Some [], s) else Fat.get_all_clus_num fuel (fat e) s fst_clus) : outcome (option (list Z) * S));
  Ret (option_map (fun clus => MkInode (default (wrap 32 (wrap 32 (Z.of_nat (length clus)) * clus_size e)) sz) clus 0 PageCacheManager.new) o, s').

Definition alloc_clus (e : EasyFileSystem) (f : FatInode) (s : S) (alloc_num : nat) : outcome (EasyFileSystem * FatInode * S) :=
  '(l, ft, s') ← Fat.alloc (fat e) s alloc_num (last (clus_list f));
  Ret (with_fat e ft, with_clus f (clus_list f ++ l), s').
Definition dealloc_clus (e : EasyFileSystem) (f : FatInode) (s : S) (dealloc_num : nat) : outcome (EasyFileSystem * FatInode * S) :=
  let dealloc_num := Nat.min dealloc_num (length (clus_list f)) in
  let keep := take (length (clus_list f) - dealloc_num) (clus_list f) in
  let dealloc_list := reverse (drop (length (clus_list f) - dealloc_num) (clus_list f)) in
  '(ft, s') ← Fat.free (fat e) s dealloc_list (last keep);
  Ret (with_fat e ft, with_clus f keep, s').

Definition oom (kernel_space : bool) (e : EasyFileSystem) (f : FatInode) (s : S) : outcome (Z * FatInode * S) :=
  '(n, m, s') ← PageCacheManager.oom kernel_space (get_neighboring_sec e (clus_list f)) (file_cache_mgr f) s;
  Ret (n, with_cache f m, s').

(** Memory pressure: before page [i] is taken [frame_reserve] may run the file's [oom]; [frames i] is
    what the frame that is then taken holds. *)
Record pressure : Type := Pressure { runs : nat -> option bool; frames : nat -> list Z }.
Definition reserve (pr : pressure) (e : EasyFileSystem) (f : FatInode) (s : S) (i : nat) : outcome (FatInode * S) :=
  match runs pr i with
  | None => Ret (f, s)
  | Some kernel_space => '(_, f', s') ← oom kernel_space e f s; Ret (f', s')
  end.
Definition read_cache {V} (pr : pressure) (e : EasyFileSystem) (f : FatInode) (s : S) (i : nat) (g : list Z -> V) : outcome (V * FatInode * S) :=
  '(f1, s1) ← reserve pr e f s i;
  '(v, m) ← PageCacheManager.read_page (frames pr i) (file_cache_mgr f1) i (get_neighboring_sec e (clus_list f1)) s1 g;
  Ret (v, with_cache f1 m, s1).
Definition modify_cache (pr : pressure) (e : EasyFileSystem) (f : FatInode) (s : S) (i : nat) (g : list Z -> list Z) : outcome (FatInode * S) :=
  '(f1, s1) ← reserve pr e f s i;
  m ← PageCacheManager.modify_page (frames pr i) (file_cache_mgr f1) i (get_neighboring_sec e (clus_list f1)) s1 g;
  Ret (with_cache f1 m, s1).

Definition page_end (start stop : Z) : Z := Z.min ((start / CACHE_SZ ⊕ 1) ⊗ CACHE_SZ) stop.
(** The loops over the pages; one that runs out of [fuel] counts as a failure. *)
Fixpoint read_loop (fuel : nat) (pr : pressure) (e : EasyFileSystem) (f : FatInode) (s : S) (start stop : Z) (start_cache : nat) (buf : list Z) (read_size : Z) : outcome (Z * list Z * FatInode * S) :=
  match fuel with
  | O => Panic
  | Datatypes.S fuel =>
      let end_current_block := page_end start stop in
      let block_read_size := end_current_block ⊖ start in
      rust_assert (read_size + block_read_size <=? Z.of_nat (length buf)) ;;
      rust_assert (start mod CACHE_SZ + block_read_size <=? CACHE_SZ) ;;
      '(src, f', s') ← read_cache pr e f s start_cache (fun data_block => get_bytes data_block (start mod CACHE_SZ) block_read_size);
      let buf' := set_bytes buf read_size src in
      if end_current_block =? stop then Ret (read_size + block_read_size, buf', f', s')
      else read_loop fuel pr e f' s' end_current_block stop (Datatypes.S start_cache) buf' (read_size + block_read_size)
  end.
Definition pages (start stop : Z) : nat := Z.to_nat (stop / CACHE_SZ - start / CACHE_SZ + 1).
Definition read_at_block_cache (pr : pressure) (e : EasyFileSystem) (f : FatInode) (s : S) (offset : Z) (buf : list Z) : outcome (Z * list Z * FatInode * S) :=
  let stop := Z.min (offset ⊕ Z.of_nat (length buf)) (size f) in
  if stop <=? offset then Ret (0, buf, f, s)
  else read_loop (pages offset stop) pr e f s offset stop (Z.to_nat (offset / CACHE_SZ)) buf 0.

Fixpoint write_loop (fuel : nat) (pr : pressure) (e : EasyFileSystem) (f : FatInode) (s : S) (start stop : Z) (start_cache : nat) (buf : list Z) (write_size : Z) : outcome (Z * FatInode * S) :=
  match fuel with
  | O => Panic
  | Datatypes.S fuel =>
      let end_current_block := page_end start stop in
      let block_write_size := end_current_block ⊖ start in
      rust_assert (write_size + block_write_size <=? Z.of_nat (length buf)) ;;
      rust_assert (start mod CACHE_SZ + block_write_size <=? CACHE_SZ) ;;
      '(f', s') ← modify_cache pr e f s start_cache (fun data_block => set_bytes data_block (start mod CACHE_SZ) (get_bytes buf write_size block_write_size));
      if end_current_block =? stop then Ret (write_size + block_write_size, f', s')
      else write_loop fuel pr e f' s' end_current_block stop (Datatypes.S start_cache) buf (write_size + block_write_size)
  end.
(** [dst.fill(0)] on the same pieces. *)
Definition clear_at_block_cache (pr : pressure) (e : EasyFileSystem) (f : FatInode) (s : S) (offset length : Z) : outcome (Z * FatInode * S) :=
  write_loop (pages offset (offset ⊕ length)) pr e f s offset (offset ⊕ length) (Z.to_nat (offset / CACHE_SZ)) (replicate (Z.to_nat length) 0) 0.

Definition modify_size (pr : pressure) (e : EasyFileSystem) (f : FatInode) (s : S) (diff : Z) (clear : bool) : outcome (EasyFileSystem * FatInode * S) :=
  let old_size := size f in
  let new_size := wrap 32 (size f + diff) in
  let old_clus_num := total_clus e old_size in
  let new_clus_num := total_clus e new_size in
  '(e1, f1, s1) ← (if 0 <? diff then alloc_clus e f s (Z.to_nat (new_clus_num ⊖ old_clus_num)) else dealloc_clus e f s (Z.to_nat (old_clus_num ⊖ new_clus_num)));
  let f2 := with_size f1 new_size in
  if 0 <? diff then
    if clear then '(_, f3, s3) ← clear_at_block_cache pr e1 f2 s1 old_size (wrap 32 (new_size - old_size)); Ret (e1, f3, s3)
    else Ret (e1, f2, s1)
  else m ← PageCacheManager.notify_new_size (file_cache_mgr f2) new_size; Ret (e1, with_cache f2 m, s1).

Definition write_at_block_cache (pr : pressure) (e : EasyFileSystem) (f : FatInode) (s : S) (offset : Z) (buf : list Z) : outcome (Z * EasyFileSystem * FatInode * S) :=
  let diff_len := Z.of_nat (length buf) + offset - size f in
  '(e1, f1, s1) ← (if 0 <? diff_len then modify_size pr e f s diff_len false else Ret (e, f, s));
  let stop := Z.min (offset ⊕ Z.of_nat (length buf)) (size f1) in
  '(n, f2, s2) ← write_loop (pages offset stop) pr e1 f1 s1 offset stop (Z.to_nat (offset / CACHE_SZ)) buf 0;
  Ret (n, e1, f2, s2).

Fixpoint get_caches (pr : pressure) (e : EasyFileSystem) (f : FatInode) (s : S) (ids : list nat) : outcome (FatInode * S) :=
  match ids with
  | [] => Ret (f, s)
  | i :: ids =>
      '(f1, s1) ← reserve pr e f s i;
      m ← PageCacheManager.get_cache (frames pr i) (file_cache_mgr f1) i (get_neighboring_sec e (clus_list f1)) s1;
      get_caches pr e (with_cache f1 m) s1 ids
  end.
(** [get_single_cache] and [get_all_cache]: the pages stay held by the caller. *)
Definition get_single_cache (pr : pressure) (e : EasyFileSystem) (f : FatInode) (s : S) (i : nat) : outcome (FatInode * S) := get_caches pr e f s [i].
Definition get_all_cache (pr : pressure) (e : EasyFileSystem) (f : FatInode) (s : S) : outcome (FatInode * S) :=
  get_caches pr e f s (seq 0 (Z.to_nat ((size f + CACHE_SZ - 1) / CACHE_SZ))).
(** [Drop] of a deleted file. *)
Definition drop_deleted (e : EasyFileSystem) (f : FatInode) (s : S) : outcome (EasyFileSystem * FatInode * S) := dealloc_clus e f s (length (clus_list f)).
End Operations.

Section Content.
Context {S : Type} `{!BlockStore S, !RawStore S} {meta data : Z -> Prop} {ok : S -> Prop} `{!DiskStore S meta data ok}.
Implicit Types (e : EasyFileSystem) (f : FatInode) (s : S) (l : list Z).

(** The clusters lie on data blocks, and no sector number overflows. *)
Record fs_ok e : Prop := {
  fs_bytes : efs_byts_per_sec e = BLOCK_SZ;
  fs_sectors : 1 <= sec_per_clus e <= 128;
  fs_start : 0 <= data_area_start_block e;
  fs_range : data_area_start_block e + tot_ent (fat e) * sec_per_clus e <= 2 ^ 32;
  fs_data : forall c k, 2 <= c < tot_ent (fat e) + 2 -> 0 <= k < sec_per_clus e -> data (data_area_start_block e + (c - 2) * sec_per_clus e + k);
}.
Definition clusters_ok e l : Prop := NoDup l /\ Forall (fun c => 2 <= c < tot_ent (fat e) + 2) l.
Definition sectors e l : Z := Z.of_nat (length l) * sec_per_clus e.
Definition sector e l (k : Z) : Z := data_area_start_block e + (default 2 (l !! Z.to_nat (k / sec_per_clus e)) - 2) * sec_per_clus e + k mod sec_per_clus e.

Lemma clus_size_eq e : fs_ok e -> clus_size e = BLOCK_SZ * sec_per_clus e.
Proof. intros [E H _ _ _]. unfold clus_size. rewrite E. unfold BLOCK_SZ. apply wrap_small. unfold in_range. lia. Qed.
Lemma first_sector_eq e c : fs_ok e -> 2 <= c < tot_ent (fat e) + 2 -> first_sector_of_cluster e c = data_area_start_block e + (c - 2) * sec_per_clus e.
Proof.
  intros [_ H1 H2 H3 _] Hc. unfold first_sector_of_cluster. assert (0 <= (c - 2) * sec_per_clus e <= tot_ent (fat e) * sec_per_clus e - sec_per_clus e) by nia.
  rewrite (wrap_small 32 (c - 2)) by (unfold in_range; nia). rewrite (wrap_small 32 (_ * _)) by (unfold in_range; lia). apply wrap_small. unfold in_range. lia.
Qed.
Lemma cluster_of e l k : fs_ok e -> 0 <= k -> (Z.to_nat (k / sec_per_clus e) < length l)%nat <-> k < sectors e l.
Proof.
  intros [_ H1 _ _ _] Hk. unfold sectors. assert (0 <= k / sec_per_clus e) by (apply Z.div_pos; lia). split.
  - intros H2. pose proof (Z.mul_succ_div_gt k (sec_per_clus e)). nia.
  - intros H2. assert (k / sec_per_clus e < Z.of_nat (length l)); [|lia]. apply Z.div_lt_upper_bound; lia.
Qed.
Lemma sector_cluster e l k c : fs_ok e -> clusters_ok e l -> l !! Z.to_nat (k / sec_per_clus e) = Some c -> first_sector_of_cluster e c + k mod sec_per_clus e = sector e l k.
Proof.
  intros He [_ Hl] Hc. rewrite first_sector_eq; [|done|by apply (Forall_lookup_1 _ _ _ _ Hl Hc)]. unfold sector. by rewrite Hc.
Qed.
Lemma neighboring_eq e l n : fs_ok e -> clusters_ok e l -> forall k, 0 <= k -> neighboring e l n k = map (sector e l) (seqZ k (Z.min (Z.of_nat n) (sectors e l - k))).
Proof.
  intros He Hl. induction n as [|n IH]; intros k Hk; cbn [neighboring].
  { destruct (decide (0 <= sectors e l - k)); [by rewrite Z.min_l by lia|]. by rewrite seqZ_nil by lia. }
  destruct (l !! Z.to_nat (k / sec_per_clus e)) as [c|] eqn:Ec.
  - pose proof (proj1 (cluster_of e l k He Hk) (lookup_lt_Some _ _ _ Ec)) as Hlt. rewrite (seqZ_cons k) by lia. cbn [map]. rewrite (sector_cluster e l k c He Hl Ec). f_equal.
    rewrite IH by lia. do 2 f_equal; lia.
  - apply lookup_ge_None in Ec. destruct (decide (k < sectors e l)) as [Hlt|Hge]; [apply cluster_of in Hlt; [lia|done|done]|]. by rewrite seqZ_nil by lia.
Qed.
Definition PER_PAGE : Z := CACHE_SZ / BLOCK_SZ.
Lemma nb_eq e l i : fs_ok e -> clusters_ok e l -> get_neighboring_sec e l i = map (sector e l) (seqZ (Z.of_nat i * PER_PAGE) (Z.min PER_PAGE (sectors e l - Z.of_nat i * PER_PAGE))).
Proof. intros He Hl. unfold get_neighboring_sec. rewrite (fs_bytes e He). fold PER_PAGE. rewrite neighboring_eq by (done || change PER_PAGE with 8; lia). done. Qed.

Lemma sector_range e l k : fs_ok e -> clusters_ok e l -> 0 <= k < sectors e l -> data (sector e l k) /\ 0 <= sector e l k < 2 ^ 32.
Proof.
  intros He Hl [Hk0 Hk]. pose proof (proj2 (cluster_of e l k He Hk0) Hk) as Hlt. apply lookup_lt_is_Some in Hlt as [c Hc]. destruct Hl as [_ Hl]. pose proof (Forall_lookup_1 _ _ _ _ Hl Hc) as Hr. cbn in Hr.
  unfold sector. rewrite Hc. change (default 2 (Some c)) with c. destruct He as [_ H1 H2 H3 H4]. pose proof (Z.mod_pos_bound k (sec_per_clus e)) as Hm. split; [apply H4; lia|]. nia.
Qed.
Lemma sector_inj e l k k' : fs_ok e -> clusters_ok e l -> 0 <= k < sectors e l -> 0 <= k' < sectors e l -> sector e l k = sector e l k' -> k = k'.
Proof.
  intros He Hl [Hk0 Hk] [Hk0' Hk']. pose proof (proj2 (cluster_of e l k He Hk0) Hk) as Hlt. pose proof (proj2 (cluster_of e l k' He Hk0') Hk') as Hlt'.
  apply lookup_lt_is_Some in Hlt as [c Hc]. apply lookup_lt_is_Some in Hlt' as [c' Hc']. unfold sector. rewrite Hc, Hc'. change (default 2 (Some c)) with c. change (default 2 (Some c')) with c'. destruct He as [_ H1 _ _ _]. intros E.
  pose proof (Z.mod_pos_bound k (sec_per_clus e)) as Hm. pose proof (Z.mod_pos_bound k' (sec_per_clus e)) as Hm'.
  assert (c = c') as <- by nia. assert (k mod sec_per_clus e = k' mod sec_per_clus e) as Em by lia. destruct Hl as [Hn _].
  pose proof (NoDup_lookup _ _ _ _ Hn Hc Hc') as Ei. assert (k / sec_per_clus e = k' / sec_per_clus e) as Ed by (apply Z2Nat.inj; try apply Z.div_pos; lia).
  rewrite (Z.div_mod k (sec_per_clus e)), (Z.div_mod k' (sec_per_clus e)) by lia. by rewrite Ed, Em.
Qed.
Lemma nb_elem e l i b : fs_ok e -> clusters_ok e l -> b ∈ get_neighboring_sec e l i -> exists k, b = sector e l k /\ Z.of_nat i * PER_PAGE <= k < (Z.of_nat i + 1) * PER_PAGE /\ 0 <= k < sectors e l.
Proof.
  intros He Hl. rewrite nb_eq by done. intros (k & Ek & Hin)%list_elem_of_In%in_map_iff. apply list_elem_of_In, elem_of_seqZ in Hin. exists k. split; [done|]. change PER_PAGE with 8 in *. lia.
Qed.
Lemma nb_ok e l : fs_ok e -> clusters_ok e l -> PageCacheManager.blocks_ok (data := data) (get_neighboring_sec e l).
Proof.
  intros He Hl. split.
  - intros i. rewrite nb_eq by done. apply (NoDup_fmap_2_strong (sector e l)).
    + intros k k' Hk%elem_of_seqZ Hk'%elem_of_seqZ. change PER_PAGE with 8 in *. apply sector_inj; done || lia.
    + apply NoDup_seqZ.
  - intros i. apply Forall_forall. intros b (k & -> & _ & Hk)%nb_elem; [|done|done]. by apply sector_range.
  - intros i. apply Forall_forall. intros b (k & -> & _ & Hk)%nb_elem; [|done|done]. destruct (sector_range e l k He Hl Hk). lia.
  - intros i. rewrite nb_eq, length_map, length_seqZ by done. change PER_PAGE with 8. change PAGE_BUFFERS with 8. lia.
  - intros i j b (k & -> & Hi & Hk)%nb_elem (k' & E & Hj & Hk')%nb_elem; try done. apply sector_inj in E; try done. subst k'. change PER_PAGE with 8 in *. lia.
Qed.
Lemma room_eq e l i : fs_ok e -> clusters_ok e l -> Z.of_nat (PageCacheManager.room (get_neighboring_sec e l) i) = Z.max 0 (Z.min PAGE_SIZE (sectors e l * BLOCK_SZ - Z.of_nat i * PAGE_SIZE)).
Proof. intros He Hl. unfold PageCacheManager.room. rewrite nb_eq, length_map, length_seqZ by done. change PER_PAGE with 8. unfold BLOCK_SZ, PAGE_SIZE. lia. Qed.

(** ** The bytes of a file *)
Record file_ok e f s : Prop := {
  fi_fs : fs_ok e;
  fi_clusters : clusters_ok e (clus_list f);
  fi_store : ok s;
  fi_cache : PageCacheManager.inv (file_cache_mgr f) /\ PageCacheManager.idle (file_cache_mgr f);
  fi_size : 0 <= size f < 2 ^ 32 /\ size f <= sectors e (clus_list f) * BLOCK_SZ;
}.
Definition nb e f := get_neighboring_sec e (clus_list f).
Definition page e f s (i : nat) : list Z := PageCacheManager.view (nb e f) s (file_cache_mgr f) i.
Definition capacity e f : Z := sectors e (clus_list f) * BLOCK_SZ.
(** The byte at [o], if the file has a place for it. *)
Definition byte e f s (o : Z) : option Z := page e f s (Z.to_nat (o / PAGE_SIZE)) !! Z.to_nat (o mod PAGE_SIZE).

(** An operation that keeps the clusters and writes only the file's blocks. *)
Record kept e f s f' s' : Prop := {
  ke_ok : file_ok e f' s';
  ke_same : size f' = size f /\ clus_list f' = clus_list f /\ dir_hint f' = dir_hint f;
  ke_store : PageCacheManager.elsewhere (meta := meta) (data := data) (ok := ok) (nb e f) s s';
}.
Definition pressure_ok (pr : pressure) : Prop := forall i, PageCacheManager.frame_ok (frames pr i).

Lemma file_blocks e f s : file_ok e f s -> PageCacheManager.blocks_ok (data := data) (nb e f).
Proof. intros H. apply nb_ok; apply H. Qed.
Lemma file_kept_refl e f s : file_ok e f s -> kept e f s f s.
Proof. intros H. split; [done|done|]. apply PageCacheManager.elsewhere_refl, H. Qed.
Lemma file_kept_trans e f1 s1 f2 s2 f3 s3 : kept e f1 s1 f2 s2 -> kept e f2 s2 f3 s3 -> kept e f1 s1 f3 s3.
Proof.
  intros [A1 (A2 & A3 & A4) A5] [B1 (B2 & B3 & B4) B5]. split; [done|by rewrite B2, B3, B4|]. eapply PageCacheManager.elsewhere_trans; [done|]. unfold nb in *. by rewrite A3 in B5.
Qed.
Lemma kept_cache e f s m s' : file_ok e f s -> PageCacheManager.inv m -> PageCacheManager.idle m -> PageCacheManager.elsewhere (meta := meta) (data := data) (ok := ok) (nb e f) s s' -> kept e f s (with_cache f m) s'.
Proof. intros [H1 H2 H3 H4 H5] Hi Hid He. split; [|done|done]. split; [done|done|apply He|done|done]. Qed.

Lemma byte_lookup e f s o : file_ok e f s -> 0 <= o < capacity e f -> exists b, byte e f s o = Some b /\ byte_ok b.
Proof.
  intros Hf [Ho Hc]. unfold byte, page, PageCacheManager.view. set (i := Z.to_nat (o / PAGE_SIZE)). destruct (PageCacheManager.page_at_ok (nb e f) s (file_cache_mgr f) i (fi_store _ _ _ Hf) (file_blocks _ _ _ Hf) (proj1 (fi_cache _ _ _ Hf))) as [L B].
  pose proof (room_eq e (clus_list f) i (fi_fs _ _ _ Hf) (fi_clusters _ _ _ Hf)) as R. fold (nb e f) in R. fold (capacity e f) in R.
  assert (Z.to_nat (o mod PAGE_SIZE) < PageCacheManager.room (nb e f) i)%nat as Hr.
  { assert (0 <= o mod PAGE_SIZE < PAGE_SIZE) by (apply Z.mod_pos_bound; unfold PAGE_SIZE; lia). assert (Z.of_nat i * PAGE_SIZE + o mod PAGE_SIZE = o).
    { unfold i. rewrite Z2Nat.id by (apply Z.div_pos; unfold PAGE_SIZE; lia). rewrite (Z.div_mod o PAGE_SIZE) at 3 by (unfold PAGE_SIZE; lia). lia. }
    unfold PAGE_SIZE in *. lia. }
  rewrite lookup_take_lt by done. assert (Z.to_nat (o mod PAGE_SIZE) < length (PageCacheManager.page_at (nb e f) s (file_cache_mgr f) i))%nat as Hl.
  { assert (o mod PAGE_SIZE < PAGE_SIZE) by (apply Z.mod_pos_bound; unfold PAGE_SIZE; lia). unfold PAGE_SIZE in *. lia. }
  apply lookup_lt_is_Some in Hl as [b Hb]. exists b. split; [done|by eapply Forall_lookup_1].
Qed.

(** Reclaiming memory, and reading and changing one page. *)
Lemma reserve_ok pr e f s i : file_ok e f s -> exists f' s', reserve pr e f s i = Ret (f', s') /\ kept e f s f' s' /\ forall j, page e f' s' j = page e f s j.
Proof.
  intros Hf. unfold reserve. destruct (runs pr i) as [ks|]; [|exists f, s; split; [done|]; split; [by apply file_kept_refl|done]]. unfold oom.
  destruct (PageCacheManager.page_oom_ok (nb e f) ks (file_cache_mgr f) s (fi_store _ _ _ Hf) (file_blocks _ _ _ Hf) (proj1 (fi_cache _ _ _ Hf))) as (n & m & s' & E & He & Hi & Hid & Hv).
  unfold nb in E. rewrite E. cbn [mbind outcome_bind]. eexists _, _. split; [done|]. split; [|done]. apply kept_cache; [done|done|by apply Hid, Hf|done].
Qed.
Lemma page_used e f s f1 s1 m i b : kept e f s f1 s1 -> (forall j, page e f1 s1 j = page e f s j) -> PageCacheManager.used (nb e f1) s1 (file_cache_mgr f1) m i b ->
  kept e f s (with_cache f1 m) s1 /\ page e (with_cache f1 m) s1 i = take (PageCacheManager.room (nb e f) i) b /\ forall j, j <> i -> page e (with_cache f1 m) s1 j = page e f s j.
Proof.
  intros Hk Hp (Hi & Hid & Hv & Ho). split; [|split].
  - eapply file_kept_trans; [done|]. apply kept_cache; [apply Hk|done|done|]. apply PageCacheManager.elsewhere_refl, Hk.
  - unfold page. cbn [with_cache file_cache_mgr]. change (nb e (with_cache f1 m)) with (nb e f1). rewrite Hv. unfold nb. by destruct (ke_same _ _ _ _ _ Hk) as (_ & -> & _).
  - intros j N. rewrite <- Hp. unfold page, PageCacheManager.view, PageCacheManager.page_at. cbn [with_cache file_cache_mgr]. change (nb e (with_cache f1 m)) with (nb e f1). by rewrite Ho.
Qed.
Lemma read_cache_ok {V} pr e f s i (g : list Z -> V) : file_ok e f s -> pressure_ok pr ->
  exists f' s' b, read_cache pr e f s i g = Ret (g b, f', s') /\ kept e f s f' s' /\ (forall j, page e f' s' j = page e f s j) /\
    take (PageCacheManager.room (nb e f) i) b = page e f s i /\ Z.of_nat (length b) = PAGE_SIZE.
Proof.
  intros Hf Hpr. unfold read_cache. destruct (reserve_ok pr e f s i Hf) as (f1 & s1 & -> & Hk & Hp). cbn [mbind outcome_bind]. pose proof (ke_ok _ _ _ _ _ Hk) as Hf1.
  destruct (PageCacheManager.read_page_ok (nb e f1) s1 (file_cache_mgr f1) i (frames pr i) g (fi_store _ _ _ Hf1) (file_blocks _ _ _ Hf1) (proj1 (fi_cache _ _ _ Hf1)) (proj2 (fi_cache _ _ _ Hf1)) (Hpr i)) as (m & b & E & Hb & Lb & Hu).
  unfold nb in E. rewrite E. cbn [mbind outcome_bind]. destruct (page_used _ _ _ _ _ _ _ _ Hk Hp Hu) as (K & P & O). eexists _, _, b. split; [done|]. split; [done|].
  assert (take (PageCacheManager.room (nb e f) i) b = page e f s i) as Eb.
  { rewrite <- Hp. unfold page. rewrite <- Hb. unfold nb. by destruct (ke_same _ _ _ _ _ Hk) as (_ & -> & _). }
  split; [|done]. intros j. destruct (decide (j = i)) as [->|N]; [by rewrite P|by apply O].
Qed.
Lemma modify_cache_ok pr e f s i o bs : file_ok e f s -> pressure_ok pr -> 0 <= o -> o + Z.of_nat (length bs) <= PAGE_SIZE -> Forall byte_ok bs ->
  exists f' s' b, modify_cache pr e f s i (fun d => set_bytes d o bs) = Ret (f', s') /\ kept e f s f' s' /\ (forall j, j <> i -> page e f' s' j = page e f s j) /\
    take (PageCacheManager.room (nb e f) i) b = page e f s i /\ Z.of_nat (length b) = PAGE_SIZE /\ page e f' s' i = take (PageCacheManager.room (nb e f) i) (set_bytes b o bs).
Proof.
  intros Hf Hpr Ho Hl Hbs. unfold modify_cache. destruct (reserve_ok pr e f s i Hf) as (f1 & s1 & -> & Hk & Hp). cbn [mbind outcome_bind]. pose proof (ke_ok _ _ _ _ _ Hk) as Hf1.
  destruct (PageCacheManager.modify_page_ok (nb e f1) s1 (file_cache_mgr f1) i (frames pr i) (fun d => set_bytes d o bs) (fi_store _ _ _ Hf1) (file_blocks _ _ _ Hf1) (proj1 (fi_cache _ _ _ Hf1)) (proj2 (fi_cache _ _ _ Hf1)) (Hpr i)) as (m & b & E & Hb & Lb & Hu).
  { intros b Lb Bb. rewrite set_bytes_length by lia. split; [done|by apply set_bytes_Forall]. }
  unfold nb in E. rewrite E. cbn [mbind outcome_bind]. destruct (page_used _ _ _ _ _ _ _ _ Hk Hp Hu) as (K & P & O). eexists _, _, b. split; [done|]. split; [done|]. split; [done|].
  split; [|done]. rewrite <- Hp. unfold page. rewrite <- Hb. unfold nb. by destruct (ke_same _ _ _ _ _ Hk) as (_ & -> & _).
Qed.

(** ** Reading and writing ranges *)
Definition bytes e f s (o n : Z) : list Z := map (fun x => default 0 (byte e f s x)) (seqZ o n).
Lemma bytes_length e f s o n : 0 <= n -> Z.of_nat (length (bytes e f s o n)) = n.
Proof. intros. unfold bytes. rewrite length_map, length_seqZ. lia. Qed.
Lemma file_bytes_app e f s o n k : 0 <= n -> 0 <= k -> bytes e f s o (n + k) = bytes e f s o n ++ bytes e f s (o + n) k.
Proof. intros. unfold bytes. rewrite seqZ_app by lia. apply map_app. Qed.
Lemma bytes_ext e f s f' s' o n : (forall x, o <= x < o + n -> byte e f' s' x = byte e f s x) -> bytes e f' s' o n = bytes e f s o n.
Proof. intros H. unfold bytes. apply map_ext_in. intros x Hx%list_elem_of_In%elem_of_seqZ. by rewrite H. Qed.
Lemma bytes_lookup e f s o n i : Z.of_nat i < n -> bytes e f s o n !! i = Some (default 0 (byte e f s (o + Z.of_nat i))).
Proof. intros H. unfold bytes. rewrite list_lookup_fmap, lookup_seqZ_lt by lia. done. Qed.

Lemma page_end_eq start stop : 0 <= start < 2 ^ 32 -> page_end start stop = Z.min ((start / PAGE_SIZE + 1) * PAGE_SIZE) stop.
Proof.
  intros H. unfold page_end. change CACHE_SZ with PAGE_SIZE. assert (0 <= start / PAGE_SIZE < 2 ^ 20) by (unfold PAGE_SIZE; Z.to_euclidean_division_equations; lia).
  unfold PAGE_SIZE in *. rewrite add64_small by (unfold in_range; lia). rewrite mul64_small by (unfold in_range; lia). done.
Qed.
Lemma in_page start x : 0 <= start -> start <= x < (start / PAGE_SIZE + 1) * PAGE_SIZE -> x / PAGE_SIZE = start / PAGE_SIZE /\ x mod PAGE_SIZE = start mod PAGE_SIZE + (x - start).
Proof. unfold PAGE_SIZE. intros H1 H2. Z.to_euclidean_division_equations; lia. Qed.
(** One piece of a loop: it lies in one page and is not empty unless the whole range is. *)
Lemma piece start stop : 0 <= start <= stop -> stop < 2 ^ 32 -> let n := page_end start stop ⊖ start in
  page_end start stop = start + n /\ 0 <= n /\ start + n <= stop /\ start mod PAGE_SIZE + n <= PAGE_SIZE /\ start + n <= (start / PAGE_SIZE + 1) * PAGE_SIZE /\
  (start + n <> stop -> start + n = (start / PAGE_SIZE + 1) * PAGE_SIZE /\ (start + n) / PAGE_SIZE = start / PAGE_SIZE + 1).
Proof.
  intros H1 H2. rewrite page_end_eq by lia. unfold PAGE_SIZE. assert (start < (start / 4096 + 1) * 4096) by (Z.to_euclidean_division_equations; lia).
  rewrite sub64_small by lia. Z.to_euclidean_division_equations; lia.
Qed.

Lemma piece_bytes e f s start n b : file_ok e f s -> 0 <= start -> 0 <= n -> start + n <= capacity e f -> start + n <= (start / PAGE_SIZE + 1) * PAGE_SIZE ->
  take (PageCacheManager.room (nb e f) (Z.to_nat (start / PAGE_SIZE))) b = page e f s (Z.to_nat (start / PAGE_SIZE)) -> Z.of_nat (length b) = PAGE_SIZE ->
  get_bytes b (start mod PAGE_SIZE) n = bytes e f s start n.
Proof.
  intros Hf H0 Hn Hc Hp Eb Lb. assert (0 <= start mod PAGE_SIZE < PAGE_SIZE) as Hm by (apply Z.mod_pos_bound; unfold PAGE_SIZE; lia).
  assert (start mod PAGE_SIZE + n <= PAGE_SIZE) as Hfit by (unfold PAGE_SIZE in *; Z.to_euclidean_division_equations; lia).
  apply list_eq. intros i. destruct (decide (Z.of_nat i < n)) as [Hi|Hi].
  - rewrite get_bytes_lookup, bytes_lookup by lia. destruct (byte_lookup e f s (start + Z.of_nat i) Hf) as (v & Ev & _); [lia|]. rewrite Ev. cbn.
    unfold byte in Ev. destruct (in_page start (start + Z.of_nat i)) as [E1 E2]; [done|lia|]. rewrite E1, E2, <- Eb in Ev. apply lookup_take_Some in Ev as [Ev _]. rewrite <- Ev. f_equal. lia.
  - rewrite !lookup_ge_None_2; [done|pose proof (bytes_length e f s start n); lia|]. pose proof (get_bytes_length b (start mod PAGE_SIZE) n). lia.
Qed.
Lemma file_read_loop_ok pr e : pressure_ok pr -> forall fuel f s start stop buf rs, file_ok e f s -> 0 <= start <= stop -> stop < 2 ^ 32 -> stop <= capacity e f ->
  (pages start stop <= fuel)%nat -> 0 <= rs -> rs + (stop - start) <= Z.of_nat (length buf) ->
  exists f' s', read_loop fuel pr e f s start stop (Z.to_nat (start / PAGE_SIZE)) buf rs = Ret (rs + (stop - start), set_bytes buf rs (bytes e f s start (stop - start)), f', s') /\
    kept e f s f' s' /\ forall j, page e f' s' j = page e f s j.
Proof.
  intros Hpr. induction fuel as [|fuel IH]; intros f s start stop buf rs Hf Hs Hst Hc Hfuel Hr Hl.
  { exfalso. unfold pages in Hfuel. change CACHE_SZ with PAGE_SIZE in Hfuel. assert (start / PAGE_SIZE <= stop / PAGE_SIZE) by (apply Z.div_le_mono; unfold PAGE_SIZE; lia). lia. }
  cbn [read_loop]. change CACHE_SZ with PAGE_SIZE. destruct (piece start stop Hs Hst) as (Ee & Hn & Hle & Hfit & Hpg & Hnext). set (n := page_end start stop ⊖ start) in *.
  rewrite !(proj2 (Z.leb_le _ _)) by lia. cbn [rust_assert mbind outcome_bind].
  destruct (read_cache_ok pr e f s (Z.to_nat (start / PAGE_SIZE)) (fun d => get_bytes d (start mod PAGE_SIZE) n) Hf Hpr) as (f1 & s1 & b & -> & Hk & Hp & Hb & Lb). cbn [mbind outcome_bind].
  rewrite (piece_bytes e f s start n b) by (done || lia). rewrite Ee. destruct (Z.eqb_spec (start + n) stop) as [E|Hne].
  - exists f1, s1. replace (stop - start) with n by lia. done.
  - destruct (Hnext Hne) as [Hfull Hdiv]. pose proof (ke_ok _ _ _ _ _ Hk) as Hf1. replace (Datatypes.S (Z.to_nat (start / PAGE_SIZE))) with (Z.to_nat ((start + n) / PAGE_SIZE)) by (rewrite Hdiv; assert (0 <= start / PAGE_SIZE) by (apply Z.div_pos; unfold PAGE_SIZE; lia); lia).
    pose proof (bytes_length e f s start n Hn) as Ln. destruct (IH f1 s1 (start + n) stop (set_bytes buf rs (bytes e f s start n)) (rs + n) Hf1) as (f2 & s2 & -> & Hk2 & Hp2); try lia.
    + unfold capacity. destruct (ke_same _ _ _ _ _ Hk) as (_ & -> & _). done.
    + unfold pages in *. change CACHE_SZ with PAGE_SIZE in *. rewrite Hdiv. lia.
    + rewrite set_bytes_length by lia. lia.
    + exists f2, s2. split; [|split; [by eapply file_kept_trans|intros j; rewrite Hp2; apply Hp]].
      replace (rs + n + (stop - (start + n))) with (rs + (stop - start)) by lia. do 4 f_equal.
      rewrite (bytes_ext e f s f1 s1) by (intros x _; unfold byte; by rewrite Hp). replace (rs + n) with (rs + Z.of_nat (length (bytes e f s start n))) by lia.
      rewrite set_bytes_app; [|lia|rewrite !bytes_length by lia; lia]. f_equal. rewrite <- file_bytes_app by lia. f_equal. lia.
Qed.

Lemma page_byte e f s o : 0 <= o -> exists i k, i = Z.to_nat (o / PAGE_SIZE) /\ k = Z.to_nat (o mod PAGE_SIZE) /\ byte e f s o = page e f s i !! k /\ o = Z.of_nat i * PAGE_SIZE + Z.of_nat k /\ Z.of_nat k < PAGE_SIZE.
Proof.
  intros Ho. exists (Z.to_nat (o / PAGE_SIZE)), (Z.to_nat (o mod PAGE_SIZE)). split; [done|]. split; [done|]. split; [done|].
  assert (0 <= o mod PAGE_SIZE < PAGE_SIZE) by (apply Z.mod_pos_bound; unfold PAGE_SIZE; lia). assert (0 <= o / PAGE_SIZE) by (apply Z.div_pos; unfold PAGE_SIZE; lia).
  rewrite !Z2Nat.id by lia. split; [|lia]. rewrite Z.mul_comm. apply Z.div_mod. unfold PAGE_SIZE. lia.
Qed.
(** The file after [bs] has been written at [o]. *)
Definition written e f s f' s' (o : Z) (bs : list Z) : Prop :=
  forall x, 0 <= x < capacity e f -> byte e f' s' x = if decide (o <= x < o + Z.of_nat (length bs)) then bs !! Z.to_nat (x - o) else byte e f s x.
Lemma modify_bytes pr e f s start bs : file_ok e f s -> pressure_ok pr -> 0 <= start -> start mod PAGE_SIZE + Z.of_nat (length bs) <= PAGE_SIZE -> Forall byte_ok bs ->
  exists f' s', modify_cache pr e f s (Z.to_nat (start / PAGE_SIZE)) (fun d => set_bytes d (start mod PAGE_SIZE) bs) = Ret (f', s') /\ kept e f s f' s' /\ written e f s f' s' start bs.
Proof.
  intros Hf Hpr H0 Hfit Hbs. assert (0 <= start mod PAGE_SIZE < PAGE_SIZE) as Hm by (apply Z.mod_pos_bound; unfold PAGE_SIZE; lia).
  destruct (modify_cache_ok pr e f s (Z.to_nat (start / PAGE_SIZE)) (start mod PAGE_SIZE) bs Hf Hpr ltac:(lia) Hfit Hbs) as (f' & s' & b & E & Hk & Ho & Hb & Lb & Hp).
  exists f', s'. split; [done|]. split; [done|]. intros x Hx. destruct (page_byte e f s x ltac:(lia)) as (i & k & Ei & Ek & Eb & Ex & Hkp). rewrite Eb. unfold byte. rewrite <- Ei, <- Ek.
  destruct (page_byte e f s start H0) as (i0 & k0 & Ei0 & Ek0 & _ & Ex0 & Hkp0). rewrite <- Ei0 in *. unfold PAGE_SIZE in *. destruct (decide (i = i0)) as [->|N].
  - rewrite Hp, <- Hb. destruct (byte_lookup e f s x Hf Hx) as (v & Ev & _). rewrite Eb, <- Hb in Ev. apply lookup_take_Some in Ev as [_ Hr]. rewrite !lookup_take_lt by done.
    rewrite set_bytes_lookup by lia. destruct (decide (start <= x < start + Z.of_nat (length bs))); [rewrite decide_True by lia; f_equal; lia|rewrite decide_False by lia; done].
  - rewrite Ho by done. rewrite decide_False by lia. done.
Qed.
Lemma file_write_loop_ok pr e : pressure_ok pr -> forall fuel f s start stop buf ws, file_ok e f s -> 0 <= start <= stop -> stop < 2 ^ 32 ->
  (pages start stop <= fuel)%nat -> 0 <= ws -> ws + (stop - start) <= Z.of_nat (length buf) -> Forall byte_ok buf ->
  exists f' s', write_loop fuel pr e f s start stop (Z.to_nat (start / PAGE_SIZE)) buf ws = Ret (ws + (stop - start), f', s') /\
    kept e f s f' s' /\ written e f s f' s' start (get_bytes buf ws (stop - start)).
Proof.
  intros Hpr. induction fuel as [|fuel IH]; intros f s start stop buf ws Hf Hs Hst Hfuel Hr Hl Hb.
  { exfalso. unfold pages in Hfuel. change CACHE_SZ with PAGE_SIZE in Hfuel. assert (start / PAGE_SIZE <= stop / PAGE_SIZE) by (apply Z.div_le_mono; unfold PAGE_SIZE; lia). lia. }
  cbn [write_loop]. change CACHE_SZ with PAGE_SIZE. destruct (piece start stop Hs Hst) as (Ee & Hn & Hle & Hfit & Hpg & Hnext). set (n := page_end start stop ⊖ start) in *.
  rewrite !(proj2 (Z.leb_le _ _)) by lia. cbn [rust_assert mbind outcome_bind]. pose proof (get_bytes_length buf ws n Hr Hn ltac:(lia)) as Ln.
  destruct (modify_bytes pr e f s start (get_bytes buf ws n) Hf Hpr ltac:(lia)) as (f1 & s1 & -> & Hk & Hw); [by rewrite Ln|by apply get_bytes_ok|]. cbn [mbind outcome_bind].
  rewrite Ee. destruct (Z.eqb_spec (start + n) stop) as [E|Hne].
  - exists f1, s1. replace (stop - start) with n by lia. done.
  - destruct (Hnext Hne) as [Hfull Hdiv]. pose proof (ke_ok _ _ _ _ _ Hk) as Hf1. replace (Datatypes.S (Z.to_nat (start / PAGE_SIZE))) with (Z.to_nat ((start + n) / PAGE_SIZE)) by (rewrite Hdiv; assert (0 <= start / PAGE_SIZE) by (apply Z.div_pos; unfold PAGE_SIZE; lia); lia).
    destruct (IH f1 s1 (start + n) stop buf (ws + n) Hf1) as (f2 & s2 & -> & Hk2 & Hw2); try lia; [unfold pages in *; change CACHE_SZ with PAGE_SIZE in *; rewrite Hdiv; lia|done|].
    exists f2, s2. replace (ws + n + (stop - (start + n))) with (ws + (stop - start)) by lia. split; [done|]. split; [by eapply file_kept_trans|].
    intros x Hx. assert (capacity e f1 = capacity e f) as Ec by (unfold capacity; by destruct (ke_same _ _ _ _ _ Hk) as (_ & -> & _)). rewrite Hw2 by (by rewrite Ec). rewrite Hw by done.
    rewrite !get_bytes_length by lia. repeat case_decide; try lia; try done.
    + rewrite !get_bytes_lookup by lia. f_equal; lia.
    + rewrite !get_bytes_lookup by lia. done.
Qed.

(** ** Growing and cutting *)
Record disk_ok e f s (E : Z -> Z) : Prop := {
  di_file : file_ok e f s;
  di_geometry : geometry (valid := meta) (fat e);
  di_table : table (ok := ok) (fat e) s E;
  di_fat : fat_ok (fat e) E;
  di_chain : file_chain (fat e) E (clus_list f);
  di_count : Z.of_nat (length (clus_list f)) = total_clus e (size f);
  di_bound : size f + clus_size e <= 2 ^ 32;
}.
Lemma clus_size_pos e : fs_ok e -> 512 <= clus_size e <= 65536.
Proof. intros He. rewrite clus_size_eq by done. destruct He. unfold BLOCK_SZ. lia. Qed.
Lemma total_clus_eq e sz : fs_ok e -> 0 <= sz -> sz + clus_size e <= 2 ^ 32 -> total_clus e sz = (sz + clus_size e - 1) / clus_size e.
Proof.
  intros He H0 H1. pose proof (clus_size_pos e He) as Hc. unfold total_clus, div_ceil. destruct (decide (sz = 0)) as [->|].
  - unfold wrap. replace (((0 - 1) mod 2 ^ 32 + clus_size e) mod 2 ^ 32) with (clus_size e - 1); [|Z.to_euclidean_division_equations; lia].
    f_equal.
  - rewrite (wrap_small 32 (sz - 1)) by (unfold in_range; lia). rewrite wrap_small by (unfold in_range; lia). f_equal. lia.
Qed.
Lemma neighboring_app e l l' n : forall k, exists r, neighboring e (l ++ l') n k = neighboring e l n k ++ r.
Proof.
  induction n as [|n IH]; intros k; cbn [neighboring]; [by exists []|]. destruct (l !! Z.to_nat (k / sec_per_clus e)) as [c|] eqn:Ec.
  - rewrite (lookup_app_l_Some _ _ _ _ Ec). destruct (IH (k + 1)) as [r ->]. by exists r.
  - by eexists.
Qed.
(** The bytes a file has in common with a longer one. *)
Lemma byte_prefix e f s f' s' l x : file_ok e f s -> ok s' -> clus_list f' = clus_list f ++ l -> (forall j, data j -> raw_block s' j = raw_block s j) -> 0 <= x < capacity e f ->
  PageCacheManager.lookup_cell (file_cache_mgr f') (Z.to_nat (x / PAGE_SIZE)) = PageCacheManager.lookup_cell (file_cache_mgr f) (Z.to_nat (x / PAGE_SIZE)) ->
  byte e f' s' x = byte e f s x.
Proof.
  intros Hf Hs' El Hraw Hx Hcell. destruct (byte_lookup e f s x Hf Hx) as (v & Ev & _). rewrite Ev. revert Ev. unfold byte, page, PageCacheManager.view, PageCacheManager.page_at. rewrite Hcell.
  set (i := Z.to_nat (x / PAGE_SIZE)). destruct (neighboring_app e (clus_list f) l (Z.to_nat (CACHE_SZ / efs_byts_per_sec e)) (Z.of_nat i * (CACHE_SZ / efs_byts_per_sec e))) as [r Hr].
  assert (nb e f' i = nb e f i ++ r) as En by (unfold nb, get_neighboring_sec; by rewrite El). assert (PageCacheManager.room (nb e f) i <= PageCacheManager.room (nb e f') i)%nat as Hroom.
  { unfold PageCacheManager.room. rewrite En, length_app. lia. }
  destruct (PageCacheManager.lookup_cell (file_cache_mgr f) i) as [c|].
  - intros Ev. apply lookup_take_Some in Ev as [Ev Hlt]. rewrite lookup_take_lt by lia. done.
  - rewrite !PageCacheManager.page_of_room by (apply Hf || done). intros Ev. rewrite En, bind_app. apply lookup_app_l_Some. rewrite <- Ev. f_equal. apply list_bind_ext_in. intros b Hb. apply Hraw.
    pose proof (PageCacheManager.bo_data _ (file_blocks _ _ _ Hf) i) as Hd. rewrite Forall_forall in Hd. by apply Hd.
Qed.
Lemma fs_ok_place e ft : fs_ok e -> same_place (fat e) ft -> fs_ok (with_fat e ft).
Proof. intros [H1 H2 H3 H4 H5] (_ & _ & E). split; cbn; rewrite ?E; done. Qed.
Lemma clusters_count e sz (n : nat) : fs_ok e -> 0 <= sz -> sz + clus_size e <= 2 ^ 32 -> Z.of_nat n = total_clus e sz -> sz <= Z.of_nat n * sec_per_clus e * BLOCK_SZ.
Proof.
  intros He H0 H1 ->. rewrite total_clus_eq by done. pose proof (clus_size_pos e He). rewrite (clus_size_eq e He) in *. set (c := BLOCK_SZ * sec_per_clus e) in *.
  replace ((sz + c - 1) / c * sec_per_clus e * BLOCK_SZ) with ((sz + c - 1) / c * c) by (unfold c; lia). Z.to_euclidean_division_equations; nia.
Qed.

Lemma neighboring_fat e ft l n : forall k, neighboring (with_fat e ft) l n k = neighboring e l n k.
Proof. induction n as [|n IH]; intros k; cbn [neighboring]; [done|]. rewrite IH. done. Qed.
Lemma byte_fat e ft f s x : byte (with_fat e ft) f s x = byte e f s x.
Proof.
  unfold byte, page. assert (forall i, nb (with_fat e ft) f i = nb e f i) as E by (intros; apply neighboring_fat). unfold PageCacheManager.view, PageCacheManager.page_at, PageCacheManager.room. by rewrite E.
Qed.
(** Where two states of the disk may differ after an operation on a file: its own entries of the
    table, and the bookkeeping. *)
Definition moved e e' : Prop := e' = with_fat e (fat e') /\ same_place (fat e) (fat e').
Lemma total_range e sz : fs_ok e -> 0 <= sz -> sz + clus_size e <= 2 ^ 32 -> 0 <= total_clus e sz <= 2 ^ 32.
Proof.
  intros He H0 H1. rewrite total_clus_eq by done. pose proof (clus_size_pos e He). split; [apply Z.div_pos; lia|]. apply Z.div_le_upper_bound; [lia|]. nia.
Qed.
Lemma total_mono e a b : fs_ok e -> 0 <= a <= b -> b + clus_size e <= 2 ^ 32 -> total_clus e a <= total_clus e b.
Proof. intros He H0 H1. rewrite !total_clus_eq by (done || lia). pose proof (clus_size_pos e He). apply Z.div_le_mono; lia. Qed.

Lemma modify_size_grow pr e f s E diff l : disk_ok e f s E -> 0 < diff -> size f + diff + clus_size e <= 2 ^ 32 -> supply (fat e) E l ->
  Z.of_nat (length l) = total_clus e (size f + diff) - total_clus e (size f) ->
  exists e' f' s' E', modify_size pr e f s diff false = Ret (e', f', s') /\ disk_ok e' f' s' E' /\ moved e e' /\ size f' = size f + diff /\ clus_list f' = clus_list f ++ l /\
    (forall x, 0 <= x < capacity e f -> byte e' f' s' x = byte e f s x) /\ (forall j, data j -> raw_block s' j = raw_block s j) /\
    Forall (fun c => is_free E c = true) l /\ (forall x, last (clus_list f) <> Some x -> x ∉ l -> E' x = E x) /\
    dir_hint f' = dir_hint f /\ forall l2, supply (fat e) E (l ++ l2) -> supply (fat e') E' l2.
Proof.
  intros [Hf Hg Ht Hfat Hch Hcnt Hbd] Hd Hsz Hsup Hl. pose proof Hf as [He Hcl Hs Hca [Hs1 Hs2]]. pose proof (clus_size_pos e He) as Hcs.
  pose proof (total_range e (size f) He ltac:(lia) ltac:(lia)) as R1. pose proof (total_range e (size f + diff) He ltac:(lia) ltac:(lia)) as R2.
  pose proof (ds_blocks (raw_block s)) as HB. destruct (chain_alloc_ok (ok := holding data ok (raw_block s)) (fat e) s E (clus_list f) l Hg) as (ft & s' & E' & Ea & Hp & [[Hs' Hraw] Ht'] & Hfat' & Hch' & Hfree & HE & _ & Hrest); [split; [by split|apply Ht]|done|done|done|].
  unfold modify_size. rewrite (wrap_small 32 (size f + diff)) by (unfold in_range; lia). rewrite (proj2 (Z.ltb_lt 0 diff)) by done. rewrite sub64_small by lia. replace (Z.to_nat _) with (length l) by lia.
  unfold alloc_clus. rewrite Ea. cbn [mbind outcome_bind]. eexists _, _, _, E'. split; [done|]. cbn [with_size with_clus with_fat size clus_list fat].
  assert (clusters_ok (with_fat e ft) (clus_list f ++ l)) as Hcl'. { destruct Hch' as (_ & A & B). by split. }
  assert (fs_ok (with_fat e ft)) as He' by (by apply fs_ok_place). split; [|split; [done|split; [done|split; [done|split; [|by split_and!]]]]].
  - split; cbn [size clus_list fat with_fat with_size with_clus]; [|by apply (geometry_place (fat e))|by split|done|done|rewrite length_app; change (total_clus (with_fat e ft)) with (total_clus e); lia|done].
    split; cbn [size clus_list with_size with_clus file_cache_mgr]; [done|done|done|done|]. split; [lia|]. unfold sectors. apply clusters_count; [done|lia|done|].
    rewrite length_app. change (total_clus (with_fat e ft)) with (total_clus e). lia.
  - intros x Hx. rewrite byte_fat. by apply (byte_prefix e f s (with_size (with_clus f (clus_list f ++ l)) (size f + diff)) s' l).
Qed.

Lemma modify_size_cut pr e f s E diff clear : disk_ok e f s E -> diff <= 0 -> 0 <= size f + diff ->
  let n := Z.to_nat (total_clus e (size f + diff)) in
  exists e' f' s' E', modify_size pr e f s diff clear = Ret (e', f', s') /\ disk_ok e' f' s' E' /\ moved e e' /\ size f' = size f + diff /\ clus_list f' = take n (clus_list f) /\
    (forall x, 0 <= x < size f' -> byte e' f' s' x = byte e f s x) /\ (forall j, data j -> raw_block s' j = raw_block s j) /\
    Forall (fun c => is_free E' c = true) (drop n (clus_list f)) /\ (forall x, x ∉ drop n (clus_list f) -> last (take n (clus_list f)) <> Some x -> E' x = E x) /\ dir_hint f' = dir_hint f.
Proof.
  intros [Hf Hg Ht Hfat Hch Hcnt Hbd] Hd Hsz n. pose proof Hf as [He Hcl Hs [Hca Hidle] [Hs1 Hs2]]. pose proof (clus_size_pos e He) as Hcs.
  pose proof (total_range e (size f) He ltac:(lia) ltac:(lia)) as R1. pose proof (total_range e (size f + diff) He ltac:(lia) ltac:(lia)) as R2.
  pose proof (total_mono e (size f + diff) (size f) He ltac:(lia) ltac:(lia)) as Hmono.
  pose proof (take_drop n (clus_list f)) as Htd. set (keep := take n (clus_list f)) in *. set (cutl := drop n (clus_list f)) in *. assert (length keep = n) as Ln by (unfold keep; rewrite length_take; lia).
  pose proof (ds_blocks (raw_block s)) as HB. destruct (free_ok (ok := holding data ok (raw_block s)) (fat e) s E keep cutl (reverse cutl) Hg) as (ft & s' & Ea & Hp & [[Hs' Hraw] Ht'] & Hfat' & Hch' & _); [split; [by split|apply Ht]|done|by rewrite Htd|apply reverse_Permutation|].
  destruct (PageCacheManager.notify_ok (file_cache_mgr f) (size f + diff) Hsz Hca Hidle) as (m' & Em & Hm & Hid & Hlk).
  unfold modify_size. rewrite (wrap_small 32 (size f + diff)) by (unfold in_range; lia). rewrite (proj2 (Z.ltb_ge 0 diff)) by done. rewrite sub64_small by lia.
  unfold dealloc_clus. replace (length (clus_list f) - _)%nat with n by lia. fold keep cutl. rewrite Ea. cbn [mbind outcome_bind with_size with_clus file_cache_mgr]. rewrite Em. cbn [mbind outcome_bind].
  eexists _, _, _, (cut E keep cutl). split; [done|]. cbn [with_size with_clus with_fat with_cache size clus_list fat file_cache_mgr].
  assert (disk_ok (with_fat e ft) (with_cache (with_size (with_clus f keep) (size f + diff)) m') s' (cut E keep cutl)) as Hdisk.
  { assert (clusters_ok (with_fat e ft) keep) as Hcl' by (destruct Hch' as (_ & A & B); by split). assert (fs_ok (with_fat e ft)) as He' by (by apply fs_ok_place).
    split; cbn [size clus_list fat with_fat with_size with_clus with_cache]; [|by apply (geometry_place (fat e))|by split|done|done|change (total_clus (with_fat e ft)) with (total_clus e); lia|change (clus_size (with_fat e ft)) with (clus_size e); lia].
    split; cbn [size clus_list with_size with_clus with_cache file_cache_mgr]; [done|done|done|done|]. split; [lia|]. unfold sectors. apply clusters_count; [done|lia|change (clus_size (with_fat e ft)) with (clus_size e); lia|].
    change (total_clus (with_fat e ft)) with (total_clus e). lia. }
  split; [done|]. split; [done|]. split; [done|]. split; [done|]. split; [|split; [done|split]].
  - intros x Hx. pose proof (fi_size _ _ _ (di_file _ _ _ _ Hdisk)) as [_ Hcap]. cbn in Hcap. symmetry. rewrite <- (byte_fat e ft f). apply (byte_prefix (with_fat e ft) (with_cache (with_size (with_clus f keep) (size f + diff)) m') s' f s cutl).
    + apply Hdisk.
    + done.
    + cbn. done.
    + intros j Hj. symmetry. by apply Hraw.
    + unfold capacity. cbn. lia.
    + cbn. rewrite Hlk. rewrite decide_True; [done|]. assert (x / PAGE_SIZE < (size f + diff + PAGE_SIZE - 1) / PAGE_SIZE) by (unfold PAGE_SIZE; Z.to_euclidean_division_equations; lia). assert (0 <= x / PAGE_SIZE) by (apply Z.div_pos; unfold PAGE_SIZE; lia). lia.
  - apply Forall_forall. intros x Hx. apply cut_drop; [done|]. rewrite Htd. apply Hch.
  - split; [|done]. intros x Hx Hlast. by apply cut_other.
Qed.

(** ** Files as byte strings *)
Definition content e f s : list Z := bytes e f s 0 (size f).
(** The result of a write that starts inside the string or at its end. *)
Definition splice (c : list Z) (o : Z) (bs : list Z) : list Z := take (Z.to_nat o) c ++ bs ++ drop (Z.to_nat o + length bs) c.
(** The clusters a file needs when it has to hold [n] bytes. *)
Definition supplied e f (E : Z -> Z) (n : Z) (l : list Z) : Prop := supply (fat e) E l /\ Z.of_nat (length l) = total_clus e (Z.max (size f) n) - total_clus e (size f).

Lemma kept_disk e f s f' s' E : disk_ok e f s E -> kept e f s f' s' -> disk_ok e f' s' E.
Proof.
  intros [Hf Hg [Hs Ht] Hfat Hch Hcnt Hbd] [K1 (K2 & K3 & K4) (K5 & K6 & K7)]. split; rewrite ?K2, ?K3; try done. split; [apply K1|]. intros c Hc. rewrite <- Ht by done.
  unfold entry. f_equal. f_equal. apply K6. by destruct (place_valid (valid := meta) (fat e) c Hg Hc) as [? _].
Qed.
Lemma kept_bytes e f s f' s' : kept e f s f' s' -> (forall j, page e f' s' j = page e f s j) -> content e f' s' = content e f s.
Proof. intros [_ (Es & _) _] Hp. unfold content. rewrite Es. apply bytes_ext. intros x _. unfold byte. by rewrite Hp. Qed.

(** [ensure_size], the first half of a write. *)
Lemma write_room pr e f s E n l : disk_ok e f s E -> 0 <= n -> n + clus_size e <= 2 ^ 32 -> supplied e f E n l ->
  exists e' f' s' E', (if 0 <? n - size f then modify_size pr e f s (n - size f) false else Ret (e, f, s)) = Ret (e', f', s') /\ disk_ok e' f' s' E' /\ moved e e' /\
    size f' = Z.max (size f) n /\ clus_list f' = clus_list f ++ l /\ (forall x, 0 <= x < capacity e f -> byte e' f' s' x = byte e f s x) /\
    (forall j, data j -> raw_block s' j = raw_block s j) /\ Forall (fun c => is_free E c = true) l /\ (forall x, last (clus_list f) <> Some x -> x ∉ l -> E' x = E x).
Proof.
  intros Hd Hn Hb [Hsup Hl]. destruct (Z.ltb_spec 0 (n - size f)) as [Hlt|Hge].
  - rewrite Z.max_r in * by lia. destruct (modify_size_grow pr e f s E (n - size f) l Hd Hlt) as (e' & f' & s' & E' & A & B & C & D & F & G1 & G2 & G3 & G4 & _); [lia|done|by replace (size f + (n - size f)) with n by lia|].
    exists e', f', s', E'. replace (size f + (n - size f)) with n in D by lia. done.
  - rewrite Z.max_l in * by lia. destruct l; [|cbn in Hl; lia]. exists e, f, s, E. rewrite app_nil_r. split; [done|]. split; [done|]. by split; [split; [destruct e|]|].
Qed.
Lemma write_at_ok pr e f s E off buf l : disk_ok e f s E -> pressure_ok pr -> 0 <= off -> off + Z.of_nat (length buf) + clus_size e <= 2 ^ 32 -> Forall byte_ok buf ->
  supplied e f E (off + Z.of_nat (length buf)) l ->
  exists e' f' s' E', write_at_block_cache pr e f s off buf = Ret (Z.of_nat (length buf), e', f', s') /\ disk_ok e' f' s' E' /\ moved e e' /\
    size f' = Z.max (size f) (off + Z.of_nat (length buf)) /\ clus_list f' = clus_list f ++ l /\
    (forall x, 0 <= x < capacity e f \/ off <= x < off + Z.of_nat (length buf) -> byte e' f' s' x = if decide (off <= x < off + Z.of_nat (length buf)) then buf !! Z.to_nat (x - off) else byte e f s x) /\
    (forall j, data j -> (forall i, j ∉ nb e' f' i) -> raw_block s' j = raw_block s j) /\ Forall (fun c => is_free E c = true) l /\ (forall x, last (clus_list f) <> Some x -> x ∉ l -> E' x = E x).
Proof.
  intros Hd Hpr Ho Hb Hbytes Hsup. unfold write_at_block_cache. pose proof (clus_size_pos e (fi_fs _ _ _ (di_file _ _ _ _ Hd))) as Hcs.
  replace (Z.of_nat (length buf) + off - size f) with (off + Z.of_nat (length buf) - size f) by lia.
  destruct (write_room pr e f s E (off + Z.of_nat (length buf)) l Hd ltac:(lia) Hb Hsup) as (e1 & f1 & s1 & E1 & -> & Hd1 & Hmv & Hsz & Hcl & Hby & Hraw & Hfree & HE). cbn [mbind outcome_bind].
  rewrite add64_small by (unfold in_range; lia). rewrite Z.min_l by lia. change CACHE_SZ with PAGE_SIZE. pose proof (fi_size _ _ _ (di_file _ _ _ _ Hd1)) as [_ Hcap].
  destruct (file_write_loop_ok pr e1 Hpr (pages off (off + Z.of_nat (length buf))) f1 s1 off (off + Z.of_nat (length buf)) buf 0) as (f2 & s2 & -> & Hk & Hw); [apply Hd1|lia|lia|done|lia|lia|done|].
  cbn [mbind outcome_bind]. destruct (ke_same _ _ _ _ _ Hk) as (K1 & K2 & K3). exists e1, f2, s2, E1. replace (0 + (off + Z.of_nat (length buf) - off)) with (Z.of_nat (length buf)) by lia. split; [done|]. split; [by eapply kept_disk|]. split; [done|].
  split; [by rewrite K1|]. split; [by rewrite K2|]. split; [|split; [|done]].
  - intros x Hx. assert (get_bytes buf 0 (off + Z.of_nat (length buf) - off) = buf) as Eg by (unfold get_bytes; change (Z.to_nat 0) with O; rewrite drop_0, take_ge by lia; done).
    assert (capacity e f <= capacity e1 f1) as Hc1.
    { unfold capacity, sectors. rewrite Hcl, length_app. destruct Hmv as [-> _]. cbn [with_fat sec_per_clus]. pose proof (fs_sectors e (fi_fs _ _ _ (di_file _ _ _ _ Hd))). unfold BLOCK_SZ. nia. }
    rewrite Hw, Eg by (unfold capacity in *; lia). case_decide; [done|]. apply Hby. lia.
  - intros j Hj Hno. destruct (ke_store _ _ _ _ _ Hk) as (_ & _ & Hst). rewrite Hst; [by apply Hraw|done|]. intros i. specialize (Hno i). unfold nb in *. by rewrite K2 in Hno.
Qed.
Lemma content_lookup e f s k : content e f s !! k = if decide (Z.of_nat k < size f) then Some (default 0 (byte e f s (Z.of_nat k))) else None.
Proof.
  unfold content. case_decide as D; [by rewrite bytes_lookup|]. apply lookup_ge_None_2. unfold bytes. rewrite length_map, length_seqZ. lia.
Qed.
Lemma content_length e f s : 0 <= size f -> Z.of_nat (length (content e f s)) = size f.
Proof. intros. by apply bytes_length. Qed.
Lemma splice_lookup c o bs k : 0 <= o <= Z.of_nat (length c) -> splice c o bs !! k = if decide (o <= Z.of_nat k < o + Z.of_nat (length bs)) then bs !! Z.to_nat (Z.of_nat k - o) else c !! k.
Proof.
  intros Ho. unfold splice. destruct (decide (Z.of_nat k < o)).
  - rewrite decide_False by lia. rewrite lookup_app_l by (rewrite length_take; lia). apply lookup_take_lt. lia.
  - rewrite lookup_app_r by (rewrite length_take; lia). rewrite length_take. replace (Nat.min (Z.to_nat o) (length c)) with (Z.to_nat o) by lia. case_decide.
    + rewrite lookup_app_l by lia. f_equal. lia.
    + rewrite lookup_app_r by lia. rewrite lookup_drop. f_equal. lia.
Qed.

(** C8: Writing a file. A write that starts inside the file or at its end reports all its bytes, and
    the file's content is the old byte string with the new bytes put in, longer if they reach behind
    its end, whatever pages were written back and read again on the way; the clusters added were
    free. Needed is that the table can supply the clusters ([supplied]). *)
Theorem fat_file_write pr e f s E off buf l : disk_ok e f s E -> pressure_ok pr -> 0 <= off <= size f -> off + Z.of_nat (length buf) + clus_size e <= 2 ^ 32 -> Forall byte_ok buf ->
  supplied e f E (off + Z.of_nat (length buf)) l ->
  exists e' f' s' E', write_at_block_cache pr e f s off buf = Ret (Z.of_nat (length buf), e', f', s') /\ disk_ok e' f' s' E' /\
    content e' f' s' = splice (content e f s) off buf /\ clus_list f' = clus_list f ++ l /\ Forall (fun c => is_free E c = true) l.
Proof.
  intros Hd Hpr Ho Hb Hbytes Hsup. destruct (write_at_ok pr e f s E off buf l Hd Hpr ltac:(lia) Hb Hbytes Hsup) as (e' & f' & s' & E' & A & B & _ & Hsz & Hcl & Hby & _ & Hfree & _).
  exists e', f', s', E'. split; [done|]. split; [done|]. split; [|done]. pose proof (fi_size _ _ _ (di_file _ _ _ _ Hd)) as [Hs1 Hs2].
  apply list_eq. intros k. rewrite splice_lookup by (rewrite content_length by lia; lia). rewrite !content_lookup, Hsz. destruct (decide (off <= Z.of_nat k < off + Z.of_nat (length buf))) as [D|D].
  - rewrite decide_True by lia. rewrite Hby by lia. rewrite decide_True by done. assert (Z.to_nat (Z.of_nat k - off) < length buf)%nat as Hk by lia. apply lookup_lt_is_Some in Hk as [v ->]. done.
  - destruct (decide (Z.of_nat k < size f)) as [D2|D2]; [|by rewrite decide_False by lia]. rewrite decide_True by lia. rewrite Hby by (unfold capacity; lia). by rewrite decide_False.
Qed.

Lemma read_at_ok pr e f s E off buf : disk_ok e f s E -> pressure_ok pr -> 0 <= off -> off + Z.of_nat (length buf) < 2 ^ 64 ->
  let n := Z.max 0 (Z.min (Z.of_nat (length buf)) (size f - off)) in
  exists f' s', read_at_block_cache pr e f s off buf = Ret (n, set_bytes buf 0 (get_bytes (content e f s) off n), f', s') /\ kept e f s f' s' /\ content e f' s' = content e f s.
Proof.
  intros Hd Hpr Ho Hb n. unfold read_at_block_cache. rewrite add64_small by (unfold in_range; lia). pose proof (fi_size _ _ _ (di_file _ _ _ _ Hd)) as [Hs1 Hs2].
  destruct (Z.leb_spec (Z.min (off + Z.of_nat (length buf)) (size f)) off) as [Hle|Hlt].
  - exists f, s. replace n with 0 by lia. split; [|split; [apply file_kept_refl, Hd|done]]. unfold set_bytes, get_bytes. change (Z.to_nat 0) with O. by rewrite !take_0.
  - set (stop := Z.min (off + Z.of_nat (length buf)) (size f)) in *. change CACHE_SZ with PAGE_SIZE.
    destruct (file_read_loop_ok pr e Hpr (pages off stop) f s off stop buf 0) as (f' & s' & -> & Hk & Hp); [apply Hd|lia|lia|unfold capacity; lia|done|lia|lia|].
    exists f', s'. replace (stop - off) with n by lia. split; [|split; [done|by apply kept_bytes]]. do 2 f_equal. rewrite Z.add_0_l. do 2 f_equal. f_equal.
    apply list_eq. intros k. destruct (decide (Z.of_nat k < n)) as [D|D].
    + rewrite bytes_lookup, get_bytes_lookup, content_lookup by lia. rewrite decide_True by lia. do 3 f_equal. lia.
    + rewrite !lookup_ge_None_2; [done| |]; [pose proof (get_bytes_length (content e f s) off n); rewrite content_length in * by lia; lia|pose proof (bytes_length e f s off n); lia].
Qed.
Lemma write_inside_ok pr e f s E off buf : disk_ok e f s E -> pressure_ok pr -> 0 <= off -> off + Z.of_nat (length buf) <= size f -> Forall byte_ok buf ->
  exists f' s', write_at_block_cache pr e f s off buf = Ret (Z.of_nat (length buf), e, f', s') /\ kept e f s f' s' /\ content e f' s' = set_bytes (content e f s) off buf.
Proof.
  intros Hd Hpr Ho Hb Hbytes. unfold write_at_block_cache. pose proof (fi_size _ _ _ (di_file _ _ _ _ Hd)) as [Hs1 Hs2]. rewrite (proj2 (Z.ltb_ge 0 _)) by lia. cbn [mbind outcome_bind]. rewrite add64_small by (unfold in_range; lia). rewrite Z.min_l by lia. change CACHE_SZ with PAGE_SIZE.
  destruct (file_write_loop_ok pr e Hpr (pages off (off + Z.of_nat (length buf))) f s off (off + Z.of_nat (length buf)) buf 0) as (f' & s' & -> & Hk & Hw); [apply Hd|lia|lia|done|lia|lia|done|].
  cbn [mbind outcome_bind]. exists f', s'. replace (0 + (off + Z.of_nat (length buf) - off)) with (Z.of_nat (length buf)) by lia. split; [done|]. split; [done|]. destruct (ke_same _ _ _ _ _ Hk) as (K1 & _ & _).
  assert (get_bytes buf 0 (off + Z.of_nat (length buf) - off) = buf) as Eg by (unfold get_bytes; change (Z.to_nat 0) with O; rewrite drop_0, take_ge by lia; done). rewrite Eg in Hw.
  apply list_eq. intros k. rewrite set_bytes_lookup by (rewrite ?content_length by lia; lia). rewrite !content_lookup, K1. destruct (decide (off <= Z.of_nat k < off + Z.of_nat (length buf))) as [D|D].
  - rewrite decide_True by lia. rewrite Hw by (unfold capacity; lia). rewrite decide_True by done. replace (Z.to_nat (Z.of_nat k - off)) with (k - Z.to_nat off)%nat by lia. assert (k - Z.to_nat off < length buf)%nat as Hl by lia. apply lookup_lt_is_Some in Hl as [v ->]. done.
  - destruct (decide (Z.of_nat k < size f)) as [D2|D2]; [|done]. rewrite Hw by (unfold capacity; lia). by rewrite decide_False.
Qed.

(** C11: Reading a file. A read reports the bytes from the offset up to the buffer's or the file's end and
    puts them at the front of the buffer; the content stays, also when pages are written back. *)
Theorem fat_file_read pr e f s E off buf : disk_ok e f s E -> pressure_ok pr -> 0 <= off -> off + Z.of_nat (length buf) < 2 ^ 64 ->
  let n := Z.max 0 (Z.min (Z.of_nat (length buf)) (size f - off)) in
  exists f' s', read_at_block_cache pr e f s off buf = Ret (n, set_bytes buf 0 (get_bytes (content e f s) off n), f', s') /\ disk_ok e f' s' E /\ content e f' s' = content e f s.
Proof.
  intros Hd Hpr Ho Hb n. destruct (read_at_ok pr e f s E off buf Hd Hpr Ho Hb) as (f' & s' & Er & Hk & Hc). exists f', s'. split; [exact Er|]. split; [by eapply kept_disk|done].
Qed.

(** C10: Making a file smaller, to any size down to 0. It never fails: the content is the front of what it was, the
    file keeps the clusters of its new size, the clusters behind them are free in the table afterwards, no entry
    of the table changes but theirs and that of the new last cluster, and no data block is written. *)
Theorem fat_file_cut pr e f s E diff clear : disk_ok e f s E -> diff <= 0 -> 0 <= size f + diff -> let n := Z.to_nat (total_clus e (size f + diff)) in
  exists e' f' s' E', modify_size pr e f s diff clear = Ret (e', f', s') /\ disk_ok e' f' s' E' /\ content e' f' s' = take (Z.to_nat (size f + diff)) (content e f s) /\
    clus_list f' = take n (clus_list f) /\ Forall (fun c => is_free E' c = true) (drop n (clus_list f)) /\
    (forall x, x ∉ drop n (clus_list f) -> last (take n (clus_list f)) <> Some x -> E' x = E x) /\ forall j, data j -> raw_block s' j = raw_block s j.
Proof.
  intros Hd Hdiff Hsz n. destruct (modify_size_cut pr e f s E diff clear Hd Hdiff Hsz) as (e' & f' & s' & E' & A & B & _ & C & D & F & G & H & I & _).
  exists e', f', s', E'. split; [done|]. split; [done|]. split; [|done]. apply list_eq. intros k. rewrite content_lookup, C. case_decide as K.
  - rewrite lookup_take_lt, content_lookup, decide_True by lia. by rewrite F by lia.
  - by rewrite lookup_take_ge by lia.
Qed.

(** ** Several files *)
Lemma file_chain_ext ft ft' E E' l : tot_ent ft' = tot_ent ft -> (forall x, x ∈ l -> E' x = E x) -> file_chain ft E l -> file_chain ft' E' l.
Proof.
  intros Et H (Hc & Hn & Hr). split; [|split; [done|by rewrite Et]]. destruct Hc as [->|[Hp (z & Hz & He)]]; [by left|right]. apply last_Some in Hz as (o & ->). split.
  - apply (path_ext E); [|done]. intros x Hx. apply H, elem_of_app. by left.
  - exists z. rewrite last_snoc. split; [done|]. unfold nxt. rewrite H; [done|]. apply elem_of_app. right. by apply list_elem_of_singleton.
Qed.
Lemma sector_other e l l' k k' : fs_ok e -> clusters_ok e l -> clusters_ok e l' -> (forall c, c ∈ l -> c ∉ l') -> 0 <= k < sectors e l -> 0 <= k' < sectors e l' -> sector e l k <> sector e l' k'.
Proof.
  intros He [_ Hl] [_ Hl'] Hdis [Hk0 Hk] [Hk0' Hk']. pose proof (proj2 (cluster_of e l k He Hk0) Hk) as Hlt. pose proof (proj2 (cluster_of e l' k' He Hk0') Hk') as Hlt'.
  apply lookup_lt_is_Some in Hlt as [c Hc]. apply lookup_lt_is_Some in Hlt' as [c' Hc']. unfold sector. rewrite Hc, Hc'. change (default 2 (Some c)) with c. change (default 2 (Some c')) with c'. destruct He as [_ H1 _ _ _]. intros Es.
  pose proof (Z.mod_pos_bound k (sec_per_clus e)). pose proof (Z.mod_pos_bound k' (sec_per_clus e)). assert (c = c') as <- by nia. apply (Hdis c); by eapply list_elem_of_lookup_2.
Qed.
Lemma nb_other e f g : fs_ok e -> clusters_ok e (clus_list f) -> clusters_ok e (clus_list g) -> (forall c, c ∈ clus_list g -> c ∉ clus_list f) -> forall i j b, b ∈ nb e g i -> b ∉ nb e f j.
Proof. intros He Hf Hg Hdis i j b (k & -> & _ & Hk)%nb_elem (k' & Eq & _ & Hk')%nb_elem; try done. by apply (sector_other e (clus_list g) (clus_list f) k k') in Eq. Qed.
Lemma page_other e g s s' : file_ok e g s -> ok s' -> (forall i b, b ∈ nb e g i -> raw_block s' b = raw_block s b) -> forall i, page e g s' i = page e g s i.
Proof.
  intros Hg Hs' H i. unfold page, PageCacheManager.view, PageCacheManager.page_at. destruct (PageCacheManager.lookup_cell (file_cache_mgr g) i); [done|]. rewrite !PageCacheManager.page_of_room by (apply Hg || done).
  apply list_bind_ext_in. intros b Hb. by apply (H i).
Qed.

(** C9: Files do not interfere. A write to one file, below the 32-bit limit on its size, succeeds whenever the
    clusters it adds are in the table's supply: the end of the queue of free clusters has them, or the queue is
    empty and there are that many free clusters from the hint to the end of the table. However much the file
    grows and however much of its cache is written back, the content and the chain of every file with other
    clusters stay as they were, and the two still share no cluster. (With a queue that is not empty but too
    short, or free clusters only before the hint, nothing is claimed.) *)
Theorem fat_files_apart pr e f g s E off buf l : disk_ok e f s E -> disk_ok e g s E -> (forall c, c ∈ clus_list g -> c ∉ clus_list f) ->
  pressure_ok pr -> 0 <= off -> off + Z.of_nat (length buf) + clus_size e <= 2 ^ 32 -> Forall byte_ok buf -> supplied e f E (off + Z.of_nat (length buf)) l ->
  exists e' f' s' E', write_at_block_cache pr e f s off buf = Ret (Z.of_nat (length buf), e', f', s') /\ disk_ok e' f' s' E' /\ disk_ok e' g s' E' /\
    content e' g s' = content e g s /\ forall c, c ∈ clus_list g -> c ∉ clus_list f'.
Proof.
  intros Hd Hg Hdis Hpr Ho Hb Hbytes Hsup. destruct (write_at_ok pr e f s E off buf l Hd Hpr Ho Hb Hbytes Hsup) as (e' & f' & s' & E' & A & B & Hmv & _ & Hcl & _ & Hraw & Hfree & HE).
  exists e', f', s', E'. split; [done|]. split; [done|]. pose proof Hg as [Hgf Hgg Hgt Hgfat Hgch Hgcnt Hgbd]. pose proof Hgf as [G1 G2 G3 G4 G5]. destruct Hmv as [Ee Hpl].
  assert (forall c, c ∈ clus_list g -> c ∉ clus_list f') as Hdis'.
  { intros c Hc. rewrite Hcl, not_elem_of_app. split; [by apply Hdis|]. intros Hl. rewrite Forall_forall in Hfree. specialize (Hfree c Hl). by rewrite (file_used (fat e) E (clus_list g) c Hgch Hc) in Hfree. }
  assert (forall x, x ∈ clus_list g -> E' x = E x) as HEg.
  { intros x Hx. apply HE; [intros Hlast; by apply (Hdis x Hx), last_Some_elem_of|]. specialize (Hdis' x Hx). rewrite Hcl, not_elem_of_app in Hdis'. by destruct Hdis'. }
  assert (clusters_ok e' (clus_list g)) as G2'. { destruct G2 as [N R]. split; [done|]. destruct Hpl as (_ & _ & ->). done. }
  assert (fs_ok e') as G1' by apply B. assert (forall i, page e' g s' i = page e' g s i) as Hpages.
  { apply page_other; [|apply B|].
    - rewrite Ee in G2' |- *. split; [by apply fs_ok_place|done|done|done|done].
    - intros i b Hbi. apply Hraw; [|intros j; by apply (nb_other e' f' g G1' (fi_clusters _ _ _ (di_file _ _ _ _ B)) G2' Hdis' i j b)]. pose proof (PageCacheManager.bo_data _ (nb_ok e' (clus_list g) G1' G2') i) as Hdat. rewrite Forall_forall in Hdat. by apply Hdat. }
  split; [|split; [|done]].
  - split; [|apply B|apply B|apply B| |rewrite Ee; done|rewrite Ee; done]; [split; [done|done|apply B|done|rewrite Ee; done]|]. apply (file_chain_ext (fat e) _ E); [by destruct Hpl as (_ & _ & ->)|done|done].
  - unfold content. rewrite Ee. apply list_eq. intros k. fold (content (with_fat e (fat e')) g s') (content e g s). rewrite !content_lookup. case_decide; [|done]. rewrite byte_fat.
    rewrite <- (byte_fat e (fat e') g s'), <- (byte_fat e (fat e') g s), <- Ee. unfold byte. by rewrite Hpages.
Qed.
End Content.

(** ** A small disk
    The table is block 1; clusters 2 to 5 are blocks 8 to 11. *)
Definition demo_meta (i : Z) : Prop := i = 1.
Definition demo_data (i : Z) : Prop := 8 <= i < 12.
Lemma demo_regions : (forall i, demo_meta i -> BlockCacheManager.valid i /\ ~ demo_data i) /\ forall i, demo_data i -> BlockCacheManager.valid i.
Proof. unfold demo_meta, demo_data, BlockCacheManager.valid, usize_max. split; intros; lia. Qed.
Definition demo_ok : BlockCacheManager.t -> Prop := BlockDisk.apart (data := demo_data).
Definition demo_disk_store : DiskStore BlockCacheManager.t demo_meta demo_data demo_ok := BlockDisk.disk_store (proj1 demo_regions) (proj2 demo_regions).
#[local] Existing Instance demo_disk_store.
Definition demo_efs : EasyFileSystem := MkEfs demo_fat 8 2 1 512.
Definition demo_pressure : pressure := Pressure (fun _ => Some true) (fun _ => replicate 4096 0).
Definition empty_file : FatInode := MkInode 0 [] 0 PageCacheManager.new.
(** A file of one cluster. *)
Definition one_store : BlockCacheManager.t := demo_store_of [EOC; EOC; EOC; 0].
Definition one_file : FatInode := MkInode 512 [2] 0 PageCacheManager.new.

Lemma demo_fs : fs_ok (data := demo_data) demo_efs.
Proof. split; cbn [demo_efs efs_byts_per_sec sec_per_clus data_area_start_block fat demo_fat Fat.new tot_ent]; try done; try lia. intros c k Hc Hk. unfold demo_data. lia. Qed.
Lemma demo_pressure_ok : pressure_ok demo_pressure.
Proof. intros i. split; [done|]. apply Forall_replicate. unfold byte_ok. lia. Qed.
Lemma new_cache_ok : PageCacheManager.inv PageCacheManager.new /\ PageCacheManager.idle PageCacheManager.new.
Proof. split; [split|]; [done|constructor|intros i; split; [by intros ?%elem_of_nil|by intros [? ?]]|done]. Qed.
Lemma demo_store_ok es : demo_ok (demo_store_of es).
Proof. split; [apply demo_table|]. intros j Hj [H|H%elem_of_nil]%elem_of_cons; [|done]. change (j = usize_max) in H. unfold demo_data, usize_max in *. lia. Qed.
Lemma demo_geometry_meta : geometry (valid := demo_meta) demo_fat.
Proof. split; cbn [demo_fat Fat.new byts_per_sec tot_ent start_block_id]; try done; try (unfold BAD_BLOCK; lia). intros i Hi. change (1 <= i <= 1 + 0) in Hi. unfold demo_meta. lia. Qed.
Lemma demo_disk_ok es f : let s := demo_store_of es in NoDup (clus_list f) -> Forall (fun c => 2 <= c < 6) (clus_list f) -> file_cache_mgr f = PageCacheManager.new ->
  0 <= size f < 2 ^ 32 - 512 -> size f <= Z.of_nat (length (clus_list f)) * 512 -> Z.of_nat (length (clus_list f)) = total_clus demo_efs (size f) ->
  fat_ok demo_fat (entry demo_fat s) -> file_chain demo_fat (entry demo_fat s) (clus_list f) ->
  disk_ok (meta := demo_meta) (data := demo_data) (ok := demo_ok) demo_efs f s (entry demo_fat s).
Proof.
  intros s Hn Hr Hm Hs1 Hs2 Hc Hfat Hch. split; [|apply demo_geometry_meta|by split; [apply demo_store_ok|]|done|done|done|change (clus_size demo_efs) with 512; lia].
  split; [apply demo_fs|by split|apply demo_store_ok|rewrite Hm; apply new_cache_ok|]. split; [lia|]. unfold sectors, BLOCK_SZ. cbn [demo_efs sec_per_clus]. lia.
Qed.
Lemma demo_empty : disk_ok (meta := demo_meta) (data := demo_data) (ok := demo_ok) demo_efs empty_file demo_store (entry demo_fat demo_store).
Proof.
  apply (demo_disk_ok [EOC; EOC; 0; 0] empty_file); [constructor|constructor|done|cbn [size empty_file]; lia|cbn [size empty_file]; lia|by vm_compute|apply demo_fat_ok|].
  split; [by left|]. split; constructor.
Qed.
Lemma one_fat_ok : fat_ok demo_fat (entry demo_fat one_store).
Proof. split; [constructor|constructor|cbn [demo_fat Fat.new hint tot_ent]; lia|by vm_compute]. Qed.
Lemma demo_one : disk_ok (meta := demo_meta) (data := demo_data) (ok := demo_ok) demo_efs one_file one_store (entry demo_fat one_store).
Proof.
  apply (demo_disk_ok [EOC; EOC; EOC; 0] one_file); cbn [clus_list one_file].
  - apply NoDup_singleton.
  - repeat (constructor; [lia|]). constructor.
  - done.
  - cbn [size one_file]. lia.
  - cbn [size one_file length]. lia.
  - by vm_compute.
  - apply one_fat_ok.
  - split; [right; split; [done|exists 2; split; [done|by vm_compute]]|]. split; [apply NoDup_singleton|]. repeat (constructor; [cbn [demo_fat Fat.new tot_ent]; lia|]). constructor.
Qed.
Definition hello : list Z := [104; 101; 108; 108; 111].
Lemma hello_ok : Forall byte_ok hello.
Proof. unfold hello, byte_ok. repeat (constructor; [lia|]). constructor. Qed.

Lemma fat_file_write_witness : exists e' f' s' E', write_at_block_cache demo_pressure demo_efs empty_file demo_store 0 hello = Ret (5, e', f', s') /\ disk_ok (meta := demo_meta) (data := demo_data) (ok := demo_ok) e' f' s' E' /\
  content e' f' s' = splice (content demo_efs empty_file demo_store) 0 hello /\ clus_list f' = [] ++ [2] /\ Forall (fun c => is_free (entry demo_fat demo_store) c = true) [2].
Proof.
  apply (fat_file_write demo_pressure demo_efs empty_file demo_store (entry demo_fat demo_store) 0 hello [2]); [apply demo_empty|apply demo_pressure_ok|done|by vm_compute|apply hello_ok|].
  split; [|by vm_compute]. right. split; [done|]. exists 1%nat. split; [by vm_compute|]. apply Nat.leb_le. by vm_compute.
Defined.
Lemma fat_file_read_witness : exists f' s', read_at_block_cache demo_pressure demo_efs one_file one_store 500 (replicate 20 0) =
    Ret (12, set_bytes (replicate 20 0) 0 (get_bytes (content demo_efs one_file one_store) 500 12), f', s') /\
  disk_ok (meta := demo_meta) (data := demo_data) (ok := demo_ok) demo_efs f' s' (entry demo_fat one_store) /\ content demo_efs f' s' = content demo_efs one_file one_store.
Proof. apply (fat_file_read demo_pressure demo_efs one_file one_store (entry demo_fat one_store) 500 (replicate 20 0)); [apply demo_one|apply demo_pressure_ok|lia|cbn [length replicate]; lia]. Defined.
Lemma fat_file_cut_witness : exists e' f' s' E', modify_size demo_pressure demo_efs one_file one_store (-512) false = Ret (e', f', s') /\ disk_ok (meta := demo_meta) (data := demo_data) (ok := demo_ok) e' f' s' E' /\
  content e' f' s' = take 0 (content demo_efs one_file one_store) /\ clus_list f' = take 0 [2] /\ Forall (fun c => is_free E' c = true) (drop 0 [2]) /\
  (forall x, x ∉ drop 0 [2] -> last (take 0 [2]) <> Some x -> E' x = entry demo_fat one_store x) /\ forall j, demo_data j -> raw_block s' j = raw_block one_store j.
Proof. apply (fat_file_cut demo_pressure demo_efs one_file one_store (entry demo_fat one_store) (-512) false); [apply demo_one|lia|cbn [size one_file]; lia]. Defined.
Lemma fat_files_apart_witness : exists e' f' s' E', write_at_block_cache demo_pressure demo_efs empty_file one_store 0 hello = Ret (5, e', f', s') /\ disk_ok (meta := demo_meta) (data := demo_data) (ok := demo_ok) e' f' s' E' /\
  disk_ok (meta := demo_meta) (data := demo_data) (ok := demo_ok) e' one_file s' E' /\ content e' one_file s' = content demo_efs one_file one_store /\ forall c, c ∈ [2] -> c ∉ clus_list f'.
Proof.
  apply (fat_files_apart demo_pressure demo_efs empty_file one_file one_store (entry demo_fat one_store) 0 hello [3]); [|apply demo_one|by intros c _ ?%elem_of_nil|apply demo_pressure_ok|done|by vm_compute|apply hello_ok|].
  - apply (demo_disk_ok [EOC; EOC; EOC; 0] empty_file); [constructor|constructor|done|cbn [size empty_file]; lia|cbn [size empty_file]; lia|by vm_compute|apply one_fat_ok|]. split; [by left|]. split; constructor.
  - split; [|by vm_compute]. right. split; [done|]. exists 1%nat. split; [by vm_compute|]. apply Nat.leb_le. by vm_compute.
Defined.

(** ** Where the file system loses or shows data *)
Definition calm : pressure := Pressure (fun _ => None) (fun _ => replicate 4096 9).
(** A disk without a free cluster; the data blocks hold old bytes. *)
Definition used_disk (es : list Z) : BlockCacheManager.t := BlockCacheManager.new [replicate 512 0] (fun a => if a <? 4096 then demo_disk es a else 7).
(** On a full disk a write reports success; the file has a size but no cluster, and the bytes are gone
    once the page has been dropped. *)
Example full_disk_write_is_lost :
  (let s := used_disk [EOC; EOC; EOC; EOC] in
   '(n, e, f1, s1) ← write_at_block_cache calm demo_efs empty_file s 0 hello;
   '(_, f2, s2) ← oom true e f1 s1;
   '(d, f3, s3) ← oom true e f2 s2;
   '(_, b, _, _) ← read_at_block_cache calm e f3 s3 0 (replicate 5 0);
   Ret (n, size f1, clus_list f1, d, b)) = Ret (5, 5, [], 1, replicate 5 9).
Proof. by vm_compute. Qed.
(** Writing behind the end of a file shows what the clusters held before. *)
Example hole_shows_old_bytes :
  (let s := used_disk [EOC; EOC; 0; 0] in
   '(_, e, f1, s1) ← write_at_block_cache calm demo_efs empty_file s 100 hello;
   '(n, b, _, _) ← read_at_block_cache calm e f1 s1 97 (replicate 8 0);
   Ret (n, b)) = Ret (8, 7 :: 7 :: 7 :: hello).
Proof. by vm_compute. Qed.
(** The number of clusters of a file near four gigabytes overflows to zero. *)
Example total_clus_overflows : total_clus demo_efs (2 ^ 32 - 1) = 0.
Proof. by vm_compute. Qed.
End FatInode.
