(* ===== verification/FatLayout.v ===== *)
(** * FatLayout: structures on a FAT32 disk (os/src/fs/fat32/layout.rs)

    The boot parameter block, directory entries as the 32 bytes of the union [FATDirEnt], and names:
    a [String] is the list of its characters, with the parts of the standard library the code uses
    (UTF-8 lengths and boundaries, UTF-16). *)
From S2P Require Import Prelude Bytes PageStore Fat FatFile.

(** ** Strings *)
Definition str : Type := list Z.
Definition char_len (c : Z) : Z := if c <? 0x80 then 1 else if c <? 0x800 then 2 else if c <? 0x10000 then 3 else 4.
(** [str::len], in bytes. *)
Definition str_len (s : str) : Z := foldr (fun c n => char_len c + n) 0 s.
Definition char_utf8 (c : Z) : list Z :=
  if c <? 0x80 then [c]
  else if c <? 0x800 then [0xC0 + Z.shiftr c 6; 0x80 + Z.land c 0x3F]
  else if c <? 0x10000 then [0xE0 + Z.shiftr c 12; 0x80 + Z.land (Z.shiftr c 6) 0x3F; 0x80 + Z.land c 0x3F]
  else [0xF0 + Z.shiftr c 18; 0x80 + Z.land (Z.shiftr c 12) 0x3F; 0x80 + Z.land (Z.shiftr c 6) 0x3F; 0x80 + Z.land c 0x3F].
Definition cont (b : Z) : bool := (0x80 <=? b) && (b <? 0xC0).
(** [core::str::from_utf8]: shortest forms of scalar values only. *)
Fixpoint from_utf8 (l : list Z) : option str :=
  match l with
  | [] => Some []
  | b :: r =>
      if b <? 0x80 then cons b <$> from_utf8 r
      else match r with
           | c1 :: r1 =>
               if (0xC2 <=? b) && (b <? 0xE0) && cont c1 then cons ((b - 0xC0) * 64 + (c1 - 0x80)) <$> from_utf8 r1
               else match r1 with
                    | c2 :: r2 =>
                        let v := (b - 0xE0) * 4096 + (c1 - 0x80) * 64 + (c2 - 0x80) in
                        if (0xE0 <=? b) && (b <? 0xF0) && cont c1 && cont c2 && (0x800 <=? v) && negb ((0xD800 <=? v) && (v <? 0xE000)) then cons v <$> from_utf8 r2
                        else match r2 with
                             | c3 :: r3 =>
                                 let v := (b - 0xF0) * 262144 + (c1 - 0x80) * 4096 + (c2 - 0x80) * 64 + (c3 - 0x80) in
                                 if (0xF0 <=? b) && (b <? 0xF5) && cont c1 && cont c2 && cont c3 && (0x10000 <=? v) && (v <? 0x110000) then cons v <$> from_utf8 r3 else None
                             | [] => None
                             end
                    | [] => None
                    end
           | [] => None
           end
  end.
Definition as_bytes (s : str) : list Z := s ≫= char_utf8.
(** [str::split_at] fails when the index is not between two characters. *)
Fixpoint split_at (s : str) (mid : Z) : outcome (str * str) :=
  if mid =? 0 then Ret ([], s)
  else match s with
       | [] => Panic
       | c :: r => if mid <? char_len c then Panic else '(a, b) ← split_at r (mid - char_len c); Ret (c :: a, b)
       end.
Definition encode_utf16 (s : str) : list Z :=
  s ≫= (fun c => if c <? 0x10000 then [c] else [0xD800 + Z.shiftr (c - 0x10000) 10; 0xDC00 + Z.land (c - 0x10000) 0x3FF]).
Definition is_high (u : Z) : bool := (0xD800 <=? u) && (u <? 0xDC00).
Definition is_low (u : Z) : bool := (0xDC00 <=? u) && (u <? 0xE000).
(** [String::from_utf16_lossy]: units that are not part of a pair become the replacement character. *)
Fixpoint from_utf16_lossy (l : list Z) : str :=
  match l with
  | [] => []
  | u :: r =>
      if is_high u then
        match r with
        | v :: r' => if is_low v then (0x10000 + Z.shiftl (u - 0xD800) 10 + (v - 0xDC00)) :: from_utf16_lossy r' else 0xFFFD :: from_utf16_lossy r
        | [] => [0xFFFD]
        end
      else (if is_low u then 0xFFFD else u) :: from_utf16_lossy r
  end.
Definition to_ascii_uppercase (s : str) : str := map (fun c => if (97 <=? c) && (c <=? 122) then c - 32 else c) s.
Definition space : Z := 32.
Definition dot : Z := 46.
Fixpoint rsplit_once (s : str) (p : Z) : option (str * str) :=
  match s with
  | [] => None
  | c :: r =>
      match rsplit_once r p with
      | Some (a, b) => Some (c :: a, b)
      | None => if c =? p then Some ([], r) else None
      end
  end.
Fixpoint trim_start_matches (s : str) (p : Z) : str := match s with c :: r => if c =? p then trim_start_matches r p else s | [] => [] end.
(** [format!("{: <n}", s)]: padded on the right, counting characters. *)
Definition pad (s : str) (n : nat) : str := s ++ replicate (n - length s) space.

(** ** The boot parameter block *)
Module BPB.
Record t : Type := Mk { byts_per_sec : Z; sec_per_clus : Z; rsvd_sec_cnt : Z; num_fats : Z; root_ent_cnt : Z; tot_sec16 : Z; fat_sz16 : Z; tot_sec32 : Z; fat_sz32 : Z; root_clus : Z }.
(** The fields in the packed layout. *)
Definition field (b : list Z) (o n : Z) : Z := le_combine (get_bytes b o n).
Definition of_bytes (b : list Z) : t :=
  Mk (field b 11 2) (field b 13 1) (field b 14 2) (field b 16 1) (field b 17 2) (field b 19 2) (field b 22 2) (field b 32 4) (field b 36 4) (field b 44 4).
Definition root_dir_sec (b : t) : Z := wrap 16 (wrap 16 (root_ent_cnt b * 32) + wrap 16 (byts_per_sec b - 1)) / byts_per_sec b.
Definition data_sector_count (b : t) : Z := wrap 32 (tot_sec32 b - wrap 32 (wrap 32 (rsvd_sec_cnt b + wrap 32 (num_fats b * fat_sz32 b)) + root_dir_sec b)).
Definition count_of_cluster (b : t) : Z := data_sector_count b / sec_per_clus b.
Definition clus_size (b : t) : Z := wrap 16 (byts_per_sec b * sec_per_clus b).
Definition first_data_sector (b : t) : Z :=
  let fat_sz := if negb (fat_sz16 b =? 0) then fat_sz16 b else fat_sz32 b in
  wrap 32 (wrap 32 (rsvd_sec_cnt b + wrap 32 (num_fats b * fat_sz)) + root_dir_sec b).
Definition is_valid (b : t) : bool :=
  (root_dir_sec b =? 0) && (tot_sec16 b =? 0) && (66625 <=? count_of_cluster b) && (fat_sz16 b =? 0) && (root_ent_cnt b =? 0).
Inductive FatType : Type := FAT32 | FAT16 | FAT12.
Definition fat_type (b : t) : FatType := if count_of_cluster b <? 4085 then FAT12 else if count_of_cluster b <? 65525 then FAT16 else FAT32.
End BPB.

(** [EasyFileSystem::open], from the first block. *)
Definition open {S} `{BlockCache.BlockStore S} (s : S) : outcome (EasyFileSystem * S) :=
  '(block, s') ← BlockCache.bs_read s 0;
  let b := BPB.of_bytes block in
  Ret (MkEfs (Fat.new (BPB.rsvd_sec_cnt b) (BPB.byts_per_sec b) (BPB.data_sector_count b / BPB.sec_per_clus b)) (BPB.first_data_sector b) (BPB.root_clus b) (BPB.sec_per_clus b) (BPB.byts_per_sec b), s').

(** ** Directory entries *)
Definition DIR_ENTRY_UNUSED : Z := 0xe5.
Definition DIR_ENTRY_LAST_AND_UNUSED : Z := 0.
Definition LAST_LONG_ENTRY : Z := 0x40.
Definition LONG_DIR_ENT_NAME_CAPACITY : nat := 13.
Inductive DiskInodeType : Type := File | Directory | FIFO | Character | Block | Socket | Link.
Module Attr.
Definition Clear : Z := 0.
Definition ReadOnly : Z := 0x01.
Definition Hidden : Z := 0x02.
Definition System : Z := 0x04.
Definition VolumeID : Z := 0x08.
Definition Directory : Z := 0x10.
Definition Archive : Z := 0x20.
Definition LongName : Z := 0x0F.
End Attr.

Module Short.
(** [FATShortDirEnt] *)
Definition name_array (e : list Z) : list Z := get_bytes e 0 11.
Definition attr (e : list Z) : Z := le_combine (get_bytes e 11 1).
Definition file_size (e : list Z) : Z := le_combine (get_bytes e 28 4).
Definition set_file_size (e : list Z) (n : Z) : list Z := set_bytes e 28 (le_split 4 n).
Definition set_fst_clus (e : list Z) (fst_clus : Z) : list Z :=
  set_bytes (set_bytes e 20 (le_split 2 (wrap 16 (Z.shiftr fst_clus 16)))) 26 (le_split 2 (Z.land fst_clus 0xffff)).
Definition get_first_clus (e : list Z) : Z := Z.lor (le_combine (get_bytes e 26 2)) (Z.shiftl (le_combine (get_bytes e 20 2)) 16).
Definition from_name (name : list Z) (fst_clus : Z) (file_type : DiskInodeType) : list Z :=
  let e := set_fst_clus (set_bytes (replicate 32 0) 11 [Attr.Archive]) fst_clus in
  set_bytes (set_bytes e 0 name) 11 [match file_type with Directory => Attr.Directory | _ => Attr.Archive end].
Definition is_dir (e : list Z) : bool := attr e =? Attr.Directory.
Definition is_file (e : list Z) : bool := (attr e =? Attr.Archive) || (attr e =? Attr.Hidden) || (attr e =? Attr.System) || (attr e =? Attr.ReadOnly).
Fixpoint until (p : Z) (l : list Z) : list Z := match l with [] => [] | c :: r => if c =? p then [] else c :: until p r end.
Definition name (e : list Z) : str :=
  let base := until space (get_bytes e 0 8) in
  let ext := until space (get_bytes e 8 3) in
  match ext with [] => default [] (from_utf8 base) | _ => default [] (from_utf8 base) ++ [dot] ++ default [] (from_utf8 ext) end.
End Short.

Module Long.
(** [FATLongDirEnt], with its three arrays of units. *)
Definition units (l : list Z) : list Z := l ≫= le_split 2.
Fixpoint of_units (l : list Z) : list Z := match l with a :: b :: r => le_combine [a; b] :: of_units r | _ => [] end.
Definition ord (e : list Z) : Z := le_combine (get_bytes e 0 1).
Definition from_name_slice (is_last_ent : bool) (order : Z) (partial_name : list Z) : list Z :=
  let ord := wrap 8 order in
  let ord := if is_last_ent then Z.lor ord LAST_LONG_ENTRY else ord in
  [ord] ++ units (take 5 partial_name) ++ [Attr.LongName; 0; 0] ++ units (take 6 (drop 5 partial_name)) ++ [0; 0] ++ units (drop 11 partial_name).
Definition name_all (e : list Z) : list Z := of_units (get_bytes e 1 10) ++ of_units (get_bytes e 14 12) ++ of_units (get_bytes e 28 4).
Definition name (e : list Z) : str := from_utf16_lossy (Short.until 0 (name_all e)).
End Long.

Module FATDirEnt.
Definition empty : list Z := replicate 32 0.
Definition unused_not_last_entry : list Z := set_bytes empty 0 [DIR_ENTRY_UNUSED].
Definition unused_and_last_entry : list Z := set_bytes (set_bytes empty 0 [DIR_ENTRY_LAST_AND_UNUSED]) 11 [0].
Definition is_long (e : list Z) : bool := Short.attr e =? Attr.LongName.
Definition is_short (e : list Z) : bool := negb (is_long e).
Definition is_last_long_dir_ent (e : list Z) : bool := is_long e && negb (Z.land (Long.ord e) LAST_LONG_ENTRY =? 0).
Definition ord (e : list Z) : Z := if is_long e then Z.land (Long.ord e) (LAST_LONG_ENTRY - 1) else 0.
Definition get_name (e : list Z) : str := if is_long e then Long.name e else Short.name e.
Definition unused_not_last (e : list Z) : bool := Long.ord e =? DIR_ENTRY_UNUSED.
Definition last_and_unused (e : list Z) : bool := Long.ord e =? DIR_ENTRY_LAST_AND_UNUSED.
Definition unused (e : list Z) : bool := last_and_unused e || unused_not_last e.
Definition get_short_ent (e : list Z) : option (list Z) := if is_long e then None else Some e.
Definition get_fst_clus (e : list Z) : outcome Z := rust_assert (is_short e) ;; Ret (Short.get_first_clus e).
Definition set_fst_clus (e : list Z) (c : Z) : outcome (list Z) := rust_assert (is_short e) ;; Ret (Short.set_fst_clus e c).

(** ** Short names *)
Definition gen_short_name_prefix (s : str) : outcome str :=
  let s := to_ascii_uppercase (List.filter (fun c => negb (c =? space)) s) in
  let '(base, ext) := match rsplit_once s dot with Some r => r | None => (s, []) end in
  let '(base, ext) := if (str_len base =? 0) && negb (str_len ext =? 0) then (ext, base) else (base, ext) in
  let base := trim_start_matches base dot in
  base' ← (if negb (str_len ext =? 0) || negb (str_len base =? 0) then '(a, _) ← split_at base (Z.min 8 (str_len base)); Ret (pad a 8) else Ret []);
  ext' ← (if negb (str_len ext =? 0) || negb (str_len base' =? 0) then '(a, _) ← split_at ext (Z.min 3 (str_len ext)); Ret (pad a 3) else Ret []);
  Ret (base' ++ ext').

Definition hex_digit (n : Z) : Z := if n <? 10 then 48 + n else 55 + n.
(** The first four characters of [format!("{:04X}", i)] for an [i32]. *)
Definition hex4 (i : Z) : list Z :=
  let u := wrap 32 i in
  let u := if u <? 2 ^ 16 then u else if u <? 2 ^ 20 then Z.shiftr u 4 else if u <? 2 ^ 24 then Z.shiftr u 8 else if u <? 2 ^ 28 then Z.shiftr u 12 else Z.shiftr u 16 in
  [hex_digit (Z.shiftr u 12); hex_digit (Z.land (Z.shiftr u 8) 15); hex_digit (Z.land (Z.shiftr u 4) 15); hex_digit (Z.land u 15)].
Definition taken (v : list (list Z)) (name : list Z) : bool := bool_decide (name ∈ v).
Fixpoint index_of (p : Z) (l : list Z) (i : nat) : option nat := match l with [] => None | c :: r => if c =? p then Some i else index_of p r (S i) end.
(** [name~1] to [name~9]. *)
Fixpoint numtail_digit (v : list (list Z)) (name : list Z) (baselen : nat) (ds : list Z) : option (list Z) + list Z :=
  match ds with
  | [] => inr name
  | d :: ds =>
      let name := <[S baselen := 48 + d]> name in
      if negb (taken v name) then inl (Some name) else numtail_digit v name baselen ds
  end.
(** The loop over four hexadecimal digits; [None] is a loop that still runs. *)
Fixpoint numtail_hex (fuel : nat) (v : list (list Z)) (name : list Z) (baselen : nat) (i : Z) : option (list Z) :=
  match fuel with
  | O => None
  | S fuel =>
      let name := set_bytes name (Z.of_nat baselen) (hex4 i) in
      if negb (taken v name) then Some name else numtail_hex fuel v name baselen (i - 11)
  end.
Definition jiffies : Z := 19382022.
Definition gen_short_name_numtail (fuel : nat) (v : list (list Z)) (name_res : list Z) : option (list Z) :=
  if negb (taken v name_res) then Some name_res
  else
    let baselen := default 8%nat (index_of space name_res 0) in
    let '(baselen, name) := if (6 <? baselen)%nat then (6%nat, <[7%nat := space]> name_res) else (baselen, name_res) in
    let name := <[baselen := 126]> name in
    match numtail_digit v name baselen (seqZ 1 9) with
    | inl r => r
    | inr name =>
        let sz := Z.land (Z.shiftr jiffies 10) 7 in
        let '(baselen, name) := if (2 <? baselen)%nat then (2%nat, <[7%nat := space]> name) else (baselen, name) in
        let name := <[(baselen + 5)%nat := 49 + sz]> (<[(baselen + 4)%nat := 126]> name) in
        numtail_hex fuel v name baselen (Z.land jiffies 0xffff)
    end.
End FATDirEnt.

(** ** Round trips *)
Lemma units_length l : length (Long.units l) = (2 * length l)%nat.
Proof. unfold Long.units. induction l as [|u l IH]; [done|]. rewrite bind_cons, length_app, le_split_length, IH. cbn. lia. Qed.
Lemma of_units_units l : Forall (in_range 16) l -> Long.of_units (Long.units l) = l.
Proof.
  induction 1 as [|u l Hu Hl IH]; [done|]. unfold Long.units in *. rewrite bind_cons. pose proof (le_split_length 2 u) as L. destruct (le_split 2 u) as [|a [|b [|]]] eqn:E; try done. cbn [app Long.of_units].
  rewrite IH, <- E, le_combine_split; [done|]. unfold in_range in Hu. change (256 ^ Z.of_nat 2) with (2 ^ 16). lia.
Qed.
Definition slice_ok (l : list Z) : Prop := length l = 13%nat /\ Forall (in_range 16) l.
Lemma long_parts last k l : slice_ok l -> exists o, Long.from_name_slice last k l = [o] ++ Long.units (take 5 l) ++ [Attr.LongName; 0; 0] ++ Long.units (take 6 (drop 5 l)) ++ [0; 0] ++ Long.units (drop 11 l) /\
  o = (if last then Z.lor (wrap 8 k) LAST_LONG_ENTRY else wrap 8 k) /\ length (Long.units (take 5 l)) = 10%nat /\ length (Long.units (take 6 (drop 5 l))) = 12%nat /\ length (Long.units (drop 11 l)) = 4%nat.
Proof.
  intros [Hl _]. eexists. split; [done|]. split; [done|]. rewrite !units_length, !length_take, !length_drop. lia.
Qed.
(** A long entry keeps its part of the name. *)
Lemma long_name last k l : slice_ok l -> Long.name_all (Long.from_name_slice last k l) = l /\ Short.attr (Long.from_name_slice last k l) = Attr.LongName /\
  length (Long.from_name_slice last k l) = 32%nat.
Proof.
  intros Hl. destruct (long_parts last k l Hl) as (o & -> & _ & L1 & L2 & L3). destruct Hl as [Hl Hr]. set (a := Long.units (take 5 l)) in *. set (b := Long.units (take 6 (drop 5 l))) in *. set (c := Long.units (drop 11 l)) in *. split; [|split].
  - unfold Long.name_all. rewrite (get_bytes_mid [o] a) by (rewrite ?L1; done).
    replace ([o] ++ a ++ [Attr.LongName; 0; 0] ++ b ++ [0; 0] ++ c) with (([o] ++ a ++ [Attr.LongName; 0; 0]) ++ b ++ [0; 0] ++ c) by (by rewrite <- !app_assoc).
    rewrite (get_bytes_mid _ b) by (rewrite ?length_app, ?L1, ?L2; done).
    replace (([o] ++ a ++ [Attr.LongName; 0; 0]) ++ b ++ [0; 0] ++ c) with (([o] ++ a ++ [Attr.LongName; 0; 0] ++ b ++ [0; 0]) ++ c ++ []) by (by rewrite app_nil_r, <- !app_assoc).
    rewrite (get_bytes_mid _ c) by (rewrite ?length_app, ?L1, ?L2, ?L3; done). unfold a, b, c. rewrite !of_units_units by (repeat (apply Forall_take || apply Forall_drop); done).
    change 11%nat with (5 + 6)%nat. rewrite <- (take_drop 5 l) at 4. f_equal. rewrite <- (take_drop 6 (drop 5 l)) at 2. by rewrite drop_drop.
  - unfold Short.attr. replace ([o] ++ a ++ [Attr.LongName; 0; 0] ++ b ++ [0; 0] ++ c) with (([o] ++ a) ++ [Attr.LongName] ++ ([0; 0] ++ b ++ [0; 0] ++ c)) by (by rewrite <- !app_assoc).
    rewrite (get_bytes_mid _ [Attr.LongName]) by (rewrite ?length_app, ?L1; done). done.
  - rewrite !length_app, L1, L2, L3. done.
Qed.
Lemma long_ord last k l : slice_ok l -> 1 <= k < 0x40 -> FATDirEnt.ord (Long.from_name_slice last k l) = k /\ FATDirEnt.is_last_long_dir_ent (Long.from_name_slice last k l) = last /\
  FATDirEnt.unused (Long.from_name_slice last k l) = false.
Proof.
  intros Hl Hk. destruct (long_name last k l Hl) as (_ & Ha & _). destruct (long_parts last k l Hl) as (o & E & Eo & _). unfold FATDirEnt.ord, FATDirEnt.is_last_long_dir_ent, FATDirEnt.unused, FATDirEnt.last_and_unused, FATDirEnt.unused_not_last, FATDirEnt.is_long. rewrite Ha, Z.eqb_refl.
  assert (Long.ord (Long.from_name_slice last k l) = o) as Ho by (rewrite E; unfold Long.ord; replace (get_bytes _ 0 1) with [o] by done; cbn; lia). rewrite Ho, Eo. clear - Hk.
  rewrite (wrap_small 8) by (unfold in_range; lia). unfold LAST_LONG_ENTRY, DIR_ENTRY_LAST_AND_UNUSED, DIR_ENTRY_UNUSED. change (64 - 1) with (Z.ones 6).
  assert (Z.land k 64 = 0) as E1.
  { change 64 with (2 ^ 6). apply Z.bits_inj'. intros n Hn. rewrite Z.land_spec, Z.bits_0, Z.pow2_bits_eqb by lia. destruct (Z.eqb_spec 6 n) as [<-|]; [|apply andb_false_r]. rewrite andb_true_r. apply Z.bits_above_log2; [lia|]. apply Z.log2_lt_pow2; lia. }
  assert (Z.lor k 64 = k + 64) as E2 by (rewrite <- Z.lxor_lor by done; symmetry; by apply Z.add_nocarry_lxor).
  destruct last.
  - rewrite E2, Z.land_ones by lia. rewrite <- E2 at 2. rewrite Z.land_lor_distr_l, E1. change (Z.lor 0 (Z.land 64 64)) with 64. replace ((k + 64) mod 2 ^ 6) with k by (change (2 ^ 6) with 64; Z.to_euclidean_division_equations; lia). cbn. split; [done|]. split; [done|]. lia.
  - rewrite E1, Z.land_ones, Z.mod_small by lia. cbn. split; [done|]. split; [done|]. lia.
Qed.

Lemma lor_shiftl a b n : 0 <= n -> 0 <= a < 2 ^ n -> Z.lor a (Z.shiftl b n) = a + b * 2 ^ n.
Proof.
  intros Hn Ha. assert (Z.land a (Z.shiftl b n) = 0) as E.
  { apply Z.bits_inj'. intros i Hi. rewrite Z.land_spec, Z.bits_0. destruct (decide (i < n)); [rewrite (Z.shiftl_spec_low _ n) by lia; apply andb_false_r|].
    destruct (decide (a = 0)) as [->|]; [by rewrite Z.bits_0|]. rewrite Z.bits_above_log2; [done|lia|]. assert (Z.log2 a < n) by (apply Z.log2_lt_pow2; lia). lia. }
  rewrite <- Z.lxor_lor by done. rewrite <- Z.add_nocarry_lxor by done. by rewrite Z.shiftl_mul_pow2.
Qed.
(** A short entry keeps name, first cluster and type. *)
Lemma short_from_name n c ty : length n = 11%nat -> 0 <= c < 2 ^ 32 -> let e := Short.from_name n c ty in
  length e = 32%nat /\ Short.name_array e = n /\ Short.get_first_clus e = c /\ Short.file_size e = 0 /\ Short.attr e = (match ty with Directory => Attr.Directory | _ => Attr.Archive end).
Proof.
  intros Hn Hc e. unfold e, Short.from_name, Short.set_fst_clus. set (hi := wrap 16 (Z.shiftr c 16)). set (lo := Z.land c 0xffff). set (t := match ty with Directory => Attr.Directory | _ => Attr.Archive end).
  assert (lo = c mod 2 ^ 16) as El by (unfold lo; change 0xffff with (Z.ones 16); by rewrite Z.land_ones). assert (hi = c / 2 ^ 16) as Eh.
  { unfold hi. rewrite Z.shiftr_div_pow2 by lia. apply wrap_small. unfold in_range. split; [apply Z.div_pos; lia|apply Z.div_lt_upper_bound; lia]. }
  assert (0 <= lo < 2 ^ 16) as Rlo by (rewrite El; apply Z.mod_pos_bound; lia). assert (0 <= hi < 2 ^ 16) as Rhi by (rewrite Eh; split; [apply Z.div_pos; lia|apply Z.div_lt_upper_bound; lia]).
  set (e1 := set_bytes (replicate 32 0) 11 [Attr.Archive]). assert (length e1 = 32%nat) as L1 by done. set (e2 := set_bytes e1 20 (le_split 2 hi)).
  assert (length e2 = 32%nat) as L2 by (unfold e2; rewrite set_bytes_length by (rewrite ?le_split_length; lia); done). set (e3 := set_bytes e2 26 (le_split 2 lo)).
  assert (length e3 = 32%nat) as L3 by (unfold e3; rewrite set_bytes_length by (rewrite ?le_split_length; lia); done). set (e4 := set_bytes e3 0 n).
  assert (length e4 = 32%nat) as L4 by (unfold e4; rewrite set_bytes_length by lia; done). split; [rewrite set_bytes_length by (cbn [length]; lia); done|].
  assert (forall o k, 0 <= o -> 0 <= k -> o + k <= 11 \/ 12 <= o -> get_bytes (set_bytes e4 11 [t]) o k = get_bytes e4 o k) as G by (intros; apply get_set_apart; cbn [length]; lia).
  assert (forall o k, 0 <= o -> 0 <= k -> 11 <= o -> get_bytes e4 o k = get_bytes e3 o k) as G4 by (intros; apply get_set_apart; lia).
  assert (Z.of_nat (length (le_split 2 hi)) = 2 /\ Z.of_nat (length (le_split 2 lo)) = 2) as [Lh Ll] by (by rewrite !le_split_length). split; [|split; [|split]].
  - unfold Short.name_array. rewrite G by lia. change 11 with (Z.of_nat 11). rewrite <- Hn. apply get_set_same; lia.
  - unfold Short.get_first_clus. rewrite !G, !G4 by lia. unfold e3. rewrite <- Ll at 1. rewrite get_set_same by lia. rewrite get_set_apart by lia. unfold e2. rewrite <- Lh at 1. rewrite get_set_same by lia.
    rewrite !le_combine_split by (change (256 ^ Z.of_nat 2) with (2 ^ 16); lia). rewrite lor_shiftl by lia. rewrite El, Eh. pose proof (Z.div_mod c (2 ^ 16)). lia.
  - unfold Short.file_size. rewrite G, G4 by lia. unfold e3. rewrite get_set_apart by lia. unfold e2. rewrite get_set_apart by lia. done.
  - unfold Short.attr. change 1 with (Z.of_nat (length [t])). rewrite get_set_same by (cbn [length]; lia). cbn. lia.
Qed.

(** ** Fresh short names *)
Module ShortNames.
Import FATDirEnt.
Lemma hex_digit_inj a b : 0 <= a < 16 -> 0 <= b < 16 -> hex_digit a = hex_digit b -> a = b.
Proof. unfold hex_digit. intros. repeat case_match; lia. Qed.
Lemma hex4_digits i : 0 <= i < 2 ^ 16 -> hex4 i = [hex_digit (i / 4096); hex_digit (i / 256 mod 16); hex_digit (i / 16 mod 16); hex_digit (i mod 16)].
Proof.
  intros Hi. unfold hex4. rewrite (wrap_small 32) by (unfold in_range; lia). rewrite (proj2 (Z.ltb_lt _ _)) by lia. rewrite !Z.shiftr_div_pow2 by lia. change 15 with (Z.ones 4). by rewrite !Z.land_ones by lia.
Qed.
Lemma hex4_inj i j : 0 <= i < 2 ^ 16 -> 0 <= j < 2 ^ 16 -> hex4 i = hex4 j -> i = j.
Proof.
  intros Hi Hj. rewrite !hex4_digits by done. intros [= A B C D]. apply hex_digit_inj in A, B, C, D; try (Z.to_euclidean_division_equations; lia).
Qed.
Lemma taken_false v n : taken v n = false <-> n ∉ v.
Proof. unfold taken. by rewrite bool_decide_eq_false. Qed.
(** The names the hexadecimal loop tries. *)
Definition tries (name : list Z) (b : nat) (i : Z) (n : nat) : list (list Z) := map (fun k => set_bytes name (Z.of_nat b) (hex4 (i - 11 * k))) (seqZ 0 (Z.of_nat n)).
Lemma set_hex name b i j : (b + 4 <= length name)%nat -> set_bytes (set_bytes name (Z.of_nat b) (hex4 i)) (Z.of_nat b) (hex4 j) = set_bytes name (Z.of_nat b) (hex4 j).
Proof.
  intros H. apply list_eq. intros k. rewrite !set_bytes_lookup by (rewrite ?set_bytes_length by (cbn; lia); cbn; lia). case_decide; [done|]. by rewrite decide_False.
Qed.
Lemma numtail_hex_ok v n : forall name b i, (b + 4 <= length name)%nat ->
  match numtail_hex n v name b i with
  | Some r => r ∉ v /\ length r = length name
  | None => Forall (fun x => x ∈ v) (tries name b i n)
  end.
Proof.
  induction n as [|n IH]; intros name b i Hb; cbn [numtail_hex]; [constructor|]. set (nm := set_bytes name (Z.of_nat b) (hex4 i)). assert (length nm = length name) as L by (apply set_bytes_length; cbn; lia).
  destruct (taken v nm) eqn:E; cbn [negb]; [|by apply taken_false in E]. specialize (IH nm b (i - 11)). rewrite L in IH. specialize (IH Hb). destruct (numtail_hex n v nm b (i - 11)) as [r|]; [done|].
  unfold tries in *. rewrite seqZ_cons by lia. cbn [map]. constructor; [rewrite Z.mul_0_r, Z.sub_0_r; by apply bool_decide_eq_true in E|].
  replace (Z.pred (Z.of_nat (S n))) with (Z.of_nat n) by lia. rewrite Forall_forall in *. intros x (k & <- & Hk)%list_elem_of_In%in_map_iff. apply list_elem_of_In, elem_of_seqZ in Hk.
  apply IH. apply list_elem_of_In, in_map_iff. exists (k - 1). split; [|apply list_elem_of_In, elem_of_seqZ; lia]. unfold nm. rewrite set_hex by done. do 2 f_equal. lia.
Qed.
Lemma set_hex_inj name b i j : (b + 4 <= length name)%nat -> 0 <= i < 2 ^ 16 -> 0 <= j < 2 ^ 16 -> set_bytes name (Z.of_nat b) (hex4 i) = set_bytes name (Z.of_nat b) (hex4 j) -> i = j.
Proof.
  intros Hb Hi Hj E. apply hex4_inj; [done|done|]. rewrite <- (get_set_same name (Z.of_nat b) (hex4 i)), <- (get_set_same name (Z.of_nat b) (hex4 j)) by (cbn; lia). by rewrite E.
Qed.
Lemma tries_bound v name b i n : (b + 4 <= length name)%nat -> 0 <= i < 2 ^ 16 -> 11 * Z.of_nat n <= i + 11 -> Forall (fun x => x ∈ v) (tries name b i n) -> (n <= length v)%nat.
Proof.
  intros Hb Hi Hn Hv. replace n with (length (tries name b i n)) by (unfold tries; rewrite length_map, length_seqZ; lia). apply submseteq_length, NoDup_submseteq; [|by rewrite Forall_forall in Hv].
  apply (NoDup_fmap_2_strong (fun k => set_bytes name (Z.of_nat b) (hex4 (i - 11 * k)))); [|apply NoDup_seqZ].
  intros k k' Hk%elem_of_seqZ Hk'%elem_of_seqZ E. apply set_hex_inj in E; [lia|done|lia|lia].
Qed.
Lemma numtail_digit_ok v b ds : forall name, (S b < length name)%nat -> match numtail_digit v name b ds with inl (Some r) => r ∉ v /\ length r = length name | inl None => False | inr r => length r = length name end.
Proof.
  induction ds as [|d ds IH]; intros name Hb; cbn [numtail_digit]; [done|]. destruct (taken v _) eqn:E; cbn [negb].
  - specialize (IH (<[S b := 48 + d]> name)). rewrite length_insert in IH. by apply IH.
  - apply taken_false in E. by rewrite length_insert.
Qed.

Lemma numtail_fresh v name : length name = 11%nat -> (length v < 4446)%nat -> exists r, gen_short_name_numtail 4446 v name = Some r /\ r ∉ v /\ length r = 11%nat.
Proof.
  intros Hl Hv. unfold gen_short_name_numtail. destruct (taken v name) eqn:E; cbn [negb]; [|exists name; by apply taken_false in E].
  set (p := if (6 <? _)%nat then _ else _). assert (p.1 <= 6 /\ length p.2 = 11)%nat as [H1 H2].
  { unfold p. destruct (Nat.ltb_spec 6 (default 8%nat (index_of space name 0))); cbn; [by rewrite length_insert|]. done. }
  destruct p as [b nm]. cbn in H1, H2. pose proof (numtail_digit_ok v b (seqZ 1 9) (<[b := 126]> nm)) as Hd. rewrite length_insert, H2 in Hd. specialize (Hd ltac:(lia)).
  destruct (numtail_digit v _ b (seqZ 1 9)) as [[r|]|nm']; [by exists r|done|]. set (q := if (2 <? b)%nat then _ else _). assert (q.1 <= 2 /\ length q.2 = 11)%nat as [H3 H4].
  { unfold q. destruct (Nat.ltb_spec 2 b); cbn; [by rewrite length_insert|done]. }
  destruct q as [b2 nm2]. cbn in H3, H4. set (nm3 := <[_ := _]> (<[_ := _]> nm2)). assert (length nm3 = 11%nat) as L3 by (unfold nm3; by rewrite !length_insert).
  pose proof (numtail_hex_ok v 4446 nm3 b2 (Z.land jiffies 65535)) as Hh. rewrite L3 in Hh. specialize (Hh ltac:(lia)). change (Z.land jiffies 0xffff) with 48902 in *.
  destruct (numtail_hex 4446 v nm3 b2 48902) as [r|]; [by exists r|]. apply tries_bound in Hh; lia.
Qed.

(** C31: Naming a file terminates. Whatever short names the directory holds, as long as they are fewer than
    4446, the search for a name ends with one of the eleven characters that is not among them. *)
Theorem short_name_terminates v name : length name = 11%nat -> (length v < 4446)%nat -> exists r, gen_short_name_numtail 4446 v name = Some r /\ r ∉ v /\ length r = 11%nat.
Proof. apply numtail_fresh. Qed.
(** [HELLO.TXT] is taken. *)
Definition hello_txt : list Z := [72; 69; 76; 76; 79; 32; 32; 32; 84; 88; 84].
Lemma short_name_terminates_witness : exists r, gen_short_name_numtail 4446 [hello_txt] hello_txt = Some r /\ r ∉ [hello_txt] /\ length r = 11%nat.
Proof. apply (short_name_terminates [hello_txt] hello_txt); [done|]. apply Nat.ltb_lt. by vm_compute. Defined.

(** A fresh name keeps its first character, and consists of bytes. *)
Definition keeps (name r : list Z) : Prop := head r = head name /\ Forall byte_ok r.
Lemma head_insert (l : list Z) k x : (1 <= k)%nat -> head (<[k := x]> l) = head l.
Proof. destruct k; [lia|]. by destruct l. Qed.
Lemma keeps_insert name r k x : (1 <= k)%nat -> byte_ok x -> keeps name r -> keeps name (<[k := x]> r).
Proof. intros Hk Hx [H1 H2]. split; [by rewrite head_insert|by apply Forall_insert]. Qed.
Lemma keeps_set name r b l : (1 <= b)%nat -> (b + length l <= length r)%nat -> Forall byte_ok l -> keeps name r -> keeps name (set_bytes r (Z.of_nat b) l).
Proof.
  intros Hb Hl Hx [H1 H2]. split; [|by apply set_bytes_Forall]. rewrite !head_lookup in *. rewrite set_bytes_lookup by lia. by rewrite decide_False by lia.
Qed.
Lemma hex_digit_byte n : 0 <= n < 16 -> byte_ok (hex_digit n).
Proof. intros H. unfold hex_digit, byte_ok. case_match; lia. Qed.
Lemma hex4_bytes i : Forall byte_ok (hex4 i).
Proof.
  unfold hex4. pose proof (wrap_range 32 i ltac:(lia)) as Hu. set (u := if _ <? 2 ^ 16 then _ else _). assert (0 <= u < 2 ^ 16) as Hr.
  { unfold u. unfold in_range in Hu. rewrite !Z.shiftr_div_pow2 by lia. repeat case_match; Z.to_euclidean_division_equations; lia. }
  rewrite !Z.shiftr_div_pow2 by lia. change 15 with (Z.ones 4). rewrite !Z.land_ones by lia. repeat constructor; apply hex_digit_byte; Z.to_euclidean_division_equations; lia.
Qed.
Lemma numtail_digit_keeps v name b ds : (1 <= b)%nat -> Forall (fun d => 1 <= d <= 9) ds -> forall r, keeps name r -> match numtail_digit v r b ds with inl (Some r) => keeps name r | inl None => True | inr r => keeps name r end.
Proof.
  intros Hb. induction 1 as [|d ds Hd Hds IH]; intros r Hr; cbn [numtail_digit]; [done|]. assert (keeps name (<[S b := 48 + d]> r)) as Hk by (apply keeps_insert; [lia|unfold byte_ok; lia|done]).
  destruct (taken v _); cbn [negb]; [by apply IH|done].
Qed.
Lemma numtail_hex_keeps v name b : (1 <= b)%nat -> forall n r i r', (b + 4 <= length r)%nat -> keeps name r -> numtail_hex n v r b i = Some r' -> keeps name r'.
Proof.
  intros Hb n. induction n as [|n IH]; intros r i r' Hl Hr; cbn [numtail_hex]; [done|]. assert (keeps name (set_bytes r (Z.of_nat b) (hex4 i))) as Hk by (apply keeps_set; [lia|cbn; lia|apply hex4_bytes|done]).
  destruct (taken v _); cbn [negb]; [|by intros [= <-]]. apply IH; [|done]. rewrite set_bytes_length by (cbn; lia). lia.
Qed.
Lemma index_of_pos p l : forall i, match index_of p l i with Some k => (i <= k)%nat | None => True end.
Proof. induction l as [|c l IH]; intros i; cbn [index_of]; [done|]. destruct (c =? p); [done|]. specialize (IH (Datatypes.S i)). destruct (index_of p l _); [lia|done]. Qed.
Lemma baselen_pos name : head name <> Some space -> (1 <= default 8 (index_of space name 0))%nat.
Proof.
  intros H. destruct name as [|c name]; [cbn; lia|]. cbn [index_of]. destruct (Z.eqb_spec c space) as [->|]; [done|]. pose proof (index_of_pos space name 1). destruct (index_of space name 1); cbn in *; lia.
Qed.
Lemma numtail_keeps fuel v name r : length name = 11%nat -> Forall byte_ok name -> head name <> Some space -> gen_short_name_numtail fuel v name = Some r -> keeps name r.
Proof.
  intros Hl Hn Hh. assert (keeps name name) as Hk by done. unfold gen_short_name_numtail. destruct (taken v name); cbn [negb]; [|by intros [= <-]]. pose proof (baselen_pos name Hh) as Hb.
  assert (forall b x, (1 <= b)%nat -> keeps name x -> length x = 11%nat -> let p := if (6 <? b)%nat then (6%nat, <[7%nat := space]> x) else (b, x) in (1 <= p.1 <= 6)%nat /\ keeps name p.2 /\ length p.2 = 11%nat) as H6.
  { intros b x H1 H2 H3. destruct (Nat.ltb_spec 6 b); cbn; [|split; [lia|done]]. rewrite length_insert. split; [lia|]. split; [apply keeps_insert; [lia|done|done]|done]. }
  specialize (H6 _ name Hb Hk Hl). destruct (if (6 <? _)%nat then _ else _) as [b nm]. cbn in H6. destruct H6 as (Hb6 & Hk6 & Hl6). pose proof (numtail_digit_keeps v name b (seqZ 1 9) ltac:(lia)) as Hd.
  specialize (Hd ltac:(repeat constructor; lia) (<[b := 126]> nm) ltac:(apply keeps_insert; [lia|done|done])). pose proof (numtail_digit_ok v b (seqZ 1 9) (<[b := 126]> nm)) as Hd'. rewrite length_insert, Hl6 in Hd'. specialize (Hd' ltac:(lia)).
  destruct (numtail_digit v _ b (seqZ 1 9)) as [[x|]|nm']; [by intros [= <-]|done|].
  assert (let p := if (2 <? b)%nat then (2%nat, <[7%nat := space]> nm') else (b, nm') in (1 <= p.1 <= 2)%nat /\ keeps name p.2 /\ length p.2 = 11%nat) as H2.
  { destruct (Nat.ltb_spec 2 b); cbn; [rewrite length_insert; split; [lia|]; split; [apply keeps_insert; [lia|done|done]|done]|]. split; [lia|done]. }
  destruct (if (2 <? b)%nat then _ else _) as [b2 nm2]. cbn in H2. destruct H2 as (Hb2 & Hk2 & Hl2). apply numtail_hex_keeps; [lia|rewrite !length_insert; lia|]. apply keeps_insert; [lia|done|]. apply keeps_insert; [lia|done|done].
Qed.

(** ** Short names of names in ASCII *)
Definition ascii (c : Z) : Prop := 0 < c < 128.
Lemma ascii_len s : Forall ascii s -> str_len s = Z.of_nat (length s).
Proof. induction 1 as [|c s Hc Hs IH]; [done|]. cbn [str_len foldr length]. change (foldr _ 0 s) with (str_len s). rewrite IH. unfold char_len, ascii in *. rewrite (proj2 (Z.ltb_lt _ _)) by lia. lia. Qed.
Lemma ascii_bytes s : Forall ascii s -> as_bytes s = s.
Proof. unfold as_bytes. induction 1 as [|c s Hc Hs IH]; [done|]. rewrite bind_cons, IH. unfold char_utf8, ascii in *. by rewrite (proj2 (Z.ltb_lt _ _)) by lia. Qed.
Lemma ascii_split s : Forall ascii s -> forall n, (n <= length s)%nat -> split_at s (Z.of_nat n) = Ret (take n s, drop n s).
Proof.
  induction 1 as [|c s Hc Hs IH]; intros n Hn; [by destruct n; cbn in Hn; [|lia]|]. destruct n as [|n]; [done|]. cbn [split_at]. rewrite (proj2 (Z.eqb_neq _ _)) by lia. unfold char_len, ascii in *. rewrite (proj2 (Z.ltb_lt c _)) by lia.
  rewrite (proj2 (Z.ltb_ge _ _)) by lia. cbn [length] in Hn. replace (Z.of_nat (Datatypes.S n) - 1) with (Z.of_nat n) by lia. by rewrite IH by lia.
Qed.
Lemma ascii_cut s k : Forall ascii s -> split_at s (Z.min (Z.of_nat k) (str_len s)) = Ret (take k s, drop k s).
Proof.
  intros H. rewrite ascii_len by done. destruct (decide (k <= length s)%nat); [rewrite Z.min_l by lia; by apply ascii_split|]. rewrite Z.min_r by lia. rewrite ascii_split by (done || lia). rewrite !take_ge, !drop_ge by lia. done.
Qed.
Lemma ascii_rsplit s p : Forall ascii s -> match rsplit_once s p with Some (a, b) => Forall ascii a /\ Forall ascii b | None => True end.
Proof.
  induction 1 as [|c s Hc Hs IH]; cbn [rsplit_once]; [done|]. destruct (rsplit_once s p) as [[a b]|]; [destruct IH; split; [by constructor|done]|]. destruct (c =? p); [|done]. split; [constructor|done].
Qed.
Lemma ascii_trim s p : Forall ascii s -> Forall ascii (trim_start_matches s p).
Proof. induction 1 as [|c s Hc Hs IH]; cbn [trim_start_matches]; [constructor|]. case_match; [done|by constructor]. Qed.
Lemma ascii_pad s n : Forall ascii s -> (length s <= n)%nat -> Forall ascii (pad s n) /\ length (pad s n) = n.
Proof. intros H Hn. unfold pad. split; [|rewrite length_app, length_replicate; lia]. apply Forall_app. split; [done|]. apply Forall_replicate. unfold ascii, space. lia. Qed.
Lemma prefix_ascii name sn : Forall ascii name -> gen_short_name_prefix name = Ret sn -> sn <> [] -> length sn = 11%nat /\ Forall ascii sn.
Proof.
  intros Hn. unfold gen_short_name_prefix. set (s := to_ascii_uppercase _). assert (Forall ascii s) as Hs.
  { unfold s, to_ascii_uppercase. apply Forall_map. apply Forall_forall. intros c Hc%list_elem_of_In%filter_In. rewrite Forall_forall in Hn. specialize (Hn c ltac:(apply list_elem_of_In; tauto)). unfold ascii in *. case_match; lia. }
  assert (let p := match rsplit_once s dot with Some r => r | None => (s, []) end in Forall ascii p.1 /\ Forall ascii p.2) as H1 by (pose proof (ascii_rsplit s dot Hs); destruct (rsplit_once s dot) as [[a b]|]; [done|by split]).
  destruct (match rsplit_once s dot with Some r => r | None => (s, []) end) as [b e]. cbn in H1. destruct H1 as [Hb He].
  assert (let p := if (str_len b =? 0) && negb (str_len e =? 0) then (e, b) else (b, e) in Forall ascii p.1 /\ Forall ascii p.2) as H2 by (by case_match).
  destruct (if (str_len b =? 0) && negb (str_len e =? 0) then (e, b) else (b, e)) as [b' e']. cbn in H2. destruct H2 as [Hb' He']. pose proof (ascii_trim b' dot Hb') as Ht. set (t := trim_start_matches b' dot) in *. pose proof (ascii_cut t 8 Ht) as C1. pose proof (ascii_cut e' 3 He') as C2.
  change (Z.of_nat 8) with 8 in C1. change (Z.of_nat 3) with 3 in C2. destruct (ascii_pad (take 8 t) 8) as [P1 P2]; [by apply Forall_take|rewrite length_take; lia|]. destruct (ascii_pad (take 3 e') 3) as [P3 P4]; [by apply Forall_take|rewrite length_take; lia|].
  destruct (negb (str_len e' =? 0) || negb (str_len t =? 0)) eqn:Ec.
  - rewrite C1. cbn [mbind outcome_bind]. rewrite (ascii_len (pad _ _)), P2 by done. cbn [Z.of_nat Z.eqb negb]. rewrite orb_true_r, C2. cbn [mbind outcome_bind]. intros [= <-] _. rewrite length_app, P2, P4. split; [done|by apply Forall_app].
  - apply orb_false_iff in Ec as [-> _]. cbn. by intros [= <-].
Qed.

(** A name of multi-byte characters can be cut inside a character, which fails: four characters of three
    bytes each. *)
Example multibyte_name_panics : gen_short_name_prefix [0x4E2D; 0x6587; 0x6587; 0x4EF6] = Panic.
Proof. by vm_compute. Qed.
(** Nothing is left of a name of dots or spaces. *)
Example dots_name_empty : gen_short_name_prefix [dot; dot; dot] = Ret [] /\ gen_short_name_prefix [space] = Ret [].
Proof. by vm_compute. Qed.
(** Two dots in front leave spaces only. *)
Example two_dots_name_blank : gen_short_name_prefix [dot; dot; 97] = Ret (replicate 8 space ++ [65; space; space]).
Proof. by vm_compute. Qed.
End ShortNames.

(** ** Long names *)
Lemma until_nonzero l : Forall (fun u => u <> 0) l -> forall r, Short.until 0 (l ++ 0 :: r) = l.
Proof. induction 1 as [|u l Hu Hl IH]; intros r; cbn [app Short.until]; [done|]. rewrite (proj2 (Z.eqb_neq u 0)) by done. by rewrite IH. Qed.
Lemma until_all l : Forall (fun u => u <> 0) l -> Short.until 0 l = l.
Proof. induction 1 as [|u l Hu Hl IH]; cbn [Short.until]; [done|]. rewrite (proj2 (Z.eqb_neq u 0)) by done. by rewrite IH. Qed.
(** Characters that are one unit of UTF-16 each. *)
Definition plain (c : Z) : Prop := 0 < c < 0xD800 \/ 0xE000 <= c < 0x10000.
Lemma plain_encode s : Forall plain s -> encode_utf16 s = s.
Proof. unfold encode_utf16. induction 1 as [|c s Hc Hs IH]; [done|]. rewrite bind_cons, IH. unfold plain in Hc. by rewrite (proj2 (Z.ltb_lt c 0x10000)) by lia. Qed.
Lemma plain_decode s : Forall plain s -> from_utf16_lossy s = s.
Proof.
  induction 1 as [|c s Hc Hs IH]; [done|]. cbn [from_utf16_lossy]. assert (is_high c = false /\ is_low c = false) as [-> ->] by (unfold is_high, is_low, plain in *; lia). by rewrite IH.
Qed.
Lemma until_pad l k : Forall (fun u => u <> 0) l -> Short.until 0 (l ++ replicate k 0) = l.
Proof. intros H. destruct k as [|k]; cbn [replicate]; [rewrite app_nil_r; by apply until_all|by apply until_nonzero]. Qed.
Lemma long_bytes last k l : 1 <= k < 64 -> Forall byte_ok (Long.from_name_slice last k l).
Proof.
  intros Hk. assert (forall l, Forall byte_ok (Long.units l)) as Hu by (unfold Long.units; induction l0 as [|u l0 IH]; [constructor|rewrite bind_cons; apply Forall_app; split; [apply le_split_bytes|done]]).
  unfold Long.from_name_slice. repeat (apply Forall_app; split); try apply Hu; repeat (apply Forall_cons; split); try apply Forall_nil; try (unfold byte_ok, Attr.LongName; lia); try done. rewrite (wrap_small 8) by (unfold in_range; lia). unfold byte_ok, LAST_LONG_ENTRY. destruct last; [|lia].
  assert (0 <= Z.lor k 64) by (apply Z.lor_nonneg; lia). split; [done|]. change 256 with (2 ^ 8). apply Z.log2_lt_pow2; [assert (Z.lor k 64 <> 0) by (intros [? ?]%Z.lor_eq_0_iff; lia); lia|].
  rewrite Z.log2_lor by lia. change (Z.log2 64) with 6. assert (Z.log2 k <= Z.log2 63) as Hl by (apply Z.log2_le_mono; lia). change (Z.log2 63) with 5 in Hl. lia.
Qed.
Lemma short_bytes n c ty : Forall byte_ok n -> Forall byte_ok (Short.from_name n c ty).
Proof.
  intros Hn. unfold Short.from_name, Short.set_fst_clus. apply set_bytes_Forall; [|repeat constructor; unfold byte_ok, Attr.Directory, Attr.Archive; destruct ty; lia]. apply set_bytes_Forall; [|done].
  do 2 (apply set_bytes_Forall; [|apply le_split_bytes]). by apply (bool_decide_unpack _).
Qed.
Lemma short_used n c ty x : length n = 11%nat -> 0 <= c < 2 ^ 32 -> head n = Some x -> ShortNames.ascii x -> FATDirEnt.unused (Short.from_name n c ty) = false /\ FATDirEnt.is_long (Short.from_name n c ty) = false.
Proof.
  intros Hl Hc Hh Hx. destruct (short_from_name n c ty Hl Hc) as (L & Hn & _ & _ & Ha). set (e := Short.from_name n c ty) in *. assert (Long.ord e = x) as Ho.
  { unfold Long.ord. destruct e as [|y e]; [done|]. unfold Short.name_array, get_bytes in *. cbn in Hn. rewrite <- Hn in Hh. cbn in Hh. injection Hh as ->.
    change (le_combine [x] = x). cbn [le_combine]. lia. }
  unfold FATDirEnt.unused, FATDirEnt.last_and_unused, FATDirEnt.unused_not_last, FATDirEnt.is_long. rewrite Ho, Ha. unfold ShortNames.ascii, DIR_ENTRY_LAST_AND_UNUSED, DIR_ENTRY_UNUSED in *. split; [lia|by destruct ty].
Qed.
