(* ===== verification/FatDir.v ===== *)
(** * FatDir: directories on FAT32 (os/src/fs/fat32/dir_iter.rs, os/src/fs/fat32/fat_inode.rs)

    A directory is a file of 32-byte entries. Its operations are written against [DirFile], what they
    use of the inode that holds the directory. *)
From S2P Require Import Prelude Bytes PageStore Fat FatFile FatLayout.

(** The inode of a directory: its bytes, size and hint. [df_modify_size] does not clear what it adds. *)
Class DirFile (D : Type) := {
  df_is_dir : D -> bool;
  df_size : D -> Z;
  df_clus_size : D -> Z;
  df_hint : D -> Z;
  df_set_hint : D -> Z -> D;
  df_read : D -> Z -> list Z -> outcome (Z * list Z * D);
  df_write : D -> Z -> list Z -> outcome (Z * D);
  df_modify_size : D -> Z -> outcome D;
}.

Definition STEP_SIZE : Z := 32.
Inductive DirIterMode : Type := ModeLong | ModeShort | ModeUsed | ModeUnused | ModeEnum.
Record DirIter : Type := MkIter { it_offset : option Z; it_mode : DirIterMode; it_forward : bool }.
Definition with_offset (it : DirIter) (o : option Z) : DirIter := MkIter o (it_mode it) (it_forward it).

Module DirIter.
Definition set_iter_offset (it : DirIter) (offset : Z) : DirIter :=
  if it_forward it then with_offset it (if offset =? 0 then None else Some (wrap 32 (offset - STEP_SIZE))) else with_offset it (Some (wrap 32 (offset + STEP_SIZE))).
Definition is_enum (m : DirIterMode) : bool := match m with ModeEnum => true | _ => false end.
Definition check_dir_ent_legality (m : DirIterMode) (e : list Z) : bool :=
  match m with
  | ModeUnused => FATDirEnt.unused_not_last e
  | ModeUsed => negb (FATDirEnt.unused e)
  | ModeLong => negb (FATDirEnt.unused e) && FATDirEnt.is_long e
  | ModeShort => negb (FATDirEnt.unused e) && FATDirEnt.is_short e
  | ModeEnum => true
  end.

Section Operations.
Context {D : Type} `{!DirFile D}.

Definition current_clone (it : DirIter) (d : D) : outcome (option (list Z) * D) :=
  match it_offset it with
  | Some o =>
      if o <? df_size d then
        '(n, e, d') ← df_read d o FATDirEnt.empty;
        Ret (if negb (n =? 0) then Some e else None, d')
      else Ret (None, d)
  | None => Ret (None, d)
  end.
Definition write_to_current_ent (it : DirIter) (d : D) (ent : list Z) : outcome D :=
  o ← unwrap (it_offset it);
  '(n, d') ← df_write d o ent;
  rust_assert (n =? Z.of_nat (length ent)) ;;
  Ret d'.
Definition step (it : DirIter) (d : D) : outcome (option (list Z) * DirIter * D) :=
  if it_forward it then
    let offset := match it_offset it with Some o => wrap 32 (o + STEP_SIZE) | None => 0 end in
    if df_size d <=? offset then Ret (None, it, d)
    else
      '(_, e, d') ← df_read d offset FATDirEnt.empty;
      if negb (is_enum (it_mode it)) && FATDirEnt.last_and_unused e then Ret (None, it, d')
      else Ret (Some e, with_offset it (Some offset), d')
  else
    match it_offset it with
    | None => Ret (None, it, d)
    | Some o =>
        if o =? 0 then Ret (None, with_offset it None, d)
        else
          let offset := wrap 32 (o - STEP_SIZE) in
          '(_, e, d') ← df_read d offset FATDirEnt.empty;
          Ret (Some e, with_offset it (Some offset), d')
    end.
(** The loop of [next]; running out of [fuel] counts as a failure. *)
Fixpoint next (fuel : nat) (it : DirIter) (d : D) : outcome (option (list Z) * DirIter * D) :=
  match fuel with
  | O => Panic
  | S fuel =>
      '(o, it1, d1) ← step it d;
      match o with
      | None => Ret (None, it1, d1)
      | Some e => if check_dir_ent_legality (it_mode it1) e then Ret (Some e, it1, d1) else next fuel it1 d1
      end
  end.
(** Enough for every loop over the entries. *)
Definition rounds (d : D) : nat := S (S (Z.to_nat (df_size d / STEP_SIZE))).
End Operations.
End DirIter.

Module DirWalker.
Section Operations.
Context {D : Type} `{!DirFile D}.
Fixpoint walk_loop (fuel : nat) (it : DirIter) (d : D) (name : str) (should_be_ord : Z) : outcome (option (str * list Z) * DirIter * D) :=
  match fuel with
  | O => Panic
  | S fuel =>
      '(o, it1, d1) ← DirIter.next (DirIter.rounds d) it d;
      match o with
      | None => Ret (None, it1, d1)
      | Some e =>
          if FATDirEnt.is_long e then
            if FATDirEnt.is_last_long_dir_ent e then walk_loop fuel it1 d1 (FATDirEnt.get_name e ++ name) (FATDirEnt.ord e ⊖ 1)
            else if FATDirEnt.ord e =? should_be_ord then walk_loop fuel it1 d1 (FATDirEnt.get_name e ++ name) (should_be_ord ⊖ 1)
            else Panic
          else Ret (Some (match name with [] => FATDirEnt.get_name e | _ => name end, e), it1, d1)
      end
  end.
Definition next (it : DirIter) (d : D) : outcome (option (str * list Z) * DirIter * D) := walk_loop (DirIter.rounds d) it d [] usize_max.
Fixpoint collect (fuel : nat) (it : DirIter) (d : D) : outcome (list (str * list Z * Z) * DirIter * D) :=
  match fuel with
  | O => Panic
  | S fuel =>
      '(o, it1, d1) ← next it d;
      match o with
      | None => Ret ([], it1, d1)
      | Some (n, e) =>
          off ← unwrap (it_offset it1);
          '(l, it2, d2) ← collect fuel it1 d1;
          Ret ((n, e, off) :: l, it2, d2)
      end
  end.
End Operations.
End DirWalker.

Module FatDirectory.
Import DirIter.
Section Operations.
Context {D : Type} `{!DirFile D}.
Definition dir_iter (offset : option Z) (mode : DirIterMode) (forward : bool) : DirIter := MkIter offset mode forward.

Fixpoint set_hint_loop (fuel : nat) (it : DirIter) (d : D) : outcome D :=
  match fuel with
  | O => Panic
  | S fuel =>
      '(o, it1, d1) ← next (rounds d) it d;
      match o with
      | None => Ret (df_set_hint d1 (df_size d1))
      | Some e => if FATDirEnt.last_and_unused e then off ← unwrap (it_offset it1); Ret (df_set_hint d1 off) else set_hint_loop fuel it1 d1
      end
  end.
Definition set_hint (d : D) : outcome D := set_hint_loop (rounds d) (dir_iter None ModeEnum true) d.

Definition expand_dir_size (d : D) : outcome D := df_modify_size d (df_clus_size d).
Definition shrink_dir_size (d : D) : outcome D :=
  let new_size := Z.max (wrap 32 (FatInode.div_ceil (df_hint d) (df_clus_size d) * df_clus_size d)) (df_clus_size d) in
  df_modify_size d (new_size - df_size d).

Fixpoint alloc_loop (fuel : nat) (it : DirIter) (d : D) (alloc_num found : nat) : outcome (Z * D) :=
  match fuel with
  | O => Panic
  | S fuel =>
      '(o, it1, d1) ← next (rounds d) it d;
      match o with
      | None => d2 ← expand_dir_size d1; alloc_loop fuel it1 d2 alloc_num found
      | Some _ =>
          if (alloc_num <=? S found)%nat then
            offset ← unwrap (it_offset it1);
            '(o2, it2, d2) ← next (rounds d1) it1 d1;
            match o2 with
            | Some _ =>
                d3 ← write_to_current_ent it2 d2 FATDirEnt.unused_and_last_entry;
                h ← unwrap (it_offset it2);
                Ret (offset, df_set_hint d3 h)
            | None => Ret (offset, df_set_hint d2 (df_size d2))
            end
          else alloc_loop fuel it1 d1 alloc_num (S found)
      end
  end.
Definition alloc_dir_ent (fuel : nat) (d : D) (alloc_num : nat) : outcome (Z * D) :=
  alloc_loop fuel (set_iter_offset (dir_iter None ModeEnum true) (df_hint d)) d alloc_num 0.

Definition get_dir_ent (d : D) (offset : Z) : outcome (Result (list Z) unit * D) :=
  '(n, e, d') ← df_read d offset FATDirEnt.empty;
  Ret (if negb (n =? 32) then Err tt else Ok e, d').
Definition set_dir_ent (d : D) (offset : Z) (e : list Z) : outcome (Result unit unit * D) :=
  '(n, d') ← df_write d offset e;
  Ret (if negb (n =? Z.of_nat (length e)) then Err tt else Ok tt, d').

Fixpoint create_loop (it : DirIter) (d : D) (long_ents : list (list Z)) : outcome D :=
  match long_ents with
  | [] => Ret d
  | e :: r =>
      '(_, it1, d1) ← next (rounds d) it d;
      d2 ← write_to_current_ent it1 d1 e;
      create_loop it1 d2 r
  end.
Definition create_dir_ent (fuel : nat) (d : D) (short_ent : list Z) (long_ents : list (list Z)) : outcome (Z * D) :=
  '(offset, d1) ← alloc_dir_ent fuel d (S (length long_ents));
  let it := dir_iter (Some offset) ModeEnum false in
  d2 ← write_to_current_ent it d1 short_ent;
  d3 ← create_loop it d2 long_ents;
  Ret (offset, d3).

(** The loop over the long entries in [get_all_dir_ent]: it does not advance the iterator. *)
Fixpoint get_long_loop (fuel : nat) (it : DirIter) (d : D) (long_ents : list (list Z)) : outcome (option (Result (list (list Z)) unit) * D) :=
  match fuel with
  | O => Ret (None, d)
  | S fuel =>
      '(o, d1) ← current_clone it d;
      match o with
      | None => Ret (Some (Err tt), d1)
      | Some e =>
          if negb (FATDirEnt.is_long e) then Ret (Some (Err tt), d1)
          else if FATDirEnt.is_last_long_dir_ent e then Ret (Some (Ok (long_ents ++ [e])), d1)
          else get_long_loop fuel it d1 (long_ents ++ [e])
      end
  end.

Definition get_all_dir_ent (fuel : nat) (d : D) (offset : Z) : outcome (option (Result (list Z * list (list Z)) unit) * D) :=
  let it := dir_iter (Some offset) ModeEnum false in
  '(o, d1) ← current_clone it d;
  cur ← unwrap o;
  short_ent ← unwrap (FATDirEnt.get_short_ent cur);
  '(o2, it1, d2) ← next (rounds d1) it d1;
  match o2 with
  | None => Ret (Some (Ok (short_ent, [])), d2)
  | Some e =>
      if negb (FATDirEnt.is_long e) then Ret (Some (Ok (short_ent, [])), d2)
      else
        '(r, d3) ← get_long_loop fuel it1 d2 [];
        Ret (match r with None => None | Some (Ok l) => Some (Ok (short_ent, l)) | Some (Err u) => Some (Err u) end, d3)
  end.

Fixpoint remove_long_loop (fuel : nat) (it : DirIter) (d : D) : outcome (Result D unit) :=
  match fuel with
  | O => Panic
  | S fuel =>
      '(o, d1) ← current_clone it d;
      match o with
      | None => Ret (Err tt)
      | Some e =>
          if negb (FATDirEnt.is_long e) then Ret (Err tt)
          else
            d2 ← write_to_current_ent it d1 FATDirEnt.unused_not_last_entry;
            '(_, it1, d3) ← next (rounds d2) it d2;
            if FATDirEnt.is_last_long_dir_ent e then Ret (Ok d3) else remove_long_loop fuel it1 d3
      end
  end.
Fixpoint lower_hint_loop (fuel : nat) (it : DirIter) (d : D) : outcome D :=
  match fuel with
  | O => Panic
  | S fuel =>
      '(o, it1, d1) ← next (rounds d) it d;
      match o with
      | None => Ret (df_set_hint d1 0)
      | Some e =>
          if FATDirEnt.unused e then
            off ← unwrap (it_offset it1);
            d2 ← write_to_current_ent it1 (df_set_hint d1 off) FATDirEnt.unused_and_last_entry;
            lower_hint_loop fuel it1 d2
          else Ret d1
      end
  end.
Definition delete_dir_ent (d : D) (offset : Z) : outcome (Result D unit) :=
  let it := dir_iter (Some offset) ModeUsed false in
  d1 ← write_to_current_ent it d FATDirEnt.unused_not_last_entry;
  '(o, it1, d2) ← next (rounds d1) it d1;
  match o with
  | None => Ret (Ok d2)
  | Some e =>
      if negb (FATDirEnt.is_long e) then Ret (Ok d2)
      else
        r ← remove_long_loop (rounds d2) it1 d2;
        match r with
        | Err _ => Ret (Err tt)
        | Ok d3 =>
            d4 ← lower_hint_loop (rounds d3) (dir_iter (Some (df_hint d3)) ModeEnum false) d3;
            d5 ← shrink_dir_size d4;
            Ret (Ok d5)
        end
  end.

Fixpoint parent_loop (fuel : nat) (it : DirIter) (d : D) (clus : Z) : outcome (Result D unit) :=
  match fuel with
  | O => Panic
  | S fuel =>
      '(o, it1, d1) ← next (rounds d) it d;
      match o with
      | None => Ret (Err tt)
      | Some e =>
          if bool_decide (FATDirEnt.get_name e = [dot; dot]) then
            e' ← FATDirEnt.set_fst_clus e clus;
            d2 ← write_to_current_ent it1 d1 e';
            Ret (Ok d2)
          else parent_loop fuel it1 d1 clus
      end
  end.
Definition modify_parent_dir_entry (d : D) (parent_dir_clus_num : Z) : outcome (Result D unit) := parent_loop (rounds d) (dir_iter None ModeUsed true) d parent_dir_clus_num.

(** ** Names *)
Definition gen_long_name_slice (name : str) (long_ent_index : nat) : list Z :=
  let v := encode_utf16 name in
  let v := v ++ replicate (13 * (long_ent_index + 1) - length v) 0 in
  get_bytes v (Z.of_nat (13 * long_ent_index)) 13.
Fixpoint collect_names (fuel : nat) (it : DirIter) (d : D) : outcome (list (list Z) * D) :=
  match fuel with
  | O => Panic
  | S fuel =>
      '(o, it1, d1) ← next (rounds d) it d;
      match o with
      | None => Ret ([], d1)
      | Some e => '(l, d2) ← collect_names fuel it1 d1; Ret (Short.name_array e :: l, d2)
      end
  end.
Definition gen_short_name_slice (fuel : nat) (d : D) (name : str) : outcome (option (list Z) * D) :=
  short_name ← FATDirEnt.gen_short_name_prefix name;
  if (str_len short_name =? 0) || bool_decide (head short_name = Some space) then Panic
  else
    rust_assert (11 <=? Z.of_nat (length (as_bytes short_name))) ;;
    '(v, d1) ← collect_names (rounds d) (dir_iter None ModeShort true) d;
    Ret (FATDirEnt.gen_short_name_numtail fuel v (take 11 (as_bytes short_name)), d1).
Definition long_ent_num (name : str) : Z := (str_len name ⊖ 1 ⊕ 13) / 13.
Definition gen_dir_ent (fuel : nat) (d : D) (name : str) (fst_clus : Z) (file_type : DiskInodeType) : outcome (option (list Z * list (list Z)) * D) :=
  '(o, d1) ← gen_short_name_slice fuel d name;
  let n := Z.to_nat (long_ent_num name) in
  let longs := map (fun i => Long.from_name_slice (S i =? n)%nat (Z.of_nat (S i)) (gen_long_name_slice name i)) (seq 0 n) in
  Ret (option_map (fun s => (Short.from_name s fst_clus file_type, longs)) o, d1).

Definition fill_empty_dir (d : D) (fst_clus parent_clus : Z) : outcome D :=
  let it := dir_iter None ModeEnum true in
  '(_, it1, d1) ← next (rounds d) it d;
  d2 ← write_to_current_ent it1 d1 (Short.from_name (dot :: replicate 10 space) fst_clus Directory);
  '(_, it2, d3) ← next (rounds d2) it1 d2;
  d4 ← write_to_current_ent it2 d3 (Short.from_name (dot :: dot :: replicate 9 space) parent_clus Directory);
  '(_, it3, d5) ← next (rounds d4) it2 d4;
  write_to_current_ent it3 d5 FATDirEnt.unused_and_last_entry.

(** ** Looking up *)
Definition ls (d : D) : outcome (Result (list (str * list Z)) unit * D) :=
  if negb (df_is_dir d) then Ret (Err tt, d)
  else '(l, _, d') ← DirWalker.collect (rounds d) (dir_iter None ModeUsed true) d; Ret (Ok (map (fun x => (x.1.1, x.1.2)) l), d').
Definition lower (c : Z) : Z := if (65 <=? c) && (c <=? 90) then c + 32 else c.
Definition same_name (name req : str) : bool := (str_len name =? str_len req) && bool_decide (map lower name = map lower req).
Fixpoint find_loop (fuel : nat) (it : DirIter) (d : D) (req : str) : outcome (option (str * list Z * Z) * D) :=
  match fuel with
  | O => Panic
  | S fuel =>
      '(o, it1, d1) ← DirWalker.next it d;
      match o with
      | None => Ret (None, d1)
      | Some (n, e) =>
          if same_name n req then off ← unwrap (it_offset it1); Ret (Some (n, e, off), d1)
          else find_loop fuel it1 d1 req
      end
  end.
Definition find_local (d : D) (req_name : str) : outcome (Result (option (str * list Z * Z)) unit * D) :=
  if negb (df_is_dir d) then Ret (Err tt, d)
  else '(o, d') ← find_loop (rounds d) (dir_iter None ModeUsed true) d req_name; Ret (Ok o, d').
Definition is_dots (n : str) : bool := bool_decide (n = [dot]) || bool_decide (n = [dot; dot]).
Fixpoint empty_loop (fuel : nat) (it : DirIter) (d : D) : outcome (bool * D) :=
  match fuel with
  | O => Panic
  | S fuel =>
      '(o, it1, d1) ← DirWalker.next it d;
      match o with
      | None => Ret (true, d1)
      | Some (n, _) => if is_dots n then empty_loop fuel it1 d1 else Ret (false, d1)
      end
  end.
Definition is_empty_dir (d : D) : outcome (bool * D) :=
  if negb (df_is_dir d) then Ret (false, d) else empty_loop (rounds d) (dir_iter None ModeUsed true) d.
Definition get_all_files (d : D) : outcome (list (str * list Z * Z) * D) :=
  '(l, _, d') ← DirWalker.collect (rounds d) (dir_iter None ModeUsed true) d; Ret (List.filter (fun x => negb (is_dots x.1.1)) l, d').

(** [dirent_info]: name, position of the next entry, first cluster and attribute of at most [length]
    files from [offset] on. *)
Fixpoint info_loop (length : nat) (it : DirIter) (d : D) (last_name : str) (last_ent : list Z) (sz : Z) : outcome (list (str * Z * Z * Z) * D) :=
  match length with
  | O => Ret ([], d)
  | S length =>
      off ← unwrap (it_offset it);
      '(o, it1, d1) ← DirWalker.next it d;
      match o with
      | None => Ret ([(last_name, sz, Short.get_first_clus last_ent, Short.attr last_ent)], d1)
      | Some (name, e) =>
          '(l, d2) ← info_loop length it1 d1 name e sz;
          Ret ((last_name, off + STEP_SIZE, Short.get_first_clus last_ent, Short.attr last_ent) :: l, d2)
      end
  end.
Definition dirent_info (d : D) (offset : Z) (length : nat) : outcome (Result (list (str * Z * Z * Z)) unit * D) :=
  if negb (df_is_dir d) then Ret (Err tt, d)
  else
    '(o, it1, d1) ← DirWalker.next (set_iter_offset (dir_iter None ModeUsed true) offset) d;
    match o with
    | None => Ret (Ok [], d1)
    | Some (name, e) => '(l, d2) ← info_loop length it1 d1 name e (df_size d); Ret (Ok l, d2)
    end.

(** [Drop] of an inode that is not deleted: the entry of the parent is read, a copy of its short entry is
    changed, and the entry that was read is written back. *)
Definition drop_kept (d : D) (offset file_size first_clus : Z) : outcome D :=
  '(r, d1) ← get_dir_ent d offset;
  match r with
  | Err _ => Panic
  | Ok dir_ent =>
      short_dir_ent ← unwrap (FATDirEnt.get_short_ent dir_ent);
      let short_dir_ent := Short.set_file_size short_dir_ent file_size in
      let short_dir_ent := Short.set_fst_clus short_dir_ent first_clus in
      '(r2, d2) ← set_dir_ent d1 offset dir_ent;
      match r2 with Err _ => Panic | Ok _ => Ret d2 end
  end.
End Operations.
End FatDirectory.

(** ** What a directory holds *)

(** What no operation on the bytes changes. *)
Record kept {D} `{DirFile D} (d d' : D) : Prop := {
  ke_hint : df_hint d' = df_hint d;
  ke_dir : df_is_dir d' = df_is_dir d;
  ke_clus : df_clus_size d' = df_clus_size d;
}.
Lemma dir_kept_trans {D} `{DirFile D} (d1 d2 d3 : D) : kept d1 d2 -> kept d2 d3 -> kept d1 d3.
Proof. intros [] []. split; congruence. Qed.
(** The file behaves as a byte string; [room d n] says that [n] more bytes can be added. *)
Class DirFileOk (D : Type) `{DirFile D} (ok : D -> Prop) (content : D -> list Z) (room : D -> Z -> Prop) := {
  dl_size : forall d, ok d -> df_size d = Z.of_nat (length (content d)) /\ df_size d < 2 ^ 31 /\ 32 <= df_clus_size d < 2 ^ 31 /\ (32 | df_clus_size d) /\ Forall byte_ok (content d);
  dl_read : forall d off buf, ok d -> 0 <= off -> off + Z.of_nat (length buf) < 2 ^ 64 -> let n := Z.max 0 (Z.min (Z.of_nat (length buf)) (df_size d - off)) in
    exists d', df_read d off buf = Ret (n, set_bytes buf 0 (get_bytes (content d) off n), d') /\ ok d' /\ content d' = content d /\ kept d d' /\ (forall m, room d m -> room d' m);
  dl_write : forall d off buf, ok d -> 0 <= off -> off + Z.of_nat (length buf) <= df_size d -> Forall byte_ok buf ->
    exists d', df_write d off buf = Ret (Z.of_nat (length buf), d') /\ ok d' /\ content d' = set_bytes (content d) off buf /\ kept d d' /\ (forall m, room d m -> room d' m);
  dl_hint : forall d h, ok d -> let d' := df_set_hint d h in ok d' /\ content d' = content d /\ df_hint d' = h /\ df_is_dir d' = df_is_dir d /\ df_clus_size d' = df_clus_size d /\ (forall m, room d m -> room d' m);
  dl_grow : forall d n, ok d -> 0 < n -> room d n -> exists d' r, df_modify_size d n = Ret d' /\ ok d' /\ content d' = content d ++ r /\ Z.of_nat (length r) = n /\ kept d d' /\ (forall m, 0 <= m -> room d (n + m) -> room d' m);
  dl_cut : forall d n, ok d -> n <= 0 -> 0 <= df_size d + n -> exists d', df_modify_size d n = Ret d' /\ ok d' /\ content d' = take (Z.to_nat (df_size d + n)) (content d) /\ kept d d';
  dl_room : forall d m m', ok d -> room d m -> 0 <= m' <= m -> room d m';
}.

(** A file's entries, or the place of a removed entry. *)
Inductive group : Type := Gap (e : list Z) | Item (longs : list (list Z)) (short : list Z).
Definition flat (g : group) : list (list Z) := match g with Gap e => [e] | Item l s => l ++ [s] end.
(** The name a file is found under. *)
Definition group_name (longs : list (list Z)) (short : list Z) : str :=
  match foldl (fun n e => FATDirEnt.get_name e ++ n) [] longs with [] => FATDirEnt.get_name short | n => n end.
Definition long_ok (n i : nat) (e : list Z) : Prop :=
  FATDirEnt.unused e = false /\ FATDirEnt.is_long e = true /\ FATDirEnt.is_last_long_dir_ent e = (i =? 0)%nat /\ FATDirEnt.ord e = Z.of_nat (n - i).
Definition group_ok (g : group) : Prop :=
  match g with
  | Gap e => FATDirEnt.unused_not_last e = true
  | Item l s => (forall i e, l !! i = Some e -> long_ok (length l) i e) /\ (length l < 64)%nat /\ FATDirEnt.unused s = false /\ FATDirEnt.is_long s = false
  end.
(** The files of a directory, with the index of their short entries, the first entry being number [k]. *)
Fixpoint listing (k : nat) (gs : list group) : list (str * list Z * nat) :=
  match gs with
  | [] => []
  | Gap _ :: gs => listing (S k) gs
  | Item l s :: gs => (group_name l s, s, (k + length l)%nat) :: listing (k + length l + 1) gs
  end.

Section Directory.
Context {D : Type} `{!DirFile D} {ok : D -> Prop} {content : D -> list Z} {room : D -> Z -> Prop} `{!DirFileOk D ok content room}.
Implicit Types (d : D) (es : list (list Z)).

Record same d d' : Prop := {
  sa_ok : ok d';
  sa_content : content d' = content d;
  sa_kept : kept d d';
  sa_room : forall m, room d m -> room d' m;
}.
Lemma same_refl d : ok d -> same d d.
Proof. by repeat split. Qed.
Lemma same_trans d1 d2 d3 : same d1 d2 -> same d2 d3 -> same d1 d3.
Proof. intros [] []. split; [done|congruence|by eapply dir_kept_trans|auto]. Qed.
Definition entries d es : Prop := ok d /\ content d = concat es /\ Forall (fun e => length e = 32%nat) es.
Lemma entries_same d d' es : entries d es -> same d d' -> entries d' es.
Proof. intros (_ & E & L) [H1 H2 _ _]. split; [done|]. by rewrite H2. Qed.

Lemma concat_length es : Forall (fun e : list Z => length e = 32%nat) es -> length (concat es) = (32 * length es)%nat.
Proof. induction 1 as [|e es He Hes IH]; [done|]. cbn [concat length]. rewrite length_app, He, IH. lia. Qed.
Lemma entries_size d es : entries d es -> df_size d = 32 * Z.of_nat (length es) /\ 32 * Z.of_nat (length es) < 2 ^ 31.
Proof. intros (Hok & E & L). destruct (dl_size d Hok) as (H1 & H2 & _). rewrite H1, E, concat_length in * by done. lia. Qed.
Lemma concat_split es k e : es !! k = Some e -> concat es = concat (take k es) ++ e ++ concat (drop (S k) es).
Proof. intros H. rewrite <- (take_drop_middle es k e H) at 1. by rewrite concat_app. Qed.
Lemma concat_take es k : Forall (fun e : list Z => length e = 32%nat) es -> (k <= length es)%nat -> length (concat (take k es)) = (32 * k)%nat.
Proof. intros H Hk. rewrite concat_length by (by apply Forall_take). rewrite length_take. lia. Qed.
Lemma concat_get es k e : Forall (fun e : list Z => length e = 32%nat) es -> es !! k = Some e -> get_bytes (concat es) (32 * Z.of_nat k) 32 = e.
Proof.
  intros Hl Hk. rewrite (concat_split es k e Hk). apply get_bytes_mid; [rewrite concat_take by (done || apply Nat.lt_le_incl; by eapply lookup_lt_Some); lia|]. by rewrite (Forall_lookup_1 _ _ _ _ Hl Hk).
Qed.
Lemma concat_set es k e e' : Forall (fun e : list Z => length e = 32%nat) es -> es !! k = Some e -> length e' = 32%nat -> set_bytes (concat es) (32 * Z.of_nat k) e' = concat (<[k := e']> es).
Proof.
  intros Hl Hk He'. pose proof (lookup_lt_Some _ _ _ Hk) as Hlt. pose proof (Forall_lookup_1 _ _ _ _ Hl Hk) as He. cbn in He. rewrite (concat_split (<[k:=e']> es) k e') by (by apply list_lookup_insert_eq).
  rewrite take_insert_ge, drop_insert_lt by lia. rewrite (concat_split es k e Hk). pose proof (concat_take es k Hl ltac:(lia)) as Lt. unfold set_bytes. rewrite take_app_length' by lia. f_equal. f_equal.
  rewrite app_assoc, drop_app_length'; [done|]. rewrite length_app, Lt, He, He'. lia.
Qed.

Lemma read_entry d es k e : entries d es -> es !! k = Some e -> exists d', df_read d (32 * Z.of_nat k) FATDirEnt.empty = Ret (32, e, d') /\ same d d'.
Proof.
  intros He Hk. pose proof (entries_size d es He) as [Hs Hb]. pose proof (lookup_lt_Some _ _ _ Hk) as Hlt. pose proof He as (Hok & Ec & L).
  destruct (dl_read d (32 * Z.of_nat k) FATDirEnt.empty Hok) as (d' & E & H1 & H2 & H3 & H4); [lia|cbn; lia|]. exists d'. split; [|by split]. rewrite E. change (Z.of_nat (length FATDirEnt.empty)) with 32.
  replace (Z.max 0 (Z.min 32 (df_size d - 32 * Z.of_nat k))) with 32 by lia. rewrite Ec, (concat_get es k e L Hk). pose proof (Forall_lookup_1 _ _ _ _ L Hk) as Le. cbn in Le.
  unfold set_bytes. change (Z.to_nat 0) with O. rewrite take_0, Le. cbn [app]. by rewrite drop_ge, app_nil_r by done.
Qed.
Lemma write_entry d es k e : entries d es -> (k < length es)%nat -> length e = 32%nat -> Forall byte_ok e -> exists d', df_write d (32 * Z.of_nat k) e = Ret (32, d') /\ entries d' (<[k := e]> es) /\ kept d d' /\ (forall m, room d m -> room d' m).
Proof.
  intros He Hk Le Hb. pose proof (entries_size d es He) as [Hs _]. pose proof He as (Hok & Ec & L). destruct (dl_write d (32 * Z.of_nat k) e Hok) as (d' & E & H1 & H2 & H3 & H4); [lia|lia|done|].
  exists d'. rewrite E, Le. split; [done|]. split; [|done]. apply lookup_lt_is_Some in Hk as [e0 Hk0]. split; [done|]. split; [rewrite H2, Ec; by eapply concat_set|by apply Forall_insert].
Qed.

(** ** The iterator, forward *)
(** The iterator that looks at entry [i] next. *)
Definition pos (i : nat) : option Z := match i with O => None | S i => Some (32 * Z.of_nat i) end.
Definition fwd (m : DirIterMode) (i : nat) : DirIter := MkIter (pos i) m true.
Fixpoint scan (m : DirIterMode) (l : list (list Z)) (i : nat) : option (list Z) * nat :=
  match l with
  | [] => (None, i)
  | e :: l => if negb (DirIter.is_enum m) && FATDirEnt.last_and_unused e then (None, i)
              else if DirIter.check_dir_ent_legality m e then (Some e, S i) else scan m l (S i)
  end.
Lemma step_fwd d es m i : entries d es -> (i <= length es)%nat -> exists d', same d d' /\ DirIter.step (fwd m i) d =
  match es !! i with
  | None => Ret (None, fwd m i, d')
  | Some e => if negb (DirIter.is_enum m) && FATDirEnt.last_and_unused e then Ret (None, fwd m i, d') else Ret (Some e, fwd m (S i), d')
  end.
Proof.
  intros He Hi. pose proof (entries_size d es He) as [Hs Hb]. pose proof (same_refl d (proj1 He)) as Hr. unfold DirIter.step. cbn [fwd it_forward it_offset it_mode].
  assert ((match pos i with Some o => wrap 32 (o + STEP_SIZE) | None => 0 end) = 32 * Z.of_nat i) as ->.
  { destruct i as [|i]; [done|]. cbn [pos]. unfold STEP_SIZE. rewrite wrap_small by (unfold in_range; lia). lia. }
  rewrite Hs. destruct (es !! i) as [e|] eqn:Ei.
  - pose proof (lookup_lt_Some _ _ _ Ei). rewrite (proj2 (Z.leb_gt _ _)) by lia. destruct (read_entry d es i e He Ei) as (d' & -> & Hsm). exists d'. split; [done|]. cbn [mbind outcome_bind]. by case_match.
  - apply lookup_ge_None in Ei. rewrite (proj2 (Z.leb_le _ _)) by lia. by exists d.
Qed.
Lemma next_fwd es m : forall fuel d i, entries d es -> (i <= length es)%nat -> (length es - i < fuel)%nat -> exists d', same d d' /\
  DirIter.next fuel (fwd m i) d = Ret ((scan m (drop i es) i).1, fwd m (scan m (drop i es) i).2, d').
Proof.
  induction fuel as [|fuel IH]; intros d i He Hi Hf; [lia|]. cbn [DirIter.next]. destruct (step_fwd d es m i He Hi) as (d1 & H1 & ->). destruct (es !! i) as [e|] eqn:Ei.
  - rewrite (drop_S es e i Ei). cbn [scan]. destruct (negb (DirIter.is_enum m) && FATDirEnt.last_and_unused e); cbn [mbind outcome_bind]; [by exists d1|]. cbn [it_mode fwd].
    destruct (DirIter.check_dir_ent_legality m e); [by exists d1|]. pose proof (lookup_lt_Some _ _ _ Ei). destruct (IH d1 (S i)) as (d2 & H2 & E2); [by eapply entries_same|lia|lia|]. exists d2. split; [by eapply same_trans|done].
  - apply lookup_ge_None in Ei. rewrite drop_ge by lia. cbn [scan mbind outcome_bind]. by exists d1.
Qed.
Lemma rounds_eq d es : entries d es -> DirIter.rounds d = (length es + 2)%nat.
Proof. intros He. unfold DirIter.rounds. destruct (entries_size d es He) as [-> _]. unfold STEP_SIZE. rewrite Z.mul_comm, Z.div_mul by lia. lia. Qed.
Lemma next_fwd_rounds d es m i : entries d es -> (i <= length es)%nat -> exists d', same d d' /\
  DirIter.next (DirIter.rounds d) (fwd m i) d = Ret ((scan m (drop i es) i).1, fwd m (scan m (drop i es) i).2, d').
Proof. intros He Hi. apply next_fwd; [done|done|]. rewrite (rounds_eq d es He). lia. Qed.

(** ** Walking over files *)
Definition is_gap (g : group) : Prop := match g with Gap _ => True | Item _ _ => False end.
(** What follows the files: the end of the file, or an entry that marks the end. *)
Definition tail_ok (tl : list (list Z)) : Prop := match tl with [] => True | e :: _ => FATDirEnt.last_and_unused e = true end.
Definition flats (gs : list group) : list (list Z) := gs ≫= flat.
(** The directory holds the groups [gs]. *)
Definition holds es (gs : list group) : Prop := Forall group_ok gs /\ exists tl, es = flats gs ++ tl /\ tail_ok tl.

Lemma scan_gaps gs : Forall is_gap gs -> Forall group_ok gs -> forall l i, scan ModeUsed (flats gs ++ l) i = scan ModeUsed l (i + length gs).
Proof.
  induction 1 as [|g gs Hg Hgs IH]; intros Hok l i; [by rewrite Nat.add_0_r|]. apply Forall_cons in Hok as [Hok Hoks]. destruct g as [e|]; [|done]. cbn in Hok.
  unfold flats. rewrite bind_cons. fold (flats gs). cbn [flat app scan DirIter.is_enum negb andb DirIter.check_dir_ent_legality].
  assert (FATDirEnt.last_and_unused e = false) as E1.
  { unfold FATDirEnt.unused_not_last, FATDirEnt.last_and_unused, DIR_ENTRY_UNUSED, DIR_ENTRY_LAST_AND_UNUSED in *. lia. }
  unfold FATDirEnt.unused. rewrite E1, Hok. cbn [orb negb]. rewrite IH by done. f_equal. cbn. lia.
Qed.
Lemma scan_tail tl i : tail_ok tl -> scan ModeUsed tl i = (None, i).
Proof. destruct tl as [|e tl]; [done|]. intros E. cbn in *. by rewrite E. Qed.
Lemma scan_used e l i : FATDirEnt.unused e = false -> scan ModeUsed (e :: l) i = (Some e, S i).
Proof. intros E. cbn. unfold FATDirEnt.unused in *. apply orb_false_iff in E as [-> ->]. done. Qed.
Lemma gaps_length gs : Forall is_gap gs -> length (flats gs) = length gs.
Proof. induction 1 as [|g gs Hg Hgs IH]; [done|]. destruct g; [|done]. cbn. by rewrite <- IH. Qed.
Lemma split_gaps gs : Forall is_gap gs \/ exists gaps l s gs', gs = gaps ++ Item l s :: gs' /\ Forall is_gap gaps.
Proof.
  induction gs as [|[e|l s] gs IH]; [by left; constructor| |by right; exists [], l, s, gs]. destruct IH as [IH|(gaps & l & s & gs' & -> & Hg)]; [left; by constructor|].
  right. exists (Gap e :: gaps), l, s, gs'. split; [done|by constructor].
Qed.
Lemma flats_app gs gs' : flats (gs ++ gs') = flats gs ++ flats gs'.
Proof. apply bind_app. Qed.

(** The name so far and the entries still to come. *)
Definition join (name : str) (longs : list (list Z)) : str := foldl (fun n e => FATDirEnt.get_name e ++ n) name longs.
Lemma walk_rest es l s : forall k fuel d i name, entries d es -> (forall j e, l !! j = Some e -> long_ok (length l) j e) -> FATDirEnt.unused s = false -> FATDirEnt.is_long s = false ->
  (1 <= k)%nat -> (length (drop k l) < fuel)%nat -> (exists rest, drop i es = drop k l ++ s :: rest) -> (i <= length es)%nat -> (length l < 64)%nat ->
  exists d', same d d' /\ DirWalker.walk_loop fuel (fwd ModeUsed i) d name (Z.of_nat (length l - k)) =
    Ret (Some (match join name (drop k l) with [] => FATDirEnt.get_name s | n => n end, s), fwd ModeUsed (i + length (drop k l) + 1), d').
Proof.
  intros k fuel. revert k. induction fuel as [|fuel IH]; intros k d i name He Hl Hu Hs Hk Hf (rest & Er) Hi Hn; [lia|]. cbn [DirWalker.walk_loop].
  destruct (next_fwd_rounds d es ModeUsed i He Hi) as (d1 & Hd1 & ->). rewrite Er. cbn [mbind outcome_bind]. destruct (l !! k) as [e|] eqn:Ek.
  - rewrite (drop_S l e k Ek). cbn [app]. destruct (Hl k e Ek) as (U & Lg & La & Or). rewrite scan_used by done. cbn [fst snd]. rewrite Lg, La. replace (k =? 0)%nat with false by (symmetry; apply Nat.eqb_neq; lia).
    rewrite Or, Z.eqb_refl. pose proof (lookup_lt_Some _ _ _ Ek). rewrite sub64_small by lia. replace (Z.of_nat (length l - k) - 1) with (Z.of_nat (length l - S k)) by lia.
    rewrite (drop_S l e k Ek) in Hf, Er. cbn [length app] in *. assert (drop (S i) es = drop (S k) l ++ s :: rest) as Er'.
    { replace (S i) with (i + 1)%nat by lia. rewrite <- drop_drop, Er. done. }
    destruct (IH (S k) d1 (S i) (FATDirEnt.get_name e ++ name)) as (d2 & Hd2 & ->); [by eapply entries_same|done|done|done|lia|lia|by exists rest| |done|].
    { assert (i < length es)%nat; [|lia]. destruct (decide (i < length es)%nat); [done|]. by rewrite drop_ge in Er by lia. }
    exists d2. split; [by eapply same_trans|]. cbn [join foldl]. by replace (S i + length (drop (S k) l) + 1)%nat with (i + S (length (drop (S k) l)) + 1)%nat by lia.
  - apply lookup_ge_None in Ek. rewrite (drop_ge l k) by lia. cbn [app]. rewrite scan_used by done. cbn [fst snd]. rewrite Hs. exists d1. split; [done|]. cbn [join foldl length]. replace (i + 0 + 1)%nat with (S i) by lia. by destruct name.
Qed.
Lemma walk_item es d i gaps l s rest : entries d es -> Forall is_gap gaps -> Forall group_ok gaps -> group_ok (Item l s) -> drop i es = flats gaps ++ l ++ s :: rest ->
  exists d', same d d' /\ DirWalker.next (fwd ModeUsed i) d = Ret (Some (group_name l s, s), fwd ModeUsed (i + length gaps + length l + 1), d').
Proof.
  intros He Hg Hgo (Hl & Hn & Hu & Hs) Ed. assert (length gaps + length l + 1 <= length es - i)%nat as Hlen.
  { rewrite <- length_drop, Ed, !length_app, gaps_length by done. cbn [length]. lia. }
  unfold DirWalker.next. rewrite (rounds_eq d es He). replace (length es + 2)%nat with (S (length es + 1)) by lia. cbn [DirWalker.walk_loop]. destruct (next_fwd_rounds d es ModeUsed i He ltac:(lia)) as (d1 & Hd1 & ->).
  rewrite Ed, scan_gaps by done. cbn [mbind outcome_bind]. destruct l as [|e l].
  - cbn [app]. rewrite scan_used by done. cbn [fst snd]. rewrite Hs. exists d1. split; [done|]. cbn [length]. by replace (i + length gaps + 0 + 1)%nat with (S (i + length gaps)) by lia.
  - destruct (Hl O e eq_refl) as (U & Lg & La & Or). cbn [app]. rewrite scan_used by done. cbn [fst snd]. rewrite Lg, La. cbn [Nat.eqb]. rewrite Or, app_nil_r. cbn [length] in *. rewrite sub64_small by lia.
    replace (Z.of_nat (S (length l) - 0) - 1) with (Z.of_nat (length (e :: l) - 1)) by (cbn [length]; lia).
    destruct (walk_rest es (e :: l) s 1 (length es + 1) d1 (S (i + length gaps)) (FATDirEnt.get_name e)) as (d2 & Hd2 & ->); [by eapply entries_same|done|done|done|lia|cbn [length drop]; rewrite drop_0; lia| |lia|cbn [length]; lia|].
    + exists rest. replace (S (i + length gaps)) with (i + (length gaps + 1))%nat by lia. rewrite <- drop_drop, Ed. rewrite <- (gaps_length gaps) by done. rewrite <- drop_drop, drop_app_length. done.
    + exists d2. split; [by eapply same_trans|]. cbn [drop length]. rewrite drop_0. replace (S (i + length gaps) + length l + 1)%nat with (i + length gaps + S (length l) + 1)%nat by lia.
      unfold group_name. cbn [foldl]. unfold join. by rewrite app_nil_r.
Qed.
Lemma walk_end es d i gaps tl : entries d es -> (i <= length es)%nat -> Forall is_gap gaps -> Forall group_ok gaps -> tail_ok tl -> drop i es = flats gaps ++ tl ->
  exists d', same d d' /\ DirWalker.next (fwd ModeUsed i) d = Ret (None, fwd ModeUsed (i + length gaps), d').
Proof.
  intros He Hi Hg Hgo Ht Ed. unfold DirWalker.next. rewrite (rounds_eq d es He). replace (length es + 2)%nat with (S (length es + 1)) by lia. cbn [DirWalker.walk_loop].
  destruct (next_fwd_rounds d es ModeUsed i He Hi) as (d1 & Hd1 & ->). rewrite Ed, scan_gaps, scan_tail by done. by exists d1.
Qed.
Lemma listing_gaps gaps gs k : Forall is_gap gaps -> listing k (gaps ++ gs) = listing (k + length gaps) gs.
Proof.
  intros H. revert k. induction H as [|g gaps Hg Hgs IH]; intros k; cbn [app length]; [by rewrite Nat.add_0_r|]. destruct g; [|done]. cbn [listing]. rewrite IH. f_equal. lia.
Qed.
Lemma listing_none gs k : Forall is_gap gs -> listing k gs = [].
Proof. intros H. rewrite <- (app_nil_r gs), listing_gaps by done. done. Qed.
Lemma drop_item es i gaps l s gs tl : Forall is_gap gaps -> drop i es = flats (gaps ++ Item l s :: gs) ++ tl -> drop i es = flats gaps ++ l ++ s :: (flats gs ++ tl) /\ drop (i + length gaps + length l + 1) es = flats gs ++ tl.
Proof.
  intros Hg Ed. assert (drop i es = flats gaps ++ l ++ s :: (flats gs ++ tl)) as E by (rewrite Ed, flats_app; unfold flats at 2; rewrite bind_cons; cbn [flat]; by rewrite <- !app_assoc). split; [done|].
  replace (i + length gaps + length l + 1)%nat with (i + (length (flats gaps ++ l) + 1))%nat by (rewrite length_app, gaps_length by done; lia). rewrite <- drop_drop, E. rewrite <- drop_drop, app_assoc, drop_app_length. done.
Qed.
Definition located (x : str * list Z * nat) : str * list Z * Z := (x.1, 32 * Z.of_nat x.2).

Lemma collect_ok es : forall fuel gs d i tl, entries d es -> (i <= length es)%nat -> Forall group_ok gs -> tail_ok tl -> drop i es = flats gs ++ tl -> (length gs < fuel)%nat ->
  exists d' it, same d d' /\ DirWalker.collect fuel (fwd ModeUsed i) d = Ret (map located (listing i gs), it, d').
Proof.
  induction fuel as [|fuel IH]; intros gs d i tl He Hi Hgo Ht Ed Hf; [lia|]. cbn [DirWalker.collect]. destruct (split_gaps gs) as [Hg|(gaps & l & s & gs' & -> & Hg)].
  - destruct (walk_end es d i gs tl He Hi Hg Hgo Ht Ed) as (d1 & Hd1 & ->). cbn [mbind outcome_bind]. eexists d1, _. split; [done|]. by rewrite listing_none.
  - apply Forall_app in Hgo as [Hgo1 Hgo2]. apply Forall_cons in Hgo2 as [Hgi Hgo2]. destruct (drop_item es i gaps l s gs' tl Hg Ed) as [E1 E2]. destruct (walk_item es d i gaps l s _ He Hg Hgo1 Hgi E1) as (d1 & Hd1 & ->). cbn [mbind outcome_bind].
    replace (i + length gaps + length l + 1)%nat with (S (i + length gaps + length l)) in * by lia. cbn [fwd it_offset pos unwrap mbind outcome_bind].
    destruct (IH gs' d1 (S (i + length gaps + length l)) tl) as (d2 & it & Hd2 & ->); [by eapply entries_same| |done|done|done|rewrite length_app in Hf; cbn [length] in Hf; lia|].
    { apply (f_equal length) in E1. rewrite !length_app, length_drop, gaps_length in E1 by done. cbn [length] in E1. lia. }
    cbn [mbind outcome_bind]. eexists d2, _. split; [by eapply same_trans|]. rewrite listing_gaps by done. cbn [listing map]. replace (i + length gaps + length l + 1)%nat with (S (i + length gaps + length l)) by lia. done.
Qed.
Definition find_named (req : str) (l : list (str * list Z * nat)) : option (str * list Z * nat) := find_first (fun x => FatDirectory.same_name x.1.1 req) l.
Lemma find_loop_ok es req : forall fuel gs d i tl, entries d es -> (i <= length es)%nat -> Forall group_ok gs -> tail_ok tl -> drop i es = flats gs ++ tl -> (length gs < fuel)%nat ->
  exists d', same d d' /\ FatDirectory.find_loop fuel (fwd ModeUsed i) d req = Ret (option_map located (find_named req (listing i gs)), d').
Proof.
  induction fuel as [|fuel IH]; intros gs d i tl He Hi Hgo Ht Ed Hf; [lia|]. cbn [FatDirectory.find_loop]. destruct (split_gaps gs) as [Hg|(gaps & l & s & gs' & -> & Hg)].
  - destruct (walk_end es d i gs tl He Hi Hg Hgo Ht Ed) as (d1 & Hd1 & ->). cbn [mbind outcome_bind]. exists d1. split; [done|]. by rewrite listing_none.
  - apply Forall_app in Hgo as [Hgo1 Hgo2]. apply Forall_cons in Hgo2 as [Hgi Hgo2]. destruct (drop_item es i gaps l s gs' tl Hg Ed) as [E1 E2]. destruct (walk_item es d i gaps l s _ He Hg Hgo1 Hgi E1) as (d1 & Hd1 & ->). cbn [mbind outcome_bind].
    rewrite listing_gaps by done. cbn [listing]. unfold find_named. cbn [find_first fst]. replace (i + length gaps + length l + 1)%nat with (S (i + length gaps + length l)) in * by lia.
    destruct (FatDirectory.same_name (group_name l s) req); [by exists d1|].
    destruct (IH gs' d1 (S (i + length gaps + length l)) tl) as (d2 & Hd2 & ->); [by eapply entries_same| |done|done|done|rewrite length_app in Hf; cbn [length] in Hf; lia|].
    { apply (f_equal length) in E1. rewrite !length_app, length_drop, gaps_length in E1 by done. cbn [length] in E1. lia. }
    exists d2. split; [by eapply same_trans|]. done.
Qed.
Lemma groups_length gs : (length gs <= length (flats gs))%nat.
Proof. induction gs as [|g gs IH]; [done|]. unfold flats. rewrite bind_cons, length_app. fold (flats gs). destruct g; cbn [flat]; rewrite ?length_app; cbn [length]; lia. Qed.

(** ** Adding a file *)
Lemma chunks k : forall r : list Z, length r = (32 * k)%nat -> exists xs, r = concat xs /\ Forall (fun e => length e = 32%nat) xs /\ length xs = k.
Proof.
  induction k as [|k IH]; intros r Hr; [exists []; by destruct r|]. destruct (IH (drop 32 r)) as (xs & E & F & L); [rewrite length_drop; lia|].
  exists (take 32 r :: xs). cbn [concat length]. rewrite <- E, take_drop. split; [done|]. split; [constructor; [rewrite length_take; lia|done]|by rewrite L].
Qed.
Lemma expand_ok d es : entries d es -> room d (df_clus_size d) -> exists d' xs, FatDirectory.expand_dir_size d = Ret d' /\ entries d' (es ++ xs) /\ df_clus_size d = 32 * Z.of_nat (length xs) /\ (0 < length xs)%nat /\
  kept d d' /\ (forall m, 0 <= m -> room d (df_clus_size d + m) -> room d' m).
Proof.
  intros (Hok & Ec & L) Hr. destruct (dl_size d Hok) as (_ & _ & Hc & [c Ec'] & _). assert (0 < df_clus_size d) as Hp by lia. destruct (dl_grow d (df_clus_size d) Hok Hp Hr) as (d' & r & E & H1 & H2 & H3 & H4 & H5).
  destruct (chunks (Z.to_nat c) r) as (xs & -> & F & Lx); [lia|]. exists d', xs. split; [done|]. split; [|split; [lia|split; [lia|done]]]. split; [done|]. split; [by rewrite H2, Ec, concat_app|by apply Forall_app].
Qed.
Lemma scan_enum es i : scan ModeEnum (drop i es) i = match es !! i with Some e => (Some e, S i) | None => (None, i) end.
Proof. destruct (es !! i) as [e|] eqn:E; [by rewrite (drop_S _ _ _ E)|]. apply lookup_ge_None in E. by rewrite drop_ge. Qed.
Lemma enum_next d es i : entries d es -> (i <= length es)%nat -> exists d', same d d' /\ DirIter.next (DirIter.rounds d) (fwd ModeEnum i) d = Ret (es !! i, fwd ModeEnum (if decide (i < length es)%nat then S i else i), d').
Proof.
  intros He Hi. destruct (next_fwd_rounds d es ModeEnum i He Hi) as (d' & Hs & E). exists d'. split; [done|]. rewrite E, scan_enum. destruct (es !! i) as [e|] eqn:Ei; cbn [fst snd].
  - apply lookup_lt_Some in Ei. by rewrite decide_True.
  - apply lookup_ge_None in Ei. by rewrite decide_False by lia.
Qed.
Lemma set_hint_entries d es h : entries d es -> let d' := df_set_hint d h in entries d' es /\ df_hint d' = h /\ df_is_dir d' = df_is_dir d /\ df_clus_size d' = df_clus_size d.
Proof. intros (Hok & E & L) d'. destruct (dl_hint d h Hok) as (H1 & H2 & H3 & H4 & H5 & _). split; [|done]. split; [done|]. unfold d'. by rewrite H2. Qed.
Lemma last_entry_ok : length FATDirEnt.unused_and_last_entry = 32%nat /\ Forall byte_ok FATDirEnt.unused_and_last_entry /\ FATDirEnt.last_and_unused FATDirEnt.unused_and_last_entry = true.
Proof. split; [done|]. split; [|done]. by apply (bool_decide_unpack _). Qed.
(** The entry after the new ones becomes the end. *)
Lemma alloc_last d es i : entries d es -> (i < length es)%nat -> exists d' es', 
  ('(o2, it2, d2) ← DirIter.next (DirIter.rounds d) (fwd ModeEnum (S i)) d;
   match o2 with
   | Some _ => d3 ← DirIter.write_to_current_ent it2 d2 FATDirEnt.unused_and_last_entry; h ← unwrap (it_offset it2); Ret (32 * Z.of_nat i, df_set_hint d3 h)
   | None => Ret (32 * Z.of_nat i, df_set_hint d2 (df_size d2))
   end) = Ret (32 * Z.of_nat i, d') /\
  entries d' es' /\ (i < length es')%nat /\ take (S i) es' = take (S i) es /\ tail_ok (drop (S i) es') /\ df_hint d' = 32 * Z.of_nat (S i) /\ df_is_dir d' = df_is_dir d /\ df_clus_size d' = df_clus_size d.
Proof.
  intros He Hi. destruct (enum_next d es (S i) He ltac:(lia)) as (d2 & Hd2 & ->). pose proof (entries_same d d2 es He Hd2) as He2. destruct Hd2 as [_ _ [K1 K2 K3] _]. cbn [mbind outcome_bind]. destruct (es !! S i) as [e|] eqn:Ei.
  - pose proof (lookup_lt_Some _ _ _ Ei) as Hlt. rewrite decide_True by done. destruct last_entry_ok as (L1 & L2 & L3). destruct (write_entry d2 es (S i) FATDirEnt.unused_and_last_entry He2 Hlt L1 L2) as (d3 & E3 & He3 & [K4 K5 K6] & _).
    unfold DirIter.write_to_current_ent. cbn [fwd it_offset pos unwrap mbind outcome_bind]. rewrite E3. cbn [mbind outcome_bind]. rewrite L1, Z.eqb_refl. cbn [rust_assert mbind outcome_bind].
    destruct (set_hint_entries d3 _ (32 * Z.of_nat (S i)) He3) as (He4 & Hh & Hd & Hc). eexists _, _. split; [done|]. split; [done|]. rewrite length_insert. split; [done|]. rewrite take_insert_ge by lia. split; [done|].
    rewrite (drop_S _ FATDirEnt.unused_and_last_entry) by (by apply list_lookup_insert_eq). split; [done|]. rewrite Hh, Hd, Hc. split; [done|]. split; congruence.
  - apply lookup_ge_None in Ei. destruct (entries_size d2 es He2) as [Hs _]. destruct (set_hint_entries d2 es (df_size d2) He2) as (He3 & Hh & Hd & Hc). eexists _, es. split; [done|]. split; [done|]. split; [done|]. split; [done|].
    rewrite drop_ge by lia. split; [done|]. rewrite Hh, Hd, Hc, Hs. split; [f_equal; lia|]. split; congruence.
Qed.
Lemma take_less es es' i : take (S i) es' = take (S i) es -> take i es' = take i es.
Proof. intros H. apply (f_equal (take i)) in H. rewrite !take_take, Nat.min_l in H by lia. done. Qed.
Lemma dir_alloc_loop_ok num : forall fuel d es i found, entries d es -> (i <= length es)%nat -> (found < num)%nat -> (2 * (num - found) <= fuel + (if decide (i < length es)%nat then 1 else 0))%nat ->
  room d (if decide (i + (num - found) <= length es)%nat then 0 else 32 * Z.of_nat (i + (num - found) - length es) + df_clus_size d) -> exists d' es', FatDirectory.alloc_loop fuel (fwd ModeEnum i) d num found = Ret (32 * Z.of_nat (i + (num - found) - 1), d') /\
  entries d' es' /\ (i + (num - found) <= length es')%nat /\ take i es' = take i es /\ tail_ok (drop (i + (num - found)) es') /\ df_hint d' = 32 * Z.of_nat (i + (num - found)) /\ df_is_dir d' = df_is_dir d /\ df_clus_size d' = df_clus_size d.
Proof.
  induction fuel as [|fuel IH]; intros d es i found He Hi Hn Hf Hr; [repeat case_decide; lia|]. cbn [FatDirectory.alloc_loop]. destruct (enum_next d es i He Hi) as (d1 & Hd1 & ->). pose proof (entries_same d d1 es He Hd1) as He1.
  pose proof (sa_room _ _ Hd1 _ Hr) as Hr1. destruct Hd1 as [_ _ [K1 K2 K3] _]. rewrite <- K3 in Hr1. destruct (dl_size d1 (proj1 He1)) as (_ & _ & Hcs & _). cbn [mbind outcome_bind]. destruct (es !! i) as [e|] eqn:Ei.
  - pose proof (lookup_lt_Some _ _ _ Ei) as Hlt. rewrite (decide_True (P := (i < length es)%nat)) in Hf |- * by done. destruct (Nat.leb_spec num (S found)) as [Hle|Hgt].
    + replace (num - found)%nat with 1%nat in * by lia. destruct (alloc_last d1 es i He1 Hlt) as (d' & es' & E & H1 & H2 & H3 & H4 & H5 & H6 & H7). exists d', es'.
      replace (i + 1)%nat with (S i) by lia. rewrite Nat.sub_succ, Nat.sub_0_r. split; [exact E|]. split; [done|]. split; [lia|]. split; [|split; [done|split; [done|split; congruence]]].
      by apply take_less.
    + destruct (IH d1 es (S i) (S found) He1) as (d' & es' & E & H1 & H2 & H3 & H4 & H5 & H6 & H7); [lia|lia|repeat case_decide; lia|eapply dl_room; [apply He1|exact Hr1|repeat case_decide; lia]|]. exists d', es'. rewrite E.
      replace (S i + (num - S found))%nat with (i + (num - found))%nat in * by lia. split; [done|]. split; [done|]. split; [done|]. split; [|split; [done|split; [done|split; congruence]]].
      by apply take_less.
  - apply lookup_ge_None in Ei. rewrite (decide_False (P := (i < length es)%nat)) in Hf |- * by lia. destruct (expand_ok d1 es He1) as (d2 & xs & -> & He2 & Hc & Hx & [K4 K5 K6] & Hr2); [eapply dl_room; [apply He1|exact Hr1|case_decide; lia]|]. cbn [mbind outcome_bind].
    destruct (IH d2 (es ++ xs) i found He2) as (d' & es' & E & H1 & H2 & H3 & H4 & H5 & H6 & H7); [rewrite length_app; lia|lia|rewrite decide_True by (rewrite length_app; lia); lia| |].
    { apply Hr2; [repeat case_decide; lia|]. eapply dl_room; [apply He1|exact Hr1|]. rewrite length_app. repeat case_decide; lia. }
    exists d', es'. rewrite E. split; [done|]. split; [done|]. split; [done|]. split; [rewrite H3; apply take_app_le; lia|]. split; [done|]. split; [done|]. split; congruence.
Qed.

(** The iterator that stands on entry [p] and goes backward. *)
Definition bwd (m : DirIterMode) (p : nat) : DirIter := MkIter (Some (32 * Z.of_nat p)) m false.
Lemma step_bwd d es m p : entries d es -> (p < length es)%nat -> exists d' e, same d d' /\ es !! p = Some e /\ DirIter.step (bwd m (S p)) d = Ret (Some e, bwd m p, d').
Proof.
  intros He Hp. destruct (lookup_lt_is_Some_2 es p Hp) as [e Ee]. destruct (read_entry d es p e He Ee) as (d' & E & Hs). exists d', e. split; [done|]. split; [done|]. destruct (entries_size d es He) as [_ Hb].
  unfold DirIter.step, bwd. cbn [it_forward it_offset]. rewrite (proj2 (Z.eqb_neq _ _)) by lia. unfold STEP_SIZE. rewrite wrap_small by (unfold in_range; lia). replace (32 * Z.of_nat (S p) - 32) with (32 * Z.of_nat p) by lia. by rewrite E.
Qed.
Lemma enum_prev d es p : entries d es -> (p < length es)%nat -> exists d' e, same d d' /\ es !! p = Some e /\ DirIter.next (DirIter.rounds d) (bwd ModeEnum (S p)) d = Ret (Some e, bwd ModeEnum p, d').
Proof. intros He Hp. destruct (step_bwd d es ModeEnum p He Hp) as (d' & e & Hs & Ee & E). exists d', e. split; [done|]. split; [done|]. unfold DirIter.rounds. cbn [DirIter.next]. by rewrite E. Qed.
Definition entry_ok (e : list Z) : Prop := length e = 32%nat /\ Forall byte_ok e.
Lemma write_current d es it p e : entries d es -> it_offset it = Some (32 * Z.of_nat p) -> (p < length es)%nat -> entry_ok e -> exists d', DirIter.write_to_current_ent it d e = Ret d' /\ entries d' (<[p := e]> es) /\ kept d d' /\ (forall m, room d m -> room d' m).
Proof.
  intros He Hit Hp [L B]. destruct (write_entry d es p e He Hp L B) as (d' & E & H). exists d'. split; [|done]. unfold DirIter.write_to_current_ent. rewrite Hit. cbn [unwrap mbind outcome_bind]. rewrite E. cbn [mbind outcome_bind]. by rewrite L.
Qed.
Lemma create_loop_ok ls : forall d es p, entries d es -> (p < length es)%nat -> (length ls <= p)%nat -> Forall entry_ok ls ->
  exists d', FatDirectory.create_loop (bwd ModeEnum p) d ls = Ret d' /\ entries d' (take (p - length ls) es ++ reverse ls ++ drop p es) /\ kept d d'.
Proof.
  induction ls as [|e ls IH]; intros d es p He Hp Hl Hok; cbn [FatDirectory.create_loop length].
  - exists d. split; [done|]. split; [|done]. rewrite Nat.sub_0_r, reverse_nil. cbn [app]. by rewrite take_drop.
  - apply Forall_cons in Hok as [Hok Hoks]. cbn [length] in Hl. destruct p as [|p]; [lia|]. destruct (enum_prev d es p He ltac:(lia)) as (d1 & e1 & Hd1 & _ & ->). cbn [mbind outcome_bind].
    destruct (write_current d1 es (bwd ModeEnum p) p e) as (d2 & -> & He2 & Hk2 & _); [by eapply entries_same|done|lia|done|]. cbn [mbind outcome_bind].
    destruct (IH d2 (<[p := e]> es) p He2) as (d3 & -> & He3 & Hk3); [rewrite length_insert; lia|lia|done|]. exists d3. split; [done|]. split; [|eapply dir_kept_trans; [apply Hd1|by eapply dir_kept_trans]].
    rewrite take_insert_ge in He3 by lia. rewrite (drop_S _ e) in He3 by (apply list_lookup_insert_eq; lia). rewrite drop_insert_lt in He3 by lia. rewrite Nat.sub_succ, reverse_cons, <- app_assoc. done.
Qed.

(** A directory that holds the groups [gs], with a hint that is right. *)
Record dir_ok d (gs : list group) : Prop := {
  do_groups : Forall group_ok gs;
  do_entries : exists tl, entries d (flats gs ++ tl) /\ tail_ok tl;
  do_hint : df_hint d = 32 * Z.of_nat (length (flats gs));
  do_dir : df_is_dir d = true;
}.
Lemma create_ents_ok d gs s ls : dir_ok d gs -> group_ok (Item (reverse ls) s) -> Forall entry_ok (s :: ls) -> room d (32 * Z.of_nat (S (length ls)) + df_clus_size d) ->
  exists d', FatDirectory.create_dir_ent (2 * S (length ls)) d s ls = Ret (32 * Z.of_nat (length (flats gs) + length ls), d') /\ dir_ok d' (gs ++ [Item (reverse ls) s]) /\ df_clus_size d' = df_clus_size d.
Proof.
  intros [Hg (tl & He & Ht) Hh Hd] Hi Hoks Hr. apply Forall_cons in Hoks as [Hs Hls]. unfold FatDirectory.create_dir_ent, FatDirectory.alloc_dir_ent, FatDirectory.dir_iter, DirIter.set_iter_offset. cbn [it_forward]. set (h := length (flats gs)) in *.
  destruct (entries_size _ _ He) as [_ Hb]. rewrite length_app in Hb. fold h in Hb. destruct (dl_size d (proj1 He)) as (_ & _ & Hcs & _).
  assert (with_offset (MkIter None ModeEnum true) (if df_hint d =? 0 then None else Some (wrap 32 (df_hint d - STEP_SIZE))) = fwd ModeEnum h) as ->.
  { rewrite Hh. unfold with_offset, fwd. cbn [it_mode it_forward]. destruct h as [|h]; [done|]. rewrite (proj2 (Z.eqb_neq _ _)) by lia. cbn [pos]. unfold STEP_SIZE. rewrite wrap_small by (unfold in_range; lia). do 2 f_equal. lia. }
  destruct (dir_alloc_loop_ok (S (length ls)) (2 * S (length ls)) d (flats gs ++ tl) h 0 He) as (d1 & es1 & -> & He1 & Hl1 & Htk & Htl & Hh1 & Hd1 & Hc1); [rewrite length_app; lia|lia|case_decide; lia|eapply dl_room; [apply He|exact Hr|case_decide; [lia|rewrite length_app; lia]]|]. cbn [mbind outcome_bind].
  rewrite Nat.sub_0_r in *. replace (h + S (length ls) - 1)%nat with (h + length ls)%nat by lia. change (MkIter (Some (32 * Z.of_nat (h + length ls))) ModeEnum false) with (bwd ModeEnum (h + length ls)).
  destruct (write_current d1 es1 (bwd ModeEnum (h + length ls)) (h + length ls) s He1) as (d2 & -> & He2 & [K1 K2 K3] & _); [done|lia|done|]. cbn [mbind outcome_bind].
  destruct (create_loop_ok ls d2 _ (h + length ls) He2) as (d3 & -> & He3 & [K4 K5 K6]); [rewrite length_insert; lia|lia|done|]. cbn [mbind outcome_bind]. exists d3. split; [done|]. split; [|congruence].
  assert (flats (gs ++ [Item (reverse ls) s]) = flats gs ++ reverse ls ++ [s]) as Ef by (rewrite flats_app; unfold flats at 2; rewrite bind_cons; cbn; by rewrite app_nil_r). split.
  - apply Forall_app. split; [done|]. by constructor.
  - exists (drop (h + S (length ls)) es1). split; [|done]. rewrite Ef, <- !app_assoc. cbn [app]. rewrite take_insert_ge in He3 by lia. rewrite (drop_S _ s) in He3 by (apply list_lookup_insert_eq; lia). rewrite drop_insert_lt in He3 by lia.
    replace (h + length ls - length ls)%nat with h in He3 by lia. rewrite Htk, (take_app_length' (flats gs)) in He3 by done. by replace (S (h + length ls)) with (h + S (length ls))%nat in He3 by lia.
  - rewrite Ef, !length_app, length_reverse. cbn [length]. fold h. rewrite K4, K1, Hh1. do 2 f_equal. lia.
  - congruence.
Qed.

(** ** Names for a new file *)
Lemma scan_skip m xs : Forall (fun e => FATDirEnt.last_and_unused e = false /\ DirIter.check_dir_ent_legality m e = false) xs -> forall l i, scan m (xs ++ l) i = scan m l (i + length xs).
Proof.
  induction 1 as [|e xs [E1 E2] Hxs IH]; intros l i; cbn [app length scan]; [by rewrite Nat.add_0_r|]. rewrite E1, E2, andb_false_r, IH. f_equal. lia.
Qed.
Lemma gap_not_last e : FATDirEnt.unused_not_last e = true -> FATDirEnt.last_and_unused e = false.
Proof. unfold FATDirEnt.unused_not_last, FATDirEnt.last_and_unused, DIR_ENTRY_UNUSED, DIR_ENTRY_LAST_AND_UNUSED. lia. Qed.
Lemma gaps_skip gs : Forall is_gap gs -> Forall group_ok gs -> Forall (fun e => FATDirEnt.last_and_unused e = false /\ DirIter.check_dir_ent_legality ModeShort e = false) (flats gs).
Proof.
  induction 1 as [|g gs Hg _ IH]; intros Hgo; [constructor|]. apply Forall_cons in Hgo as [Hgo Hgos]. destruct g as [e|]; [|done]. unfold flats. rewrite bind_cons. cbn [flat app]. constructor; [|by apply IH].
  cbn in Hgo |- *. pose proof (gap_not_last e Hgo). split; [done|]. unfold FATDirEnt.unused. by rewrite Hgo, orb_true_r.
Qed.
Lemma scan_short_item gaps l s rest i : Forall is_gap gaps -> Forall group_ok gaps -> group_ok (Item l s) -> scan ModeShort (flats gaps ++ l ++ s :: rest) i = (Some s, (i + length gaps + length l + 1)%nat).
Proof.
  intros Hg Hgo (Hl & _ & Hu & Hs). rewrite app_assoc, scan_skip.
  - cbn [scan DirIter.is_enum negb andb DirIter.check_dir_ent_legality]. unfold FATDirEnt.is_short. rewrite Hu, Hs. unfold FATDirEnt.unused in Hu. apply orb_false_iff in Hu as [-> _]. cbn. f_equal. rewrite length_app, gaps_length by done. lia.
  - apply Forall_app. split.
    + by apply gaps_skip.
    + apply Forall_lookup. intros j e Hj. destruct (Hl j e Hj) as (U & Lg & _). unfold FATDirEnt.unused in *. cbn. unfold FATDirEnt.unused, FATDirEnt.is_short. rewrite Lg, andb_false_r. by apply orb_false_iff in U as [-> _].
Qed.
Lemma scan_short_end gaps tl i : Forall is_gap gaps -> Forall group_ok gaps -> tail_ok tl -> (scan ModeShort (flats gaps ++ tl) i).1 = None.
Proof.
  intros Hg Hgo Ht. rewrite scan_skip; [destruct tl as [|e tl]; [done|]; cbn in *; by rewrite Ht|by apply gaps_skip].
Qed.
Definition short_names (k : nat) (gs : list group) : list (list Z) := map (fun x => Short.name_array x.1.2) (listing k gs).
Lemma collect_names_ok es : forall fuel gs d i tl, entries d es -> (i <= length es)%nat -> Forall group_ok gs -> tail_ok tl -> drop i es = flats gs ++ tl -> (length gs < fuel)%nat ->
  exists d', same d d' /\ FatDirectory.collect_names fuel (fwd ModeShort i) d = Ret (short_names i gs, d').
Proof.
  induction fuel as [|fuel IH]; intros gs d i tl He Hi Hgo Ht Ed Hf; [lia|]. cbn [FatDirectory.collect_names]. destruct (next_fwd_rounds d es ModeShort i He Hi) as (d1 & Hd1 & ->). cbn [mbind outcome_bind]. unfold short_names. destruct (split_gaps gs) as [Hg|(gaps & l & s & gs' & -> & Hg)].
  - rewrite Ed, scan_short_end by done. exists d1. by rewrite listing_none.
  - apply Forall_app in Hgo as [Hgo1 Hgo2]. apply Forall_cons in Hgo2 as [Hgi Hgo2]. destruct (drop_item es i gaps l s gs' tl Hg Ed) as [E1 E2]. rewrite E1, scan_short_item by done. cbn [fst snd].
    destruct (IH gs' d1 (i + length gaps + length l + 1)%nat tl) as (d2 & Hd2 & ->); [by eapply entries_same| |done|done|done|rewrite length_app in Hf; cbn [length] in Hf; lia|].
    { apply (f_equal length) in E1. rewrite !length_app, length_drop, gaps_length in E1 by done. cbn [length] in E1. lia. }
    exists d2. split; [by eapply same_trans|]. rewrite listing_gaps by done. done.
Qed.

Lemma join_reverse (f : list Z -> str) ls : forall acc, foldl (fun n e => f e ++ n) acc (reverse ls) = concat (map f ls) ++ acc.
Proof.
  induction ls as [|e ls IH]; intros acc; [done|]. rewrite reverse_cons, foldl_app, IH. cbn [foldl map concat]. by rewrite app_assoc.
Qed.
Lemma pieces (name : str) n : concat (map (fun i => take 13 (drop (13 * i) name)) (seq 0 n)) = take (13 * n) name.
Proof.
  induction n as [|n IH]; [by rewrite take_0|]. rewrite seq_S, map_app, concat_app, IH. cbn [map concat]. rewrite app_nil_r, Nat.add_0_l. replace (13 * S n)%nat with (13 * n + 13)%nat by lia. apply take_take_drop.
Qed.
Lemma slice_eq name i : Forall plain name -> (13 * i <= length name)%nat -> FatDirectory.gen_long_name_slice name i = take 13 (drop (13 * i) name) ++ replicate (13 * (i + 1) - length name) 0.
Proof.
  intros Hp Hi. unfold FatDirectory.gen_long_name_slice. rewrite plain_encode by done. unfold get_bytes. rewrite Nat2Z.id. change (Z.to_nat 13) with 13%nat. rewrite drop_app_le by done. rewrite take_app, length_drop, take_replicate. do 2 f_equal. lia.
Qed.
Lemma slice_good name i : Forall plain name -> (13 * i < length name)%nat -> let l := FatDirectory.gen_long_name_slice name i in slice_ok l /\ Short.until 0 l = take 13 (drop (13 * i) name).
Proof.
  intros Hp Hi. cbv zeta. rewrite slice_eq by (done || lia). assert (Forall plain (take 13 (drop (13 * i) name))) as Hq by (by apply Forall_take, Forall_drop). split; [split|].
  - rewrite length_app, length_take, length_drop, length_replicate. lia.
  - apply Forall_app. split; [eapply Forall_impl; [done|]; intros c Hc; unfold plain, in_range in *; lia|]. apply Forall_replicate. unfold in_range. lia.
  - apply until_pad. eapply Forall_impl; [done|]. intros c Hc. unfold plain in Hc. lia.
Qed.
(** The long entries of a name. *)
Definition long_entries (name : str) : list (list Z) :=
  map (fun i => Long.from_name_slice (S i =? Z.to_nat (FatDirectory.long_ent_num name))%nat (Z.of_nat (S i)) (FatDirectory.gen_long_name_slice name i)) (seq 0 (Z.to_nat (FatDirectory.long_ent_num name))).
Lemma ascii_plain name : Forall ShortNames.ascii name -> Forall plain name.
Proof. intros H. eapply Forall_impl; [done|]. intros c. unfold ShortNames.ascii, plain. lia. Qed.
Lemma long_num name : Forall ShortNames.ascii name -> name <> [] -> (length name < 820)%nat -> let n := Z.to_nat (FatDirectory.long_ent_num name) in (length name <= 13 * n)%nat /\ (13 * (n - 1) < length name)%nat /\ (1 <= n < 64)%nat.
Proof.
  intros Ha Hn Hl. unfold FatDirectory.long_ent_num. rewrite ShortNames.ascii_len by done. destruct name as [|c name]; [done|]. cbn [length] in *. rewrite sub64_small by lia. rewrite add64_small by (unfold in_range; lia).
  assert (exists q, (Z.of_nat (S (length name)) - 1 + 13) / 13 = q /\ 13 * q <= Z.of_nat (length name) + 13 < 13 * q + 13) as (q & -> & Hq) by (eexists; split; [done|]; Z.to_euclidean_division_equations; lia). lia.
Qed.
Lemma long_entry_ok name i : Forall ShortNames.ascii name -> name <> [] -> (length name < 820)%nat -> (i < length (long_entries name))%nat ->
  exists e, long_entries name !! i = Some e /\ entry_ok e /\ long_ok (length (long_entries name)) (length (long_entries name) - 1 - i) e /\ FATDirEnt.get_name e = take 13 (drop (13 * i) name).
Proof.
  intros Ha Hn Hl. pose proof (long_num name Ha Hn Hl) as Hm. cbv zeta in Hm. unfold long_entries. rewrite length_map, length_seq. set (n := Z.to_nat (FatDirectory.long_ent_num name)) in *. intros Hi.
  destruct (slice_good name i) as [Hs Hu]; [by apply ascii_plain|lia|]. eexists. split; [apply list_lookup_fmap_Some; exists i; split; [done|apply lookup_seq; lia]|]. cbv beta. set (l := FatDirectory.gen_long_name_slice name i) in *.
  destruct (long_name (S i =? n)%nat (Z.of_nat (S i)) l Hs) as (E1 & E2 & E3). destruct (long_ord (S i =? n)%nat (Z.of_nat (S i)) l Hs) as (O1 & O2 & O3); [lia|].
  assert (FATDirEnt.is_long (Long.from_name_slice (S i =? n)%nat (Z.of_nat (S i)) l) = true) as Hlg by (unfold FATDirEnt.is_long; rewrite E2; done). split; [split; [done|apply long_bytes; lia]|]. split.
  - split; [done|]. split; [done|]. rewrite O1, O2. split; [|f_equal; lia]. destruct (Nat.eqb_spec (S i) n), (Nat.eqb_spec (n - 1 - i) 0); (done || lia).
  - unfold FATDirEnt.get_name. rewrite Hlg. unfold Long.name. rewrite E1, Hu. apply plain_decode. apply Forall_take, Forall_drop. by apply ascii_plain.
Qed.
(** The name survives being cut into long entries. *)
Lemma long_entries_name name s : Forall ShortNames.ascii name -> name <> [] -> (length name < 820)%nat -> group_name (reverse (long_entries name)) s = name.
Proof.
  intros Ha Hn Hl. unfold group_name. rewrite join_reverse, app_nil_r. assert (map FATDirEnt.get_name (long_entries name) = map (fun i => take 13 (drop (13 * i) name)) (seq 0 (length (long_entries name)))) as ->.
  { apply list_eq. intros i. change (map ?f ?l) with (f <$> l). rewrite !list_lookup_fmap. destruct (decide (i < length (long_entries name))%nat) as [Hi|Hi].
    - destruct (long_entry_ok name i Ha Hn Hl Hi) as (e & -> & _ & _ & E). rewrite lookup_seq_lt by done. cbn. by rewrite E.
    - rewrite (lookup_ge_None_2 (long_entries name)), (lookup_ge_None_2 (seq _ _)) by (rewrite ?length_seq; lia). done. }
  rewrite pieces. unfold long_entries. rewrite length_map, length_seq. pose proof (long_num name Ha Hn Hl) as Hm. cbv zeta in Hm. rewrite take_ge by lia. by destruct name.
Qed.
Lemma new_group_ok name s : Forall ShortNames.ascii name -> name <> [] -> (length name < 820)%nat -> FATDirEnt.unused s = false -> FATDirEnt.is_long s = false -> group_ok (Item (reverse (long_entries name)) s) /\ Forall entry_ok (long_entries name).
Proof.
  intros Ha Hn Hl Hu Hs. split.
  - split; [|split; [|done]]; rewrite length_reverse.
    + intros i e He. pose proof (lookup_lt_Some _ _ _ He) as Hi. rewrite length_reverse in Hi. rewrite reverse_lookup in He by done. destruct (long_entry_ok name (length (long_entries name) - S i)%nat Ha Hn Hl ltac:(lia)) as (e' & Ee & _ & Hok & _). rewrite He in Ee. injection Ee as <-.
      by replace (length (long_entries name) - 1 - (length (long_entries name) - S i))%nat with i in Hok by lia.
    + unfold long_entries. rewrite length_map, length_seq. pose proof (long_num name Ha Hn Hl) as Hm. cbv zeta in Hm. lia.
  - apply Forall_lookup. intros i e He. pose proof (lookup_lt_Some _ _ _ He) as Hi. destruct (long_entry_ok name i Ha Hn Hl Hi) as (e' & Ee & Hok & _). rewrite He in Ee. by injection Ee as <-.
Qed.

(** The name has a short form that does not begin with a space. *)
Definition named (name : str) : bool := match FATDirEnt.gen_short_name_prefix name with Ret (c :: _) => negb (c =? space) | _ => false end.
Lemma dir_start d gs : dir_ok d gs -> exists tl, entries d (flats gs ++ tl) /\ tail_ok tl /\ (length gs < DirIter.rounds d)%nat.
Proof.
  intros [_ (tl & He & Ht) _ _]. exists tl. split; [done|]. split; [done|]. rewrite (rounds_eq _ _ He), length_app. pose proof (groups_length gs). lia.
Qed.
Lemma dir_same d d' gs : dir_ok d gs -> same d d' -> dir_ok d' gs.
Proof. intros [H1 (tl & He & Ht) H3 H4] Hs. split; [done|exists tl; split; [by eapply entries_same|done]|by rewrite (ke_hint _ _ (sa_kept _ _ Hs))|by rewrite (ke_dir _ _ (sa_kept _ _ Hs))]. Qed.
Lemma gen_dir_ent_ok d gs name c ty : dir_ok d gs -> Forall ShortNames.ascii name -> named name = true -> (length (listing 0 gs) < 4446)%nat ->
  exists r x d1, FatDirectory.gen_dir_ent 4446 d name c ty = Ret (Some (Short.from_name r c ty, long_entries name), d1) /\ same d d1 /\ r ∉ short_names 0 gs /\ length r = 11%nat /\ Forall byte_ok r /\ head r = Some x /\ ShortNames.ascii x.
Proof.
  intros Hd Ha Hn Hl. unfold named in Hn. destruct (FATDirEnt.gen_short_name_prefix name) as [sn|] eqn:Ep; [|done]. destruct sn as [|x sn]; [done|]. destruct (ShortNames.prefix_ascii name (x :: sn) Ha Ep) as [L11 Has]; [done|]. assert (Forall byte_ok (x :: sn)) as Hb by (eapply Forall_impl; [done|]; intros y; unfold ShortNames.ascii, byte_ok; lia).
  destruct (ShortNames.numtail_fresh (short_names 0 gs) (x :: sn) L11) as (r & Er & Hr & Lr); [unfold short_names; by rewrite length_map|].
  destruct (ShortNames.numtail_keeps 4446 (short_names 0 gs) (x :: sn) r L11 Hb) as [Hh Hbr]; [intros [= ->]; done|exact Er|]. cbn [head] in Hh. destruct (dir_start d gs Hd) as (tl & He & Ht & Hf).
  destruct (collect_names_ok (flats gs ++ tl) (DirIter.rounds d) gs d 0 tl He) as (d1 & Hd1 & E1); [lia|apply Hd|done|done|done|]. change (fwd ModeShort 0) with (FatDirectory.dir_iter None ModeShort true) in E1.
  exists r, x, d1. split; [|split; [done|split; [done|split; [done|split; [done|split; [done|by apply Forall_cons in Has as [? _]]]]]]].
  unfold FatDirectory.gen_dir_ent, FatDirectory.gen_short_name_slice. rewrite Ep. cbn [mbind outcome_bind]. rewrite (ShortNames.ascii_len (x :: sn)), (ShortNames.ascii_bytes (x :: sn)), L11 by done. cbn [head]. rewrite bool_decide_eq_false_2 by (intros [= ->]; done). change (Z.of_nat 11) with 11. cbn [Z.eqb orb Z.leb Z.compare Pos.compare Pos.compare_cont rust_assert mbind outcome_bind].
  rewrite E1. cbn [mbind outcome_bind]. rewrite take_ge by lia. rewrite Er. done.
Qed.
Lemma listing_app gs gs' : forall k, listing k (gs ++ gs') = listing k gs ++ listing (k + length (flats gs)) gs'.
Proof.
  induction gs as [|g gs IH]; intros k; cbn [app]; [by rewrite Nat.add_0_r|]. unfold flats. rewrite bind_cons, length_app. fold (flats gs). destruct g as [e|l s]; cbn [listing flat app length]; rewrite IH; [by replace (S k + length (flats gs))%nat with (k + (1 + length (flats gs)))%nat by lia|].
  rewrite length_app. cbn [length]. by replace (k + length l + 1 + length (flats gs))%nat with (k + (length l + 1 + length (flats gs)))%nat by lia.
Qed.
Lemma find_named_snoc req l x : find_named req (l ++ [x]) = match find_named req l with Some y => Some y | None => if FatDirectory.same_name x.1.1 req then Some x else None end.
Proof. unfold find_named. induction l as [|y l IH]; cbn [app find_first]; [done|]. by destruct (FatDirectory.same_name y.1.1 req). Qed.
Lemma find_ok d gs req : dir_ok d gs -> exists d', same d d' /\ FatDirectory.find_local d req = Ret (Ok (option_map located (find_named req (listing 0 gs))), d').
Proof.
  intros Hd. destruct (dir_start d gs Hd) as (tl & He & Ht & Hf). destruct (find_loop_ok (flats gs ++ tl) req (DirIter.rounds d) gs d 0 tl He) as (d' & Hs & E); [lia|apply Hd|done|done|done|]. exists d'. split; [done|].
  unfold FatDirectory.find_local. rewrite (do_dir _ _ Hd). cbn [negb]. change (FatDirectory.dir_iter None ModeUsed true) with (fwd ModeUsed 0). by rewrite E.
Qed.

(** [find_local] finds the first file whose name is the requested one up
    to case, at the offset of its short entry, and [ls] lists all of them; neither changes the directory. *)
Lemma dir_lookup_ok d gs req : dir_ok d gs -> exists d1 d2,
  FatDirectory.find_local d req = Ret (Ok (option_map located (find_named req (listing 0 gs))), d1) /\ dir_ok d1 gs /\
  FatDirectory.ls d = Ret (Ok (map fst (listing 0 gs)), d2) /\ dir_ok d2 gs.
Proof.
  intros Hd. destruct (find_ok d gs req Hd) as (d1 & Hs & E). destruct (dir_start d gs Hd) as (tl & He & Ht & Hf). destruct (collect_ok (flats gs ++ tl) (DirIter.rounds d) gs d 0 tl He) as (d2 & it & Hs2 & E2); [lia|apply Hd|done|done|done|].
  exists d1, d2. split; [done|]. split; [by eapply dir_same|]. split; [|by eapply dir_same]. unfold FatDirectory.ls. rewrite (do_dir _ _ Hd). cbn [negb]. change (FatDirectory.dir_iter None ModeUsed true) with (fwd ModeUsed 0). rewrite E2. cbn [mbind outcome_bind].
  do 3 f_equal. rewrite map_map. apply map_ext. by intros [[n e] k].
Qed.
(** Creating a file in a directory and looking names up round-trip: the entries made for a name in ASCII are
    stored, the directory then lists the file under exactly this name, with its cluster and type and a
    short name no other file has, and every lookup that succeeded before gives what it gave. *)
Lemma dir_create_ok d gs name c ty req : dir_ok d gs -> Forall ShortNames.ascii name -> named name = true -> (length name < 820)%nat -> (length (listing 0 gs) < 4446)%nat -> 0 <= c < 2 ^ 32 ->
  room d (32 * Z.of_nat (S (length (long_entries name))) + df_clus_size d) ->
  exists s ls d1 off d2 d3, FatDirectory.gen_dir_ent 4446 d name c ty = Ret (Some (s, ls), d1) /\ FatDirectory.create_dir_ent (2 * S (length ls)) d1 s ls = Ret (off, d2) /\
    (exists g, dir_ok d2 (gs ++ [g]) /\ listing 0 (gs ++ [g]) = listing 0 gs ++ [(name, s, Z.to_nat (off / 32))]) /\
    Short.get_first_clus s = c /\ Short.attr s = (match ty with Directory => Attr.Directory | _ => Attr.Archive end) /\ Short.file_size s = 0 /\ Short.name_array s ∉ short_names 0 gs /\
    FatDirectory.find_local d2 req = Ret (Ok (match find_named req (listing 0 gs) with Some x => Some (located x) | None => if FatDirectory.same_name name req then Some (name, s, off) else None end), d3).
Proof.
  intros Hd Ha Hn Hl Hm Hc Hr. assert (name <> []) as Hne by (intros ->; done). destruct (gen_dir_ent_ok d gs name c ty Hd Ha Hn Hm) as (r & x & d1 & E1 & Hs1 & Hr1 & Lr & Hb & Hh & Hx). set (s := Short.from_name r c ty) in *. destruct (short_used r c ty x Lr Hc Hh Hx) as [U1 U2].
  destruct (new_group_ok name s Ha Hne Hl U1 U2) as [Hg Hes]. destruct (short_from_name r c ty Lr Hc) as (S1 & S2 & S3 & S4 & S5). destruct (create_ents_ok d1 gs s (long_entries name)) as (d2 & E2 & Hd2 & _);
    [by eapply dir_same|done|constructor; [split; [done|by apply short_bytes]|done]|apply (sa_room _ _ Hs1); by rewrite (ke_clus _ _ (sa_kept _ _ Hs1))|].
  destruct (find_ok d2 _ req Hd2) as (d3 & _ & E3). assert (listing 0 (gs ++ [Item (reverse (long_entries name)) s]) = listing 0 gs ++ [(name, s, (length (flats gs) + length (long_entries name))%nat)]) as El.
  { rewrite listing_app. cbn [listing]. by rewrite long_entries_name, length_reverse. }
  exists s, (long_entries name), d1, (32 * Z.of_nat (length (flats gs) + length (long_entries name))), d2, d3. split; [done|]. split; [done|]. split; [|split; [done|split; [done|split; [done|split; [by fold s in S2; rewrite S2|]]]]].
  - eexists. split; [done|]. rewrite El. rewrite Z.mul_comm, Z.div_mul, Nat2Z.id by lia. done.
  - rewrite E3, El, find_named_snoc. cbn [fst snd]. destruct (find_named req (listing 0 gs)) as [y|]; [done|]. by destruct (FatDirectory.same_name name req).
Qed.

(** ** Opening a directory *)
Lemma set_hint_loop_ok es n : (n <= length es)%nat -> (forall j e, (j < n)%nat -> es !! j = Some e -> FATDirEnt.last_and_unused e = false) -> tail_ok (drop n es) ->
  forall fuel i d, entries d es -> (i <= n)%nat -> (n - i < fuel)%nat -> exists d', FatDirectory.set_hint_loop fuel (fwd ModeEnum i) d = Ret d' /\ entries d' es /\ df_hint d' = 32 * Z.of_nat n /\ df_is_dir d' = df_is_dir d.
Proof.
  intros Hn Hlast Ht. induction fuel as [|fuel IH]; intros i d He Hi Hf; [lia|]. cbn [FatDirectory.set_hint_loop]. destruct (enum_next d es i He ltac:(lia)) as (d1 & Hd1 & ->). pose proof (entries_same _ _ _ He Hd1) as He1. destruct Hd1 as [_ _ [_ K2 _] _]. cbn [mbind outcome_bind]. destruct (es !! i) as [e|] eqn:Ei.
  - pose proof (lookup_lt_Some _ _ _ Ei). rewrite decide_True by done. destruct (decide (i < n)%nat) as [Hlt|Hge].
    + rewrite (Hlast i e Hlt Ei). destruct (IH (S i) d1 He1) as (d2 & -> & H2 & H3 & H4); [lia|lia|]. exists d2. by rewrite H4, K2.
    + replace i with n in * by lia. rewrite (drop_S _ _ _ Ei) in Ht. cbn in Ht. rewrite Ht. cbn [fwd it_offset pos unwrap mbind outcome_bind]. destruct (set_hint_entries d1 es (32 * Z.of_nat n) He1) as (H1 & H2 & H3 & _). eexists. split; [done|]. by rewrite H2, H3, K2.
  - apply lookup_ge_None in Ei. replace i with n in * by lia. destruct (entries_size _ _ He1) as [Hs _]. destruct (set_hint_entries d1 es (df_size d1) He1) as (H1 & H2 & H3 & _). eexists. split; [done|]. split; [done|]. rewrite H2, H3, K2, Hs. split; [f_equal; lia|done].
Qed.
Lemma group_not_last gs e : Forall group_ok gs -> e ∈ flats gs -> FATDirEnt.last_and_unused e = false.
Proof.
  intros Hg He. apply list_elem_of_bind in He as (g & He & Hin). rewrite Forall_forall in Hg. specialize (Hg g Hin). destruct g as [e'|l s]; cbn [flat] in He.
  - apply list_elem_of_singleton in He as ->. by apply gap_not_last.
  - destruct Hg as (Hl & _ & Hu & _). assert (FATDirEnt.unused e = false) as H. { apply elem_of_app in He as [He|He%list_elem_of_singleton]; [|by subst]. apply list_elem_of_lookup_1 in He as [i He]. by destruct (Hl i e He) as (? & _). } unfold FATDirEnt.unused in H. by apply orb_false_iff in H as [? _].
Qed.
(** Opening a directory finds where its entries end. *)
Lemma set_hint_ok d gs tl : Forall group_ok gs -> entries d (flats gs ++ tl) -> tail_ok tl -> df_is_dir d = true -> exists d', FatDirectory.set_hint d = Ret d' /\ dir_ok d' gs.
Proof.
  intros Hg He Ht Hd. destruct (set_hint_loop_ok (flats gs ++ tl) (length (flats gs))) with (fuel := DirIter.rounds d) (i := O) (d := d) as (d' & E & He' & Hh & Hd'); [rewrite length_app; lia| |by rewrite drop_app_length|done|lia|rewrite (rounds_eq _ _ He), length_app; lia|].
  - intros j e Hj Hje. rewrite lookup_app_l in Hje by done. apply (group_not_last gs); [done|]. by eapply list_elem_of_lookup_2.
  - exists d'. split; [exact E|]. split; [done|by exists tl|done|by rewrite Hd'].
Qed.

(** ** Removing a file *)
(** The entry the backward iterator finds from entry [p] on, with its number. *)
Fixpoint back (es : list (list Z)) (p : nat) : option (list Z * nat) :=
  match p with
  | O => None
  | S p => match es !! p with Some e => if FATDirEnt.unused e then back es p else Some (e, p) | None => None end
  end.
Lemma used_prev d es : forall p fuel, entries d es -> (p <= length es)%nat -> (p < fuel)%nat -> exists d', same d d' /\
  DirIter.next fuel (bwd ModeUsed p) d = match back es p with Some (e, k) => Ret (Some e, bwd ModeUsed k, d') | None => Ret (None, MkIter None ModeUsed false, d') end.
Proof.
  intros p. revert d. induction p as [|p IH]; intros d fuel He Hp Hf; (destruct fuel as [|fuel]; [lia|]); cbn [DirIter.next back].
  - exists d. split; [by apply same_refl, He|done].
  - destruct (step_bwd d es ModeUsed p He ltac:(lia)) as (d1 & e & Hd1 & Ee & ->). cbn [mbind outcome_bind bwd it_mode DirIter.check_dir_ent_legality]. rewrite Ee. destruct (FATDirEnt.unused e); cbn [negb]; [|by exists d1].
    destruct (IH d1 fuel) as (d2 & Hd2 & E2); [by eapply entries_same|lia|lia|]. exists d2. split; [by eapply same_trans|done].
Qed.
Lemma unused_entry_ok : entry_ok FATDirEnt.unused_not_last_entry /\ FATDirEnt.unused_not_last FATDirEnt.unused_not_last_entry = true.
Proof. split; [split; [done|by apply (bool_decide_unpack _)]|done]. Qed.
Definition U : list Z := FATDirEnt.unused_not_last_entry.
Lemma current_ok d es m p e : entries d es -> es !! p = Some e -> exists d', same d d' /\ DirIter.current_clone (bwd m p) d = Ret (Some e, d').
Proof.
  intros He Ee. destruct (read_entry d es p e He Ee) as (d' & E & Hs). exists d'. split; [done|]. unfold DirIter.current_clone. cbn [bwd it_offset]. destruct (entries_size d es He) as [-> _]. pose proof (lookup_lt_Some _ _ _ Ee). rewrite (proj2 (Z.ltb_lt _ _)) by lia. by rewrite E.
Qed.
Lemma insert_mid (a : list (list Z)) x b y : <[length a := y]> (a ++ x :: b) = a ++ y :: b.
Proof. rewrite insert_app_r_alt by done. by rewrite Nat.sub_diag. Qed.
(** The long entries [l] stand behind [a]; the iterator is at the last of them. *)
Lemma remove_long_ok a b n : forall l fuel d, entries d (a ++ l ++ b) -> l <> [] -> (length l < fuel)%nat -> (forall i e, l !! i = Some e -> long_ok n i e) ->
  exists d', FatDirectory.remove_long_loop fuel (bwd ModeUsed (length a + length l - 1)) d = Ret (Ok d') /\ entries d' (a ++ replicate (length l) U ++ b) /\ kept d d'.
Proof.
  intros l. revert b. induction l as [|e l IH] using rev_ind; intros b fuel d He Hne Hf Hl; [done|]. clear Hne. destruct fuel as [|fuel]; [lia|]. cbn [FatDirectory.remove_long_loop]. rewrite length_app in *. cbn [length] in *.
  replace (length a + (length l + 1) - 1)%nat with (length (a ++ l)) by (rewrite length_app; lia). assert (a ++ (l ++ [e]) ++ b = (a ++ l) ++ e :: b) as Es by (by rewrite <- !app_assoc). rewrite Es in He.
  destruct (current_ok d _ ModeUsed (length (a ++ l)) e He) as (d1 & Hd1 & ->); [by apply list_lookup_middle|]. cbn [mbind outcome_bind]. destruct (Hl (length l) e) as (_ & Lg & La & _); [by apply list_lookup_middle|]. rewrite Lg, La. cbn [negb].
  destruct unused_entry_ok as [Hu _]. fold U. destruct (write_current d1 _ (bwd ModeUsed (length (a ++ l))) (length (a ++ l)) U (entries_same _ _ _ He Hd1)) as (d2 & -> & He2 & Hk2 & _); [done|rewrite !length_app; cbn [length]; lia|done|]. cbn [mbind outcome_bind]. rewrite insert_mid in He2.
  destruct (used_prev d2 _ (length (a ++ l)) (DirIter.rounds d2) He2) as (d3 & Hd3 & ->); [rewrite !length_app; lia|rewrite (rounds_eq _ _ He2), !length_app; lia|]. pose proof (entries_same _ _ _ He2 Hd3) as He3.
  assert (kept d d3) as Hk3 by (eapply dir_kept_trans; [apply Hd1|]; eapply dir_kept_trans; [done|apply Hd3]). destruct l as [|e0 l0] eqn:El.
  - cbn [length Nat.eqb]. exists d3. split; [by case_match; [destruct p|]|]. rewrite app_nil_r in He3. by split.
  - rewrite <- El in *. assert (0 < length l)%nat as Hpos by (rewrite El; cbn; lia). destruct (exists_last (l := l)) as (l1 & e1 & E1); [by rewrite El|]. assert (back ((a ++ l) ++ U :: b) (length (a ++ l)) = Some (e1, (length (a ++ l) - 1)%nat)) as ->.
    { rewrite E1. rewrite !length_app. cbn [length]. replace (length a + (length l1 + 1))%nat with (S (length (a ++ l1))) by (rewrite length_app; lia). cbn [back]. replace ((a ++ l1 ++ [e1]) ++ U :: b) with ((a ++ l1) ++ e1 :: U :: b) by (by rewrite <- !app_assoc).
      rewrite list_lookup_middle by done. destruct (Hl (length l1) e1) as (-> & _); [rewrite E1, <- app_assoc; by apply list_lookup_middle|]. do 2 f_equal. rewrite Nat.sub_succ, Nat.sub_0_r. done. }
    cbn [mbind outcome_bind]. replace (length l =? 0)%nat with false by (symmetry; apply Nat.eqb_neq; lia). rewrite <- app_assoc in He3. destruct (IH (U :: b) fuel d3 He3) as (d4 & E4 & He4 & Hk4); [by rewrite El|lia|intros i x Hx; apply Hl; by apply lookup_app_l_Some|].
    rewrite length_app, E4. exists d4. split; [done|]. split; [|by eapply dir_kept_trans]. rewrite replicate_add. cbn [replicate]. by rewrite <- !app_assoc.
Qed.

Definition LAST : list Z := FATDirEnt.unused_and_last_entry.
Lemma flats_snoc gs g : flats (gs ++ [g]) = flats gs ++ flat g.
Proof. rewrite flats_app. unfold flats at 2. by rewrite bind_cons, app_nil_r. Qed.
Lemma gap_unused e : FATDirEnt.unused_not_last e = true -> FATDirEnt.unused e = true.
Proof. intros H. unfold FATDirEnt.unused. rewrite H. apply orb_true_r. Qed.
(** The last entry is not an unused one. *)
Definition ends_used (gs : list group) : Prop := match last gs with Some (Gap _) => False | _ => True end.
(** The hint goes back over unused entries. *)
Lemma lower_hint_ok gs : forall fuel d tl, Forall group_ok gs -> entries d (flats gs ++ tl) -> df_hint d = 32 * Z.of_nat (length (flats gs)) -> (length gs < fuel)%nat ->
  exists d' gs1 gaps, FatDirectory.lower_hint_loop fuel (bwd ModeEnum (length (flats gs))) d = Ret d' /\ gs = gs1 ++ gaps /\ Forall is_gap gaps /\ entries d' (flats gs1 ++ replicate (length gaps) LAST ++ tl) /\
    df_hint d' = 32 * Z.of_nat (length (flats gs1)) /\ df_is_dir d' = df_is_dir d /\ df_clus_size d' = df_clus_size d /\ ends_used gs1.
Proof.
  induction gs as [|g gs IH] using rev_ind; intros fuel d tl Hg He Hh Hf; (destruct fuel as [|fuel]; [lia|]); cbn [FatDirectory.lower_hint_loop].
  - destruct (set_hint_entries d _ 0 He) as (He1 & H1 & H2 & H3). exists (df_set_hint d 0), [], []. unfold DirIter.rounds. cbn. by split_and!.
  - apply Forall_app in Hg as [Hg Hg1]. apply Forall_cons in Hg1 as [Hg1 _]. rewrite flats_snoc in *. rewrite length_app in *. destruct g as [e|l s]; cbn [flat length] in *.
    + cbn in Hg1. rewrite <- app_assoc in He. cbn [app] in He. replace (length (flats gs) + 1)%nat with (S (length (flats gs))) by lia. destruct (enum_prev d _ (length (flats gs)) He) as (d1 & e1 & Hd1 & Ee & ->); [rewrite length_app; cbn [length]; lia|].
      rewrite list_lookup_middle in Ee by done. injection Ee as <-. cbn [mbind outcome_bind]. rewrite gap_unused by done. cbn [bwd it_offset unwrap mbind outcome_bind]. fold LAST. set (p := 32 * Z.of_nat (length (flats gs))) in *.
      destruct (set_hint_entries d1 _ p (entries_same _ _ _ He Hd1)) as (He2 & H2 & H3 & H4). set (d2 := df_set_hint d1 p) in *. destruct last_entry_ok as (L1 & L2 & _).
      destruct (write_current d2 _ (bwd ModeEnum (length (flats gs))) (length (flats gs)) LAST He2) as (d3 & E3 & He3 & [K1 K2 K3] & _); [done|rewrite length_app; cbn [length]; lia|by split|]. change (MkIter (Some p) ModeEnum false) with (bwd ModeEnum (length (flats gs))). rewrite E3. cbn [mbind outcome_bind]. rewrite insert_mid in He3.
      destruct (IH fuel d3 (LAST :: tl) Hg He3) as (d4 & gs1 & gaps & E4 & -> & G1 & G2 & G3 & G4 & G5 & G6); [by rewrite K1, H2|lia|]. exists d4, gs1, (gaps ++ [Gap e]). split; [done|]. split; [by rewrite app_assoc|]. split; [apply Forall_app; split; [done|by constructor]|].
      destruct Hd1 as [_ _ [Q1 Q2 Q3] _]. split; [|split; [done|split; [congruence|split; [congruence|done]]]]. rewrite length_app, replicate_add. cbn [length replicate]. by rewrite <- app_assoc.
    + destruct Hg1 as (_ & _ & Hu & _). rewrite length_app in *. cbn [length] in *. replace (length (flats gs) + (length l + 1))%nat with (S (length (flats gs ++ l))) by (rewrite length_app; lia).
      assert ((flats gs ++ l ++ [s]) ++ tl = (flats gs ++ l) ++ s :: tl) as Es by (by rewrite <- !app_assoc). rewrite Es in He. destruct (enum_prev d _ (length (flats gs ++ l)) He) as (d1 & e1 & Hd1 & Ee & ->); [rewrite (length_app (flats gs ++ l)); cbn [length]; lia|].
      rewrite list_lookup_middle in Ee by done. injection Ee as <-. cbn [mbind outcome_bind]. rewrite Hu. exists d1, (gs ++ [Item l s]), []. split; [done|]. split; [by rewrite app_nil_r|]. split; [constructor|]. rewrite flats_snoc. cbn [flat length replicate app]. rewrite Es.
      split; [by eapply entries_same|]. destruct Hd1 as [_ _ [Q1 Q2 Q3] _]. rewrite Q1, !length_app. cbn [length]. unfold ends_used. by rewrite last_snoc.
Qed.
Lemma div_ceil_eq m c : 0 <= m -> 0 < c -> m + c <= 2 ^ 32 -> FatInode.div_ceil m c = (m + c - 1) / c.
Proof.
  intros Hm Hc Hs. unfold FatInode.div_ceil. destruct (decide (m = 0)) as [->|].
  - unfold wrap. replace (((0 - 1) mod 2 ^ 32 + c) mod 2 ^ 32) with (c - 1); [f_equal|]. change ((0 - 1) mod 2 ^ 32) with (2 ^ 32 - 1). replace (2 ^ 32 - 1 + c) with (c - 1 + 1 * 2 ^ 32) by lia. rewrite Z.mod_add, Z.mod_small by lia. done.
  - rewrite (wrap_small 32 (m - 1)) by (unfold in_range; lia). rewrite wrap_small by (unfold in_range; lia). f_equal. lia.
Qed.
Lemma concat_cut es k : Forall (fun e : list Z => length e = 32%nat) es -> take (32 * k) (concat es) = concat (take k es).
Proof.
  intros H. revert k. induction H as [|e es He Hes IH]; intros k; [by rewrite take_nil; cbn [concat]; rewrite take_nil|]. destruct k as [|k]; [done|]. cbn [concat take]. replace (32 * S k)%nat with (length e + 32 * k)%nat by lia. rewrite take_app_add. by rewrite IH.
Qed.
(** The size of a directory with [h] entries up to its hint: whole clusters, one at least. *)
Definition trimmed d (h : nat) : Z := Z.max ((32 * Z.of_nat h + df_clus_size d - 1) / df_clus_size d * df_clus_size d) (df_clus_size d).
Lemma shrink_ok d es h : entries d es -> df_hint d = 32 * Z.of_nat h -> (h <= length es)%nat -> (df_clus_size d | df_size d) -> 0 < df_size d ->
  exists d' k, FatDirectory.shrink_dir_size d = Ret d' /\ entries d' (take k es) /\ (h <= k)%nat /\ kept d d' /\ df_size d' = trimmed d h.
Proof.
  intros He Hh Hle [n Hn] Hpos. pose proof He as (Hok & Ec & L). destruct (dl_size d Hok) as (_ & Hb & Hc & [c Ecl] & _). destruct (entries_size d es He) as [Hs _]. unfold FatDirectory.shrink_dir_size. rewrite Hh. rewrite div_ceil_eq by lia. set (q := (32 * Z.of_nat h + df_clus_size d - 1) / df_clus_size d).
  assert (32 * Z.of_nat h <= q * df_clus_size d < 32 * Z.of_nat h + df_clus_size d) as Hq by (unfold q; Z.to_euclidean_division_equations; nia). rewrite wrap_small by (unfold in_range; nia). assert (q <= n) as Hqn by nia. set (new := Z.max (q * df_clus_size d) (df_clus_size d)).
  assert (0 < n) as Hn0 by (rewrite Hn in Hpos; nia). assert (new <= df_size d) as Hns by (apply Z.max_lub; rewrite Hn; [apply Z.mul_le_mono_nonneg_r; lia|nia]). destruct (dl_cut d (new - df_size d) Hok) as (d' & -> & Hok' & Hc' & Hk); [lia|lia|]. assert (exists k, new = 32 * Z.of_nat k) as [k Ek].
  { exists (Z.to_nat (Z.max q 1 * c)). rewrite Z2Nat.id by nia. unfold new. rewrite Ecl in *. nia. }
  exists d', k. split; [done|]. split; [|split; [lia|split; [done|]]].
  2: { destruct (dl_size d' Hok') as (-> & _). rewrite Hc', length_take. destruct (dl_size d Hok) as (El & _). fold q in new. change (trimmed d h) with new. lia. }
  split; [done|]. split; [|by apply Forall_take]. rewrite Hc', Ec. replace (Z.to_nat (df_size d + (new - df_size d))) with (32 * k)%nat by lia. by apply concat_cut.
Qed.
Lemma back_flats gs r : Forall group_ok gs -> match back (flats gs ++ r) (length (flats gs)) with Some (e, _) => FATDirEnt.is_long e = false | None => True end.
Proof.
  revert r. induction gs as [|g gs IH] using rev_ind; intros r Hg; [done|]. apply Forall_app in Hg as [Hg Hg1]. apply Forall_cons in Hg1 as [Hg1 _]. rewrite flats_snoc, length_app, <- app_assoc. destruct g as [e|l s]; cbn [flat].
  - cbn [length]. replace (length (flats gs) + 1)%nat with (S (length (flats gs))) by lia. cbn [back app]. rewrite list_lookup_middle by done. rewrite gap_unused by done. by apply IH.
  - rewrite length_app. cbn [length]. replace (length (flats gs) + (length l + 1))%nat with (S (length (flats gs ++ l))) by (rewrite length_app; lia). cbn [back]. replace (flats gs ++ (l ++ [s]) ++ r) with ((flats gs ++ l) ++ s :: r) by (by rewrite <- !app_assoc).
    rewrite list_lookup_middle by done. destruct Hg1 as (_ & _ & -> & H). done.
Qed.

Lemma dir_trim d gs tl : Forall group_ok gs -> entries d (flats gs ++ tl) -> tail_ok tl -> df_hint d = 32 * Z.of_nat (length (flats gs)) -> df_is_dir d = true -> (df_clus_size d | df_size d) -> 0 < df_size d ->
  exists d' gs', (d4 ← FatDirectory.lower_hint_loop (DirIter.rounds d) (bwd ModeEnum (length (flats gs))) d; d5 ← FatDirectory.shrink_dir_size d4; Ret (Ok (E := unit) d5)) = Ret (Ok d') /\ dir_ok d' gs' /\ listing 0 gs' = listing 0 gs /\ df_clus_size d' = df_clus_size d /\ ends_used gs' /\ df_size d' = trimmed d (length (flats gs')).
Proof.
  intros Hg He Ht Hh Hd Hdiv Hpos. destruct (lower_hint_ok gs (DirIter.rounds d) d tl Hg He Hh) as (d4 & gs1 & gaps & -> & Egs & Hgap & He4 & Hh4 & Hd4 & Hc4 & Hend); [rewrite (rounds_eq _ _ He), length_app; pose proof (groups_length gs); lia|]. cbn [mbind outcome_bind].
  assert (df_size d4 = df_size d) as Hs4. { destruct (entries_size _ _ He) as [-> _], (entries_size _ _ He4) as [-> _]. rewrite Egs, flats_app, !length_app, length_replicate, (gaps_length gaps) by done. lia. }
  destruct (shrink_ok d4 _ (length (flats gs1)) He4 Hh4) as (d5 & k & -> & He5 & Hk & [K1 K2 K3] & Htr); [rewrite length_app; lia|by rewrite Hc4, Hs4|by rewrite Hs4|]. cbn [mbind outcome_bind]. exists d5, gs1. split; [done|]. split; [|split; [|split; [congruence|split; [done|]]]].
  - split; [rewrite Egs in Hg; by apply Forall_app in Hg as [? _]| |by rewrite K1|by rewrite K2, Hd4]. exists (take (k - length (flats gs1)) (replicate (length gaps) LAST ++ tl)). split; [rewrite take_app in He5; by rewrite (take_ge (flats gs1)) in He5|].
    destruct last_entry_ok as (_ & _ & Hl). destruct (length gaps) as [|m]; cbn [replicate app]; [destruct tl as [|e tl]; [by rewrite take_nil|]|]; destruct (k - length (flats gs1))%nat; done.
  - rewrite Egs, listing_app, (listing_none gaps), app_nil_r by done. done.
  - rewrite Htr. unfold trimmed. by rewrite Hc4.
Qed.
Lemma listing_gap_run n : forall k gs, listing k (replicate n (Gap U) ++ gs) = listing (k + n) gs.
Proof. induction n as [|n IH]; intros k gs; cbn [replicate app listing]; [by rewrite Nat.add_0_r|]. rewrite IH. f_equal. lia. Qed.
Lemma flats_gap_run n : flats (replicate n (Gap U)) = replicate n U.
Proof. induction n as [|n IH]; [done|]. cbn [replicate]. unfold flats. rewrite bind_cons. cbn [flat app]. by rewrite <- IH. Qed.
(** The groups after the item behind [g1] is gone, before the hint is lowered. *)
Lemma holes_ok g1 l s g2 n : n = (length l + 1)%nat -> Forall group_ok (g1 ++ Item l s :: g2) -> let gs' := g1 ++ replicate n (Gap U) ++ g2 in Forall group_ok gs' /\ flats gs' = flats g1 ++ replicate n U ++ flats g2 /\
  length (flats gs') = length (flats (g1 ++ Item l s :: g2)) /\ listing 0 gs' = delete (length (listing 0 g1)) (listing 0 (g1 ++ Item l s :: g2)).
Proof.
  intros Hn Hg gs'. apply Forall_app in Hg as [Hg1 Hg2]. apply Forall_cons in Hg2 as [_ Hg2]. assert (flats gs' = flats g1 ++ replicate n U ++ flats g2) as Ef by (unfold gs'; by rewrite !flats_app, flats_gap_run). split; [|split; [done|split]].
  - apply Forall_app. split; [done|]. apply Forall_app. split; [|done]. apply Forall_replicate. apply unused_entry_ok.
  - rewrite Ef, flats_app, !length_app, length_replicate. unfold flats at 4. rewrite bind_cons, length_app. cbn [flat]. rewrite length_app. cbn [length]. fold (flats g2). lia.
  - unfold gs'. rewrite (listing_app g1 (replicate n (Gap U) ++ g2)), (listing_app g1 (Item l s :: g2)), listing_gap_run. cbn [listing]. rewrite Nat.add_0_l, delete_middle. do 2 f_equal. lia.
Qed.
(** Removing the file [Item l s]. Without long entries only its short entry is marked. *)
Lemma dir_delete_ok d g1 l s g2 : let gs := g1 ++ Item l s :: g2 in dir_ok d gs -> (df_clus_size d | df_size d) ->
  exists d' gs', FatDirectory.delete_dir_ent d (32 * Z.of_nat (length (flats g1) + length l)) = Ret (Ok d') /\ dir_ok d' gs' /\ listing 0 gs' = delete (length (listing 0 g1)) (listing 0 gs) /\
    df_clus_size d' = df_clus_size d /\ match l with [] => df_hint d' = df_hint d /\ df_size d' = df_size d | _ => ends_used gs' /\ df_size d' = trimmed d (length (flats gs')) end.
Proof.
  intros gs [Hg (tl & He & Ht) Hh Hd] Hdiv. subst gs. destruct (holes_ok g1 l s g2 (length l + 1) eq_refl Hg) as (Hg' & Ef & Lf & El). set (gs' := g1 ++ replicate (length l + 1) (Gap U) ++ g2) in *.
  assert (flats (g1 ++ Item l s :: g2) = (flats g1 ++ l) ++ s :: flats g2) as Efl by (rewrite flats_app; unfold flats at 2; rewrite bind_cons; cbn [flat]; fold (flats g2); by rewrite <- !app_assoc). rewrite <- Lf in Hh. rewrite <- El. rewrite Efl, <- app_assoc in He. cbn [app] in He.
  unfold FatDirectory.delete_dir_ent, FatDirectory.dir_iter. rewrite <- length_app. set (a := flats g1 ++ l) in *. change (MkIter (Some (32 * Z.of_nat (length a))) ModeUsed false) with (bwd ModeUsed (length a)). fold U. destruct unused_entry_ok as [Hu _].
  destruct (write_current d _ (bwd ModeUsed (length a)) (length a) U He) as (d1 & -> & He1 & [K1 K2 K3] & _); [done|rewrite length_app; cbn [length]; lia|done|]. cbn [mbind outcome_bind]. rewrite insert_mid in He1.
  destruct (used_prev d1 _ (length a) (DirIter.rounds d1) He1) as (d2 & Hd2 & ->); [rewrite length_app; lia|rewrite (rounds_eq _ _ He1), length_app; lia|]. pose proof (entries_same _ _ _ He1 Hd2) as He2. destruct Hd2 as [_ _ [Q1 Q2 Q3] _].
  destruct (list_eq_nil_dec l) as [->|Hne].
  - assert (entries d2 (flats gs' ++ tl)) as He2' by (rewrite Ef, <- !app_assoc; unfold a in He2; by rewrite app_nil_r in He2). assert (dir_ok d2 gs') as Hok by (split; [done|by exists tl|by rewrite Q1, K1|by rewrite Q2, K2]). exists d2, gs'.
    pose proof (back_flats g1 (U :: flats g2 ++ tl)) as Hb. apply Forall_app in Hg as [Hg1 _]. specialize (Hb Hg1). unfold a. rewrite app_nil_r. destruct (back _ _) as [[e p]|]; cbn [mbind outcome_bind]; [rewrite Hb|]; (split; [done|split; [done|split; [done|split; [congruence|split; [congruence|]]]]]); destruct (entries_size _ _ He) as [-> _], (entries_size _ _ He2) as [-> _]; by rewrite !length_app.
  - destruct (exists_last Hne) as (l1 & e1 & E1). assert (group_ok (Item l s)) as (Hl & Hn & _) by (apply Forall_app in Hg as [_ Hg]; by apply Forall_cons in Hg as [? _]).
    assert (back (a ++ U :: flats g2 ++ tl) (length a) = Some (e1, (length (flats g1) + length l - 1)%nat)) as ->.
    { unfold a. rewrite E1, !length_app. cbn [length]. replace (length (flats g1) + (length l1 + 1))%nat with (S (length (flats g1 ++ l1))) by (rewrite length_app; lia). cbn [back]. replace ((flats g1 ++ l1 ++ [e1]) ++ U :: flats g2 ++ tl) with ((flats g1 ++ l1) ++ e1 :: U :: flats g2 ++ tl) by (by rewrite <- !app_assoc).
      rewrite list_lookup_middle by done. destruct (Hl (length l1) e1) as (-> & _); [rewrite E1; by apply list_lookup_middle|]. do 2 f_equal. rewrite length_app. lia. }
    cbn [mbind outcome_bind]. destruct (Hl (length l1) e1) as (_ & -> & _); [rewrite E1; by apply list_lookup_middle|]. cbn [negb]. unfold a in He2. rewrite <- app_assoc in He2.
    destruct (remove_long_ok (flats g1) (U :: flats g2 ++ tl) (length l) l (DirIter.rounds d2) d2 He2 Hne) as (d3 & -> & He3 & [P1 P2 P3]); [rewrite (rounds_eq _ _ He2), !length_app; lia|done|]. cbn [mbind outcome_bind].
    assert (entries d3 (flats gs' ++ tl)) as He3' by (rewrite Ef, replicate_add; cbn [replicate]; rewrite <- !app_assoc; exact He3). assert (df_hint d3 = 32 * Z.of_nat (length (flats gs'))) as Hh3 by congruence. rewrite Hh3. change (MkIter (Some (32 * Z.of_nat (length (flats gs')))) ModeEnum false) with (bwd ModeEnum (length (flats gs'))).
    assert (df_size d3 = df_size d) as Hs3. { destruct (entries_size _ _ He) as [-> _], (entries_size _ _ He3') as [-> _]. rewrite (length_app (flats gs')), Lf, Efl, !length_app. cbn [length]. rewrite length_app. lia. }
    destruct (dir_trim d3 gs' tl Hg' He3' Ht Hh3) as (d' & gs2 & -> & Hok' & El' & Hc' & Hend & Hsz); [congruence|by rewrite Hs3, P3, Q3, K3| |].
    { destruct (entries_size _ _ He) as [Hs _]. rewrite Hs3, Hs, length_app. cbn [length]. lia. }
    assert (df_clus_size d3 = df_clus_size d) as Ec by congruence. exists d', gs2. split; [done|]. split; [done|]. split; [done|]. split; [congruence|]. destruct l; [done|]. split; [done|]. rewrite Hsz. unfold trimmed. by rewrite Ec.
Qed.

(** ** What dropping an inode and reading all entries do *)
Lemma entry_bytes d es k e : entries d es -> es !! k = Some e -> entry_ok e.
Proof.
  intros (Hok & Ec & L) Hk. split; [by apply (Forall_lookup_1 _ _ _ _ L Hk)|]. destruct (dl_size d Hok) as (_ & _ & _ & _ & Hb). rewrite Ec, (concat_split es k e Hk) in Hb. apply Forall_app in Hb as [_ Hb]. by apply Forall_app in Hb as [? _].
Qed.
(** Dropping the inode of a file does not store its size or first cluster: the directory's entries are what
    they were, whatever the two are. *)
Lemma drop_stores_nothing d es k e file_size first_clus : entries d es -> es !! k = Some e -> FATDirEnt.is_long e = false -> exists d', FatDirectory.drop_kept d (32 * Z.of_nat k) file_size first_clus = Ret d' /\ entries d' es.
Proof.
  intros He Ek Hl. destruct (read_entry d es k e He Ek) as (d1 & E1 & Hd1). pose proof (entries_same _ _ _ He Hd1) as He1. destruct (entry_bytes d es k e He Ek) as [Le Hb]. pose proof (lookup_lt_Some _ _ _ Ek) as Hlt. destruct (write_entry d1 es k e He1 Hlt Le Hb) as (d2 & E2 & He2 & _).
  exists d2. rewrite list_insert_id in He2 by done. split; [|done]. unfold FatDirectory.drop_kept, FatDirectory.get_dir_ent, FatDirectory.set_dir_ent. rewrite E1. cbn [mbind outcome_bind]. rewrite Z.eqb_refl. cbn [negb mbind outcome_bind]. unfold FATDirEnt.get_short_ent. rewrite Hl. cbn [unwrap mbind outcome_bind].
  rewrite E2. cbn [mbind outcome_bind]. by rewrite Le.
Qed.
(** [get_all_dir_ent] never ends for a file with more than one long entry: its loop does not advance. *)
Lemma get_long_forever d es p e : entries d es -> es !! p = Some e -> FATDirEnt.is_long e = true -> FATDirEnt.is_last_long_dir_ent e = false ->
  forall fuel acc, exists d', FatDirectory.get_long_loop fuel (bwd ModeEnum p) d acc = Ret (None, d').
Proof.
  intros He Ep Hl Hn fuel. revert d He. induction fuel as [|fuel IH]; intros d He acc; [by exists d|]. cbn [FatDirectory.get_long_loop]. destruct (current_ok d es ModeEnum p e He Ep) as (d1 & Hd1 & ->). cbn [mbind outcome_bind]. rewrite Hl, Hn. cbn [negb].
  apply IH. by eapply entries_same.
Qed.
Lemma get_all_forever d es p s e : entries d es -> es !! S p = Some s -> FATDirEnt.is_long s = false -> es !! p = Some e -> FATDirEnt.is_long e = true -> FATDirEnt.is_last_long_dir_ent e = false ->
  forall fuel, exists d', FatDirectory.get_all_dir_ent fuel d (32 * Z.of_nat (S p)) = Ret (None, d').
Proof.
  intros He Es Hs Ep Hl Hn fuel. unfold FatDirectory.get_all_dir_ent, FatDirectory.dir_iter. change (MkIter (Some (32 * Z.of_nat (S p))) ModeEnum false) with (bwd ModeEnum (S p)). destruct (current_ok d es ModeEnum (S p) s He Es) as (d1 & Hd1 & ->). cbn [mbind outcome_bind unwrap]. unfold FATDirEnt.get_short_ent. rewrite Hs. cbn [mbind outcome_bind unwrap].
  pose proof (entries_same _ _ _ He Hd1) as He1. pose proof (lookup_lt_Some _ _ _ Ep). destruct (enum_prev d1 es p He1 ltac:(done)) as (d2 & e' & Hd2 & Ee & ->). rewrite Ep in Ee. injection Ee as <-. cbn [mbind outcome_bind]. rewrite Hl. cbn [negb].
  destruct (get_long_forever d2 es p e (entries_same _ _ _ He1 Hd2) Ep Hl Hn fuel []) as (d3 & ->). by exists d3.
Qed.
End Directory.
