(* ===== verification/FatDisk.v ===== *)
(** * FatDisk: directories kept in files of the disk

    The inode of [FatFile] as the file a directory of [FatDir] is kept in: what [FatDir] relies on is
    proved of the clusters, the page cache and the block cache below. *)
From S2P Require Import Prelude Bytes Address PageStore BlockCache DiskStore PageCache Fat FatFile FatLayout FatDir.
Import FatInode.

Record DirInode (S : Type) : Type := MkDir { dn_fs : EasyFileSystem; dn_inode : FatInode; dn_store : S }.
Arguments MkDir {S}. Arguments dn_fs {S}. Arguments dn_inode {S}. Arguments dn_store {S}.
Definition with_dir_hint (f : FatInode) (h : Z) : FatInode := MkInode (size f) (clus_list f) h (file_cache_mgr f).

Section Instance_.
Context {S : Type} `{!BlockStore S, !RawStore S} {meta data : Z -> Prop} {ok : S -> Prop} `{!DiskStore S meta data ok}.
Variable pr : pressure.
Implicit Types (d : DirInode S) (e : EasyFileSystem) (f : FatInode) (s : S).

Definition dir_inode : DirFile (DirInode S) := {|
  df_is_dir := fun _ => true;
  df_size := fun d => size (dn_inode d);
  df_clus_size := fun d => EasyFileSystem.clus_size (dn_fs d);
  df_hint := fun d => dir_hint (dn_inode d);
  df_set_hint := fun d h => MkDir (dn_fs d) (with_dir_hint (dn_inode d) h) (dn_store d);
  df_read := fun d off buf => '(n, b, f, s) ← read_at_block_cache pr (dn_fs d) (dn_inode d) (dn_store d) off buf; Ret (n, b, MkDir (dn_fs d) f s);
  df_write := fun d off buf => '(n, e, f, s) ← write_at_block_cache pr (dn_fs d) (dn_inode d) (dn_store d) off buf; Ret (n, MkDir e f s);
  df_modify_size := fun d diff => '(e, f, s) ← modify_size pr (dn_fs d) (dn_inode d) (dn_store d) diff false; Ret (MkDir e f s);
|}.
#[local] Existing Instance dir_inode.

(** [from_fat_ent]: the inode behind a short entry; a directory's hint is computed. [None] is a chain that is
    longer than [fuel]. *)
Definition from_fat_ent (fuel : nat) (e : EasyFileSystem) (s : S) (ent : list Z) : outcome (option FatInode * S) :=
  '(o, s1) ← FatInode.new fuel e s (Short.get_first_clus ent) (if Short.is_file ent then Some (Short.file_size ent) else None);
  match o with
  | None => Ret (None, s1)
  | Some f => if Short.is_dir ent then d ← FatDirectory.set_hint (MkDir e f s1); Ret (Some (dn_inode d), dn_store d) else Ret (Some f, s1)
  end.
(** [root_inode] *)
Definition root_inode (fuel : nat) (e : EasyFileSystem) (s : S) : outcome (option (DirInode S)) :=
  '(o, s1) ← FatInode.new fuel e s (root_clus e) None;
  match o with
  | None => Ret None
  | Some f => d ← FatDirectory.set_hint (MkDir e f s1); Ret (Some d)
  end.
(** [create_lock]: the directory afterwards, the offset of the new short entry and the new inode. [None] is a
    search for a short name that still runs, or a chain longer than [fuel]. *)
Definition create (fuel : nat) (d : DirInode S) (name : str) (file_type : DiskInodeType) : outcome (option (Result (DirInode S * Z * list Z * FatInode) unit)) :=
  if 256 <=? str_len name then Ret (Some (Err tt))
  else
    '(c, d0) ← (match file_type with
                | Directory => '(l, ft, s) ← Fat.alloc (fat (dn_fs d)) (dn_store d) 1 None; Ret (head l, MkDir (with_fat (dn_fs d) ft) (dn_inode d) s)
                | _ => Ret (Some 0, d)
                end);
    match c with
    | None => Ret (Some (Err tt))
    | Some fst_clus =>
        '(o, d1) ← FatDirectory.gen_dir_ent 4446 d0 name fst_clus file_type;
        match o with
        | None => Ret None
        | Some (short_ent, long_ents) =>
            '(off, d2) ← FatDirectory.create_dir_ent (2 * Datatypes.S (length long_ents)) d1 short_ent long_ents;
            '(o2, s3) ← from_fat_ent fuel (dn_fs d2) (dn_store d2) short_ent;
            match o2 with
            | None => Ret None
            | Some f =>
                match file_type with
                | Directory =>
                    parent_clus ← unwrap (get_first_clus (dn_inode d2));
                    cur ← FatDirectory.fill_empty_dir (df_set_hint (MkDir (dn_fs d2) f s3) 64) fst_clus parent_clus;
                    Ret (Some (Ok (MkDir (dn_fs cur) (dn_inode d2) (dn_store cur), off, short_ent, dn_inode cur)))
                | _ => Ret (Some (Ok (MkDir (dn_fs d2) (dn_inode d2) s3, off, short_ent, f)))
                end
            end
        end
    end.
(** [unlink_lock] and [delete_self_dir_ent]: the entries leave the parent directory. *)
Definition unlink (parent : option (DirInode S * Z)) : outcome (option (DirInode S)) :=
  match parent with
  | None => Ret None
  | Some (par_inode, offset) =>
      r ← FatDirectory.delete_dir_ent par_inode offset;
      match r with Err _ => Panic | Ok d => Ret (Some d) end
  end.

Definition dir_disk d : Prop := disk_ok (meta := meta) (data := data) (ok := ok) (dn_fs d) (dn_inode d) (dn_store d) (entry (fat (dn_fs d)) (dn_store d)) /\ size (dn_inode d) < 2 ^ 31.
Definition dir_bytes d : list Z := content (dn_fs d) (dn_inode d) (dn_store d).
(** The table can supply the clusters for [m] more bytes. *)
Definition dir_room d (m : Z) : Prop := size (dn_inode d) + m < 2 ^ 31 /\
  exists l, supply (fat (dn_fs d)) (entry (fat (dn_fs d)) (dn_store d)) l /\ Z.of_nat (length l) = total_clus (dn_fs d) (size (dn_inode d) + m) - total_clus (dn_fs d) (size (dn_inode d)).

Lemma canon e f s E : disk_ok (meta := meta) (data := data) (ok := ok) e f s E -> disk_ok (meta := meta) (data := data) (ok := ok) e f s (entry (fat e) s) /\ forall l, supply (fat e) E l -> supply (fat e) (entry (fat e) s) l.
Proof.
  intros [Hf Hg [Hs Ht] Hfat Hch Hcnt Hbd]. assert (forall c, in_table (fat e) c -> entry (fat e) s c = E c) as Hx by done. split; [|intros l; apply supply_ext; [apply Hfat|done]].
  split; [done|done|by split|by apply (fat_ok_ext (valid := meta) (fat e) E)| |done|done]. apply (file_chain_ext (fat e) (fat e) E); [done| |done]. intros x Hxl. apply Hx. destruct Hch as (_ & _ & Hr). rewrite Forall_forall in Hr. specialize (Hr x Hxl). unfold in_table. lia.
Qed.
Lemma kept_room d f' s' m : dir_disk d -> FatInode.kept (meta := meta) (data := data) (ok := ok) (dn_fs d) (dn_inode d) (dn_store d) f' s' -> dir_disk (MkDir (dn_fs d) f' s') /\ (dir_room d m -> dir_room (MkDir (dn_fs d) f' s') m).
Proof.
  intros [Hd Hb] Hk. pose proof (kept_disk _ _ _ _ _ _ Hd Hk) as Hd'. destruct (canon _ _ _ _ Hd') as [Hc Hs]. destruct (FatInode.ke_same _ _ _ _ _ Hk) as (K1 & _). split; [split; [done|cbn; lia]|].
  intros (H1 & l & H2 & H3). split; [cbn; lia|]. exists l. cbn [dn_fs dn_inode dn_store]. split; [by apply Hs|by rewrite K1].
Qed.
Lemma content_bytes e f s E : disk_ok (meta := meta) (data := data) (ok := ok) e f s E -> Forall byte_ok (content e f s).
Proof.
  intros Hd. apply Forall_lookup. intros k b. rewrite content_lookup. case_decide as D; [|done]. intros [= <-]. destruct (byte_lookup e f s (Z.of_nat k) (di_file _ _ _ _ Hd)) as (v & -> & Hv); [|done].
  pose proof (fi_size _ _ _ (di_file _ _ _ _ Hd)). unfold capacity. lia.
Qed.
Lemma dir_size d : dir_disk d -> df_size d = Z.of_nat (length (dir_bytes d)) /\ df_size d < 2 ^ 31 /\ 32 <= df_clus_size d < 2 ^ 31 /\ (32 | df_clus_size d) /\ Forall byte_ok (dir_bytes d).
Proof.
  intros [Hd Hb]. pose proof (fi_size _ _ _ (di_file _ _ _ _ Hd)) as [[Hs _] _]. pose proof (fi_fs _ _ _ (di_file _ _ _ _ Hd)) as He. pose proof (clus_size_pos _ He). cbn. unfold dir_bytes. rewrite content_length by done.
  split; [done|]. split; [done|]. split; [lia|]. split; [|by eapply content_bytes]. rewrite (clus_size_eq _ He). exists (16 * sec_per_clus (dn_fs d)). unfold BLOCK_SZ. lia.
Qed.
Lemma dir_grow d n : dir_disk d -> 0 < n -> dir_room d n -> exists d' r, df_modify_size d n = Ret d' /\ dir_disk d' /\ dir_bytes d' = dir_bytes d ++ r /\ Z.of_nat (length r) = n /\ FatDir.kept d d' /\
  (forall m, 0 <= m -> dir_room d (n + m) -> dir_room d' m).
Proof.
  intros [Hd Hb] Hn (Hs & l & Hl & Ll). destruct d as [e f s]. cbn [dn_fs dn_inode dn_store] in *. pose proof (fi_fs _ _ _ (di_file _ _ _ _ Hd)) as He. pose proof (clus_size_pos e He) as Hcs. pose proof (fi_size _ _ _ (di_file _ _ _ _ Hd)) as [Hs1 Hs2].
  destruct (modify_size_grow pr e f s _ n l Hd Hn ltac:(lia) Hl Ll) as (e' & f' & s' & E' & Em & Hd' & [Ee Hp] & Hsz & _ & Hby & _ & _ & _ & Hh & Hrest). destruct (canon _ _ _ _ Hd') as [Hc Hsup].
  exists (MkDir e' f' s'), (bytes e' f' s' (size f) n). cbn [df_modify_size dir_inode dn_fs dn_inode dn_store]. rewrite Em. split; [done|]. split; [split; [done|cbn; lia]|]. split; [|split; [by apply bytes_length; lia|split]].
  - unfold dir_bytes, content. cbn [dn_fs dn_inode dn_store]. rewrite Hsz, file_bytes_app by lia. f_equal. apply list_eq. intros k. destruct (decide (Z.of_nat k < size f)) as [D|D].
    + rewrite !bytes_lookup by done. do 2 f_equal. apply Hby. unfold capacity. lia.
    + rewrite !lookup_ge_None_2; [done|pose proof (bytes_length e f s 0 (size f)); lia|pose proof (bytes_length e' f' s' 0 (size f)); lia].
  - split; cbn; [done|done|by rewrite Ee].
  - intros m Hm (Hs' & l' & Hl' & Ll'). cbn [dn_fs dn_inode dn_store] in *. split; [cbn; lia|]. exists (drop (length l) l'). cbn [dn_fs dn_inode dn_store]. pose proof (total_mono e (size f + n) (size f + (n + m)) He ltac:(lia) ltac:(lia)) as Hmono.
    assert (l = take (length l) l') as El. { apply (supply_same (fat e) _ l _ Hl); [apply (supply_prefix _ _ _ (drop (length l) l')); by rewrite take_drop|rewrite length_take; lia]. }
    split; [apply Hsup, Hrest; rewrite El at 1; by rewrite take_drop|]. rewrite length_drop, Hsz. assert (forall x, total_clus e' x = total_clus e x) as Ex by (intros x; by rewrite Ee). rewrite !Ex. replace (size f + n + m) with (size f + (n + m)) by lia. lia.
Qed.
Lemma dir_cut d n : dir_disk d -> n <= 0 -> 0 <= df_size d + n -> exists d', df_modify_size d n = Ret d' /\ dir_disk d' /\ dir_bytes d' = take (Z.to_nat (df_size d + n)) (dir_bytes d) /\ FatDir.kept d d'.
Proof.
  intros [Hd Hb] Hn Hs. destruct d as [e f s]. cbn [dn_fs dn_inode dn_store] in *. destruct (modify_size_cut pr e f s _ n false Hd Hn Hs) as (e' & f' & s' & E' & Em & Hd' & [Ee Hp] & Hsz & _ & Hby & _ & _ & _ & Hh). destruct (canon _ _ _ _ Hd') as [Hc _].
  exists (MkDir e' f' s'). cbn [df_modify_size dir_inode dn_fs dn_inode dn_store]. rewrite Em. split; [done|]. split; [split; [done|cbn; lia]|]. split; [|split; cbn; [done|done|by rewrite Ee]].
  unfold dir_bytes. cbn [dn_fs dn_inode dn_store df_size dir_inode]. apply list_eq. intros k. rewrite content_lookup, Hsz. case_decide as K.
  - rewrite lookup_take_lt, content_lookup, decide_True by lia. by rewrite Hby by lia.
  - by rewrite lookup_take_ge by lia.
Qed.
Hypothesis Hpr : pressure_ok pr.
Lemma dir_inode_ok : DirFileOk (DirInode S) dir_disk dir_bytes dir_room.
Proof.
  split.
  - apply dir_size.
  - intros d off buf [Hd Hb] Ho Hl n. destruct (read_at_ok pr _ _ _ _ off buf Hd Hpr Ho Hl) as (f' & s' & Er & Hk & Hc). exists (MkDir (dn_fs d) f' s'). cbn [df_read dir_inode]. rewrite Er. split; [done|]. destruct (kept_room d f' s' 0 (conj Hd Hb) Hk) as [H1 _]. split; [done|]. split; [done|]. split.
    + destruct (FatInode.ke_same _ _ _ _ _ Hk) as (_ & _ & K). by split.
    + intros m. by apply kept_room.
  - intros d off buf [Hd Hb] Ho Hl Hbuf. destruct (write_inside_ok pr _ _ _ _ off buf Hd Hpr Ho Hl Hbuf) as (f' & s' & Er & Hk & Hc). exists (MkDir (dn_fs d) f' s'). cbn [df_write dir_inode]. rewrite Er. split; [done|]. destruct (kept_room d f' s' 0 (conj Hd Hb) Hk) as [H1 _]. split; [done|]. split; [done|]. split.
    + destruct (FatInode.ke_same _ _ _ _ _ Hk) as (_ & _ & K). by split.
    + intros m. by apply kept_room.
  - intros [e f s] h [Hd Hb] d'. cbn in *. split; [|split; [done|split; [done|split; [done|split; [done|by intros m]]]]]. split; [|done]. destruct Hd as [Hf Hg Ht Hfat Hch Hcnt Hbd]. split; [|done|done|done|done|done|done]. destruct Hf as [H1 H2 H3 H4 H5]. by split.
  - apply dir_grow.
  - apply dir_cut.
  - intros d m m' [Hd Hb] (Hs & l & Hl & Ll) Hm. split; [lia|]. destruct d as [e f s]. cbn [dn_fs dn_inode dn_store] in *. exists (take (Z.to_nat (total_clus e (size f + m') - total_clus e (size f))) l). split; [eapply supply_prefix; by rewrite take_drop|].
    pose proof (fi_fs _ _ _ (di_file _ _ _ _ Hd)) as He. pose proof (clus_size_pos e He) as Hcs. pose proof (fi_size _ _ _ (di_file _ _ _ _ Hd)) as [Hs1 Hs2].
    pose proof (total_mono e (size f) (size f + m') He ltac:(lia) ltac:(lia)). pose proof (total_mono e (size f + m') (size f + m) He ltac:(lia) ltac:(lia)). rewrite length_take. lia.
Qed.
#[local] Existing Instance dir_inode_ok.

(** A file of one page. *)
Lemma content_page e f s E : disk_ok (meta := meta) (data := data) (ok := ok) e f s E -> size f <= PAGE_SIZE -> content e f s = take (Z.to_nat (size f)) (page e f s 0).
Proof.
  intros Hd Hp. apply list_eq. intros k. rewrite content_lookup. pose proof (fi_size _ _ _ (di_file _ _ _ _ Hd)). case_decide as D; [|by rewrite lookup_take_ge by lia]. destruct (byte_lookup e f s (Z.of_nat k) (di_file _ _ _ _ Hd)) as (v & Ev & _); [unfold capacity; lia|].
  rewrite lookup_take_lt by lia. rewrite Ev. unfold byte in Ev. rewrite Z.div_small, Z.mod_small, Nat2Z.id in Ev by lia. done.
Qed.
(** A directory on the disk that holds the groups [gs]. *)
Definition directory d (gs : list group) : Prop := dir_ok (ok := dir_disk) (content := dir_bytes) d gs.

(** C7: Looking up in a directory on the disk. [find_local] finds the first file whose name is the requested
    one up to case, with the offset of its short entry, and [ls] lists all files in order; the
    directory holds what it held. *)
Theorem fat_dir_lookup d gs req : directory d gs -> exists d1 d2,
  FatDirectory.find_local d req = Ret (Ok (option_map located (find_named req (listing 0 gs))), d1) /\ directory d1 gs /\
  FatDirectory.ls d = Ret (Ok (map fst (listing 0 gs)), d2) /\ directory d2 gs.
Proof. exact (dir_lookup_ok (room := dir_room) d gs req). Qed.
(** C5: Creating a file in a directory on the disk and looking names up. For a name in ASCII of fewer than 256
    characters that has a short name (something is left of its base, or of its extension when the base is empty,
    once spaces and leading dots are taken out: not so for names of dots and spaces only, or like [..a], on
    which the code panics), in a directory of fewer than 4446 files that stays below 2^31 bytes, with clusters for the new entries and one
    more in the table's supply (at the end of the queue of free clusters, or, when it is empty, from the hint to
    the end of the table), the new file is an empty one; its entries are stored, in new clusters when the old
    ones are full; the directory then lists the file behind the others under exactly this name, with a short name no other file
    has, and a lookup finds what it found before, or else the new file. A directory as the new file is not
    covered. *)
Theorem fat_create_find fuel d gs name ty req : directory d gs -> ty <> Directory -> Forall ShortNames.ascii name -> named name = true -> (length name < 256)%nat -> (length (listing 0 gs) < 4446)%nat ->
  dir_room d (32 * Z.of_nat (Datatypes.S (length (long_entries name))) + EasyFileSystem.clus_size (dn_fs d)) ->
  exists d2 off (s : list Z) g d3, create fuel d name ty = Ret (Some (Ok (d2, off, s, MkInode 0 [] 0 PageCacheManager.new))) /\
    directory d2 (gs ++ [g]) /\ listing 0 (gs ++ [g]) = listing 0 gs ++ [(name, s, Z.to_nat (off / 32))] /\ Short.name_array s ∉ short_names 0 gs /\
    FatDirectory.find_local d2 req = Ret (Ok (match find_named req (listing 0 gs) with Some x => Some (located x) | None => if FatDirectory.same_name name req then Some (name, s, off) else None end), d3).
Proof.
  intros Hd Hdir Ha Hn Hl Hm Hr. destruct (dir_create_ok (room := dir_room) d gs name 0 ty req Hd Ha Hn ltac:(lia) Hm ltac:(lia) Hr) as (s & ls & d1 & off & d2 & d3 & E1 & E2 & (g & Hd2 & Hls) & Hc & Hty & Hsz & Hnew & Hf).
  exists d2, off, s, g, d3. split; [|done]. unfold create. rewrite (ShortNames.ascii_len name Ha). rewrite (proj2 (Z.leb_gt _ _)) by lia. set (c0 := match ty with Directory => _ | _ => _ end). assert (c0 = Ret (Some 0, d)) as -> by (by destruct ty).
  cbn [mbind outcome_bind]. rewrite E1. cbn [mbind outcome_bind]. rewrite E2. cbn [mbind outcome_bind]. unfold from_fat_ent, FatInode.new. rewrite Hc. cbn [Z.eqb mbind outcome_bind option_map]. assert (Short.attr s = Attr.Archive) as Hat by (rewrite Hty; by destruct ty). assert (Short.is_dir s = false /\ Short.is_file s = true /\ Short.file_size s = 0) as (-> & -> & ->). { unfold Short.is_dir, Short.is_file. by rewrite Hat. } cbn [default mbind outcome_bind]. by destruct d2, ty.
Qed.
(** C6: Removing a file from a directory on the disk, whose size is whole clusters. The file, [Item l sh] with long
    entries [l] and short entry [sh], is given by the offset of its short entry, as a lookup returns it. Exactly
    this file leaves the listing, and lookups find what they found among the others. When the file has long
    entries, as every file [create] makes, the hint then goes back over the entries that are unused at the end,
    and the size is cut to the clusters up to the hint, one at least, with the cluster list of that length. When
    it has none (a short name alone, as other systems write), the code returns early: hint and size stay. *)
Theorem fat_unlink d (g1 g2 : list group) (l : list (list Z)) (sh : list Z) req : let gs := g1 ++ Item l sh :: g2 in directory d gs -> (EasyFileSystem.clus_size (dn_fs d) | size (dn_inode d)) ->
  exists d' gs' d'', unlink (Some (d, 32 * Z.of_nat (length (flats g1) + length l))) = Ret (Some d') /\ directory d' gs' /\
    listing 0 gs' = delete (length (listing 0 g1)) (listing 0 gs) /\
    FatDirectory.find_local d' req = Ret (Ok (option_map located (find_named req (listing 0 gs'))), d'') /\
    Z.of_nat (length (clus_list (dn_inode d'))) = total_clus (dn_fs d') (size (dn_inode d')) /\
    match l with
    | [] => dir_hint (dn_inode d') = dir_hint (dn_inode d) /\ size (dn_inode d') = size (dn_inode d)
    | _ => ends_used gs' /\ dir_hint (dn_inode d') = 32 * Z.of_nat (length (flats gs')) /\ size (dn_inode d') = trimmed d (length (flats gs'))
    end.
Proof.
  intros gs Hd Hdiv. destruct (dir_delete_ok d g1 l sh g2 Hd Hdiv) as (d' & gs' & E & Hd' & El & _ & Hm). destruct (find_ok d' gs' req Hd') as (d'' & _ & Ef).
  exists d', gs', d''. split; [unfold unlink; by rewrite E|]. split; [done|]. split; [done|]. split; [done|]. split.
  - destruct (do_entries d' gs' Hd') as (tl & ([Hdk _] & _) & _). apply Hdk.
  - destruct l; [done|]. destruct Hm as [He Hs]. split; [done|]. split; [apply (do_hint d' gs' Hd')|done].
Qed.
End Instance_.

(** ** A directory of one empty cluster
    On the disk of [FatFile], with clusters 3 and 4 known to be free. *)
#[local] Existing Instance demo_disk_store.
Definition dir_efs : EasyFileSystem := with_fat demo_efs (with_vacant demo_fat [4; 3]).
Definition dir_demo : DirInode BlockCacheManager.t := MkDir dir_efs one_file one_store.
Notation demo_directory := (directory (meta := demo_meta) (data := demo_data) (ok := demo_ok) demo_pressure).
Notation demo_dir := (dir_inode demo_pressure).

Lemma dir_demo_disk : disk_ok (meta := demo_meta) (data := demo_data) (ok := demo_ok) dir_efs one_file one_store (entry (fat dir_efs) one_store).
Proof.
  destruct demo_one as [Hf Hg Ht Hfat Hch Hcnt Hbd]. assert (same_place demo_fat (with_vacant demo_fat [4; 3])) as Hp by done. split; [|by apply (geometry_place demo_fat)|by apply (table_place demo_fat)| |done|done|done].
  - destruct Hf as [H1 H2 H3 H4 H5]. split; [by apply fs_ok_place|done|done|done|done].
  - destruct Hfat as [F1 F2 F3 F4]. split; [|by apply (bool_decide_unpack _)|done|done]. constructor; [split; [cbn [dir_efs with_fat fat with_vacant demo_fat Fat.new tot_ent]; lia|by vm_compute]|]. constructor; [split; [cbn [dir_efs with_fat fat with_vacant demo_fat Fat.new tot_ent]; lia|by vm_compute]|constructor].
Qed.
Lemma dir_demo_bytes : dir_bytes dir_demo = concat (replicate 16 (replicate 32 0)).
Proof. unfold dir_bytes. rewrite (content_page (meta := demo_meta) (data := demo_data) (ok := demo_ok) _ _ _ _ dir_demo_disk) by done. by vm_compute. Qed.
Lemma dir_demo_ok : demo_directory dir_demo [].
Proof.
  split; [constructor| |done|done]. exists (replicate 16 (replicate 32 0)). split; [|done]. split; [split; [apply dir_demo_disk|by vm_compute]|]. split; [apply dir_demo_bytes|]. by apply Forall_replicate.
Qed.
Lemma fat_dir_lookup_witness : exists d1 d2, FatDirectory.find_local (DirFile0 := demo_dir) dir_demo [97] = Ret (Ok None, d1) /\ demo_directory d1 [] /\
  FatDirectory.ls (DirFile0 := demo_dir) dir_demo = Ret (Ok [], d2) /\ demo_directory d2 [].
Proof. apply (fat_dir_lookup demo_pressure demo_pressure_ok dir_demo [] [97]), dir_demo_ok. Defined.
(** The file [a] is created and found as [A]. *)
Lemma fat_create_find_witness : exists d2 off (s : list Z) g d3, create demo_pressure 0 dir_demo [97] File = Ret (Some (Ok (d2, off, s, MkInode 0 [] 0 PageCacheManager.new))) /\
  demo_directory d2 ([] ++ [g]) /\ listing 0 ([] ++ [g]) = [] ++ [([97], s, Z.to_nat (off / 32))] /\ Short.name_array s ∉ short_names 0 [] /\
  FatDirectory.find_local (DirFile0 := demo_dir) d2 [65] = Ret (Ok (Some ([97], s, off)), d3).
Proof.
  apply (fat_create_find (meta := demo_meta) (data := demo_data) (ok := demo_ok) demo_pressure demo_pressure_ok 0 dir_demo [] [97] File [65]); [apply dir_demo_ok|done|repeat (constructor; [unfold ShortNames.ascii; lia|]); constructor|by vm_compute|cbn [length]; lia|apply Nat.ltb_lt; by vm_compute|].
  split; [by vm_compute|]. exists [3; 4]. split; [left; by exists []|by vm_compute].
Defined.

(** The same directory with the file [a]. *)
Definition a_short : list Z := Short.from_name (65 :: replicate 10 32) 0 File.
Fixpoint words (l : list Z) : list Z := match l with a :: b :: c :: d :: r => le_combine [a; b; c; d] :: words r | _ => [] end.
Definition a_table : list Z := [EOC; EOC; EOC; 0] ++ replicate 892 0 ++ words (concat (long_entries [97] ++ [a_short])).
Definition a_inode : FatInode := MkInode 512 [2] 64 PageCacheManager.new.
Definition a_demo : DirInode BlockCacheManager.t := MkDir demo_efs a_inode (demo_store_of a_table).
Definition a_group : group := Item (reverse (long_entries [97])) a_short.
Lemma a_group_ok : group_ok a_group.
Proof. apply new_group_ok; [repeat (constructor; [unfold ShortNames.ascii; lia|]); constructor|done|cbn [length]; lia|by vm_compute|by vm_compute]. Qed.
Lemma a_disk : disk_ok (meta := demo_meta) (data := demo_data) (ok := demo_ok) demo_efs a_inode (demo_store_of a_table) (entry demo_fat (demo_store_of a_table)).
Proof.
  apply (demo_disk_ok a_table a_inode); cbn [clus_list a_inode].
  - apply NoDup_singleton.
  - repeat (constructor; [lia|]). constructor.
  - done.
  - cbn [size a_inode]. lia.
  - cbn [size a_inode length]. lia.
  - by vm_compute.
  - split; [constructor|constructor|cbn [demo_fat Fat.new hint tot_ent]; lia|by vm_compute].
  - split; [right; split; [done|exists 2; split; [done|by vm_compute]]|]. split; [apply NoDup_singleton|]. repeat (constructor; [cbn [demo_fat Fat.new tot_ent]; lia|]). constructor.
Qed.
Lemma a_bytes : dir_bytes a_demo = concat (flats [a_group] ++ replicate 14 (replicate 32 0)).
Proof. unfold dir_bytes. rewrite (content_page (meta := demo_meta) (data := demo_data) (ok := demo_ok) _ _ _ _ a_disk) by done. by vm_compute. Qed.
Lemma a_directory : demo_directory a_demo [a_group].
Proof.
  split; [constructor; [apply a_group_ok|constructor]| |by vm_compute|done]. exists (replicate 14 (replicate 32 0)). split; [|done]. split; [split; [apply a_disk|by vm_compute]|]. split; [apply a_bytes|]. apply Forall_app. split; [|by apply Forall_replicate]. by apply (bool_decide_unpack _).
Qed.
Lemma fat_unlink_witness : exists d' gs' d'', unlink demo_pressure (Some (a_demo, 32)) = Ret (Some d') /\ demo_directory d' gs' /\ listing 0 gs' = [] /\
  FatDirectory.find_local (DirFile0 := demo_dir) d' [97] = Ret (Ok None, d'') /\ dir_hint (dn_inode d') = 32 * Z.of_nat (length (flats gs')).
Proof.
  destruct (fat_unlink (meta := demo_meta) (data := demo_data) (ok := demo_ok) demo_pressure demo_pressure_ok a_demo [] [] (reverse (long_entries [97])) a_short [97])
    as (d' & gs' & d'' & E1 & E2 & E3 & E4 & _ & E5); [apply a_directory|by exists 1|].
  exists d', gs', d''. split; [exact E1|]. split; [exact E2|]. split; [exact E3|]. split; [rewrite E3 in E4; exact E4|]. apply E5.
Defined.
