(* ===== verification/Ext4Layout.v ===== *)
(** * Ext4Layout: structures on an ext4 disk (os/src/fs/ext4)

    Checksums, bitmaps, and the structures of the disk as the bytes they are read and written as:
    superblock, block group descriptors, inodes and the entries of extent trees. The model is of a
    build whose blocks have the size of the file system's, 4096 bytes. *)
From S2P Require Import Prelude Bytes BitVec.

(** ** Checksums (crc.rs) *)
Module Crc.
Definition CRC32C_TAB : list Z :=
  [0x00000000; 0xF26B8303; 0xE13B70F7; 0x1350F3F4; 0xC79A971F; 0x35F1141C; 0x26A1E7E8; 0xD4CA64EB;
   0x8AD958CF; 0x78B2DBCC; 0x6BE22838; 0x9989AB3B; 0x4D43CFD0; 0xBF284CD3; 0xAC78BF27; 0x5E133C24;
   0x105EC76F; 0xE235446C; 0xF165B798; 0x030E349B; 0xD7C45070; 0x25AFD373; 0x36FF2087; 0xC494A384;
   0x9A879FA0; 0x68EC1CA3; 0x7BBCEF57; 0x89D76C54; 0x5D1D08BF; 0xAF768BBC; 0xBC267848; 0x4E4DFB4B;
   0x20BD8EDE; 0xD2D60DDD; 0xC186FE29; 0x33ED7D2A; 0xE72719C1; 0x154C9AC2; 0x061C6936; 0xF477EA35;
   0xAA64D611; 0x580F5512; 0x4B5FA6E6; 0xB93425E5; 0x6DFE410E; 0x9F95C20D; 0x8CC531F9; 0x7EAEB2FA;
   0x30E349B1; 0xC288CAB2; 0xD1D83946; 0x23B3BA45; 0xF779DEAE; 0x05125DAD; 0x1642AE59; 0xE4292D5A;
   0xBA3A117E; 0x4851927D; 0x5B016189; 0xA96AE28A; 0x7DA08661; 0x8FCB0562; 0x9C9BF696; 0x6EF07595;
   0x417B1DBC; 0xB3109EBF; 0xA0406D4B; 0x522BEE48; 0x86E18AA3; 0x748A09A0; 0x67DAFA54; 0x95B17957;
   0xCBA24573; 0x39C9C670; 0x2A993584; 0xD8F2B687; 0x0C38D26C; 0xFE53516F; 0xED03A29B; 0x1F682198;
   0x5125DAD3; 0xA34E59D0; 0xB01EAA24; 0x42752927; 0x96BF4DCC; 0x64D4CECF; 0x77843D3B; 0x85EFBE38;
   0xDBFC821C; 0x2997011F; 0x3AC7F2EB; 0xC8AC71E8; 0x1C661503; 0xEE0D9600; 0xFD5D65F4; 0x0F36E6F7;
   0x61C69362; 0x93AD1061; 0x80FDE395; 0x72966096; 0xA65C047D; 0x5437877E; 0x4767748A; 0xB50CF789;
   0xEB1FCBAD; 0x197448AE; 0x0A24BB5A; 0xF84F3859; 0x2C855CB2; 0xDEEEDFB1; 0xCDBE2C45; 0x3FD5AF46;
   0x7198540D; 0x83F3D70E; 0x90A324FA; 0x62C8A7F9; 0xB602C312; 0x44694011; 0x5739B3E5; 0xA55230E6;
   0xFB410CC2; 0x092A8FC1; 0x1A7A7C35; 0xE811FF36; 0x3CDB9BDD; 0xCEB018DE; 0xDDE0EB2A; 0x2F8B6829;
   0x82F63B78; 0x709DB87B; 0x63CD4B8F; 0x91A6C88C; 0x456CAC67; 0xB7072F64; 0xA457DC90; 0x563C5F93;
   0x082F63B7; 0xFA44E0B4; 0xE9141340; 0x1B7F9043; 0xCFB5F4A8; 0x3DDE77AB; 0x2E8E845F; 0xDCE5075C;
   0x92A8FC17; 0x60C37F14; 0x73938CE0; 0x81F80FE3; 0x55326B08; 0xA759E80B; 0xB4091BFF; 0x466298FC;
   0x1871A4D8; 0xEA1A27DB; 0xF94AD42F; 0x0B21572C; 0xDFEB33C7; 0x2D80B0C4; 0x3ED04330; 0xCCBBC033;
   0xA24BB5A6; 0x502036A5; 0x4370C551; 0xB11B4652; 0x65D122B9; 0x97BAA1BA; 0x84EA524E; 0x7681D14D;
   0x2892ED69; 0xDAF96E6A; 0xC9A99D9E; 0x3BC21E9D; 0xEF087A76; 0x1D63F975; 0x0E330A81; 0xFC588982;
   0xB21572C9; 0x407EF1CA; 0x532E023E; 0xA145813D; 0x758FE5D6; 0x87E466D5; 0x94B49521; 0x66DF1622;
   0x38CC2A06; 0xCAA7A905; 0xD9F75AF1; 0x2B9CD9F2; 0xFF56BD19; 0x0D3D3E1A; 0x1E6DCDEE; 0xEC064EED;
   0xC38D26C4; 0x31E6A5C7; 0x22B65633; 0xD0DDD530; 0x0417B1DB; 0xF67C32D8; 0xE52CC12C; 0x1747422F;
   0x49547E0B; 0xBB3FFD08; 0xA86F0EFC; 0x5A048DFF; 0x8ECEE914; 0x7CA56A17; 0x6FF599E3; 0x9D9E1AE0;
   0xD3D3E1AB; 0x21B862A8; 0x32E8915C; 0xC083125F; 0x144976B4; 0xE622F5B7; 0xF5720643; 0x07198540;
   0x590AB964; 0xAB613A67; 0xB831C993; 0x4A5A4A90; 0x9E902E7B; 0x6CFBAD78; 0x7FAB5E8C; 0x8DC0DD8F;
   0xE330A81A; 0x115B2B19; 0x020BD8ED; 0xF0605BEE; 0x24AA3F05; 0xD6C1BC06; 0xC5914FF2; 0x37FACCF1;
   0x69E9F0D5; 0x9B8273D6; 0x88D28022; 0x7AB90321; 0xAE7367CA; 0x5C18E4C9; 0x4F48173D; 0xBD23943E;
   0xF36E6F75; 0x0105EC76; 0x12551F82; 0xE03E9C81; 0x34F4F86A; 0xC69F7B69; 0xD5CF889D; 0x27A40B9E;
   0x79B737BA; 0x8BDCB4B9; 0x988C474D; 0x6AE7C44E; 0xBE2DA0A5; 0x4C4623A6; 0x5F16D052; 0xAD7D5351].
Definition EXT4_CRC32_INIT : Z := 0xFFFFFFFF.

Fixpoint crc32 (crc : Z) (p : list Z) (size : nat) (tab : list Z) {struct size} : outcome Z :=
  match size with
  | O => Ret crc
  | S size =>
      match p with
      | [] => Panic
      | b :: p' => t ← index tab (Z.lxor (wrap 8 crc) b); crc32 (Z.lxor t (Z.shiftr crc 8)) p' size tab
      end
  end.
Definition ext4_crc32c (crc : Z) (buf : list Z) (size : Z) : outcome Z := crc32 crc buf (Z.to_nat size) CRC32C_TAB.

(** CRC-32C as polynomial division, one bit at a time; the polynomial with its bits reversed. *)
Definition POLY : Z := 0x82F63B78.
Definition bit_step (crc : Z) : Z := if Z.testbit crc 0 then Z.lxor (Z.shiftr crc 1) POLY else Z.shiftr crc 1.
Fixpoint bit_steps (n : nat) (crc : Z) : Z := match n with O => crc | S n => bit_steps n (bit_step crc) end.
Definition byte_step (crc b : Z) : Z := bit_steps 8 (Z.lxor crc b).

Lemma bit_step_lxor x y : bit_step (Z.lxor x y) = Z.lxor (bit_step x) (bit_step y).
Proof.
  unfold bit_step. rewrite Z.lxor_spec, Z.shiftr_lxor. apply Z.bits_inj'. intros i Hi.
  destruct (Z.testbit x 0), (Z.testbit y 0); cbn [xorb]; rewrite !Z.lxor_spec;
    destruct (Z.testbit (Z.shiftr x 1) i), (Z.testbit (Z.shiftr y 1) i), (Z.testbit POLY i); done.
Qed.
Lemma bit_steps_lxor n : forall x y, bit_steps n (Z.lxor x y) = Z.lxor (bit_steps n x) (bit_steps n y).
Proof. induction n as [|n IH]; intros; cbn [bit_steps]; [done|]. by rewrite bit_step_lxor, IH. Qed.
(** Steps over zeros only shift. *)
Lemma bit_steps_zeros n : forall x, bit_steps n (Z.shiftl x (Z.of_nat n)) = x.
Proof.
  induction n as [|n IH]; intros x; [apply Z.shiftl_0_r|]. cbn [bit_steps].
  replace (bit_step (Z.shiftl x (Z.of_nat (S n)))) with (Z.shiftl x (Z.of_nat n)); [apply IH|].
  unfold bit_step. rewrite Z.shiftl_spec_low by lia. rewrite Z.shiftr_shiftl_l by lia. f_equal. lia.
Qed.
Lemma table_ok : Forall (fun i => CRC32C_TAB !! Z.to_nat i = Some (bit_steps 8 i)) (seqZ 0 256).
Proof. apply (bool_decide_eq_true_1 _). vm_compute. reflexivity. Qed.
Lemma byte_step_table crc b : byte_ok b -> 0 <= crc -> exists t, index CRC32C_TAB (Z.lxor (wrap 8 crc) b) = Ret t /\ byte_step crc b = Z.lxor t (Z.shiftr crc 8).
Proof.
  intros Hb Hc. set (k := Z.lxor (wrap 8 crc) b).
  assert (0 <= k < 256) as Hk.
  { apply (proj2 (in_range_testbit 8 k ltac:(lia))). split; [apply Z.lxor_nonneg; pose proof (wrap_range 8 crc ltac:(lia)) as []; unfold byte_ok in Hb; lia|].
    intros i Hi. unfold k. rewrite Z.lxor_spec, (testbit_high 8 (wrap 8 crc)), (testbit_high 8 b); try done; try lia. apply wrap_range. lia. }
  pose proof table_ok as Ht. rewrite Forall_forall in Ht. specialize (Ht k ltac:(apply elem_of_seqZ; lia)).
  exists (bit_steps 8 k). split; [by apply index_ret|]. unfold byte_step.
  replace (Z.lxor crc b) with (Z.lxor k (Z.shiftl (Z.shiftr crc 8) 8)); [rewrite bit_steps_lxor; f_equal; apply (bit_steps_zeros 8)|].
  apply Z.bits_inj'. intros i Hi. unfold k, wrap. rewrite !Z.lxor_spec. destruct (Z.ltb_spec i 8).
  - rewrite Z.mod_pow2_bits_low, Z.shiftl_spec_low, xorb_false_r by lia. done.
  - rewrite Z.mod_pow2_bits_high, Z.shiftl_spec_high, Z.shiftr_spec by lia. replace (i - 8 + 8) with i by lia.
    rewrite (testbit_high 8 b) by (unfold in_range, byte_ok in *; lia). by destruct (Z.testbit crc i).
Qed.
Lemma bit_step_nonneg x : 0 <= x -> 0 <= bit_step x.
Proof. intros. unfold bit_step. assert (0 <= Z.shiftr x 1) by (by apply Z.shiftr_nonneg). destruct (Z.testbit x 0); [|done]. apply Z.lxor_nonneg. unfold POLY. lia. Qed.
Lemma byte_step_nonneg x b : 0 <= x -> 0 <= b -> 0 <= byte_step x b.
Proof.
  intros Hx Hb. unfold byte_step. assert (0 <= Z.lxor x b) as H by (apply Z.lxor_nonneg; lia). revert H. generalize (Z.lxor x b) 8%nat. intros y n. revert y. induction n as [|n IH]; intros y Hy; [done|].
  cbn [bit_steps]. apply IH. by apply bit_step_nonneg.
Qed.

Lemma crc32_eq n : forall buf crc, Forall byte_ok buf -> 0 <= crc -> (n <= length buf)%nat -> crc32 crc buf n CRC32C_TAB = Ret (foldl byte_step crc (take n buf)).
Proof.
  induction n as [|n IH]; intros buf crc Hb Hc Hn; [done|]. destruct Hb as [|b buf Hb Hbuf]; [cbn in Hn; lia|].
  cbn [crc32 take foldl]. destruct (byte_step_table crc b Hb Hc) as (t & -> & E). cbn [mbind outcome_bind]. rewrite <- E. apply IH; [done| |cbn in Hn; lia].
  apply byte_step_nonneg; [done|]. unfold byte_ok in Hb. lia.
Qed.
Lemma crc_ok buf crc size : Forall byte_ok buf -> 0 <= crc -> 0 <= size <= Z.of_nat (length buf) -> exists c, ext4_crc32c crc buf size = Ret c /\ 0 <= c.
Proof.
  intros Hb Hc Hs. unfold ext4_crc32c. rewrite crc32_eq by (done || lia). eexists. split; [done|]. assert (Forall byte_ok (take (Z.to_nat size) buf)) as Ht by (by apply Forall_take).
  clear -Ht Hc. revert crc Hc. induction Ht as [|b l Hb Hl IH]; intros crc Hc; [done|]. apply IH. apply byte_step_nonneg; [done|]. unfold byte_ok in Hb. lia.
Qed.

(** C27: The table-driven checksum is CRC-32C: it returns, and gives the remainder that dividing bit
    by bit by the polynomial gives, for every buffer and starting value. *)
Theorem crc32c_divides : forall buf crc size, Forall byte_ok buf -> 0 <= crc -> 0 <= size <= Z.of_nat (length buf) ->
  ext4_crc32c crc buf size = Ret (foldl byte_step crc (take (Z.to_nat size) buf)).
Proof. intros buf crc size Hb Hc Hs. apply crc32_eq; [done|done|lia]. Qed.
(** Witness: the check value of CRC-32C, of the digits one to nine. *)
Lemma crc32c_divides_witness : Z.lxor (foldl byte_step EXT4_CRC32_INIT [49; 50; 51; 52; 53; 54; 55; 56; 57]) 0xFFFFFFFF = 0xE3069283 /\
  ext4_crc32c EXT4_CRC32_INIT [49; 50; 51; 52; 53; 54; 55; 56; 57] 9 = Ret (foldl byte_step EXT4_CRC32_INIT [49; 50; 51; 52; 53; 54; 55; 56; 57]).
Proof.
  split; [vm_compute; reflexivity|]. apply (crc32c_divides [49; 50; 51; 52; 53; 54; 55; 56; 57] EXT4_CRC32_INIT 9).
  - repeat constructor; unfold byte_ok; lia.
  - unfold EXT4_CRC32_INIT. lia.
  - cbn. lia.
Defined.
End Crc.

(** ** Bitmaps (bitmap.rs) *)
Module Bitmap.
Definition ext4_bmap_is_bit_set (bmap : list Z) (bit : Z) : outcome bool :=
  w ← index bmap (Z.shiftr bit 3); Ret (negb (Z.land w (Z.shiftl 1 (Z.land bit 7)) =? 0)).
Definition ext4_bmap_is_bit_clr (bmap : list Z) (bit : Z) : outcome bool :=
  b ← ext4_bmap_is_bit_set bmap bit; Ret (negb b).
Definition ext4_bmap_bit_set (bmap : list Z) (bit : Z) : outcome (list Z) :=
  w ← index bmap (Z.shiftr bit 3); store bmap (Z.shiftr bit 3) (bit_set w (Z.land bit 7)).
Definition ext4_bmap_bit_clr (bmap : list Z) (bit : Z) : outcome (list Z) :=
  w ← index bmap (Z.shiftr bit 3); store bmap (Z.shiftr bit 3) (bit_clear 8 w (Z.land bit 7)).

(** [ext4_bmap_bit_find_clr] in three loops; the result is [bit_id], set when the answer is true. The
    first loop goes to the next byte: [inl] is an answer, [inr] the position and the number of bits left. *)
Fixpoint find_head (fuel : nat) (bmap : list Z) (sbit i bcnt : Z) : outcome (option Z + Z * Z) :=
  match fuel with
  | O => Panic
  | S fuel =>
      if Z.land i 7 =? 0 then Ret (inr (i, bcnt))
      else if bcnt =? 0 then Ret (inl None)
      else
        c ← ext4_bmap_is_bit_clr bmap i;
        if (c : bool) then Ret (inl (Some sbit)) else find_head fuel bmap sbit (wrap 32 (i + 1)) (bcnt - 1)
  end.
Fixpoint find_in (bmap : list Z) (sbit i : Z) (n : nat) : outcome (option Z) :=
  match n with
  | O => Ret None
  | S n => c ← ext4_bmap_is_bit_clr bmap i; if (c : bool) then Ret (Some (wrap 32 (sbit + i))) else find_in bmap sbit (i + 1) n
  end.
Fixpoint find_bytes (bmap : list Z) (sbit bcnt : Z) {struct bmap} : outcome (option Z) :=
  if 8 <=? bcnt then
    match bmap with
    | [] => Panic
    | w :: r =>
        o ← (if negb (w =? 0xFF) then find_in bmap sbit 0 8 else Ret None);
        match o with Some k => Ret (Some k) | None => find_bytes r (wrap 32 (sbit + 8)) (bcnt - 8) end
    end
  else find_in bmap sbit 0 (Z.to_nat bcnt).
Definition ext4_bmap_bit_find_clr (bmap : list Z) (sbit ebit : Z) : outcome (option Z) :=
  r ← find_head 8 bmap sbit sbit (wrap 32 (ebit - sbit));
  match r with
  | inl o => Ret o
  | inr (i, bcnt) => rust_assert (Z.shiftr i 3 <=? Z.of_nat (length bmap)) ;; find_bytes (drop (Z.to_nat (Z.shiftr i 3)) bmap) i bcnt
  end.
Fixpoint clear_each (bmap : list Z) (bits : list Z) : outcome (list Z) :=
  match bits with [] => Ret bmap | bit :: r => b ← ext4_bmap_bit_clr bmap bit; clear_each b r end.
Definition ext4_bmap_bits_free (bmap : list Z) (start_bit end_bit : Z) : outcome (list Z) :=
  clear_each bmap (seqZ start_bit (end_bit - start_bit + 1)).

Lemma bit_place bit : 0 <= bit -> Z.shiftr bit 3 = bit / 8 /\ Z.land bit 7 = bit mod 8.
Proof. intros. rewrite Z.shiftr_div_pow2 by lia. change 7 with (Z.ones 3). rewrite Z.land_ones by lia. done. Qed.
Lemma is_set_ok bmap bit : bv_words 8 bmap -> 0 <= bit < 8 * Z.of_nat (length bmap) -> ext4_bmap_is_bit_set bmap bit = Ret (bv_test 8 bmap bit).
Proof.
  intros Hw Hb. unfold ext4_bmap_is_bit_set. destruct (bit_place bit) as [-> ->]; [lia|]. destruct (bv_lookup_lt 8 ltac:(lia) bmap bit Hb) as [w Ew].
  rewrite (proj2 (index_ret bmap (bit / 8) w) Ew). cbn [mbind outcome_bind]. pose proof (bv_lookup_range 8 _ _ _ Hw Ew) as [Hw0 _].
  rewrite land_bit_zero, negb_involutive by (try done; apply Z.mod_pos_bound; lia). by rewrite (bv_test_lookup 8 _ _ _ Ew).
Qed.
Lemma is_clr_ok bmap bit : bv_words 8 bmap -> 0 <= bit < 8 * Z.of_nat (length bmap) -> ext4_bmap_is_bit_clr bmap bit = Ret (negb (bv_test 8 bmap bit)).
Proof. intros. unfold ext4_bmap_is_bit_clr. by rewrite is_set_ok. Qed.
(** Setting and clearing change one bit. *)
Lemma bmap_set_ok bmap bit : bv_words 8 bmap -> 0 <= bit < 8 * Z.of_nat (length bmap) -> exists b, ext4_bmap_bit_set bmap bit = Ret b /\ bv_words 8 b /\
  length b = length bmap /\ forall j, 0 <= j -> bv_test 8 b j = (j =? bit) || bv_test 8 bmap j.
Proof.
  intros Hw Hb. unfold ext4_bmap_bit_set. destruct (bit_place bit) as [-> ->]; [lia|]. destruct (bv_lookup_lt 8 ltac:(lia) bmap bit Hb) as [w Ew].
  rewrite (proj2 (index_ret bmap (bit / 8) w) Ew). cbn [mbind outcome_bind]. rewrite store_lt by (by eapply lookup_lt_Some). eexists. split; [done|].
  split; [apply bv_words_set; [lia|done..]|]. split; [apply length_insert|]. intros j Hj. apply bv_test_set; [lia..|done].
Qed.
Lemma bmap_clr_ok bmap bit : bv_words 8 bmap -> 0 <= bit < 8 * Z.of_nat (length bmap) -> exists b, ext4_bmap_bit_clr bmap bit = Ret b /\ bv_words 8 b /\
  length b = length bmap /\ forall j, 0 <= j -> bv_test 8 b j = negb (j =? bit) && bv_test 8 bmap j.
Proof.
  intros Hw Hb. unfold ext4_bmap_bit_clr. destruct (bit_place bit) as [-> ->]; [lia|]. destruct (bv_lookup_lt 8 ltac:(lia) bmap bit Hb) as [w Ew].
  rewrite (proj2 (index_ret bmap (bit / 8) w) Ew). cbn [mbind outcome_bind]. rewrite store_lt by (by eapply lookup_lt_Some). eexists. split; [done|].
  split; [apply bv_words_clear; [lia|done..]|]. split; [apply length_insert|]. intros j Hj. apply bv_test_clear; [lia..|done].
Qed.

(** The least clear bit of a range. *)
Definition first_clear (bm : list Z) (a b : Z) (o : option Z) : Prop :=
  match o with
  | Some k => a <= k < b /\ bv_test 8 bm k = false /\ forall j, a <= j < k -> bv_test 8 bm j = true
  | None => forall j, a <= j < b -> bv_test 8 bm j = true
  end.
Lemma first_clear_skip bm a m b o : a <= m <= b -> (forall j, a <= j < m -> bv_test 8 bm j = true) -> first_clear bm m b o -> first_clear bm a b o.
Proof.
  intros Hm Ha. destruct o as [k|]; cbn.
  - intros (Hk & E & Hl). split; [lia|]. split; [done|]. intros j Hj. destruct (Z.ltb_spec j m); [apply Ha|apply Hl]; lia.
  - intros Hl j Hj. destruct (Z.ltb_spec j m); [apply Ha|apply Hl]; lia.
Qed.
Lemma find_in_ok bm sbit n : forall i, bv_words 8 bm -> 0 <= i -> 0 <= sbit -> i + Z.of_nat n <= 8 * Z.of_nat (length bm) -> sbit + i + Z.of_nat n <= 2 ^ 32 ->
  exists o, find_in bm sbit i n = Ret ((fun k => sbit + k) <$> o) /\ first_clear bm i (i + Z.of_nat n) o.
Proof.
  induction n as [|n IH]; intros i Hw Hi Hs Hl Hr; cbn [find_in]; [exists None; split; [done|]; cbn; lia|]. rewrite is_clr_ok by (done || lia). cbn [mbind outcome_bind].
  destruct (bv_test 8 bm i) eqn:E; cbn [negb].
  - destruct (IH (i + 1)) as (o & -> & Ho); [done|lia..|]. exists o. split; [done|]. replace (i + Z.of_nat (S n)) with (i + 1 + Z.of_nat n) by lia.
    apply (first_clear_skip bm i (i + 1)); [lia| |done]. intros j Hj. by replace j with i by lia.
  - exists (Some i). split; [cbn; rewrite wrap_small by (unfold in_range; lia); done|]. split; [lia|]. split; [done|]. intros. lia.
Qed.
Lemma bv_test_drop n bm i : 0 <= i -> bv_test 8 (drop n bm) i = bv_test 8 bm (8 * Z.of_nat n + i).
Proof.
  intros Hi. unfold bv_test. rewrite lookup_drop. replace ((8 * Z.of_nat n + i) / 8) with (Z.of_nat n + i / 8) by (Z.to_euclidean_division_equations; lia).
  replace ((8 * Z.of_nat n + i) mod 8) with (i mod 8) by (Z.to_euclidean_division_equations; lia). assert (0 <= i / 8) by (apply Z.div_pos; lia).
  by replace (Z.to_nat (Z.of_nat n + i / 8)) with (n + Z.to_nat (i / 8))%nat by lia.
Qed.
Lemma first_clear_cons w r b o : 0 <= b -> first_clear r 0 b o -> first_clear (w :: r) 8 (b + 8) (Z.add 8 <$> o).
Proof.
  intros Hb Ho. assert (forall j, 0 <= j -> bv_test 8 (w :: r) (8 + j) = bv_test 8 r j) as Ht by (intros j Hj; symmetry; apply (bv_test_drop 1 (w :: r)); lia).
  destruct o as [k|]; cbn in *.
  - destruct Ho as (Hk & E & Hl). rewrite Ht by lia. split; [lia|]. split; [done|]. intros j Hj. replace j with (8 + (j - 8)) by lia. rewrite Ht by lia. apply Hl. lia.
  - intros j Hj. replace j with (8 + (j - 8)) by lia. rewrite Ht by lia. apply Ho. lia.
Qed.
Lemma full_byte r j : 0 <= j < 8 -> bv_test 8 (0xFF :: r) j = true.
Proof. intros Hj. unfold bv_test. rewrite Z.div_small, Z.mod_small by lia. cbn [Z.to_nat lookup list_lookup]. change 0xFF with (Z.ones 8). apply Z.ones_spec_low. lia. Qed.
Lemma find_bytes_ok bm : forall sbit bcnt, bv_words 8 bm -> 0 <= sbit -> 0 <= bcnt <= 8 * Z.of_nat (length bm) -> sbit + bcnt < 2 ^ 32 ->
  exists o, find_bytes bm sbit bcnt = Ret (Z.add sbit <$> o) /\ first_clear bm 0 bcnt o.
Proof.
  induction bm as [|w r IH]; intros sbit bcnt Hw Hs Hb Hr; cbn [find_bytes]; destruct (Z.leb_spec 8 bcnt).
  1: cbn [length] in Hb; lia.
  1, 3: destruct (find_in_ok _ sbit (Z.to_nat bcnt) 0 Hw) as (o & -> & Ho); [lia..|]; exists o; split; [done|]; by replace bcnt with (0 + Z.of_nat (Z.to_nat bcnt)) by lia.
  assert ((forall j, 0 <= j < 8 -> bv_test 8 (w :: r) j = true) -> exists o, find_bytes r (wrap 32 (sbit + 8)) (bcnt - 8) = Ret (Z.add sbit <$> o) /\ first_clear (w :: r) 0 bcnt o) as Hnext.
  { intros Hset. inversion_clear Hw. rewrite wrap_small by (unfold in_range; lia). destruct (IH (sbit + 8) (bcnt - 8)) as (o & -> & Ho); [done|lia| |lia|].
    { cbn [length] in Hb. lia. }
    exists (Z.add 8 <$> o). split; [destruct o; cbn; do 2 f_equal; lia|]. apply (first_clear_skip _ 0 8); [lia|done|]. replace bcnt with (bcnt - 8 + 8) by lia. apply first_clear_cons; [lia|done]. }
  destruct (Z.eqb_spec w 0xFF) as [->|]; cbn [negb].
  { cbn [mbind outcome_bind]. apply Hnext. intros. by apply full_byte. }
  destruct (find_in_ok _ sbit 8 0 Hw) as (o & -> & Ho); [lia|lia|cbn [length]; lia|lia|]. cbn [mbind outcome_bind]. destruct o as [k|]; [|by apply Hnext].
  exists (Some k). split; [done|]. destruct Ho as (Hk & E & Hl). split; [lia|done].
Qed.

Lemma find_head_ok bm sbit b : bv_words 8 bm -> b <= 8 * Z.of_nat (length bm) -> b < 2 ^ 32 -> forall fuel i, (0 < fuel)%nat -> (8 - Z.of_nat fuel < i mod 8 \/ i mod 8 = 0) -> 0 <= i <= b ->
  (forall j, i <= j < b -> j / 8 = i / 8 -> i mod 8 <> 0 -> bv_test 8 bm j = true) ->
  exists m, find_head fuel bm sbit i (b - i) = Ret (if decide (m mod 8 = 0) then inr (m, b - m) else inl None) /\ i <= m <= b /\ (m mod 8 <> 0 -> m = b) /\
    forall j, i <= j < m -> bv_test 8 bm j = true.
Proof.
  intros Hw Hb Hr. induction fuel as [|fuel IH]; intros i Hf Hm Hi Hset; [lia|]. cbn [find_head]. destruct (bit_place i) as [_ ->]; [lia|].
  destruct (Z.eqb_spec (i mod 8) 0) as [E|E].
  { exists i. rewrite decide_True by done. split; [done|]. split; [lia|]. split; [done|]. intros. lia. }
  destruct (Z.eqb_spec (b - i) 0) as [Eb|Eb].
  { exists i. rewrite decide_False by done. split; [done|]. split; [lia|]. split; intros; lia. }
  rewrite is_clr_ok by (done || lia). rewrite (Hset i) by lia. cbn [mbind outcome_bind negb]. rewrite wrap_small by (unfold in_range; lia).
  assert ((i + 1) mod 8 = 0 \/ (i + 1) mod 8 = i mod 8 + 1 /\ (i + 1) / 8 = i / 8) as Hn by (Z.to_euclidean_division_equations; lia).
  replace (b - i - 1) with (b - (i + 1)) by lia. destruct (IH (i + 1)) as (m & -> & H1 & H2 & H3); [Z.to_euclidean_division_equations; lia..| |].
  { intros j Hj Ej Hne. apply Hset; [lia| |done]. destruct Hn as [|[_ En]]; [done|]. by rewrite Ej. }
  exists m. split; [done|]. split; [lia|]. split; [done|]. intros j Hj. destruct (decide (j = i)) as [->|]; [apply Hset; lia|apply H3; lia].
Qed.

(** The search finds the least clear bit when it starts at a byte, or behind set bits only. *)
Lemma find_clr_ok bm a b : bv_words 8 bm -> 0 <= a <= b -> b <= 8 * Z.of_nat (length bm) -> b < 2 ^ 32 ->
  (forall j, a <= j < b -> j / 8 = a / 8 -> a mod 8 <> 0 -> bv_test 8 bm j = true) -> exists o, ext4_bmap_bit_find_clr bm a b = Ret o /\ first_clear bm a b o.
Proof.
  intros Hw Ha Hb Hr Hset. unfold ext4_bmap_bit_find_clr. rewrite wrap_small by (unfold in_range; lia).
  destruct (find_head_ok bm a b Hw Hb Hr 8 a ltac:(lia)) as (m & -> & Hm & He & Hall); [Z.to_euclidean_division_equations; lia|lia|done|]. cbn [mbind outcome_bind].
  case_decide as Em.
  - destruct (bit_place m) as [-> _]; [lia|]. assert (0 <= m / 8 <= Z.of_nat (length bm)) by (Z.to_euclidean_division_equations; lia).
    rewrite (proj2 (Z.leb_le _ _)) by lia. cbn [rust_assert mbind outcome_bind].
    destruct (find_bytes_ok (drop (Z.to_nat (m / 8)) bm) m (b - m)) as (o & -> & Ho); [by apply Forall_drop|lia| |lia|].
    { rewrite length_drop. Z.to_euclidean_division_equations; lia. }
    eexists. split; [done|]. apply (first_clear_skip _ a m); [lia|done|].
    assert (forall j, 0 <= j -> bv_test 8 (drop (Z.to_nat (m / 8)) bm) j = bv_test 8 bm (m + j)) as Ht.
    { intros j Hj. rewrite bv_test_drop by done. f_equal. Z.to_euclidean_division_equations; lia. }
    destruct o as [k|]; cbn in *.
    + destruct Ho as (Hk & E & Hl). split; [lia|]. rewrite Ht in E by lia. split; [done|]. intros j Hj. specialize (Hl (j - m) ltac:(lia)). rewrite Ht in Hl by lia. by replace (m + (j - m)) with j in Hl by lia.
    + intros j Hj. specialize (Ho (j - m) ltac:(lia)). rewrite Ht in Ho by lia. by replace (m + (j - m)) with j in Ho by lia.
  - exists None. split; [done|]. cbn. rewrite (He Em) in Hall. done.
Qed.
(** From inside a byte it answers with the start of the search instead of the clear bit it found. *)
Example find_clr_wrong_bit : ext4_bmap_bit_find_clr [0x0F; 0] 2 16 = Ret (Some 2) /\ bv_test 8 [0x0F; 0] 2 = true.
Proof. split; vm_compute; reflexivity. Qed.
(** [ext4_bmap_bits_free] clears its end, too. *)
Example bits_free_inclusive : ext4_bmap_bits_free [0xFF] 0 3 = Ret [0xF0].
Proof. vm_compute. reflexivity. Qed.
End Bitmap.

(** ** Integers in structures *)
Definition get_int (b : list Z) (o : Z) (n : nat) : Z := le_combine (get_bytes b o (Z.of_nat n)).
Definition set_int (b : list Z) (o : Z) (n : nat) (v : Z) : list Z := set_bytes b o (le_split n v).
Lemma get_set_len l o bs n : n = Z.of_nat (length bs) -> 0 <= o -> o + n <= Z.of_nat (length l) -> get_bytes (set_bytes l o bs) o n = bs.
Proof. intros -> Ho Hl. by apply get_set_same. Qed.
Lemma set_int_length b o n v : 0 <= o -> o + Z.of_nat n <= Z.of_nat (length b) -> length (set_int b o n v) = length b.
Proof. intros. unfold set_int. apply set_bytes_length; rewrite ?le_split_length; lia. Qed.
Lemma set_int_bytes b o n v : Forall byte_ok b -> Forall byte_ok (set_int b o n v).
Proof. intros. by apply set_bytes_Forall, le_split_bytes. Qed.
Lemma get_int_range b o n : Forall byte_ok b -> 0 <= get_int b o n < 256 ^ Z.of_nat n.
Proof.
  intros Hb. unfold get_int. pose proof (le_combine_range (get_bytes b o (Z.of_nat n)) (get_bytes_ok _ _ _ _ Hb)) as H. split; [lia|]. eapply Z.lt_le_trans; [apply H|].
  apply Z.pow_le_mono_r; [lia|]. unfold get_bytes. rewrite length_take. lia.
Qed.
Lemma get_int_set_same b o n v : 0 <= o -> o + Z.of_nat n <= Z.of_nat (length b) -> 0 <= v < 256 ^ Z.of_nat n -> get_int (set_int b o n v) o n = v.
Proof.
  intros. unfold get_int, set_int. rewrite <- (le_split_length n v) at 2. rewrite get_set_same by (rewrite ?le_split_length; lia). by apply le_combine_split.
Qed.
Lemma get_bytes_set_int b o n v o' k : 0 <= o -> o + Z.of_nat n <= Z.of_nat (length b) -> 0 <= o' -> 0 <= k -> o' + k <= o \/ o + Z.of_nat n <= o' ->
  get_bytes (set_int b o n v) o' k = get_bytes b o' k.
Proof. intros. unfold set_int. apply get_set_apart; rewrite ?le_split_length; lia. Qed.
Lemma get_int_set_other b o n v o' n' : 0 <= o -> o + Z.of_nat n <= Z.of_nat (length b) -> 0 <= o' -> o' + Z.of_nat n' <= o \/ o + Z.of_nat n <= o' ->
  get_int (set_int b o n v) o' n' = get_int b o' n'.
Proof. intros. unfold get_int. by rewrite get_bytes_set_int by lia. Qed.
Lemma get_int_get b o k o' n : 0 <= o -> 0 <= o' -> o' + Z.of_nat n <= k -> get_int (get_bytes b o k) o' n = get_int b (o + o') n.
Proof. intros. unfold get_int. by rewrite get_bytes_get by lia. Qed.
(** Division panics on zero. *)
Definition rust_div (a b : Z) : outcome Z := if b =? 0 then Panic else Ret (a / b).
Definition rust_rem (a b : Z) : outcome Z := if b =? 0 then Panic else Ret (a mod b).

(** ** The device ([BlockDevice] of drivers/block/block_dev.rs) and blocks in memory (block_group.rs) *)
Definition BLOCK_SIZE : Z := 4096.
Class BlockDevice (D : Type) := {
  read_block : D -> Z -> list Z;
  write_block : D -> Z -> list Z -> D;
}.
Definition is_block (b : list Z) : Prop := Z.of_nat (length b) = BLOCK_SIZE /\ Forall byte_ok b.
Class BlockDeviceOk (D : Type) `{BlockDevice D} (dev_ok : D -> Prop) := {
  bd_block : forall d i, dev_ok d -> is_block (read_block d i);
  bd_ok : forall d i b, dev_ok d -> is_block b -> dev_ok (write_block d i b);
  bd_same : forall d i b, dev_ok d -> is_block b -> read_block (write_block d i b) i = b;
  bd_other : forall d i j b, dev_ok d -> is_block b -> i <> j -> read_block (write_block d i b) j = read_block d j;
}.

(** [superblock] is the copy in memory, which is never changed; its block size is also [GLOBAL_BLOCK_SIZE]. *)
Record Ext4FileSystem : Type := MkFs { superblock : list Z; block_size : Z }.
Record Ext4InodeRef : Type := MkRef { inode_num : Z; inode : list Z }.

Module Block.
Record t : Type := Mk { disk_offset : Z; data : list Z }.
Section Operations.
Context {D : Type} `{!BlockDevice D} (fs : Ext4FileSystem).
Definition load_offset (d : D) (offset : Z) : outcome t :=
  block_id ← rust_div offset (block_size fs); Ret (Mk offset (read_block d block_id)).
(** Casting the bytes at an offset; a structure that does not fit in is undefined. *)
Definition read_offset_as (b : t) (offset : Z) (n : nat) : outcome (list Z) :=
  o ← rust_rem offset (block_size fs);
  rust_assert (o + Z.of_nat n <=? Z.of_nat (length (data b))) ;;
  Ret (get_bytes (data b) o (Z.of_nat n)).
(** Writing through [read_offset_as_mut]. *)
Definition write_offset_as (b : t) (offset : Z) (v : list Z) : outcome t :=
  o ← rust_rem offset (block_size fs);
  rust_assert (o + Z.of_nat (length v) <=? Z.of_nat (length (data b))) ;;
  Ret (Mk (disk_offset b) (set_bytes (data b) o v)).
Definition write_offset (b : t) (offset : Z) (v : list Z) (len : Z) : outcome t :=
  if offset + len <=? Z.of_nat (length (data b)) then
    rust_assert (len =? Z.min len (Z.of_nat (length v))) ;;
    Ret (Mk (disk_offset b) (set_bytes (data b) offset (take (Z.to_nat len) v)))
  else Panic.
Definition sync_blk_to_disk (d : D) (b : t) : outcome D :=
  r ← rust_rem (Z.of_nat (length (data b))) (block_size fs);
  rust_assert (r =? 0) ;;
  r' ← rust_rem (disk_offset b) (block_size fs);
  rust_assert (r' =? 0) ;;
  block_id ← rust_div (disk_offset b) (block_size fs);
  Ret (write_block d block_id (data b)).
End Operations.
End Block.

(** ** Superblock (superblock.rs) *)
Module Superblock.
Import Crc.
Definition first_data_block (s : list Z) : Z := get_int s 20 4.
Definition blocks_per_group (s : list Z) : Z := get_int s 32 4.
Definition inodes_per_group (s : list Z) : Z := get_int s 40 4.
Definition inode_size (s : list Z) : Z := get_int s 88 2.
Definition features_read_only (s : list Z) : Z := get_int s 100 4.
Definition uuid (s : list Z) : list Z := get_bytes s 104 16.
(** The field [desc_size], and the method of this name. *)
Definition desc_size_field (s : list Z) : Z := get_int s 254 2.
Definition desc_size (s : list Z) : Z := if desc_size_field s <? 32 then 32 else desc_size_field s.
Definition block_group_count (s : list Z) : outcome Z :=
  let blocks_count := Z.lor (Z.shiftl (get_int s 336 4) 32) (get_int s 4 4) in
  q ← rust_div blocks_count (blocks_per_group s);
  Ret (wrap 32 (if negb (blocks_count mod blocks_per_group s =? 0) then q + 1 else q)).
Definition free_blocks_count (s : list Z) : Z := Z.lor (get_int s 12 4) (Z.shiftl (get_int s 344 4) 32).
Definition set_free_blocks_count (s : list Z) (free_blocks : Z) : list Z :=
  set_int (set_int s 12 4 (Z.land free_blocks 0xffffffff)) 344 4 (wrap 32 (Z.shiftr free_blocks 32)).
Definition ext4_balloc_bitmap_csum (s bitmap : list Z) : outcome Z :=
  csum ← ext4_crc32c EXT4_CRC32_INIT (uuid s) 16; ext4_crc32c csum bitmap (blocks_per_group s / 8).
Definition sync_to_disk_with_csum {D} `{!BlockDevice D} (d : D) (s : list Z) : outcome (list Z * D) :=
  checksum ← ext4_crc32c EXT4_CRC32_INIT s 0x3fc;
  let s' := set_int s 1020 4 checksum in
  rust_assert (Z.of_nat (length s') =? 1024) ;;
  Ret (s', write_block d (1024 / BLOCK_SIZE) (set_bytes (read_block d (1024 / BLOCK_SIZE)) 1024 s')).
End Superblock.

(** ** Block group descriptors (block_group.rs): the 64 bytes of [Ext4BlockGroup] *)
Module BlockGroup.
Import Crc.
Definition get_block_bitmap_block (g s : list Z) : Z :=
  if 32 <? Superblock.desc_size_field s then Z.lor (get_int g 0 4) (Z.shiftl (get_int g 32 4) 32) else get_int g 0 4.
(** The upper half is shifted out. *)
Definition get_inode_table_blk_num (g : list Z) : Z := Z.lor (wrap 32 (Z.shiftl (get_int g 40 4) 32)) (get_int g 8 4).
Definition get_free_blocks_count (g : list Z) : Z :=
  let hi := get_int g 44 2 in if negb (hi =? 0) then Z.lor (get_int g 12 2) (Z.shiftl hi 32) else get_int g 12 2.
Definition set_free_blocks_count (g : list Z) (cnt : Z) : list Z :=
  set_int (set_int g 12 2 (Z.land cnt 0xffff)) 44 2 (wrap 16 (Z.shiftr cnt 16)).
Definition set_block_group_balloc_bitmap_csum (g s bitmap : list Z) : outcome (list Z) :=
  csum ← Superblock.ext4_balloc_bitmap_csum s bitmap;
  if Z.shiftr (Z.land (Superblock.features_read_only s) 0x400) 10 =? 0 then Ret g
  else
    let g1 := set_int g 24 2 (Z.land csum 0xFFFF) in
    Ret (if Superblock.desc_size s =? 64 then set_int g1 56 2 (wrap 16 (Z.shiftr csum 16)) else g1).
Definition get_block_group_checksum (g : list Z) (bgid : Z) (s : list Z) : outcome Z :=
  c1 ← ext4_crc32c EXT4_CRC32_INIT (Superblock.uuid s) 16;
  c2 ← ext4_crc32c c1 (le_split 4 bgid) 4;
  c3 ← ext4_crc32c c2 (set_int g 30 2 0) (Superblock.desc_size s);
  Ret (Z.land c3 0xFFFF).
Section Operations.
Context {D : Type} `{!BlockDevice D} (fs : Ext4FileSystem).
(** Block and offset of a descriptor. *)
Definition place (s : list Z) (bgid : Z) : outcome (Z * Z) :=
  dsc_cnt ← rust_div (block_size fs) (Superblock.desc_size_field s);
  dsc_id ← rust_div bgid dsc_cnt;
  Ret (Superblock.first_data_block s + dsc_id + 1, (bgid mod dsc_cnt) * Superblock.desc_size_field s).
Definition load_new (d : D) (s : list Z) (block_group_idx : Z) : outcome (list Z) :=
  '(block_id, offset) ← place s block_group_idx;
  b ← Block.load_offset fs d (block_id ⊗ block_size fs);
  Block.read_offset_as fs b offset 64.
Definition sync_block_group_to_disk (d : D) (g : list Z) (bgid : Z) (s : list Z) : outcome D :=
  '(block_id, offset) ← place s bgid;
  if block_size fs <=? offset + 64 then Panic
  else Ret (write_block d block_id (set_bytes (read_block d block_id) offset g)).
Definition sync_to_disk_with_csum (d : D) (g : list Z) (bgid : Z) (s : list Z) : outcome (list Z * D) :=
  csum ← get_block_group_checksum g (wrap 32 bgid) s;
  let g' := set_int g 30 2 csum in
  d' ← sync_block_group_to_disk d g' bgid s;
  Ret (g', d').
End Operations.
End BlockGroup.

(** ** Inodes (ext4_inode.rs): the 156 bytes of [Ext4Inode] *)
Module Inode.
Import Crc.
Definition INODE_LEN : nat := 156.
Definition size (i : list Z) : Z := Z.lor (get_int i 4 4) (Z.shiftl (get_int i 108 4) 32).
Definition set_size (i : list Z) (v : Z) : list Z := set_int (set_int i 4 4 (Z.land v 0xffffffff)) 108 4 (wrap 32 (Z.shiftr v 32)).
Definition blocks_count (i : list Z) : Z :=
  let hi := get_int i 116 2 in if negb (hi =? 0) then Z.lor (get_int i 28 4) (Z.shiftl hi 32) else get_int i 28 4.
Definition set_blocks_count (i : list Z) (v : Z) : list Z := set_int (set_int i 28 4 (Z.land v 0xFFFFFFFF)) 116 2 (wrap 16 (Z.shiftr v 32)).
Definition generation (i : list Z) : Z := get_int i 100 4.
(** The field [block], which holds the root of the extent tree. *)
Definition block (i : list Z) : list Z := get_bytes i 40 60.
Definition set_block (i : list Z) (b : list Z) : list Z := set_bytes i 40 b.

Definition set_inode_checksum_value (i s : list Z) (checksum : Z) : list Z :=
  let i1 := set_int i 124 2 (Z.land checksum 0xffff) in
  if 128 <? Superblock.inode_size s then set_int i1 130 2 (wrap 16 (Z.shiftr checksum 16)) else i1.
(** The checksum is computed over the inode with its checksum fields set to zero, and stored. *)
Definition get_inode_checksum (i : list Z) (inode_id : Z) (s : list Z) : outcome (Z * list Z) :=
  let i0 := set_int (set_int i 124 2 0) 130 2 0 in
  c1 ← ext4_crc32c EXT4_CRC32_INIT (Superblock.uuid s) 16;
  c2 ← ext4_crc32c c1 (le_split 4 inode_id) 4;
  c3 ← ext4_crc32c c2 (le_split 4 (generation i)) 4;
  c4 ← ext4_crc32c c3 (i0 ++ replicate (256 - 156) 0) (Superblock.inode_size s);
  let i1 := set_inode_checksum_value i0 s c4 in
  Ret (if Superblock.inode_size s =? 128 then Z.land c4 0xFFFF else c4, i1).
Definition set_inode_checksum (i s : list Z) (inode_id : Z) : outcome (list Z) :=
  '(checksum, i1) ← get_inode_checksum i inode_id s;
  let i2 := set_int i1 124 2 (wrap 16 (Z.shiftr (wrap 32 (Z.shiftl checksum 16)) 16)) in
  Ret (if 128 <? Superblock.inode_size s then set_int i2 130 2 (wrap 16 (Z.shiftr checksum 16)) else i2).
Section Operations.
Context {D : Type} `{!BlockDevice D} (fs : Ext4FileSystem).
Definition sync_inode_to_disk (d : D) (i : list Z) (inode_pos : Z) : outcome D :=
  block_id ← rust_div inode_pos (block_size fs);
  offset ← rust_rem inode_pos (block_size fs);
  if block_size fs <? offset + 156 then Panic
  else Ret (write_block d block_id (set_bytes (read_block d block_id) offset i)).
Definition inode_disk_pos (d : D) (inode_num : Z) : outcome Z :=
  let s := superblock fs in
  group ← rust_div (wrap 32 (inode_num - 1)) (Superblock.inodes_per_group s);
  let index := wrap 32 (inode_num - 1) mod Superblock.inodes_per_group s in
  block_group ← BlockGroup.load_new fs d s group;
  Ret (BlockGroup.get_inode_table_blk_num block_group ⊗ block_size fs ⊕ index ⊗ Superblock.inode_size s).
Definition get_inode_ref (d : D) (n : Z) : outcome Ext4InodeRef :=
  offset ← inode_disk_pos d n;
  b ← Block.load_offset fs d offset;
  i ← Block.read_offset_as fs b (offset mod block_size fs) 156;
  Ret (MkRef n i).
Definition write_back_inode (d : D) (r : Ext4InodeRef) : outcome (Ext4InodeRef * D) :=
  inode_pos ← inode_disk_pos d (inode_num r);
  i ← set_inode_checksum (inode r) (superblock fs) (inode_num r);
  d' ← sync_inode_to_disk d i inode_pos;
  Ret (MkRef (inode_num r) i, d').
Definition write_back_inode_without_csum (d : D) (r : Ext4InodeRef) : outcome D :=
  inode_pos ← inode_disk_pos d (inode_num r);
  sync_inode_to_disk d (inode r) inode_pos.
End Operations.
End Inode.
