(* ===== verification/Ext4Alloc.v ===== *)
(** * Ext4Alloc: allocation of blocks on an ext4 disk (os/src/fs/ext4/balloc.rs)

    A block is free when its bit in the bitmap of its group is clear. Allocating sets the bit and
    writes the counters of the superblock, the inode and the group descriptor. *)
From S2P Require Import Prelude Bytes BitVec Ext4Layout.

Definition ENOSPC : Z := 28.

Module Balloc.
Import Bitmap.
Section Operations.
Context {D : Type} `{!BlockDevice D} (fs : Ext4FileSystem).
Local Notation s := (superblock fs).

Definition get_bgid_of_block (baddr : Z) : outcome Z :=
  let baddr := if negb (Superblock.first_data_block s =? 0) && negb (baddr =? 0) then baddr - 1 else baddr in
  q ← rust_div baddr (Superblock.blocks_per_group s); Ret (wrap 32 q).
Definition get_block_of_bgid (bgid : Z) : Z :=
  (if negb (Superblock.first_data_block s =? 0) then 1 else 0) ⊕ bgid ⊗ Superblock.blocks_per_group s.
Definition addr_to_idx_bg (baddr : Z) : outcome Z :=
  let baddr := if negb (Superblock.first_data_block s =? 0) && negb (baddr =? 0) then baddr - 1 else baddr in
  r ← rust_rem baddr (Superblock.blocks_per_group s); Ret (wrap 32 r).
Definition bg_idx_to_addr (index bgid : Z) : Z :=
  let index := if negb (Superblock.first_data_block s =? 0) then wrap 32 (index + 1) else index in
  Superblock.blocks_per_group s ⊗ bgid ⊕ index.

(** The superblock is changed in a copy. *)
Definition update_free_block_counts (d : D) (r : Ext4InodeRef) (g : list Z) (bgid : Z) : outcome (Ext4InodeRef * D) :=
  '(s1, d1) ← Superblock.sync_to_disk_with_csum d (Superblock.set_free_blocks_count s (Superblock.free_blocks_count s ⊖ 1));
  per ← rust_div (block_size fs) (Superblock.inode_size s);
  '(r1, d2) ← Inode.write_back_inode fs d1 (MkRef (inode_num r) (Inode.set_blocks_count (inode r) (Inode.blocks_count (inode r) ⊕ per)));
  '(_, d3) ← BlockGroup.sync_to_disk_with_csum fs d2 (BlockGroup.set_free_blocks_count g (wrap 32 (BlockGroup.get_free_blocks_count g ⊖ 1))) bgid s1;
  Ret (r1, d3).
(** A clear bit was found. *)
Definition take_block (d : D) (r : Ext4InodeRef) (g : list Z) (bgid adr : Z) (bitmap : list Z) (idx : Z) : outcome (Z * Ext4InodeRef * D) :=
  bitmap' ← ext4_bmap_bit_set bitmap idx;
  g' ← BlockGroup.set_block_group_balloc_bitmap_csum g s bitmap';
  '(r', d') ← update_free_block_counts (write_block d adr bitmap') r g' bgid;
  Ret (bg_idx_to_addr idx bgid, r', d').
(** The loop over the bits near the goal. *)
Fixpoint find_near (bitmap : list Z) (idxs : list Z) : outcome (option Z) :=
  match idxs with
  | [] => Ret None
  | i :: rest => c ← ext4_bmap_is_bit_clr bitmap i; if (c : bool) then Ret (Some i) else find_near bitmap rest
  end.
(** The bit taken in a group: the goal, one near to it, or the first one behind it. *)
Definition find_bit (bitmap : list Z) (idx : Z) : outcome (option Z) :=
  c ← ext4_bmap_is_bit_clr bitmap idx;
  if (c : bool) then Ret (Some idx)
  else
    let blk_in_bg := Superblock.blocks_per_group s in
    let end_idx := Z.min (Z.land (wrap 32 (idx + 63)) (not_bits 32 63)) blk_in_bg in
    o ← find_near bitmap (seqZ (idx + 1) (end_idx - (idx + 1)));
    match o with Some k => Ret (Some k) | None => ext4_bmap_bit_find_clr bitmap idx blk_in_bg end.
(** The loop over the groups; the group of the block is also returned. *)
Fixpoint alloc_groups (count : nat) (d : D) (r : Ext4InodeRef) (bgid idx n : Z) : outcome (Result (Z * Z) Z * Ext4InodeRef * D) :=
  match count with
  | O => Ret (Err ENOSPC, r, d)
  | S count =>
      g ← BlockGroup.load_new fs d s bgid;
      if BlockGroup.get_free_blocks_count g =? 0 then bgid' ← rust_rem (wrap 32 (bgid + 1)) n; alloc_groups count d r bgid' idx n
      else
        first ← addr_to_idx_bg (get_block_of_bgid bgid);
        let idx := if idx <? first then first else idx in
        let adr := BlockGroup.get_block_bitmap_block g s in
        b ← Block.load_offset fs d (adr ⊗ block_size fs);
        o ← find_bit (Block.data b) idx;
        match o with
        | Some k => '(blk, r', d') ← take_block d r g bgid adr (Block.data b) k; Ret (Ok (blk, bgid), r', d')
        | None => bgid' ← rust_rem (wrap 32 (bgid + 1)) n; alloc_groups count d r bgid' idx n
        end
  end.
Definition balloc_alloc_block (d : D) (r : Ext4InodeRef) (goal : option Z) : outcome (Result Z Z * Ext4InodeRef * D) :=
  '(bgid, idx) ← match goal with Some goal => b ← get_bgid_of_block goal; i ← addr_to_idx_bg goal; Ret (b, i) | None => Ret (0, 0) end;
  n ← Superblock.block_group_count s;
  '(x, r', d') ← alloc_groups (Z.to_nat n) d r bgid idx n;
  Ret (map_ok fst x, r', d').
(** [start_bgid] is an in-out parameter. *)
Definition balloc_alloc_block_from (d : D) (r : Ext4InodeRef) (start_bgid : Z) : outcome (Result Z Z * Z * Ext4InodeRef * D) :=
  n ← Superblock.block_group_count s;
  '(x, r', d') ← alloc_groups (Z.to_nat n) d r (if n <=? start_bgid then 0 else start_bgid) 0 n;
  Ret (map_ok fst x, match x with Ok (_, bgid) => bgid | Err _ => start_bgid end, r', d').

(** The loop of [balloc_free_blocks] over the groups; the group number stays that of the first. *)
Fixpoint free_groups (rounds : nat) (d : D) (r : Ext4InodeRef) (sb : list Z) (bgid start count : Z) : outcome (Ext4InodeRef * D) :=
  match rounds with
  | O => Ret (r, d)
  | S rounds =>
      idx ← rust_rem start (Superblock.blocks_per_group s);
      g ← BlockGroup.load_new fs d sb bgid;
      let adr := BlockGroup.get_block_bitmap_block g sb in
      let free_cnt := block_size fs ⊗ 8 ⊖ idx in
      let free_cnt := if free_cnt <? count then free_cnt else count in
      data ← ext4_bmap_bits_free (read_block d adr) (wrap 32 idx) (wrap 32 free_cnt);
      g1 ← BlockGroup.set_block_group_balloc_bitmap_csum g sb data;
      '(sb1, d1) ← Superblock.sync_to_disk_with_csum (write_block d adr data) (Superblock.set_free_blocks_count sb (Superblock.free_blocks_count sb ⊕ free_cnt));
      per ← rust_div (block_size fs) (Superblock.inode_size s);
      '(r1, d2) ← Inode.write_back_inode fs d1 (MkRef (inode_num r) (Inode.set_blocks_count (inode r) (Inode.blocks_count (inode r) ⊖ free_cnt ⊗ per)));
      '(_, d3) ← BlockGroup.sync_to_disk_with_csum fs d2 (BlockGroup.set_free_blocks_count g1 (wrap 32 (BlockGroup.get_free_blocks_count g1 ⊕ free_cnt))) bgid sb1;
      free_groups rounds d3 r1 sb1 bgid (start ⊕ free_cnt) (count ⊖ free_cnt)
  end.
Definition balloc_free_blocks (d : D) (r : Ext4InodeRef) (start count : Z) : outcome (Ext4InodeRef * D) :=
  bg_first ← rust_div start (Superblock.blocks_per_group s);
  bg_last ← rust_div (start ⊕ count ⊖ 1) (Superblock.blocks_per_group s);
  free_groups (Z.to_nat (bg_last - bg_first + 1)) d r s bg_first start count.
End Operations.
End Balloc.

(** ** Layout

    [fs_ok] is a file system of 4096-byte blocks with 64-byte descriptors, all of them in one block;
    [bb] and [it] give the bitmap block and the first inode block of each group. *)
Section Layout.
Context {D : Type} `{!BlockDevice D} {dev_ok : D -> Prop} `{!BlockDeviceOk D dev_ok} (fs : Ext4FileSystem) (G : Z) (bb it : Z -> Z).
Local Notation s := (superblock fs).
Definition group (g : Z) : Prop := 0 <= g < G.
Definition it_len : Z := (Superblock.inodes_per_group s * 256 + 4095) / 4096.
(** The fields of the superblock that are used. *)
Record super_ok (s : list Z) : Prop := {
  so_len : length s = 1024%nat;
  so_bytes : Forall byte_ok s;
  so_desc : Superblock.desc_size_field s = 64;
  so_first : Superblock.first_data_block s = 0;
  so_bpg : Superblock.blocks_per_group s = 32768;
  so_isize : Superblock.inode_size s = 256;
}.
Record fs_ok : Prop := {
  fo_super : super_ok s;
  fo_bs : block_size fs = BLOCK_SIZE;
  fo_groups : Superblock.block_group_count s = Ret G;
  fo_G : 1 <= G <= 63;
  fo_ipg : 0 < Superblock.inodes_per_group s < 2 ^ 24;
  fo_bb : forall g, group g -> 2 <= bb g < G * 32768;
  fo_bb_inj : forall g h, group g -> group h -> bb g = bb h -> g = h;
  fo_it : forall g, group g -> 2 <= it g /\ it g + it_len <= G * 32768;
  fo_apart : forall g h k, group g -> group h -> 0 <= k < it_len -> bb g <> it h + k;
  fo_it_apart : forall g h j k, group g -> group h -> 0 <= j < it_len -> 0 <= k < it_len -> it g + j = it h + k -> g = h;
}.
Context (Hfs : fs_ok).

Definition gdesc (d : D) (g : Z) : list Z := get_bytes (read_block d 1) (64 * g) 64.
(** What a descriptor says about the layout. *)
Definition pointers (g : list Z) : Z * Z * Z * Z := (get_int g 0 4, get_int g 32 4, get_int g 8 4, get_int g 40 4).
Definition desc_ok (d : D) (g : Z) : Prop :=
  BlockGroup.get_block_bitmap_block (gdesc d g) s = bb g /\ BlockGroup.get_inode_table_blk_num (gdesc d g) = it g.

Lemma block_len d i : dev_ok d -> Z.of_nat (length (read_block d i)) = 4096.
Proof. intros Hd. apply (bd_block d i Hd). Qed.
Lemma block_bytes d i : dev_ok d -> Forall byte_ok (read_block d i).
Proof. intros Hd. apply (bd_block d i Hd). Qed.
Lemma set_is_block b o v : is_block b -> Forall byte_ok v -> 0 <= o -> o + Z.of_nat (length v) <= BLOCK_SIZE -> is_block (set_bytes b o v).
Proof. intros [Hl Hb] Hv Ho Hs. split; [rewrite set_bytes_length; [done|done|by rewrite Hl]|by apply set_bytes_Forall]. Qed.

Lemma place_ok t g : super_ok t -> group g -> BlockGroup.place fs t g = Ret (1, 64 * g).
Proof.
  intros Ht Hg. unfold BlockGroup.place. rewrite (fo_bs Hfs), (so_desc _ Ht), (so_first _ Ht). pose proof (fo_G Hfs). unfold group in Hg.
  change (rust_div BLOCK_SIZE 64) with (Ret 64). cbn [mbind outcome_bind]. change (rust_div g 64) with (Ret (g / 64)). cbn [mbind outcome_bind].
  rewrite Z.div_small, Z.mod_small by lia. do 2 f_equal. lia.
Qed.
Lemma load_new_ok d g : dev_ok d -> group g -> BlockGroup.load_new fs d s g = Ret (gdesc d g).
Proof.
  intros Hd Hg. unfold BlockGroup.load_new. rewrite (place_ok s g (fo_super Hfs) Hg). cbn [mbind outcome_bind]. unfold Block.load_offset, Block.read_offset_as. rewrite (fo_bs Hfs).
  change (1 ⊗ BLOCK_SIZE) with 4096. change (rust_div 4096 BLOCK_SIZE) with (Ret 1). cbn [mbind outcome_bind Block.data]. change (rust_rem (64 * g) BLOCK_SIZE) with (Ret ((64 * g) mod 4096)).
  pose proof (fo_G Hfs). unfold group in Hg. rewrite Z.mod_small by lia. cbn [mbind outcome_bind]. rewrite block_len by done. rewrite (proj2 (Z.leb_le _ _)) by lia. done.
Qed.
Lemma gdesc_ok d g : dev_ok d -> group g -> length (gdesc d g) = 64%nat /\ Forall byte_ok (gdesc d g).
Proof.
  intros Hd Hg. pose proof (fo_G Hfs). unfold group in Hg. split; [|by apply get_bytes_ok, block_bytes].
  pose proof (get_bytes_length (read_block d 1) (64 * g) 64). rewrite block_len in H0 by done. unfold gdesc. lia.
Qed.

(** ** Writing the superblock, a descriptor and an inode *)
Lemma uuid_crc t : super_ok t -> exists c, Crc.ext4_crc32c Crc.EXT4_CRC32_INIT (Superblock.uuid t) 16 = Ret c /\ 0 <= c.
Proof.
  intros Ht. apply Crc.crc_ok; [by apply get_bytes_ok, so_bytes|unfold Crc.EXT4_CRC32_INIT; lia|].
  unfold Superblock.uuid. rewrite get_bytes_length by (rewrite ?(so_len _ Ht); lia). lia.
Qed.
(** Changing other fields of the superblock. *)
Lemma super_ok_set t o n v : super_ok t -> 0 <= o -> o + Z.of_nat n <= 1024 -> o + Z.of_nat n <= 20 \/ 36 <= o /\ o + Z.of_nat n <= 88 \/ 256 <= o -> super_ok (set_int t o n v).
Proof.
  intros [Hl Hb H1 H2 H3 H4] Ho Hn Ha. unfold Superblock.desc_size_field, Superblock.first_data_block, Superblock.blocks_per_group, Superblock.inode_size in *.
  split; unfold Superblock.desc_size_field, Superblock.first_data_block, Superblock.blocks_per_group, Superblock.inode_size;
    rewrite ?get_int_set_other by lia; try done; [rewrite set_int_length by lia; done|by apply set_int_bytes].
Qed.
Lemma sync_super_ok d t : dev_ok d -> super_ok t -> exists t' d', Superblock.sync_to_disk_with_csum d t = Ret (t', d') /\ dev_ok d' /\ super_ok t' /\
  forall b, b <> 0 -> read_block d' b = read_block d b.
Proof.
  intros Hd Ht. unfold Superblock.sync_to_disk_with_csum. destruct (Crc.crc_ok t Crc.EXT4_CRC32_INIT 0x3fc) as (c & -> & _); [apply Ht|unfold Crc.EXT4_CRC32_INIT; lia|rewrite (so_len _ Ht); lia|].
  cbn [mbind outcome_bind]. assert (super_ok (set_int t 1020 4 c)) as Ht' by (apply super_ok_set; [done|lia..]). rewrite (so_len _ Ht'). cbn [Z.of_nat Z.eqb rust_assert]. change (Z.of_nat 1024 =? 1024) with true. cbn [rust_assert mbind outcome_bind].
  change (1024 / BLOCK_SIZE) with 0. assert (is_block (set_bytes (read_block d 0) 1024 (set_int t 1020 4 c))) as Hb.
  { apply set_is_block; [by apply bd_block|apply Ht'|lia|rewrite (so_len _ Ht'); unfold BLOCK_SIZE; lia]. }
  eexists _, _. split; [done|]. split; [by apply bd_ok|]. split; [done|]. intros b Hne. by apply bd_other.
Qed.

Definition is_desc (g : list Z) : Prop := length g = 64%nat /\ Forall byte_ok g.
Lemma desc_set g o n v : is_desc g -> 12 <= o /\ o + Z.of_nat n <= 32 \/ 44 <= o /\ o + Z.of_nat n <= 64 -> is_desc (set_int g o n v) /\ pointers (set_int g o n v) = pointers g.
Proof.
  intros [Hl Hb] Ho. unfold is_desc, pointers. rewrite set_int_length by lia. rewrite !get_int_set_other by lia. split; [|done]. split; [done|by apply set_int_bytes].
Qed.
Lemma free_count_desc g c : is_desc g -> is_desc (BlockGroup.set_free_blocks_count g c) /\ pointers (BlockGroup.set_free_blocks_count g c) = pointers g.
Proof. intros Hg. unfold BlockGroup.set_free_blocks_count. destruct (desc_set g 12 2 (Z.land c 0xffff) Hg) as [H1 <-]; [lia|]. apply desc_set; [done|lia]. Qed.
Lemma bitmap_csum_ok g b : is_desc g -> is_block b -> exists g', BlockGroup.set_block_group_balloc_bitmap_csum g s b = Ret g' /\ is_desc g' /\ pointers g' = pointers g.
Proof.
  intros Hg [Lb Hb]. unfold BlockGroup.set_block_group_balloc_bitmap_csum, Superblock.ext4_balloc_bitmap_csum. destruct (uuid_crc s (fo_super Hfs)) as (c & -> & Hc). cbn [mbind outcome_bind].
  rewrite (so_bpg _ (fo_super Hfs)). change (32768 / 8) with 4096. destruct (Crc.crc_ok b c 4096 Hb Hc) as (c' & -> & _); [unfold BLOCK_SIZE in Lb; lia|]. cbn [mbind outcome_bind].
  destruct (_ =? 0); [by exists g|]. destruct (desc_set g 24 2 (Z.land c' 0xFFFF) Hg) as [H1 H2]; [lia|]. eexists. split; [done|].
  destruct (_ =? 64); [|done]. rewrite <- H2. apply desc_set; [done|lia].
Qed.
Lemma sync_group_ok d g t h : dev_ok d -> super_ok t -> group h -> is_desc g -> exists g' d', BlockGroup.sync_to_disk_with_csum fs d g h t = Ret (g', d') /\ dev_ok d' /\
  pointers g' = pointers g /\ gdesc d' h = g' /\ (forall k, group k -> k <> h -> gdesc d' k = gdesc d k) /\ forall b, b <> 1 -> read_block d' b = read_block d b.
Proof.
  intros Hd Ht Hh Hg. unfold BlockGroup.sync_to_disk_with_csum, BlockGroup.get_block_group_checksum. destruct (uuid_crc t Ht) as (c & -> & Hc). cbn [mbind outcome_bind].
  destruct (Crc.crc_ok (le_split 4 (wrap 32 h)) c 4 (le_split_bytes _ _) Hc) as (c2 & -> & Hc2); [rewrite le_split_length; lia|]. cbn [mbind outcome_bind].
  destruct (desc_set g 30 2 0 Hg) as [[L0 B0] _]; [lia|]. unfold Superblock.desc_size. rewrite (so_desc _ Ht). change (64 <? 32) with false. cbn iota.
  destruct (Crc.crc_ok (set_int g 30 2 0) c2 64 B0 Hc2) as (c3 & -> & _); [rewrite L0; lia|]. cbn [mbind outcome_bind].
  destruct (desc_set g 30 2 (Z.land c3 0xFFFF) Hg) as [[L1 B1] P1]; [lia|]. set (g' := set_int g 30 2 (Z.land c3 0xFFFF)) in *. unfold BlockGroup.sync_block_group_to_disk.
  rewrite (place_ok t h Ht Hh). cbn [mbind outcome_bind]. rewrite (fo_bs Hfs). pose proof (fo_G Hfs). unfold group in *. rewrite (proj2 (Z.leb_gt _ _)) by (unfold BLOCK_SIZE; lia). cbn [mbind outcome_bind].
  assert (is_block (set_bytes (read_block d 1) (64 * h) g')) as Hb by (apply set_is_block; [by apply bd_block|done|lia|rewrite L1; unfold BLOCK_SIZE; lia]).
  pose proof (block_len d 1 Hd) as Lb. eexists _, _. split; [done|]. split; [by apply bd_ok|]. split; [done|]. unfold gdesc. rewrite bd_same by done. split.
  { apply get_set_len; rewrite ?L1; lia. }
  split; [|intros; by apply bd_other]. intros k Hk Hne. apply get_set_apart; rewrite ?L1; lia.
Qed.

Definition valid_inode (n : Z) : Prop := 1 <= n < 2 ^ 32 /\ group ((n - 1) / Superblock.inodes_per_group s).
Definition iblk (n : Z) : Z := it ((n - 1) / Superblock.inodes_per_group s) + ((n - 1) mod Superblock.inodes_per_group s) / 16.
Definition ioff (n : Z) : Z := (((n - 1) mod Superblock.inodes_per_group s) mod 16) * 256.
Definition disk_inode (d : D) (n : Z) : list Z := get_bytes (read_block d (iblk n)) (ioff n) 156.
Definition is_inode (i : list Z) : Prop := length i = 156%nat /\ Forall byte_ok i.
(** Equal up to the checksum and what follows it. *)
Definition agree (i i' : list Z) : Prop := get_bytes i' 0 124 = get_bytes i 0 124.

Lemma iblk_range n : valid_inode n -> 0 <= ((n - 1) mod Superblock.inodes_per_group s) / 16 < it_len /\ 2 <= iblk n < G * 32768 /\ 0 <= ioff n <= 3840.
Proof.
  intros [Hn Hg]. pose proof (fo_ipg Hfs). destruct (fo_it Hfs _ Hg) as [H1 H2]. unfold iblk, ioff. assert (0 <= ((n - 1) mod Superblock.inodes_per_group s) / 16 < it_len) as Hk.
  { unfold it_len. Z.to_euclidean_division_equations; nia. }
  split; [done|]. split; [lia|]. pose proof (Z.mod_pos_bound ((n - 1) mod Superblock.inodes_per_group s) 16). lia.
Qed.
Lemma inode_pos_ok d n : dev_ok d -> valid_inode n -> desc_ok d ((n - 1) / Superblock.inodes_per_group s) -> Inode.inode_disk_pos fs d n = Ret (iblk n * 4096 + ioff n).
Proof.
  intros Hd Hv [_ Ht]. pose proof (iblk_range n Hv) as (Hk & Hb & Ho). pose proof Hv as [Hn Hg]. pose proof (fo_ipg Hfs). pose proof (fo_G Hfs). unfold Inode.inode_disk_pos. cbv zeta. rewrite wrap_small by (unfold in_range; lia).
  unfold rust_div. rewrite (proj2 (Z.eqb_neq _ 0)) by lia. cbn [mbind outcome_bind]. rewrite load_new_ok by done. cbn [mbind outcome_bind]. rewrite Ht, (fo_bs Hfs), (so_isize _ (fo_super Hfs)).
  destruct (fo_it Hfs _ Hg) as [H1 H2]. f_equal. unfold BLOCK_SIZE. pose proof (Z.mod_pos_bound (n - 1) (Superblock.inodes_per_group s)).
  assert (0 <= it ((n - 1) / Superblock.inodes_per_group s) * 4096 < 2 ^ 40) by (unfold it_len in *; nia).
  rewrite !mul64_small by (unfold in_range; lia). rewrite add64_small by (unfold in_range; lia). unfold iblk, ioff. Z.to_euclidean_division_equations; lia.
Qed.
Lemma inode_place n : valid_inode n -> (iblk n * 4096 + ioff n) / 4096 = iblk n /\ (iblk n * 4096 + ioff n) mod 4096 = ioff n.
Proof. intros Hv. pose proof (iblk_range n Hv). Z.to_euclidean_division_equations; lia. Qed.
Lemma get_inode_ref_ok d n : dev_ok d -> valid_inode n -> desc_ok d ((n - 1) / Superblock.inodes_per_group s) -> Inode.get_inode_ref fs d n = Ret (MkRef n (disk_inode d n)).
Proof.
  intros Hd Hv Hp. pose proof (iblk_range n Hv) as (Hk & Hb & Ho). destruct (inode_place n Hv) as [E1 E2]. unfold Inode.get_inode_ref. rewrite inode_pos_ok by done. cbn [mbind outcome_bind].
  unfold Block.load_offset, Block.read_offset_as. rewrite (fo_bs Hfs). unfold rust_div, rust_rem, BLOCK_SIZE. cbn [Z.eqb mbind outcome_bind Block.data]. rewrite E1, E2, Z.mod_small by lia.
  rewrite block_len by done. rewrite (proj2 (Z.leb_le _ _)) by lia. done.
Qed.
Lemma disk_inode_ok d n : dev_ok d -> valid_inode n -> is_inode (disk_inode d n).
Proof.
  intros Hd Hv. pose proof (iblk_range n Hv) as (_ & _ & Ho). split; [|by apply get_bytes_ok, block_bytes]. pose proof (get_bytes_length (read_block d (iblk n)) (ioff n) 156). rewrite block_len in H by done. unfold disk_inode. lia.
Qed.
Lemma inode_set i o n v : is_inode i -> 0 <= o -> o + Z.of_nat n <= 156 -> is_inode (set_int i o n v) /\ (124 <= o -> agree i (set_int i o n v)).
Proof.
  intros [Hl Hb] Ho Hn. unfold is_inode, agree. rewrite set_int_length by lia. split; [split; [done|by apply set_int_bytes]|]. intros. apply get_bytes_set_int; lia.
Qed.
Lemma agree_trans i1 i2 i3 : agree i1 i2 -> agree i2 i3 -> agree i1 i3.
Proof. unfold agree. congruence. Qed.
Lemma set_checksum_ok i n : is_inode i -> exists i', Inode.set_inode_checksum i s n = Ret i' /\ is_inode i' /\ agree i i'.
Proof.
  intros Hi. unfold Inode.set_inode_checksum, Inode.get_inode_checksum, Inode.set_inode_checksum_value. destruct (uuid_crc s (fo_super Hfs)) as (c & -> & Hc). cbn [mbind outcome_bind].
  destruct (Crc.crc_ok (le_split 4 n) c 4 (le_split_bytes _ _) Hc) as (c2 & -> & Hc2); [rewrite le_split_length; lia|]. cbn [mbind outcome_bind].
  destruct (Crc.crc_ok (le_split 4 (Inode.generation i)) c2 4 (le_split_bytes _ _) Hc2) as (c3 & -> & Hc3); [rewrite le_split_length; lia|]. cbn [mbind outcome_bind].
  destruct (inode_set i 124 2 0 Hi) as [H1 A1]; [lia..|]. destruct (inode_set _ 130 2 0 H1) as [H2 A2]; [lia..|]. set (i0 := set_int (set_int i 124 2 0) 130 2 0) in *.
  rewrite (so_isize _ (fo_super Hfs)). destruct (Crc.crc_ok (i0 ++ replicate (256 - 156) 0) c3 256) as (c4 & -> & _); [|done| |].
  { apply Forall_app. split; [apply H2|]. apply Forall_replicate. unfold byte_ok. lia. }
  { rewrite length_app, length_replicate. destruct H2 as [-> _]. lia. }
  cbn [mbind outcome_bind]. change (128 <? 256) with true. change (256 =? 128) with false. cbn iota.
  destruct (inode_set i0 124 2 (Z.land c4 0xffff) H2) as [H3 A3]; [lia..|]. destruct (inode_set _ 130 2 (wrap 16 (Z.shiftr c4 16)) H3) as [H4 A4]; [lia..|].
  destruct (inode_set _ 124 2 (wrap 16 (Z.shiftr (wrap 32 (Z.shiftl c4 16)) 16)) H4) as [H5 A5]; [lia..|]. destruct (inode_set _ 130 2 (wrap 16 (Z.shiftr c4 16)) H5) as [H6 A6]; [lia..|].
  eexists. split; [done|]. split; [done|]. do 5 (eapply agree_trans; [|by (apply A6 || apply A5 || apply A4 || apply A3 || apply A2); lia]). by apply A1.
Qed.

(** What the file system relies on in an inode: its size and its extents. *)
Definition inode_kept (i i' : list Z) : Prop := is_inode i' /\ Inode.size i' = Inode.size i /\ Inode.block i' = Inode.block i.
Lemma agree_int i i' o n : agree i i' -> 0 <= o -> o + Z.of_nat n <= 124 -> get_int i' o n = get_int i o n.
Proof. intros H Ho Hn. pose proof (get_int_get i' 0 124 o n) as E1. pose proof (get_int_get i 0 124 o n) as E2. rewrite Z.add_0_l in E1, E2. rewrite <- E1, <- E2 by lia. by rewrite H. Qed.
Lemma agree_bytes i i' o n : agree i i' -> 0 <= o -> 0 <= n -> o + n <= 124 -> get_bytes i' o n = get_bytes i o n.
Proof. intros H Ho Hn Hl. pose proof (get_bytes_get i' 0 124 o n) as E1. pose proof (get_bytes_get i 0 124 o n) as E2. rewrite Z.add_0_l in E1, E2. rewrite <- E1, <- E2 by lia. by rewrite H. Qed.
Lemma agree_kept i i' : is_inode i' -> agree i i' -> inode_kept i i'.
Proof.
  intros Hi Ha. split; [done|]. unfold Inode.size, Inode.block. rewrite !(agree_int i i') by (done || lia). split; [done|]. apply agree_bytes; [done|lia..].
Qed.
Lemma kept_blocks i v : is_inode i -> inode_kept i (Inode.set_blocks_count i v).
Proof.
  intros Hi. unfold Inode.set_blocks_count. destruct (inode_set i 28 4 (Z.land v 0xFFFFFFFF) Hi) as [H1 _]; [lia..|]. destruct (inode_set _ 116 2 (wrap 16 (Z.shiftr v 32)) H1) as [H2 _]; [lia..|].
  split; [done|]. destruct Hi as [Hl _], H1 as [Hl1 _]. unfold Inode.size, Inode.block. rewrite !get_int_set_other by lia. rewrite !get_bytes_set_int by lia. done.
Qed.
Lemma inode_kept_trans i1 i2 i3 : inode_kept i1 i2 -> inode_kept i2 i3 -> inode_kept i1 i3.
Proof. intros (A1 & A2 & A3) (B1 & B2 & B3). split; [done|]. split; congruence. Qed.

Lemma iblk_eq m n : valid_inode m -> valid_inode n -> iblk m = iblk n -> ioff m = ioff n -> m = n.
Proof.
  intros Hm Hn Eb Eo. pose proof (iblk_range m Hm) as (K1 & _). pose proof (iblk_range n Hn) as (K2 & _). unfold iblk, ioff in *. pose proof (fo_ipg Hfs).
  assert ((m - 1) / Superblock.inodes_per_group s = (n - 1) / Superblock.inodes_per_group s) as Eg by (eapply (fo_it_apart Hfs); [apply Hm|apply Hn|apply K1|apply K2|done]).
  rewrite Eg in Eb. Z.to_euclidean_division_equations; nia.
Qed.
Lemma write_inode_ok d n i : dev_ok d -> valid_inode n -> is_inode i -> let d' := write_block d (iblk n) (set_bytes (read_block d (iblk n)) (ioff n) i) in
  dev_ok d' /\ disk_inode d' n = i /\ (forall m, valid_inode m -> m <> n -> disk_inode d' m = disk_inode d m) /\ forall b, b <> iblk n -> read_block d' b = read_block d b.
Proof.
  intros Hd Hv [Li Bi] d'. pose proof (iblk_range n Hv) as (_ & Hb & Ho). pose proof (block_len d (iblk n) Hd) as Lb.
  assert (is_block (set_bytes (read_block d (iblk n)) (ioff n) i)) as Hbl by (apply set_is_block; [by apply bd_block|done|lia|rewrite Li; unfold BLOCK_SIZE; lia]).
  split; [by apply bd_ok|]. unfold disk_inode, d'. split; [rewrite bd_same by done; apply get_set_len; rewrite ?Li; lia|]. split; [|intros; by apply bd_other].
  intros m Hm Hne. destruct (decide (iblk m = iblk n)) as [E|E]; [|by rewrite bd_other by congruence]. rewrite E, bd_same by done. pose proof (iblk_range m Hm) as (_ & _ & Hom).
  apply get_set_apart; rewrite ?Li; try lia. destruct (decide (ioff m = ioff n)) as [E'|]; [by destruct Hne; apply iblk_eq|]. unfold ioff in *. lia.
Qed.
Lemma inode_write_back_ok d r : dev_ok d -> valid_inode (inode_num r) -> desc_ok d ((inode_num r - 1) / Superblock.inodes_per_group s) -> is_inode (inode r) ->
  exists i' d', Inode.write_back_inode fs d r = Ret (MkRef (inode_num r) i', d') /\ dev_ok d' /\ inode_kept (inode r) i' /\ disk_inode d' (inode_num r) = i' /\
    (forall m, valid_inode m -> m <> inode_num r -> disk_inode d' m = disk_inode d m) /\ forall b, b <> iblk (inode_num r) -> read_block d' b = read_block d b.
Proof.
  intros Hd Hv Hp Hi. pose proof (iblk_range _ Hv) as (_ & _ & Ho). destruct (inode_place _ Hv) as [E1 E2]. unfold Inode.write_back_inode. rewrite inode_pos_ok by done. cbn [mbind outcome_bind].
  destruct (set_checksum_ok (inode r) (inode_num r) Hi) as (i' & -> & Hi' & Ha). cbn [mbind outcome_bind]. unfold Inode.sync_inode_to_disk. rewrite (fo_bs Hfs). unfold rust_div, rust_rem, BLOCK_SIZE. cbn [Z.eqb mbind outcome_bind].
  rewrite E1, E2. rewrite (proj2 (Z.ltb_ge _ _)) by lia. cbn [mbind outcome_bind]. destruct (write_inode_ok d (inode_num r) i' Hd Hv Hi') as (H1 & H2 & H3 & H4).
  eexists _, _. split; [done|]. split; [done|]. split; [by apply agree_kept|done].
Qed.

(** ** The state of the disk *)

(** The bit of a block. *)
Definition used (d : D) (b : Z) : bool := bv_test 8 (read_block d (bb (b / 32768))) (b mod 32768).
Definition in_itable (b : Z) : Prop := exists g k, group g /\ 0 <= k < it_len /\ b = it g + k.
Definition meta (b : Z) : Prop := b = 0 \/ b = 1 \/ (exists g, group g /\ b = bb g) \/ in_itable b.
Record disk_ok (d : D) : Prop := {
  dk_dev : dev_ok d;
  dk_desc : forall g, group g -> desc_ok d g;
  dk_meta : forall b, meta b -> used d b = true;
}.
(** Only metadata was written, and inode [r] is stored as it is in memory. *)
Record stored (d : D) (r : Ext4InodeRef) (d' : D) (r' : Ext4InodeRef) : Prop := {
  st_dev : dev_ok d';
  st_desc : forall g, group g -> desc_ok d' g;
  st_num : inode_num r' = inode_num r;
  st_inode : disk_inode d' (inode_num r) = inode r';
  st_others : forall m, valid_inode m -> m <> inode_num r -> disk_inode d' m = disk_inode d m;
  st_data : forall b, ~ meta b -> read_block d' b = read_block d b;
}.

Lemma desc_ok_pointers d d' g : pointers (gdesc d' g) = pointers (gdesc d g) -> desc_ok d g -> desc_ok d' g.
Proof.
  unfold pointers, desc_ok, BlockGroup.get_block_bitmap_block, BlockGroup.get_inode_table_blk_num. intros [= -> -> -> ->]. done.
Qed.
Lemma gdesc_same d d' g : read_block d' 1 = read_block d 1 -> gdesc d' g = gdesc d g.
Proof. intros E. unfold gdesc. by rewrite E. Qed.
Lemma iblk_meta n : valid_inode n -> meta (iblk n) /\ iblk n <> 0 /\ iblk n <> 1 /\ forall g, group g -> iblk n <> bb g.
Proof.
  intros Hv. pose proof (iblk_range n Hv) as (Hk & Hb & _). split; [right; right; right; eexists _, _; split; [apply Hv|by split]|]. split; [lia|]. split; [lia|].
  intros g Hg E. symmetry in E. revert E. apply (fo_apart Hfs); [done|apply Hv|done].
Qed.

Lemma update_free_ok d r g h : dev_ok d -> (forall g, group g -> desc_ok d g) -> valid_inode (inode_num r) -> is_inode (inode r) -> group h -> is_desc g -> pointers g = pointers (gdesc d h) ->
  exists r' d', Balloc.update_free_block_counts fs d r g h = Ret (r', d') /\ stored d r d' r' /\ inode_kept (inode r) (inode r') /\ forall b, b <> 0 -> b <> 1 -> b <> iblk (inode_num r) -> read_block d' b = read_block d b.
Proof.
  intros Hd Hdesc Hv Hi Hh Hg Hp. unfold Balloc.update_free_block_counts.
  destruct (sync_super_ok d (Superblock.set_free_blocks_count s (Superblock.free_blocks_count s ⊖ 1)) Hd) as (t & d1 & -> & Hd1 & Ht & R1).
  { apply super_ok_set; [|lia..]. apply super_ok_set; [|lia..]. apply (fo_super Hfs). }
  cbn [mbind outcome_bind]. rewrite (fo_bs Hfs), (so_isize _ (fo_super Hfs)). change (rust_div BLOCK_SIZE 256) with (Ret 16). cbn [mbind outcome_bind].
  set (i1 := Inode.set_blocks_count (inode r) _). assert (inode_kept (inode r) i1) as Hk1 by (by apply kept_blocks).
  assert (forall g, group g -> desc_ok d1 g) as Hdesc1 by (intros k Hk; eapply desc_ok_pointers; [|by apply Hdesc]; by rewrite (gdesc_same d d1) by (apply R1; lia)).
  destruct (inode_write_back_ok d1 (MkRef (inode_num r) i1) Hd1 Hv) as (i2 & d2 & -> & Hd2 & Hk2 & I2 & O2 & R2); [apply Hdesc1, Hv|apply Hk1|]. cbn [mbind outcome_bind inode_num inode] in *.
  destruct (iblk_meta _ Hv) as (Hm & Hn0 & Hn1 & _). destruct (free_count_desc g (wrap 32 (BlockGroup.get_free_blocks_count g ⊖ 1)) Hg) as [Hg' Pg'].
  destruct (sync_group_ok d2 _ t h Hd2 Ht Hh Hg') as (g3 & d3 & -> & Hd3 & P3 & G3 & O3 & R3). cbn [mbind outcome_bind].
  assert (read_block d2 1 = read_block d 1) as E1 by (rewrite R2, R1 by lia; done).
  eexists _, _. split; [done|]. split; [|split; [by eapply inode_kept_trans|]; intros b B0 B1 B2; rewrite R3, R2, R1 by done; done].
  assert (forall m, valid_inode m -> disk_inode d3 m = disk_inode d2 m) as I3 by (intros m Hm'; unfold disk_inode; destruct (iblk_meta m Hm') as (_ & _ & ? & _); by rewrite R3).
  assert (forall m, valid_inode m -> disk_inode d1 m = disk_inode d m) as I1 by (intros m Hm'; unfold disk_inode; destruct (iblk_meta m Hm') as (_ & ? & _ & _); by rewrite R1).
  split; cbn [inode_num inode]; [done| |done|by rewrite I3| |].
  - intros k Hk. apply (desc_ok_pointers d); [|by apply Hdesc]. destruct (decide (k = h)) as [->|]; [rewrite G3, P3, Pg'; done|]. by rewrite O3, (gdesc_same d d2).
  - intros m Hm' Hne. by rewrite I3, O2, I1.
  - intros b Hb. rewrite R3, R2, R1; [done|intros ->; apply Hb..]; [by left|by apply Hm|by right; left].
Qed.

(** ** Allocating *)
Lemma used_meta_block d d' b : read_block d' (bb (b / 32768)) = read_block d (bb (b / 32768)) -> used d' b = used d b.
Proof. intros E. unfold used. by rewrite E. Qed.
Lemma block_split b : 0 <= b < G * 32768 -> group (b / 32768) /\ 0 <= b mod 32768 < 32768.
Proof. intros Hb. unfold group. Z.to_euclidean_division_equations; lia. Qed.
Lemma meta_range b : meta b -> 0 <= b < G * 32768.
Proof.
  pose proof (fo_G Hfs). intros [->|[->|[(g & Hg & ->)|(g & k & Hg & Hk & ->)]]]; [lia|lia| |].
  - pose proof (fo_bb Hfs g Hg). lia.
  - destruct (fo_it Hfs g Hg). lia.
Qed.
Lemma bitmap_words d b : dev_ok d -> bv_words 8 (read_block d b).
Proof. intros Hd. eapply Forall_impl; [by apply block_bytes|]. unfold byte_ok, in_range. lia. Qed.
Lemma desc_of d h : disk_ok d -> group h -> is_desc (gdesc d h).
Proof. intros Hd Hh. apply gdesc_ok; [apply Hd|done]. Qed.

(** [b] was free and is used now; nothing else was taken, and no data was written. *)
Record took (d : D) (r : Ext4InodeRef) (b : Z) (d' : D) (r' : Ext4InodeRef) : Prop := {
  tk_range : 0 <= b < G * 32768;
  tk_free : used d b = false;
  tk_used : forall j, 0 <= j < G * 32768 -> used d' j = bool_decide (j = b) || used d j;
  tk_ok : disk_ok d';
  tk_stored : stored d r d' r';
  tk_inode : inode_kept (inode r) (inode r');
}.
Lemma took_not_meta d r b d' r' : disk_ok d -> took d r b d' r' -> ~ meta b.
Proof. intros Hd Ht Hm. pose proof (dk_meta _ Hd b Hm). rewrite (tk_free _ _ _ _ _ Ht) in *. done. Qed.
Lemma take_block_ok d r h k : disk_ok d -> valid_inode (inode_num r) -> is_inode (inode r) -> group h -> 0 <= k < 32768 -> bv_test 8 (read_block d (bb h)) k = false ->
  exists r' d', Balloc.take_block fs d r (gdesc d h) h (bb h) (read_block d (bb h)) k = Ret (h * 32768 + k, r', d') /\ took d r (h * 32768 + k) d' r'.
Proof.
  intros Hd Hv Hi Hh Hk Hf. pose proof (dk_dev _ Hd) as Hdev. pose proof (fo_G Hfs) as HG. unfold Balloc.take_block.
  destruct (Bitmap.bmap_set_ok (read_block d (bb h)) k) as (bm & -> & Hw & Hl & Ht); [by apply bitmap_words|rewrite block_len by done; lia|]. cbn [mbind outcome_bind].
  assert (is_block bm) as Hbm by (split; [rewrite Hl; by apply block_len|]; eapply Forall_impl; [apply Hw|]; unfold byte_ok, in_range; lia).
  destruct (bitmap_csum_ok (gdesc d h) bm (desc_of d h Hd Hh) Hbm) as (g' & -> & Hg' & Pg'). cbn [mbind outcome_bind].
  pose proof (fo_bb Hfs h Hh) as Hbb. set (d1 := write_block d (bb h) bm). assert (dev_ok d1) as Hd1 by (by apply bd_ok).
  assert (forall b, b <> bb h -> read_block d1 b = read_block d b) as R1 by (intros b Hb; apply bd_other; done).
  assert (forall g, gdesc d1 g = gdesc d g) as G1 by (intros g; apply gdesc_same, R1; lia).
  destruct (update_free_ok d1 r g' h Hd1) as (r' & d' & -> & Hst & Hkept & Hrest); [|done..|by rewrite G1|].
  { intros g Hg. apply (desc_ok_pointers d); [by rewrite G1|by apply Hd]. }
  cbn [mbind outcome_bind]. exists r', d'. split.
  { do 3 f_equal. unfold Balloc.bg_idx_to_addr. rewrite (so_first _ (fo_super Hfs)), (so_bpg _ (fo_super Hfs)). cbn [Z.eqb negb]. unfold group in Hh. rewrite mul64_small by (unfold in_range; lia). rewrite add64_small by (unfold in_range; lia). lia. }
  destruct (iblk_meta _ Hv) as (Hm & _ & _ & Hnb).
  assert (forall g, group g -> read_block d' (bb g) = read_block d1 (bb g)) as Rb.
  { intros g Hg. pose proof (fo_bb Hfs g Hg). apply Hrest; [lia..|]. intros E. by destruct (Hnb g Hg). }
  assert (forall j, 0 <= j < G * 32768 -> used d' j = bool_decide (j = h * 32768 + k) || used d j) as Hu.
  { intros j Hj. destruct (block_split j Hj) as [Hgj Hkj]. unfold used. rewrite Rb by done. destruct (decide (j / 32768 = h)) as [E|E].
    - rewrite E. unfold d1. rewrite bd_same by done. rewrite Ht by lia. f_equal. case_bool_decide; case_Z; try done; Z.to_euclidean_division_equations; lia.
    - rewrite R1 by (intros E'; apply E; by apply (fo_bb_inj Hfs)). rewrite bool_decide_eq_false_2; [done|]. intros ->. apply E. Z.to_euclidean_division_equations; lia. }
  unfold group in Hh. split; [lia| |done| | |done].
  - unfold used. replace ((h * 32768 + k) / 32768) with h by (Z.to_euclidean_division_equations; lia). by replace ((h * 32768 + k) mod 32768) with k by (Z.to_euclidean_division_equations; lia).
  - split; [apply Hst|apply Hst|]. intros b Hb. rewrite Hu by (by apply meta_range). rewrite (dk_meta _ Hd b Hb). apply orb_true_r.
  - assert (forall b, ~ meta b -> b <> bb h) as Hnm by (intros b Hb ->; apply Hb; right; right; left; by exists h).
    split; [apply Hst..| |]; [intros m Hm' Hne; rewrite (st_others _ _ _ _ Hst) by done|intros b Hb; rewrite (st_data _ _ _ _ Hst) by done; by apply R1, Hnm].
    unfold disk_inode. rewrite R1; [done|]. by apply iblk_meta.
Qed.

Lemma find_near_ok bm l : bv_words 8 bm -> Forall (fun i => 0 <= i < 8 * Z.of_nat (length bm)) l ->
  exists o, Balloc.find_near bm l = Ret o /\ match o with Some k => exists l1 l2, l = l1 ++ k :: l2 /\ bv_test 8 bm k = false /\ Forall (fun j => bv_test 8 bm j = true) l1 | None => Forall (fun j => bv_test 8 bm j = true) l end.
Proof.
  intros Hw. induction 1 as [|i l Hi Hl (o & E & Ho)]; cbn [Balloc.find_near]; [by exists None|]. rewrite Bitmap.is_clr_ok by done. cbn [mbind outcome_bind].
  destruct (bv_test 8 bm i) eqn:Ei; cbn [negb].
  - exists o. split; [done|]. destruct o as [k|]; [|by constructor]. destruct Ho as (l1 & l2 & -> & Hk & Hs). exists (i :: l1), l2. split; [done|]. split; [done|]. by constructor.
  - exists (Some i). split; [done|]. exists [], l. done.
Qed.
(** The bits from the goal to the next multiple of 64. *)
Lemma near_end idx : 0 <= idx < 32768 -> Z.min (Z.land (wrap 32 (idx + 63)) (not_bits 32 63)) 32768 = (idx + 63) / 64 * 64.
Proof.
  intros Hi. rewrite wrap_small by (unfold in_range; lia). replace (Z.land (idx + 63) (not_bits 32 63)) with ((idx + 63) / 64 * 64); [Z.to_euclidean_division_equations; lia|].
  apply Z.bits_inj'. intros i Hi'. change 64 with (2 ^ 6). rewrite Z.mul_pow2_bits by lia. rewrite Z.land_spec. destruct (Z.ltb_spec i 6).
  - rewrite Z.testbit_neg_r, testbit_not_bits by lia. replace (Z.testbit 63 i) with true by (symmetry; apply (Z.ones_spec_low 6 i); lia). by rewrite andb_false_r.
  - rewrite Z.div_pow2_bits by lia. replace (i - 6 + 6) with i by lia. destruct (Z.ltb_spec i 32).
    + rewrite testbit_not_bits by lia. replace (Z.testbit 63 i) with false by (symmetry; apply (Z.ones_spec_high 6 i); lia). by rewrite andb_true_r.
    + by rewrite (testbit_high 32 (idx + 63)) by (unfold in_range; lia).
Qed.
Lemma find_bit_ok bm idx : bv_words 8 bm -> length bm = 4096%nat -> 0 <= idx < 32768 -> exists o, Balloc.find_bit fs bm idx = Ret o /\ Bitmap.first_clear bm idx 32768 o.
Proof.
  intros Hw Hl Hi. unfold Balloc.find_bit. rewrite (so_bpg _ (fo_super Hfs)), near_end by done. rewrite Bitmap.is_clr_ok by (done || lia). cbn [mbind outcome_bind].
  destruct (bv_test 8 bm idx) eqn:E; cbn [negb]; [|exists (Some idx); split; [done|]; split; [lia|]; split; [done|]; intros; lia].
  set (e := (idx + 63) / 64 * 64). assert (idx <= e <= 32768 /\ (e - idx) mod 64 = (- idx) mod 64 /\ e < idx + 64) as He by (unfold e; Z.to_euclidean_division_equations; lia).
  destruct (find_near_ok bm (seqZ (idx + 1) (e - (idx + 1))) Hw) as (o & -> & Ho); [apply Forall_forall; intros j Hj; apply elem_of_seqZ in Hj; lia|]. cbn [mbind outcome_bind]. destruct o as [k|].
  - destruct Ho as (l1 & l2 & El & Hk & Hs). exists (Some k). split; [done|]. rewrite Forall_forall in Hs.
    assert (k = idx + 1 + Z.of_nat (length l1) /\ idx + 1 + Z.of_nat (length l1) < e) as [Ek Hke].
    { assert (seqZ (idx + 1) (e - (idx + 1)) !! length l1 = Some k) as Hlk by (rewrite El; by apply list_lookup_middle). apply lookup_seqZ in Hlk. lia. }
    split; [lia|]. split; [done|]. intros j Hj. destruct (decide (j = idx)) as [->|]; [done|]. apply Hs. apply (list_elem_of_lookup_2 _ (Z.to_nat (j - (idx + 1)))).
    rewrite <- (lookup_app_l l1 (k :: l2)) by lia. rewrite <- El. rewrite lookup_seqZ_lt by lia. f_equal. lia.
  - rewrite Forall_forall in Ho. apply Bitmap.find_clr_ok; [done|lia|lia|lia|]. intros j Hj Ej Hne. destruct (decide (j = idx)) as [->|]; [done|]. apply Ho, elem_of_seqZ. unfold e. Z.to_euclidean_division_equations; lia.
Qed.

(** A group without free blocks, by its counter or by its bitmap. *)
Definition full (d : D) (g : Z) : Prop := BlockGroup.get_free_blocks_count (gdesc d g) = 0 \/ forall k, 0 <= k < 32768 -> used d (g * 32768 + k) = true.
Lemma alloc_groups_ok d r : disk_ok d -> valid_inode (inode_num r) -> is_inode (inode r) -> forall count g, group g ->
  (exists b h r' d', Balloc.alloc_groups fs count d r g 0 G = Ret (Ok (b, h), r', d') /\ group h /\ took d r b d' r') \/
  Balloc.alloc_groups fs count d r g 0 G = Ret (Err ENOSPC, r, d) /\ forall k, 0 <= k < Z.of_nat count -> full d ((g + k) mod G).
Proof.
  intros Hd Hv Hi. pose proof (fo_G Hfs) as HG. pose proof (dk_dev _ Hd) as Hdev. induction count as [|count IH]; intros g Hg; cbn [Balloc.alloc_groups]; [right; split; [done|lia]|]. pose proof Hg as Hg'. unfold group in Hg'.
  rewrite load_new_ok by done. cbn [mbind outcome_bind]. unfold rust_rem. rewrite (proj2 (Z.eqb_neq G 0)) by lia. rewrite (wrap_small 32 (g + 1)) by (unfold in_range; lia).
  assert (group ((g + 1) mod G)) as Hn by (unfold group; apply Z.mod_pos_bound; lia).
  assert (full d g -> (exists b h r' d', Balloc.alloc_groups fs count d r ((g + 1) mod G) 0 G = Ret (Ok (b, h), r', d') /\ group h /\ took d r b d' r') \/
    Balloc.alloc_groups fs count d r ((g + 1) mod G) 0 G = Ret (Err ENOSPC, r, d) /\ forall k, 0 <= k < Z.of_nat (S count) -> full d ((g + k) mod G)) as Hnext.
  { intros Hfull. destruct (IH _ Hn) as [H|[H1 H2]]; [by left|right]. split; [done|]. intros k Hk. destruct (decide (k = 0)) as [->|]; [by rewrite Z.add_0_r, Z.mod_small by lia|].
    specialize (H2 (k - 1) ltac:(lia)). rewrite Z.add_mod_idemp_l in H2 by lia. by replace (g + 1 + (k - 1)) with (g + k) in H2 by lia. }
  destruct (Z.eqb_spec (BlockGroup.get_free_blocks_count (gdesc d g)) 0) as [Ef|Ef]; cbn [mbind outcome_bind]; [apply Hnext; by left|].
  assert (Balloc.addr_to_idx_bg fs (Balloc.get_block_of_bgid fs g) = Ret 0) as ->.
  { unfold Balloc.addr_to_idx_bg, Balloc.get_block_of_bgid. rewrite (so_first _ (fo_super Hfs)), (so_bpg _ (fo_super Hfs)). cbn [Z.eqb negb andb]. rewrite mul64_small, add64_small by (unfold in_range; rewrite ?mul64_small; unfold in_range; lia).
    unfold rust_rem. cbn [Z.eqb mbind outcome_bind]. f_equal. rewrite Z.add_0_l, Z_mod_mult. done. }
  cbn [mbind outcome_bind]. rewrite Z.ltb_irrefl. destruct (dk_desc _ Hd g Hg) as [-> _]. pose proof (fo_bb Hfs g Hg). unfold Block.load_offset. rewrite (fo_bs Hfs), mul64_small by (unfold in_range, BLOCK_SIZE; lia).
  unfold rust_div, BLOCK_SIZE. cbn [Z.eqb]. rewrite Z_div_mult by lia. cbn [mbind outcome_bind Block.data].
  destruct (find_bit_ok (read_block d (bb g)) 0) as (o & -> & Ho); [by apply bitmap_words|pose proof (block_len d (bb g) Hdev); lia|lia|]. cbn [mbind outcome_bind]. destruct o as [k|].
  - destruct Ho as (Hk & Ek & _). destruct (take_block_ok d r g k Hd Hv Hi Hg Hk Ek) as (r' & d' & -> & Ht). cbn [mbind outcome_bind]. left. by eexists _, _, _, _.
  - apply Hnext. right. intros k Hk. unfold used. replace ((g * 32768 + k) / 32768) with g by (Z.to_euclidean_division_equations; lia). replace ((g * 32768 + k) mod 32768) with k by (Z.to_euclidean_division_equations; lia). by apply Ho.
Qed.

Lemma alloc_from_ok d r start : disk_ok d -> valid_inode (inode_num r) -> is_inode (inode r) -> 0 <= start ->
  (exists b h r' d', Balloc.balloc_alloc_block_from fs d r start = Ret (Ok b, h, r', d') /\ group h /\ took d r b d' r') \/
  Balloc.balloc_alloc_block_from fs d r start = Ret (Err ENOSPC, start, r, d) /\ forall g, group g -> full d g.
Proof.
  intros Hd Hv Hi Hs. pose proof (fo_G Hfs) as HG. unfold Balloc.balloc_alloc_block_from. rewrite (fo_groups Hfs). cbn [mbind outcome_bind]. set (g0 := if G <=? start then 0 else start).
  assert (group g0) as Hg0 by (unfold g0, group; case_Z; lia). destruct (alloc_groups_ok d r Hd Hv Hi (Z.to_nat G) g0 Hg0) as [(b & h & r' & d' & -> & Hh & Ht)|[-> Hf]].
  - left. by exists b, h, r', d'.
  - right. split; [done|]. intros g Hg. unfold group in *. specialize (Hf ((g - g0) mod G)). rewrite Z.add_mod_idemp_r in Hf by lia. replace (g0 + (g - g0)) with g in Hf by lia.
    rewrite (Z.mod_small g G) in Hf by lia. apply Hf. pose proof (Z.mod_pos_bound (g - g0) G). lia.
Qed.
Lemma alloc_any_ok d r : disk_ok d -> valid_inode (inode_num r) -> is_inode (inode r) ->
  (exists b r' d', Balloc.balloc_alloc_block fs d r None = Ret (Ok b, r', d') /\ took d r b d' r') \/
  Balloc.balloc_alloc_block fs d r None = Ret (Err ENOSPC, r, d) /\ forall g, group g -> full d g.
Proof.
  intros Hd Hv Hi. pose proof (fo_G Hfs) as HG. unfold Balloc.balloc_alloc_block. rewrite (fo_groups Hfs). cbn [mbind outcome_bind].
  destruct (alloc_groups_ok d r Hd Hv Hi (Z.to_nat G) 0) as [(b & h & r' & d' & -> & Hh & Ht)|[-> Hf]]; [unfold group; lia| |].
  - left. by exists b, r', d'.
  - right. split; [done|]. intros g Hg. unfold group in *. specialize (Hf g). rewrite Z.add_0_l, Z.mod_small in Hf by lia. apply Hf. lia.
Qed.

End Layout.

(** ** A small disk: one group, its bitmap in block 2 and sixteen inodes in block 3 *)
#[export] Instance fun_device : BlockDevice (Z -> list Z) := {
  read_block d i := d i;
  write_block d i b := fun j => if j =? i then b else d j;
}.
Definition fun_ok (d : Z -> list Z) : Prop := forall i, is_block (d i).
#[export] Instance fun_device_ok : BlockDeviceOk (Z -> list Z) fun_ok.
Proof.
  split.
  - intros d i Hd. apply Hd.
  - intros d i b Hd Hb j. cbn. by case_Z.
  - intros d i b Hd Hb. cbn. by rewrite Z.eqb_refl.
  - intros d i j b Hd Hb Hne. cbn. by case_Z.
Qed.
Definition small_super : list Z :=
  set_int (set_int (set_int (set_int (set_int (set_int (replicate 1024 0) 4 4 32768) 12 4 100) 32 4 32768) 40 4 16) 88 2 256) 254 2 64.
Definition small_fs : Ext4FileSystem := MkFs small_super 4096.
Definition small_desc : list Z := set_int (set_int (set_int (replicate 4096 0) 0 4 2) 8 4 3) 12 2 100.
Definition small_disk : Z -> list Z := fun i => if i =? 1 then small_desc else if i =? 2 then 0x0F :: replicate 4095 0 else replicate 4096 0.
Definition small_inode : Ext4InodeRef := MkRef 12 (replicate 156 0).

Lemma small_bytes l : forallb (fun b => (0 <=? b) && (b <? 256)) l = true -> Forall byte_ok l.
Proof.
  intros H. induction l as [|b l IH]; [done|]. cbn in H. apply andb_true_iff in H as [H1 H2]. constructor; [|by apply IH]. unfold byte_ok. apply andb_true_iff in H1. lia.
Qed.
Lemma small_super_ok : super_ok small_super.
Proof. split; [vm_compute; reflexivity|apply small_bytes; vm_compute; reflexivity|vm_compute; reflexivity..]. Qed.
Lemma small_fs_ok : fs_ok small_fs 1 (fun _ => 2) (fun _ => 3).
Proof.
  assert (it_len small_fs = 1) as El by (vm_compute; reflexivity). assert (Superblock.inodes_per_group (superblock small_fs) = 16) as Ei by (vm_compute; reflexivity).
  split; rewrite ?El, ?Ei; unfold group; try lia; try reflexivity; try (intros; lia). apply small_super_ok.
Qed.
Lemma small_disk_ok : disk_ok (dev_ok := fun_ok) small_fs 1 (fun _ => 2) (fun _ => 3) small_disk.
Proof.
  split.
  - intros i. unfold small_disk. case_Z; (split; [vm_compute; reflexivity|apply small_bytes; vm_compute; reflexivity]).
  - intros g Hg. unfold group in Hg. assert (g = 0) as -> by lia. split; vm_compute; reflexivity.
  - intros b Hb. assert (0 <= b < 4) as Hr.
    { destruct Hb as [->|[->|[(g & _ & ->)|(g & k & _ & Hk & ->)]]]; try lia. assert (it_len small_fs = 1) by (vm_compute; reflexivity). lia. }
    assert (b = 0 \/ b = 1 \/ b = 2 \/ b = 3) as [->|[->|[->| ->]]] by lia; vm_compute; reflexivity.
Qed.

(** Freeing passes the number of blocks as the last bit: for a block that is farther in its group no
    bit is cleared, though the counters go up. *)
Lemma free_clears_nothing bm idx count : count < idx -> Bitmap.ext4_bmap_bits_free bm idx count = Ret bm.
Proof. intros H. unfold Bitmap.ext4_bmap_bits_free. by rewrite seqZ_nil by lia. Qed.
(** The last descriptor of a block cannot be written. *)
Lemma last_desc_panics (d : Z -> list Z) g : BlockGroup.sync_block_group_to_disk small_fs d g 63 small_super = Panic.
Proof.
  unfold BlockGroup.sync_block_group_to_disk. replace (BlockGroup.place small_fs small_super 63) with (Ret (1, 4032) : outcome (Z * Z)) by (vm_compute; reflexivity). reflexivity.
Qed.
