(* ===== verification/Trackers.v ===== *)
(** * Trackers: pages held by reference-counted trackers ([Frame] of os/src/mm/map_area.rs)

    The page of a memory area is in memory, compressed, swapped out or not allocated yet,
    and what holds it is a tracker in an [Arc]. The state of this file is the kernel's
    memory as a whole: the frame allocator with physical memory, the two page stores, and
    the strong count of every tracker. The invariant [kok] ties it to the list of all
    trackers that areas, page caches and the kernel hold, and every operation is shown to
    keep the contents of the pages it is not meant to change. *)
From S2P Require Import Prelude AllocSpec Address FrameAlloc Bytes PageTable PageStore.
Import StackFrameAllocator.

Inductive MemoryError : Type :=
| BadAddress | AreaNotFound | AlreadyMapped | NotMapped | NoPermission | NotInMemory | NotCompressed
| NotSwappedOut | AlreadyAllocated | SharedPage | ZramIsFull | SwapIsFull | BeyondEOF.

(** A tracker is named by the number it carries. *)
Inductive Frame : Type :=
| InMemory (ppn : Z)
| Compressed (zram_id : Z)
| SwappedOut (swap_id : Z)
| Unallocated.

#[global] Instance Frame_eq_dec : EqDecision Frame.
Proof. solve_decision. Defined.
#[global] Instance Frame_countable : Countable Frame.
Proof.
  refine (inj_countable'
    (fun f => match f with InMemory p => inl (inl p) | Compressed i => inl (inr i) | SwappedOut i => inr (inl i) | Unallocated => inr (inr tt) end)
    (fun c => match c with inl (inl p) => InMemory p | inl (inr i) => Compressed i | inr (inl i) => SwappedOut i | inr (inr _) => Unallocated end) _).
  by intros [].
Defined.

(** [for x in l] with a body that changes the state, and one that may return early. *)
Fixpoint for_each {A S} (l : list A) (f : A -> S -> outcome S) (s : S) : outcome S :=
  match l with [] => Ret s | x :: r => s' ← f x s; for_each r f s' end.
Fixpoint for_try {A S E} (l : list A) (f : A -> S -> outcome (Result unit E * S)) (s : S) : outcome (Result unit E * S) :=
  match l with
  | [] => Ret (Ok tt, s)
  | x :: r => '(res, s') ← f x s; match res with Ok _ => for_try r f s' | Err e => Ret (Err e, s') end
  end.

Section Trackers.
Context (cfg : config) {ZS SS : Type} `{!PageStore ZS} `{!PageStore SS}.

(** ** Reference-counted trackers *)

Record kmem : Type := Kmem { wd : world; arcs : gmap Frame Z; zram : ZS; swap : SS }.
Definition with_wd (k : kmem) (w : world) : kmem := Kmem w (arcs k) (zram k) (swap k).
Definition with_arcs (k : kmem) (a : gmap Frame Z) : kmem := Kmem (wd k) a (zram k) (swap k).

Definition strong_count (k : kmem) (f : Frame) : Z := default 0 (arcs k !! f).
Definition arc_new (k : kmem) (f : Frame) : kmem := with_arcs k (<[f := 1]> (arcs k)).
Definition arc_clone (k : kmem) (f : Frame) : kmem :=
  match f with Unallocated => k | _ => with_arcs k (<[f := strong_count k f + 1]> (arcs k)) end.

(** [Drop] of [FrameTracker], [ZramTracker] and [SwapTracker]. *)
Definition release (k : kmem) (f : Frame) : outcome kmem :=
  match f with
  | InMemory ppn => w' ← frame_dealloc cfg (wd k) ppn; Ret (with_wd k w')
  | Compressed id => z' ← ps_discard (zram k) id; Ret (Kmem (wd k) (arcs k) z' (swap k))
  | SwappedOut id => s' ← ps_discard (swap k) id; Ret (Kmem (wd k) (arcs k) (zram k) s')
  | Unallocated => Ret k
  end.
Definition arc_drop (k : kmem) (f : Frame) : outcome kmem :=
  match f with
  | Unallocated => Ret k
  | _ =>
      let n := strong_count k f in
      if n =? 1 then release (with_arcs k (delete f (arcs k))) f
      else Ret (with_arcs k (<[f := n - 1]> (arcs k)))
  end.

(** [frame_alloc().unwrap()] and [frame_alloc_uninit().unwrap()], with the [Arc] around. *)
Definition frame_alloc_unwrap (k : kmem) : outcome (Z * kmem) :=
  '(o, w') ← frame_alloc cfg (wd k); ppn ← unwrap o; Ret (ppn, arc_new (with_wd k w') (InMemory ppn)).
Definition frame_alloc_uninit_unwrap (k : kmem) : outcome (Z * kmem) :=
  let '(o, w') := alloc_uninit (wd k) in ppn ← unwrap o; Ret (ppn, arc_new (with_wd k w') (InMemory ppn)).

Definition get_bytes_array (k : kmem) (ppn : Z) : list Z := page_bytes (mem (wd k)) ppn.
Definition set_bytes_array (k : kmem) (ppn : Z) (bs : list Z) : kmem :=
  with_wd k (World (fa (wd k)) (mem_set_bytes (mem (wd k)) ppn bs)).

(** ** Frame *)

Definition insert_in_memory (self : Frame) (ppn : Z) : Result unit MemoryError * Frame :=
  match self with Unallocated => (Ok tt, InMemory ppn) | _ => (Err AlreadyAllocated, self) end.
Definition take_in_memory (self : Frame) : option Z * Frame :=
  match self with InMemory ppn => (Some ppn, Unallocated) | _ => (None, self) end.

Definition swap_write (k : kmem) (bs : list Z) : outcome (Z * kmem) :=
  '(o, s') ← ps_write (swap k) bs; id ← unwrap o; Ret (id, arc_new (Kmem (wd k) (arcs k) (zram k) s') (SwappedOut id)).
Definition zram_write (k : kmem) (bs : list Z) : outcome (option Z * kmem) :=
  '(o, z') ← ps_write (zram k) bs;
  let k' := Kmem (wd k) (arcs k) z' (swap k) in
  Ret (o, match o with Some id => arc_new k' (Compressed id) | None => k' end).

Definition force_swap_out (k : kmem) (self : Frame) : outcome (Result Z MemoryError * Frame * kmem) :=
  match self with
  | InMemory ppn =>
      '(id, k1) ← swap_write k (get_bytes_array k ppn);
      k2 ← arc_drop k1 (InMemory ppn);
      Ret (Ok id, SwappedOut id, k2)
  | _ => Ret (Err NotInMemory, self, k)
  end.
Definition swap_out (k : kmem) (self : Frame) : outcome (Result Z MemoryError * Frame * kmem) :=
  match self with
  | InMemory ppn =>
      if strong_count k self =? 1 then
        '(id, k1) ← swap_write k (get_bytes_array k ppn);
        k2 ← arc_drop k1 (InMemory ppn);
        Ret (Ok id, SwappedOut id, k2)
      else Ret (Err SharedPage, self, k)
  | _ => Ret (Err NotInMemory, self, k)
  end.
Definition swap_in (k : kmem) (self : Frame) : outcome (Result Z MemoryError * Frame * kmem) :=
  match self with
  | SwappedOut id =>
      '(ppn, k1) ← frame_alloc_unwrap k;
      bs ← ps_read (swap k1) id;
      k2 ← arc_drop (set_bytes_array k1 ppn bs) (SwappedOut id);
      Ret (Ok ppn, InMemory ppn, k2)
  | _ => Ret (Err NotSwappedOut, self, k)
  end.
Definition zip (k : kmem) (self : Frame) : outcome (Result Z MemoryError * Frame * kmem) :=
  match self with
  | InMemory ppn =>
      if strong_count k self =? 1 then
        '(o, k1) ← zram_write k (get_bytes_array k ppn);
        match o with
        | Some id => k2 ← arc_drop k1 (InMemory ppn); Ret (Ok id, Compressed id, k2)
        | None => Ret (Err ZramIsFull, self, k1)
        end
      else Ret (Err SharedPage, self, k)
  | _ => Ret (Err NotInMemory, self, k)
  end.
Definition unzip (k : kmem) (self : Frame) : outcome (Result Z MemoryError * Frame * kmem) :=
  match self with
  | Compressed id =>
      '(ppn, k1) ← frame_alloc_unwrap k;
      bs ← ps_read (zram k1) id;
      k2 ← arc_drop (set_bytes_array k1 ppn bs) (Compressed id);
      Ret (Ok ppn, InMemory ppn, k2)
  | _ => Ret (Err NotCompressed, self, k)
  end.
End Trackers.

(** ** The invariant *)

(** How often a tracker is held. *)
Definition occ (f : Frame) (H : list Frame) : Z := Z.of_nat (length (filter (eq f) H)).

Lemma occ_nil f : occ f [] = 0.
Proof. done. Qed.
Lemma occ_cons f g H : occ f (g :: H) = (if decide (f = g) then 1 else 0) + occ f H.
Proof. unfold occ. rewrite filter_cons. case_decide; cbn; lia. Qed.
Lemma occ_app f H1 H2 : occ f (H1 ++ H2) = occ f H1 + occ f H2.
Proof. unfold occ. rewrite filter_app, length_app. lia. Qed.
#[global] Instance occ_perm f : Proper ((≡ₚ) ==> eq) (occ f).
Proof. intros H1 H2 E. unfold occ. by rewrite E. Qed.
Lemma occ_nonneg f H : 0 <= occ f H.
Proof. unfold occ. lia. Qed.
Lemma occ_pos f H : 0 < occ f H <-> f ∈ H.
Proof.
  induction H as [|g H IH]; [rewrite occ_nil; split; [lia|by intros ?%not_elem_of_nil]|].
  rewrite occ_cons, elem_of_cons, <- IH. pose proof (occ_nonneg f H). case_decide; split; auto; lia || (intros [->|?]; [done|lia]).
Qed.
Lemma occ_not_in f H : f ∉ H -> occ f H = 0.
Proof. intros Hn. pose proof (occ_nonneg f H). pose proof (occ_pos f H). destruct (decide (0 < occ f H)); [tauto|lia]. Qed.

(** The specification state: the live frames, those that are no pages of areas (page
    tables and the like), and the contents of the two stores. *)
Record ghost : Type := Ghost { gL : gset Z; gO : gset Z; gZ : gmap Z (list Z); gS : gmap Z (list Z) }.

(** The contents of a page, wherever it is. *)
Definition content {ZS SS} (k : @kmem ZS SS) (g : ghost) (f : Frame) : list Z :=
  match f with
  | InMemory p => get_bytes_array k p
  | Compressed i => default [] (gZ g !! i)
  | SwappedOut i => default [] (gS g !! i)
  | Unallocated => zero_page
  end.

Section Invariant.
Context (cfg : config) (base limit : Z) {ZS SS : Type} `{!PageStore ZS} `{!PageStore SS}.
Context (zrep : ZS -> gmap Z (list Z) -> Prop) (zroom : gmap Z (list Z) -> Prop) `{!PageStoreOk ZS zrep zroom}.
Context (srep : SS -> gmap Z (list Z) -> Prop) (sroom : gmap Z (list Z) -> Prop) `{!PageStoreOk SS srep sroom}.
#[local] Notation kmem := (@kmem ZS SS).
Implicit Types (k : kmem) (g : ghost) (H : list Frame).

Record kok k H g : Prop := {
  k_fa : fa_rep base limit (wd k) (gL g);
  k_live : forall p, p ∈ gL g <-> p ∈ gO g \/ InMemory p ∈ H;
  k_own : forall p, InMemory p ∈ H -> p ∉ gO g;
  k_arcs : forall f, f <> Unallocated -> strong_count k f = occ f H;
  k_zram : zrep (zram k) (gZ g);
  k_zdom : forall i, is_Some (gZ g !! i) <-> Compressed i ∈ H;
  k_zpages : map_Forall (fun _ => bytes_ok) (gZ g);
  k_swap : srep (swap k) (gS g);
  k_sdom : forall i, is_Some (gS g !! i) <-> SwappedOut i ∈ H;
  k_spages : map_Forall (fun _ => bytes_ok) (gS g);
}.

(** What a step keeps: the contents of the pages in [H] and the frames in [O]. *)
Definition same_contents k g k' g' H : Prop := forall f, f ∈ H -> content k' g' f = content k g f.
Definition same_frames k k' (O : gset Z) : Prop := forall q j, q ∈ O -> mem (wd k') q j = mem (wd k) q j.

(** Only how often each tracker is held matters. *)
Lemma kok_ext k H1 H2 g : (forall f, f <> Unallocated -> occ f H1 = occ f H2) -> kok k H1 g -> kok k H2 g.
Proof.
  intros E. assert (forall f, f <> Unallocated -> f ∈ H1 <-> f ∈ H2) as Em.
  { intros f Hf. by rewrite <- !occ_pos, E. }
  intros []. constructor; try done.
  - intros p. rewrite <- Em by done. auto.
  - intros p. rewrite <- Em by done. auto.
  - intros f Hf. rewrite <- E by done. auto.
  - intros i. rewrite <- Em by done. auto.
  - intros i. rewrite <- Em by done. auto.
Qed.
#[global] Instance kok_perm k : Proper ((≡ₚ) ==> eq ==> iff) (kok k).
Proof. intros H1 H2 E g ? <-. split; apply kok_ext; intros f _; by rewrite E. Qed.
Lemma kok_unallocated k H g : kok k (Unallocated :: H) g <-> kok k H g.
Proof. split; apply kok_ext; intros f Hf; by rewrite occ_cons, decide_False. Qed.

Lemma frame_live k H g p : kok k H g -> InMemory p ∈ H -> p ∈ gL g.
Proof. intros K Hp. apply (k_live _ _ _ K). by right. Qed.

(** ** Allocation *)

(** The next free frame, whether it is cleared or not. *)
Lemma alloc_fresh k H g : kok k H g -> Z.of_nat (size (gL g)) < limit - base ->
  exists p w', alloc cfg (wd k) = (Some p, w') /\ p ∉ gL g /\ base <= p < limit /\ fa_rep base limit w' ({[p]} ∪ gL g).
Proof.
  intros K Hs. pose proof (alloc_rep cfg base limit (wd k) (gL g) (k_fa _ _ _ K)) as Ha.
  pose proof (live_partition _ _ _ _ (k_fa _ _ _ K)) as Hp. pose proof (rep_end _ _ _ _ (k_fa _ _ _ K)) as He.
  destruct (alloc cfg (wd k)) as [[p|] w'] eqn:E; [destruct Ha as (H1 & H2 & H3); by exists p, w'|]. exfalso. unfold alloc in E.
  pose proof (vec_pop_spec (recycled (fa (wd k)))) as Hpop. destruct (vec_pop (recycled (fa (wd k)))) as [[? ?]|]; [done|].
  rewrite Hpop in Hp. cbn in Hp. destruct (Z.eqb_spec (current (fa (wd k))) (end_ (fa (wd k)))); [|done]. lia.
Qed.

Definition add_live (g : ghost) (p : Z) : ghost := Ghost ({[p]} ∪ gL g) (gO g) (gZ g) (gS g).

(** Holding a tracker of a new frame. *)
Lemma kok_new_frame k H g p w' : kok k H g -> p ∉ gL g -> fa_rep base limit w' ({[p]} ∪ gL g) ->
  kok (arc_new (with_wd k w') (InMemory p)) (InMemory p :: H) (add_live g p).
Proof.
  intros K Hp Hr. assert (InMemory p ∉ H) as Hn by (intros Hin; apply Hp; by eapply frame_live).
  destruct K. constructor; cbn; try done.
  - intros q. rewrite elem_of_union, elem_of_singleton, elem_of_cons, k_live0. naive_solver.
  - intros q [[= ->]|Hq]%elem_of_cons; [|auto]. intros Ho. apply Hp, k_live0. by left.
  - intros f Hf. unfold strong_count. cbn. rewrite occ_cons. case_decide as E; [subst f|].
    + by rewrite lookup_insert_eq, occ_not_in.
    + rewrite lookup_insert_ne by done. by apply k_arcs0.
  - intros i. rewrite elem_of_cons, k_zdom0. naive_solver.
  - intros i. rewrite elem_of_cons, k_sdom0. naive_solver.
Qed.

Lemma same_contents_mem k g k' g' H p : (forall q, InMemory q ∈ H -> q <> p) -> gZ g' = gZ g -> gS g' = gS g ->
  (forall q j, q <> p -> mem (wd k') q j = mem (wd k) q j) -> same_contents k g k' g' H.
Proof.
  intros Hp Hz Hs Hm [q|i|i|] Hf; cbn; rewrite ?Hz, ?Hs; try done. apply page_bytes_ext. intros j. apply Hm. by apply Hp.
Qed.

(** What both ways of allocating promise. *)
Definition alloc_post k H g p k' : Prop :=
  p ∉ gL g /\ base <= p < limit /\ kok k' (InMemory p :: H) (add_live g p) /\
  same_contents k g k' (add_live g p) H /\ same_frames k k' (gO g).

Lemma alloc_post_intro k H g p w' : kok k H g -> p ∉ gL g -> base <= p < limit -> fa_rep base limit w' ({[p]} ∪ gL g) ->
  (forall q j, q <> p -> mem w' q j = mem (wd k) q j) -> alloc_post k H g p (arc_new (with_wd k w') (InMemory p)).
Proof.
  intros K Hp Hb Hr Hm. split_and!; try done; [lia..|by apply kok_new_frame| |].
  - apply (same_contents_mem _ _ _ _ _ p); try done. intros q Hq ->. by apply Hp, (frame_live _ _ _ _ K).
  - intros q j Hq. apply Hm. intros ->. apply Hp, (k_live _ _ _ K). by left.
Qed.

Lemma frame_alloc_ok k H g : kok k H g -> zero_init cfg = false -> Z.of_nat (size (gL g)) < limit - base ->
  exists p k', frame_alloc_unwrap cfg k = Ret (p, k') /\ alloc_post k H g p k' /\ get_bytes_array k' p = zero_page.
Proof.
  intros K Hz Hs. destruct (alloc_fresh k H g K Hs) as (p & w' & Ha & Hp & Hb & Hr).
  destruct (alloc_mem cfg (wd k) p w' Ha) as [Hm0 Hm]. eexists p, _. unfold frame_alloc_unwrap, frame_alloc. rewrite Ha. cbn.
  split; [done|]. split; [by apply alloc_post_intro|]. apply page_bytes_zero. intros i. by apply Hm0.
Qed.

Lemma frame_alloc_uninit_ok k H g : kok k H g -> Z.of_nat (size (gL g)) < limit - base ->
  exists p k', frame_alloc_uninit_unwrap k = Ret (p, k') /\ alloc_post k H g p k'.
Proof.
  intros K Hs. destruct (alloc_fresh k H g K Hs) as (p & w' & Ha & Hp & Hb & Hr).
  destruct (alloc_uninit_fa cfg (wd k)) as [E1 E2]. rewrite Ha in E1, E2. cbn in E1, E2.
  unfold frame_alloc_uninit_unwrap. destruct (alloc_uninit (wd k)) as [o w1] eqn:Eu. cbn in E1, E2. subst o. cbn.
  eexists p, _. split; [done|]. apply alloc_post_intro; try done.
  - destruct Hr. constructor; rewrite ?E2; done.
  - intros q j _. unfold alloc_uninit in Eu. destruct (vec_pop (recycled (fa (wd k)))) as [[? ?]|]; [by injection Eu as _ <-|].
    destruct (current (fa (wd k)) =? end_ (fa (wd k))); by injection Eu as _ <-.
Qed.

(** ** Sharing and dropping *)

Lemma arc_clone_ok k H g f : kok k H g -> f ∈ H \/ f = Unallocated -> kok (arc_clone k f) (f :: H) g.
Proof.
  intros K Hf. destruct (decide (f = Unallocated)) as [->|Hu]; [by apply kok_unallocated|]. destruct Hf as [Hf|?]; [|done].
  replace (arc_clone k f) with (with_arcs k (<[f := strong_count k f + 1]> (arcs k))) by (by destruct f).
  assert (forall h, h ∈ f :: H <-> h ∈ H) as E by (intros h; rewrite elem_of_cons; naive_solver).
  destruct K. constructor; cbn; try done.
  - intros q. rewrite E. auto.
  - intros q. rewrite E. auto.
  - intros h Hh. unfold strong_count at 1. cbn. rewrite occ_cons. case_decide as D; [subst h|].
    + rewrite lookup_insert_eq, k_arcs0 by done. cbn. lia.
    + rewrite lookup_insert_ne by done. rewrite <- k_arcs0 by done. unfold strong_count. lia.
  - intros i. rewrite E. auto.
  - intros i. rewrite E. auto.
Qed.

(** The specification state after the last tracker of a page is gone. *)
Definition ghost_release (g : ghost) (f : Frame) : ghost :=
  match f with
  | InMemory p => Ghost (gL g ∖ {[p]}) (gO g) (gZ g) (gS g)
  | Compressed i => Ghost (gL g) (gO g) (delete i (gZ g)) (gS g)
  | SwappedOut i => Ghost (gL g) (gO g) (gZ g) (delete i (gS g))
  | Unallocated => g
  end.

Definition drop_post k H g k' g' : Prop :=
  kok k' H g' /\ same_contents k g k' g' H /\ mem (wd k') = mem (wd k) /\ gO g' = gO g /\ gL g' ⊆ gL g /\
  gS g' ⊆ gS g.

(** What [release] must re-establish, but for the resource itself. *)
Lemma arcs_release k H g f : kok k (f :: H) g -> f <> Unallocated -> f ∉ H ->
  forall h, h <> Unallocated -> strong_count (with_arcs k (delete f (arcs k))) h = occ h H.
Proof.
  intros K Hu Hn h Hh. unfold strong_count. cbn. destruct (decide (h = f)) as [->|Hne].
  - by rewrite lookup_delete_eq, occ_not_in.
  - rewrite lookup_delete_ne by done. pose proof (k_arcs _ _ _ K h Hh) as E. rewrite occ_cons, decide_False in E by done.
    unfold strong_count in E. lia.
Qed.

Lemma release_ok k H g f : kok k (f :: H) g -> f <> Unallocated -> f ∉ H ->
  exists k', release cfg (with_arcs k (delete f (arcs k))) f = Ret k' /\ drop_post k H g k' (ghost_release g f).
Proof.
  intros K Hu Hn. pose proof (arcs_release k H g f K Hu Hn) as Ha.
  assert (forall h, h <> f -> h ∈ f :: H <-> h ∈ H) as E by (intros h Hne; rewrite elem_of_cons; naive_solver).
  destruct f as [p|i|i|]; [| | |done]; cbn [release].
  - assert (p ∈ gL g) as Hp by (eapply frame_live; [done|left]).
    destruct (dealloc_rep cfg base limit (wd k) (gL g) p (k_fa _ _ _ K) Hp) as (w' & Hd & Hr & Hm).
    unfold frame_dealloc. cbn. rewrite Hd. cbn. eexists. split; [done|].
    assert (forall q, InMemory q ∈ H -> q <> p) as Hq by (intros q Hq ->; done).
    split_and!; try done; [|by apply (same_contents_mem _ _ _ _ _ p); try done; intros q j _; cbn; by rewrite Hm|cbn; set_solver].
    pose proof (k_own _ _ _ K p ltac:(left)) as Hpo. destruct K. constructor; cbn; try done.
    + intros q. rewrite elem_of_difference, elem_of_singleton, k_live0. destruct (decide (q = p)) as [->|Hne]; [naive_solver|].
      rewrite E by congruence. tauto.
    + intros q Hin. apply k_own0. by right.
    + intros j. rewrite k_zdom0. by apply E.
    + intros j. rewrite k_sdom0. by apply E.
  - destruct (proj2 (k_zdom _ _ _ K i) ltac:(left)) as [b Hb].
    destruct (ps_discard_ok (zram k) (gZ g) i b (k_zram _ _ _ K) Hb) as (z' & Hd & Hr). cbn. rewrite Hd. cbn. eexists. split; [done|].
    split_and!; try done.
    + destruct K. constructor; cbn; try done.
      * intros q. rewrite k_live0. by rewrite E.
      * intros q Hin. apply k_own0. by right.
      * intros j. destruct (decide (j = i)) as [->|Hne]; [rewrite lookup_delete_eq; split; [by intros []|done]|].
        rewrite lookup_delete_ne by done. rewrite k_zdom0. apply E. congruence.
      * by apply map_Forall_delete.
      * intros j. rewrite k_sdom0. by apply E.
    + intros [q|j|j|] Hf; cbn; try done. rewrite lookup_delete_ne; [done|]. by intros ->.
  - destruct (proj2 (k_sdom _ _ _ K i) ltac:(left)) as [b Hb].
    destruct (ps_discard_ok (swap k) (gS g) i b (k_swap _ _ _ K) Hb) as (z' & Hd & Hr). cbn. rewrite Hd. cbn. eexists. split; [done|].
    split_and!; try done.
    + destruct K. constructor; cbn; try done.
      * intros q. rewrite k_live0. by rewrite E.
      * intros q Hin. apply k_own0. by right.
      * intros j. rewrite k_zdom0. by apply E.
      * intros j. destruct (decide (j = i)) as [->|Hne]; [rewrite lookup_delete_eq; split; [by intros []|done]|].
        rewrite lookup_delete_ne by done. rewrite k_sdom0. apply E. congruence.
      * by apply map_Forall_delete.
    + intros [q|j|j|] Hf; cbn; try done. rewrite lookup_delete_ne; [done|]. by intros ->.
    + apply delete_subseteq.
Qed.

(** Dropping a tracker: the page goes with the last one. *)
Lemma arc_drop_ok k H g f : kok k (f :: H) g -> exists k' g', arc_drop cfg k f = Ret k' /\ drop_post k H g k' g'.
Proof.
  intros K. destruct (decide (f = Unallocated)) as [->|Hu].
  { exists k, g. split; [done|]. split_and!; try done. by apply kok_unallocated. }
  pose proof (k_arcs _ _ _ K f Hu) as Hc. rewrite occ_cons, decide_True in Hc by done.
  assert (arc_drop cfg k f = let n := strong_count k f in
    if n =? 1 then release cfg (with_arcs k (delete f (arcs k))) f else Ret (with_arcs k (<[f := n - 1]> (arcs k)))) as -> by (by destruct f).
  cbn zeta. destruct (Z.eqb_spec (strong_count k f) 1) as [E|E].
  - assert (f ∉ H) as Hn by (intros Hin%occ_pos; lia). destruct (release_ok k H g f K Hu Hn) as (k' & ? & ?). eauto.
  - assert (f ∈ H) as Hin by (apply occ_pos; pose proof (occ_nonneg f H); lia).
    eexists _, g. split; [done|]. split_and!; try done.
    assert (forall h, h ∈ f :: H <-> h ∈ H) as Eh by (intros h; rewrite elem_of_cons; naive_solver).
    destruct K. constructor; cbn; try done.
    + intros q. rewrite <- Eh. auto.
    + intros q. rewrite <- Eh. auto.
    + intros h Hh. unfold strong_count at 1. cbn. destruct (decide (h = f)) as [->|Hne].
      * rewrite lookup_insert_eq. cbn. lia.
      * rewrite lookup_insert_ne by done.
        pose proof (k_arcs0 h Hh) as E2. rewrite occ_cons, decide_False in E2 by done. unfold strong_count in *. lia.
    + intros j. rewrite <- Eh. auto.
    + intros j. rewrite <- Eh. auto.
Qed.

(** ** Writing a page *)

Lemma set_bytes_ok k H g p bs : kok k H g -> kok (set_bytes_array k p bs) H g.
Proof. intros []. constructor; try done. by destruct k_fa0; constructor. Qed.
Lemma set_bytes_same k p bs : bytes_ok bs -> get_bytes_array (set_bytes_array k p bs) p = bs.
Proof. apply page_bytes_set. Qed.
Lemma set_bytes_contents k g H p bs : InMemory p ∉ H -> same_contents k g (set_bytes_array k p bs) g H.
Proof.
  intros Hp. apply (same_contents_mem _ _ _ _ _ p); try done; [by intros q Hq ->|]. intros q j Hq. by apply mem_set_bytes_other.
Qed.
Lemma set_bytes_frames k p bs O : p ∉ O -> same_frames k (set_bytes_array k p bs) O.
Proof. intros Hp q j Hq. apply mem_set_bytes_other. by intros ->. Qed.

(** Preservation composes. *)
Lemma same_contents_trans k g k1 g1 k2 g2 H : same_contents k g k1 g1 H -> same_contents k1 g1 k2 g2 H -> same_contents k g k2 g2 H.
Proof. intros H1 H2 f Hf. rewrite H2, H1; done. Qed.
Lemma same_frames_trans k k1 k2 O : same_frames k k1 O -> same_frames k1 k2 O -> same_frames k k2 O.
Proof. intros H1 H2 q j Hq. rewrite H2, H1; done. Qed.
Lemma same_contents_sub k g k' g' H H' : H ⊆ H' -> same_contents k g k' g' H' -> same_contents k g k' g' H.
Proof. intros Hs Hc f Hf. by apply Hc, Hs. Qed.
Lemma same_contents_tail k g k' g' f H : same_contents k g k' g' (f :: H) -> same_contents k g k' g' H.
Proof. apply same_contents_sub. intros h Hh. by right. Qed.
Lemma same_frames_mem k k' O : mem (wd k') = mem (wd k) -> same_frames k k' O.
Proof. intros E q j _. by rewrite E. Qed.

(** ** Leaving memory and coming back *)

(** A page comes into a new frame with its contents. *)
Definition page_in_post k H g f p k' g' : Prop :=
  kok k' (InMemory p :: H) g' /\ content k' g' (InMemory p) = content k g f /\ same_contents k g k' g' H /\
  same_frames k k' (gO g) /\ gO g' = gO g /\ p ∉ gL g /\ base <= p < limit /\ gL g' ⊆ {[p]} ∪ gL g.

Lemma page_in k H g f p k1 bs : kok k (f :: H) g -> alloc_post k (f :: H) g p k1 -> content k g f = bs -> bytes_ok bs ->
  exists k' g', arc_drop cfg (set_bytes_array k1 p bs) f = Ret k' /\ page_in_post k H g f p k' g'.
Proof.
  intros K (Hp & Hb & K1 & Hc1 & Hf1) Hbs Hok.
  assert (InMemory p ∉ f :: H) as Hn by (intros Hin; by apply Hp, (frame_live _ _ _ _ K)).
  apply not_elem_of_cons in Hn as [Hpf Hn].
  pose proof (set_bytes_ok k1 _ _ p bs K1) as K2. rewrite (Permutation_swap f (InMemory p) H) in K2.
  destruct (arc_drop_ok _ _ _ _ K2) as (k' & g' & Hd & K' & Hc & Hm & Ho & HL & HS).
  assert (p ∉ gO g) as Hpo by (intros Hin; by apply Hp, (k_live _ _ _ K); left).
  exists k', g'. split; [done|]. split_and!; try done; try lia.
  - rewrite (Hc (InMemory p)) by left. cbn. rewrite set_bytes_same by done. by rewrite Hbs.
  - eapply same_contents_trans; [|eapply same_contents_tail; exact Hc].
    eapply same_contents_trans; [eapply same_contents_tail; exact Hc1|]. by apply set_bytes_contents.
  - eapply same_frames_trans; [|by apply same_frames_mem]. eapply same_frames_trans; [exact Hf1|]. by apply set_bytes_frames.
Qed.

Lemma unzip_ok k H g i : kok k (Compressed i :: H) g -> zero_init cfg = false -> Z.of_nat (size (gL g)) < limit - base ->
  exists p k' g', unzip cfg k (Compressed i) = Ret (Ok p, InMemory p, k') /\ page_in_post k H g (Compressed i) p k' g'.
Proof.
  intros K Hz Hs. destruct (frame_alloc_ok k _ g K Hz Hs) as (p & k1 & Ha & Hpost & _). unfold unzip. rewrite Ha. cbn [mbind outcome_bind].
  destruct (proj2 (k_zdom _ _ _ K i) ltac:(left)) as [bs Hbs]. pose proof Hpost as (_ & _ & K1 & _).
  rewrite (ps_read_ok (zram k1) (gZ g) i bs (k_zram _ _ _ K1) Hbs). cbn [mbind outcome_bind].
  destruct (page_in k H g (Compressed i) p k1 bs K Hpost) as (k' & g' & Hd & HP); [cbn; by rewrite Hbs|by apply (k_zpages _ _ _ K i)|].
  rewrite Hd. cbn. by exists p, k', g'.
Qed.

Lemma swap_in_ok k H g i : kok k (SwappedOut i :: H) g -> zero_init cfg = false -> Z.of_nat (size (gL g)) < limit - base ->
  exists p k' g', swap_in cfg k (SwappedOut i) = Ret (Ok p, InMemory p, k') /\ page_in_post k H g (SwappedOut i) p k' g'.
Proof.
  intros K Hz Hs. destruct (frame_alloc_ok k _ g K Hz Hs) as (p & k1 & Ha & Hpost & _). unfold swap_in. rewrite Ha. cbn [mbind outcome_bind].
  destruct (proj2 (k_sdom _ _ _ K i) ltac:(left)) as [bs Hbs]. pose proof Hpost as (_ & _ & K1 & _).
  rewrite (ps_read_ok (swap k1) (gS g) i bs (k_swap _ _ _ K1) Hbs). cbn [mbind outcome_bind].
  destruct (page_in k H g (SwappedOut i) p k1 bs K Hpost) as (k' & g' & Hd & HP); [cbn; by rewrite Hbs|by apply (k_spages _ _ _ K i)|].
  rewrite Hd. cbn. by exists p, k', g'.
Qed.

(** A page leaves memory: [f'] holds what the frame held. *)
Definition page_out_post k H g p f' k' g' : Prop :=
  kok k' (f' :: H) g' /\ content k' g' f' = content k g (InMemory p) /\ same_contents k g k' g' H /\
  mem (wd k') = mem (wd k) /\ gO g' = gO g /\ gL g' ⊆ gL g /\ (size (gS g') <= size (gS g) + 1)%nat.

Lemma page_out k H g p f' k1 g1 : kok k1 (f' :: InMemory p :: H) g1 -> same_contents k g k1 g1 (InMemory p :: H) ->
  content k1 g1 f' = content k g (InMemory p) -> mem (wd k1) = mem (wd k) -> gO g1 = gO g -> gL g1 = gL g ->
  (size (gS g1) <= size (gS g) + 1)%nat ->
  exists k' g', arc_drop cfg k1 (InMemory p) = Ret k' /\ page_out_post k H g p f' k' g'.
Proof.
  intros K1 Hc1 Hf Hm1 Ho1 HL1 HS1. rewrite (Permutation_swap (InMemory p) f' H) in K1.
  destruct (arc_drop_ok _ _ _ _ K1) as (k' & g' & Hd & K' & Hc & Hm & Ho & HL & HS). exists k', g'. split; [done|].
  split_and!; try done; [|..|congruence|congruence|set_solver|apply map_subseteq_size in HS; lia].
  - by rewrite (Hc f') by left.
  - eapply same_contents_trans; [eapply same_contents_tail; exact Hc1|eapply same_contents_tail; exact Hc].
Qed.

(** A tracker for a page that was just stored. *)
Lemma kok_stored_zram k H g id z' bs : kok k H g -> gZ g !! id = None -> bytes_ok bs -> zrep z' (<[id := bs]> (gZ g)) ->
  kok (arc_new (Kmem (wd k) (arcs k) z' (swap k)) (Compressed id)) (Compressed id :: H) (Ghost (gL g) (gO g) (<[id := bs]> (gZ g)) (gS g)).
Proof.
  intros K Hn Hb Hr. assert (Compressed id ∉ H) as Hnin.
  { intros Hin%(k_zdom _ _ _ K). rewrite Hn in Hin. by destruct Hin. }
  destruct K. constructor; cbn; try done.
  - intros q. rewrite elem_of_cons, k_live0. naive_solver.
  - intros q [?|?]%elem_of_cons; [done|auto].
  - intros f Hf. unfold strong_count. cbn. rewrite occ_cons. case_decide as E; [subst f|].
    + by rewrite lookup_insert_eq, occ_not_in.
    + rewrite lookup_insert_ne by done. by apply k_arcs0.
  - intros i. rewrite elem_of_cons. destruct (decide (i = id)) as [->|Hne]; [rewrite lookup_insert_eq; split; eauto|].
    rewrite lookup_insert_ne, k_zdom0 by done. naive_solver.
  - by apply map_Forall_insert_2.
  - intros i. rewrite elem_of_cons, k_sdom0. naive_solver.
Qed.

Lemma kok_stored_swap k H g id s' bs : kok k H g -> gS g !! id = None -> bytes_ok bs -> srep s' (<[id := bs]> (gS g)) ->
  kok (arc_new (Kmem (wd k) (arcs k) (zram k) s') (SwappedOut id)) (SwappedOut id :: H) (Ghost (gL g) (gO g) (gZ g) (<[id := bs]> (gS g))).
Proof.
  intros K Hn Hb Hr. assert (SwappedOut id ∉ H) as Hnin.
  { intros Hin%(k_sdom _ _ _ K). rewrite Hn in Hin. by destruct Hin. }
  destruct K. constructor; cbn; try done.
  - intros q. rewrite elem_of_cons, k_live0. naive_solver.
  - intros q [?|?]%elem_of_cons; [done|auto].
  - intros f Hf. unfold strong_count. cbn. rewrite occ_cons. case_decide as E; [subst f|].
    + by rewrite lookup_insert_eq, occ_not_in.
    + rewrite lookup_insert_ne by done. by apply k_arcs0.
  - intros i. rewrite elem_of_cons, k_zdom0. naive_solver.
  - intros i. rewrite elem_of_cons. destruct (decide (i = id)) as [->|Hne]; [rewrite lookup_insert_eq; split; eauto|].
    rewrite lookup_insert_ne, k_sdom0 by done. naive_solver.
  - by apply map_Forall_insert_2.
Qed.

(** What [swap_write] and the drop of the frame do together. *)
Lemma swap_page_out k H g p : kok k (InMemory p :: H) g -> sroom (gS g) ->
  exists id k1, swap_write k (get_bytes_array k p) = Ret (id, k1) /\
  exists k' g', arc_drop cfg k1 (InMemory p) = Ret k' /\ page_out_post k H g p (SwappedOut id) k' g'.
Proof.
  intros K Hroom. pose proof (page_bytes_ok (mem (wd k)) p) as Hb.
  destruct (ps_write_ok (swap k) (gS g) (get_bytes_array k p) (k_swap _ _ _ K) Hroom (proj1 Hb)) as (id & s' & Hw & Hn & Hr).
  pose proof (kok_stored_swap k _ g id s' _ K Hn Hb Hr) as K1. unfold swap_write. rewrite Hw. cbn [mbind outcome_bind unwrap].
  eexists id, _. split; [done|]. eapply page_out; [exact K1|..]; try done; cbn.
  - intros [q|j|j|] Hf; cbn; try done. rewrite lookup_insert_ne; [done|]. intros ->.
    apply (k_sdom _ _ _ K) in Hf. rewrite Hn in Hf. by destruct Hf.
  - by rewrite lookup_insert_eq.
  - rewrite map_size_insert_None by done. lia.
Qed.

Lemma force_swap_out_ok k H g p : kok k (InMemory p :: H) g -> sroom (gS g) ->
  exists id k' g', force_swap_out cfg k (InMemory p) = Ret (Ok id, SwappedOut id, k') /\ page_out_post k H g p (SwappedOut id) k' g'.
Proof.
  intros K Hroom. destruct (swap_page_out k H g p K Hroom) as (id & k1 & Hw & k' & g' & Hd & HP).
  exists id, k', g'. unfold force_swap_out. rewrite Hw. cbn [mbind outcome_bind]. rewrite Hd. done.
Qed.

(** Only a page that no other area shares is written out. *)
Lemma swap_out_ok k H g p : kok k (InMemory p :: H) g -> sroom (gS g) ->
  if bool_decide (InMemory p ∈ H) then swap_out cfg k (InMemory p) = Ret (Err SharedPage, InMemory p, k)
  else exists id k' g', swap_out cfg k (InMemory p) = Ret (Ok id, SwappedOut id, k') /\ page_out_post k H g p (SwappedOut id) k' g'.
Proof.
  intros K Hroom. unfold swap_out. rewrite (k_arcs _ _ _ K), occ_cons, decide_True by done.
  pose proof (occ_pos (InMemory p) H) as Hp. pose proof (occ_nonneg (InMemory p) H). case_bool_decide as Hin.
  - destruct (Z.eqb_spec (1 + occ (InMemory p) H) 1); [|done]. apply Hp in Hin. lia.
  - rewrite occ_not_in by done. cbn [Z.add Z.eqb]. destruct (swap_page_out k H g p K Hroom) as (id & k1 & Hw & k' & g' & Hd & HP).
    exists id, k', g'. rewrite Hw. cbn [mbind outcome_bind]. rewrite Hd. done.
Qed.

(** [zip] finds room, or says that compressed memory is full and changes nothing. *)
Lemma zip_ok k H g p : PageStoreTotal ZS zrep -> kok k (InMemory p :: H) g ->
  if bool_decide (InMemory p ∈ H) then zip cfg k (InMemory p) = Ret (Err SharedPage, InMemory p, k)
  else zip cfg k (InMemory p) = Ret (Err ZramIsFull, InMemory p, k) \/
    exists id k' g', zip cfg k (InMemory p) = Ret (Ok id, Compressed id, k') /\ page_out_post k H g p (Compressed id) k' g'.
Proof.
  intros Htot K. unfold zip. rewrite (k_arcs _ _ _ K), occ_cons, decide_True by done.
  pose proof (occ_pos (InMemory p) H) as Hp. pose proof (occ_nonneg (InMemory p) H). case_bool_decide as Hin.
  { destruct (Z.eqb_spec (1 + occ (InMemory p) H) 1); [|done]. apply Hp in Hin. lia. }
  rewrite occ_not_in by done. cbn [Z.add Z.eqb]. pose proof (page_bytes_ok (mem (wd k)) p) as Hb. unfold zram_write.
  destruct (ps_write_total (zram k) (gZ g) (get_bytes_array k p) (k_zram _ _ _ K) (proj1 Hb)) as [(id & z' & Hw & Hn & Hr)|Hw]; rewrite Hw; cbn [mbind outcome_bind].
  - right. pose proof (kok_stored_zram k _ g id z' _ K Hn Hb Hr) as K1.
    destruct (page_out k H g p (Compressed id) _ _ K1) as (k' & g' & Hd & HP);
      [| |done|done|done|cbn; lia|rewrite Hd; by exists id, k', g'].
    + intros [q|j|j|] Hf; cbn; try done. rewrite lookup_insert_ne; [done|]. intros ->.
      apply (k_zdom _ _ _ K) in Hf. rewrite Hn in Hf. by destruct Hf.
    + cbn. by rewrite lookup_insert_eq.
  - left. by destruct k.
Qed.
End Invariant.
