(* ===== verification/MapArea.v ===== *)
(** * MapArea: memory areas (os/src/mm/map_area.rs)

    A memory area is a range of virtual pages with a frame for each ([LinearMap]), the
    permissions they are mapped with, and for a file mapping the file. Page tables are
    used through the class [PageTable], mapped files through [MapFile]. *)
From S2P Require Import Prelude AllocSpec Address FrameAlloc Bytes PageTable PageStore Trackers.
Import StackFrameAllocator.

Inductive MapType : Type := Identical | Framed.
#[global] Instance MapType_eq_dec : EqDecision MapType.
Proof. solve_decision. Defined.

(** A mapped file, [Arc<dyn File>]: its offset and size, a copy with an offset of its
    own, [lseek] from the start and from the current offset, [read] of at most that many
    bytes, and the frame of the page cache at an offset. *)
Class MapFile (F : Type) := {
  mf_get_offset : F -> Z;
  mf_get_size : F -> Z;
  mf_deep_clone : F -> F;
  mf_lseek_set : F -> Z -> outcome F;
  mf_lseek_cur : F -> Z -> outcome F;
  mf_read : F -> Z -> list Z * F;
  mf_get_single_cache : F -> Z -> outcome Z;
}.

(** [for vpn in range] *)
Definition vpns (r : SimpleRange) : list Z := seqZ (range_l r) (range_r r - range_l r).

Section MapArea.
Context (cfg : config) {ZS SS T F : Type} `{!PageStore ZS} `{!PageStore SS} `{!PageTable T} `{!MapFile F}.
#[local] Notation kmem := (@kmem ZS SS).

(** ** LinearMap *)

Record LinearMap : Type := LM {
  vpn_range : SimpleRange;
  frames : list Frame;
  active : list Z;
  compressed : Z;
  swapped : Z;
}.
Definition lm_start (l : LinearMap) : Z := range_l (vpn_range l).
Definition lm_end (l : LinearMap) : Z := range_r (vpn_range l).
Definition with_frames (l : LinearMap) (fs : list Frame) : LinearMap := LM (vpn_range l) fs (active l) (compressed l) (swapped l).
Definition with_active (l : LinearMap) (a : list Z) : LinearMap := LM (vpn_range l) (frames l) a (compressed l) (swapped l).
Definition with_range (l : LinearMap) (r : SimpleRange) : LinearMap := LM r (frames l) (active l) (compressed l) (swapped l).

Definition lm_new (r : SimpleRange) : LinearMap :=
  LM r (replicate (Z.to_nat (range_r r ⊖ range_l r)) Unallocated) [] 0 0.

(** [get_mut]: the frame of a page, and writing it back. *)
Definition lm_get (l : LinearMap) (key : Z) : outcome Frame := index (frames l) (key ⊖ lm_start l).
Definition lm_set (l : LinearMap) (key : Z) (f : Frame) : outcome LinearMap :=
  fs ← store (frames l) (key ⊖ lm_start l) f; Ret (with_frames l fs).
Definition get_in_memory (l : LinearMap) (key : Z) : outcome (option Z) :=
  f ← lm_get l key; Ret (match f with InMemory ppn => Some ppn | _ => None end).

(** [insert_in_memory] fails on a page that has a frame already. *)
Definition alloc_in_memory (l : LinearMap) (key ppn : Z) : outcome LinearMap :=
  let idx := key ⊖ lm_start l in
  let l1 := with_active l (active l ++ [wrap 16 idx]) in
  f ← lm_get l1 key;
  match insert_in_memory f ppn with
  | (Ok _, f') => lm_set l1 key f'
  | (Err _, _) => Panic
  end.
Definition remove_in_memory (l : LinearMap) (key : Z) : outcome (option Z * LinearMap) :=
  let idx := key ⊖ lm_start l in
  let l1 := with_active l (filter (fun elem => elem <> idx) (active l)) in
  f ← lm_get l1 key;
  let '(o, f') := take_in_memory f in
  l2 ← lm_set l1 key f'; Ret (o, l2).

(** [Vec::resize]: what is cut off is dropped, front to back. *)
Definition resize (k : kmem) (fs : list Frame) (n : Z) : outcome (list Frame * kmem) :=
  let keep := take (Z.to_nat n) fs in
  k' ← for_each (drop (Z.to_nat n) fs) (fun f k => arc_drop cfg k f) k;
  Ret (keep ++ replicate (Z.to_nat n - length fs) Unallocated, k').
Definition rotate_left (fs : list Frame) (n : Z) : outcome (list Frame) :=
  rust_assert (n <=? Z.of_nat (length fs)) ;; Ret (drop (Z.to_nat n) fs ++ take (Z.to_nat n) fs).

Definition set_start (k : kmem) (l : LinearMap) (new_start : Z) : outcome (Result unit unit * LinearMap * kmem) :=
  let vpn_start := lm_start l in
  let vpn_end := lm_end l in
  if vpn_end <? new_start then Ret (Err tt, l, k)
  else
    r ← range_new new_start vpn_end;
    fs1 ← rotate_left (frames l) (if new_start <? vpn_start then vpn_start ⊖ new_start else new_start ⊖ vpn_start);
    '(fs2, k') ← resize k fs1 (vpn_end ⊖ new_start);
    Ret (Ok tt, with_frames (with_range l r) fs2, k').
Definition set_end (k : kmem) (l : LinearMap) (new_end : Z) : outcome (Result unit unit * LinearMap * kmem) :=
  let vpn_start := lm_start l in
  r ← range_new vpn_start new_end;
  if new_end <? vpn_start then Ret (Err tt, with_range l r, k)
  else
    '(fs, k') ← resize k (frames l) (new_end ⊖ vpn_start);
    Ret (Ok tt, with_frames (with_range l r) fs, k').

Definition count_frames (fs : list Frame) : Z * Z :=
  foldl (fun '(c, s) f => match f with Compressed _ => (c + 1, s) | SwappedOut _ => (c, s + 1) | _ => (c, s) end) (0, 0) fs.
Definition count_compressed_and_swapped (l : LinearMap) (fs : list Frame) : Z * Z :=
  if (compressed l =? 0) && (swapped l =? 0) then (0, 0) else count_frames fs.
(** [idx - cut_idx as u16], on 16 bits. *)
Definition split_active_into_two (act : list Z) (cut_idx : Z) : list Z * list Z :=
  foldl (fun '(a1, a2) idx =>
    if idx <? cut_idx then (a1 ++ [idx], a2) else (a1, a2 ++ [wrap 16 (idx - wrap 16 cut_idx)])) ([], []) act.

Definition lm_into_two (l : LinearMap) (cut : Z) : outcome (Result LinearMap unit * LinearMap) :=
  let vpn_start := lm_start l in
  let vpn_end := lm_end l in
  if (cut <=? vpn_start) || (vpn_end <=? cut) then Ret (Err tt, l)
  else
    let at_ := cut ⊖ vpn_start in
    rust_assert (at_ <=? Z.of_nat (length (frames l))) ;;
    let first_frames := take (Z.to_nat at_) (frames l) in
    let second_frames := drop (Z.to_nat at_) (frames l) in
    let '(first_active, second_active) := split_active_into_two (active l) at_ in
    let '(c1, s1) := count_compressed_and_swapped l first_frames in
    r2 ← range_new cut vpn_end;
    r1 ← range_new vpn_start cut;
    Ret (Ok (LM r2 second_frames second_active (compressed l ⊖ c1) (swapped l ⊖ s1)),
         LM r1 first_frames first_active c1 s1).
(** When the second cut fails the part behind the first cut is dropped. *)
Definition lm_into_three (k : kmem) (l : LinearMap) (first_cut second_cut : Z)
    : outcome (Result (LinearMap * LinearMap) unit * LinearMap * kmem) :=
  '(o, l1) ← lm_into_two l first_cut;
  match o with
  | Ok second =>
      '(o2, second') ← lm_into_two second second_cut;
      match o2 with
      | Ok third => Ret (Ok (second', third), l1, k)
      | Err _ => k' ← for_each (frames second') (fun f k => arc_drop cfg k f) k; Ret (Err tt, l1, k')
      end
  | Err _ => Ret (Err tt, l1, k)
  end.

(** ** MapArea *)

Record MapArea : Type := MkArea {
  inner : LinearMap;
  map_type : MapType;
  map_perm : Z;
  map_file : option F;
}.
Definition with_inner (a : MapArea) (l : LinearMap) : MapArea := MkArea l (map_type a) (map_perm a) (map_file a).
Definition area_start (a : MapArea) : Z := lm_start (inner a).
Definition area_end (a : MapArea) : Z := lm_end (inner a).

Definition area_new (start_va end_va : Z) (ty : MapType) (perm : Z) (file : option F) : outcome MapArea :=
  r ← range_new (addr_floor start_va) (addr_ceil end_va);
  Ret (MkArea (lm_new r) ty perm file).
Definition from_another (a : MapArea) : outcome MapArea :=
  r ← range_new (area_start a) (area_end a);
  Ret (MkArea (lm_new r) (map_type a) (map_perm a) (map_file a)).
Definition from_existing_frame (start_va : Z) (ty : MapType) (perm : Z) (fs : list Frame) : outcome MapArea :=
  let start_vpn := addr_floor start_va in
  r ← range_new start_vpn (start_vpn ⊕ Z.of_nat (length fs));
  Ret (MkArea (LM r fs [] 0 0) ty perm None).

(** The page-table operations on the kernel's memory. *)
Definition kmap (pt : T) (k : kmem) (vpn ppn perm : Z) : outcome (T * kmem) :=
  '(pt', w') ← pt_map pt (wd k) vpn ppn perm; Ret (pt', with_wd k w').
Definition kmap_identical (pt : T) (k : kmem) (vpn ppn perm : Z) : outcome (T * kmem) :=
  '(pt', w') ← pt_map_identical pt (wd k) vpn ppn perm; Ret (pt', with_wd k w').
Definition kunmap (pt : T) (k : kmem) (vpn : Z) : outcome kmem := w' ← pt_unmap pt (wd k) vpn; Ret (with_wd k w').
Definition kmapped (pt : T) (k : kmem) (vpn : Z) : bool := pt_is_mapped pt (mem (wd k)) vpn.
Definition kflags (pt : T) (k : kmem) (vpn perm : Z) : bool * kmem :=
  let '(b, w') := pt_set_pte_flags pt (wd k) vpn perm in (b, with_wd k w').

Definition map_one_unchecked (a : MapArea) (pt : T) (k : kmem) (vpn : Z) : outcome (Z * MapArea * T * kmem) :=
  match map_type a with
  | Identical => '(pt', k') ← kmap_identical pt k vpn vpn (map_perm a); Ret (vpn, a, pt', k')
  | Framed =>
      '(ppn, k1) ← frame_alloc_uninit_unwrap k;
      l ← alloc_in_memory (inner a) vpn ppn;
      '(pt', k2) ← kmap pt k1 vpn ppn (map_perm a);
      Ret (ppn, with_inner a l, pt', k2)
  end.
Definition map_one (a : MapArea) (pt : T) (k : kmem) (vpn : Z)
    : outcome (Result Z (MemoryError * Z) * MapArea * T * kmem) :=
  if bool_decide (map_type a = Identical) || negb (kmapped pt k vpn) then
    '(ppn, a', pt', k') ← map_one_unchecked a pt k vpn; Ret (Ok ppn, a', pt', k')
  else Ret (Err (AlreadyMapped, vpn), a, pt, k).
Definition map_one_zeroed_unchecked (a : MapArea) (pt : T) (k : kmem) (vpn : Z) : outcome (Z * MapArea * T * kmem) :=
  '(ppn, k1) ← frame_alloc_unwrap cfg k;
  l ← alloc_in_memory (inner a) vpn ppn;
  '(pt', k2) ← kmap pt k1 vpn ppn (map_perm a);
  Ret (ppn, with_inner a l, pt', k2).

(** The tracker that [remove_in_memory] returns is dropped at the end of the statement. *)
Definition unmap_one (a : MapArea) (pt : T) (k : kmem) (vpn : Z) : outcome (Result unit MemoryError * MapArea * kmem) :=
  if negb (kmapped pt k vpn) then Ret (Err NotMapped, a, k)
  else
    match map_type a with
    | Framed =>
        '(o, l) ← remove_in_memory (inner a) vpn;
        k1 ← match o with Some ppn => arc_drop cfg k (InMemory ppn) | None => Ret k end;
        k2 ← kunmap pt k1 vpn;
        Ret (Ok tt, with_inner a l, k2)
    | Identical => Ret (Ok tt, a, k)
    end.

(** Unmaps the pages of a list; [true] when one of them was not mapped. *)
Definition unmap_list (pt : T) (l : list Z) (a : MapArea) (k : kmem) : outcome (bool * MapArea * kmem) :=
  for_each l (fun vpn '((b, a, k) : bool * MapArea * kmem) =>
    '(r, a', k') ← unmap_one a pt k vpn;
    Ret (match r with Err _ => true | Ok _ => b end, a', k')) (false, a, k).
Definition unmap (a : MapArea) (pt : T) (k : kmem) : outcome (Result unit MemoryError * MapArea * kmem) :=
  '(has_unmapped_page, a', k') ← unmap_list pt (vpns (vpn_range (inner a))) a k;
  Ret (if (has_unmapped_page : bool) then Err NotMapped else Ok tt, a', k').

(** Sharing the pages of [a] with another page table, write-protected on both sides. *)
Definition map_from_existing_page_table (a : MapArea) (dst src : T) (k : kmem) : outcome (Result unit unit * T * kmem) :=
  let perm := MapPermission.difference (map_perm a) MapPermission.W in
  '(r, (dst', k')) ← for_try (vpns (vpn_range (inner a))) (fun vpn '((dst, k) : T * kmem) =>
      let '(o, w1) := pt_block_and_ret_mut src (wd k) vpn in
      let k1 := with_wd k w1 in
      match o with
      | Some ppn =>
          if negb (kmapped dst k1 vpn) then '(dst', k2) ← kmap dst k1 vpn ppn perm; Ret (Ok tt, (dst', k2))
          else Ret (Err tt, (dst, k1))
      | None => Ret (Ok tt, (dst, k1))
      end) (dst, k);
  Ret (r, dst', k').

(** Sharing the frames of an area of the kernel, page by page from [src_vpn] on. *)
Definition map_from_kernel_area (a : MapArea) (pt : T) (k : kmem) (kernel_area : MapArea) (start_vpn_in_kernel_area : Z)
    : outcome (Result unit unit * MapArea * T * kmem) :=
  '(r, (_, a', pt', k')) ← for_try (vpns (vpn_range (inner a))) (fun vpn '((src_vpn, a, pt, k) : Z * MapArea * T * kmem) =>
      o ← get_in_memory (inner kernel_area) src_vpn;
      match o with
      | Some ppn =>
          if negb (kmapped pt k vpn) then
            l ← alloc_in_memory (inner a) vpn ppn;
            '(pt', k') ← kmap pt (arc_clone k (InMemory ppn)) vpn ppn (map_perm a);
            Ret (Ok tt, (src_vpn ⊕ 1, with_inner a l, pt', k'))
          else Ret (Err tt, (src_vpn, a, pt, k))
      | None => Ret (Err tt, (src_vpn, a, pt, k))
      end) (start_vpn_in_kernel_area, a, pt, k);
  Ret (r, a', pt', k').

(** [old_frame] lives to the end of the function. *)
Definition copy_on_write (a : MapArea) (pt : T) (k : kmem) (vpn : Z) : outcome (Result Z MemoryError * MapArea * T * kmem) :=
  '(o, l1) ← remove_in_memory (inner a) vpn;
  old_ppn ← unwrap o;
  if strong_count k (InMemory old_ppn) =? 1 then
    l2 ← alloc_in_memory l1 vpn old_ppn;
    let '(ok, k1) := kflags pt k vpn (map_perm a) in
    rust_assert ok ;;
    Ret (Ok old_ppn, with_inner a l2, pt, k1)
  else
    k1 ← kunmap pt k vpn;
    '(new_ppn, k2) ← frame_alloc_uninit_unwrap k1;
    l2 ← alloc_in_memory l1 vpn new_ppn;
    '(pt', k3) ← kmap pt k2 vpn new_ppn (map_perm a);
    let k4 := set_bytes_array k3 new_ppn (get_bytes_array k3 old_ppn) in
    k5 ← arc_drop cfg k4 (InMemory old_ppn);
    Ret (Ok new_ppn, with_inner a l2, pt', k5).

Definition expand_to (a : MapArea) (k : kmem) (new_end : Z) : outcome (Result unit unit * MapArea * kmem) :=
  let new_end_vpn := addr_ceil new_end in
  if new_end_vpn <? area_end a then Ret (Err tt, a, k)
  else '(r, l, k') ← set_end k (inner a) new_end_vpn; Ret (r, with_inner a l, k').
Definition shrink_to (a : MapArea) (pt : T) (k : kmem) (new_end : Z) : outcome (Result unit unit * MapArea * kmem) :=
  let new_end_vpn := addr_ceil new_end in
  let old_end_vpn := area_end a in
  if old_end_vpn <? new_end_vpn then Ret (Err tt, a, k)
  else
    r ← range_new new_end_vpn old_end_vpn;
    '(has_unmapped_page, a1, k1) ← unmap_list pt (vpns r) a k;
    '(res, l, k2) ← set_end k1 (inner a1) new_end_vpn;
    match res with
    | Err _ => Ret (Err tt, with_inner a1 l, k2)
    | Ok _ => Ret (if (has_unmapped_page : bool) then Err tt else Ok tt, with_inner a1 l, k2)
    end.
Definition rshrink_to (a : MapArea) (pt : T) (k : kmem) (new_start : Z) : outcome (Result unit unit * MapArea * kmem) :=
  let new_start_vpn := addr_floor new_start in
  let old_start_vpn := area_start a in
  if new_start_vpn <? old_start_vpn then Ret (Err tt, a, k)
  else
    r ← range_new old_start_vpn new_start_vpn;
    '(has_unmapped_page, a1, k1) ← unmap_list pt (vpns r) a k;
    '(res, l, k2) ← set_start k1 (inner a1) new_start_vpn;
    match res with
    | Err _ => Ret (Err tt, with_inner a1 l, k2)
    | Ok _ => Ret (if (has_unmapped_page : bool) then Err tt else Ok tt, with_inner a1 l, k2)
    end.

Definition check_overlapping (a : MapArea) (start_vpn end_vpn : Z) : option (Z * Z) :=
  if (end_vpn <? area_start a) || (area_end a <=? start_vpn) then None
  else Some (if area_start a <? start_vpn then start_vpn else area_start a,
             if end_vpn <? area_end a then end_vpn else area_end a).

(** The file of a part that starts at page [cut]: a copy, its offset moved. *)
Definition cut_file (f : F) (area_start_vpn cut : Z) : outcome F :=
  mf_lseek_set (mf_deep_clone f) (wrap_signed 64 (mf_get_offset f ⊕ addr_from_pn cut ⊖ addr_from_pn area_start_vpn)).
Definition into_two (a : MapArea) (cut : Z) : outcome (Result MapArea unit * MapArea) :=
  second_file ← match map_file a with
                | Some f => f' ← cut_file f (area_start a) cut; Ret (Some f')
                | None => Ret None
                end;
  '(o, l) ← lm_into_two (inner a) cut;
  Ret (match o with Ok second => Ok (MkArea second (map_type a) (map_perm a) second_file) | Err _ => Err tt end, with_inner a l).
Definition into_three (k : kmem) (a : MapArea) (first_cut second_cut : Z)
    : outcome (Result (MapArea * MapArea) unit * MapArea * kmem) :=
  let old_start_vpn := area_start a in
  '(o, l, k') ← lm_into_three k (inner a) first_cut second_cut;
  match o with
  | Err _ => Ret (Err tt, with_inner a l, k')
  | Ok (second, third) =>
      '(f2, f3) ← match map_file a with
                  | Some f => f2 ← cut_file f old_start_vpn first_cut; f3 ← cut_file f old_start_vpn second_cut; Ret (Some f2, Some f3)
                  | None => Ret (None, None)
                  end;
      Ret (Ok (MkArea second (map_type a) (map_perm a) f2, MkArea third (map_type a) (map_perm a) f3), with_inner a l, k')
  end.

(** One turn of the loop of [do_oom] on the page [idx], and of [force_swap]. *)
Definition do_oom_one (pt : T) (idx : Z) (l : LinearMap) (k : kmem) : outcome (LinearMap * kmem) :=
  f ← index (frames l) idx;
  '(r, f1, k1) ← zip cfg k f;
  match r with
  | Ok _ =>
      fs ← store (frames l) idx f1;
      k2 ← kunmap pt k1 (lm_start l ⊕ idx);
      Ret (LM (vpn_range l) fs (active l) (compressed l ⊕ 1) (swapped l), k2)
  | Err SharedPage => Ret (l, k1)
  | Err ZramIsFull =>
      '(r2, f2, k2) ← swap_out cfg k1 f1;
      match r2 with
      | Ok _ =>
          fs ← store (frames l) idx f2;
          k3 ← kunmap pt k2 (lm_start l ⊕ idx);
          Ret (LM (vpn_range l) fs (active l) (compressed l) (swapped l ⊕ 1), k3)
      | Err SharedPage => Ret (l, k2)
      | Err _ => Panic
      end
  | Err _ => Panic
  end.
Definition force_swap_one (pt : T) (idx : Z) (l : LinearMap) (k : kmem) : outcome (LinearMap * kmem) :=
  f ← index (frames l) idx;
  '(r, f1, k1) ← force_swap_out cfg k f;
  match r with
  | Ok _ =>
      fs ← store (frames l) idx f1;
      k2 ← kunmap pt k1 (lm_start l ⊕ idx);
      Ret (LM (vpn_range l) fs (active l) (compressed l) (swapped l ⊕ 1), k2)
  | Err _ => Panic
  end.
(** [while let Some(idx) = active.pop_front()]: the body does not touch [active]. *)
Definition pop_active (one : Z -> LinearMap -> kmem -> outcome (LinearMap * kmem)) (l : LinearMap) (k : kmem) : outcome (LinearMap * kmem) :=
  for_each (active l) (fun idx '((l, k) : LinearMap * kmem) => one idx (with_active l (tail (active l))) k) (l, k).
Definition area_do_oom (a : MapArea) (pt : T) (k : kmem) : outcome (Z * MapArea * kmem) :=
  '(l, k') ← pop_active (do_oom_one pt) (inner a) k;
  Ret (compressed l ⊕ swapped l ⊖ compressed (inner a) ⊖ swapped (inner a), with_inner a l, k').
Definition force_swap (a : MapArea) (pt : T) (k : kmem) : outcome (Z * MapArea * kmem) :=
  '(l, k') ← pop_active (force_swap_one pt) (inner a) k;
  Ret (swapped l ⊖ swapped (inner a), with_inner a l, k').
End MapArea.
