(* ===== verification/Pid.v ===== *)
(** Process, thread and kernel-stack ids ([os/src/task/pid.rs]) and the stack areas
    computed from them ([os/src/hal/arch/riscv/kern_stack.rs], [config.rs]). *)
From S2P Require Import Prelude AllocSpec Address.

Module RecycleAllocator.

Record t : Type := Mk { current : Z; recycled : list Z }.

Definition new : t := Mk 1 [].
Definition alloc (a : t) : Z * t :=
  match vec_pop (recycled a) with
  | Some (id, r) => (id, Mk (current a) r)
  | None => let c := current a ⊕ 1 in (c ⊖ 1, Mk c (recycled a))
  end.
Definition dealloc (a : t) (id : Z) : outcome t :=
  rust_assert (id <? current a) ;;
  rust_assert (negb (existsb (fun i => i =? id) (recycled a))) ;;
  Ret (Mk (current a) (recycled a ++ [id])).
Definition get_allocated (a : t) : Z := current a ⊖ Z.of_nat (length (recycled a)).

(** The handles: [pid_alloc] takes an id, [PidHandle::drop] gives it back. *)
#[global] Instance RecycleAllocator_Allocator : Allocator t := {
  a_alloc a := let '(id, a') := alloc a in Ret (Some id, a');
  a_free := dealloc;
}.

(** The ids below [current] are the live and the recycled ones, each once. *)
Record inv (a : t) (L : gset Z) : Prop := {
  iv_cur : 1 <= current a < 2 ^ 64;
  iv_nodup : NoDup (recycled a);
  iv_split : forall x, 1 <= x < current a <-> x ∈ L \/ x ∈ recycled a;
  iv_disj : forall x, x ∈ L -> x ∈ recycled a -> False;
}.

Lemma recycle_inv_new : inv new ∅.
Proof.
  constructor; cbn; [lia|constructor| |set_solver]. intros x. split; [lia|]. intros [H|H]; [set_solver|by apply not_elem_of_nil in H].
Qed.

Lemma alloc_ok a L : inv a L -> current a < 2 ^ 64 - 1 -> exists id a', alloc a = (id, a') /\
  1 <= id /\ id ∉ L /\ inv a' ({[id]} ∪ L) /\ current a' <= current a + 1.
Proof.
  intros [H1 H2 H3 H4] Hb. unfold alloc. pose proof (vec_pop_spec (recycled a)) as Hp.
  destruct (vec_pop (recycled a)) as [[id r]|].
  - rewrite Hp in *. assert (id ∈ r ++ [id]) as Hid by (apply elem_of_app; right; by apply list_elem_of_singleton).
    assert (1 <= id < current a) as Hr by (apply H3; by right). apply NoDup_app in H2 as (N1 & N2 & _).
    exists id, (Mk (current a) r). split; [done|]. split; [lia|]. split; [intros H; by apply (H4 id)|]. split; [|cbn; lia].
    constructor; cbn; try done.
    + intros x. rewrite H3, elem_of_app, list_elem_of_singleton. set_solver.
    + intros x Hx Hxr. apply elem_of_union in Hx as [->%elem_of_singleton|Hx].
      * apply (N2 id Hxr). by apply list_elem_of_singleton.
      * apply (H4 x Hx). apply elem_of_app. by left.
  - rewrite add64_small by (unfold in_range; lia). rewrite sub64_small by lia.
    assert (current a ∉ L) as Hn by (intros H; assert (1 <= current a < current a) by (apply H3; by left); lia).
    exists (current a), (Mk (current a + 1) (recycled a)). split; [f_equal; lia|]. split; [lia|]. split; [done|].
    split; [|cbn; lia]. constructor; cbn; [lia|done| |].
    + intros x. assert (x = current a \/ x <> current a) as [->|Hne] by lia; [set_solver by lia|].
      assert (1 <= x < current a + 1 <-> 1 <= x < current a) as -> by lia. rewrite H3. set_solver.
    + rewrite Hp. intros x _ Hx. by apply not_elem_of_nil in Hx.
Qed.

Lemma dealloc_ok a L id : inv a L -> id ∈ L -> exists a', dealloc a id = Ret a' /\ inv a' (L ∖ {[id]}) /\
  current a' = current a.
Proof.
  intros [H1 H2 H3 H4] Hid. assert (1 <= id < current a) as Hr by (apply H3; by left). unfold dealloc.
  destruct (Z.ltb_spec id (current a)); [|lia].
  assert (existsb (fun i => i =? id) (recycled a) = false) as ->.
  { apply not_true_iff_false. intros (x & Hx & ->%Z.eqb_eq)%existsb_exists. apply (H4 id Hid). by apply list_elem_of_In. }
  eexists. split; [done|]. split; [|done]. constructor; cbn; [done| | |].
  - apply NoDup_app. split_and!; [done| |apply NoDup_singleton]. intros x Hx ->%list_elem_of_singleton. by apply (H4 id).
  - intros x. rewrite H3, elem_of_app, list_elem_of_singleton. destruct (decide (x = id)); set_solver.
  - intros x Hx. rewrite elem_of_app, list_elem_of_singleton. set_solver.
Qed.

Lemma inv_size a L : inv a L -> current a - 1 = Z.of_nat (size L) + Z.of_nat (length (recycled a)).
Proof.
  intros [H1 H2 H3 H4].
  assert (elements L ++ recycled a ≡ₚ seqZ 1 (current a - 1)) as Hp.
  { apply NoDup_Permutation.
    - apply NoDup_app. split_and!; [apply NoDup_elements| |done]. intros x Hx%elem_of_elements Hx2. by apply (H4 x).
    - apply NoDup_seqZ.
    - intros x. rewrite elem_of_app, elem_of_elements, <- H3, elem_of_seqZ. lia. }
  apply Permutation_length in Hp. rewrite length_app, length_seqZ in Hp. unfold size, set_size. cbn. lia.
Qed.

(** The holder of the handles agrees with the allocator, after [n] requests. *)
Record holds (n : Z) (c : client t) : Prop := {
  hd_inv : inv (c_alloc c) (list_to_set (c_held c));
  hd_nodup : NoDup (c_held c);
  hd_trace : spec_steps (fun x => 1 <= x) ∅ (c_trace c) (list_to_set (c_held c));
  hd_count : current (c_alloc c) <= 1 + n;
}.

Lemma client_step_ok n c r : holds n c -> 0 <= n < 2 ^ 64 - 2 ->
  exists c', client_step c r = Ret c' /\ holds (n + 1) c'.
Proof.
  intros [H1 H2 H3 H4] Hn. destruct r as [|k]; cbn.
  - destruct (alloc_ok _ _ H1 ltac:(lia)) as (id & a' & -> & Hid & Hnew & Hi & Hc). cbn. eexists. split; [done|].
    assert ((list_to_set (c_held c ++ [id]) : gset Z) = {[id]} ∪ list_to_set (c_held c)) as Heq.
    { rewrite list_to_set_app_L. cbn. set_solver. }
    constructor; cbn; rewrite ?Heq; [done| | |lia].
    + apply NoDup_app. split_and!; [done| |apply NoDup_singleton]. intros x Hx ->%list_elem_of_singleton. set_solver.
    + eapply spec_steps_snoc; [done|]. by constructor.
  - destruct (c_held c !! k) as [id|] eqn:Hk; [|exists c; split; [done|]; constructor; done || lia].
    destruct (NoDup_delete_set _ _ _ H2 Hk) as [Hnd Hset].
    assert (id ∈ (list_to_set (c_held c) : gset Z)) as Hin by (apply elem_of_list_to_set; by eapply list_elem_of_lookup_2).
    destruct (dealloc_ok _ _ id H1 Hin) as (a' & -> & Hi & Hc). cbn. eexists. split; [done|].
    constructor; cbn; rewrite ?Hset; [done|done| |lia]. eapply spec_steps_snoc; [done|]. by constructor.
Qed.

Lemma client_run_ok rs : forall n c, holds n c -> 0 <= n -> n + Z.of_nat (length rs) <= 2 ^ 64 - 2 ->
  exists c', client_run c rs = Ret c' /\ holds (n + Z.of_nat (length rs)) c'.
Proof.
  induction rs as [|r rs IH]; intros n c Hc Hn Hl; cbn [length client_run] in *.
  - exists c. by rewrite Z.add_0_r.
  - destruct (client_step_ok n c r Hc ltac:(lia)) as (c1 & -> & H1). cbn [mbind outcome_bind].
    destruct (IH (n + 1) c1 H1 ltac:(lia) ltac:(lia)) as (c2 & -> & H2). exists c2. split; [done|].
    by replace (n + Z.of_nat (S (length rs))) with (n + 1 + Z.of_nat (length rs)) by lia.
Qed.

(** Ids are unique while they are held. However handles are taken and dropped (fewer
    than 2^64 - 1 requests), the allocator never panics, the ids held are positive,
    pairwise distinct and at most the number of requests made, the history is one of
    the abstract allocator, and the ids ever used are the held and the recycled ones.
    The count [get_allocated] reports is one more than the number of ids held. *)
Theorem recycle_allocator_unique rs : Z.of_nat (length rs) <= 2 ^ 64 - 2 ->
  exists c, client_run (Client new [] []) rs = Ret c /\
    NoDup (c_held c) /\
    (forall x, x ∈ c_held c -> 1 <= x <= Z.of_nat (length rs)) /\
    spec_steps (fun x => 1 <= x) ∅ (c_trace c) (list_to_set (c_held c)) /\
    (forall x, 1 <= x < current (c_alloc c) <-> x ∈ c_held c \/ x ∈ recycled (c_alloc c)) /\
    get_allocated (c_alloc c) = Z.of_nat (length (c_held c)) + 1.
Proof.
  intros Hl. destruct (client_run_ok rs 0 (Client new [] [])) as (c & Hr & [H1 H2 H3 H4]); [|lia|lia|].
  { constructor; cbn; [apply recycle_inv_new|constructor|constructor|lia]. }
  exists c. pose proof (inv_size _ _ H1) as Hsz. rewrite size_list_to_set in Hsz by done. destruct H1 as [I1 I2 I3 I4].
  split_and!; try done.
  - intros x Hx. assert (1 <= x < current (c_alloc c)) by (apply I3; left; by apply elem_of_list_to_set). lia.
  - intros x. by rewrite I3, elem_of_list_to_set.
  - unfold get_allocated. rewrite sub64_small; lia.
Qed.

(** Witness: three ids taken, one dropped and taken again. *)
Lemma recycle_allocator_unique_witness : exists c,
  client_run (Client new [] []) [ReqAlloc; ReqAlloc; ReqAlloc; ReqDrop 1; ReqAlloc] = Ret c /\
  c_held c = [1; 3; 2] /\ NoDup (c_held c) /\ get_allocated (c_alloc c) = 4.
Proof.
  destruct (recycle_allocator_unique [ReqAlloc; ReqAlloc; ReqAlloc; ReqDrop 1; ReqAlloc]) as (c & Hr & H2 & _ & _ & _ & Hg); [done|].
  exists c. vm_compute in Hr. injection Hr as <-. by split_and!.
Defined.

End RecycleAllocator.

(** ** Stack areas *)

Definition TASK_SIZE : Z := 0xc0000000.
Definition USER_STACK_BASE : Z := TASK_SIZE - PAGE_SIZE.
Definition USER_STACK_SIZE : Z := PAGE_SIZE * 0x40.
Definition KERNEL_STACK_SIZE : Z := PAGE_SIZE * 0x10.
Definition MMAP_END : Z := 0x80000000.
Definition TRAMPOLINE : Z := usize_max - PAGE_SIZE + 1.
Definition SIGNAL_TRAMPOLINE : Z := TRAMPOLINE - PAGE_SIZE.
Definition TRAP_CONTEXT_BASE : Z := SIGNAL_TRAMPOLINE - PAGE_SIZE.

Definition kernel_stack_position (kstack_id : Z) : Z * Z :=
  let top := TRAMPOLINE ⊖ (kstack_id ⊗ (KERNEL_STACK_SIZE + PAGE_SIZE)) in
  (top ⊖ KERNEL_STACK_SIZE, top).
Definition trap_cx_bottom_from_tid (tid : Z) : Z := TRAP_CONTEXT_BASE ⊖ (tid ⊗ PAGE_SIZE).
Definition ustack_bottom_from_tid (tid : Z) : Z := USER_STACK_BASE ⊖ (tid ⊗ (PAGE_SIZE + USER_STACK_SIZE)).
(** The areas [alloc_user_res] maps for a thread: the user stack and the trap context. *)
Definition user_stack_area (tid : Z) : Z * Z :=
  (ustack_bottom_from_tid tid ⊖ USER_STACK_SIZE, ustack_bottom_from_tid tid).
Definition trap_cx_area (tid : Z) : Z * Z :=
  (trap_cx_bottom_from_tid tid, trap_cx_bottom_from_tid tid ⊕ PAGE_SIZE).

Ltac unfold_areas := unfold kernel_stack_position, user_stack_area, trap_cx_area, trap_cx_bottom_from_tid,
  ustack_bottom_from_tid, TRAP_CONTEXT_BASE, SIGNAL_TRAMPOLINE, TRAMPOLINE, USER_STACK_BASE, TASK_SIZE,
  KERNEL_STACK_SIZE, USER_STACK_SIZE, MMAP_END, PAGE_SIZE, usize_max in *.

(** The areas in closed form, for ids whose areas fit. *)
Lemma areas id : 1 <= id <= 4000 ->
  kernel_stack_position id = (2 ^ 64 - 0x1000 - id * 0x11000 - 0x10000, 2 ^ 64 - 0x1000 - id * 0x11000) /\
  trap_cx_area id = (2 ^ 64 - 0x3000 - id * 0x1000, 2 ^ 64 - 0x2000 - id * 0x1000) /\
  user_stack_area id = (0xbffff000 - id * 0x41000 - 0x40000, 0xbffff000 - id * 0x41000).
Proof.
  intros Hid.
  assert (forall base k, 0 <= k <= 0x41000 -> id * k <= base < 2 ^ 64 -> base ⊖ (id ⊗ k) = base - id * k) as E.
  { intros base k Hk Hb. rewrite mul64_small by (unfold in_range; nia). apply sub64_small; nia. }
  unfold_areas. rewrite !E by lia. rewrite !sub64_small by lia. rewrite add64_small by (unfold in_range; lia).
  split_and!; f_equal; lia.
Qed.

(** Two areas do not meet, with at least [gap] bytes between them. *)
Definition apart (gap : Z) (a b : Z * Z) : Prop := snd a + gap <= fst b \/ snd b + gap <= fst a.

(** Threads do not share stacks. For two different ids up to 4000 the kernel stacks
    are apart with an unmapped guard page in between, so are the user stacks, the trap
    contexts are different pages; kernel stacks and trap contexts lie below the
    trampolines, and user stacks between the end of the mmap area and the user space limit. *)
Theorem thread_areas_disjoint a b : 1 <= a <= 4000 -> 1 <= b <= 4000 -> a <> b ->
  apart PAGE_SIZE (kernel_stack_position a) (kernel_stack_position b) /\
  apart PAGE_SIZE (user_stack_area a) (user_stack_area b) /\
  apart 0 (trap_cx_area a) (trap_cx_area b) /\
  snd (kernel_stack_position a) < TRAMPOLINE /\ snd (trap_cx_area a) <= TRAP_CONTEXT_BASE /\
  MMAP_END <= fst (user_stack_area a) /\ snd (user_stack_area a) < USER_STACK_BASE.
Proof.
  intros Ha Hb Hne. destruct (areas a Ha) as (-> & -> & ->), (areas b Hb) as (-> & -> & ->).
  unfold apart. cbn [fst snd]. unfold_areas. lia.
Qed.

(** Witness: the ids 1 and 2. *)
Lemma thread_areas_disjoint_witness : apart PAGE_SIZE (kernel_stack_position 1) (kernel_stack_position 2).
Proof. apply (thread_areas_disjoint 1 2); lia. Defined.
