(* ===== verification/MemorySet.v ===== *)
(** * MemorySet: address spaces (os/src/mm/memory_set.rs)

    A memory set is a page table and a list of areas in the order of their addresses.
    This file models the operations on it: adding areas, the page-fault handler, fork with
    copy-on-write, cleaning under memory pressure, and the calls [brk], [mmap], [munmap]
    and [mprotect], with the constants of the RISC-V build. *)
From S2P Require Import Prelude Errno AllocSpec Address FrameAlloc Bytes PageTable PageStore Trackers MapArea Pid.
Import StackFrameAllocator.

(** ** Constants *)
Definition MMAP_BASE : Z := 0x60000000.
Definition USER_HEAP_SIZE : Z := PAGE_SIZE * 0x20.
Definition SKIP_NUM : nat := 2.
(** [size_of::<TrapContext>()] *)
Definition TRAP_CX_SIZE : Z := 568.

Module MapFlags.
Definition MAP_PRIVATE : Z := 0x02.
Definition MAP_FIXED : Z := 0x10.
Definition MAP_ANONYMOUS : Z := 0x20.
Definition contains (a b : Z) : bool := Z.land a b =? b.
End MapFlags.

(** [MapPermission::from_bits(((prot as u8) << 1) | (1 << 4))] *)
Definition prot_from_bits (prot : Z) : option Z :=
  let bits := Z.lor (wrap 8 (Z.shiftl (wrap 8 prot) 1)) 16 in
  if Z.land bits 0x1e =? bits then Some bits else None.

Section MemorySet.
Context (cfg : config) {ZS SS T F : Type} `{!PageStore ZS} `{!PageStore SS} `{!PageTable T} `{!MapFile F}.
(** The symbols [strampoline] and [ssignaltrampoline] of the linker script. *)
Context (strampoline ssignaltrampoline : Z).

#[local] Notation kmem := (@kmem ZS SS).
#[local] Notation MapArea := (@MapArea F).

Record MemorySet : Type := MkMS { page_table : T; areas : list MapArea }.

Definition new_bare (k : kmem) : outcome (MemorySet * kmem) :=
  '(pt, w') ← pt_new (wd k); Ret (MkMS pt [], with_wd k w').

(** Dropping an area drops its frames. *)
Definition drop_area (a : MapArea) (k : kmem) : outcome kmem :=
  for_each (frames (inner a)) (fun f k => arc_drop cfg k f) k.

Definition push (ms : MemorySet) (a : MapArea) (data : option (list Z)) (k : kmem)
    : outcome (Result unit (MemoryError * Z) * MemorySet * kmem) :=
  '(r, (_, a', pt', k')) ← for_try (vpns (vpn_range (inner a))) (fun vpn '((start, a, pt, k) : Z * MapArea * T * kmem) =>
      '(r, a', pt', k1) ← map_one a pt k vpn;
      match r with
      | Err e => Ret (Err e, (start, a', pt', k1))
      | Ok ppn =>
          match data with
          | Some d =>
              let len := Z.of_nat (length d) in
              let end_ := start ⊕ PAGE_SIZE in
              rust_assert (start <=? Z.min len end_) ;;
              let src := take (Z.to_nat (Z.min len end_ - start)) (drop (Z.to_nat start) d) in
              let page := get_bytes_array k1 ppn in
              Ret (Ok tt, (end_, a', pt', set_bytes_array k1 ppn (src ++ drop (length src) page)))
          | None => Ret (Ok tt, (start, a', pt', k1))
          end
      end) (0, a, page_table ms, k);
  match r with
  | Ok _ => Ret (Ok tt, MkMS pt' (areas ms ++ [a']), k')
  | Err e => k2 ← drop_area a' k'; Ret (Err e, MkMS pt' (areas ms), k2)
  end.

Definition insert_framed_area (ms : MemorySet) (start_va end_va perm : Z) (k : kmem) : outcome (MemorySet * kmem) :=
  a ← area_new start_va end_va Framed perm None;
  '(r, ms', k') ← push ms a None k;
  match r with Ok _ => Ret (ms', k') | Err _ => Panic end.

(** The bytes a page gets from [data], which starts at [offset] in the first page. *)
Definition push_with_offset (ms : MemorySet) (a : MapArea) (offset : Z) (data : list Z) (k : kmem)
    : outcome (Result unit (MemoryError * Z) * MemorySet * kmem) :=
  let len := Z.of_nat (length data) in
  match vpns (vpn_range (inner a)) with
  | [] => Ret (Ok tt, MkMS (page_table ms) (areas ms ++ [a]), k)
  | vpn :: rest =>
      '(r, a1, pt1, k1) ← map_one a (page_table ms) k vpn;
      match r with
      | Err e => k2 ← drop_area a1 k1; Ret (Err e, MkMS pt1 (areas ms), k2)
      | Ok ppn =>
          let first_src := take (Z.to_nat (Z.min len (PAGE_SIZE ⊖ offset))) data in
          rust_assert (offset + Z.of_nat (length first_src) <=? PAGE_SIZE) ;;
          let page := get_bytes_array k1 ppn in
          let k2 := set_bytes_array k1 ppn (replicate (Z.to_nat offset) 0 ++ first_src ++
                      drop (Z.to_nat offset + length first_src) page) in
          '(r, (_, a', pt', k')) ← for_try rest (fun vpn '((start, a, pt, k) : Z * MapArea * T * kmem) =>
              '(r, a', pt', k1) ← map_one a pt k vpn;
              match r with
              | Err e => Ret (Err e, (start, a', pt', k1))
              | Ok ppn =>
                  let end_ := start ⊕ PAGE_SIZE in
                  let src := take (Z.to_nat (Z.min len end_ - start)) (drop (Z.to_nat start) data) in
                  let dst := if start <? len then src ++ replicate (4096 - length src) 0 else zero_page in
                  Ret (Ok tt, (end_, a', pt', set_bytes_array k1 ppn dst))
              end) (PAGE_SIZE ⊖ offset, a1, pt1, k2);
          match r with
          | Ok _ => Ret (Ok tt, MkMS pt' (areas ms ++ [a']), k')
          | Err e => k3 ← drop_area a' k'; Ret (Err e, MkMS pt' (areas ms), k3)
          end
      end
  end.

Definition push_no_alloc (ms : MemorySet) (a : MapArea) (k : kmem) : outcome (Result unit unit * MemorySet * kmem) :=
  '(r, (pt', k')) ← for_try (vpns (vpn_range (inner a))) (fun vpn '((pt, k) : T * kmem) =>
      o ← get_in_memory (inner a) vpn;
      ppn ← unwrap o;
      if negb (kmapped pt k vpn) then '(pt', k') ← kmap pt k vpn ppn (map_perm a); Ret (Ok tt, (pt', k'))
      else Ret (Err tt, (pt, k))) (page_table ms, k);
  match r with
  | Ok _ => Ret (Ok tt, MkMS pt' (areas ms ++ [a]), k')
  | Err _ => k2 ← drop_area a k'; Ret (Err tt, MkMS pt' (areas ms), k2)
  end.
Definition insert_program_area (ms : MemorySet) (start_va perm : Z) (fs : list Frame) (k : kmem)
    : outcome (Result unit unit * MemorySet * kmem) :=
  a ← from_existing_frame start_va Framed perm fs; push_no_alloc ms a k.

(** [iter().enumerate().find(p)], with the index. *)
Fixpoint position {A} (p : A -> bool) (l : list A) : option nat :=
  match l with [] => None | x :: r => if p x then Some O else S <$> position p r end.

Definition remove_area_with_start_vpn (ms : MemorySet) (start_vpn : Z) (k : kmem)
    : outcome (Result unit MemoryError * MemorySet * kmem) :=
  match position (fun a => area_start a =? start_vpn) (areas ms) with
  | Some idx =>
      area ← unwrap (areas ms !! idx);
      '(result, a', k1) ← unmap cfg area (page_table ms) k;
      k2 ← drop_area a' k1;
      Ret (result, MkMS (page_table ms) (delete idx (areas ms)), k2)
  | None => Ret (Err AreaNotFound, ms, k)
  end.

Definition get_area_by_vpn_range (ms : MemorySet) (vpn : Z) : option MapArea :=
  head (filter (fun a => area_start a <= vpn < area_end a) (reverse (areas ms))).
Definition highest_addr (ms : MemorySet) : outcome Z := a ← unwrap (last (areas ms)); Ret (addr_from_pn (area_end a)).
Definition contains_valid_buffer (ms : MemorySet) (buf size perm : Z) : bool :=
  let start_vpn := addr_floor buf in
  let end_vpn := addr_ceil (buf ⊕ size) in
  existsb (fun a => MapPermission.contains (map_perm a) (Z.lor perm MapPermission.U) &&
    (area_start a <=? start_vpn) && (end_vpn <=? area_end a)) (areas ms).

(** [areas.iter().enumerate().rev().skip(SKIP_NUM)]; the loop does not end without an answer. *)
Fixpoint mmap_area_from (l : list (nat * MapArea)) : outcome (option nat) :=
  match l with
  | [] => Panic
  | (idx, a) :: r =>
      if addr_floor MMAP_END <=? area_start a then mmap_area_from r
      else if addr_floor MMAP_BASE <=? area_start a then Ret (Some idx) else Ret None
  end.
Definition last_mmap_area_idx (ms : MemorySet) : outcome (option nat) :=
  mmap_area_from (drop SKIP_NUM (reverse (imap (fun i a => (i, a)) (areas ms)))).

(** ** The page-fault handler *)

Definition set_area (ms : MemorySet) (i : nat) (a : MapArea) (pt : T) : MemorySet := MkMS pt (<[i := a]> (areas ms)).

(** A page of a file-backed area that is not mapped. *)
Definition file_fault (ms : MemorySet) (k : kmem) (addr : Z) (i : nat) (area : MapArea) (file : F)
    : outcome (Result Z MemoryError * MemorySet * kmem) :=
  let vpn := addr_floor addr in
  let old_offset := mf_get_offset file in
  let offset_in_area := addr_from_pn vpn ⊖ addr_from_pn (area_start area) in
  if Z.land (mf_get_size file ⊕ PAGE_SIZE ⊖ 1) (not_bits 64 0xfff) <? old_offset ⊕ offset_in_area then Ret (Err BeyondEOF, ms, k)
  else if MapPermission.contains (map_perm area) MapPermission.W then
    '(ppn, a1, pt', k1) ← map_one_zeroed_unchecked cfg area (page_table ms) k vpn;
    f1 ← mf_lseek_cur file (wrap_signed 64 offset_in_area);
    let '(data, f2) := mf_read f1 PAGE_SIZE in
    let k2 := set_bytes_array k1 ppn (data ++ drop (length data) (get_bytes_array k1 ppn)) in
    f3 ← mf_lseek_set f2 (wrap_signed 64 old_offset);
    Ret (Ok (pn_offset ppn (page_offset addr)), set_area ms i (MkArea (inner a1) (map_type a1) (map_perm a1) (Some f3)) pt', k2)
  else
    cache_ppn ← mf_get_single_cache file (old_offset ⊕ offset_in_area);
    let k1 := arc_clone k (InMemory cache_ppn) in
    '(pt', k2) ← kmap (page_table ms) k1 vpn cache_ppn (map_perm area);
    l ← alloc_in_memory (inner area) vpn cache_ppn;
    Ret (Ok (pn_offset cache_ppn (page_offset addr)), set_area ms i (with_inner area l) pt', k2).

(** A page of an anonymous area that is not mapped. *)
Definition anonymous_fault (ms : MemorySet) (k : kmem) (addr : Z) (i : nat) (area : MapArea)
    : outcome (Result Z MemoryError * MemorySet * kmem) :=
  let vpn := addr_floor addr in
  frame ← lm_get (inner area) vpn;
  match frame with
  | InMemory _ => Panic
  | Unallocated =>
      '(ppn, a1, pt', k1) ← map_one_zeroed_unchecked cfg area (page_table ms) k vpn;
      Ret (Ok (pn_offset ppn (page_offset addr)), set_area ms i a1 pt', k1)
  | Compressed _ =>
      '(r, f', k1) ← unzip cfg k frame;
      match r with
      | Err _ => Panic
      | Ok ppn =>
          l ← lm_set (inner area) vpn f';
          '(pt', k2) ← kmap (page_table ms) k1 vpn ppn (map_perm area);
          let l' := LM (vpn_range l) (frames l) (active l ++ [wrap 16 (vpn ⊖ lm_start l)]) (compressed l ⊖ 1) (swapped l) in
          Ret (Ok (pn_offset ppn (page_offset addr)), set_area ms i (with_inner area l') pt', k2)
      end
  | SwappedOut _ =>
      '(r, f', k1) ← swap_in cfg k frame;
      match r with
      | Err _ => Panic
      | Ok ppn =>
          l ← lm_set (inner area) vpn f';
          '(pt', k2) ← kmap (page_table ms) k1 vpn ppn (map_perm area);
          let l' := LM (vpn_range l) (frames l) (active l ++ [wrap 16 (vpn ⊖ lm_start l)]) (compressed l) (swapped l ⊖ 1) in
          Ret (Ok (pn_offset ppn (page_offset addr)), set_area ms i (with_inner area l') pt', k2)
      end
  end.

Definition fault_area (vpn : Z) (a : MapArea) : bool :=
  MapPermission.contains (map_perm a) (Z.lor MapPermission.R MapPermission.U) && (area_start a <=? vpn) && (vpn <? area_end a).

Definition do_page_fault (ms : MemorySet) (k : kmem) (addr : Z) : outcome (Result Z MemoryError * MemorySet * kmem) :=
  let vpn := addr_floor addr in
  match position (fault_area vpn) (areas ms) with
  | None => Ret (Err BadAddress, ms, k)
  | Some i =>
      area ← unwrap (areas ms !! i);
      if negb (kmapped (page_table ms) k vpn) then
        match map_file area with
        | Some file => file_fault ms k addr i area file
        | None => anonymous_fault ms k addr i area
        end
      else if MapPermission.contains (map_perm area) MapPermission.W then
        '(r, a', pt', k') ← copy_on_write cfg area (page_table ms) k vpn;
        match r with
        | Ok ppn => Ret (Ok (pn_offset ppn (page_offset addr)), set_area ms i a' pt', k')
        | Err e => Ret (Err e, set_area ms i a' pt', k')
        end
      else Ret (Err NoPermission, ms, k)
  end.

(** [check_page_fault]: reserves frames first; [oom] is the handler of memory pressure. *)
Definition check_page_fault (oom : Z -> kmem -> bool * kmem) (ms : MemorySet) (k : kmem) (addr : Z)
    : outcome (Result Z Z * MemorySet * kmem) :=
  let remain := unallocated_frames (fa (wd k)) in
  k1 ← (if remain <? 3 then let '(ok, k1) := oom (3 ⊖ remain) k in rust_assert ok ;; Ret k1 else Ret k);
  '(r, ms', k2) ← do_page_fault ms k1 addr;
  match r with
  | Ok pa => Ret (Ok pa, ms', k2)
  | Err BeyondEOF | Err NoPermission | Err BadAddress => Ret (Err EFAULT, ms', k2)
  | Err _ => Panic
  end.

(** ** Memory pressure *)

(** [filter(..).map(..).sum()] over the areas, updated in place. *)
Fixpoint clean_areas (sel : MapArea -> bool) (clean : MapArea -> kmem -> outcome (Z * MapArea * kmem))
    (l : list MapArea) (k : kmem) : outcome (Z * list MapArea * kmem) :=
  match l with
  | [] => Ret (0, [], k)
  | a :: r =>
      if sel a then
        '(n, a', k1) ← clean a k; '(m, r', k2) ← clean_areas sel clean r k1; Ret (n ⊕ m, a' :: r', k2)
      else '(m, r', k2) ← clean_areas sel clean r k; Ret (m, a :: r', k2)
  end.
Definition anonymous (a : MapArea) : bool := match map_file a with None => true | Some _ => false end.
Definition do_shallow_clean (ms : MemorySet) (k : kmem) : outcome (Z * MemorySet * kmem) :=
  '(n, l, k') ← clean_areas
    (fun a => (Z.shiftr MMAP_BASE PAGE_SIZE_BITS <=? area_start a) && (area_start a <? Z.shiftr TASK_SIZE PAGE_SIZE_BITS) && anonymous a)
    (fun a k => area_do_oom cfg a (page_table ms) k) (areas ms) k;
  Ret (n, MkMS (page_table ms) l, k').
Definition do_deep_clean (ms : MemorySet) (k : kmem) : outcome (Z * MemorySet * kmem) :=
  '(n, l, k') ← clean_areas
    (fun a => (area_start a <? Z.shiftr TASK_SIZE PAGE_SIZE_BITS) && anonymous a)
    (fun a k => if area_start a <? Z.shiftr MMAP_BASE PAGE_SIZE_BITS then force_swap cfg a (page_table ms) k
                else area_do_oom cfg a (page_table ms) k) (areas ms) k;
  Ret (n, MkMS (page_table ms) l, k').

(** ** Fork *)

Definition map_trampoline (pt : T) (k : kmem) : outcome (T * kmem) :=
  ppn ← pn_from_addr strampoline;
  vpn ← pn_from_addr TRAMPOLINE;
  kmap pt k vpn ppn (Z.lor MapPermission.R MapPermission.X).
Definition map_signaltrampoline (pt : T) (k : kmem) : outcome (T * kmem) :=
  ppn ← pn_from_addr ssignaltrampoline;
  vpn ← pn_from_addr SIGNAL_TRAMPOLINE;
  kmap pt k vpn ppn (Z.lor (Z.lor MapPermission.R MapPermission.X) MapPermission.U).

(** [MapArea::clone] clones the trackers of its frames. *)
Definition clone_frames (k : kmem) (fs : list Frame) : kmem := foldl arc_clone k fs.

(** The areas but the last are shared. *)
Fixpoint fork_areas (l : list MapArea) (dst src : T) (k : kmem) : outcome (T * kmem) :=
  match l with
  | [] => Ret (dst, k)
  | a :: r =>
      let k1 := clone_frames k (frames (inner a)) in
      '(res, dst', k2) ← map_from_existing_page_table a dst src k1;
      match res with Ok _ => fork_areas r dst' src k2 | Err _ => Panic end
  end.
Definition from_existing_user (user_space : MemorySet) (k : kmem) : outcome (MemorySet * kmem) :=
  '(ms0, k0) ← new_bare k;
  '(pt1, k1) ← map_trampoline (page_table ms0) k0;
  '(pt2, k2) ← map_signaltrampoline pt1 k1;
  trap_cx_area ← unwrap (last (areas user_space));
  let shared := removelast (areas user_space) in
  '(pt3, k3) ← fork_areas shared pt2 (page_table user_space) k2;
  area ← from_another trap_cx_area;
  ppn ← unwrap (pt_translate (page_table user_space) (mem (wd k3)) (area_start trap_cx_area));
  '(r, ms', k4) ← push (MkMS pt3 shared) area (Some (take (Z.to_nat TRAP_CX_SIZE) (get_bytes_array k3 ppn))) k3;
  match r with Ok _ => Ret (ms', k4) | Err _ => Panic end.

Definition recycle_data_pages (ms : MemorySet) (k : kmem) : outcome (MemorySet * kmem) :=
  k' ← for_each (areas ms) drop_area k; Ret (MkMS (page_table ms) [], k').

(** ** Thread resources *)
Definition alloc_user_res (ms : MemorySet) (tid : Z) (alloc_stack : bool) (k : kmem) : outcome (MemorySet * kmem) :=
  '(ms1, k1) ← (if alloc_stack then
      let ustack_bottom := ustack_bottom_from_tid tid in
      insert_framed_area ms (ustack_bottom ⊖ USER_STACK_SIZE) ustack_bottom
        (Z.lor (Z.lor MapPermission.R MapPermission.W) MapPermission.U) k
    else Ret (ms, k));
  let trap_cx_bottom := trap_cx_bottom_from_tid tid in
  insert_framed_area ms1 trap_cx_bottom (trap_cx_bottom ⊕ PAGE_SIZE) (Z.lor MapPermission.R MapPermission.W) k1.
Definition dealloc_user_res (ms : MemorySet) (tid : Z) (k : kmem) : outcome (MemorySet * kmem) :=
  ustack_vpn ← pn_from_addr (ustack_bottom_from_tid tid ⊖ USER_STACK_SIZE);
  '(r1, ms1, k1) ← remove_area_with_start_vpn ms ustack_vpn k;
  match r1 with
  | Ok _ | Err AreaNotFound | Err NotMapped =>
      trap_vpn ← pn_from_addr (trap_cx_bottom_from_tid tid);
      '(r2, ms2, k2) ← remove_area_with_start_vpn ms1 trap_vpn k1;
      match r2 with Ok _ => Ret (ms2, k2) | Err _ => Panic end
  | Err _ => Panic
  end.

(** ** munmap, mmap, brk, mprotect *)

(** What the loop over the areas does to one of them: unmapped as a whole ([true]), at
    one end, or left for the cut in the middle. *)
Definition munmap_area (pt : T) (start_vpn end_vpn : Z) (a : MapArea) (k : kmem)
    : outcome (option (bool * bool) * MapArea * kmem) :=
  match check_overlapping a start_vpn end_vpn with
  | None => Ret (None, a, k)
  | Some (overlap_start, overlap_end) =>
      if (overlap_start =? area_start a) && (overlap_end =? area_end a) then
        '(_, a', k') ← unmap cfg a pt k; Ret (Some (true, false), a', k')
      else if overlap_start =? area_start a then
        '(_, a', k') ← rshrink_to cfg a pt k (addr_from_pn overlap_end); Ret (Some (false, false), a', k')
      else if overlap_end =? area_end a then
        '(_, a', k') ← shrink_to cfg a pt k (addr_from_pn overlap_start); Ret (Some (false, false), a', k')
      else Ret (Some (false, true), a, k)
  end.
(** The loop collects whether an area was found, the indices to delete and the last
    index to cut. *)
Fixpoint munmap_areas (pt : T) (start_vpn end_vpn : Z) (l : list MapArea) (idx : nat) (k : kmem)
    : outcome (bool * list nat * option nat * list MapArea * kmem) :=
  match l with
  | [] => Ret (false, [], None, [], k)
  | a :: r =>
      '(o, a', k1) ← munmap_area pt start_vpn end_vpn a k;
      '(found, del, cut, r', k2) ← munmap_areas pt start_vpn end_vpn r (S idx) k1;
      Ret (match o with
           | None => (found, del, cut, a' :: r', k2)
           | Some (del_a, cut_a) =>
               (true, if (del_a : bool) then idx :: del else del,
                match cut with Some i => Some i | None => if (cut_a : bool) then Some idx else None end, a' :: r', k2)
           end)
  end.
Definition remove_area (idx : nat) '((l, k) : list MapArea * kmem) : outcome (list MapArea * kmem) :=
  a ← unwrap (l !! idx); k' ← drop_area a k; Ret (delete idx l, k').
Definition insert_area (l : list MapArea) (idx : nat) (a : MapArea) : outcome (list MapArea) :=
  rust_assert (bool_decide (idx <= length l)%nat) ;; Ret (take idx l ++ a :: drop idx l).
Definition munmap (ms : MemorySet) (k : kmem) (start len : Z) : outcome (Result unit Z * MemorySet * kmem) :=
  if negb (addr_aligned start) then Ret (Err EINVAL, ms, k)
  else
    let start_vpn := addr_floor start in
    let end_vpn := addr_ceil (start ⊕ len) in
    let pt := page_table ms in
    '(found, del, cut, l1, k1) ← munmap_areas pt start_vpn end_vpn (areas ms) 0 k;
    '(l2, k2) ← for_each (reverse del) remove_area (l1, k1);
    '(l3, k3) ← match cut with
                | None => Ret (l2, k2)
                | Some idx =>
                    a ← unwrap (l2 !! idx);
                    '(r, a', k3) ← into_three cfg k2 a start_vpn end_vpn;
                    match r with
                    | Err _ => Panic
                    | Ok (second, third) =>
                        '(_, second', k4) ← unmap cfg second pt k3;
                        l3 ← insert_area (<[idx := a']> l2) (idx + 1) third;
                        k5 ← drop_area second' k4;
                        Ret (l3, k5)
                    end
                end;
    Ret (if (found : bool) then Ok tt else Err EINVAL, MkMS pt l3, k3).

(** Where a mapping goes: the start of a new area ([inl]), or the end of an area that was
    extended ([inr]). The result of [munmap] is not looked at. *)
Definition mmap_place (ms : MemorySet) (k : kmem) (start len prot flags : Z) : outcome ((Z + Z) * MemorySet * kmem) :=
  idx ← last_mmap_area_idx ms;
  if MapFlags.contains flags MapFlags.MAP_FIXED then
    '(_, ms1, k1) ← munmap ms k start len; Ret (inl start, ms1, k1)
  else match idx with
       | Some i =>
           a ← unwrap (areas ms !! i);
           let end_va := addr_from_pn (area_end a) in
           if MapFlags.contains flags (Z.lor MapFlags.MAP_PRIVATE MapFlags.MAP_ANONYMOUS) && (prot =? map_perm a) && anonymous a then
             '(r, a', k') ← expand_to cfg a k (end_va ⊕ len);
             match r with Ok _ => Ret (inr end_va, MkMS (page_table ms) (<[i := a']> (areas ms)), k') | Err _ => Panic end
           else Ret (inl end_va, ms, k)
       | None => Ret (inl MMAP_BASE, ms, k)
       end.
(** [get_ref fd] is the entry of the current task's descriptor table: whether it is
    readable, and its file. *)
Definition mmap_file (get_ref : Z -> Result (bool * F) Z) (flags fd offset : Z) : outcome (Result (option F) Z) :=
  if MapFlags.contains flags MapFlags.MAP_ANONYMOUS then Ret (Ok None)
  else match get_ref fd with
       | Ok (readable, f) =>
           if negb readable then Ret (Err EACCES)
           else f' ← mf_lseek_set (mf_deep_clone f) (wrap_signed 64 offset); Ret (Ok (Some f'))
       | Err errno => Ret (Err errno)
       end.
(** [skip_while(start >= MMAP_END).find(start >= start_va)], or the end. *)
Definition mmap_index (l : list MapArea) (start_vpn : Z) : nat :=
  let skip := default (length l) (position (fun a => negb (addr_floor MMAP_END <=? area_start a)) l) in
  match position (fun a => start_vpn <=? area_start a) (drop skip l) with
  | Some j => (skip + j)%nat
  | None => length l
  end.
Definition mmap (get_ref : Z -> Result (bool * F) Z) (ms : MemorySet) (k : kmem) (start len prot flags fd offset : Z)
    : outcome (Z * MemorySet * kmem) :=
  if negb (Z.land start 0xfff =? 0) then Ret (EINVAL, ms, k)
  else
    let len := if len =? 0 then PAGE_SIZE else len in
    '(where_, ms1, k1) ← mmap_place ms k start len prot flags;
    match where_ with
    | inr end_va => Ret (wrap_signed 64 end_va, ms1, k1)
    | inl start_va =>
        new_area ← area_new start_va (start_va ⊕ len) Framed prot (None : option F);
        file ← mmap_file get_ref flags fd offset;
        match file with
        | Err errno => Ret (errno, ms1, k1)
        | Ok mf =>
            start_vpn ← pn_from_addr start_va;
            l ← insert_area (areas ms1) (mmap_index (areas ms1) start_vpn)
                  (MkArea (inner new_area) (map_type new_area) (map_perm new_area) mf);
            Ret (wrap_signed 64 start_va, MkMS (page_table ms1) l, k1)
        end
    end.

Definition sbrk (get_ref : Z -> Result (bool * F) Z) (ms : MemorySet) (k : kmem) (heap_pt heap_bottom increment : Z)
    : outcome (Z * MemorySet * kmem) :=
  let old_pt := heap_pt in
  let new_pt := old_pt ⊕ as_unsigned 64 increment in
  if 0 <? increment then
    if heap_bottom ⊕ USER_HEAP_SIZE <? new_pt then Ret (old_pt, ms, k)
    else
      '(_, ms', k') ← mmap get_ref ms k old_pt increment
        (Z.lor (Z.lor MapPermission.R MapPermission.W) MapPermission.U)
        (Z.lor (Z.lor MapFlags.MAP_ANONYMOUS MapFlags.MAP_FIXED) MapFlags.MAP_PRIVATE) usize_max 0;
      Ret (new_pt, ms', k')
  else if increment <? 0 then
    if new_pt <=? heap_bottom then Ret (old_pt, ms, k)
    else
      '(r, ms', k') ← munmap ms k old_pt (as_unsigned 64 increment);
      match r with Ok _ => Ret (new_pt, ms', k') | Err _ => Panic end
  else Ret (new_pt, ms, k).

(** The area whose permissions change, after the cuts, and its index. *)
Definition mprotect_cut (ms : MemorySet) (k : kmem) (idx : nat) (start_vpn end_vpn : Z) : outcome (list MapArea * nat * kmem) :=
  a ← unwrap (areas ms !! idx);
  if (start_vpn =? area_start a) && (end_vpn =? area_end a) then Ret (areas ms, idx, k)
  else if start_vpn =? area_start a then
    '(r, a') ← into_two a end_vpn;
    match r with
    | Err _ => Panic
    | Ok second => l ← insert_area (<[idx := a']> (areas ms)) (idx + 1) second; Ret (l, idx, k)
    end
  else if end_vpn =? area_end a then
    '(r, a') ← into_two a start_vpn;
    match r with
    | Err _ => Panic
    | Ok second => l ← insert_area (<[idx := a']> (areas ms)) (idx + 1) second; Ret (l, (idx + 1)%nat, k)
    end
  else
    '(r, a', k') ← into_three cfg k a start_vpn end_vpn;
    match r with
    | Err _ => Panic
    | Ok (second, third) =>
        l ← insert_area (<[idx := a']> (areas ms)) (idx + 1) second;
        l' ← insert_area l (idx + 2) third;
        Ret (l', (idx + 1)%nat, k')
    end.
Definition mprotect (ms : MemorySet) (k : kmem) (addr len prot : Z) : outcome (Result unit Z * MemorySet * kmem) :=
  if negb (addr_aligned addr) then Ret (Err EINVAL, ms, k)
  else
    prot ← unwrap (prot_from_bits prot);
    let start_vpn := addr_floor addr in
    let end_vpn := addr_ceil (addr ⊕ len) in
    match position (fun a => (area_start a <=? start_vpn) && (start_vpn <? area_end a)) (areas ms) with
    | None => Ret (Err EINVAL, ms, k)
    | Some idx =>
        a ← unwrap (areas ms !! idx);
        if area_end a <? end_vpn then Ret (Err ENOMEM, ms, k)
        else
          '(l, i, k1) ← mprotect_cut ms k idx start_vpn end_vpn;
          area ← unwrap (l !! i);
          let k2 := foldl (fun k vpn => snd (kflags (page_table ms) k vpn (MapPermission.difference prot MapPermission.W)))
                      k1 (vpns (vpn_range (inner area))) in
          Ret (Ok tt, MkMS (page_table ms) (<[i := MkArea (inner area) (map_type area) prot (map_file area)]> l), k2)
    end.
End MemorySet.
