(* ===== verification/AddressSpace.v ===== *)
(** * AddressSpace: what memory sets guarantee

    The invariant that ties the areas of a process, its page table and the trackers of
    all processes together, and its preservation by the operations of [MemorySet]. Its
    heart is copy-on-write: a page is mapped writable only where its frame is held once.
    The theorems are proved for any page table and page stores that keep the promises of
    [PageTableOk] and [PageStoreOk]; page faults are followed where no file is behind the
    page ([anon_at]). *)
From S2P Require Import Prelude AllocSpec Address FrameAlloc Bytes PageTable PageStore Trackers MapArea Pid MemorySet.
Import StackFrameAllocator.

(** ** Lists of frames *)

(** All trackers of a list of areas. *)
Definition slots {F} (l : list (@MapArea F)) : list Frame := mjoin ((fun a => frames (inner a)) <$> l).

#[global] Instance mjoin_perm {A} : Proper ((≡ₚ) ==> (≡ₚ)) (mjoin (M := list) (A := A)).
Proof. intros l1 l2 E. induction E; cbn; [done|by f_equiv|by rewrite !app_assoc, (Permutation_app_comm y x)|by etrans]. Qed.
#[global] Instance slots_perm {F} : Proper ((≡ₚ) ==> (≡ₚ)) (@slots F).
Proof. intros l1 l2 E. unfold slots. by rewrite E. Qed.
Lemma slots_cons {F} (a : @MapArea F) l : slots (a :: l) = frames (inner a) ++ slots l.
Proof. done. Qed.
Lemma slots_app {F} (l1 l2 : list (@MapArea F)) : slots (l1 ++ l2) = slots l1 ++ slots l2.
Proof. unfold slots. by rewrite fmap_app, join_app. Qed.
Lemma slots_snoc {F} (l : list (@MapArea F)) a : slots (l ++ [a]) = slots l ++ frames (inner a).
Proof. rewrite slots_app, slots_cons. cbn. by rewrite app_nil_r. Qed.

Lemma delete_insert_same {A} (l : list A) n y : delete n (<[n := y]> l) = delete n l.
Proof. revert n. induction l as [|x l IH]; intros [|n]; cbn; [done..|]. by rewrite IH. Qed.
Lemma insert_Permutation {A} (l : list A) n x y : l !! n = Some x -> <[n := y]> l ≡ₚ y :: delete n l.
Proof.
  intros Hx. assert (n < length l)%nat by (by eapply lookup_lt_Some).
  rewrite (delete_Permutation (<[n := y]> l) n y); [|by apply list_lookup_insert_eq]. by rewrite delete_insert_same.
Qed.

(** Page [n] of area [i], and everything else. *)
Definition others {F} (l : list (@MapArea F)) (i n : nat) (a : @MapArea F) : list Frame :=
  delete n (frames (inner a)) ++ slots (delete i l).
Lemma slots_split {F} (l : list (@MapArea F)) i n a f : l !! i = Some a -> frames (inner a) !! n = Some f ->
  slots l ≡ₚ f :: others l i n a.
Proof.
  intros Hi Hn. etrans; [apply slots_perm, (delete_Permutation l i a Hi)|]. rewrite slots_cons.
  unfold others. rewrite (delete_Permutation _ n f Hn) at 1. done.
Qed.
Lemma slots_update {F} (l : list (@MapArea F)) i n a a' f f' : l !! i = Some a -> frames (inner a) !! n = Some f ->
  frames (inner a') = <[n := f']> (frames (inner a)) -> slots (<[i := a']> l) ≡ₚ f' :: others l i n a.
Proof.
  intros Hi Hn E. etrans; [apply slots_perm, (insert_Permutation l i a a' Hi)|]. rewrite slots_cons, E.
  unfold others. by rewrite (insert_Permutation _ n f f' Hn).
Qed.

(** The page of a virtual page number. *)
Definition in_area {F} (a : @MapArea F) (v : Z) : Prop := area_start a <= v < area_end a.
#[global] Instance in_area_dec {F} (a : @MapArea F) v : Decision (in_area a v).
Proof. unfold in_area. apply _. Defined.
Definition slot {F} (a : @MapArea F) (v : Z) : option Frame :=
  if decide (in_area a v) then frames (inner a) !! Z.to_nat (v - area_start a) else None.
Fixpoint slot_of {F} (l : list (@MapArea F)) (v : Z) : option Frame :=
  match l with [] => None | a :: r => match slot a v with Some f => Some f | None => slot_of r v end end.

(** Areas do not overlap. *)
Definition disjoint_areas {F} (l : list (@MapArea F)) : Prop :=
  forall i j a b v, l !! i = Some a -> l !! j = Some b -> in_area a v -> in_area b v -> i = j.

Lemma slot_of_lookup {F} (l : list (@MapArea F)) i a v : disjoint_areas l -> l !! i = Some a -> in_area a v -> slot_of l v = slot a v.
Proof.
  revert i. induction l as [|b l IH]; intros i Hd Hi Hv; [done|]. cbn. destruct i as [|i].
  - injection Hi as <-. destruct (slot b v) eqn:E; [done|].
    assert (forall j c, l !! j = Some c -> slot c v = None) as Hn.
    { intros j c Hj. unfold slot. rewrite decide_False; [done|]. intros Hc. discriminate (Hd O (S j) b c v eq_refl Hj Hv Hc). }
    clear -Hn. induction l as [|c l IH]; [done|]. cbn. rewrite (Hn O c eq_refl). apply IH. intros j d. apply (Hn (S j) d).
  - assert (slot b v = None) as ->.
    { unfold slot. rewrite decide_False; [done|]. intros Hb. discriminate (Hd O (S i) b a v eq_refl Hi Hb Hv). }
    apply (IH i); [|done|done]. intros j1 j2 c d w H1 H2 Hc Hd'. assert (S j1 = S j2) by by apply (Hd (S j1) (S j2) c d w). congruence.
Qed.
Lemma slot_of_elem {F} (l : list (@MapArea F)) v f : slot_of l v = Some f -> exists i a, l !! i = Some a /\ slot a v = Some f.
Proof.
  induction l as [|b l IH]; [done|]. cbn. destruct (slot b v) eqn:E.
  - intros [= <-]. by exists O, b.
  - intros (i & a & Hi & Ha)%IH. by exists (S i), a.
Qed.
Lemma slot_of_app {F} (l1 l2 : list (@MapArea F)) v : slot_of (l1 ++ l2) v = match slot_of l1 v with Some f => Some f | None => slot_of l2 v end.
Proof. induction l1 as [|a l1 IH]; cbn; [done|]. by destruct (slot a v). Qed.
Lemma slot_in {F} (a : @MapArea F) v f : slot a v = Some f -> in_area a v.
Proof. unfold slot. case_decide; done. Qed.
Lemma slot_elem {F} (l : list (@MapArea F)) i a v f : l !! i = Some a -> slot a v = Some f -> f ∈ slots l.
Proof.
  intros Hi Hs. unfold slot in Hs. case_decide; [|done]. rewrite (slots_split l i _ a f Hi Hs). left.
Qed.

(** ** The invariant of a process *)
Section Space.
Context {cfg : config} {base limit : Z} {ZS SS T F : Type} `{!PageStore ZS} `{!PageStore SS} `{!PageTable T} `{!MapFile F}.
Context {zrep : ZS -> gmap Z (list Z) -> Prop} {zroom : gmap Z (list Z) -> Prop} `{!PageStoreOk ZS zrep zroom}.
Context {srep : SS -> gmap Z (list Z) -> Prop} {sroom : gmap Z (list Z) -> Prop} `{!PageStoreOk SS srep sroom}.
Context {vpn_ok ppn_ok : Z -> Prop} {rep : T -> pmem -> gmap Z (Z * Z) -> Prop} `{!PageTableOk T base limit vpn_ok ppn_ok rep}.
#[local] Notation kmem := (@kmem ZS SS).
#[local] Notation MapArea := (@MapArea F).
#[local] Notation MemorySet := (@MemorySet T F).
#[local] Notation kok := (kok base limit zrep srep).
Implicit Types (k : kmem) (g : ghost) (H R rest : list Frame) (M : gmap Z (Z * Z)) (l : list MapArea) (a : MapArea) (ms : MemorySet).

Record area_wf a : Prop := {
  aw_range : 0 <= area_start a <= area_end a;
  aw_top : area_end a <= 2 ^ 52 - 2; (* below the trampolines *)
  aw_len : Z.of_nat (length (frames (inner a))) = area_end a - area_start a;
  aw_vpn : forall v, in_area a v -> vpn_ok v;
  aw_perm : MapPermission.ok (map_perm a);
  aw_type : map_type a = Framed;
}.

(** A page in memory is mapped with the permissions of its area, or with those but for
    writing, and writable only when its frame is held once. Other pages are not mapped. *)
Definition page_at (perm : Z) H M (v : Z) (f : Frame) : Prop :=
  match f with
  | InMemory p => exists fl, M !! v = Some (p, fl) /\ (fl = perm \/ fl = MapPermission.difference perm MapPermission.W) /\
      (MapPermission.contains fl MapPermission.W = true -> occ (InMemory p) H = 1)
  | _ => M !! v = None
  end.

Record ms_ok l M H : Prop := {
  m_wf : forall a, a ∈ l -> area_wf a;
  m_disj : disjoint_areas l;
  m_pages : forall i a v f, l !! i = Some a -> slot a v = Some f -> page_at (map_perm a) H M v f;
  m_user : forall v p fl, vpn_ok v -> M !! v = Some (p, fl) -> MapPermission.contains fl MapPermission.W = true ->
    exists i a, l !! i = Some a /\ in_area a v;
}.

(** [rest] are the trackers held elsewhere: by other processes, caches and the kernel. *)
Record proc_ok k g ms M rest : Prop := {
  q_k : kok k (slots (areas ms) ++ rest) g;
  q_pt : rep (page_table ms) (mem (wd k)) M;
  q_tables : forall x, x ∈ pt_tables (page_table ms) -> x ∈ gO g;
  q_ms : ms_ok (areas ms) M (slots (areas ms) ++ rest);
}.

(** What a step of one process may do to the others: nothing to their pages and tables. *)
Record proc_step k g ms rest k' g' ms' : Prop := {
  s_rest : same_contents k g k' g' rest;
  s_others : forall q j, q ∈ gO g -> q ∉ pt_tables (page_table ms) -> mem (wd k') q j = mem (wd k) q j;
  s_grow : gO g ⊆ gO g';
  s_tables : forall x, x ∈ pt_tables (page_table ms') -> x ∈ gO g -> x ∈ pt_tables (page_table ms);
  s_slots : forall p, InMemory p ∈ slots (areas ms') -> InMemory p ∈ rest -> InMemory p ∈ slots (areas ms);
}.

Lemma proc_step_refl k g ms rest : proc_step k g ms rest k g ms.
Proof. by constructor. Qed.
Lemma proc_step_trans k g ms rest k1 g1 ms1 k2 g2 ms2 :
  proc_step k g ms rest k1 g1 ms1 -> proc_step k1 g1 ms1 rest k2 g2 ms2 -> proc_step k g ms rest k2 g2 ms2.
Proof.
  intros [A1 A2 A3 A4 A5] [B1 B2 B3 B4 B5]. constructor; [by eapply same_contents_trans| | | |]; [|set_solver|auto..].
  intros q j Hq Ht. rewrite B2; auto.
Qed.

(** The memory a process sees. *)
Definition view ms k g (v : Z) : option (list Z) := content k g <$> slot_of (areas ms) v.

Lemma ms_ok_perm l M H H' : H ≡ₚ H' -> ms_ok l M H -> ms_ok l M H'.
Proof.
  intros E [H1 H2 H3 H4]. constructor; try done. intros i a v f Hi Hs. specialize (H3 i a v f Hi Hs).
  destruct f; try done. destruct H3 as (fl & ? & ? & Hw). exists fl. split_and!; try done. by rewrite <- E.
Qed.

(** *** Pages of an area *)

Lemma slot_some a v : area_wf a -> in_area a v -> exists f, slot a v = Some f.
Proof.
  intros W Hv. unfold slot. rewrite decide_True by done. pose proof (aw_len _ W). pose proof (aw_range _ W). unfold in_area in Hv.
  apply lookup_lt_is_Some_2. lia.
Qed.

Lemma page_index a v : area_wf a -> in_area a v -> v ⊖ lm_start (inner a) = v - area_start a.
Proof. intros W Hv. pose proof (aw_range _ W). pose proof (aw_top _ W). unfold in_area in Hv. apply sub64_small; unfold area_start in *; lia. Qed.

Lemma lm_get_ok a v f : area_wf a -> slot a v = Some f -> lm_get (inner a) v = Ret f.
Proof.
  intros W Hs. pose proof (slot_in _ _ _ Hs) as Hv. unfold lm_get. rewrite (page_index a v W Hv).
  unfold slot in Hs. rewrite decide_True in Hs by done. by apply index_ret.
Qed.

(** An area with another frame at page [v]; the bookkeeping lists do not matter. *)
Definition replaced a v (f : Frame) a' : Prop :=
  vpn_range (inner a') = vpn_range (inner a) /\ frames (inner a') = <[Z.to_nat (v - area_start a) := f]> (frames (inner a)) /\
  map_perm a' = map_perm a /\ map_type a' = map_type a /\ map_file a' = map_file a.

Lemma lm_set_ok a v f f' : area_wf a -> slot a v = Some f ->
  lm_set (inner a) v f' = Ret (with_frames (inner a) (<[Z.to_nat (v - area_start a) := f']> (frames (inner a)))).
Proof.
  intros W Hs. pose proof (slot_in _ _ _ Hs) as Hv. unfold lm_set. rewrite (page_index a v W Hv), store_lt; [done|].
  unfold slot in Hs. rewrite decide_True in Hs by done. by apply lookup_lt_Some in Hs.
Qed.

Lemma alloc_in_memory_ok a v p : area_wf a -> slot a v = Some Unallocated ->
  exists lm, alloc_in_memory (inner a) v p = Ret lm /\ replaced a v (InMemory p) (with_inner a lm).
Proof.
  intros W Hs. unfold alloc_in_memory.
  set (b := with_inner a (with_active (inner a) (active (inner a) ++ [wrap 16 (v ⊖ lm_start (inner a))]))).
  assert (area_wf b) as Wb by (destruct W; by constructor). assert (slot b v = Some Unallocated) as Hb by exact Hs.
  change (with_active (inner a) _) with (inner b). rewrite (lm_get_ok b v _ Wb Hb). cbn [mbind outcome_bind insert_in_memory].
  rewrite (lm_set_ok b v _ _ Wb Hb). eexists. split; [done|]. done.
Qed.

Lemma remove_in_memory_ok a v p : area_wf a -> slot a v = Some (InMemory p) ->
  exists lm, remove_in_memory (inner a) v = Ret (Some p, lm) /\ replaced a v Unallocated (with_inner a lm).
Proof.
  intros W Hs. unfold remove_in_memory.
  set (b := with_inner a (with_active (inner a) (filter (fun elem => elem <> v ⊖ lm_start (inner a)) (active (inner a))))).
  assert (area_wf b) as Wb by (destruct W; by constructor). assert (slot b v = Some (InMemory p)) as Hb by exact Hs.
  change (with_active (inner a) _) with (inner b). rewrite (lm_get_ok b v _ Wb Hb). cbn [mbind outcome_bind take_in_memory].
  rewrite (lm_set_ok b v _ _ Wb Hb). eexists. split; [done|]. done.
Qed.

Lemma replaced_start a v f a' : replaced a v f a' -> area_start a' = area_start a /\ area_end a' = area_end a.
Proof. intros (E & _). unfold area_start, area_end, lm_start, lm_end. by rewrite E. Qed.

Lemma replaced_wf a v f a' : area_wf a -> replaced a v f a' -> area_wf a'.
Proof.
  intros W Hr. destruct (replaced_start _ _ _ _ Hr) as [E1 E2]. destruct Hr as (E & Ef & Ep & Et & _), W.
  constructor; rewrite ?E1, ?E2, ?Ep, ?Et, ?Ef, ?length_insert; try done.
  intros u Hu. apply aw_vpn0. unfold in_area in *. by rewrite E1, E2 in Hu.
Qed.

Lemma replaced_slot a v f f' a' u : area_wf a -> slot a v = Some f -> replaced a v f' a' ->
  slot a' u = if decide (u = v) then Some f' else slot a u.
Proof.
  intros W Hs Hr. destruct (replaced_start _ _ _ _ Hr) as [E1 E2]. destruct Hr as (E & Ef & _). pose proof (slot_in _ _ _ Hs) as Hv.
  pose proof (aw_range _ W). assert (in_area a' u <-> in_area a u) as Ein by (unfold in_area; by rewrite E1, E2).
  unfold slot in *. rewrite (decide_True _ _ Hv) in Hs. rewrite E1, Ef.
  destruct (decide (u = v)) as [->|Hne].
  - rewrite decide_True by tauto. apply list_lookup_insert_eq. by eapply lookup_lt_Some.
  - destruct (decide (in_area a u)) as [Hu|Hu]; [rewrite decide_True by tauto|by rewrite decide_False by tauto].
    rewrite list_lookup_insert_ne; [done|]. unfold in_area in *. lia.
Qed.

Lemma replaced_twice a v f1 a1 f2 a2 : replaced a v f1 a1 -> replaced a1 v f2 a2 -> replaced a v f2 a2.
Proof.
  intros Hr1 Hr2. destruct (replaced_start _ _ _ _ Hr1) as [E1 _]. destruct Hr1 as (H1 & H2 & H3 & H4 & H4'), Hr2 as (H5 & H6 & H7 & H8 & H8').
  rewrite E1, H2, list_insert_insert_eq in H6. split_and!; congruence.
Qed.

(** *** Page tables *)

Lemma kok_wd k H g w' : kok k H g -> fa w' = fa (wd k) -> kok (with_wd k w') H g.
Proof. intros [K1 K2 K3 K4 K5 K6 K7 K8 K9 K10] E. constructor; try done. cbn. destruct K1. constructor; rewrite ?E; done. Qed.

(** Memory outside the page tables is what the processes see. *)
Lemma contents_tables k H g k' g' : kok k H g -> gZ g' = gZ g -> gS g' = gS g ->
  (forall q j, q ∈ gL g -> q ∉ gO g -> mem (wd k') q j = mem (wd k) q j) -> same_contents k g k' g' H.
Proof.
  intros K Hz Hs Hm [q|i|i|] Hf; cbn; rewrite ?Hz, ?Hs; try done. apply page_bytes_ext. intros j.
  apply Hm; [by eapply frame_live|by eapply k_own].
Qed.

(** A change in place of a page table. *)
Definition table_step k H g (pt : T) M' k' : Prop :=
  kok k' H g /\ rep pt (mem (wd k')) M' /\ same_contents k g k' g H /\
  (forall q j, q ∉ pt_tables pt -> mem (wd k') q j = mem (wd k) q j).

Lemma table_changed k H g pt M' w' : kok k H g -> (forall x, x ∈ pt_tables pt -> x ∈ gO g) ->
  pt_changed rep pt (wd k) w' M' -> table_step k H g pt M' (with_wd k w').
Proof.
  intros K Ht (Hf & Hr & Hm). split_and!; try done; [by apply kok_wd|]. apply (contents_tables k H g); try done.
  intros q j _ Hq. apply Hm. intros Hin. by apply Hq, Ht.
Qed.

Lemma pt_at_intro k H g pt M : kok k H g -> rep pt (mem (wd k)) M -> (forall x, x ∈ pt_tables pt -> x ∈ gO g) ->
  pt_at rep base limit pt (wd k) (gL g) M.
Proof. intros K Hr Ht. split_and!; [done|apply K|]. intros x Hx. apply (k_live _ _ _ _ _ _ _ K). left. by apply Ht. Qed.

Lemma kunmap_ok k H g pt M v e : kok k H g -> rep pt (mem (wd k)) M -> (forall x, x ∈ pt_tables pt -> x ∈ gO g) ->
  vpn_ok v -> M !! v = Some e -> exists k', kunmap pt k v = Ret k' /\ table_step k H g pt (delete v M) k'.
Proof.
  intros K Hr Ht Hv He. destruct (pt_unmap_ok pt (wd k) (gL g) M v e (pt_at_intro _ _ _ _ _ K Hr Ht) Hv He) as (w' & Hu & Hc).
  unfold kunmap. rewrite Hu. eexists. split; [done|]. by apply table_changed.
Qed.

Lemma kflags_ok k H g pt M v perm : kok k H g -> rep pt (mem (wd k)) M -> (forall x, x ∈ pt_tables pt -> x ∈ gO g) ->
  vpn_ok v -> MapPermission.ok perm -> exists k', kflags pt k v perm = (bool_decide (is_Some (M !! v)), k') /\
    table_step k H g pt (alter (fun e => (e.1, perm)) v M) k'.
Proof.
  intros K Hr Ht Hv Hp. destruct (pt_flags_ok pt (wd k) (gL g) M v perm (pt_at_intro _ _ _ _ _ K Hr Ht) Hv Hp) as (w' & Hu & Hc).
  unfold kflags. rewrite Hu. eexists. split; [done|]. by apply table_changed.
Qed.

(** Mapping a page may take two frames for tables. *)
Definition map_post k H g (pt : T) M v p perm pt' k' g' : Prop :=
  kok k' H g' /\ rep pt' (mem (wd k')) (<[v := (p, perm)]> M) /\ same_contents k g k' g' H /\
  (forall x, x ∈ pt_tables pt' -> x ∈ gO g' /\ (x ∈ pt_tables pt \/ x ∉ gL g)) /\ gO g ⊆ gO g' /\ gL g ⊆ gL g' /\
  (forall q j, q ∈ gL g -> q ∉ pt_tables pt -> mem (wd k') q j = mem (wd k) q j) /\
  Z.of_nat (size (gL g')) <= Z.of_nat (size (gL g)) + 2 /\ gS g' = gS g /\ gZ g' = gZ g.

Lemma kok_tables k H g w' L' : kok k H g -> fa_rep base limit w' L' -> gL g ⊆ L' ->
  kok (with_wd k w') H (Ghost L' (gO g ∪ (L' ∖ gL g)) (gZ g) (gS g)).
Proof.
  intros K Hr Hsub. pose proof (fun p => frame_live _ _ _ _ _ _ _ p K) as Hlive. destruct K as [K1 K2 K3 K4 K5 K6 K7 K8 K9 K10]. constructor; cbn; try done.
  - intros p. rewrite elem_of_union, elem_of_difference. split.
    + intros Hp. destruct (decide (p ∈ gL g)) as [Hin|]; [|by left; right]. apply K2 in Hin. tauto.
    + intros [[Ho|[? _]]|Hin]; [apply Hsub, K2; by left|done|by apply Hsub, Hlive].
  - intros p Hp. rewrite elem_of_union, elem_of_difference. intros [Ho|[_ Hn]]; [by apply (K3 p)|by apply Hn, Hlive].
Qed.

Lemma kmap_ok k H g pt M v p perm : kok k H g -> rep pt (mem (wd k)) M -> (forall x, x ∈ pt_tables pt -> x ∈ gO g) ->
  Z.of_nat (size (gL g)) + 1 < limit - base -> vpn_ok v -> ppn_ok p -> MapPermission.ok perm -> M !! v = None ->
  exists pt' k' g', kmap pt k v p perm = Ret (pt', k') /\ map_post k H g pt M v p perm pt' k' g'.
Proof.
  intros K Hr Ht Hs Hv Hp Hperm Hn. pose proof (pt_at_intro _ _ _ _ _ K Hr Ht) as Hat.
  destruct (pt_map_ok pt (wd k) (gL g) M v p perm Hat Hs Hv Hp Hperm Hn) as (pt' & w' & Hm & L' & Hfa & Hsub & HL & Hsz & Htab & Hnew & Hrep & Hmem).
  unfold kmap. rewrite Hm. eexists pt', _, _. split; [done|]. split; [by apply (kok_tables k H g w' L')|]. split; [done|].
  split; [|split; [|split; [cbn; set_solver|by split_and!]]].
  - apply (contents_tables k H g); try done. intros q j Hq Ho. apply Hmem; [done|]. intros Hin. by apply Ho, Ht.
  - intros x Hx. destruct (Hnew x Hx) as [HxL Hx']. split; [|done]. cbn. rewrite elem_of_union, elem_of_difference.
    destruct Hx' as [Hx'|Hx']; [left; by apply Ht|by right].
Qed.

(** *** Replacing one page *)

(** Another page is among the other trackers. *)
Lemma slot_others l i a v j b u h : disjoint_areas l -> l !! i = Some a -> in_area a v -> area_wf a ->
  l !! j = Some b -> slot b u = Some h -> u <> v -> h ∈ others l i (Z.to_nat (v - area_start a)) a.
Proof.
  intros Hd Hi Hv W Hj Hs Huv. unfold others. rewrite elem_of_app. destruct (decide (j = i)) as [->|Hne].
  - left. assert (b = a) as -> by congruence. pose proof (slot_in _ _ _ Hs) as Hu. unfold slot in Hs. rewrite decide_True in Hs by done.
    pose proof (aw_range _ W). unfold in_area in Hu, Hv. apply list_elem_of_lookup.
    destruct (decide (Z.to_nat (u - area_start a) < Z.to_nat (v - area_start a))%nat).
    + exists (Z.to_nat (u - area_start a)). by rewrite list_lookup_delete_lt.
    + exists (Z.to_nat (u - area_start a) - 1)%nat. rewrite list_lookup_delete_ge by lia. rewrite <- Hs. f_equal. lia.
  - right. apply (slot_elem (delete i l) (if decide (j < i)%nat then j else (j - 1)%nat) b u h); [|done].
    case_decide; [by rewrite list_lookup_delete_lt|]. rewrite list_lookup_delete_ge by lia. rewrite <- Hj. f_equal. lia.
Qed.

(** The pages of the list with one page replaced. *)
Lemma replaced_pages l i a a' v f f' j b u h : disjoint_areas l -> l !! i = Some a -> area_wf a -> slot a v = Some f ->
  replaced a v f' a' -> <[i := a']> l !! j = Some b -> slot b u = Some h ->
  (u = v /\ j = i /\ b = a' /\ h = f') \/
  (u <> v /\ exists b', l !! j = Some b' /\ slot b' u = Some h /\ map_perm b = map_perm b').
Proof.
  intros Hd Hi W Hs Hr Hj Hsl. apply list_lookup_insert_Some in Hj as [(-> & <- & _)|[Hne Hj]].
  - rewrite (replaced_slot a v f f' a' u W Hs Hr) in Hsl. case_decide as D; [left; naive_solver|]. right. split; [done|].
    exists a. by destruct Hr as (_ & _ & -> & _).
  - right. split; [|by exists b]. intros ->. apply Hne. apply (Hd i j a b v); try done; by eapply slot_in.
Qed.

Lemma ms_ok_replace l M M' i a a' v f f' rest : ms_ok l M (slots l ++ rest) -> l !! i = Some a -> slot a v = Some f ->
  replaced a v f' a' -> (forall u, u <> v -> M' !! u = M !! u) ->
  (forall p, f' = InMemory p -> InMemory p ∉ others l i (Z.to_nat (v - area_start a)) a ++ rest) ->
  page_at (map_perm a) (slots (<[i := a']> l) ++ rest) M' v f' -> ms_ok (<[i := a']> l) M' (slots (<[i := a']> l) ++ rest).
Proof.
  intros [M1 M2 M3 M4] Hi Hs Hr HM Hfresh Hnew. pose proof (M1 a (list_elem_of_lookup_2 _ _ _ Hi)) as W.
  pose proof (replaced_wf _ _ _ _ W Hr) as W'. pose proof (slot_in _ _ _ Hs) as Hv.
  destruct (replaced_start _ _ _ _ Hr) as [E1 E2]. assert (i < length l)%nat as Hil by (by eapply lookup_lt_Some).
  assert (forall u, in_area a' u <-> in_area a u) as Ein by (intros u; unfold in_area; by rewrite E1, E2).
  constructor.
  - intros b (j & Hj)%list_elem_of_lookup. apply list_lookup_insert_Some in Hj as [(-> & <- & _)|[_ Hj]]; [done|].
    by apply M1, (list_elem_of_lookup_2 _ j).
  - intros j1 j2 b c u H1 H2 Hb Hc.
    assert (forall j d, <[i := a']> l !! j = Some d -> in_area d u -> exists d', l !! j = Some d' /\ in_area d' u) as Hold.
    { intros j d [(-> & <- & _)|[_ Hj]]%list_lookup_insert_Some Hd; [exists a; by rewrite <- Ein|by exists d]. }
    destruct (Hold _ _ H1 Hb) as (b' & ? & ?), (Hold _ _ H2 Hc) as (c' & ? & ?). by eapply (M2 j1 j2 b' c' u).
  - intros j b u h Hj Hsl. destruct (replaced_pages l i a a' v f f' j b u h) as [(-> & -> & -> & ->)|(Hne & b' & Hj' & Hsl' & Ep)]; try done.
    + by destruct Hr as (_ & _ & -> & _).
    + rewrite Ep. pose proof (slot_others l i a v j b' u h M2 Hi Hv W Hj' Hsl' Hne) as HhR.
      specialize (M3 j b' u h Hj' Hsl'). unfold page_at in *. destruct h as [q| | |]; rewrite HM by done; try done.
      destruct M3 as (fl & H1 & H2 & H3). exists fl. split_and!; try done. intros Hw. specialize (H3 Hw).
      unfold slot in Hs. rewrite decide_True in Hs by done.
      rewrite occ_app, (slots_split l i _ a f Hi Hs), occ_cons in H3.
      rewrite occ_app, (slots_update l i _ a a' f f' Hi Hs) by apply Hr. rewrite occ_cons. apply occ_pos in HhR as Hpos.
      rewrite (decide_False (P := InMemory q = f')); [case_decide; pose proof (occ_nonneg (InMemory q) rest); lia|].
      intros <-. apply (Hfresh q eq_refl). apply elem_of_app. by left.
  - intros u p fl Hu Hm Hw. destruct (decide (u = v)) as [->|Hne].
    + exists i, a'. split; [by apply list_lookup_insert_eq|]. by apply Ein.
    + rewrite HM in Hm by done. destruct (M4 u p fl Hu Hm Hw) as (j & b & Hj & Hb). destruct (decide (j = i)) as [->|Hji].
      * exists i, a'. split; [by apply list_lookup_insert_eq|]. apply Ein. congruence.
      * exists j, b. split; [by rewrite list_lookup_insert_ne|done].
Qed.

Lemma slot_of_replace l i a a' v f f' u : disjoint_areas l -> l !! i = Some a -> area_wf a -> slot a v = Some f -> replaced a v f' a' ->
  slot_of (<[i := a']> l) u = if decide (u = v) then Some f' else slot_of l u.
Proof.
  intros Hd Hi W Hs Hr. pose proof (slot_in _ _ _ Hs) as Hv.
  assert (forall j b, (j < i)%nat -> l !! j = Some b -> slot b v = None) as Hbefore.
  { intros j b Hlt Hj. unfold slot. rewrite decide_False; [done|]. intros Hb. assert (i = j) by by apply (Hd i j a b v). lia. }
  clear Hd. revert i Hi Hbefore. induction l as [|b l IH]; intros i Hi Hbefore; [done|]. destruct i as [|i].
  - cbn. injection Hi as ->. rewrite (replaced_slot a v f f' a' u W Hs Hr). by case_decide.
  - change (<[S i := a']> (b :: l)) with (b :: <[i := a']> l). cbn [slot_of].
    rewrite (IH i Hi) by (intros j c Hj; apply (Hbefore (S j)); lia). case_decide as D; [subst u|done].
    by rewrite (Hbefore O b ltac:(lia) eq_refl).
Qed.

(** One page of a process changes its place, not its contents. *)
Lemma proc_replace k g ms M rest k' g' pt' M' i a a' v f f' :
  let R := others (areas ms) i (Z.to_nat (v - area_start a)) a ++ rest in
  proc_ok k g ms M rest -> areas ms !! i = Some a -> slot a v = Some f -> replaced a v f' a' ->
  kok k' (f' :: R) g' -> rep pt' (mem (wd k')) M' -> (forall x, x ∈ pt_tables pt' -> x ∈ gO g') ->
  (forall u, u <> v -> M' !! u = M !! u) -> (forall p, f' = InMemory p -> InMemory p ∉ R) -> page_at (map_perm a) (f' :: R) M' v f' ->
  same_contents k g k' g' R -> content k' g' f' = content k g f ->
  proc_ok k' g' (set_area ms i a' pt') M' rest /\ (forall u, view (set_area ms i a' pt') k' g' u = view ms k g u).
Proof.
  intros R [Q1 Q2 Q3 Q4] Hi Hs Hr K' Hrep Ht HM Hfresh Hp Hc Hf.
  pose proof (m_wf _ _ _ Q4 a (list_elem_of_lookup_2 _ _ _ Hi)) as W.
  assert (frames (inner a) !! Z.to_nat (v - area_start a) = Some f) as Hn by (unfold slot in Hs; case_decide; done).
  pose proof (slots_update (areas ms) i _ a a' f f' Hi Hn (proj1 (proj2 Hr))) as Es.
  assert (slots (<[i := a']> (areas ms)) ++ rest ≡ₚ f' :: R) as EH by (rewrite Es; done). split.
  - constructor; cbn; try done; [by rewrite EH|]. apply (ms_ok_replace (areas ms) M M' i a a' v f f' rest Q4 Hi Hs Hr HM Hfresh).
    unfold page_at in *. destruct f' as [p| | |]; try done. destruct Hp as (fl & ? & ? & Hw). exists fl. split_and!; try done. by rewrite EH.
  - intros u. unfold view. cbn. rewrite (slot_of_replace (areas ms) i a a' v f f' u (m_disj _ _ _ Q4) Hi W Hs Hr).
    case_decide as D; [subst u|].
    + rewrite (slot_of_lookup _ i a v (m_disj _ _ _ Q4) Hi (slot_in _ _ _ Hs)), Hs. cbn. by rewrite Hf.
    + destruct (slot_of (areas ms) u) as [h|] eqn:E; [|done]. cbn. f_equal. apply Hc. apply elem_of_app. left.
      apply slot_of_elem in E as (j & b & Hj & Hb). apply (slot_others (areas ms) i a v j b u h); try done; [apply Q4|by eapply slot_in].
Qed.

Lemma proc_split k g ms M rest i a v f : proc_ok k g ms M rest -> areas ms !! i = Some a -> slot a v = Some f ->
  kok k (f :: others (areas ms) i (Z.to_nat (v - area_start a)) a ++ rest) g /\ area_wf a /\ vpn_ok v /\
  page_at (map_perm a) (f :: others (areas ms) i (Z.to_nat (v - area_start a)) a ++ rest) M v f.
Proof.
  intros [Q1 Q2 Q3 Q4] Hi Hs. pose proof (m_wf _ _ _ Q4 a (list_elem_of_lookup_2 _ _ _ Hi)) as W.
  assert (frames (inner a) !! Z.to_nat (v - area_start a) = Some f) as Hn by (unfold slot in Hs; case_decide; done).
  pose proof (slots_split (areas ms) i _ a f Hi Hn) as Es.
  assert (slots (areas ms) ++ rest ≡ₚ f :: others (areas ms) i (Z.to_nat (v - area_start a)) a ++ rest) as EH by (rewrite Es; done).
  split_and!; [by rewrite <- EH|done|by apply W, (slot_in _ _ f)|]. pose proof (m_pages _ _ _ Q4 i a v f Hi Hs) as Hp.
  unfold page_at in *. destruct f as [p| | |]; try done. destruct Hp as (fl & ? & ? & Hw). exists fl. split_and!; try done. by rewrite <- EH.
Qed.

(** Pages but [v] stay mapped as they were, few frames are taken, areas keep their range
    and permissions. *)
Definition same_shape (a b : MapArea) : Prop :=
  vpn_range (inner b) = vpn_range (inner a) /\ map_perm b = map_perm a /\ map_file b = map_file a.
Definition confined g ms M v g' ms' M' : Prop :=
  (forall u, u <> v -> M' !! u = M !! u) /\ Z.of_nat (size (gL g')) <= Z.of_nat (size (gL g)) + 3 /\
  Forall2 same_shape (areas ms) (areas ms').
Definition fault_post k g ms M rest v (a : MapArea) (p : Z) ms' k' : Prop :=
  exists g' M', proc_ok k' g' ms' M' rest /\ proc_step k g ms rest k' g' ms' /\
    (forall u, view ms' k' g' u = view ms k g u) /\ M' !! v = Some (p, map_perm a) /\ confined g ms M v g' ms' M'.

Lemma confined_replace k g ms M v g' pt' M' i a a' f : areas ms !! i = Some a -> replaced a v f a' -> (forall u, u <> v -> M' !! u = M !! u) ->
  Z.of_nat (size (gL g')) <= Z.of_nat (size (gL g)) + 3 -> confined g ms M v g' (set_area ms i a' pt') M'.
Proof.
  intros Hi (E1 & _ & E2 & _ & E3) HM Hs. split; [done|]. split; [done|]. cbn. apply Forall2_same_length_lookup_2; [by rewrite length_insert|].
  intros j x y Hx Hy. apply list_lookup_insert_Some in Hy as [(<- & <- & _)|[_ Hy]]; [|by simplify_eq].
  rewrite Hi in Hx. by injection Hx as <-.
Qed.

Lemma step_replace k g ms M rest k' g' pt' i a a' v f f' : proc_ok k g ms M rest -> areas ms !! i = Some a -> slot a v = Some f ->
  replaced a v f' a' -> same_contents k g k' g' (others (areas ms) i (Z.to_nat (v - area_start a)) a ++ rest) ->
  (forall q j, q ∈ gO g -> q ∉ pt_tables (page_table ms) -> mem (wd k') q j = mem (wd k) q j) -> gO g ⊆ gO g' ->
  (forall x, x ∈ pt_tables pt' -> x ∈ pt_tables (page_table ms) \/ x ∉ gL g) -> (forall p, f' = InMemory p -> f = InMemory p \/ p ∉ gL g) ->
  proc_step k g ms rest k' g' (set_area ms i a' pt').
Proof.
  intros Q Hi Hs Hr Hc Hm Ho Ht Hp. assert (frames (inner a) !! Z.to_nat (v - area_start a) = Some f) as Hn by (unfold slot in Hs; case_decide; done).
  pose proof (q_k _ _ _ _ _ Q) as K. constructor; cbn; try done; [intros h Hh; apply Hc; set_solver| |].
  - intros x [?|Hx]%Ht Hxo; [done|]. by destruct Hx; apply (k_live _ _ _ _ _ _ _ K); left.
  - intros q Hq Hrest. rewrite (slots_update (areas ms) i _ a a' f f' Hi Hn (proj1 (proj2 Hr))), elem_of_cons in Hq.
    rewrite (slots_split (areas ms) i _ a f Hi Hn), elem_of_cons. destruct Hq as [Hq|Hq]; [|by right].
    destruct (Hp q (eq_sym Hq)) as [->|Hql]; [by left|]. destruct Hql. apply (k_live _ _ _ _ _ _ _ K). right. apply elem_of_app. by right.
Qed.

(** Frames are handed out cleared, and fit the page table's format. *)
Hypothesis (Hzero : zero_init cfg = false) (Hppn : forall p, base <= p < limit -> ppn_ok p).

(** A page that was not in memory, brought into frame [p] and mapped. *)
Lemma install_ok k g ms M rest i a a' v f p k1 g1 : proc_ok k g ms M rest -> areas ms !! i = Some a -> slot a v = Some f ->
  (forall q, f <> InMemory q) -> Z.of_nat (size (gL g)) + 3 <= limit - base ->
  page_in_post base limit zrep srep k (others (areas ms) i (Z.to_nat (v - area_start a)) a ++ rest) g f p k1 g1 ->
  replaced a v (InMemory p) a' ->
  exists pt' k', kmap (page_table ms) k1 v p (map_perm a) = Ret (pt', k') /\ fault_post k g ms M rest v a p (set_area ms i a' pt') k'.
Proof.
  intros Q Hi Hs Hf Hsz (K1 & Hcp & Hc1 & Hf1 & Ho1 & Hp & Hb & HL1) Hr.
  destruct (proc_split k g ms M rest i a v f Q Hi Hs) as (K & W & Hv & Hpage). pose proof Q as [Q1 Q2 Q3 Q4].
  assert (M !! v = None) as Hn by (destruct f; [by destruct (Hf ppn)|done..]).
  assert (rep (page_table ms) (mem (wd k1)) M) as Hrep1 by (eapply pt_local; [exact Q2|]; intros q j Hq; by apply Hf1, Q3).
  assert (Z.of_nat (size (gL g1)) <= Z.of_nat (size (gL g)) + 1) as Hsz1.
  { apply subseteq_size in HL1. rewrite size_union, size_singleton in HL1 by set_solver. lia. }
  destruct (kmap_ok k1 _ g1 (page_table ms) M v p (map_perm a) K1 Hrep1) as (pt' & k' & g' & Hm & K' & Hrep' & Hc' & Ht' & Ho' & HL' & Hmem' & HS' & _);
    [by rewrite Ho1|lia|done|by apply Hppn|apply W|done|].
  exists pt', k'. split; [done|]. exists g', (<[v := (p, map_perm a)]> M).
  assert (InMemory p ∉ others (areas ms) i (Z.to_nat (v - area_start a)) a ++ rest) as Hfresh.
  { intros Hin. apply Hp, (k_live _ _ _ _ _ _ _ K). right. by right. }
  assert (same_contents k g k' g' (others (areas ms) i (Z.to_nat (v - area_start a)) a ++ rest)) as Hc.
  { eapply same_contents_trans; [exact Hc1|]. eapply same_contents_sub; [|exact Hc']. set_solver. }
  destruct (proc_replace k g ms M rest k' g' pt' (<[v := (p, map_perm a)]> M) i a a' v f (InMemory p)) as [HQ Hview]; try done.
  - intros x Hx. by apply Ht'.
  - intros u Hu. by rewrite lookup_insert_ne.
  - intros q [= <-]. done.
  - exists (map_perm a). rewrite lookup_insert_eq. split_and!; [done|by left|]. intros _.
    rewrite occ_cons, decide_True, occ_not_in by done. done.
  - rewrite (Hc' (InMemory p)) by left. done.
  - split; [done|]. split; [|split; [done|split; [apply lookup_insert_eq|]]];
      [|by apply (confined_replace k g ms M v g' pt' _ i a a' (InMemory p)); [..|intros u Hu; by rewrite lookup_insert_ne|lia]].
    eapply (step_replace k g ms M); try done; [..|intros ? [= <-]; by right].
    + intros q j Hq Hqt. rewrite Hmem'; [by apply Hf1| |done]. apply (k_live _ _ _ _ _ _ _ K1). left. by rewrite Ho1.
    + by rewrite <- Ho1.
    + intros x Hx. destruct (Ht' x Hx) as [_ [?|Hx1]]; [by left|]. right. intros HxL.
      apply (k_live _ _ _ _ _ _ _ K) in HxL as [HxO|HxH]; apply Hx1, (k_live _ _ _ _ _ _ _ K1); [left; by rewrite Ho1|].
      apply elem_of_cons in HxH as [HxH|HxH]; [by destruct (Hf x)|]. right. by right.
Qed.

(** *** The cases of the page-fault handler *)

Lemma lazy_fault_ok k g ms M rest i a v : proc_ok k g ms M rest -> areas ms !! i = Some a -> slot a v = Some Unallocated ->
  Z.of_nat (size (gL g)) + 3 <= limit - base ->
  exists p a' pt' k', map_one_zeroed_unchecked cfg a (page_table ms) k v = Ret (p, a', pt', k') /\
    fault_post k g ms M rest v a p (set_area ms i a' pt') k'.
Proof.
  intros Q Hi Hs Hsz. destruct (proc_split k g ms M rest i a v _ Q Hi Hs) as (K & W & Hv & _).
  destruct (frame_alloc_ok cfg base limit zrep srep k _ g K Hzero ltac:(lia)) as (p & k1 & Ha & (Hp & Hb & K1 & Hc1 & Hf1) & Hz).
  destruct (alloc_in_memory_ok a v p W Hs) as (lm & Hlm & Hr).
  assert (page_in_post base limit zrep srep k (others (areas ms) i (Z.to_nat (v - area_start a)) a ++ rest) g Unallocated p k1 (add_live g p)) as Hin.
  { split; [|split; [exact Hz|split; [eapply same_contents_tail; exact Hc1|split_and!; (done || lia)]]].
    rewrite (Permutation_swap Unallocated (InMemory p)) in K1. by apply (proj1 (kok_unallocated _ _ _ _ _ _ _)) in K1. }
  destruct (install_ok k g ms M rest i a (with_inner a lm) v Unallocated p k1 (add_live g p) Q Hi Hs ltac:(congruence) Hsz Hin Hr) as (pt' & k' & Hm & HP).
  unfold map_one_zeroed_unchecked. rewrite Ha. cbn [mbind outcome_bind]. rewrite Hlm. cbn [mbind outcome_bind]. rewrite Hm.
  by exists p, (with_inner a lm), pt', k'.
Qed.

(** A page held once is made writable in place. *)
Lemma cow_alone_ok k g ms M rest i a a' v q k1 : proc_ok k g ms M rest -> areas ms !! i = Some a -> slot a v = Some (InMemory q) ->
  InMemory q ∉ others (areas ms) i (Z.to_nat (v - area_start a)) a ++ rest -> replaced a v (InMemory q) a' ->
  table_step k (InMemory q :: others (areas ms) i (Z.to_nat (v - area_start a)) a ++ rest) g (page_table ms)
    (alter (fun e => (e.1, map_perm a)) v M) k1 ->
  fault_post k g ms M rest v a q (set_area ms i a' (page_table ms)) k1.
Proof.
  intros Q Hi Hs Hfresh Hr (K1 & Hrep & Hc & Hmem). destruct (proc_split k g ms M rest i a v _ Q Hi Hs) as (K & W & Hv & fl & HM & _ & _).
  set (R := others _ _ _ _ ++ rest) in *. set (M' := alter _ v M) in *. assert (M' !! v = Some (q, map_perm a)) as HM' by (unfold M'; by rewrite lookup_alter_eq, HM).
  assert (same_contents k g k1 g R) as HcR by (eapply same_contents_tail; exact Hc).
  exists g, M'. destruct (proc_replace k g ms M rest k1 g (page_table ms) M' i a a' v (InMemory q) (InMemory q) Q Hi Hs Hr K1 Hrep) as [HQ Hview].
  - apply Q.
  - intros u Hu. unfold M'. by rewrite lookup_alter_ne.
  - intros p [= <-]. done.
  - exists (map_perm a). split_and!; [done|by left|]. intros _. rewrite occ_cons, decide_True, occ_not_in; done.
  - done.
  - apply Hc. left.
  - split; [exact HQ|]. split; [|split; [done|split; [done|]]];
      [|by apply (confined_replace k g ms M v g (page_table ms) _ i a a' (InMemory q)); [..|intros u Hu; unfold M'; by rewrite lookup_alter_ne|lia]].
    apply (step_replace k g ms M rest k1 g (page_table ms) i a a' v (InMemory q) (InMemory q) Q Hi Hs Hr HcR).
    + intros x j Hx Hxt. by apply Hmem.
    + done.
    + by left.
    + intros ? [= <-]. by left.
Qed.

(** The frame of a shared page is copied. *)
Lemma cow_shared_ok k g ms M rest i a lm1 v q (fl : Z) : proc_ok k g ms M rest -> areas ms !! i = Some a -> slot a v = Some (InMemory q) ->
  M !! v = Some (q, fl) -> InMemory q ∈ others (areas ms) i (Z.to_nat (v - area_start a)) a ++ rest ->
  replaced a v Unallocated (with_inner a lm1) -> Z.of_nat (size (gL g)) + 3 <= limit - base ->
  exists k1 p k2 lm2 pt' k3 k4, kunmap (page_table ms) k v = Ret k1 /\ frame_alloc_uninit_unwrap k1 = Ret (p, k2) /\
    alloc_in_memory lm1 v p = Ret lm2 /\ kmap (page_table ms) k2 v p (map_perm a) = Ret (pt', k3) /\
    arc_drop cfg (set_bytes_array k3 p (get_bytes_array k3 q)) (InMemory q) = Ret k4 /\
    fault_post k g ms M rest v a p (set_area ms i (with_inner a lm2) pt') k4.
Proof.
  intros Q Hi Hs HM HqR Hr1 Hsz. destruct (proc_split k g ms M rest i a v _ Q Hi Hs) as (K & W & Hv & _). pose proof Q as [_ Q2 Q3 _].
  set (R := others _ _ _ _ ++ rest) in *. pose proof (replaced_wf _ _ _ _ W Hr1) as W1.
  assert (slot (with_inner a lm1) v = Some Unallocated) as Hs1 by (rewrite (replaced_slot _ _ _ _ _ v W Hs Hr1); by rewrite decide_True).
  destruct (kunmap_ok k _ g (page_table ms) M v _ K Q2 Q3 Hv HM) as (k1 & Hu & K1 & Hrep1 & Hc1 & Hm1).
  destruct (frame_alloc_uninit_ok cfg base limit zrep srep k1 _ g K1 ltac:(lia)) as (p & k2 & Ha & Hp & Hb & K2 & Hc2 & Hf2).
  destruct (alloc_in_memory_ok (with_inner a lm1) v p W1 Hs1) as (lm2 & Hl2 & Hr2). cbn [inner with_inner] in Hl2.
  assert (rep (page_table ms) (mem (wd k2)) (delete v M)) as Hrep2 by (eapply pt_local; [exact Hrep1|]; intros x j Hx; by apply Hf2, Q3).
  assert (Z.of_nat (size (gL (add_live g p))) = Z.of_nat (size (gL g)) + 1) as Hsz2 by (cbn; rewrite size_union, size_singleton by set_solver; lia).
  destruct (kmap_ok k2 _ (add_live g p) (page_table ms) (delete v M) v p (map_perm a) K2 Hrep2 Q3)
    as (pt' & k3 & g3 & Hm & K3 & Hrep3 & Hc3 & Ht3 & Ho3 & HL3 & Hm3 & HS3 & _); [lia|done|by apply Hppn|apply W|apply lookup_delete_eq|].
  assert (InMemory p ∉ InMemory q :: R) as Hpn by (intros Hin; apply Hp, (k_live _ _ _ _ _ _ _ K); by right).
  pose proof (set_bytes_ok base limit zrep srep k3 _ g3 p (get_bytes_array k3 q) K3) as K4.
  rewrite (Permutation_swap (InMemory q) (InMemory p)) in K4.
  destruct (arc_drop_ok cfg base limit zrep zroom srep sroom _ _ _ _ K4) as (k5 & g5 & Hd & K5 & Hc5 & Hm5 & Ho5 & HL5 & _).
  exists k1, p, k2, lm2, pt', k3, k5. do 5 (split; [done|]).
  assert (same_contents k g k3 g3 (InMemory q :: R)) as Hc03.
  { eapply same_contents_trans; [exact Hc1|]. eapply same_contents_trans; [exact Hc2|]. eapply same_contents_tail; exact Hc3. }
  assert (same_contents k g k5 g5 R) as HcR.
  { eapply same_contents_trans; [eapply same_contents_tail; exact Hc03|].
    eapply same_contents_trans; [apply (set_bytes_contents k3 g3 R p); set_solver|]. eapply same_contents_tail; exact Hc5. }
  assert (forall x, x ∈ gO g -> x <> p) as HpO by (intros x Hx ->; apply Hp, (k_live _ _ _ _ _ _ _ K); by left).
  assert (rep pt' (mem (wd k5)) (<[v := (p, map_perm a)]> (delete v M))) as Hrep5.
  { rewrite Hm5. eapply pt_local; [exact Hrep3|]. intros x j Hx. cbn. apply mem_set_bytes_other. intros ->.
    destruct (Ht3 p Hx) as [HpO3 _]. apply (k_own _ _ _ _ _ _ _ K3 p); [left|done]. }
  exists g5, (<[v := (p, map_perm a)]> (delete v M)). pose proof (replaced_twice _ _ _ _ _ _ Hr1 Hr2) as Hr.
  destruct (proc_replace k g ms M rest k5 g5 pt' (<[v := (p, map_perm a)]> (delete v M)) i a (with_inner a lm2) v (InMemory q) (InMemory p) Q Hi Hs Hr K5 Hrep5) as [HQ Hview].
  - rewrite Ho5. intros x Hx. by apply Ht3.
  - intros u Hne. rewrite lookup_insert_ne, lookup_delete_ne; done.
  - intros p' [= <-]. set_solver.
  - exists (map_perm a). rewrite lookup_insert_eq. split_and!; [done|by left|]. intros _. rewrite occ_cons, decide_True, occ_not_in; [done|set_solver|done].
  - done.
  - rewrite (Hc5 (InMemory p)) by left. cbn. rewrite set_bytes_same by apply page_bytes_ok. exact (Hc03 (InMemory q) ltac:(left)).
  - split; [exact HQ|]. split; [|split; [done|split; [apply lookup_insert_eq|]]];
      [|by apply (confined_replace k g ms M v g5 pt' _ i a (with_inner a lm2) (InMemory p)); [..|intros u Hne; by rewrite lookup_insert_ne, lookup_delete_ne|apply subseteq_size in HL5; lia]].
    apply (step_replace k g ms M rest k5 g5 pt' i a (with_inner a lm2) v (InMemory q) (InMemory p) Q Hi Hs Hr HcR).
    + intros x j Hx Hxt. rewrite Hm5. cbn. rewrite mem_set_bytes_other by auto.
      rewrite Hm3; [|cbn; apply elem_of_union_r, (k_live _ _ _ _ _ _ _ K); by left|done]. rewrite Hf2 by done. by apply Hm1.
    + rewrite Ho5. done.
    + intros x Hx. destruct (Ht3 x Hx) as [_ [?|Hx3]]; [by left|]. right. cbn in Hx3. set_solver.
    + intros ? [= <-]. by right.
Qed.

Lemma cow_ok k g ms M rest i a v q : proc_ok k g ms M rest -> areas ms !! i = Some a -> slot a v = Some (InMemory q) ->
  Z.of_nat (size (gL g)) + 3 <= limit - base ->
  exists p a' pt' k', copy_on_write cfg a (page_table ms) k v = Ret (Ok p, a', pt', k') /\
    fault_post k g ms M rest v a p (set_area ms i a' pt') k'.
Proof.
  intros Q Hi Hs Hsz. destruct (proc_split k g ms M rest i a v _ Q Hi Hs) as (K & W & Hv & fl & HM & _ & _). pose proof Q as [_ Q2 Q3 _].
  destruct (remove_in_memory_ok a v q W Hs) as (lm1 & Hrm & Hr1). pose proof (replaced_wf _ _ _ _ W Hr1) as W1.
  assert (slot (with_inner a lm1) v = Some Unallocated) as Hs1 by (rewrite (replaced_slot _ _ _ _ _ v W Hs Hr1); by rewrite decide_True).
  unfold copy_on_write. rewrite Hrm. cbn [mbind outcome_bind unwrap].
  rewrite (k_arcs _ _ _ _ _ _ _ K (InMemory q)), occ_cons, decide_True by done.
  destruct (Z.eqb_spec (1 + occ (InMemory q) (others (areas ms) i (Z.to_nat (v - area_start a)) a ++ rest)) 1) as [E|E].
  - destruct (alloc_in_memory_ok (with_inner a lm1) v q W1 Hs1) as (lm2 & Hl2 & Hr2). cbn [inner with_inner] in Hl2. rewrite Hl2. cbn [mbind outcome_bind].
    destruct (kflags_ok k _ g (page_table ms) M v (map_perm a) K Q2 Q3 Hv (aw_perm _ W)) as (k1 & Hfl & Hstep).
    rewrite Hfl, HM. exists q, (with_inner a lm2), (page_table ms), k1. split; [done|].
    apply (cow_alone_ok k g ms M rest i a (with_inner a lm2) v q k1 Q Hi Hs); [rewrite <- occ_pos; lia|exact (replaced_twice _ _ _ _ _ _ Hr1 Hr2)|done].
  - destruct (cow_shared_ok k g ms M rest i a lm1 v q fl Q Hi Hs HM) as (k1 & p & k2 & lm2 & pt' & k3 & k4 & H1 & H2 & H3 & H4 & H5 & HP); [|done|done|].
    { apply occ_pos. pose proof (occ_nonneg (InMemory q) (others (areas ms) i (Z.to_nat (v - area_start a)) a ++ rest)). lia. }
    exists p, (with_inner a lm2), pt', k4. rewrite H1. cbn [mbind outcome_bind]. rewrite H2. cbn [mbind outcome_bind]. rewrite H3. cbn [mbind outcome_bind].
    rewrite H4. cbn [mbind outcome_bind]. by rewrite H5.
Qed.

(** *** The handler *)

Lemma position_found {A} (p : A -> bool) (lst : list A) i : position p lst = Some i -> exists x, lst !! i = Some x /\ p x = true.
Proof.
  revert i. induction lst as [|x lst IH]; intros i; cbn; [done|]. destruct (p x) eqn:E; [intros [= <-]; by exists x|].
  destruct (position p lst) as [j|]; [|done]. intros [= <-]. by apply IH.
Qed.
Lemma position_absent {A} (p : A -> bool) (lst : list A) : position p lst = None -> forall x, x ∈ lst -> p x = false.
Proof.
  induction lst as [|x lst IH]; cbn; [by intros _ ? ?%not_elem_of_nil|]. destruct (p x) eqn:E; [done|].
  destruct (position p lst); [done|]. intros _ y [->|Hy]%elem_of_cons; [done|by apply IH].
Qed.

(** The page that comes back from a store. *)
Lemma paged_in_ok k g ms M rest i a v f p k1 g1 act c s : proc_ok k g ms M rest -> areas ms !! i = Some a -> slot a v = Some f ->
  (forall q, f <> InMemory q) -> Z.of_nat (size (gL g)) + 3 <= limit - base ->
  page_in_post base limit zrep srep k (others (areas ms) i (Z.to_nat (v - area_start a)) a ++ rest) g f p k1 g1 ->
  exists lm1 pt' k', lm_set (inner a) v (InMemory p) = Ret lm1 /\ kmap (page_table ms) k1 v p (map_perm a) = Ret (pt', k') /\
    fault_post k g ms M rest v a p (set_area ms i (with_inner a (LM (vpn_range lm1) (frames lm1) (act lm1) (c lm1) (s lm1))) pt') k'.
Proof.
  intros Q Hi Hs Hf Hsz HP. destruct (proc_split k g ms M rest i a v f Q Hi Hs) as (_ & W & _).
  eexists. rewrite (lm_set_ok a v f _ W Hs). 
  destruct (install_ok k g ms M rest i a (with_inner a (LM (vpn_range (inner a)) (<[Z.to_nat (v - area_start a) := InMemory p]> (frames (inner a)))
    (act (with_frames (inner a) (<[Z.to_nat (v - area_start a) := InMemory p]> (frames (inner a)))))
    (c (with_frames (inner a) (<[Z.to_nat (v - area_start a) := InMemory p]> (frames (inner a)))))
    (s (with_frames (inner a) (<[Z.to_nat (v - area_start a) := InMemory p]> (frames (inner a)))))))
    v f p k1 g1 Q Hi Hs Hf Hsz HP) as (pt' & k' & Hm & Hpost); [done|].
  exists pt', k'. split; [done|]. by split.
Qed.

Lemma anonymous_fault_ok k g ms M rest i a addr f : proc_ok k g ms M rest -> areas ms !! i = Some a -> slot a (addr_floor addr) = Some f ->
  (forall q, f <> InMemory q) -> Z.of_nat (size (gL g)) + 3 <= limit - base ->
  exists p ms' k', anonymous_fault cfg ms k addr i a = Ret (Ok (pn_offset p (page_offset addr)), ms', k') /\
    fault_post k g ms M rest (addr_floor addr) a p ms' k'.
Proof.
  intros Q Hi Hs Hf Hsz. destruct (proc_split k g ms M rest i a _ f Q Hi Hs) as (K & W & _).
  unfold anonymous_fault. rewrite (lm_get_ok a _ f W Hs). cbn [mbind outcome_bind]. destruct f as [q|z|s|]; [by destruct (Hf q)|..].
  - destruct (unzip_ok cfg base limit zrep zroom srep sroom k _ g z K Hzero ltac:(lia)) as (p & k1 & g1 & Hu & HP). rewrite Hu. cbn [mbind outcome_bind].
    destruct (paged_in_ok k g ms M rest i a _ _ p k1 g1 (fun lm => active lm ++ [wrap 16 (addr_floor addr ⊖ lm_start lm)]) (fun lm => compressed lm ⊖ 1) swapped Q Hi Hs Hf Hsz HP)
      as (lm1 & pt' & k' & -> & Hm & Hpost). cbn [mbind outcome_bind]. rewrite Hm. cbn [mbind outcome_bind]. by eexists p, _, k'.
  - destruct (swap_in_ok cfg base limit zrep zroom srep sroom k _ g s K Hzero ltac:(lia)) as (p & k1 & g1 & Hu & HP). rewrite Hu. cbn [mbind outcome_bind].
    destruct (paged_in_ok k g ms M rest i a _ _ p k1 g1 (fun lm => active lm ++ [wrap 16 (addr_floor addr ⊖ lm_start lm)]) compressed (fun lm => swapped lm ⊖ 1) Q Hi Hs Hf Hsz HP)
      as (lm1 & pt' & k' & -> & Hm & Hpost). cbn [mbind outcome_bind]. rewrite Hm. cbn [mbind outcome_bind]. by eexists p, _, k'.
  - destruct (lazy_fault_ok k g ms M rest i a _ Q Hi Hs Hsz) as (p & a' & pt' & k' & Hm & HP). rewrite Hm. cbn [mbind outcome_bind].
    by eexists p, _, k'.
Qed.

Lemma in_memory_or (f : Frame) : (exists q, f = InMemory q) \/ (forall q, f <> InMemory q).
Proof. destruct f; [left; eauto|right; congruence..]. Qed.
Lemma fault_area_spec v a : fault_area v a = true <->
  MapPermission.contains (map_perm a) (Z.lor MapPermission.R MapPermission.U) = true /\ in_area a v.
Proof. unfold fault_area, in_area. rewrite !andb_true_iff, Z.leb_le, Z.ltb_lt. tauto. Qed.

(** What the handler answers for an address. *)
Definition page_fault_post k g ms M rest addr (r : Result Z MemoryError) ms' k' : Prop :=
  let v := addr_floor addr in
  match r with
  | Ok pa => exists i a p, areas ms !! i = Some a /\ fault_area v a = true /\ pa = pn_offset p (page_offset addr) /\
      fault_post k g ms M rest v a p ms' k'
  | Err e => ms' = ms /\ k' = k /\
      ((e = BadAddress /\ forall a, a ∈ areas ms -> fault_area v a = false) \/
       (e = NoPermission /\ exists a, a ∈ areas ms /\ fault_area v a = true /\ is_Some (M !! v) /\
          MapPermission.contains (map_perm a) MapPermission.W = false))
  end.

(** No file is behind page [v]: the areas a fault on it can belong to are anonymous. *)
Definition anon_at ms (v : Z) : Prop := forall a, a ∈ areas ms -> fault_area v a = true -> map_file a = None.
Lemma anon_all ms v : Forall (fun a => map_file a = None) (areas ms) -> anon_at ms v.
Proof. intros H a Ha _. rewrite Forall_forall in H. by apply H. Qed.

Lemma page_fault_ok k g ms M rest addr : proc_ok k g ms M rest -> anon_at ms (addr_floor addr) ->
  Z.of_nat (size (gL g)) + 3 <= limit - base ->
  exists r ms' k', do_page_fault cfg ms k addr = Ret (r, ms', k') /\ page_fault_post k g ms M rest addr r ms' k'.
Proof.
  intros Q Hfile Hsz. unfold do_page_fault. set (v := addr_floor addr).
  destruct (position (fault_area v) (areas ms)) as [i|] eqn:Hpos.
  2: { eexists _, ms, k. split; [done|]. do 2 (split; [done|]). left. split; [done|]. exact (position_absent _ _ Hpos). }
  apply position_found in Hpos as (a & Hi & Hfa). rewrite Hi. cbn [mbind outcome_bind unwrap].
  pose proof Hfa as [_ Hv]%fault_area_spec. pose proof Q as [Q1 Q2 Q3 Q4]. pose proof (list_elem_of_lookup_2 _ _ _ Hi) as Hin.
  pose proof (m_wf _ _ _ Q4 a Hin) as W. destruct (slot_some a v W Hv) as [f Hs]. pose proof (m_pages _ _ _ Q4 i a v f Hi Hs) as Hp.
  unfold kmapped. rewrite (proj1 (pt_query_ok (page_table ms) (mem (wd k)) M v Q2 (aw_vpn _ W v Hv))).
  destruct (in_memory_or f) as [[q ->]|Hf].
  - destruct Hp as (fl & HM & _). rewrite HM. rewrite bool_decide_true by done. cbn [negb].
    destruct (MapPermission.contains (map_perm a) MapPermission.W) eqn:HW.
    + destruct (cow_ok k g ms M rest i a v q Q Hi Hs Hsz) as (p & a' & pt' & k' & Hc & HP). rewrite Hc. cbn [mbind outcome_bind].
      eexists _, _, k'. split; [done|]. by exists i, a, p.
    + eexists _, ms, k. split; [done|]. do 2 (split; [done|]). right. split; [done|]. exists a. by split_and!; [..|eexists|].
  - assert (M !! v = None) as HM by (destruct f; [by destruct (Hf ppn)|exact Hp..]).
    rewrite HM, bool_decide_false by (by intros []). cbn [negb].
    rewrite (Hfile a Hin Hfa).
    destruct (anonymous_fault_ok k g ms M rest i a addr f Q Hi Hs Hf Hsz) as (p & ms' & k' & Ha & HP). rewrite Ha.
    eexists _, ms', k'. split; [done|]. by exists i, a, p.
Qed.
End Space.
