(* ===== verification/Reclaim.v ===== *)
(** * Reclaim: memory pressure is invisible

    Evicting pages ([do_oom] and [force_swap] of os/src/mm/map_area.rs, the cleaning of
    os/src/mm/memory_set.rs) moves pages to compressed memory or to the swap area. No
    process can see it: what every page contains stays the same. Shallow cleaning
    frees as many frames as it reports; deep cleaning may report pages whose frames are
    still shared. *)
From S2P Require Import Prelude AllocSpec Address FrameAlloc Bytes PageTable PageStore Trackers MapArea Pid MemorySet AddressSpace.
Import StackFrameAllocator.

Section Reclaim.
Context {cfg : config} {base limit : Z} {ZS SS T F : Type} `{!PageStore ZS} `{!PageStore SS} `{!PageTable T} `{!MapFile F}.
Context {zrep : ZS -> gmap Z (list Z) -> Prop} {zroom : gmap Z (list Z) -> Prop} `{!PageStoreOk ZS zrep zroom} `{!PageStoreTotal ZS zrep}.
Context {srep : SS -> gmap Z (list Z) -> Prop} {sroom : gmap Z (list Z) -> Prop} `{!PageStoreOk SS srep sroom}.
Context {vpn_ok ppn_ok : Z -> Prop} {rep : T -> pmem -> gmap Z (Z * Z) -> Prop} `{!PageTableOk T base limit vpn_ok ppn_ok rep}.
#[local] Notation kmem := (@kmem ZS SS).
#[local] Notation MapArea := (@MapArea F).
#[local] Notation MemorySet := (@MemorySet T F).
#[local] Notation kok := (kok base limit zrep srep).
#[local] Notation proc_ok := (proc_ok (base := base) (limit := limit) (zrep := zrep) (srep := srep) (vpn_ok := vpn_ok) (rep := rep)).
#[local] Notation area_wf := (area_wf (vpn_ok := vpn_ok)).
#[local] Notation page_out_post := (page_out_post base limit zrep srep).
Implicit Types (k : kmem) (g : ghost) (H R rest : list Frame) (M : gmap Z (Z * Z)) (l : list MapArea) (a : MapArea) (ms : MemorySet).

(** ** Evicting one page *)

(** What eviction keeps: everything a process can see. [n] pages leave memory and [m]
    frames become free. *)
Definition evicted k g ms rest (n m : nat) ms' k' g' : Prop :=
  (exists M', proc_ok k' g' ms' M' rest) /\ proc_step k g ms rest k' g' ms' /\ (forall u, view ms' k' g' u = view ms k g u) /\
  size (gL g) = (size (gL g') + m)%nat /\ (size (gS g') <= size (gS g) + n)%nat /\ page_table ms' = page_table ms.

Lemma evicted_refl k g ms M rest : proc_ok k g ms M rest -> evicted k g ms rest 0 0 ms k g.
Proof. intros Q. split; [by exists M|]. split; [apply proc_step_refl|]. split_and!; done || lia. Qed.
Lemma evicted_trans k g ms rest n m k1 g1 ms1 n' m' k2 g2 ms2 : evicted k g ms rest n m ms1 k1 g1 -> evicted k1 g1 ms1 rest n' m' ms2 k2 g2 ->
  evicted k g ms rest (n + n') (m + m') ms2 k2 g2.
Proof.
  intros (Q1 & S1 & V1 & L1 & Z1 & P1) (Q2 & S2 & V2 & L2 & Z2 & P2). split; [done|]. split; [exact (proc_step_trans _ _ _ _ _ _ _ _ _ _ S1 S2)|].
  split; [intros u; by rewrite V2|]. split_and!; [lia..|congruence].
Qed.

(** The frame of a page that leaves memory becomes free, when nobody else holds it. *)
Lemma page_out_size k H g p f' k' g' : kok k (InMemory p :: H) g -> (forall q, f' <> InMemory q) ->
  page_out_post k H g p f' k' g' -> size (gL g) = (size (gL g') + if decide (InMemory p ∈ H) then 0 else 1)%nat.
Proof.
  intros K Hf (K' & _ & _ & _ & Ho & _). assert (p ∈ gL g) as Hp by (apply (k_live _ _ _ _ _ _ _ K); right; left).
  pose proof (k_own _ _ _ _ _ _ _ K p ltac:(left)) as Hpo.
  assert (forall q, q ∈ gL g' <-> q ∈ gL g /\ (q = p -> InMemory p ∈ H)) as E.
  { intros q. rewrite (k_live _ _ _ _ _ _ _ K'), (k_live _ _ _ _ _ _ _ K), Ho, !elem_of_cons. specialize (Hf q). split; [|naive_solver].
    intros [Hq|[?|Hq]]; [|congruence|]; (split; [tauto|intros ->; done]). }
  case_decide as D; [assert (gL g' = gL g) as -> by set_solver; lia|].
  assert (gL g' = gL g ∖ {[p]}) as -> by set_solver. rewrite size_difference by set_solver. rewrite size_singleton.
  assert (size (gL g) <> 0)%nat; [|lia]. intros Hs%size_empty_inv. set_solver.
Qed.

Lemma evict_ok k g ms M rest i a a' v p f' k1 g1 : let R := others (areas ms) i (Z.to_nat (v - area_start a)) a ++ rest in
  proc_ok k g ms M rest -> areas ms !! i = Some a -> slot a v = Some (InMemory p) -> (forall q, f' <> InMemory q) ->
  page_out_post k R g p f' k1 g1 -> replaced a v f' a' ->
  exists k', kunmap (page_table ms) k1 v = Ret k' /\ evicted k g ms rest 1 (if decide (InMemory p ∈ R) then 0 else 1) (set_area ms i a' (page_table ms)) k' g1.
Proof.
  intros R Q Hi Hs Hf HP Hr. destruct (proc_split k g ms M rest i a v _ Q Hi Hs) as (K & W & Hv & fl & HM & _ & _).
  pose proof (page_out_size k R g p f' k1 g1 K Hf HP) as Hsz. pose proof Q as [_ Q2 Q3 _].
  destruct HP as (K1 & Hcf & Hc & Hmem & Ho & _ & HS).
  assert (forall x, x ∈ pt_tables (page_table ms) -> x ∈ gO g1) as Ht by (by rewrite Ho).
  destruct (kunmap_ok k1 _ g1 (page_table ms) M v _ K1 ltac:(by rewrite Hmem) Ht Hv HM) as (k' & Hu & K' & Hrep & Hc' & Hm').
  assert (same_contents k g k' g1 R) as HcR by (eapply same_contents_trans; [exact Hc|eapply same_contents_tail; exact Hc']).
  destruct (proc_replace k g ms M rest k' g1 (page_table ms) (delete v M) i a a' v (InMemory p) f' Q Hi Hs Hr K' Hrep Ht) as [HQ Hview].
  - intros u Hu'. by rewrite lookup_delete_ne.
  - intros q ->. by destruct (Hf q).
  - unfold page_at. destruct f'; [by destruct (Hf ppn)|apply lookup_delete_eq..].
  - done.
  - rewrite (Hc' f') by left. done.
  - exists k'. split; [done|]. split_and!; try done; [by exists (delete v M)|].
    apply (step_replace k g ms M rest k' g1 (page_table ms) i a a' v (InMemory p) f' Q Hi Hs Hr HcR).
    + intros x j Hx Hxt. rewrite Hm' by done. by rewrite Hmem.
    + by rewrite Ho.
    + by left.
    + intros q ->. by destruct (Hf q).
Qed.

(** ** The loops *)

(** One turn on page [idx]: [n] pages left, [m] frames became free, and [count] says so. *)
Definition one_post (count : LinearMap -> Z) (lm : LinearMap) (idx : Z) (n : nat) (lm' : LinearMap) : Prop :=
  active lm' = active lm /\ vpn_range lm' = vpn_range lm /\ (forall j, j <> Z.to_nat idx -> frames lm' !! j = frames lm !! j) /\
  wrap 64 (count lm') = wrap 64 (count lm + Z.of_nat n) /\ (n <= 1)%nat.
Definition gone (lm : LinearMap) : Z := compressed lm + swapped lm.

(** [one] evicts a page of an area, whatever is left on its list. *)
Definition evicts (count : LinearMap -> Z) (free : bool) (one : T -> Z -> LinearMap -> kmem -> outcome (LinearMap * kmem)) : Prop :=
  forall k g ms M rest i a act idx p, proc_ok k g ms M rest -> areas ms !! i = Some a -> 0 <= idx -> frames (inner a) !! Z.to_nat idx = Some (InMemory p) ->
  sroom (gS g) -> exists lm' k' g' n m, one (page_table ms) idx (with_active (inner a) act) k = Ret (lm', k') /\
    evicted k g ms rest n m (set_area ms i (with_inner a lm') (page_table ms)) k' g' /\ one_post count (with_active (inner a) act) idx n lm' /\
    (if free then m = n else (m <= n)%nat).

Lemma slot_index a idx f : area_wf a -> 0 <= idx -> frames (inner a) !! Z.to_nat idx = Some f ->
  slot a (area_start a + idx) = Some f /\ area_start a ⊕ idx = area_start a + idx /\ Z.to_nat (area_start a + idx - area_start a) = Z.to_nat idx.
Proof.
  intros W H0 Hf. pose proof (aw_len _ W). pose proof (aw_range _ W). pose proof (aw_top _ W). pose proof (lookup_lt_Some _ _ _ Hf).
  assert (area_start a + idx - area_start a = idx) as E by lia. split_and!; [|apply add64_small; unfold in_range; lia|by rewrite E].
  unfold slot. rewrite decide_True by (unfold in_area; lia). by rewrite E.
Qed.

(** An area whose bookkeeping changed, but not its pages. *)
Lemma retag_ok k g ms M rest i a lm' : proc_ok k g ms M rest -> areas ms !! i = Some a -> vpn_range lm' = vpn_range (inner a) -> frames lm' = frames (inner a) ->
  evicted k g ms rest 0 0 (set_area ms i (with_inner a lm') (page_table ms)) k g.
Proof.
  intros Q Hi Er Ef. set (a' := with_inner a lm').
  assert (forall u, in_area a' u <-> in_area a u) as Ein by (intros u; unfold in_area, area_start, area_end, lm_start, lm_end; cbn; by rewrite Er).
  assert (forall u, slot a' u = slot a u) as Es.
  { intros u. unfold slot. rewrite (decide_ext _ _ _ _ (Ein u)). unfold area_start, lm_start. cbn. by rewrite Ef, Er. }
  assert (slots (<[i := a']> (areas ms)) ≡ₚ slots (areas ms)) as Ep.
  { etrans; [apply slots_perm, (insert_Permutation _ i a a' Hi)|]. symmetry. etrans; [apply slots_perm, (delete_Permutation _ i a Hi)|].
    rewrite !slots_cons. cbn. by rewrite Ef. }
  assert (forall j b, <[i := a']> (areas ms) !! j = Some b -> exists b', areas ms !! j = Some b' /\ map_perm b = map_perm b' /\
    (forall u, slot b u = slot b' u) /\ (forall u, in_area b u <-> in_area b' u)) as Hold.
  { intros j b [(-> & <- & _)|[_ Hj]]%list_lookup_insert_Some; [by exists a|by exists b]. }
  assert (forall u, slot_of (<[i := a']> (areas ms)) u = slot_of (areas ms) u) as Hso.
  { intros u. clear -Hi Es. revert i Hi. induction (areas ms) as [|b l IH]; intros [|i] Hi; try done; cbn in *; [injection Hi as ->; by rewrite Es|].
    by rewrite IH. }
  split; [|split; [|split_and!; try done; try lia; intros u; unfold view; cbn; by rewrite Hso]].
  - exists M. destruct Q as [Q1 Q2 Q3 [M1 M2 M3 M4]]. constructor; cbn; try done; [by rewrite Ep|]. constructor.
    + intros b [j Hj]%list_elem_of_lookup. apply list_lookup_insert_Some in Hj as [(-> & <- & _)|[_ Hj]]; [|by eapply M1, list_elem_of_lookup_2].
      destruct (M1 a (list_elem_of_lookup_2 _ _ _ Hi)). constructor; try done; unfold area_start, area_end, lm_start, lm_end in *; cbn; rewrite ?Er, ?Ef; try done.
      intros u Hu. by apply aw_vpn, Ein.
    + intros j1 j2 b1 b2 u (b1' & H1 & _ & _ & E1)%Hold (b2' & H2 & _ & _ & E2)%Hold Hu1 Hu2. by apply (M2 j1 j2 b1' b2' u H1 H2); [apply E1|apply E2].
    + intros j b u f (b' & Hj & -> & E1 & _)%Hold Hs. rewrite E1 in Hs. specialize (M3 j b' u f Hj Hs).
      destruct f; try done. destruct M3 as (fl & ? & ? & Hw). exists fl. split_and!; try done. by rewrite Ep.
    + intros u p fl Hu HM Hw. destruct (M4 u p fl Hu HM Hw) as (j & b & Hj & Hb). destruct (decide (j = i)) as [->|Hne].
      * exists i, a'. split; [apply list_lookup_insert_eq; by eapply lookup_lt_Some|]. apply Ein. congruence.
      * exists j, b. by rewrite list_lookup_insert_ne.
  - constructor; cbn; try done. intros p Hp _. by rewrite Ep in Hp.
Qed.

(** A page that is out of memory, written back to the area. *)
Lemma evict_index_ok k g ms M rest i a act idx p f' k1 g1 (c s : Z) : let v := area_start a + idx in
  proc_ok k g ms M rest -> areas ms !! i = Some a -> 0 <= idx -> frames (inner a) !! Z.to_nat idx = Some (InMemory p) ->
  (forall q, f' <> InMemory q) -> page_out_post k (others (areas ms) i (Z.to_nat (v - area_start a)) a ++ rest) g p f' k1 g1 ->
  exists fs k' , store (frames (inner a)) idx f' = Ret fs /\ kunmap (page_table ms) k1 (area_start a ⊕ idx) = Ret k' /\
    evicted k g ms rest 1 (if decide (InMemory p ∈ others (areas ms) i (Z.to_nat (v - area_start a)) a ++ rest) then 0 else 1)
      (set_area ms i (with_inner a (LM (vpn_range (inner a)) fs act c s)) (page_table ms)) k' g1 /\
    (forall j, j <> Z.to_nat idx -> fs !! j = frames (inner a) !! j).
Proof.
  intros v Q Hi H0 Hf Hn HP. pose proof (m_wf _ _ _ (q_ms _ _ _ _ _ Q) a (list_elem_of_lookup_2 _ _ _ Hi)) as W.
  destruct (slot_index a idx _ W H0 Hf) as (Hs & Ev & En). fold v in Hs, Ev, En. eexists.
  rewrite store_lt by (by eapply lookup_lt_Some). rewrite Ev.
  destruct (evict_ok k g ms M rest i a (with_inner a (LM (vpn_range (inner a)) (<[Z.to_nat idx := f']> (frames (inner a))) act c s)) v p f' k1 g1 Q Hi Hs Hn HP)
    as (k' & Hu & HE); [split_and!; try done; cbn; by rewrite En|].
  exists k'. split; [done|]. split; [done|]. split; [done|]. intros j Hj. by apply list_lookup_insert_ne.
Qed.

Lemma force_swap_one_ok : evicts swapped false (force_swap_one cfg).
Proof.
  intros k g ms M rest i a act idx p Q Hi H0 Hf Hroom. pose proof (m_wf _ _ _ (q_ms _ _ _ _ _ Q) a (list_elem_of_lookup_2 _ _ _ Hi)) as W.
  destruct (slot_index a idx _ W H0 Hf) as (Hs & _). destruct (proc_split k g ms M rest i a _ _ Q Hi Hs) as (K & _).
  destruct (force_swap_out_ok cfg base limit zrep zroom srep sroom k _ g p K Hroom) as (id & k1 & g1 & Ho & HP).
  destruct (evict_index_ok k g ms M rest i a act idx p (SwappedOut id) k1 g1 (compressed (inner a)) (swapped (inner a) ⊕ 1) Q Hi H0 Hf ltac:(done) HP) as (fs & k' & Hst & Hu & HE & Hfs).
  unfold force_swap_one. cbn [frames with_active]. rewrite (proj2 (index_ret _ _ _) Hf). cbn [mbind outcome_bind]. rewrite Ho. cbn [mbind outcome_bind]. rewrite Hst. cbn [mbind outcome_bind].
  change (lm_start (with_active _ _)) with (area_start a). rewrite Hu. cbn [mbind outcome_bind]. eexists _, k', g1, 1%nat, _. split; [done|]. split; [exact HE|].
  split; [|case_decide; lia]. split_and!; try done. cbn. unfold add64. by autorewrite with wrap.
Qed.

Lemma do_oom_one_ok : evicts gone true (do_oom_one cfg).
Proof.
  intros k g ms M rest i a act idx p Q Hi H0 Hf Hroom. pose proof (m_wf _ _ _ (q_ms _ _ _ _ _ Q) a (list_elem_of_lookup_2 _ _ _ Hi)) as W.
  destruct (slot_index a idx _ W H0 Hf) as (Hs & _). destruct (proc_split k g ms M rest i a _ _ Q Hi Hs) as (K & _).
  pose proof (retag_ok k g ms M rest i a (with_active (inner a) act) Q Hi eq_refl eq_refl) as Hsame.
  assert (one_post gone (with_active (inner a) act) idx 0 (with_active (inner a) act)) as Hpost0 by (split_and!; try done; [by rewrite Z.add_0_r|lia]).
  pose proof (zip_ok cfg base limit zrep zroom srep sroom k _ g p PageStoreTotal0 K) as Hzip.
  pose proof (swap_out_ok cfg base limit zrep zroom srep sroom k _ g p K Hroom) as Hswap.
  unfold do_oom_one. cbn [frames with_active]. rewrite (proj2 (index_ret _ _ _) Hf). cbn [mbind outcome_bind].
  case_bool_decide as Hsh; [rewrite Hzip; cbn [mbind outcome_bind]; by eexists _, k, g, O, O|].
  destruct Hzip as [Hzip|(id & k1 & g1 & Hzip & HP)]; rewrite Hzip; cbn [mbind outcome_bind].
  - destruct Hswap as (id & k1 & g1 & Hswap & HP). rewrite Hswap. cbn [mbind outcome_bind].
    destruct (evict_index_ok k g ms M rest i a act idx p (SwappedOut id) k1 g1 (compressed (inner a)) (swapped (inner a) ⊕ 1) Q Hi H0 Hf ltac:(done) HP) as (fs & k' & Hst & Hu & HE & Hfs).
    rewrite Hst. cbn [mbind outcome_bind]. change (lm_start (with_active _ _)) with (area_start a). rewrite Hu. cbn [mbind outcome_bind].
    eexists _, k', g1, 1%nat, _. split; [done|]. split; [exact HE|]. rewrite decide_False by done. split; [|done]. split_and!; try done.
    unfold gone. cbn. unfold add64. autorewrite with wrap. f_equal. lia.
  - destruct (evict_index_ok k g ms M rest i a act idx p (Compressed id) k1 g1 (compressed (inner a) ⊕ 1) (swapped (inner a)) Q Hi H0 Hf ltac:(done) HP) as (fs & k' & Hst & Hu & HE & Hfs).
    rewrite Hst. cbn [mbind outcome_bind]. change (lm_start (with_active _ _)) with (area_start a). rewrite Hu. cbn [mbind outcome_bind].
    eexists _, k', g1, 1%nat, _. split; [done|]. split; [exact HE|]. rewrite decide_False by done. split; [|done]. split_and!; try done.
    unfold gone. cbn. unfold add64. autorewrite with wrap. f_equal. lia.
Qed.

(** The pages listed as [active] are in memory, each once. The list holds 16-bit numbers. *)
Definition active_ok a : Prop := area_end a - area_start a <= 65536 /\ NoDup (active (inner a)) /\
  forall idx, idx ∈ active (inner a) -> 0 <= idx /\ exists p, frames (inner a) !! Z.to_nat idx = Some (InMemory p).
(** The swap area takes [n] more pages. *)
Definition swap_room g (n : nat) : Prop := forall S, (size S < size (gS g) + n)%nat -> sroom S.

Lemma set_area_twice ms i a1 a2 pt : set_area (set_area ms i a1 pt) i a2 pt = set_area ms i a2 pt.
Proof. unfold set_area. cbn. by rewrite list_insert_insert_eq. Qed.

Definition pages_gone (count : LinearMap -> Z) (free : bool) k g ms rest i a (n m : nat) lm' k' g' : Prop :=
  evicted k g ms rest n m (set_area ms i (with_inner a lm') (page_table ms)) k' g' /\ wrap 64 (count lm') = wrap 64 (count (inner a) + Z.of_nat n) /\
  (if free then m = n else (m <= n)%nat) /\ (n <= length (active (inner a)))%nat /\ active lm' = [] /\ vpn_range lm' = vpn_range (inner a).

Lemma pop_active_ok count free one : (forall lm act, count (with_active lm act) = count lm) -> evicts count free one ->
  forall k g ms M rest i a, proc_ok k g ms M rest -> areas ms !! i = Some a -> active_ok a -> swap_room g (length (active (inner a))) ->
  exists lm' k' g' n m, pop_active (one (page_table ms)) (inner a) k = Ret (lm', k') /\ pages_gone count free k g ms rest i a n m lm' k' g'.
Proof.
  intros Hcount Hone k g ms M rest i a. unfold pop_active. remember (active (inner a)) as act eqn:Eact.
  revert k g ms M a Eact. induction act as [|idx act IH]; intros k g ms M a Eact Q Hi (Hlen & Hnd & Hact) Hroom.
  { exists (inner a), k, g, O, O. split; [done|]. split_and!; try done; [|by rewrite Z.add_0_r|by destruct free|lia].
    by apply (retag_ok k g ms M rest i a (inner a) Q Hi). }
  rewrite <- Eact in Hnd, Hact. apply NoDup_cons in Hnd as [Hni Hnd]. destruct (Hact idx ltac:(left)) as (H0 & p & Hf).
  destruct (Hone k g ms M rest i a act idx p Q Hi H0 Hf) as (lm1 & k1 & g1 & n1 & m1 & H1 & HE1 & (Ha1 & Hr1 & Hf1 & Hc1 & Hn1) & Hfree1); [apply Hroom; cbn; lia|].
  cbn [for_each]. rewrite <- Eact. cbn [tail]. rewrite H1. cbn [mbind outcome_bind].
  set (a1 := with_inner a lm1). set (ms1 := set_area ms i a1 (page_table ms)). pose proof HE1 as ([M1 Q1] & _ & _ & _ & HS1 & _).
  destruct (IH k1 g1 ms1 M1 a1) as (lm2 & k2 & g2 & n2 & m2 & H2 & HE2 & Hc2 & Hfree2 & Hn2 & Hend & Hr2).
  - done.
  - done.
  - apply list_lookup_insert_eq. by eapply lookup_lt_Some.
  - split; [unfold area_end, area_start, lm_start, lm_end in *; cbn; by rewrite Hr1|]. split; cbn; rewrite Ha1; [done|]. cbn. intros j Hj. destruct (Hact j ltac:(by right)) as (Hj0 & q & Hq). split; [done|]. exists q.
    rewrite Hf1; [done|]. assert (j <> idx) by (by intros ->). lia.
  - intros S HS. apply Hroom. cbn. lia.
  - change (page_table ms1) with (page_table ms) in H2. cbn in H2. rewrite H2. exists lm2, k2, g2, (n1 + n2)%nat, (m1 + m2)%nat. split; [done|].
    unfold ms1 in HE2. cbn in HE2. rewrite set_area_twice in HE2. split_and!; [by eapply evicted_trans| |by destruct free; lia| |done|by rewrite Hr2].
    + rewrite Hc2. cbn. rewrite <- (wrap_add_l _ (count lm1)), Hc1, Hcount. autorewrite with wrap. f_equal. lia.
    + cbn in Hn2. rewrite Ha1 in Hn2. cbn in Hn2. rewrite <- Eact. cbn. lia.
Qed.

(** ** Cleaning *)

(** An area is cleaned: [clean] reports the pages that left memory. *)
Definition cleans (free : bool) (pt : T) (clean : MapArea -> kmem -> outcome (Z * MapArea * kmem)) : Prop :=
  forall k g ms M rest i a, proc_ok k g ms M rest -> page_table ms = pt -> areas ms !! i = Some a -> active_ok a -> swap_room g (length (active (inner a))) ->
  exists a' k' g' n m, clean a k = Ret (wrap 64 (Z.of_nat n), a', k') /\ evicted k g ms rest n m (set_area ms i a' pt) k' g' /\
    (if free then m = n else (m <= n)%nat) /\ (n + length (active (inner a')) <= length (active (inner a)))%nat /\ active_ok a' /\ map_file a' = map_file a.

Lemma active_ok_empty a b : active_ok a -> vpn_range (inner b) = vpn_range (inner a) -> active (inner b) = [] -> active_ok b.
Proof.
  intros [Hl _] Er E. split; [unfold area_end, area_start, lm_start, lm_end in *; by rewrite Er|]. rewrite E. split; [constructor|by intros ? ?%not_elem_of_nil].
Qed.

Lemma active_ok_nil a lm : active_ok a -> active lm = [] -> vpn_range lm = vpn_range (inner a) -> active_ok (with_inner a lm).
Proof. intros Ha E Er. by apply (active_ok_empty a). Qed.

Lemma area_do_oom_ok pt : cleans true pt (fun a k => area_do_oom cfg a pt k).
Proof.
  intros k g ms M rest i a Q <- Hi Ha Hroom.
  destruct (pop_active_ok gone true (do_oom_one cfg) ltac:(done) do_oom_one_ok k g ms M rest i a Q Hi Ha Hroom) as (lm & k' & g' & n & m & H & HE & Hc & Hfree & Hn & Hend & Hr).
  exists (with_inner a lm), k', g', n, m. unfold area_do_oom. rewrite H. cbn [mbind outcome_bind]. split; [|split; [exact HE|split; [done|split; [cbn; rewrite Hend; cbn; lia|split; [by apply active_ok_nil|done]]]]].
  do 3 f_equal. unfold gone in Hc. unfold add64, sub64. autorewrite with wrap.
  rewrite Hc, <- Z.sub_add_distr. autorewrite with wrap. f_equal. lia.
Qed.

Lemma force_swap_ok pt : cleans false pt (fun a k => force_swap cfg a pt k).
Proof.
  intros k g ms M rest i a Q <- Hi Ha Hroom.
  destruct (pop_active_ok swapped false (force_swap_one cfg) ltac:(done) force_swap_one_ok k g ms M rest i a Q Hi Ha Hroom) as (lm & k' & g' & n & m & H & HE & Hc & Hfree & Hn & Hend & Hr).
  exists (with_inner a lm), k', g', n, m. unfold force_swap. rewrite H. cbn [mbind outcome_bind]. split; [|split; [exact HE|split; [done|split; [cbn; rewrite Hend; cbn; lia|split; [by apply active_ok_nil|done]]]]].
  do 3 f_equal. unfold sub64. rewrite <- wrap_sub_l, Hc. autorewrite with wrap. f_equal. lia.
Qed.

Lemma cleans_weaken pt clean free : cleans true pt clean -> cleans free pt clean.
Proof.
  destruct free; [done|]. intros Hc k g ms M rest i a Q Hp Hi Ha Hr.
  destruct (Hc k g ms M rest i a Q Hp Hi Ha Hr) as (a' & k' & g' & n & m & H & HE & -> & Hn & Ha' & Hf'). exists a', k', g', n, n. by split_and!.
Qed.

(** The pages that may leave. *)
Definition active_pages l : nat := sum_list ((fun a => length (active (inner a))) <$> l).

Lemma clean_areas_ok free pt sel clean : cleans free pt clean ->
  forall l pre k g ms M rest, proc_ok k g ms M rest -> page_table ms = pt -> areas ms = pre ++ l -> Forall active_ok l -> swap_room g (active_pages l) ->
  exists l' k' g' n m, clean_areas sel clean l k = Ret (wrap 64 (Z.of_nat n), l', k') /\ evicted k g ms rest n m (MkMS pt (pre ++ l')) k' g' /\
    (if free then m = n else (m <= n)%nat) /\ (n + active_pages l' <= active_pages l)%nat /\ Forall active_ok l' /\ map_file <$> l' = map_file <$> l.
Proof.
  intros Hclean l. induction l as [|a l IH]; intros pre k g ms M rest Q Hp El Hl Hroom.
  { exists [], k, g, O, O. split; [done|]. split_and!; [|by destruct free|done|done|done]. rewrite <- El, <- Hp. destruct ms. by eapply evicted_refl. }
  apply Forall_cons in Hl as [Ha Hl]. unfold active_pages in Hroom. cbn in Hroom. cbn [clean_areas]. destruct (sel a).
  - destruct (Hclean k g ms M rest (length pre) a Q Hp) as (a' & k1 & g1 & n1 & m1 & H1 & HE1 & Hfree1 & Hn1 & Ha' & Hf').
    { by rewrite El, list_lookup_middle. } { done. } { intros S HS. apply Hroom. lia. }
    rewrite H1. cbn [mbind outcome_bind]. pose proof HE1 as ([M1 Q1] & _ & _ & _ & HS1 & _).
    destruct (IH (pre ++ [a']) k1 g1 (set_area ms (length pre) a' pt) M1 rest Q1 eq_refl) as (l' & k2 & g2 & n2 & m2 & H2 & HE2 & Hfree2 & Hact2 & Hl' & Hfl'); [|done|..].
    { unfold set_area. cbn. rewrite El, insert_app_r_alt, Nat.sub_diag by lia. cbn. by rewrite <- app_assoc. }
    { intros S HS. apply Hroom. fold (active_pages l). lia. }
    rewrite H2. cbn [mbind outcome_bind]. exists (a' :: l'), k2, g2, (n1 + n2)%nat, (m1 + m2)%nat.
    split; [unfold add64; autorewrite with wrap; do 4 f_equal; lia|]. rewrite <- app_assoc in HE2.
    split_and!; [by eapply evicted_trans|by destruct free; lia|unfold active_pages in *; cbn; lia|by constructor|cbn; by rewrite Hf', Hfl'].
  - destruct (IH (pre ++ [a]) k g ms M rest Q Hp) as (l' & k2 & g2 & n2 & m2 & H2 & HE2 & Hfree2 & Hact2 & Hl' & Hfl'); [by rewrite El, <- app_assoc|done| |].
    { intros S HS. apply Hroom. fold (active_pages l). lia. }
    rewrite H2. cbn [mbind outcome_bind]. exists (a :: l'), k2, g2, n2, m2. rewrite <- app_assoc in HE2. split_and!; try done; [unfold active_pages in *; cbn; lia|by constructor|cbn; by rewrite Hfl'].
Qed.

(** Shallow cleaning frees as many frames as it reports. *)
Lemma shallow_clean_ok k g ms M rest : proc_ok k g ms M rest -> Forall active_ok (areas ms) -> swap_room g (active_pages (areas ms)) ->
  exists n ms' k' g', do_shallow_clean cfg ms k = Ret (wrap 64 (Z.of_nat n), ms', k') /\ evicted k g ms rest n n ms' k' g' /\ Forall active_ok (areas ms') /\
    (n + active_pages (areas ms') <= active_pages (areas ms))%nat.
Proof.
  intros Q Ha Hroom. unfold do_shallow_clean.
  destruct (clean_areas_ok true (page_table ms) (fun a => (Z.shiftr MMAP_BASE PAGE_SIZE_BITS <=? area_start a) && (area_start a <? Z.shiftr TASK_SIZE PAGE_SIZE_BITS) && anonymous a)
    _ (area_do_oom_ok (page_table ms)) (areas ms) [] k g ms M rest Q eq_refl eq_refl Ha Hroom) as (l' & k' & g' & n & m & H & HE & -> & Hact & Hl' & _).
  rewrite H. cbn [mbind outcome_bind]. by exists n, (MkMS (page_table ms) l'), k', g'.
Qed.

Lemma deep_clean_ok k g ms M rest : proc_ok k g ms M rest -> Forall active_ok (areas ms) -> swap_room g (active_pages (areas ms)) ->
  exists n m ms' k' g', do_deep_clean cfg ms k = Ret (wrap 64 (Z.of_nat n), ms', k') /\ evicted k g ms rest n m ms' k' g' /\ (m <= n)%nat /\ Forall active_ok (areas ms') /\
    (n + active_pages (areas ms') <= active_pages (areas ms))%nat.
Proof.
  intros Q Ha Hroom. unfold do_deep_clean.
  destruct (clean_areas_ok false (page_table ms) (fun a => (area_start a <? Z.shiftr TASK_SIZE PAGE_SIZE_BITS) && anonymous a)
    (fun a k => if area_start a <? Z.shiftr MMAP_BASE PAGE_SIZE_BITS then force_swap cfg a (page_table ms) k else area_do_oom cfg a (page_table ms) k))
    with (l := areas ms) (pre := @nil MapArea) (k := k) (g := g) (ms := ms) (M := M) (rest := rest) as (l' & k' & g' & n & m & H & HE & Hmn & Hact & Hl' & _); try done.
  - intros k0 g0 ms0 M0 rest0 i a Q0 E Hi. destruct (area_start a <? Z.shiftr MMAP_BASE PAGE_SIZE_BITS).
    + by apply (force_swap_ok (page_table ms) k0 g0 ms0 M0 rest0 i a Q0 E Hi).
    + by apply (cleans_weaken _ _ false (area_do_oom_ok (page_table ms)) k0 g0 ms0 M0 rest0 i a Q0 E Hi).
  - rewrite H. cbn [mbind outcome_bind]. by exists n, m, (MkMS (page_table ms) l'), k', g'.
Qed.

(** ** The list of active pages *)

Lemma active_ok_push a f p lm v : area_wf a -> active_ok a -> slot a v = Some f -> (forall q, f <> InMemory q) ->
  vpn_range lm = vpn_range (inner a) -> frames lm = <[Z.to_nat (v - area_start a) := InMemory p]> (frames (inner a)) ->
  active lm = active (inner a) ++ [wrap 16 (v ⊖ area_start a)] -> active_ok (with_inner a lm).
Proof.
  intros W (Hl & Hnd & Ha) Hs Hf Er Ef Ea. pose proof (slot_in _ _ _ Hs) as Hv. pose proof (page_index a v W Hv) as Hidx.
  change (lm_start (inner a)) with (area_start a) in Hidx. rewrite Hidx in Ea. unfold in_area in Hv.
  unfold slot in Hs. rewrite decide_True in Hs by done. rewrite wrap_small in Ea by (unfold in_range; lia).
  split; [unfold area_end, area_start, lm_start, lm_end in *; cbn; by rewrite Er|]. cbn. rewrite Ea, Ef. split.
  - apply NoDup_app. split; [done|]. split; [|apply NoDup_singleton]. intros x Hx ->%list_elem_of_singleton. destruct (Ha _ Hx) as (_ & q & Hq). rewrite Hs in Hq. naive_solver.
  - intros x [Hx| ->%list_elem_of_singleton]%elem_of_app; [|split; [lia|]; exists p; apply list_lookup_insert_eq; by eapply lookup_lt_Some].
    destruct (Ha x Hx) as (H0 & q & Hq). split; [done|]. exists q. rewrite list_lookup_insert_ne; [done|]. intros E. rewrite E in Hs. naive_solver.
Qed.

Lemma active_ok_alloc a lm v p : area_wf a -> active_ok a -> slot a v = Some Unallocated -> alloc_in_memory (inner a) v p = Ret lm -> active_ok (with_inner a lm).
Proof.
  intros W Ha Hs Hm. unfold alloc_in_memory in Hm. set (b := with_inner a (with_active (inner a) (active (inner a) ++ [wrap 16 (v ⊖ lm_start (inner a))]))) in *.
  assert (area_wf b) as Wb by (destruct W; by constructor). assert (slot b v = Some Unallocated) as Hb by exact Hs.
  change (with_active (inner a) _) with (inner b) in Hm. rewrite (lm_get_ok b v _ Wb Hb) in Hm. cbn [mbind outcome_bind insert_in_memory] in Hm.
  rewrite (lm_set_ok b v _ _ Wb Hb) in Hm. injection Hm as <-. by apply (active_ok_push a Unallocated p _ v).
Qed.

Lemma active_ok_remove a lm v p : area_wf a -> active_ok a -> slot a v = Some (InMemory p) -> remove_in_memory (inner a) v = Ret (Some p, lm) -> active_ok (with_inner a lm).
Proof.
  intros W (Hl & Hnd & Ha) Hs Hm. unfold remove_in_memory in Hm. 
  set (b := with_inner a (with_active (inner a) (filter (fun elem => elem <> v ⊖ lm_start (inner a)) (active (inner a))))).
  assert (area_wf b) as Wb by (destruct W; by constructor). assert (slot b v = Some (InMemory p)) as Hb by exact Hs.
  change (with_active (inner a) _) with (inner b) in Hm. rewrite (lm_get_ok b v _ Wb Hb) in Hm. cbn [mbind outcome_bind take_in_memory] in Hm.
  rewrite (lm_set_ok b v _ _ Wb Hb) in Hm. injection Hm as <-. pose proof (page_index a v W (slot_in _ _ _ Hs)) as Hidx. pose proof (slot_in _ _ _ Hs) as Hv. unfold in_area in Hv.
  split; [done|]. cbn. split; [by apply NoDup_filter|]. intros x [Hne Hx]%list_elem_of_filter. destruct (Ha x Hx) as (H0 & q & Hq). split; [done|].
  exists q. rewrite Hidx in Hne. change (area_start b) with (area_start a). rewrite list_lookup_insert_ne by lia. done.
Qed.

(** Inverts a computation that returned: names what each step returned. *)
Ltac bind_inv H :=
  repeat match type of H with
  | (_ ≫= _) = Ret _ => let x := fresh "x" in let E := fresh "E" in apply bind_ret_inv in H as (x & E & H)
  | (let '(_, _) := ?x in _) = Ret _ => destruct x
  end.

Lemma active_insert ms i a lm pt : Forall active_ok (areas ms) -> active_ok (with_inner a lm) -> Forall active_ok (areas (set_area ms i (with_inner a lm) pt)).
Proof. intros Hl Hl'. cbn. by apply Forall_insert. Qed.

Lemma cow_active a pt k v p r a' pt' k' : area_wf a -> active_ok a -> slot a v = Some (InMemory p) -> copy_on_write cfg a pt k v = Ret (r, a', pt', k') -> exists lm, a' = with_inner a lm /\ active_ok a'.
Proof.
  intros W Ha Hs Hc. unfold copy_on_write in Hc. destruct (remove_in_memory_ok a v p W Hs) as (lm1 & Hrm & Hr1). rewrite Hrm in Hc. cbn [mbind outcome_bind unwrap] in Hc.
  pose proof (active_ok_remove a lm1 v p W Ha Hs Hrm) as Ha1. pose proof (replaced_wf _ _ _ _ W Hr1) as W1.
  assert (slot (with_inner a lm1) v = Some Unallocated) as Hs1 by (rewrite (replaced_slot _ _ _ _ _ v W Hs Hr1); by rewrite decide_True).
  destruct (strong_count k (InMemory p) =? 1); bind_inv Hc.
  - pose proof (active_ok_alloc (with_inner a lm1) _ v _ W1 Ha1 Hs1 E) as Ha2. destruct (kflags pt k v (map_perm a)). bind_inv Hc. injection Hc as <- <- <- <-. by eexists.
  - pose proof (active_ok_alloc (with_inner a lm1) _ v _ W1 Ha1 Hs1 E1) as Ha2. injection Hc as <- <- <- <-. by eexists.
Qed.

Lemma anonymous_active k ms i a addr f r ms' k' : area_wf a -> slot a (addr_floor addr) = Some f -> (forall q, f <> InMemory q) -> Forall active_ok (areas ms) -> active_ok a ->
  anonymous_fault cfg ms k addr i a = Ret (r, ms', k') -> Forall active_ok (areas ms').
Proof.
  intros W Hs Hf Hl Ha Hc. unfold anonymous_fault in Hc. rewrite (lm_get_ok a _ f W Hs) in Hc. cbn [mbind outcome_bind] in Hc.
  destruct f as [q|z|s|]; [by destruct (Hf q)|..].
  - unfold unzip in Hc. bind_inv Hc. bind_inv E. injection E as <- <- <-. bind_inv Hc. injection Hc as <- <- <-.
    match goal with X : lm_set _ _ _ = Ret _ |- _ => rewrite (lm_set_ok a _ _ _ W Hs) in X; injection X as <- end. by eapply active_insert, active_ok_push.
  - unfold swap_in in Hc. bind_inv Hc. bind_inv E. injection E as <- <- <-. bind_inv Hc. injection Hc as <- <- <-.
    match goal with X : lm_set _ _ _ = Ret _ |- _ => rewrite (lm_set_ok a _ _ _ W Hs) in X; injection X as <- end. by eapply active_insert, active_ok_push.
  - unfold map_one_zeroed_unchecked in Hc. bind_inv Hc. bind_inv E. injection E as <- <- <- <-. injection Hc as <- <- <-.
    by eapply active_insert, active_ok_alloc.
Qed.

(** The fault handler keeps the list right. *)
Lemma fault_active k g ms M rest addr r ms' k' : proc_ok k g ms M rest -> Forall active_ok (areas ms) -> anon_at ms (addr_floor addr) ->
  do_page_fault cfg ms k addr = Ret (r, ms', k') -> Forall active_ok (areas ms').
Proof.
  intros Q Hl Hfl Hc. unfold do_page_fault in Hc. set (v := addr_floor addr) in *. destruct (position (fault_area v) (areas ms)) as [i|] eqn:Hpos; [|by injection Hc as <- <- <-].
  apply position_found in Hpos as (a & Hi & Hfa). rewrite Hi in Hc. cbn [mbind outcome_bind unwrap] in Hc. pose proof (list_elem_of_lookup_2 _ _ _ Hi) as Hin.
  pose proof (proj2 (proj1 (fault_area_spec _ _) Hfa)) as Hv. pose proof Q as [_ Q2 _ Q4]. pose proof (m_wf _ _ _ Q4 a Hin) as W.
  destruct (slot_some a v W Hv) as [f Hs]. pose proof (m_pages _ _ _ Q4 i a v f Hi Hs) as Hp. pose proof (proj1 (Forall_forall _ _) Hl a Hin) as Ha. pose proof (Hfl a Hin Hfa) as Hfile.
  unfold kmapped in Hc. rewrite (proj1 (pt_query_ok (page_table ms) (mem (wd k)) M v Q2 (aw_vpn _ W v Hv))), Hfile in Hc.
  destruct (in_memory_or f) as [[q ->]|Hf].
  - destruct Hp as (fl & HM & _). rewrite HM, bool_decide_true in Hc by done. cbn [negb] in Hc.
    destruct (MapPermission.contains (map_perm a) MapPermission.W); [|by injection Hc as <- <- <-]. bind_inv Hc.
    pose proof (cow_active a _ _ v q _ _ _ _ W Ha Hs E) as (lm & -> & Ha'). destruct r0; injection Hc as <- <- <-; by apply active_insert.
  - assert (M !! v = None) as HM by (destruct f; [by destruct (Hf ppn)|exact Hp..]).
    rewrite HM, bool_decide_false in Hc by (by intros []). cbn [negb] in Hc. by eapply (anonymous_active k ms i a addr f).
Qed.
End Reclaim.
