(* ===== verification/MemSystem.v ===== *)
(** * MemSystem: many processes on one memory

    The system is a list of memory sets on one kernel memory. A step of one process that
    keeps its own invariant and touches no frame of the others ([proc_step]) keeps the
    invariant of all of them, so what a process sees of its memory changes only by its own
    stores: a page fault of one process is invisible to every other, and a store goes to a
    page that nobody else holds. *)
From S2P Require Import Prelude AllocSpec Address FrameAlloc Bytes PageTable PageStore Trackers MapArea Pid MemorySet AddressSpace.
Import StackFrameAllocator.

Section MemSystem.
Context {cfg : config} {base limit : Z} {ZS SS T F : Type} `{!PageStore ZS} `{!PageStore SS} `{!PageTable T} `{!MapFile F}.
Context {zrep : ZS -> gmap Z (list Z) -> Prop} {zroom : gmap Z (list Z) -> Prop} `{!PageStoreOk ZS zrep zroom}.
Context {srep : SS -> gmap Z (list Z) -> Prop} {sroom : gmap Z (list Z) -> Prop} `{!PageStoreOk SS srep sroom}.
Context {vpn_ok ppn_ok : Z -> Prop} {rep : T -> pmem -> gmap Z (Z * Z) -> Prop} `{!PageTableOk T base limit vpn_ok ppn_ok rep}.
#[local] Notation kmem := (@kmem ZS SS).
#[local] Notation MapArea := (@MapArea F).
#[local] Notation MemorySet := (@MemorySet T F).
#[local] Notation kok := (kok base limit zrep srep).
#[local] Notation proc_ok := (proc_ok (base := base) (limit := limit) (zrep := zrep) (srep := srep) (vpn_ok := vpn_ok) (rep := rep)).
#[local] Notation ms_ok := (ms_ok (vpn_ok := vpn_ok)).
Implicit Types (k : kmem) (g : ghost) (H R rest extra : list Frame) (M : gmap Z (Z * Z)) (ms : MemorySet) (ps : list (MemorySet * gmap Z (Z * Z))).

(** ** Systems of processes *)

Definition trackers ps : list Frame := mjoin ((fun pr => slots (areas pr.1)) <$> ps).
(** [extra] are the trackers that page caches and the kernel hold. *)
Record sys_ok k g ps extra : Prop := {
  y_proc : forall i ms M, ps !! i = Some (ms, M) -> proc_ok k g ms M (trackers (delete i ps) ++ extra);
  y_tables : forall i j p1 p2 x, ps !! i = Some p1 -> ps !! j = Some p2 ->
    x ∈ pt_tables (page_table p1.1) -> x ∈ pt_tables (page_table p2.1) -> i = j;
}.

Lemma trackers_cons pr ps : trackers (pr :: ps) = slots (areas pr.1) ++ trackers ps.
Proof. done. Qed.
#[global] Instance trackers_perm : Proper ((≡ₚ) ==> (≡ₚ)) trackers.
Proof. intros l1 l2 E. unfold trackers. by rewrite E. Qed.
Lemma trackers_split ps i pr : ps !! i = Some pr -> trackers ps ≡ₚ slots (areas pr.1) ++ trackers (delete i ps).
Proof. intros Hi. etrans; [apply trackers_perm, (delete_Permutation ps i pr Hi)|]. by rewrite trackers_cons. Qed.
Lemma trackers_update ps i pr pr' : ps !! i = Some pr -> trackers (<[i := pr']> ps) ≡ₚ slots (areas pr'.1) ++ trackers (delete i ps).
Proof. intros Hi. etrans; [apply trackers_perm, (insert_Permutation ps i pr pr' Hi)|]. by rewrite trackers_cons. Qed.

Lemma sys_kok k g ps extra i ms M : sys_ok k g ps extra -> ps !! i = Some (ms, M) -> kok k (trackers ps ++ extra) g.
Proof. intros Y Hi. rewrite (trackers_split ps i _ Hi), <- app_assoc. apply (y_proc _ _ _ _ Y i ms M Hi). Qed.

(** The trackers that another process holds are among the rest. *)
Lemma trackers_other ps i j pr1 pr2 f : ps !! i = Some pr1 -> ps !! j = Some pr2 -> i <> j -> f ∈ slots (areas pr2.1) ->
  f ∈ trackers (delete i ps).
Proof.
  intros Hi Hj Hne Hf. assert (exists j', delete i ps !! j' = Some pr2) as [j' Hj'].
  { destruct (decide (j < i)%nat); [exists j; by rewrite list_lookup_delete_lt|].
    exists (j - 1)%nat. rewrite list_lookup_delete_ge by lia. rewrite <- Hj. f_equal. lia. }
  rewrite (trackers_split _ j' pr2 Hj'). apply elem_of_app. by left.
Qed.

(** The rest of process [j] after a step of process [i]. *)
Lemma ms_ok_others ms M H H' : ms_ok (areas ms) M H -> (forall p, InMemory p ∈ slots (areas ms) -> occ (InMemory p) H = 1 -> occ (InMemory p) H' = 1) ->
  ms_ok (areas ms) M H'.
Proof.
  intros [M1 M2 M3 M4] HH. constructor; try done. intros i a v f Hi Hs. specialize (M3 i a v f Hi Hs).
  destruct f; try done. destruct M3 as (fl & ? & ? & Hw). exists fl. split_and!; try done. intros Hfl. apply HH; [|auto].
  by eapply slot_elem.
Qed.

Lemma proc_ok_perm k g ms M rest rest' : rest ≡ₚ rest' -> proc_ok k g ms M rest -> proc_ok k g ms M rest'.
Proof.
  intros E [Q1 Q2 Q3 Q4]. constructor; try done; [by rewrite <- E|]. eapply ms_ok_perm; [|exact Q4]. by rewrite E.
Qed.

Lemma system_step k g ps extra extra' i ms M k' g' ms' M' : sys_ok k g ps extra -> ps !! i = Some (ms, M) ->
  proc_ok k' g' ms' M' (trackers (delete i ps) ++ extra') -> proc_step k g ms (trackers (delete i ps) ++ extra) k' g' ms' ->
  (forall p, InMemory p ∈ trackers (delete i ps) -> InMemory p ∉ slots (areas ms) -> occ (InMemory p) extra' = occ (InMemory p) extra) ->
  sys_ok k' g' (<[i := (ms', M')]> ps) extra' /\
  (forall j ms2 M2 v, j <> i -> ps !! j = Some (ms2, M2) -> view ms2 k' g' v = view ms2 k g v).
Proof.
  intros Y Hi Q' St Hextra. pose proof (y_proc _ _ _ _ Y i ms M Hi) as Q.
  assert (i < length ps)%nat as Hil by (by eapply lookup_lt_Some). split; [constructor|].
  - intros j ms2 M2 Hj. apply list_lookup_insert_Some in Hj as [(-> & [= <- <-] & _)|[Hne Hj]].
    { by rewrite delete_insert_same. }
    pose proof (y_proc _ _ _ _ Y j ms2 M2 Hj) as Qj.
    assert (slots (areas ms2) ++ trackers (delete j (<[i := (ms', M')]> ps)) ++ extra' ≡ₚ slots (areas ms') ++ trackers (delete i ps) ++ extra') as EH.
    { rewrite !app_assoc. rewrite <- (trackers_split _ j (ms2, M2)) by (by rewrite list_lookup_insert_ne). by rewrite (trackers_update ps i _ (ms', M') Hi). }
    assert (slots (areas ms2) ++ trackers (delete j ps) ++ extra ≡ₚ slots (areas ms) ++ trackers (delete i ps) ++ extra) as EH0.
    { rewrite !app_assoc. rewrite <- (trackers_split _ j (ms2, M2) Hj). by rewrite (trackers_split ps i _ Hi). }
    constructor; [rewrite EH; apply Q'| | |].
    + eapply pt_local; [apply Qj|]. intros x n Hx. apply (s_others _ _ _ _ _ _ _ St); [by apply (q_tables _ _ _ _ _ Qj)|].
      intros Hx'. apply Hne. exact (y_tables _ _ _ _ Y i j _ _ x Hi Hj Hx' Hx).
    + intros x Hx. apply (s_grow _ _ _ _ _ _ _ St), (q_tables _ _ _ _ _ Qj x Hx).
    + eapply ms_ok_perm; [symmetry; exact EH|]. eapply ms_ok_others; [apply Qj|]. intros p Hp. rewrite EH0, !occ_app.
      pose proof (trackers_other ps i j _ _ (InMemory p) Hi Hj ltac:(done) Hp) as Hin. pose proof (proj2 (occ_pos _ _) Hin) as Hpos. intros Ho.
      pose proof (occ_nonneg (InMemory p) (slots (areas ms))). pose proof (occ_nonneg (InMemory p) extra).
      assert (InMemory p ∉ slots (areas ms)) as Hn by (intros ?%occ_pos; lia). rewrite (Hextra p Hin Hn).
      rewrite (occ_not_in _ (slots (areas ms'))); [lia|]. intros Hs. apply Hn, (s_slots _ _ _ _ _ _ _ St p Hs). apply elem_of_app. by left.
  - assert (forall j pr x, j <> i -> ps !! j = Some pr -> x ∈ pt_tables (page_table pr.1) -> x ∈ pt_tables (page_table ms') -> False) as Hnew.
    { intros j [ms2 M2] x Hne Hj Hx Hx'. apply (s_tables _ _ _ _ _ _ _ St) in Hx'; [|by apply (q_tables _ _ _ _ _ (y_proc _ _ _ _ Y j _ _ Hj))].
      apply Hne. exact (y_tables _ _ _ _ Y j i _ _ x Hj Hi Hx Hx'). }
    intros j1 j2 p1 p2 x H1 H2 Hx1 Hx2.
    apply list_lookup_insert_Some in H1 as [(<- & <- & _)|[N1 H1]], H2 as [(<- & <- & _)|[N2 H2]]; [done|exfalso; by eapply (Hnew j2)..| |].
    + exfalso. by eapply (Hnew j1).
    + by eapply (y_tables _ _ _ _ Y).
  - intros j ms2 M2 v Hne Hj. unfold view. destruct (slot_of (areas ms2) v) as [f|] eqn:E; [|done]. cbn. f_equal.
    apply (s_rest _ _ _ _ _ _ _ St). apply elem_of_app. left. apply slot_of_elem in E as (n & b & Hn & Hb).
    eapply trackers_other; [exact Hi|exact Hj|done|]. by eapply slot_elem.
Qed.

Lemma delete_app_lt {A} (l1 l2 : list A) i : (i < length l1)%nat -> delete i (l1 ++ l2) = delete i l1 ++ l2.
Proof. intros Hi. rewrite !delete_take_drop, take_app_le, drop_app_le by lia. by rewrite app_assoc. Qed.

(** A process joins: its trackers were counted as extra ones. *)
Lemma system_join k g ps extra ms2 M2 : sys_ok k g ps (slots (areas ms2) ++ extra) -> proc_ok k g ms2 M2 (trackers ps ++ extra) ->
  (forall j pr x, ps !! j = Some pr -> x ∈ pt_tables (page_table pr.1) -> x ∉ pt_tables (page_table ms2)) -> sys_ok k g (ps ++ [(ms2, M2)]) extra.
Proof.
  intros Y Q2 Ht. assert (forall l, trackers (l ++ [(ms2, M2)]) = trackers l ++ slots (areas ms2)) as Esnoc.
  { intros l. unfold trackers. rewrite fmap_app, join_app. cbn. by rewrite app_nil_r. }
  assert (forall j pr, (ps ++ [(ms2, M2)]) !! j = Some pr -> ps !! j = Some pr \/ (j = length ps /\ pr = (ms2, M2))) as Hlk.
  { intros j pr [Hj|[Hge Hj]]%lookup_app_Some; [by left|right]. apply list_lookup_singleton_Some in Hj as [? <-]. split; [lia|done]. }
  constructor.
  - intros j ms M [Hj|[-> [= -> ->]]]%Hlk.
    + rewrite delete_app_lt by (by eapply lookup_lt_Some). rewrite Esnoc, <- app_assoc. by apply (y_proc _ _ _ _ Y).
    + by rewrite delete_middle, app_nil_r.
  - intros j1 j2 p1 p2 x [H1|[-> ->]]%Hlk [H2|[-> ->]]%Hlk Hx1 Hx2; [by eapply (y_tables _ _ _ _ Y)| | |done].
    + by destruct (Ht j1 p1 x H1 Hx1).
    + by destruct (Ht j2 p2 x H2 Hx2).
Qed.

(** ** Stores *)

(** A store of byte [b] by the processor: it needs a valid, writable page. *)
Definition user_store ms k (addr b : Z) : option kmem :=
  let v := addr_floor addr in
  match pt_writable (page_table ms) (mem (wd k)) v, pt_translate (page_table ms) (mem (wd k)) v with
  | Some true, Some p => Some (set_bytes_array k p (<[Z.to_nat (page_offset addr) := b]> (get_bytes_array k p)))
  | _, _ => None
  end.

Lemma bytes_ok_insert bs n b : bytes_ok bs -> byte_ok b -> bytes_ok (<[n := b]> bs).
Proof.
  intros [Hl Hb] H. split; [by rewrite length_insert|]. apply Forall_forall. intros x [j Hj]%list_elem_of_lookup.
  rewrite Forall_forall in Hb. apply list_lookup_insert_Some in Hj as [(_ & <- & _)|[_ Hj]]; [done|]. by eapply Hb, list_elem_of_lookup_2.
Qed.

(** A writable page belongs to an area and to nobody else. *)
Lemma writable_alone k g ms M rest v p fl : proc_ok k g ms M rest -> vpn_ok v -> M !! v = Some (p, fl) ->
  MapPermission.contains fl MapPermission.W = true ->
  exists i a, areas ms !! i = Some a /\ slot a v = Some (InMemory p) /\
    InMemory p ∉ others (areas ms) i (Z.to_nat (v - area_start a)) a ++ rest.
Proof.
  intros Q Hv HM Hw. destruct (m_user _ _ _ (q_ms _ _ _ _ _ Q) v p fl Hv HM Hw) as (i & a & Hi & Hva).
  pose proof (m_wf _ _ _ (q_ms _ _ _ _ _ Q) a (list_elem_of_lookup_2 _ _ _ Hi)) as W.
  destruct (slot_some a v W Hva) as [f Hs]. destruct (proc_split k g ms M rest i a v f Q Hi Hs) as (_ & _ & _ & Hp).
  exists i, a. split; [done|]. unfold page_at in Hp. destruct f as [q| | |]; [|congruence..]. destruct Hp as (fl' & HM' & _ & Ho).
  rewrite HM in HM'. injection HM' as <- <-. split; [done|]. specialize (Ho Hw). rewrite occ_cons, decide_True in Ho by done.
  rewrite <- occ_pos. lia.
Qed.

(** New contents for a page that nobody else holds. *)
Lemma page_store_ok k g ms M rest i a v p bs : proc_ok k g ms M rest -> areas ms !! i = Some a -> slot a v = Some (InMemory p) ->
  InMemory p ∉ others (areas ms) i (Z.to_nat (v - area_start a)) a ++ rest -> bytes_ok bs ->
  let k' := set_bytes_array k p bs in
  proc_ok k' g ms M rest /\ proc_step k g ms rest k' g ms /\
  (forall u, view ms k' g u = if decide (u = v) then Some bs else view ms k g u).
Proof.
  intros Q Hi Hs Hn Hb k'. pose proof Q as [Q1 Q2 Q3 Q4]. destruct (proc_split k g ms M rest i a v _ Q Hi Hs) as (K & W & _).
  assert (same_contents k g k' g (others (areas ms) i (Z.to_nat (v - area_start a)) a ++ rest)) as Hc by by apply set_bytes_contents.
  assert (forall x j, x ∈ gO g -> mem (wd k') x j = mem (wd k) x j) as Hm.
  { intros x j Hx. apply mem_set_bytes_other. intros ->. apply (k_own _ _ _ _ _ _ _ K p); [left|done]. }
  split; [|split].
  - constructor; try done; [by apply set_bytes_ok|]. eapply pt_local; [exact Q2|]. intros x j Hx. by apply Hm, Q3.
  - constructor; try done; [intros f Hf; apply Hc; set_solver|by intros; apply Hm].
  - intros u. unfold view. case_decide as D; [subst u|].
    + rewrite (slot_of_lookup _ i a v (m_disj _ _ _ Q4) Hi (slot_in _ _ _ Hs)), Hs. cbn. f_equal. by apply set_bytes_same.
    + destruct (slot_of (areas ms) u) as [h|] eqn:E; [|done]. cbn. f_equal. apply Hc. apply elem_of_app. left.
      apply slot_of_elem in E as (j & c & Hj & Hc'). apply (slot_others (vpn_ok := vpn_ok) (areas ms) i a v j c u h); try done; [apply Q4|by eapply slot_in].
Qed.

Lemma user_store_ok k g ms M rest addr b k' : proc_ok k g ms M rest -> vpn_ok (addr_floor addr) -> byte_ok b -> user_store ms k addr b = Some k' ->
  proc_ok k' g ms M rest /\ proc_step k g ms rest k' g ms /\
  (forall u, view ms k' g u = if decide (u = addr_floor addr) then <[Z.to_nat (page_offset addr) := b]> <$> view ms k g u else view ms k g u).
Proof.
  intros Q Hv Hb Hst. set (v := addr_floor addr) in *. unfold user_store in Hst. fold v in Hst.
  destruct (pt_query_ok (page_table ms) (mem (wd k)) M v (q_pt _ _ _ _ _ Q) Hv) as (_ & Ht & Hw). rewrite Ht, Hw in Hst.
  destruct (M !! v) as [[p fl]|] eqn:HM; [|done]. cbn in Hst. destruct (MapPermission.contains fl MapPermission.W) eqn:Hfl; [|done].
  destruct (writable_alone k g ms M rest v p fl Q Hv HM Hfl) as (i & a & Hi & Hs & Hn). injection Hst as <-.
  destruct (page_store_ok k g ms M rest i a v p (<[Z.to_nat (page_offset addr) := b]> (get_bytes_array k p)) Q Hi Hs Hn) as (Q' & St & Hview);
    [apply bytes_ok_insert; [apply page_bytes_ok|done]|].
  split; [done|]. split; [done|]. intros u. rewrite Hview. case_decide as D; [subst u|done]. unfold view.
  by rewrite (slot_of_lookup _ i a v (m_disj _ _ _ (q_ms _ _ _ _ _ Q)) Hi (slot_in _ _ _ Hs)), Hs.
Qed.

(** ** New processes *)

Lemma new_bare_ok k g H : kok k H g -> Z.of_nat (size (gL g)) < limit - base ->
  exists pt k' g', new_bare k = Ret (MkMS pt [] : MemorySet, k') /\ Z.of_nat (size (gL g')) <= Z.of_nat (size (gL g)) + 1 /\
    kok k' H g' /\ rep pt (mem (wd k')) ∅ /\ (forall x, x ∈ pt_tables pt -> x ∈ gO g' /\ x ∉ gL g) /\ gO g ⊆ gO g' /\ gL g ⊆ gL g' /\
    same_contents k g k' g' H /\ (forall q j, q ∈ gL g -> mem (wd k') q j = mem (wd k) q j).
Proof.
  intros K Hsz. destruct (pt_new_ok (wd k) (gL g) (k_fa _ _ _ _ _ _ _ K) Hsz) as (pt & w' & Hn & L' & Hfa & Hsub & HL & Hs & _ & Hnew & Hrep' & Hmem).
  assert (forall q j, q ∈ gL g -> mem w' q j = mem (wd k) q j) as Hm by (intros q j Hq; apply Hmem; [done|by intros ?%not_elem_of_nil]).
  unfold new_bare. rewrite Hn. cbn [mbind outcome_bind]. exists pt, (with_wd k w'), (Ghost L' (gO g ∪ (L' ∖ gL g)) (gZ g) (gS g)).
  split; [done|]. split; [exact Hs|]. split; [by apply (kok_tables k _ g w' L')|]. split; [done|]. split; [|split; [apply union_subseteq_l|split; [done|split; [|done]]]].
  - intros x Hx. destruct (Hnew x Hx) as [HxL [Hx0|Hx0]]; [by apply not_elem_of_nil in Hx0|]. split; [|done]. cbn. rewrite elem_of_union, elem_of_difference. by right.
  - apply (contents_tables k _ g _ _ K); try done. intros q j Hq _. by apply Hm.
Qed.

(** A process whose pages are not allocated yet. *)
Lemma lazy_process_ok k g rest (l : list MapArea) : kok k rest g -> Z.of_nat (size (gL g)) < limit - base -> (forall a, a ∈ l -> area_wf (vpn_ok := vpn_ok) a) ->
  disjoint_areas l -> (forall f, f ∈ slots l -> f = Unallocated) ->
  exists pt k' g', new_bare k = Ret (MkMS pt [] : MemorySet, k') /\ proc_ok k' g' (MkMS pt l) ∅ rest.
Proof.
  intros K Hsz Hwf Hd Hun. destruct (new_bare_ok k g rest K Hsz) as (pt & k' & g' & Hn & _ & K' & Hrep & Ht & _). exists pt, k', g'. split; [done|]. constructor; try done.
  - eapply kok_ext; [|exact K']. intros f Hf. cbn [areas]. rewrite occ_app, (occ_not_in f (slots l)); [done|]. intros Hin. by apply Hf, Hun.
  - intros x Hx. by apply Ht.
  - constructor; try done.
    intros i a v f Hi Hs. rewrite (Hun f) by by eapply slot_elem. apply lookup_empty.
Qed.
End MemSystem.
