(* ===== verification/Fork.v ===== *)
(** * Fork: a child that shares its parent's pages (os/src/mm/memory_set.rs, [from_existing_user])

    Fork copies no page but that of the trap context: the child holds the trackers of its
    parent's pages, and both page tables map them without write permission. This file
    shows that it succeeds when there are enough frames, that parent and child see the
    memory the parent saw, that no other process notices, and that the system invariant
    holds for the process that joins. *)
From S2P Require Import Prelude AllocSpec Address FrameAlloc Bytes PageTable PageStore Trackers MapArea Pid MemorySet AddressSpace MemSystem.
Import StackFrameAllocator.

(** ** Permissions without writing *)
Lemma difference_not_writable perm : MapPermission.contains (MapPermission.difference perm MapPermission.W) MapPermission.W = false.
Proof. unfold MapPermission.contains, MapPermission.difference. rewrite <- Z.land_assoc. cbn. rewrite Z.land_0_r. done. Qed.
Lemma difference_ok perm : MapPermission.ok perm -> MapPermission.ok (MapPermission.difference perm MapPermission.W).
Proof. unfold MapPermission.ok, MapPermission.difference. intros E. rewrite <- Z.land_assoc, (Z.land_comm _ 0x1e), Z.land_assoc. by rewrite E. Qed.
Lemma difference_idem perm : MapPermission.difference (MapPermission.difference perm MapPermission.W) MapPermission.W = MapPermission.difference perm MapPermission.W.
Proof. unfold MapPermission.difference. by rewrite <- Z.land_assoc. Qed.

Section Fork.
Context {cfg : config} {base limit : Z} {ZS SS T F : Type} `{!PageStore ZS} `{!PageStore SS} `{!PageTable T} `{!MapFile F}.
Context {zrep : ZS -> gmap Z (list Z) -> Prop} {zroom : gmap Z (list Z) -> Prop} `{!PageStoreOk ZS zrep zroom}.
Context {srep : SS -> gmap Z (list Z) -> Prop} {sroom : gmap Z (list Z) -> Prop} `{!PageStoreOk SS srep sroom}.
Context {vpn_ok ppn_ok : Z -> Prop} {rep : T -> pmem -> gmap Z (Z * Z) -> Prop} `{!PageTableOk T base limit vpn_ok ppn_ok rep}.
#[local] Notation kmem := (@kmem ZS SS).
#[local] Notation MapArea := (@MapArea F).
#[local] Notation MemorySet := (@MemorySet T F).
#[local] Notation kok := (kok base limit zrep srep).
#[local] Notation proc_ok := (proc_ok (base := base) (limit := limit) (zrep := zrep) (srep := srep) (vpn_ok := vpn_ok) (rep := rep)).
#[local] Notation area_wf := (area_wf (vpn_ok := vpn_ok)).
#[local] Notation ms_ok := (ms_ok (vpn_ok := vpn_ok)).
Implicit Types (k : kmem) (g : ghost) (H R rest : list Frame) (M Ms Md : gmap Z (Z * Z)) (l : list MapArea) (a : MapArea) (ms : MemorySet).

(** ** Sharing pages *)

Definition blocked (e : Z * Z) : Z * Z := (e.1, MapPermission.difference e.2 MapPermission.W).

(** Half-way through a fork of [ms]: [H] are all trackers, [Ms] is what the parent maps and
    [Md] what the child does. *)
Record fork_mem k0 g0 ms rest H k g (dst : T) Ms Md : Prop := {
  f_k : kok k H g;
  f_src : rep (page_table ms) (mem (wd k)) Ms;
  f_dst : rep dst (mem (wd k)) Md;
  f_srct : forall x, x ∈ pt_tables (page_table ms) -> x ∈ gO g0;
  f_dstt : forall x, x ∈ pt_tables dst -> x ∈ gO g /\ x ∉ gL g0;
  f_O : gO g0 ⊆ gO g;
  f_L : gL g0 ⊆ gL g;
  f_OL : gO g0 ⊆ gL g0;
  f_hold : slots (areas ms) ++ rest ⊆ H;
  f_c : same_contents k0 g0 k g (slots (areas ms) ++ rest);
  f_m : forall q j, q ∈ gO g0 -> q ∉ pt_tables (page_table ms) -> mem (wd k) q j = mem (wd k0) q j;
}.

(** The child maps a page. *)
Lemma fork_mem_map k0 g0 ms rest H k g dst Ms Md v p fl : fork_mem k0 g0 ms rest H k g dst Ms Md ->
  Z.of_nat (size (gL g)) + 1 < limit - base -> vpn_ok v -> ppn_ok p -> MapPermission.ok fl -> Md !! v = None ->
  exists dst' k' g', kmap dst k v p fl = Ret (dst', k') /\ Z.of_nat (size (gL g')) <= Z.of_nat (size (gL g)) + 2 /\ gL g ⊆ gL g' /\
    same_contents k g k' g' H /\ fork_mem k0 g0 ms rest H k' g' dst' Ms (<[v := (p, fl)]> Md).
Proof.
  intros [] Hsz Hv Hp Hfl HM.
  destruct (kmap_ok k H g dst Md v p fl f_k0 f_dst0 (fun x Hx => proj1 (f_dstt0 x Hx)) Hsz Hv Hp Hfl HM)
    as (dst' & k' & g' & Hm & K' & Hrep & Hc & Ht & HO & HL & Hmem & Hsz' & _ & _).
  assert (forall q j, q ∈ gO g0 -> mem (wd k') q j = mem (wd k) q j) as Hq.
  { intros q j Hq. apply Hmem; [by apply f_L0, f_OL0|]. intros Hqd. by apply (f_dstt0 q Hqd), f_OL0. }
  exists dst', k', g'. split; [done|]. split; [done|]. split; [done|]. split; [done|]. constructor; try done.
  - eapply pt_local; [exact f_src0|]. intros; by apply Hq, f_srct0.
  - intros x Hx. destruct (Ht x Hx) as [HxO [Hx'|Hx']]; [|by split; [|intros ?; apply Hx', f_L0]]. split; [done|]. by apply f_dstt0.
  - intros x Hx. by apply HO, f_O0.
  - intros x Hx. by apply HL, f_L0.
  - eapply same_contents_trans; [exact f_c0|]. by eapply same_contents_sub.
  - intros q j Hqo Hqt. rewrite Hq by done. by apply f_m0.
Qed.

(** The parent loses write access. *)
Lemma fork_mem_block k0 g0 ms rest H k g dst Ms Md v : fork_mem k0 g0 ms rest H k g dst Ms Md -> vpn_ok v ->
  exists w1, pt_block_and_ret_mut (page_table ms) (wd k) v = (fst <$> Ms !! v, w1) /\
    fork_mem k0 g0 ms rest H (with_wd k w1) g dst (alter blocked v Ms) Md.
Proof.
  intros [] Hv. assert (pt_at rep base limit (page_table ms) (wd k) (gL g) Ms) as Hat by (eapply pt_at_intro; [done|done|]; intros x Hx; by apply f_O0, f_srct0).
  destruct (pt_block_ok (page_table ms) (wd k) (gL g) Ms v Hat Hv) as (w1 & Hb & Hch). exists w1. split; [done|].
  destruct (table_changed k H g (page_table ms) _ w1 f_k0 ltac:(intros x Hx; by apply f_O0, f_srct0) Hch) as (K1 & Hrep1 & Hc1 & Hm1).
  constructor; try done.
  - eapply pt_local; [exact f_dst0|]. intros q j Hq. apply Hm1. intros Hq'. by apply (f_dstt0 q Hq), f_OL0, f_srct0.
  - eapply same_contents_trans; [exact f_c0|]. by eapply same_contents_sub.
  - intros q j Hq Hqt. rewrite Hm1 by done. by apply f_m0.
Qed.

(** The child takes the trackers of an area. *)
Lemma clone_frames_ok fs : forall k H g, fs ⊆ H -> kok k H g ->
  kok (clone_frames k fs) (fs ++ H) g /\ wd (clone_frames k fs) = wd k /\ zram (clone_frames k fs) = zram k /\ swap (clone_frames k fs) = swap k.
Proof.
  induction fs as [|f fs IH]; intros k H g Hs K; [done|]. cbn [clone_frames foldl]. fold (clone_frames (arc_clone k f) fs).
  assert (kok (arc_clone k f) (f :: H) g) as K1 by (apply arc_clone_ok; [done|left; apply Hs; left]).
  destruct (IH (arc_clone k f) (f :: H) g) as (K2 & E1 & E2 & E3); [intros h Hh; right; apply Hs; by right|done|].
  rewrite E1, E2, E3. split; [|by destruct f]. eapply kok_perm; [|reflexivity|exact K2]. cbn. apply Permutation_middle.
Qed.
Lemma fork_mem_clone k0 g0 ms rest H k g dst Ms Md fs : fork_mem k0 g0 ms rest H k g dst Ms Md -> fs ⊆ H ->
  fork_mem k0 g0 ms rest (fs ++ H) (clone_frames k fs) g dst Ms Md.
Proof.
  intros [] Hs. destruct (clone_frames_ok fs k H g Hs f_k0) as (K & E & _). constructor; rewrite ?E; try done; [set_solver|].
  intros h Hh. rewrite <- f_c0 by done. destruct h; try done. cbn. unfold get_bytes_array. by rewrite E.
Qed.

(** The pages in [D] are shared; [perm] are the permissions of their areas and [Md0] is
    what the child maps besides. *)
Definition shared_pages M (perm : Z -> Z) (Md0 : gmap Z (Z * Z)) (D : gset Z) Ms Md : Prop :=
  (forall v, Ms !! v = if decide (v ∈ D) then blocked <$> M !! v else M !! v) /\
  (forall v, Md !! v = if decide (v ∈ D) then (fun e => (e.1, MapPermission.difference (perm v) MapPermission.W)) <$> M !! v else Md0 !! v).

Lemma shared_pages_add M perm Md0 D Ms Md v : shared_pages M perm Md0 D Ms Md -> v ∉ D -> Md0 !! v = None ->
  shared_pages M perm Md0 ({[v]} ∪ D) (alter blocked v Ms)
    (match M !! v with Some (p, _) => <[v := (p, MapPermission.difference (perm v) MapPermission.W)]> Md | None => Md end).
Proof.
  intros [H1 H2] Hv Hv0. split; intros u; (destruct (decide (u = v)) as [->|Hne]; [|rewrite (decide_ext (u ∈ {[v]} ∪ D) (u ∈ D)) by set_solver]).
  - rewrite lookup_alter_eq, H1, decide_False, decide_True by set_solver. done.
  - by rewrite lookup_alter_ne.
  - rewrite decide_True by set_solver. destruct (M !! v) as [[p fl]|] eqn:E; [by rewrite lookup_insert_eq|]. by rewrite H2, decide_False.
  - rewrite <- H2. destruct (M !! v) as [[p fl]|]; [|done]. by rewrite lookup_insert_ne.
Qed.

(** One turn of the loop. *)
Definition fork_page (src : T) (perm : Z) (vpn : Z) '((dst, k) : T * kmem) : outcome (Result unit unit * (T * kmem)) :=
  let '(o, w1) := pt_block_and_ret_mut src (wd k) vpn in
  let k1 := with_wd k w1 in
  match o with
  | Some ppn => if negb (kmapped dst k1 vpn) then '(dst', k2) ← kmap dst k1 vpn ppn perm; Ret (Ok tt, (dst', k2)) else Ret (Err tt, (dst, k1))
  | None => Ret (Ok tt, (dst, k1))
  end.

Lemma fork_page_ok k0 g0 ms M rest perm Md0 H D k g dst Ms Md v fl : fork_mem k0 g0 ms rest H k g dst Ms Md -> shared_pages M perm Md0 D Ms Md ->
  vpn_ok v -> v ∉ D -> Md0 !! v = None -> perm v = fl -> MapPermission.ok fl ->
  (forall e, M !! v = Some e -> ppn_ok e.1) -> Z.of_nat (size (gL g)) + 1 < limit - base ->
  exists dst' k' g' Ms' Md', fork_page (page_table ms) (MapPermission.difference fl MapPermission.W) v (dst, k) = Ret (Ok tt, (dst', k')) /\
    Z.of_nat (size (gL g')) <= Z.of_nat (size (gL g)) + 2 /\
    fork_mem k0 g0 ms rest H k' g' dst' Ms' Md' /\ shared_pages M perm Md0 ({[v]} ∪ D) Ms' Md'.
Proof.
  intros FK SP Hv HvD Hv0 <- Hok Hppn Hsz. destruct (fork_mem_block k0 g0 ms rest H k g dst Ms Md v FK Hv) as (w1 & Hb & FK1).
  pose proof (shared_pages_add M perm Md0 D Ms Md v SP HvD Hv0) as SP1. unfold fork_page. rewrite Hb. cbn zeta.
  rewrite (proj1 SP v), decide_False by done. destruct (M !! v) as [[p fl]|] eqn:HM; cbn [fmap option_fmap option_map fst].
  - assert (Md !! v = None) as HMd by (rewrite (proj2 SP v), decide_False by done; done).
    unfold kmapped. rewrite (proj1 (pt_query_ok dst _ Md v (f_dst _ _ _ _ _ _ _ _ _ _ FK1) Hv)), HMd, bool_decide_false by (by intros []). cbn [negb].
    destruct (fork_mem_map k0 g0 ms rest H _ g dst _ Md v p (MapPermission.difference (perm v) MapPermission.W) FK1 Hsz Hv (Hppn _ eq_refl) (difference_ok _ Hok) HMd)
      as (dst' & k' & g' & Hm & Hsz' & _ & _ & FK2). rewrite Hm. cbn [mbind outcome_bind]. by eexists dst', k', g', _, _.
  - eexists dst, _, g, _, _. split; [done|]. split; [lia|]. by split.
Qed.

Lemma fork_loop_ok k0 g0 ms M rest perm Md0 H vs : forall D k g dst Ms Md fl, fork_mem k0 g0 ms rest H k g dst Ms Md -> shared_pages M perm Md0 D Ms Md ->
  NoDup vs -> (forall v, v ∈ vs -> vpn_ok v /\ v ∉ D /\ Md0 !! v = None /\ perm v = fl /\ forall e, M !! v = Some e -> ppn_ok e.1) -> MapPermission.ok fl ->
  Z.of_nat (size (gL g)) + 2 * Z.of_nat (length vs) <= limit - base ->
  exists dst' k' g' Ms' Md', for_try vs (fork_page (page_table ms) (MapPermission.difference fl MapPermission.W)) (dst, k) = Ret (Ok tt, (dst', k')) /\
    Z.of_nat (size (gL g')) <= Z.of_nat (size (gL g)) + 2 * Z.of_nat (length vs) /\
    fork_mem k0 g0 ms rest H k' g' dst' Ms' Md' /\ shared_pages M perm Md0 (list_to_set vs ∪ D) Ms' Md'.
Proof.
  induction vs as [|v vs IH]; intros D k g dst Ms Md fl FK SP Hnd Hvs Hok Hsz.
  { exists dst, k, g, Ms, Md. split; [done|]. split; [cbn; lia|]. split; [done|]. cbn. by rewrite union_empty_l_L. }
  apply NoDup_cons in Hnd as [Hni Hnd]. cbn [length] in Hsz. destruct (Hvs v ltac:(left)) as (Hv & HvD & Hv0 & Hperm & Hppn).
  destruct (fork_page_ok k0 g0 ms M rest perm Md0 H D k g dst Ms Md v fl FK SP Hv HvD Hv0 Hperm Hok Hppn ltac:(lia)) as (dst1 & k1 & g1 & Ms1 & Md1 & H1 & Hs1 & FK1 & SP1).
  destruct (IH _ k1 g1 dst1 Ms1 Md1 fl FK1 SP1 Hnd) as (dst2 & k2 & g2 & Ms2 & Md2 & H2 & Hs2 & FK2 & SP2); [|done|lia|].
  { intros u Hu. destruct (Hvs u ltac:(by right)) as (Hu1 & Hu2 & Hu3). split; [done|]. split; [|done]. intros [->%elem_of_singleton|?]%elem_of_union; done. }
  exists dst2, k2, g2, Ms2, Md2. cbn [for_try]. rewrite H1. cbn [mbind outcome_bind]. split; [done|]. split; [cbn [length]; lia|]. split; [done|].
  replace (list_to_set (v :: vs) ∪ D) with (list_to_set vs ∪ ({[v]} ∪ D) : gset Z); [done|]. cbn. rewrite !(assoc_L (∪)). f_equal. apply (comm_L (∪)).
Qed.

Lemma fork_mem_perm k0 g0 ms rest H H' k g dst Ms Md : H ≡ₚ H' -> fork_mem k0 g0 ms rest H k g dst Ms Md -> fork_mem k0 g0 ms rest H' k g dst Ms Md.
Proof. intros E []. constructor; try done; [by rewrite <- E|]. intros h Hh. rewrite <- E. by apply f_hold0. Qed.

Lemma vpns_spec a v : v ∈ vpns (vpn_range (inner a)) <-> in_area a v.
Proof. unfold vpns, in_area, area_start, area_end, lm_start, lm_end. rewrite elem_of_seqZ. lia. Qed.
Lemma vpns_NoDup r : NoDup (vpns r).
Proof. apply NoDup_seqZ. Qed.

Definition all_vpns l : list Z := mjoin ((fun a => vpns (vpn_range (inner a))) <$> l).
Lemma all_vpns_spec l v : v ∈ all_vpns l <-> exists a, a ∈ l /\ in_area a v.
Proof.
  unfold all_vpns. rewrite list_elem_of_join. split.
  - intros (vs & Hv & (a & -> & Ha)%list_elem_of_fmap). exists a. by rewrite <- vpns_spec.
  - intros (a & Ha & Hv). exists (vpns (vpn_range (inner a))). split; [by apply vpns_spec|]. apply list_elem_of_fmap. by exists a.
Qed.

Lemma disjoint_cons a l : disjoint_areas (a :: l) -> disjoint_areas l /\ forall b v, b ∈ l -> in_area b v -> in_area a v -> False.
Proof.
  intros Hd. split.
  - intros i j b c v Hi Hj Hb Hc. assert (S i = S j) by by apply (Hd (S i) (S j) b c v). congruence.
  - intros b v [j Hj]%list_elem_of_lookup Hb Ha. discriminate (Hd O (S j) a b v eq_refl Hj Ha Hb).
Qed.

Lemma fork_areas_ok k0 g0 ms M rest perm Md0 l : forall H D k g dst Ms Md, fork_mem k0 g0 ms rest H k g dst Ms Md -> shared_pages M perm Md0 D Ms Md ->
  slots l ⊆ slots (areas ms) -> disjoint_areas l -> (forall a, a ∈ l -> area_wf a) ->
  (forall a v, a ∈ l -> in_area a v -> v ∉ D /\ Md0 !! v = None /\ perm v = map_perm a /\ forall e, M !! v = Some e -> ppn_ok e.1) ->
  Z.of_nat (size (gL g)) + 2 * Z.of_nat (length (all_vpns l)) <= limit - base ->
  exists dst' k' g' Ms' Md', fork_areas l dst (page_table ms) k = Ret (dst', k') /\
    Z.of_nat (size (gL g')) <= Z.of_nat (size (gL g)) + 2 * Z.of_nat (length (all_vpns l)) /\
    fork_mem k0 g0 ms rest (slots l ++ H) k' g' dst' Ms' Md' /\ shared_pages M perm Md0 (list_to_set (all_vpns l) ∪ D) Ms' Md'.
Proof.
  induction l as [|a l IH]; intros H D k g dst Ms Md FK SP Hsl Hd Hwf Hl Hsz.
  { exists dst, k, g, Ms, Md. split; [done|]. split; [cbn; lia|]. split; [done|]. cbn. by rewrite union_empty_l_L. }
  destruct (disjoint_cons a l Hd) as [Hdl Hal]. rewrite slots_cons in Hsl. change (all_vpns (a :: l)) with (vpns (vpn_range (inner a)) ++ all_vpns l) in *. rewrite length_app in *.
  cbn [fork_areas]. assert (frames (inner a) ⊆ H) as Hfs by (intros h Hh; apply (f_hold _ _ _ _ _ _ _ _ _ _ FK), elem_of_app; left; apply Hsl, elem_of_app; by left).
  pose proof (fork_mem_clone k0 g0 ms rest H k g dst Ms Md _ FK Hfs) as FKc.
  destruct (fork_loop_ok k0 g0 ms M rest perm Md0 _ (vpns (vpn_range (inner a))) D _ g dst Ms Md (map_perm a) FKc SP (vpns_NoDup _)) as (dst1 & k1 & g1 & Ms1 & Md1 & H1 & Hs1 & FK1 & SP1).
  { intros v Hv%vpns_spec. split; [by apply (aw_vpn _ (Hwf a ltac:(left)))|]. apply Hl; [left|done]. }
  { apply (Hwf a). left. } { lia. }
  unfold map_from_existing_page_table. change (fun vpn '((dst, k) : T * kmem) => _) with (@fork_page (page_table ms) (MapPermission.difference (map_perm a) MapPermission.W)).
  rewrite H1. cbn [mbind outcome_bind].
  destruct (IH _ _ k1 g1 dst1 Ms1 Md1 FK1 SP1) as (dst2 & k2 & g2 & Ms2 & Md2 & H2 & Hs2 & FK2 & SP2); [intros h Hh; apply Hsl, elem_of_app; by right|done|intros b Hb; apply Hwf; by right| |lia|].
  { intros b v Hb Hv. destruct (Hl b v ltac:(by right) Hv) as (HvD & Hv'). split; [|done].
    intros [Hva%elem_of_list_to_set%vpns_spec|?]%elem_of_union; [by apply (Hal b v)|done]. }
  exists dst2, k2, g2, Ms2, Md2. split; [done|]. split; [lia|]. split.
  - eapply fork_mem_perm; [|exact FK2]. rewrite slots_cons, <- app_assoc. apply Permutation_app_swap_app.
  - replace (list_to_set (vpns (vpn_range (inner a)) ++ all_vpns l) ∪ D : gset Z) with (list_to_set (all_vpns l) ∪ (list_to_set (vpns (vpn_range (inner a))) ∪ D) : gset Z); [done|].
    rewrite list_to_set_app_L, !(assoc_L (∪)). f_equal. apply (comm_L (∪)).
Qed.

(** ** The steps around the loop *)

Lemma fork_mem_start k g ms M rest : proc_ok k g ms M rest -> Z.of_nat (size (gL g)) < limit - base ->
  exists pt k' g', new_bare k = Ret (MkMS pt [] : MemorySet, k') /\ Z.of_nat (size (gL g')) <= Z.of_nat (size (gL g)) + 1 /\
    fork_mem k g ms rest (slots (areas ms) ++ rest) k' g' pt M ∅.
Proof.
  intros [K Hrep Ht Hms] Hsz. destruct (new_bare_ok (F := F) k g _ K Hsz) as (pt & k' & g' & Hn & Hs & K' & Hrep' & Ht' & HO & HL & Hc & Hm).
  assert (gO g ⊆ gL g) as HOL by (intros x Hx; apply (k_live _ _ _ _ _ _ _ K); by left).
  exists pt, k', g'. split; [done|]. split; [done|]. constructor; try done.
  - eapply pt_local; [exact Hrep|]. intros q j Hq. by apply Hm, HOL, Ht.
  - intros q j Hq _. by apply Hm, HOL.
Qed.

(** A frame of the child's own, and writing to it. *)
Lemma fork_mem_alloc k0 g0 ms rest H k g dst Ms Md : fork_mem k0 g0 ms rest H k g dst Ms Md -> Z.of_nat (size (gL g)) < limit - base ->
  exists p k', frame_alloc_uninit_unwrap k = Ret (p, k') /\ p ∉ gL g /\ base <= p < limit /\
    Z.of_nat (size (gL (add_live g p))) = Z.of_nat (size (gL g)) + 1 /\ same_contents k g k' (add_live g p) H /\
    fork_mem k0 g0 ms rest (InMemory p :: H) k' (add_live g p) dst Ms Md.
Proof.
  intros [] Hsz. destruct (frame_alloc_uninit_ok cfg base limit zrep srep k H g f_k0 Hsz) as (p & k' & Ha & Hp & Hb & K' & Hc & Hf).
  exists p, k'. split; [done|]. split; [done|]. split; [done|]. split; [cbn; rewrite size_union, size_singleton by set_solver; lia|]. split; [done|]. constructor; try done.
  - eapply pt_local; [exact f_src0|]. intros q j Hq. by apply Hf, f_O0, f_srct0.
  - eapply pt_local; [exact f_dst0|]. intros q j Hq. by apply Hf, f_dstt0.
  - cbn. set_solver.
  - intros h Hh. right. by apply f_hold0.
  - eapply same_contents_trans; [exact f_c0|]. by eapply same_contents_sub.
  - intros q j Hq Hqt. rewrite Hf by by apply f_O0. by apply f_m0.
Qed.

Lemma fork_mem_write k0 g0 ms rest H k g dst Ms Md p bs : fork_mem k0 g0 ms rest H k g dst Ms Md -> p ∉ gL g0 -> InMemory p ∈ H -> InMemory p ∉ slots (areas ms) ++ rest ->
  fork_mem k0 g0 ms rest H (set_bytes_array k p bs) g dst Ms Md.
Proof.
  intros [] Hp Hin Hn. pose proof (k_own _ _ _ _ _ _ _ f_k0 p Hin) as Hpo.
  assert (forall q j, q ∈ gO g -> mem (wd (set_bytes_array k p bs)) q j = mem (wd k) q j) as Hm by (intros q j Hq; apply mem_set_bytes_other; by intros ->).
  constructor; try done.
  - by apply set_bytes_ok.
  - eapply pt_local; [exact f_src0|]. intros q j Hq. by apply Hm, f_O0, f_srct0.
  - eapply pt_local; [exact f_dst0|]. intros q j Hq. by apply Hm, f_dstt0.
  - eapply same_contents_trans; [exact f_c0|]. by apply set_bytes_contents.
  - intros q j Hq Hqt. rewrite Hm by by apply f_O0. by apply f_m0.
Qed.

(** The page of the trap context gets a frame with the bytes [data] in front. *)
Lemma push_page_ok k0 g0 ms rest H k g dst Ms Md a v l0 data : fork_mem k0 g0 ms rest H k g dst Ms Md -> area_wf a ->
  vpns (vpn_range (inner a)) = [v] -> slot a v = Some Unallocated -> Md !! v = None -> (forall p, base <= p < limit -> ppn_ok p) -> gL g0 ⊆ gL g ->
  Z.of_nat (length data) <= PAGE_SIZE -> Forall byte_ok data -> Z.of_nat (size (gL g)) + 3 <= limit - base ->
  exists p a' dst' k' g', push cfg (MkMS dst l0) a (Some data) k = Ret (Ok tt, MkMS dst' (l0 ++ [a']), k') /\ p ∉ gL g /\
    replaced a v (InMemory p) a' /\ (exists lm, alloc_in_memory (inner a) v p = Ret lm /\ a' = with_inner a lm) /\
    fork_mem k0 g0 ms rest (InMemory p :: H) k' g' dst' Ms (<[v := (p, map_perm a)]> Md) /\
    take (length data) (get_bytes_array k' p) = data.
Proof.
  intros FK W Hvs Hs HMd Hppn HL Hd Hdb Hsz. pose proof (slot_in _ _ _ Hs) as Hv. pose proof (aw_vpn _ W v Hv) as Hvok.
  destruct (fork_mem_alloc k0 g0 ms rest H k g dst Ms Md FK ltac:(lia)) as (p & k1 & Ha & Hp & Hb & Hs1 & _ & FK1).
  destruct (alloc_in_memory_ok a v p W Hs) as (lm & Hlm & Hr).
  destruct (fork_mem_map k0 g0 ms rest _ k1 _ dst Ms Md v p (map_perm a) FK1 ltac:(lia) Hvok (Hppn p Hb) (aw_perm _ W) HMd) as (dst' & k2 & g2 & Hm & _ & _ & _ & FK2).
  unfold push. cbn [page_table]. rewrite Hvs. cbn [for_try]. unfold map_one, map_one_unchecked. rewrite (aw_type _ W). cbn [bool_decide].
  unfold kmapped. rewrite (proj1 (pt_query_ok dst _ Md v (f_dst _ _ _ _ _ _ _ _ _ _ FK) Hvok)), HMd, (bool_decide_false (is_Some None)) by (by intros []).
  rewrite bool_decide_false by done. cbn [negb orb]. rewrite Ha. cbn [mbind outcome_bind]. rewrite Hlm. cbn [mbind outcome_bind]. rewrite Hm. cbn [mbind outcome_bind].
  rewrite add64_small by (unfold in_range, PAGE_SIZE; lia). rewrite (proj2 (Z.leb_le 0 _)) by (unfold PAGE_SIZE in *; lia). cbn [rust_assert mbind outcome_bind].
  replace (take (Z.to_nat (Z.min (Z.of_nat (length data)) (0 + PAGE_SIZE) - 0)) (drop (Z.to_nat 0) data)) with data by (rewrite drop_0, take_ge; [done|lia]).
  eexists p, (with_inner a lm), dst', _, g2. split; [done|]. split; [done|]. split; [done|]. split; [by exists lm|]. split.
  - apply fork_mem_write; [done|set_solver|left|]. intros Hin. apply Hp. apply (f_hold _ _ _ _ _ _ _ _ _ _ FK) in Hin.
    apply (k_live _ _ _ _ _ _ _ (f_k _ _ _ _ _ _ _ _ _ _ FK)). by right.
  - pose proof (page_bytes_ok (mem (wd k2)) p) as [Hpl Hpb]. rewrite set_bytes_same; [by rewrite take_app_length|]. split; [|apply Forall_app; split; [done|by apply Forall_drop]].
    rewrite length_app, length_drop. unfold get_bytes_array. unfold PAGE_SIZE in *. lia.
Qed.

(** ** Parent and child *)

(** The permissions of the area of a page. *)
Fixpoint perm_of l (v : Z) : Z :=
  match l with [] => 0 | a :: r => if decide (in_area a v) then map_perm a else perm_of r v end.
Lemma perm_of_spec l a v : disjoint_areas l -> a ∈ l -> in_area a v -> perm_of l v = map_perm a.
Proof.
  induction l as [|b l IH]; intros Hd Ha Hv; [by apply not_elem_of_nil in Ha|]. destruct (disjoint_cons b l Hd) as [Hdl Hbl]. cbn.
  apply elem_of_cons in Ha as [->|Ha]; [by rewrite decide_True|]. rewrite decide_False; [by apply IH|]. intros Hb. by apply (Hbl a v).
Qed.

(** A shared page is mapped read-only on both sides. *)
Lemma shared_page_at perm H M H' M' v f (fl : Z -> Z) : page_at perm H M v f -> (forall x, x = perm \/ x = MapPermission.difference perm MapPermission.W -> fl x = MapPermission.difference perm MapPermission.W) ->
  M' !! v = (fun e => (e.1, fl e.2)) <$> M !! v -> page_at perm H' M' v f.
Proof.
  intros Hp Hfl E. unfold page_at in *. destruct f as [p| | |]; rewrite E; [|by rewrite Hp..]. destruct Hp as (x & -> & Hx & _).
  exists (fl x). cbn. rewrite (Hfl x Hx). split_and!; [done|by right|]. by rewrite difference_not_writable.
Qed.

(** A process about to fork: its last area is the page of the trap context, in memory. *)
Definition can_fork ms (sh : list MapArea) (t : MapArea) (q : Z) : Prop :=
  areas ms = sh ++ [t] /\ area_end t = area_start t + 1 /\ slot t (area_start t) = Some (InMemory q).

Lemma can_fork_disjoint ms sh t q a v : disjoint_areas (areas ms) -> can_fork ms sh t q -> a ∈ sh -> in_area a v -> in_area t v -> False.
Proof.
  intros Hd (E & _) [i Hi]%list_elem_of_lookup Ha Ht. apply lookup_lt_Some in Hi as Hlt.
  assert (i = length sh); [|lia]. apply (Hd i (length sh) a t v); try done; rewrite E; [by rewrite lookup_app_l|by rewrite list_lookup_middle].
Qed.

Lemma area_of ms sh t i a : areas ms = sh ++ [t] -> areas ms !! i = Some a -> a ∈ sh \/ a = t.
Proof. intros -> [Hi|[_ Hi]]%lookup_app_Some; [left; by eapply list_elem_of_lookup_2|right]. by apply list_lookup_singleton_Some in Hi as [_ ->]. Qed.

Section Final.
Context (k0 k : kmem) (g0 g : ghost) (ms : MemorySet) (M Ms Md Md0 : gmap Z (Z * Z)) (rest : list Frame) (sh : list MapArea) (t t' : MapArea) (q p : Z) (dst : T).
Let v0 := area_start t.
Let ms2 : MemorySet := MkMS dst (sh ++ [t']).
Hypothesis (HQ : proc_ok k0 g0 ms M rest) (HF : can_fork ms sh t q).
Hypothesis (HFK : fork_mem k0 g0 ms rest (InMemory p :: slots sh ++ slots (areas ms) ++ rest) k g dst Ms (<[v0 := (p, map_perm t)]> Md)).
Hypothesis (HSP : shared_pages M (perm_of sh) Md0 (list_to_set (all_vpns sh)) Ms Md).
Hypothesis (HMd0 : forall v e, Md0 !! v = Some e -> MapPermission.contains e.2 MapPermission.W = false /\ forall a, a ∈ areas ms -> ~ in_area a v).
Hypothesis (Hfresh : p ∉ gL g0) (Ht1 : vpn_range (inner t') = vpn_range (inner t)) (Ht2 : frames (inner t') = [InMemory p]) (Ht3 : map_perm t' = map_perm t) (Ht4 : map_type t' = map_type t).

Lemma fork_fresh : InMemory p ∉ slots (areas ms) ++ rest.
Proof. intros Hin. apply Hfresh. eapply frame_live; [apply HQ|done]. Qed.
Lemma shared_slots : slots (areas ms) = slots sh ++ frames (inner t).
Proof. destruct HF as (E & _). by rewrite E, slots_snoc. Qed.

Lemma shared_page i a v : areas ms !! i = Some a -> in_area a v -> (a ∈ sh /\ v ∈ (list_to_set (all_vpns sh) : gset Z) /\ v <> v0) \/ (a = t /\ v = v0 /\ v ∉ (list_to_set (all_vpns sh) : gset Z)).
Proof.
  intros Hi Hv. pose proof (m_disj _ _ _ (q_ms _ _ _ _ _ HQ)) as Hd. destruct HF as (E & Hend & Hs). pose proof (slot_in _ _ _ Hs) as Hv0.
  destruct (area_of ms sh t i a E Hi) as [Ha| ->]; [left|right].
  - split; [done|]. split; [apply elem_of_list_to_set, all_vpns_spec; eauto|]. intros ->. exact (can_fork_disjoint ms sh t q a v0 Hd HF Ha Hv Hv0).
  - split; [done|]. assert (v = v0) as -> by (unfold in_area, v0 in *; lia). split; [done|].
    rewrite elem_of_list_to_set, all_vpns_spec. intros (b & Hb & Hbv). exact (can_fork_disjoint ms sh t q b v0 Hd HF Hb Hbv Hv0).
Qed.

Lemma fork_trap_alone fl : M !! v0 = Some (q, fl) -> MapPermission.contains fl MapPermission.W = true ->
  occ (InMemory q) (slots (areas ms) ++ slots (sh ++ [t']) ++ rest) = 1.
Proof.
  intros HM Hw. destruct HF as (E & Hend & Hs). assert (areas ms !! length sh = Some t) as Hi by (by rewrite E, list_lookup_middle).
  destruct (m_pages _ _ _ (q_ms _ _ _ _ _ HQ) _ t v0 _ Hi Hs) as (fl' & HM' & _ & Ho). rewrite HM in HM'. injection HM' as <-. specialize (Ho Hw).
  assert (0 < occ (InMemory q) (frames (inner t))) as Hpos. { apply occ_pos. unfold slot in Hs. case_decide; [|done]. by eapply list_elem_of_lookup_2. }
  assert (InMemory q <> InMemory p) as Hqp. { intros [= ->]. apply fork_fresh, elem_of_app. left. by eapply slot_elem. }
  rewrite slots_snoc, Ht2. rewrite shared_slots in *. rewrite !occ_app in *.
  pose proof (occ_nonneg (InMemory q) (slots sh)). pose proof (occ_nonneg (InMemory q) rest). rewrite occ_cons, occ_nil, decide_False by done. lia.
Qed.

Lemma fork_parent_ms : ms_ok (areas ms) Ms (slots (areas ms) ++ slots (areas ms2) ++ rest).
Proof.
  pose proof (q_ms _ _ _ _ _ HQ) as [M1 M2 M3 M4]. constructor; try done.
  - intros i a v f Hi Hs. pose proof (M3 i a v f Hi Hs) as Hp. destruct (shared_page i a v Hi (slot_in _ _ _ Hs)) as [(Ha & HD & _)|(-> & -> & HD)].
    + eapply (shared_page_at _ _ M _ _ _ _ (fun x => MapPermission.difference x MapPermission.W)); [exact Hp| |rewrite (proj1 HSP v), decide_True by done; reflexivity].
      intros x [-> | ->]; [done|apply difference_idem].
    + unfold page_at in *. rewrite (proj1 HSP), decide_False by done. destruct HF as (_ & _ & Hs'). fold v0 in Hs'. rewrite Hs in Hs'. injection Hs' as ->.
      destruct Hp as (fl & HM & Hfl & _). exists fl. split_and!; try done. by apply fork_trap_alone.
  - intros v x fl Hv HM Hw. rewrite (proj1 HSP) in HM. case_decide; [|by eapply M4]. destruct (M !! v) as [[x' fl']|]; [|done]. injection HM as <- <-.
    by rewrite difference_not_writable in Hw.
Qed.

Lemma fork_child_area : area_wf t'.
Proof.
  destruct HF as (E & Hend & _). destruct (m_wf _ _ _ (q_ms _ _ _ _ _ HQ) t) as [W1 W2 W3 W4 W5 W6]; [rewrite E; set_solver|].
  constructor; unfold in_area, area_start, area_end, lm_start, lm_end in *; rewrite ?Ht1, ?Ht2, ?Ht3, ?Ht4; try done. cbn. lia.
Qed.
Lemma fork_child_slot v : slot t' v = if decide (v = v0) then Some (InMemory p) else None.
Proof.
  destruct HF as (E & Hend & _). pose proof fork_child_area as W. unfold slot. case_decide as D.
  - assert (v = v0) as -> by (unfold in_area, v0, area_start, area_end, lm_start, lm_end in *; rewrite Ht1 in D; lia).
    rewrite decide_True by done. unfold v0, area_start, lm_start. rewrite Ht1, Ht2, Z.sub_diag. done.
  - rewrite decide_False; [done|]. intros ->. apply D. unfold in_area, v0, area_start, area_end, lm_start, lm_end in *. rewrite Ht1. lia.
Qed.

Lemma child_area_of i a v : areas ms2 !! i = Some a -> in_area a v ->
  (a ∈ sh /\ areas ms !! i = Some a /\ v ∈ (list_to_set (all_vpns sh) : gset Z) /\ v <> v0) \/ (a = t' /\ v = v0 /\ i = length sh).
Proof.
  intros Hi Hv. destruct HF as (E & Hend & Hs0). destruct (decide (i < length sh)%nat) as [Hlt|Hge].
  - left. assert (areas ms !! i = Some a) as Hi' by (rewrite E, lookup_app_l by done; by rewrite <- Hi; cbn; rewrite lookup_app_l).
    destruct (shared_page i a v Hi' Hv) as [(? & ? & ?)|(-> & -> & _)]; [done|].
    exfalso. assert (i = length sh); [|lia]. apply (m_disj _ _ _ (q_ms _ _ _ _ _ HQ) i (length sh) t t v0); try done. by rewrite E, list_lookup_middle.
  - right. cbn in Hi. apply lookup_app_Some in Hi as [Hi|[_ Hi]]; [apply lookup_lt_Some in Hi; lia|]. apply list_lookup_singleton_Some in Hi as [Hi <-].
    split; [done|]. split; [|lia]. unfold in_area, v0, area_start, area_end, lm_start, lm_end in *. rewrite Ht1 in Hv. lia.
Qed.

Lemma fork_child_ms : ms_ok (areas ms2) (<[v0 := (p, map_perm t)]> Md) (slots (areas ms2) ++ slots (areas ms) ++ rest).
Proof.
  pose proof (q_ms _ _ _ _ _ HQ) as [M1 M2 M3 M4]. pose proof HF as (E & Hend & Hs0). constructor.
  - cbn. intros a [Ha|Ha%list_elem_of_singleton]%elem_of_app; [|subst a; apply fork_child_area]. apply M1. rewrite E. set_solver.
  - intros i j a b v Hi Hj Ha Hb. destruct (child_area_of i a v Hi Ha) as [(_ & Hi' & _ & N1)|(_ & N1 & I1)], (child_area_of j b v Hj Hb) as [(_ & Hj' & _ & N2)|(_ & N2 & I2)]; try done; [|congruence].
    by apply (M2 i j a b v).
  - intros i a v f Hi Hs. destruct (child_area_of i a v Hi (slot_in _ _ _ Hs)) as [(Ha & Hi' & HD & Hne)|(-> & -> & _)].
    + eapply (shared_page_at _ _ M _ _ _ _ (fun _ => MapPermission.difference (map_perm a) MapPermission.W)); [exact (M3 i a v f Hi' Hs)|done|].
      rewrite lookup_insert_ne, (proj2 HSP), decide_True by done. rewrite (perm_of_spec sh a v); [done| |done|by eapply slot_in].
      intros j1 j2 b c u H1 H2. apply M2; rewrite E; by apply lookup_app_l_Some.
    + rewrite fork_child_slot, decide_True in Hs by done. injection Hs as <-. rewrite Ht3. exists (map_perm t). rewrite lookup_insert_eq. split_and!; [done|by left|]. intros _.
      pose proof fork_fresh as Hf. change (areas ms2) with (sh ++ [t']). rewrite slots_snoc, Ht2, !occ_app, occ_cons, occ_nil, decide_True by done.
      rewrite shared_slots, !elem_of_app in Hf. rewrite shared_slots, !occ_app, !occ_not_in by tauto. done.
  - intros v x fl Hv HM Hw. destruct (decide (v = v0)) as [->|Hne].
    + exists (length sh), t'. cbn. rewrite list_lookup_middle by done. split; [done|]. eapply slot_in. rewrite fork_child_slot, decide_True; done.
    + rewrite lookup_insert_ne, (proj2 HSP) in HM by done. case_decide; [|pose proof (proj1 (HMd0 v _ HM)) as Hro; cbn in Hro; congruence].
      destruct (M !! v); [|done]. injection HM as _ <-. by rewrite difference_not_writable in Hw.
Qed.

Lemma fork_procs : proc_ok k g ms Ms (slots (areas ms2) ++ rest) /\ proc_ok k g ms2 (<[v0 := (p, map_perm t)]> Md) (slots (areas ms) ++ rest).
Proof.
  destruct HFK. assert (InMemory p :: slots sh ++ slots (areas ms) ++ rest ≡ₚ slots (areas ms2) ++ slots (areas ms) ++ rest) as E1.
  { change (areas ms2) with (sh ++ [t']). rewrite slots_snoc, Ht2, <- !app_assoc. apply Permutation_middle. }
  split; constructor; try done.
  - rewrite Permutation_app_swap_app, <- E1. done.
  - intros x Hx. by apply f_O0, f_srct0.
  - apply fork_parent_ms.
  - by rewrite <- E1.
  - intros x Hx. by apply f_dstt0.
  - apply fork_child_ms.
Qed.

Lemma fork_views : (forall u, view ms k g u = view ms k0 g0 u) /\ (forall u, u <> v0 -> view ms2 k g u = view ms k0 g0 u) /\ view ms2 k g v0 = Some (get_bytes_array k p).
Proof.
  pose proof HF as (E & Hend & Hs0). assert (forall u, view ms k g u = view ms k0 g0 u) as Hpar.
  { intros u. unfold view. destruct (slot_of (areas ms) u) as [f|] eqn:Ef; [|done]. cbn. f_equal. apply (f_c _ _ _ _ _ _ _ _ _ _ HFK).
    apply slot_of_elem in Ef as (i & a & Hi & Hs). apply elem_of_app. left. by eapply slot_elem. }
  split; [done|]. split.
  - intros u Hu. rewrite <- Hpar. unfold view. f_equal. cbn. rewrite E, !slot_of_app. cbn. rewrite fork_child_slot, decide_False by done.
    assert (slot t u = None) as ->; [|done]. unfold slot. rewrite decide_False; [done|]. unfold in_area, v0 in *. lia.
  - unfold view. rewrite (slot_of_lookup _ (length sh) t' v0 (m_disj _ _ _ fork_child_ms)); [by rewrite fork_child_slot, decide_True|cbn; by rewrite list_lookup_middle|].
    eapply slot_in. by rewrite fork_child_slot, decide_True.
Qed.
End Final.

(** ** The system call *)
Section Trampolines.
Context (strampoline ssignaltrampoline : Z).
Hypothesis (Hppn : forall p, base <= p < limit -> ppn_ok p).
(** The linker script puts both trampolines on pages of their own. *)
Hypothesis (Htr : addr_aligned strampoline = true /\ ppn_ok (addr_floor strampoline)) (Hsig : addr_aligned ssignaltrampoline = true /\ ppn_ok (addr_floor ssignaltrampoline)).
Hypothesis (Hvtr : vpn_ok (2 ^ 52 - 1)) (Hvsig : vpn_ok (2 ^ 52 - 2)).

Definition trampolines : gmap Z (Z * Z) :=
  <[2 ^ 52 - 2 := (addr_floor ssignaltrampoline, Z.lor (Z.lor MapPermission.R MapPermission.X) MapPermission.U)]>
  (<[2 ^ 52 - 1 := (addr_floor strampoline, Z.lor MapPermission.R MapPermission.X)]> ∅).
Lemma trampolines_high v e : trampolines !! v = Some e -> 2 ^ 52 - 2 <= v /\ MapPermission.contains e.2 MapPermission.W = false.
Proof. unfold trampolines. intros [[<- <-]|[_ [[<- <-]|[_ ?]]%lookup_insert_Some]]%lookup_insert_Some; [done|done|]. by rewrite lookup_empty in *. Qed.

Lemma map_trampolines_ok k g ms M rest : proc_ok k g ms M rest -> Z.of_nat (size (gL g)) + 5 <= limit - base ->
  exists ms0 k0 pt1 k1 pt2 k2 g2, new_bare k = Ret (ms0 : MemorySet, k0) /\ map_trampoline strampoline (page_table ms0) k0 = Ret (pt1, k1) /\
    map_signaltrampoline ssignaltrampoline pt1 k1 = Ret (pt2, k2) /\ Z.of_nat (size (gL g2)) <= Z.of_nat (size (gL g)) + 5 /\
    fork_mem k g ms rest (slots (areas ms) ++ rest) k2 g2 pt2 M trampolines.
Proof.
  intros Q Hsz. destruct (fork_mem_start k g ms M rest Q ltac:(lia)) as (pt & k0 & g0 & Hn & Hs0 & FK0).
  destruct (fork_mem_map _ _ _ _ _ k0 g0 pt M ∅ (2 ^ 52 - 1) (addr_floor strampoline) (Z.lor MapPermission.R MapPermission.X) FK0 ltac:(lia) Hvtr (proj2 Htr) eq_refl (lookup_empty _))
    as (pt1 & k1 & g1 & H1 & Hs1 & _ & _ & FK1).
  destruct (fork_mem_map _ _ _ _ _ k1 g1 pt1 M _ (2 ^ 52 - 2) (addr_floor ssignaltrampoline) (Z.lor (Z.lor MapPermission.R MapPermission.X) MapPermission.U) FK1 ltac:(lia) Hvsig (proj2 Hsig) eq_refl)
    as (pt2 & k2 & g2 & H2 & Hs2 & _ & _ & FK2); [by rewrite lookup_insert_ne|].
  exists (MkMS pt []), k0, pt1, k1, pt2, k2, g2. split; [done|]. unfold map_trampoline, map_signaltrampoline, pn_from_addr.
  destruct Htr as [Ha _], Hsig as [Hb _]. unfold addr_aligned in Ha, Hb. rewrite Ha, Hb. split; [exact H1|]. split; [exact H2|]. split; [lia|done].
Qed.

(** What fork leaves behind: a child with its parent's memory, but for the trap context,
    of which it has its own page with the same first [TRAP_CX_SIZE] bytes. *)
Definition fork_post k g ms rest v0 ms2 k' : Prop := exists g' Mp Mc,
  proc_ok k' g' ms Mp (slots (areas ms2) ++ rest) /\ proc_ok k' g' ms2 Mc (slots (areas ms) ++ rest) /\
  same_contents k g k' g' rest /\ (forall q j, q ∈ gO g -> q ∉ pt_tables (page_table ms) -> mem (wd k') q j = mem (wd k) q j) /\ gO g ⊆ gO g' /\
  (forall x, x ∈ pt_tables (page_table ms2) -> x ∉ gL g) /\ (forall p, InMemory p ∈ slots (areas ms2) -> InMemory p ∈ rest -> InMemory p ∈ slots (areas ms)) /\
  (forall u, view ms k' g' u = view ms k g u) /\ (forall u, u <> v0 -> view ms2 k' g' u = view ms k g u) /\
  take (Z.to_nat TRAP_CX_SIZE) <$> view ms2 k' g' v0 = take (Z.to_nat TRAP_CX_SIZE) <$> view ms k g v0.

(** The areas of the child. *)
Definition forked_areas (sh : list MapArea) (t : MapArea) ms2 : Prop := exists a p lm,
  from_another t = Ret a /\ alloc_in_memory (inner a) (area_start t) p = Ret lm /\ areas ms2 = sh ++ [with_inner a lm].

(** The frames a fork may take: tables for its pages, and the page of the trap context. *)
Definition fork_frames ms : Z := 8 + 2 * Z.of_nat (length (all_vpns (removelast (areas ms)))).

(** The pages of a process lie in frames of the allocator. *)
Lemma mapped_ppn k g ms M rest a v e : proc_ok k g ms M rest -> a ∈ areas ms -> in_area a v -> M !! v = Some e -> ppn_ok e.1.
Proof.
  intros [K _ _ Hms] Ha Hv HM. destruct (slot_some a v (m_wf _ _ _ Hms a Ha) Hv) as [f Hs]. apply list_elem_of_lookup in Ha as [i Hi].
  pose proof (m_pages _ _ _ Hms i a v f Hi Hs) as Hp. unfold page_at in Hp. destruct f as [p| | |]; [|congruence..]. destruct Hp as (fl & HM' & _). rewrite HM in HM'. injection HM' as ->. cbn.
  apply Hppn. assert (p ∈ gL g) as HL by (eapply frame_live; [exact K|]; apply elem_of_app; left; by eapply slot_elem).
  pose proof (k_fa _ _ _ _ _ _ _ K) as Hfa. apply (rep_live _ _ _ _ Hfa) in HL. pose proof (rep_limit _ _ _ _ Hfa). lia.
Qed.

(** The child's area for its trap context. *)
Lemma from_another_ok (t : MapArea) : area_wf t -> area_end t = area_start t + 1 ->
  exists a, from_another t = Ret a /\ area_wf a /\ vpn_range (inner a) = vpn_range (inner t) /\ frames (inner a) = [Unallocated] /\
    map_perm a = map_perm t /\ map_type a = map_type t /\ vpns (vpn_range (inner a)) = [area_start t] /\ slot a (area_start t) = Some Unallocated /\
    active (inner a) = [] /\ map_file a = map_file t.
Proof.
  intros W Hend. pose proof (aw_range _ W) as Hr. pose proof (aw_top _ W) as Htop. unfold from_another, range_new. rewrite (proj2 (Z.leb_le _ _)) by lia. cbn [rust_assert mbind outcome_bind].
  set (r := MkRange (area_start t) (area_end t)). assert (vpn_range (inner t) = r) as Er by (unfold r, area_start, area_end, lm_start, lm_end; by destruct (vpn_range (inner t))).
  assert (frames (lm_new r) = [Unallocated]) as Ef by (cbn; rewrite Hend, sub64_small by lia; replace (area_start t + 1 - area_start t) with 1 by lia; done).
  eexists. split; [done|]. cbn [inner map_perm map_type]. rewrite Ef.
  assert (area_wf (MkArea (lm_new r) (map_type t) (map_perm t) (map_file t))) as Wa.
  { destruct W. constructor; try done. cbn [inner]. rewrite Ef. cbn. lia. }
  split_and!; try done.
  - cbn. unfold vpns. cbn. rewrite Hend. replace (area_start t + 1 - area_start t) with 1 by lia. done.
  - unfold slot. rewrite decide_True by (unfold in_area; cbn; lia). cbn [inner]. rewrite Ef. change (area_start (MkArea _ _ _ _)) with (area_start t). by rewrite Z.sub_diag.
Qed.

Lemma fork_ok k g ms M rest sh t q : proc_ok k g ms M rest -> can_fork ms sh t q -> Z.of_nat (size (gL g)) + fork_frames ms <= limit - base ->
  exists ms2 k', from_existing_user cfg strampoline ssignaltrampoline ms k = Ret (ms2, k') /\ fork_post k g ms rest (area_start t) ms2 k' /\
    forked_areas sh t ms2.
Proof.
  intros Q HF Hsz. pose proof HF as (E & Hend & Hs). pose proof Q as [K Hrep Ht Hms]. unfold fork_frames in Hsz. rewrite E, removelast_last in Hsz. set (v0 := area_start t) in *.
  assert (t ∈ areas ms) as Htin by (rewrite E; set_solver). assert (forall a, a ∈ sh -> a ∈ areas ms) as Hshin by (rewrite E; set_solver). pose proof (m_wf _ _ _ Hms t Htin) as Wt.
  destruct (map_trampolines_ok k g ms M rest Q ltac:(lia)) as (ms0 & k0 & pt1 & k1 & pt2 & k2 & g2 & H0 & H1 & H2 & Hs2 & FK2).
  assert (forall a v, a ∈ areas ms -> in_area a v -> trampolines !! v = None) as Htramp.
  { intros a v Ha Hv. destruct (trampolines !! v) as [e|] eqn:Et; [|done]. destruct (trampolines_high v e Et). pose proof (aw_top _ (m_wf _ _ _ Hms a Ha)). unfold in_area in Hv. lia. }
  assert (disjoint_areas sh) as Hdsh by (intros i j a b v Hi Hj; apply (m_disj _ _ _ Hms); rewrite E; by apply lookup_app_l_Some).
  destruct (fork_areas_ok k g ms M rest (perm_of sh) trampolines sh _ ∅ k2 g2 pt2 M trampolines FK2) as (pt3 & k3 & g3 & Ms & Md & H3 & Hs3 & FK3 & SP); [..|lia|].
  { by split. } { rewrite (shared_slots ms sh t q HF). set_solver. } { done. } { intros a Ha. by apply Hms, Hshin. }
  { intros a v Ha Hv. split; [apply not_elem_of_empty|]. split; [by apply (Htramp a v); [apply Hshin|]|]. split; [by exact (perm_of_spec sh a v Hdsh Ha Hv)|]. intros e. by apply (mapped_ppn k g ms M rest a v e Q); [apply Hshin|]. }
  rewrite union_empty_r_L in SP. assert (areas ms !! length sh = Some t) as Hi by (by rewrite E, list_lookup_middle).
  destruct (shared_page k g ms M rest sh t q Q HF _ t v0 Hi (slot_in _ _ _ Hs)) as [(_ & _ & ?)|(_ & _ & HvD)]; [done|].
  assert (Ms !! v0 = M !! v0) as EMs by (rewrite (proj1 SP v0), decide_False by done; done).
  assert (Md !! v0 = None) as EMd by (rewrite (proj2 SP v0), decide_False by done; by apply (Htramp t), (slot_in _ _ _ Hs)).
  destruct (m_pages _ _ _ Hms _ t v0 _ Hi Hs) as (fl & HMv & _ & _).
  destruct (from_another_ok t Wt Hend) as (a & Ha & Wa & Er & Ef & Ep & Ety & Evs & Esl & _). fold v0 in Evs, Esl.
  pose proof (page_bytes_ok (mem (wd k3)) q) as [Hql Hqb].
  destruct (push_page_ok k g ms rest _ k3 g3 pt3 Ms Md a v0 sh (take (Z.to_nat TRAP_CX_SIZE) (get_bytes_array k3 q)) FK3 Wa Evs Esl EMd Hppn (f_L _ _ _ _ _ _ _ _ _ _ FK3))
    as (p & t' & dst & k' & g' & Hpush & Hp & Hr & (lm & Hlm & Et') & FK & Hbytes); [rewrite length_take; unfold TRAP_CX_SIZE, PAGE_SIZE; lia|by apply Forall_take|lia|].
  assert (p ∉ gL g) as Hpf by (intros Hin; by apply Hp, (f_L _ _ _ _ _ _ _ _ _ _ FK3)). rewrite Ep in FK. destruct Hr as (R1 & R2 & R3 & R4 & _).
  assert (frames (inner t') = [InMemory p]) as Hft by (rewrite R2, Ef; unfold v0, area_start, lm_start; by rewrite Er, Z.sub_diag).
  assert (forall v e, trampolines !! v = Some e -> MapPermission.contains e.2 MapPermission.W = false /\ forall b, b ∈ areas ms -> ~ in_area b v) as HMd0.
  { intros v e Hv. split; [by apply trampolines_high in Hv as [_ ?]|]. intros b Hb Hbv. by rewrite (Htramp b v Hb Hbv) in Hv. }
  destruct (fork_procs k k' g g' ms M Ms Md trampolines rest sh t t' q p dst Q HF FK SP HMd0 Hpf ltac:(congruence) Hft ltac:(congruence) ltac:(congruence)) as [Q1 Q2].
  destruct (fork_views k k' g g' ms M Ms Md trampolines rest sh t t' q p dst Q HF FK SP HMd0 Hpf ltac:(congruence) Hft ltac:(congruence) ltac:(congruence)) as (V1 & V2 & V3).
  exists (MkMS dst (sh ++ [t'])), k'. split; [|split; [|exists a, p, lm; by rewrite Et']].
  - unfold from_existing_user. rewrite H0. cbn [mbind outcome_bind]. rewrite H1. cbn [mbind outcome_bind]. rewrite H2. cbn [mbind outcome_bind].
    rewrite E, last_snoc, removelast_last. cbn [mbind outcome_bind unwrap]. rewrite H3. cbn [mbind outcome_bind]. rewrite Ha. cbn [mbind outcome_bind].
    destruct (pt_query_ok (page_table ms) (mem (wd k3)) Ms v0 (f_src _ _ _ _ _ _ _ _ _ _ FK3) (aw_vpn _ Wt v0 (slot_in _ _ _ Hs))) as (_ & Htl & _).
    fold v0. rewrite Htl, EMs, HMv. cbn [fmap option_fmap option_map fst unwrap mbind outcome_bind]. rewrite Hpush. done.
  - pose proof FK as [_ _ _ _ FT FO _ _ _ FC FM]. exists g', Ms, (<[v0 := (p, map_perm t)]> Md). split; [exact Q1|]. split; [exact Q2|]. split; [intros h Hh; apply FC, elem_of_app; by right|].
    split; [done|]. split; [done|]. split; [intros x Hx; by apply FT|]. split.
    { intros x Hx Hxr. cbn [areas] in Hx. rewrite slots_snoc, Hft in Hx. apply elem_of_app in Hx as [Hx|[= ->]%list_elem_of_singleton].
      - rewrite (shared_slots ms sh t q HF). apply elem_of_app. by left.
      - destruct (fork_fresh k g ms M rest p Q Hpf). apply elem_of_app. by right. }
    split; [done|]. split; [done|]. fold v0 in V3. rewrite V3. unfold view. rewrite (slot_of_lookup _ _ t v0 (m_disj _ _ _ Hms) Hi (slot_in _ _ _ Hs)), Hs. cbn.
    replace (length (take (Z.to_nat TRAP_CX_SIZE) (get_bytes_array k3 q))) with (Z.to_nat TRAP_CX_SIZE) in Hbytes by (rewrite length_take; unfold get_bytes_array, TRAP_CX_SIZE, PAGE_SIZE in *; lia).
    f_equal. rewrite Hbytes. f_equal. apply (f_c _ _ _ _ _ _ _ _ _ _ FK3 (InMemory q)). apply elem_of_app. left. by eapply slot_elem.
Qed.
End Trampolines.

(** ** Fork in a system of processes *)
Lemma system_fork k g ps extra i ms M v0 ms2 k' : sys_ok (vpn_ok := vpn_ok) (rep := rep) (base := base) (limit := limit) (zrep := zrep) (srep := srep) k g ps extra -> ps !! i = Some (ms, M) ->
  fork_post k g ms (trackers (delete i ps) ++ extra) v0 ms2 k' ->
  exists g' Mp Mc, sys_ok (vpn_ok := vpn_ok) (rep := rep) (base := base) (limit := limit) (zrep := zrep) (srep := srep) k' g' (<[i := (ms, Mp)]> ps ++ [(ms2, Mc)]) extra /\
    (forall j msj Mj u, ps !! j = Some (msj, Mj) -> view msj k' g' u = view msj k g u) /\ (forall u, u <> v0 -> view ms2 k' g' u = view ms k g u) /\
    take (Z.to_nat TRAP_CX_SIZE) <$> view ms2 k' g' v0 = take (Z.to_nat TRAP_CX_SIZE) <$> view ms k g v0.
Proof.
  intros Y Hi (g' & Mp & Mc & Q1 & Q2 & Hrest & Hmem & HO & Htab & Hslots & V1 & V2 & V3). exists g', Mp, Mc.
  set (R := trackers (delete i ps)) in *.
  destruct (system_step k g ps extra (slots (areas ms2) ++ extra) i ms M k' g' ms Mp Y Hi) as [Y' V'].
  - eapply proc_ok_perm; [|exact Q1]. fold R. rewrite !app_assoc. by rewrite (Permutation_app_comm (slots (areas ms2))).
  - by constructor.
  - intros p Hp Hn. rewrite occ_app, (occ_not_in _ (slots (areas ms2))); [done|]. intros Hin. apply Hn, (Hslots p Hin), elem_of_app. by left.
  - split_and!; try done.
    + apply system_join; [done| |].
      * eapply proc_ok_perm; [|exact Q2]. rewrite (trackers_update ps i _ (ms, Mp) Hi). cbn. by rewrite <- app_assoc.
      * intros j pr x Hj Hx Hx2. apply (Htab x Hx2). apply (k_live _ _ _ _ _ _ _ (sys_kok _ _ _ _ _ _ _ Y Hi)). left.
        apply list_lookup_insert_Some in Hj as [(<- & <- & _)|[_ Hj]]; [by apply (q_tables _ _ _ _ _ (y_proc _ _ _ _ Y i ms M Hi))|]. destruct pr as [msj Mj].
        by apply (q_tables _ _ _ _ _ (y_proc _ _ _ _ Y j msj Mj Hj)).
    + intros j msj Mj u Hj. destruct (decide (j = i)) as [->|Hne]; [|by eapply V']. rewrite Hi in Hj. injection Hj as -> ->. apply V1.
Qed.
End Fork.
