(* ===== verification/MemRun.v ===== *)
(** * MemRun: what processes see of memory

    The operations on memory as transitions of the whole system, and the machine they
    implement: every process has a memory of its own, which only its own stores change. A
    page fault, and cleaning under memory pressure, change nothing anyone can see; fork
    adds a process whose memory is a copy of its parent's. The theorem of this file is a
    forward simulation: as long as there are frames and swap space and faults are on
    pages with no file behind them, no operation panics, and each one does what that
    machine does. *)
From S2P Require Import Prelude AllocSpec Address FrameAlloc Bytes PageTable PageStore Trackers MapArea Pid MemorySet AddressSpace Reclaim MemSystem Fork.
Import StackFrameAllocator.

Inductive mem_event : Type :=
| EvFault (i : nat) (addr : Z)
| EvStore (i : nat) (addr b : Z)
| EvShallow (i : nat)
| EvDeep (i : nat)
| EvFork (i : nat).

(** ** The machine of private memories *)

(** [pg j u]: page [u] of process [j], of [n] processes. *)
Definition pages := nat -> Z -> option (list Z).
Definition abs_step (n : nat) (pg : pages) (e : mem_event) (pg' : pages) : Prop :=
  match e with
  | EvFault _ _ | EvShallow _ | EvDeep _ => forall j u, pg' j u = pg j u
  | EvStore i addr b => exists hit : bool, forall j u,
      pg' j u = if hit && bool_decide (j = i /\ u = addr_floor addr) then <[Z.to_nat (page_offset addr) := b]> <$> pg j u else pg j u
  | EvFork i => exists v0, (forall j u, j <> n -> pg' j u = pg j u) /\ (forall u, u <> v0 -> pg' n u = pg i u) /\
      take (Z.to_nat TRAP_CX_SIZE) <$> pg' n v0 = take (Z.to_nat TRAP_CX_SIZE) <$> pg i v0
  end.

(** Runs, from [n] processes on. *)
Definition after (n : nat) (e : mem_event) : nat := match e with EvFork _ => S n | _ => n end.
Inductive abs_run : nat -> pages -> list mem_event -> pages -> Prop :=
| abs_done n pg : abs_run n pg [] pg
| abs_next n pg e pg1 es pg2 : abs_step n pg e pg1 -> abs_run (after n e) pg1 es pg2 -> abs_run n pg (e :: es) pg2.

(** In that machine a page of a process changes only by its own stores to that page. *)
Lemma abs_run_isolated n pg es pg' : abs_run n pg es pg' -> forall j u, (j < n)%nat ->
  (forall addr b, EvStore j addr b ∈ es -> addr_floor addr <> u) -> pg' j u = pg j u.
Proof.
  induction 1 as [|n pg e pg1 es pg2 Hstep Hrun IH]; intros j u Hj Hst; [done|].
  rewrite IH; [|destruct e; cbn; lia|intros addr b Hin; apply (Hst addr b); by right].
  destruct e as [i a|i a b|i|i|i]; cbn in Hstep; try done.
  - destruct Hstep as [hit Hstep]. rewrite Hstep. destruct hit; [|done]. cbn. case_bool_decide as D; [|done]. destruct D as [-> ->]. by destruct (Hst a b ltac:(left)).
  - destruct Hstep as (v0 & Hold & _). apply Hold. lia.
Qed.

Section MemRun.
Context {cfg : config} {base limit : Z} {ZS SS T F : Type} `{!PageStore ZS} `{!PageStore SS} `{!PageTable T} `{!MapFile F}.
Context {zrep : ZS -> gmap Z (list Z) -> Prop} {zroom : gmap Z (list Z) -> Prop} `{!PageStoreOk ZS zrep zroom} `{!PageStoreTotal ZS zrep}.
Context {srep : SS -> gmap Z (list Z) -> Prop} {sroom : gmap Z (list Z) -> Prop} `{!PageStoreOk SS srep sroom}.
Context {vpn_ok ppn_ok : Z -> Prop} {rep : T -> pmem -> gmap Z (Z * Z) -> Prop} `{!PageTableOk T base limit vpn_ok ppn_ok rep}.
Context (strampoline ssignaltrampoline : Z).
#[local] Notation kmem := (@kmem ZS SS).
#[local] Notation MapArea := (@MapArea F).
#[local] Notation MemorySet := (@MemorySet T F).
#[local] Notation kok := (kok base limit zrep srep).
#[local] Notation sys_ok := (sys_ok (base := base) (limit := limit) (zrep := zrep) (srep := srep) (vpn_ok := vpn_ok) (rep := rep)).
Implicit Types (k : kmem) (g : ghost) (extra : list Frame) (ms : MemorySet) (ps : list (MemorySet * gmap Z (Z * Z))).

(** ** The system *)

Record memsys : Type := MkSys { kern : kmem; procs : list MemorySet }.
Definition set_proc (s : memsys) (i : nat) ms k : memsys := MkSys k (<[i := ms]> (procs s)).
Implicit Types (s : memsys).

Definition mem_exec s (e : mem_event) : outcome memsys :=
  match e with
  | EvFault i addr => ms ← unwrap (procs s !! i); '(_, ms', k') ← do_page_fault cfg ms (kern s) addr; Ret (set_proc s i ms' k')
  | EvStore i addr b => ms ← unwrap (procs s !! i); Ret (match user_store ms (kern s) addr b with Some k' => set_proc s i ms k' | None => s end)
  | EvShallow i => ms ← unwrap (procs s !! i); '(_, ms', k') ← do_shallow_clean cfg ms (kern s); Ret (set_proc s i ms' k')
  | EvDeep i => ms ← unwrap (procs s !! i); '(_, ms', k') ← do_deep_clean cfg ms (kern s); Ret (set_proc s i ms' k')
  | EvFork i => ms ← unwrap (procs s !! i); '(ms2, k') ← from_existing_user cfg strampoline ssignaltrampoline ms (kern s); Ret (MkSys k' (procs s ++ [ms2]))
  end.

(** What an operation needs: frames, room in the swap area, a fault on a page with no file
    behind it, and for a fork a trap context. *)
Definition swap_space k (n : nat) : Prop := forall S S', srep (swap k) S -> (size S' < size S + n)%nat -> sroom S'.
Definition allowed s (e : mem_event) : Prop :=
  match e with
  | EvFault i addr => exists ms, procs s !! i = Some ms /\ anon_at ms (addr_floor addr) /\ 3 <= unallocated_frames (fa (wd (kern s)))
  | EvStore i addr b => is_Some (procs s !! i) /\ vpn_ok (addr_floor addr) /\ byte_ok b
  | EvShallow i | EvDeep i => exists ms, procs s !! i = Some ms /\ swap_space (kern s) (active_pages (areas ms))
  | EvFork i => exists ms sh t q, procs s !! i = Some ms /\ can_fork ms sh t q /\ fork_frames ms <= unallocated_frames (fa (wd (kern s)))
  end.

(** The lists of active pages are right, and short enough for their 16-bit numbers. *)
Definition tidy ms : Prop := Forall active_ok (areas ms).
(** The state of the system stands for [pg]. *)
Definition stands s extra (pg : pages) : Prop := exists g ps, fst <$> ps = procs s /\ sys_ok (kern s) g ps extra /\
  forall j u, pg j u = procs s !! j ≫= fun ms => view ms (kern s) g u.
Definition sees s extra (pg : pages) : Prop := exists g ps, fst <$> ps = procs s /\ sys_ok (kern s) g ps extra /\ Forall tidy (procs s) /\
  forall j u, pg j u = procs s !! j ≫= fun ms => view ms (kern s) g u.

Lemma sees_stands s extra pg : sees s extra pg <-> stands s extra pg /\ Forall tidy (procs s).
Proof. split; [intros (g & ps & ? & ? & ? & ?); split; [|done]; by exists g, ps|]. intros [(g & ps & ? & ? & ?) ?]. by exists g, ps. Qed.

(** ** Each operation *)

Lemma procs_lookup s ps i ms : fst <$> ps = procs s -> procs s !! i = Some ms -> exists M, ps !! i = Some (ms, M).
Proof. intros <- Hi. rewrite list_lookup_fmap in Hi. destruct (ps !! i) as [[ms' M]|] eqn:E; [|done]. injection Hi as ->. by exists M. Qed.

Lemma free_frames k H g : kok k H g -> unallocated_frames (fa (wd k)) = limit - base - Z.of_nat (size (gL g)).
Proof. intros K. apply unallocated_frames_spec. apply K. Qed.

(** A step of process [i] alone. *)
Lemma sees_update s extra g ps i ms M k' g' ms' M' : fst <$> ps = procs s -> sys_ok (kern s) g ps extra -> Forall tidy (procs s) -> ps !! i = Some (ms, M) ->
  proc_ok (base := base) (limit := limit) (zrep := zrep) (srep := srep) (vpn_ok := vpn_ok) (rep := rep) k' g' ms' M' (trackers (delete i ps) ++ extra) ->
  proc_step (kern s) g ms (trackers (delete i ps) ++ extra) k' g' ms' -> tidy ms' ->
  sees (set_proc s i ms' k') extra (fun j u => if decide (j = i) then view ms' k' g' u else procs s !! j ≫= fun ms => view ms (kern s) g u).
Proof.
  intros Hps Y Ha Hi Q' St Ha'. destruct (system_step (kern s) g ps extra extra i ms M k' g' ms' M' Y Hi Q' St) as [Y' V]; [done|].
  exists g', (<[i := (ms', M')]> ps). assert (i < length (procs s))%nat as Hlt by (rewrite <- Hps, length_fmap; by eapply lookup_lt_Some).
  split; [cbn; rewrite list_fmap_insert; by rewrite Hps|]. split; [done|]. split; [cbn; by apply Forall_insert|].
  intros j u. cbn. case_decide as D; [subst j; by rewrite list_lookup_insert_eq|]. rewrite list_lookup_insert_ne by done.
  destruct (procs s !! j) as [msj|] eqn:Ej; [|done]. cbn. destruct (procs_lookup s ps j msj Hps Ej) as [Mj Hj]. symmetry. by eapply V.
Qed.

Lemma evicted_sees s extra pg g ps i ms n m ms' k' g' : fst <$> ps = procs s -> sys_ok (kern s) g ps extra -> Forall tidy (procs s) -> procs s !! i = Some ms ->
  (forall j u, pg j u = procs s !! j ≫= fun ms => view ms (kern s) g u) -> tidy ms' ->
  evicted (base := base) (limit := limit) (zrep := zrep) (srep := srep) (vpn_ok := vpn_ok) (rep := rep) (kern s) g ms (trackers (delete i ps) ++ extra) n m ms' k' g' ->
  exists pg', (forall j u, pg' j u = pg j u) /\ sees (set_proc s i ms' k') extra pg'.
Proof.
  intros Hps Y Ha Hi Hpg Ha' ([M' Q'] & St & V & _). destruct (procs_lookup s ps i ms Hps Hi) as [M HM]. eexists. split; [|by eapply sees_update].
  intros j u. cbn. rewrite Hpg. case_decide as D; [subst j|done]. rewrite Hi. apply V.
Qed.

Hypothesis (Hzero : zero_init cfg = false) (Hppn : forall p, base <= p < limit -> ppn_ok p).
Hypothesis (Htr : addr_aligned strampoline = true /\ ppn_ok (addr_floor strampoline)) (Hsig : addr_aligned ssignaltrampoline = true /\ ppn_ok (addr_floor ssignaltrampoline)).
Hypothesis (Hvtr : vpn_ok (2 ^ 52 - 1)) (Hvsig : vpn_ok (2 ^ 52 - 2)).

Lemma fault_sim s extra pg i addr : sees s extra pg -> allowed s (EvFault i addr) ->
  exists s' pg', mem_exec s (EvFault i addr) = Ret s' /\ abs_step (length (procs s)) pg (EvFault i addr) pg' /\ sees s' extra pg'.
Proof.
  intros (g & ps & Hps & Y & Ha & Hpg) (ms & Hi & Hfile & Hfree). destruct (procs_lookup s ps i ms Hps Hi) as [M HM]. pose proof (y_proc _ _ _ _ Y i ms M HM) as Q.
  pose proof (proj1 (Forall_lookup _ _) Ha i ms Hi) as Hms.
  rewrite (free_frames _ _ _ (q_k _ _ _ _ _ Q)) in Hfree.
  destruct (page_fault_ok Hzero Hppn (kern s) g ms M _ addr Q Hfile ltac:(lia)) as (r & ms' & k' & Hf & HP). cbn [mem_exec]. rewrite Hi. cbn [mbind outcome_bind unwrap]. rewrite Hf. cbn [mbind outcome_bind].
  pose proof (fault_active _ _ _ _ _ _ _ _ _ Q Hms Hfile Hf) as Ha'. eexists. destruct r as [pa|e].
  - destruct HP as (i' & a & p & _ & _ & _ & g' & M' & Q' & St & V & _). eexists. split; [done|]. split; [|by eapply sees_update].
    intros j u. cbn. rewrite Hpg. case_decide as D; [subst j; rewrite Hi; apply V|done].
  - destruct HP as (-> & -> & _). eexists. split; [done|]. split; [|eapply sees_update; try done; apply proc_step_refl].
    intros j u. cbn. rewrite Hpg. case_decide as D; [subst j; by rewrite Hi|done].
Qed.

Lemma store_sim s extra pg i addr b : sees s extra pg -> allowed s (EvStore i addr b) ->
  exists s' pg', mem_exec s (EvStore i addr b) = Ret s' /\ abs_step (length (procs s)) pg (EvStore i addr b) pg' /\ sees s' extra pg'.
Proof.
  intros (g & ps & Hps & Y & Ha & Hpg) ([ms Hi] & Hv & Hb). destruct (procs_lookup s ps i ms Hps Hi) as [M HM]. pose proof (y_proc _ _ _ _ Y i ms M HM) as Q.
  pose proof (proj1 (Forall_lookup _ _) Ha i ms Hi) as Hms. cbn [mem_exec]. rewrite Hi. cbn [mbind outcome_bind unwrap].
  destruct (user_store ms (kern s) addr b) as [k'|] eqn:Hst; [|exists s, pg; split; [done|]; split; [by exists false|]; by exists g, ps].
  destruct (user_store_ok (kern s) g ms M _ addr b k' Q Hv Hb Hst) as (Q' & St & V). eexists _, _. split; [done|]. split; [|by eapply sees_update].
  exists true. intros j u. cbn. rewrite Hpg. case_decide as D; [subst j|by rewrite bool_decide_false by tauto]. rewrite Hi. cbn. rewrite V.
  case_decide as D; [by rewrite bool_decide_true|by rewrite bool_decide_false by tauto].
Qed.


Lemma shallow_sim s extra pg i : sees s extra pg -> allowed s (EvShallow i) ->
  exists s' pg', mem_exec s (EvShallow i) = Ret s' /\ abs_step (length (procs s)) pg (EvShallow i) pg' /\ sees s' extra pg'.
Proof.
  intros (g & ps & Hps & Y & Ha & Hpg) (ms & Hi & Hsw). destruct (procs_lookup s ps i ms Hps Hi) as [M HM]. pose proof (y_proc _ _ _ _ Y i ms M HM) as Q.
  pose proof (proj1 (Forall_lookup _ _) Ha i ms Hi) as Hms.
  destruct (shallow_clean_ok (cfg := cfg) (kern s) g ms M _ Q Hms) as (n & ms' & k' & g' & Hc & HE & Ha' & _); [intros S; apply (Hsw _ S), (k_swap _ _ _ _ _ _ _ (q_k _ _ _ _ _ Q))|].
  destruct (evicted_sees s extra pg g ps i ms n n ms' k' g' Hps Y Ha Hi Hpg Ha' HE) as (pg' & Hpg' & Hs').
  exists (set_proc s i ms' k'), pg'. split; [|done]. cbn [mem_exec]. rewrite Hi. cbn [mbind outcome_bind unwrap]. by rewrite Hc.
Qed.

Lemma deep_sim s extra pg i : sees s extra pg -> allowed s (EvDeep i) ->
  exists s' pg', mem_exec s (EvDeep i) = Ret s' /\ abs_step (length (procs s)) pg (EvDeep i) pg' /\ sees s' extra pg'.
Proof.
  intros (g & ps & Hps & Y & Ha & Hpg) (ms & Hi & Hsw). destruct (procs_lookup s ps i ms Hps Hi) as [M HM]. pose proof (y_proc _ _ _ _ Y i ms M HM) as Q.
  pose proof (proj1 (Forall_lookup _ _) Ha i ms Hi) as Hms.
  destruct (deep_clean_ok (cfg := cfg) (kern s) g ms M _ Q Hms) as (n & m & ms' & k' & g' & Hc & HE & _ & Ha' & _); [intros S; apply (Hsw _ S), (k_swap _ _ _ _ _ _ _ (q_k _ _ _ _ _ Q))|].
  destruct (evicted_sees s extra pg g ps i ms n m ms' k' g' Hps Y Ha Hi Hpg Ha' HE) as (pg' & Hpg' & Hs').
  exists (set_proc s i ms' k'), pg'. split; [|done]. cbn [mem_exec]. rewrite Hi. cbn [mbind outcome_bind unwrap]. by rewrite Hc.
Qed.

Lemma fork_sim s extra pg i : sees s extra pg -> allowed s (EvFork i) ->
  exists s' pg', mem_exec s (EvFork i) = Ret s' /\ abs_step (length (procs s)) pg (EvFork i) pg' /\ sees s' extra pg'.
Proof.
  intros (g & ps & Hps & Y & Ha & Hpg) (ms & sh & t & q & Hi & HF & Hfree). destruct (procs_lookup s ps i ms Hps Hi) as [M HM]. pose proof (y_proc _ _ _ _ Y i ms M HM) as Q.
  rewrite (free_frames _ _ _ (q_k _ _ _ _ _ Q)) in Hfree. pose proof (proj1 (Forall_lookup _ _) Ha i ms Hi) as Hms. pose proof HF as (E & Hend & Hs).
  destruct (fork_ok (cfg := cfg) strampoline ssignaltrampoline Hppn Htr Hsig Hvtr Hvsig (kern s) g ms M _ sh t q Q HF ltac:(lia)) as (ms2 & k' & Hf & HP & a & p & lm & Ha2 & Hlm & Ears).
  destruct (system_fork (kern s) g ps extra i ms M _ ms2 k' Y HM HP) as (g' & Mp & Mc & Y' & V & V2 & V3).
  assert (length ps = length (procs s)) as Hlen by (by rewrite <- Hps, length_fmap).
  exists (MkSys k' (procs s ++ [ms2])), (fun j u => (procs s ++ [ms2]) !! j ≫= fun ms => view ms k' g' u).
  assert (forall j msj u, procs s !! j = Some msj -> view msj k' g' u = pg j u) as Hold.
  { intros j msj u Hj. destruct (procs_lookup s ps j msj Hps Hj) as [Mj HMj]. rewrite (V j msj Mj u HMj), Hpg, Hj. done. }
  split; [cbn [mem_exec]; rewrite Hi; cbn [mbind outcome_bind unwrap]; by rewrite Hf|]. split; [exists (area_start t)|]; [split; [|split]|].
  - intros j u Hne. destruct (procs s !! j) as [msj|] eqn:Ej.
    + rewrite (lookup_app_l_Some _ _ _ _ Ej). cbn. by apply Hold.
    + rewrite Hpg, Ej. apply lookup_ge_None in Ej. rewrite lookup_ge_None_2; [done|]. rewrite length_app. cbn. lia.
  - intros u Hu. rewrite list_lookup_middle by done. cbn. rewrite V2 by done. by rewrite Hpg, Hi.
  - rewrite list_lookup_middle by done. cbn. rewrite V3. by rewrite Hpg, Hi.
  - exists g', (<[i := (ms, Mp)]> ps ++ [(ms2, Mc)]). split; [|split; [done|split; [|done]]].
    + rewrite fmap_app, list_fmap_insert, Hps. cbn. rewrite list_insert_id; done.
    + apply Forall_app. split; [done|]. constructor; [|done]. unfold tidy. rewrite Ears. unfold tidy in Hms. rewrite E in Hms. apply Forall_app in Hms as [Hsh Ht].
      apply Forall_app. split; [done|]. constructor; [|done]. pose proof (proj1 (Forall_singleton _ _) Ht) as Hta.
      assert (t ∈ areas ms) as Htin by (rewrite E; set_solver). pose proof (m_wf _ _ _ (q_ms _ _ _ _ _ Q) t Htin) as Wt.
      destruct (from_another_ok t Wt Hend) as (a' & Ea & Wa & Er & _ & _ & _ & _ & Hsl & Eact & Ef). rewrite Ha2 in Ea. injection Ea as <-.
      eapply active_ok_alloc; [exact Wa| |exact Hsl|exact Hlm]. by apply (active_ok_empty t a).
Qed.

(** The memory system implements the machine of private memories: from a state that stands
    for [pg], an operation that has what it needs does not panic, and leads to a state
    that stands for the memories after that machine's step. *)
Lemma mem_exec_sim s extra pg e : sees s extra pg -> allowed s e ->
  exists s' pg', mem_exec s e = Ret s' /\ abs_step (length (procs s)) pg e pg' /\ sees s' extra pg'.
Proof. destruct e; [apply fault_sim|apply store_sim|apply shallow_sim|apply deep_sim|apply fork_sim]. Qed.

(** ** Runs *)

Fixpoint exec_run s (es : list mem_event) : outcome memsys :=
  match es with [] => Ret s | e :: r => s' ← mem_exec s e; exec_run s' r end.
(** Every operation has what it needs when its turn comes. *)
Fixpoint allowed_run s (es : list mem_event) : Prop :=
  match es with [] => True | e :: r => allowed s e /\ forall s', mem_exec s e = Ret s' -> allowed_run s' r end.

Lemma mem_exec_length s e s' : mem_exec s e = Ret s' -> length (procs s') = after (length (procs s)) e.
Proof.
  destruct e; cbn; intros H; apply bind_ret_inv in H as (ms & Hm & H); [| | | |].
  all: try (apply bind_ret_inv in H as ([[r ms'] k'] & Hr & H); injection H as <-; cbn; by rewrite length_insert).
  - injection H as <-. destruct (user_store _ _ _ _); [cbn; by rewrite length_insert|done].
  - apply bind_ret_inv in H as ([ms2 k'] & Hr & H). injection H as <-. cbn. rewrite length_app. cbn. lia.
Qed.

Lemma exec_run_sim es : forall s extra pg, sees s extra pg -> allowed_run s es ->
  exists s' pg', exec_run s es = Ret s' /\ abs_run (length (procs s)) pg es pg' /\ sees s' extra pg'.
Proof.
  induction es as [|e es IH]; intros s extra pg Hs Hal; [by exists s, pg; split_and!; try constructor|]. destruct Hal as [Ha Hr].
  destruct (mem_exec_sim s extra pg e Hs Ha) as (s1 & pg1 & H1 & A1 & S1). destruct (IH s1 extra pg1 S1 (Hr s1 H1)) as (s2 & pg2 & H2 & A2 & S2).
  exists s2, pg2. cbn. rewrite H1. cbn [mbind outcome_bind]. split; [done|]. split; [|done]. econstructor; [exact A1|]. by rewrite <- (mem_exec_length s e s1 H1).
Qed.
End MemRun.
