(* ===== verification/KernelMemory.v ===== *)
(** * KernelMemory: the memory system of the RISC-V kernel

    The memory system of [MemRun] with the parts the RISC-V kernel uses: Sv39 page tables,
    compressed memory and the swap area. Areas with a mapped file may exist, of any kind of
    file; a page fault is followed only where no file is behind the page. *)
From S2P Require Import Prelude AllocSpec Address FrameAlloc Bytes PageTable Sv39 PageStore Trackers MapArea Pid MemorySet AddressSpace Reclaim MemSystem Fork MemRun.
Import StackFrameAllocator.

Section Kernel.
Context (cfg : config) (base limit zcap spages : Z) (compress : list Z -> list Z) (decompress : list Z -> option (list Z)).
Context {F : Type} `{!MapFile F} (strampoline ssignaltrampoline : Z).
#[local] Instance kernel_zram : PageStore Zram.t := Zram.Zram_PageStore compress decompress.
#[local] Instance kernel_page_table : PageTable Sv39PageTable.t := Sv39PageTable.sv39_page_table cfg.

Definition zram_holds (z : Zram.t) (M : gmap Z (list Z)) : Prop := Zram.rep compress z M /\ Z.of_nat (length (Zram.compressed z)) = zcap.
Definition swap_holds (s : Swap.t) (M : gmap Z (list Z)) : Prop := Swap.rep s M /\ Swap.pages s = spages.

Definition kernel_state : Type := @memsys Zram.t Swap.t Sv39PageTable.t F.
Definition kernel_sees : kernel_state -> list Frame -> pages -> Prop :=
  stands (base := base) (limit := limit) (zrep := zram_holds) (srep := swap_holds) (vpn_ok := Sv39PageTable.vpn_ok) (rep := Sv39PageTable.pt_repr).
Definition kernel_allowed : kernel_state -> list mem_event -> Prop :=
  allowed_run (cfg := cfg) (srep := swap_holds) (sroom := Swap.room spages) (vpn_ok := Sv39PageTable.vpn_ok) strampoline ssignaltrampoline.
Definition kernel_run : kernel_state -> list mem_event -> outcome kernel_state :=
  exec_run (cfg := cfg) strampoline ssignaltrampoline.

(** The frames of the allocator fit a page-table entry and are cleared when handed out,
    LZ4 restores what it compressed, and the trampolines are pages of the kernel image. *)
Record kernel_config : Prop := {
  kc_zero : zero_init cfg = false;
  kc_base : 0 <= base;
  kc_limit : limit <= 2 ^ 44;
  kc_lz4 : forall b, decompress (compress b) = Some b;
  kc_tramp : addr_aligned strampoline = true /\ Sv39PageTable.ppn_ok (addr_floor strampoline);
  kc_sig : addr_aligned ssignaltrampoline = true /\ Sv39PageTable.ppn_ok (addr_floor ssignaltrampoline);
}.

Definition kernel_proc : @kmem Zram.t Swap.t -> ghost -> @MemorySet Sv39PageTable.t F -> gmap Z (Z * Z) -> list Frame -> Prop :=
  proc_ok (base := base) (limit := limit) (zrep := zram_holds) (srep := swap_holds) (vpn_ok := Sv39PageTable.vpn_ok) (rep := Sv39PageTable.pt_repr).

Lemma kernel_ppn : kernel_config -> forall p, base <= p < limit -> Sv39PageTable.ppn_ok p.
Proof. intros [] p Hp. unfold Sv39PageTable.ppn_ok. lia. Qed.
Lemma kernel_vpns : Sv39PageTable.vpn_ok (2 ^ 52 - 1) /\ Sv39PageTable.vpn_ok (2 ^ 52 - 2).
Proof. split; right; vm_compute; split; congruence. Qed.

(** In every area the list of active pages names pages in memory, each once, and the area
    has at most 65536 pages: a page's number in its area is kept in 16 bits. *)
Definition kernel_tidy (s : kernel_state) : Prop := Forall (fun ms => Forall active_ok (areas ms)) (procs s).

Lemma kernel_run_sim : kernel_config -> forall es s extra pg, kernel_sees s extra pg -> kernel_tidy s -> kernel_allowed s es ->
  exists s' pg', kernel_run s es = Ret s' /\ abs_run (length (procs s)) pg es pg' /\ kernel_sees s' extra pg' /\ kernel_tidy s'.
Proof.
  intros C es s extra pg Hss Hts Hal. pose proof C as [Hz Hb Hl Hlz Ht Hs]. pose proof kernel_vpns as [V1 V2]. pose proof (kernel_ppn C) as Hppn.
  pose proof (Sv39PageTable.sv39_page_table_ok cfg base limit Hz Hb Hl) as Hpt. pose proof (Zram.Zram_PageStoreOk compress decompress Hlz zcap) as Hzok.
  pose proof (Zram.Zram_PageStoreTotal compress decompress Hlz zcap) as Hzt. pose proof (Swap.Swap_PageStoreOk spages) as Hsok.
  destruct (exec_run_sim strampoline ssignaltrampoline Hz Hppn Ht Hs V1 V2 es s extra pg (proj2 (sees_stands s extra pg) (conj Hss Hts)) Hal)
    as (s' & pg' & Hr & Ha & [Hs' Ht']%sees_stands). by exists s', pg'.
Qed.

(** C1: the kernel's memory system implements private memories. From a state that stands
    for the memories [pg] of its processes, every sequence of page faults, stores, cleaning
    under memory pressure and forks that finds the frames and the swap space it needs runs
    without a panic, and ends in a state that stands for what the machine of private
    memories computes: faults and cleaning change no memory, a store changes one byte of
    one process, and a fork adds a copy of its parent.
    Conditions: frames are numbered below 2^44 and cleared when handed out, and compression
    loses nothing; each fault has three free frames and is on a page with no file behind it;
    a fork is of a process whose last area is its trap context in memory; and at the start
    every area has at most 65536 pages and a list of active pages that names pages in
    memory, each once. Areas that are larger (the page numbers in the list are 16 bits
    wide) or whose list is stale are outside the theorem. *)
Theorem kernel_memory_refines es s extra pg : kernel_config -> kernel_sees s extra pg -> kernel_tidy s -> kernel_allowed s es ->
  exists s' pg', kernel_run s es = Ret s' /\ abs_run (length (procs s)) pg es pg' /\ kernel_sees s' extra pg' /\ kernel_tidy s'.
Proof. intros C. by apply kernel_run_sim. Qed.

(** C2: processes are isolated. Over every such sequence, a page of a process keeps its
    contents unless that process itself stores to it, whatever the others do and wherever
    the page is kept: shared with a parent or child, compressed, or swapped out.
    Conditions, as for the refinement: each operation finds the frames and swap space it
    needs, faults are on pages with no file behind them, a fork is of a process whose last
    area is its trap context in memory, and at the start every area has at most 65536
    pages and a list of active pages that names pages in memory, each once. *)
Theorem kernel_memory_isolated es s extra pg : kernel_config -> kernel_sees s extra pg -> kernel_tidy s -> kernel_allowed s es ->
  exists s' pg', kernel_run s es = Ret s' /\ kernel_sees s' extra pg' /\
    forall j u, (j < length (procs s))%nat -> (forall addr b, EvStore j addr b ∈ es -> addr_floor addr <> u) -> pg' j u = pg j u.
Proof.
  intros C Hs Ht Ha. destruct (kernel_run_sim C es s extra pg Hs Ht Ha) as (s' & pg' & Hr & Habs & Hs' & _). exists s', pg'. split; [done|]. split; [done|].
  exact (abs_run_isolated _ _ _ _ Habs).
Qed.


(** C4: fork. With the frames for the child's page tables it succeeds, for a process whose
    last area is its trap context: parent and child then both satisfy the invariant of
    memory sets, the parent and everyone else see the memory they saw, and the child sees
    its parent's, the page of its trap context being its own with the same
    [TRAP_CX_SIZE] bytes in front. *)
Theorem kernel_fork k g ms M rest sh t q : kernel_config -> kernel_proc k g ms M rest -> can_fork ms sh t q ->
  fork_frames ms <= unallocated_frames (fa (wd k)) ->
  exists ms2 k' g' Mp Mc, from_existing_user cfg strampoline ssignaltrampoline ms k = Ret (ms2, k') /\
    kernel_proc k' g' ms Mp (slots (areas ms2) ++ rest) /\ kernel_proc k' g' ms2 Mc (slots (areas ms) ++ rest) /\
    (forall u, view ms k' g' u = view ms k g u) /\ same_contents k g k' g' rest /\
    (forall u, u <> area_start t -> view ms2 k' g' u = view ms k g u) /\
    take (Z.to_nat TRAP_CX_SIZE) <$> view ms2 k' g' (area_start t) = take (Z.to_nat TRAP_CX_SIZE) <$> view ms k g (area_start t).
Proof.
  intros C Q HF Hfree. pose proof C as [Hz Hb Hl Hlz Ht Hs]. pose proof (kernel_ppn C) as Hppn. pose proof kernel_vpns as [V1 V2].
  pose proof (Sv39PageTable.sv39_page_table_ok cfg base limit Hz Hb Hl) as Hpt. pose proof (Zram.Zram_PageStoreOk compress decompress Hlz zcap) as Hzok.
  pose proof (Swap.Swap_PageStoreOk spages) as Hsok. rewrite (unallocated_frames_spec _ _ _ _ (k_fa _ _ _ _ _ _ _ (q_k _ _ _ _ _ Q))) in Hfree.
  destruct (fork_ok (cfg := cfg) strampoline ssignaltrampoline Hppn Ht Hs V1 V2 k g ms M rest sh t q Q HF ltac:(lia)) as (ms2 & k' & Hr & (g' & Mp & Mc & Q1 & Q2 & Hc & _ & _ & _ & _ & W1 & W2 & W3) & _).
  exists ms2, k', g', Mp, Mc. by split_and!.
Qed.

Lemma swap_room_size (S : gmap Z (list Z)) : Z.of_nat (size S) < spages -> Swap.room spages S.
Proof.
  intros Hs. destruct (decide (Exists (fun i => S !! i = None) (seqZ 0 spages))) as [(i & Hi%elem_of_seqZ & Hn)%Exists_exists|Hn]; [exists i; split; [lia|done]|].
  exfalso. assert (list_to_set (seqZ 0 spages) ⊆ dom S) as Hsub.
  { intros i Hi%elem_of_list_to_set. apply elem_of_dom. destruct (S !! i) eqn:E; [done|]. destruct Hn. apply Exists_exists. by exists i. }
  apply subseteq_size in Hsub. rewrite size_list_to_set, length_seqZ, size_dom in Hsub by apply NoDup_seqZ. lia.
Qed.

(** C12: shallow cleaning. When the swap area can take the active pages, and every area has
    at most 65536 pages and a list of active pages that names pages in memory, each once,
    it does not panic, nobody's memory changes, and as many frames become free as it
    reports. (The list is 16-bit page numbers; larger areas, and lists left stale by an
    [munmap] at the front of an area, are outside the theorem.) *)
Theorem kernel_shallow_clean k g ms M rest : kernel_config -> kernel_proc k g ms M rest -> Forall active_ok (areas ms) ->
  Z.of_nat (size (gS g) + active_pages (areas ms)) <= spages ->
  exists n ms' k' g' M', do_shallow_clean cfg ms k = Ret (n, ms', k') /\ kernel_proc k' g' ms' M' rest /\
    (forall u, view ms' k' g' u = view ms k g u) /\ same_contents k g k' g' rest /\
    unallocated_frames (fa (wd k')) = unallocated_frames (fa (wd k)) + n.
Proof.
  intros C Q Hact Hroom. pose proof C as [Hz Hb Hl Hlz Ht Hs].
  pose proof (Sv39PageTable.sv39_page_table_ok cfg base limit Hz Hb Hl) as Hpt. pose proof (Zram.Zram_PageStoreOk compress decompress Hlz zcap) as Hzok.
  pose proof (Zram.Zram_PageStoreTotal compress decompress Hlz zcap) as Hzt. pose proof (Swap.Swap_PageStoreOk spages) as Hsok.
  destruct (shallow_clean_ok (cfg := cfg) k g ms M rest Q Hact) as (n & ms' & k' & g' & Hr & ([M' Q'] & St & V & HL & _) & _); [intros S HS; apply swap_room_size; lia|].
  exists (Z.of_nat n), ms', k', g', M'. pose proof (k_fa _ _ _ _ _ _ _ (q_k _ _ _ _ _ Q)) as Hfa. pose proof (k_fa _ _ _ _ _ _ _ (q_k _ _ _ _ _ Q')) as Hfa'.
  pose proof (live_partition _ _ _ _ Hfa). pose proof (rep_limit _ _ _ _ Hfa). rewrite wrap_small in Hr by (unfold in_range; lia).
  split_and!; try done; [apply St|]. rewrite (unallocated_frames_spec _ _ _ _ Hfa), (unallocated_frames_spec _ _ _ _ Hfa'). lia.
Qed.
End Kernel.

(** ** A machine with one process *)

#[local] Instance no_files : MapFile Empty_set := {
  mf_get_offset f := match f with end; mf_get_size f := match f with end; mf_deep_clone f := f;
  mf_lseek_set f _ := Ret f; mf_lseek_cur f _ := Ret f; mf_read f _ := ([], f); mf_get_single_cache f _ := match f with end;
}.
Definition demo_cfg : config := MkConfig false false.
Definition demo_base : Z := addr_ceil 0x80400000.
Definition demo_limit : Z := addr_floor 0x80500000.
Lemma demo_config : kernel_config demo_cfg demo_base demo_limit (fun b => b) Some 0x80201000 0x80202000.
Proof. constructor; try done; vm_compute; split; congruence || (split; congruence). Qed.

(** Two areas of anonymous memory of which no page is allocated yet. *)
Definition demo_area (start end_ perm : Z) : @MapArea Empty_set := MkArea (lm_new (MkRange start end_)) Framed perm None.
Definition demo_areas : list (@MapArea Empty_set) := [demo_area 0x60000 0x60010 22; demo_area 0xffffffffffffd 0xffffffffffffe 6].
Definition demo_kmem : @kmem Zram.t Swap.t :=
  Kmem (init_frame_allocator 0x80400000 0x80500000 (World StackFrameAllocator.new (fun _ _ => 0))) ∅ (Zram.new 2048) Swap.demo.
Definition demo_proc : @kmem Zram.t Swap.t -> ghost -> @MemorySet Sv39PageTable.t Empty_set -> gmap Z (Z * Z) -> list Frame -> Prop :=
  kernel_proc demo_cfg demo_base demo_limit 2048 256 (fun b => b).

Lemma demo_kok : kok demo_base demo_limit (zram_holds 2048 (fun b => b)) (swap_holds 256) demo_kmem [] (Ghost ∅ ∅ ∅ ∅).
Proof.
  constructor; cbn; try done.
  - apply init_frame_allocator_rep; [reflexivity|vm_compute; split; congruence|vm_compute; reflexivity].
  - intros p. set_solver.
  - split; [by apply Zram.zram_rep_new|reflexivity].
  - intros i. rewrite lookup_empty. split; [by intros []|by intros ?%not_elem_of_nil].
  - split; [apply Swap.swap_rep_new; [lia|apply Swap.demo_layout]|reflexivity].
  - intros i. rewrite lookup_empty. split; [by intros []|by intros ?%not_elem_of_nil].
Qed.

Lemma demo_areas_wf a : a ∈ demo_areas -> area_wf (vpn_ok := Sv39PageTable.vpn_ok) a.
Proof.
  intros [->|[->|?%not_elem_of_nil]%elem_of_cons]%elem_of_cons; [| |done]; (constructor; [vm_compute; split; congruence|vm_compute; congruence|reflexivity|intros v Hv|reflexivity|reflexivity]).
  - left. unfold in_area in Hv. cbn in Hv. lia.
  - right. unfold in_area in Hv. cbn in Hv. lia.
Qed.
Lemma demo_areas_disjoint : disjoint_areas demo_areas.
Proof.
  intros [|[|i]] [|[|j]] a b v Ha Hb Hva Hvb; try done; injection Ha as <-; injection Hb as <-; unfold in_area in *; cbn in *; lia.
Qed.

(** The process on a new page table. *)
Definition demo_state : @memsys Zram.t Swap.t Sv39PageTable.t Empty_set :=
  match @new_bare _ _ _ Empty_set (kernel_page_table demo_cfg) demo_kmem with
  | Ret (ms, k) => MkSys k [MkMS (page_table ms) demo_areas]
  | Panic => MkSys demo_kmem []
  end.
Lemma demo_process : exists pt k g, demo_state = MkSys k [MkMS pt demo_areas] /\ demo_proc k g (MkMS pt demo_areas) ∅ [].
Proof.
  pose proof (Sv39PageTable.sv39_page_table_ok demo_cfg demo_base demo_limit eq_refl ltac:(done) ltac:(done)) as Hpt.
  pose proof (Zram.Zram_PageStoreOk (fun b => b) Some (fun b => eq_refl) 2048) as Hzok. pose proof (Swap.Swap_PageStoreOk 256) as Hsok.
  destruct (lazy_process_ok (F := Empty_set) (PageTableOk0 := Hpt) demo_kmem _ [] demo_areas demo_kok eq_refl demo_areas_wf demo_areas_disjoint) as (pt & k & g & Hn & Q).
  - intros f Hf. vm_compute in Hf. set_solver.
  - exists pt, k, g. split; [|done]. unfold demo_state, kernel_page_table. by rewrite Hn.
Qed.

Lemma demo_active : Forall active_ok demo_areas.
Proof.
  assert (forall s e p, e - s <= 65536 -> active_ok (demo_area s e p)) as H.
  { intros s e p Hl. split; [exact Hl|]. split; [apply NoDup_nil_2|]. by intros ? ?%not_elem_of_nil. }
  repeat (apply Forall_cons; split); [apply H; lia..|apply Forall_nil_2].
Qed.
Lemma demo_sees : exists pg, kernel_sees demo_cfg demo_base demo_limit 2048 256 (fun b => b) demo_state [] pg.
Proof.
  destruct demo_process as (pt & k & g & -> & Q). exists (fun j u => [MkMS pt demo_areas] !! j ≫= fun ms => view ms k g u).
  exists g, [(MkMS pt demo_areas, ∅)]. split; [done|]. split; [|done].
  - constructor.
    + intros [|i] ms M Hi; [|by destruct i]. injection Hi as <- <-. exact Q.
    + intros [|i] [|j] p1 p2 x Hi Hj; try done; by (destruct i || destruct j).
Qed.
Lemma demo_tidy : kernel_tidy demo_state.
Proof. destruct demo_process as (pt & k & g & -> & _). by apply Forall_singleton, demo_active. Qed.
Lemma demo_fault addr : exists ms, procs demo_state !! 0%nat = Some ms /\ anon_at ms (addr_floor addr) /\ 3 <= unallocated_frames (fa (wd (kern demo_state))).
Proof.
  destruct demo_process as (pt & k & g & Hd & _). exists (MkMS pt demo_areas). split; [by rewrite Hd|]. split; [apply anon_all; by repeat constructor|].
  vm_compute. congruence.
Qed.

(** Witness: the process touches a page for the first time and stores to it. *)
Lemma kernel_memory_refines_witness : let es := [EvFault 0 0x60000123; EvStore 0 0x60000123 7] in
  exists pg s' pg', kernel_run demo_cfg (fun b => b) Some 0x80201000 0x80202000 demo_state es = Ret s' /\ abs_run 1 pg es pg'.
Proof.
  destruct demo_sees as [pg Hpg]. exists pg.
  destruct (kernel_memory_refines demo_cfg demo_base demo_limit 2048 256 (fun b => b) Some 0x80201000 0x80202000
    [EvFault 0 0x60000123; EvStore 0 0x60000123 7] demo_state [] pg demo_config Hpg demo_tidy) as (s' & pg' & Hr & Ha & _).
  - split; [apply demo_fault|]. intros s1 H1. split; [|by intros]. split; [|split].
    + apply lookup_lt_is_Some_2. rewrite (mem_exec_length _ _ _ _ _ H1). vm_compute. lia.
    + left. vm_compute. split; congruence.
    + vm_compute. split; congruence.
  - exists s', pg'. by split.
Defined.

Lemma demo_store addr b : EvStore 0 addr b ∈ [EvFault 0 0x60000123; EvStore 0 0x60000123 7] -> addr_floor addr <> 0x60001.
Proof. intros [?|[[= -> ->]|?%not_elem_of_nil]%elem_of_cons]%elem_of_cons; [done| |done]. vm_compute. congruence. Qed.

(** Witness: the page next to the one stored to. *)
Lemma kernel_memory_isolated_witness : exists (pg : pages) s' (pg' : pages),
  kernel_run demo_cfg (fun b => b) Some 0x80201000 0x80202000 demo_state [EvFault 0 0x60000123; EvStore 0 0x60000123 7] = Ret s' /\
  pg' 0%nat 0x60001 = pg 0%nat 0x60001.
Proof.
  destruct demo_sees as [pg Hpg]. exists pg.
  destruct (kernel_memory_isolated demo_cfg demo_base demo_limit 2048 256 (fun b => b) Some 0x80201000 0x80202000
    [EvFault 0 0x60000123; EvStore 0 0x60000123 7] demo_state [] pg demo_config Hpg demo_tidy) as (s' & pg' & Hr & _ & Hi).
  - split; [apply demo_fault|]. intros s1 H1. split; [|by intros]. split; [|split].
    + apply lookup_lt_is_Some_2. rewrite (mem_exec_length _ _ _ _ _ H1). vm_compute. lia.
    + left. vm_compute. split; congruence.
    + vm_compute. split; congruence.
  - exists s', pg'. split; [done|]. apply Hi; [vm_compute; lia|exact demo_store].
Defined.


(** The demo process after the first access to page [v] of its area [i]. *)
Definition demo_touch (i : nat) (v : Z) : outcome (Z * @MapArea Empty_set * Sv39PageTable.t * @kmem Zram.t Swap.t) :=
  ms ← unwrap (head (procs demo_state)); a ← unwrap (demo_areas !! i);
  @map_one_zeroed_unchecked demo_cfg _ _ _ _ (kernel_page_table demo_cfg) a (page_table ms) (kern demo_state) v.
Lemma demo_touched i a v : demo_areas !! i = Some a -> slot a v = Some Unallocated -> exists p a' pt k g M, demo_touch i v = Ret (p, a', pt, k) /\
  demo_proc k g (MkMS pt (<[i := a']> demo_areas)) M [].
Proof.
  intros Hi Hs. destruct demo_process as (pt & k & g & Hd & Q).
  pose proof (Sv39PageTable.sv39_page_table_ok demo_cfg demo_base demo_limit eq_refl ltac:(done) ltac:(done)) as Hpt.
  pose proof (Zram.Zram_PageStoreOk (fun b => b) Some (fun b => eq_refl) 2048) as Hzok. pose proof (Swap.Swap_PageStoreOk 256) as Hsok.
  pose proof (kernel_ppn _ _ _ _ _ _ _ demo_config) as Hppn.
  assert (3 <= unallocated_frames (fa (wd k))) as Hfree by (assert (kern demo_state = k) as <- by (by rewrite Hd); vm_compute; congruence).
  rewrite (unallocated_frames_spec _ _ _ _ (k_fa _ _ _ _ _ _ _ (q_k _ _ _ _ _ Q))) in Hfree.
  destruct (lazy_fault_ok (cfg := demo_cfg) (PageStoreOk0 := Hzok) (PageStoreOk1 := Hsok) (PageTableOk0 := Hpt) eq_refl Hppn k g (MkMS pt demo_areas) ∅ [] i a v Q Hi Hs ltac:(lia))
    as (p & a' & pt' & k' & Hm & g' & M' & Q' & _). exists p, a', pt', k', g', M'. split; [|exact Q'].
  unfold demo_touch. rewrite Hd. cbn [head procs unwrap mbind outcome_bind]. rewrite Hi. exact Hm.
Qed.

(** The trap context of the demo process is in memory. *)
Definition demo_trap : @MapArea Empty_set :=
  MkArea (LM (MkRange 0xffffffffffffd 0xffffffffffffe) [InMemory 0x80401] [0] 0 0) Framed 6 None.
Lemma demo_with_trap : exists pt k g M, demo_proc k g (MkMS pt [demo_area 0x60000 0x60010 22; demo_trap]) M [] /\ unallocated_frames (fa (wd k)) = 252.
Proof.
  destruct (demo_touched 1 (demo_area 0xffffffffffffd 0xffffffffffffe 6) 0xffffffffffffd eq_refl eq_refl) as (p & a' & pt & k & g & M & Ht & Q).
  assert ((r ← demo_touch 1 0xffffffffffffd; Ret (r.1.1.2, unallocated_frames (fa (wd r.2)))) = Ret (demo_trap, 252)) as E by (vm_compute; reflexivity).
  rewrite Ht in E. cbn [mbind outcome_bind fst snd] in E. injection E as -> Hf. by exists pt, k, g, M.
Qed.

(** Witness: the demo process forks. *)
Lemma kernel_fork_witness : exists k g ms M ms2 k', demo_proc k g ms M [] /\
  @from_existing_user demo_cfg _ _ _ _ (kernel_zram (fun b => b) Some) _ (kernel_page_table demo_cfg) 0x80201000 0x80202000 ms k = Ret (ms2, k').
Proof.
  destruct demo_with_trap as (pt & k & g & M & Q & Hf).
  destruct (kernel_fork demo_cfg demo_base demo_limit 2048 256 (fun b => b) Some 0x80201000 0x80202000 k g _ M [] [demo_area 0x60000 0x60010 22] demo_trap 0x80401 demo_config Q)
    as (ms2 & k' & g' & Mp & Mc & Hr & _).
  - by split_and!.
  - rewrite Hf. vm_compute. congruence.
  - by exists k, g, (MkMS pt [demo_area 0x60000 0x60010 22; demo_trap]), M, ms2, k'.
Defined.

(** The demo process with one page in memory, at the start of its first area. *)
Definition demo_page : @MapArea Empty_set :=
  MkArea (LM (MkRange 0x60000 0x60010) (InMemory 0x80401 :: replicate 15 Unallocated) [0] 0 0) Framed 22 None.
Lemma demo_with_page : exists pt k g M, demo_proc k g (MkMS pt [demo_page; demo_area 0xffffffffffffd 0xffffffffffffe 6]) M [] /\ gS g = ∅.
Proof.
  destruct (demo_touched 0 (demo_area 0x60000 0x60010 22) 0x60000 eq_refl eq_refl) as (p & a' & pt & k & g & M & Ht & Q).
  assert ((r ← demo_touch 0 0x60000; Ret r.1.1.2) = Ret demo_page) as E by (vm_compute; reflexivity).
  rewrite Ht in E. cbn [mbind outcome_bind fst snd] in E. injection E as ->. exists pt, k, g, M. split; [exact Q|].
  apply map_eq. intros id. rewrite lookup_empty. destruct (gS g !! id) as [b|] eqn:E; [|done].
  assert (is_Some (gS g !! id)) as Hin%(k_sdom _ _ _ _ _ _ _ (q_k _ _ _ _ _ Q)) by done. cbn in Hin. clear -Hin. set_solver.
Qed.

(** Witness: the page is compressed, and its frame becomes free. *)
Lemma kernel_shallow_clean_witness : exists k g ms M n ms' k', demo_proc k g ms M [] /\
  @do_shallow_clean demo_cfg _ _ _ _ (kernel_zram (fun b => b) Some) _ (kernel_page_table demo_cfg) ms k = Ret (n, ms', k') /\
  unallocated_frames (fa (wd k')) = unallocated_frames (fa (wd k)) + n.
Proof.
  destruct demo_with_page as (pt & k & g & M & Q & Hs).
  destruct (kernel_shallow_clean demo_cfg demo_base demo_limit 2048 256 (fun b => b) Some 0x80201000 0x80202000 k g _ M [] demo_config Q)
    as (n & ms' & k' & g' & M' & Hr & _ & _ & _ & Hn).
  - repeat (apply Forall_cons; split); [| |apply Forall_nil_2]; (split; [vm_compute; congruence|split]); [apply NoDup_singleton| |apply NoDup_nil_2|].
    + intros idx ->%list_elem_of_singleton. split; [done|]. by eexists.
    + by intros ? ?%not_elem_of_nil.
  - rewrite Hs. vm_compute. congruence.
  - by exists k, g, (MkMS pt [demo_page; demo_area 0xffffffffffffd 0xffffffffffffe 6]), M, n, ms', k'.
Defined.
