(* ===== verification/UserBuffer.v ===== *)
(** * UserBuffer: the kernel's access to user memory (os/src/mm/page_table.rs)

    A range of user addresses is translated into slices of the frames behind it; pages
    that are not mapped are brought in by the page-fault handler on the way. A user buffer
    is a list of such slices; the copy functions read and write through them, or directly
    when the data lies in one page. *)
From S2P Require Import Prelude Errno AllocSpec Address FrameAlloc Bytes PageTable PageStore Trackers MapArea Pid MemorySet.
Import StackFrameAllocator.

(** ** Slices of physical memory *)

(** [&'static mut [u8]] of one frame: bytes [s_lo] to [s_hi] of frame [s_ppn]. *)
Record slice : Type := Slice { s_ppn : Z; s_lo : Z; s_hi : Z }.
Definition s_len (s : slice) : Z := s_hi s - s_lo s.
Definition get_slice (ppn lo hi : Z) : outcome slice :=
  rust_assert ((lo <=? hi) && (hi <=? PAGE_SIZE)) ;; Ret (Slice ppn lo hi).
(** [l[i..j]] *)
Definition sub {A} (l : list A) (i j : Z) : list A := take (Z.to_nat (j - i)) (drop (Z.to_nat i) l).
Definition s_bytes (m : pmem) (s : slice) : list Z := sub (page_bytes m (s_ppn s)) (s_lo s) (s_hi s).
(** [slice[i..].copy_from_slice(bs)], for bytes that fit. *)
Definition s_write (m : pmem) (s : slice) (i : Z) (bs : list Z) : pmem :=
  mem_set_bytes m (s_ppn s) (list_inserts (Z.to_nat (s_lo s + i)) bs (page_bytes m (s_ppn s))).

(** Memory behind a raw pointer, byte by byte. *)
Definition phys_byte (m : pmem) (pa : Z) : Z := default 0 (page_bytes m (addr_floor pa) !! Z.to_nat (page_offset pa)).
Definition phys_read (m : pmem) (pa n : Z) : list Z := (fun i => phys_byte m (pa + i)) <$> seqZ 0 n.
Fixpoint phys_write (m : pmem) (pa : Z) (bs : list Z) : pmem :=
  match bs with
  | [] => m
  | b :: r => phys_write (mem_set_bytes m (addr_floor pa) (<[Z.to_nat (page_offset pa) := b]> (page_bytes m (addr_floor pa)))) (pa + 1) r
  end.

(** ** User buffers *)
Module UserBuffer.
Record t : Type := Mk { buffers : list slice; len : Z }.
Definition new (bs : list slice) : t := Mk bs (foldr (fun b n => s_len b + n) 0 bs).

(** [inl]: the early return with the count; [inr]: all buffers are done. *)
Fixpoint read_loop (m : pmem) (bs : list slice) (start : Z) (dst : list Z) : list Z * option Z :=
  match bs with
  | [] => (dst, None)
  | b :: r =>
      let end_ := start + s_len b in
      let dst_len := Z.of_nat (length dst) in
      if dst_len <? end_ then (list_inserts (Z.to_nat start) (take (Z.to_nat (dst_len - start)) (s_bytes m b)) dst, Some dst_len)
      else read_loop m r end_ (list_inserts (Z.to_nat start) (s_bytes m b) dst)
  end.
Definition read (m : pmem) (u : t) (dst : list Z) : list Z * Z :=
  let '(dst', o) := read_loop m (buffers u) 0 dst in (dst', default (len u) o).

Fixpoint write_loop (m : pmem) (bs : list slice) (start : Z) (src : list Z) : pmem * option Z :=
  match bs with
  | [] => (m, None)
  | b :: r =>
      let end_ := start + s_len b in
      let src_len := Z.of_nat (length src) in
      if src_len <? end_ then (s_write m b 0 (drop (Z.to_nat start) src), Some src_len)
      else write_loop (s_write m b 0 (sub src start end_)) r end_ src
  end.
Definition write (m : pmem) (u : t) (src : list Z) : pmem * Z :=
  let '(m', o) := write_loop m (buffers u) 0 src in (m', default (len u) o).

Fixpoint read_at_loop (m : pmem) (bs : list slice) (dst_start offset : Z) (dst : list Z) (n : Z) : list Z * Z :=
  match bs with
  | [] => (dst, n)
  | b :: r =>
      let dst_end := dst_start + s_len b in
      let copy_start := Z.max dst_start offset in
      let copy_end := Z.min dst_end (Z.of_nat (length dst) + offset) in
      if copy_end <=? copy_start then read_at_loop m r dst_end offset dst n
      else read_at_loop m r dst_end offset
             (list_inserts (Z.to_nat (copy_start - offset)) (sub (s_bytes m b) (copy_start - dst_start) (copy_end - dst_start)) dst)
             (n + (copy_end - copy_start))
  end.
Definition read_at (m : pmem) (u : t) (offset : Z) (dst : list Z) : list Z * Z :=
  if len u <=? offset then (dst, 0) else read_at_loop m (buffers u) 0 offset dst 0.
Fixpoint write_at_loop (m : pmem) (bs : list slice) (dst_start offset : Z) (src : list Z) (n : Z) : pmem * Z :=
  match bs with
  | [] => (m, n)
  | b :: r =>
      let dst_end := dst_start + s_len b in
      let copy_start := Z.max dst_start offset in
      let copy_end := Z.min dst_end (Z.of_nat (length src) + offset) in
      if copy_end <=? copy_start then write_at_loop m r dst_end offset src n
      else write_at_loop (s_write m b (copy_start - dst_start) (sub src (copy_start - offset) (copy_end - offset)))
             r dst_end offset src (n + (copy_end - copy_start))
  end.
Definition write_at (m : pmem) (u : t) (offset : Z) (src : list Z) : pmem * Z :=
  if len u <=? offset then (m, 0) else write_at_loop m (buffers u) 0 offset src 0.
Definition clear (m : pmem) (u : t) : pmem :=
  foldl (fun m b => s_write m b 0 (replicate (Z.to_nat (s_len b)) 0)) m (buffers u).

(** Frame and offset of byte [left] of the buffers. *)
Fixpoint index_loop (bs : list slice) (left : Z) : outcome (Z * Z) :=
  match bs with
  | [] => Panic
  | b :: r => if left <? s_len b then Ret (s_ppn b, s_lo b + left) else index_loop r (left - s_len b)
  end.
Definition index (u : t) (i : Z) : outcome (Z * Z) := rust_assert (i <? len u) ;; index_loop (buffers u) i.

Record iter : Type := MkIter { it_buffers : list slice; current_buffer : Z; current_idx : Z }.
Definition into_iter (u : t) : iter := MkIter (buffers u) 0 0.
Definition next (it : iter) : outcome (option (Z * Z) * iter) :=
  if Z.of_nat (length (it_buffers it)) <=? current_buffer it then Ret (None, it)
  else
    b ← Prelude.index (it_buffers it) (current_buffer it);
    rust_assert (current_idx it <? s_len b) ;;
    let r := (s_ppn b, s_lo b + current_idx it) in
    Ret (Some r, if current_idx it + 1 =? s_len b then MkIter (it_buffers it) (current_buffer it + 1) 0
                 else MkIter (it_buffers it) (current_buffer it) (current_idx it + 1)).
End UserBuffer.

(** ** Translation and copying *)
Section UserMemory.
Context (cfg : config) {ZS SS T F : Type} `{!PageStore ZS} `{!PageStore SS} `{!PageTable T} `{!MapFile F}.
#[local] Notation kmem := (@kmem ZS SS).
#[local] Notation MemorySet := (@MemorySet T F).
(** The handler of memory pressure behind [frame_reserve]. *)
Context (oom : Z -> kmem -> bool * kmem).

Definition gen_start_end (start end_ : Z) : Z * Z := (addr_floor start, addr_ceil end_).

(** The frame of a page. The table behind the token of the current task is the page table
    of its memory set; only its root is used. *)
Definition translate_page (ms : MemorySet) (k : kmem) (vpn : Z) : outcome (Result Z Z * MemorySet * kmem) :=
  match pt_translate (page_table ms) (mem (wd k)) vpn with
  | Some ppn => Ret (Ok ppn, ms, k)
  | None =>
      '(r, ms', k') ← check_page_fault cfg oom ms k (addr_from_pn vpn);
      Ret (map_ok addr_floor r, ms', k')
  end.
Definition translate_addr (ms : MemorySet) (k : kmem) (va : Z) : outcome (Result Z Z * MemorySet * kmem) :=
  match pt_translate_va (page_table ms) (mem (wd k)) va with
  | Some pa => Ret (Ok pa, ms, k)
  | None => check_page_fault cfg oom ms k va
  end.

(** [while start < end], once per page. *)
Fixpoint translate_loop (fuel : nat) (v : list slice) (ms : MemorySet) (k : kmem) (start end_ : Z)
    : outcome (Result unit Z * list slice * MemorySet * kmem) :=
  match fuel with
  | O => Panic
  | S fuel =>
      if start <? end_ then
        let vpn := addr_floor start in
        '(r, ms', k') ← translate_page ms k vpn;
        match r with
        | Err e => Ret (Err e, v, ms', k')
        | Ok ppn =>
            let end_va := Z.min (addr_from_pn (vpn ⊕ 1)) end_ in
            s ← get_slice ppn (page_offset start) (if page_offset end_va =? 0 then PAGE_SIZE else page_offset end_va);
            translate_loop fuel (v ++ [s]) ms' k' end_va end_
        end
      else Ret (Ok tt, v, ms, k)
  end.
Definition pages_of (start end_ : Z) : nat := Z.to_nat (addr_floor end_ - addr_floor start + 2).
Definition translated_byte_buffer_append_to_existing_vec (v : list slice) (ms : MemorySet) (k : kmem) (ptr len : Z)
    : outcome (Result unit Z * list slice * MemorySet * kmem) :=
  let end_ := ptr ⊕ len in
  translate_loop (pages_of ptr end_) v ms k ptr end_.
Definition translated_byte_buffer (ms : MemorySet) (k : kmem) (ptr len : Z) : outcome (Result (list slice) Z * MemorySet * kmem) :=
  let end_ := ptr ⊕ len in
  '(r, v, ms', k') ← translate_loop (pages_of ptr end_) [] ms k ptr end_;
  Ret (map_ok (fun _ => v) r, ms', k').

(** The loop runs to the first zero byte; [fuel] bounds the bytes looked at. *)
Fixpoint translated_str_loop (fuel : nat) (string : list Z) (ms : MemorySet) (k : kmem) (cur : Z)
    : option (outcome (Result (list Z) Z * MemorySet * kmem)) :=
  match fuel with
  | O => None
  | S fuel =>
      match translate_addr ms k cur with
      | Panic => Some Panic
      | Ret (Err e, ms', k') => Some (Ret (Err e, ms', k'))
      | Ret (Ok pa, ms', k') =>
          let ch := phys_byte (mem (wd k')) pa in
          if ch =? 0 then Some (Ret (Ok string, ms', k')) else translated_str_loop fuel (string ++ [ch]) ms' k' (cur ⊕ 1)
      end
  end.
Definition translated_str (fuel : nat) := translated_str_loop fuel [].

(** References to a value of the size of [T] are its physical address. *)
Definition translated_ref := translate_addr.
Definition translated_refmut := translate_addr.

Definition with_mem (k : kmem) (m : pmem) : kmem := with_wd k (World (fa (wd k)) m).
Definition one_page (ptr size : Z) : bool := addr_floor ptr =? addr_floor (ptr ⊕ size ⊖ 1).

(** The bytes of [*src]; [dst] is what the destination held before. *)
Definition copy_from_user_array (ms : MemorySet) (k : kmem) (src : Z) (dst : list Z) : outcome (Result (list Z) Z * MemorySet * kmem) :=
  let size := Z.of_nat (length dst) in
  if one_page src size then
    '(r, ms', k') ← translate_addr ms k src;
    Ret (map_ok (fun pa => phys_read (mem (wd k')) pa size) r, ms', k')
  else
    '(r, ms', k') ← translated_byte_buffer ms k src size;
    Ret (map_ok (fun v => fst (UserBuffer.read (mem (wd k')) (UserBuffer.new v) dst)) r, ms', k').
Definition copy_to_user_array (ms : MemorySet) (k : kmem) (src : list Z) (dst : Z) : outcome (Result unit Z * MemorySet * kmem) :=
  let size := Z.of_nat (length src) in
  if one_page dst size then
    '(r, ms', k') ← translate_addr ms k dst;
    Ret (match r with Ok pa => (Ok tt, ms', with_mem k' (phys_write (mem (wd k')) pa src)) | Err e => (Err e, ms', k') end)
  else
    '(r, ms', k') ← translated_byte_buffer ms k dst size;
    Ret (match r with
         | Ok v => (Ok tt, ms', with_mem k' (fst (UserBuffer.write (mem (wd k')) (UserBuffer.new v) src)))
         | Err e => (Err e, ms', k')
         end).
(** One value: the same steps through [translated_ref] and [translated_refmut]. *)
Definition copy_from_user (ms : MemorySet) (k : kmem) (src : Z) (dst : list Z) : outcome (Result (list Z) Z * MemorySet * kmem) :=
  let size := Z.of_nat (length dst) in
  if one_page src size then
    '(r, ms', k') ← translated_ref ms k src;
    Ret (map_ok (fun pa => phys_read (mem (wd k')) pa size) r, ms', k')
  else
    '(r, ms', k') ← translated_byte_buffer ms k src size;
    Ret (map_ok (fun v => fst (UserBuffer.read (mem (wd k')) (UserBuffer.new v) dst)) r, ms', k').
Definition copy_to_user (ms : MemorySet) (k : kmem) (src : list Z) (dst : Z) : outcome (Result unit Z * MemorySet * kmem) :=
  let size := Z.of_nat (length src) in
  if one_page dst size then
    '(r, ms', k') ← translated_refmut ms k dst;
    Ret (match r with Ok pa => (Ok tt, ms', with_mem k' (phys_write (mem (wd k')) pa src)) | Err e => (Err e, ms', k') end)
  else
    '(r, ms', k') ← translated_byte_buffer ms k dst size;
    Ret (match r with
         | Ok v => (Ok tt, ms', with_mem k' (fst (UserBuffer.write (mem (wd k')) (UserBuffer.new v) src)))
         | Err e => (Err e, ms', k')
         end).
(** The destination is not initialised before; a value of [size] zero bytes stands for it. *)
Definition get_from_user (ms : MemorySet) (k : kmem) (src size : Z) : outcome (Result (list Z) Z * MemorySet * kmem) :=
  copy_from_user ms k src (replicate (Z.to_nat size) 0).
Definition try_get_from_user (ms : MemorySet) (k : kmem) (src size : Z) : outcome (Result (option (list Z)) Z * MemorySet * kmem) :=
  if negb (src =? 0) then
    '(r, ms', k') ← get_from_user ms k src size;
    Ret (map_ok Some r, ms', k')
  else Ret (Ok None, ms, k).

Definition copy_to_user_string (ms : MemorySet) (k : kmem) (src : list Z) (dst : Z) : outcome (Result unit Z * MemorySet * kmem) :=
  let size := Z.of_nat (length src) in
  '(r, ms1, k1) ← translate_addr ms k dst;
  match r with
  | Err e => Ret (Err e, ms1, k1)
  | Ok pa =>
      if addr_floor dst =? addr_floor (dst ⊕ size) then
        Ret (Ok tt, ms1, with_mem k1 (phys_write (phys_write (mem (wd k1)) pa src) (pa + size) [0]))
      else
        '(r, ms2, k2) ← translated_byte_buffer ms1 k1 dst size;
        match r with
        | Err e => Ret (Err e, ms2, k2)
        | Ok v =>
            let m := fst (UserBuffer.write (mem (wd k2)) (UserBuffer.new v) src) in
            Ret (Ok tt, ms2, with_mem k2 (phys_write m (pa + size) [0]))
        end
  end.
End UserMemory.

(** ** What a user buffer does *)

Lemma lookup_list_inserts {A} (l bs : list A) i j : (i + length bs <= length l)%nat ->
  list_inserts i bs l !! j = if decide (i <= j < i + length bs)%nat then bs !! (j - i)%nat else l !! j.
Proof.
  intros H. case_decide as D.
  - apply list_lookup_inserts; lia.
  - destruct (decide (j < i)%nat); [by rewrite list_lookup_inserts_lt|]. rewrite list_lookup_inserts_ge by lia. done.
Qed.
Lemma length_sub {A} (l : list A) i j : 0 <= i <= j -> j <= Z.of_nat (length l) -> length (sub l i j) = Z.to_nat (j - i).
Proof. intros. unfold sub. rewrite length_take, length_drop. lia. Qed.
Lemma lookup_sub {A} (l : list A) i j n : 0 <= i -> sub l i j !! n = if decide (Z.of_nat n < j - i) then l !! (Z.to_nat i + n)%nat else None.
Proof. intros. unfold sub. case_decide; [rewrite lookup_take_lt, lookup_drop by lia; done|by rewrite lookup_take_ge by lia]. Qed.
Lemma Forall_sub {A} (P : A -> Prop) l i j : Forall P l -> Forall P (sub l i j).
Proof. intros H. by apply Forall_take, Forall_drop. Qed.

Definition s_ok (s : slice) : Prop := 0 <= s_lo s <= s_hi s /\ s_hi s <= PAGE_SIZE.
(** A byte of a frame. *)
Definition mbyte (m : pmem) (l : Z * nat) : option Z := page_bytes m l.1 !! l.2.
(** The places of a list of slices, in order, and what is there. *)
Definition s_locs (s : slice) : list (Z * nat) := (fun i => (s_ppn s, Z.to_nat i)) <$> seqZ (s_lo s) (s_len s).
Definition locs (bs : list slice) : list (Z * nat) := mjoin (s_locs <$> bs).
Definition flat (m : pmem) (bs : list slice) : list Z := mjoin (s_bytes m <$> bs).
Definition total (bs : list slice) : Z := foldr (fun b n => s_len b + n) 0 bs.

Lemma s_len_nonneg s : s_ok s -> 0 <= s_len s.
Proof. unfold s_ok, s_len. lia. Qed.
Lemma length_s_bytes m s : s_ok s -> Z.of_nat (length (s_bytes m s)) = s_len s.
Proof.
  intros [H1 H2]. pose proof (page_bytes_ok m (s_ppn s)) as [Hl _]. unfold s_bytes. rewrite length_sub by lia. unfold s_len. lia.
Qed.
Lemma length_s_locs s : s_ok s -> Z.of_nat (length (s_locs s)) = s_len s.
Proof. intros H%s_len_nonneg. unfold s_locs. rewrite length_fmap, length_seqZ. lia. Qed.
Lemma s_locs_lookup s n l : s_locs s !! n = Some l -> l = (s_ppn s, Z.to_nat (s_lo s + Z.of_nat n)) /\ Z.of_nat n < s_len s.
Proof.
  unfold s_locs. rewrite list_lookup_fmap, fmap_Some. intros (i & Hi & ->). apply lookup_seqZ in Hi as [-> ?]. done.
Qed.
Lemma s_bytes_locs m s n : s_ok s -> s_bytes m s !! n = s_locs s !! n ≫= mbyte m.
Proof.
  intros [H1 H2]. unfold s_bytes. rewrite lookup_sub by lia. unfold s_locs. rewrite list_lookup_fmap. case_decide as D.
  - rewrite lookup_seqZ_lt by (unfold s_len; lia). cbn. unfold mbyte. cbn. f_equal. lia.
  - rewrite lookup_seqZ_ge by (unfold s_len; lia). done.
Qed.
Lemma flat_cons m b bs : flat m (b :: bs) = s_bytes m b ++ flat m bs.
Proof. done. Qed.
Lemma locs_cons b bs : locs (b :: bs) = s_locs b ++ locs bs.
Proof. done. Qed.
Lemma flat_length m bs : Forall s_ok bs -> Z.of_nat (length (flat m bs)) = total bs.
Proof.
  induction 1 as [|b bs Hb _ IH]; [done|]. rewrite flat_cons, length_app. cbn [total foldr]. fold (total bs).
  pose proof (length_s_bytes m b Hb). lia.
Qed.
Lemma locs_length bs : Forall s_ok bs -> Z.of_nat (length (locs bs)) = total bs.
Proof.
  induction 1 as [|b bs Hb _ IH]; [done|]. rewrite locs_cons, length_app. cbn [total foldr]. fold (total bs).
  pose proof (length_s_locs b Hb). lia.
Qed.
Lemma total_nonneg bs : Forall s_ok bs -> 0 <= total bs.
Proof. induction 1 as [|b bs Hb%s_len_nonneg _ IH]; [done|]. cbn [total foldr]. fold (total bs). lia. Qed.
Lemma flat_locs m bs n : Forall s_ok bs -> flat m bs !! n = locs bs !! n ≫= mbyte m.
Proof.
  intros H. revert n. induction H as [|b bs Hb _ IH]; intros n; [done|]. rewrite flat_cons, locs_cons.
  pose proof (length_s_bytes m b Hb). pose proof (length_s_locs b Hb).
  destruct (decide (n < length (s_bytes m b))%nat).
  - rewrite !lookup_app_l by lia. by apply s_bytes_locs.
  - rewrite !lookup_app_r by lia. rewrite IH. do 2 f_equal. lia.
Qed.

(** *** Reading *)

(** Byte [j] of [d] with [l] copied over it from place [i] on. *)
Definition copied (l d : list Z) (i : Z) (j : nat) : option Z :=
  if decide (0 <= Z.of_nat j - i < Z.of_nat (length l)) then l !! Z.to_nat (Z.of_nat j - i) else d !! j.

Lemma read_loop_spec m bs : Forall s_ok bs -> forall start dst, 0 <= start <= Z.of_nat (length dst) ->
  let r := UserBuffer.read_loop m bs start dst in
  length r.1 = length dst /\ (forall j, (j < length dst)%nat -> r.1 !! j = copied (flat m bs) dst start j) /\
  r.2 = if Z.of_nat (length dst) <? start + total bs then Some (Z.of_nat (length dst)) else None.
Proof.
  intros H. induction H as [|b lst Hb Hbs IH]; intros start dst Hs; cbn [UserBuffer.read_loop total foldr].
  { split; [done|]. split; [intros j Hj; unfold copied; cbn; case_decide; [lia|done]|]. by rewrite (proj2 (Z.ltb_ge _ _)) by lia. }
  fold (total lst). pose proof (length_s_bytes m b Hb) as Hl. pose proof (total_nonneg lst Hbs). pose proof (s_len_nonneg b Hb). rewrite flat_cons.
  pose proof (flat_length m lst Hbs) as Hfl. destruct (Z.ltb_spec (Z.of_nat (length dst)) (start + s_len b)) as [L|L]; cbn zeta.
  - rewrite (proj2 (Z.ltb_lt _ _)) by lia. cbn [fst snd]. rewrite length_inserts. split; [done|]. split; [|done]. intros j Hj.
    rewrite lookup_list_inserts by (rewrite length_take; lia). unfold copied. rewrite length_take, length_app.
    repeat case_decide; try lia; [|done]. rewrite lookup_take_lt, lookup_app_l by lia. f_equal. lia.
  - destruct (IH (start + s_len b) (list_inserts (Z.to_nat start) (s_bytes m b) dst)) as (H1 & H2 & H3); [rewrite length_inserts; lia|].
    rewrite length_inserts in *. split; [done|]. split; [|rewrite H3; by rewrite Z.add_assoc]. intros j Hj. rewrite H2 by done.
    unfold copied. rewrite length_app, lookup_list_inserts by lia. repeat case_decide; try lia; try done.
    + rewrite lookup_app_r by lia. f_equal. lia.
    + rewrite lookup_app_l by lia. f_equal. lia.
Qed.

(** [read] fills the destination from the front, as far as both reach. *)
Lemma user_buffer_read m bs dst : Forall s_ok bs ->
  UserBuffer.read m (UserBuffer.new bs) dst =
    (take (length dst) (flat m bs) ++ drop (length (flat m bs)) dst, Z.min (total bs) (Z.of_nat (length dst))).
Proof.
  intros H. unfold UserBuffer.read. cbn [UserBuffer.new UserBuffer.buffers UserBuffer.len].
  pose proof (read_loop_spec m bs H 0 dst ltac:(lia)) as (H1 & H2 & H3). pose proof (flat_length m bs H).
  destruct (UserBuffer.read_loop m bs 0 dst) as [d o]. cbn [fst snd] in *. f_equal.
  - apply list_eq. intros j. rewrite lookup_app, length_take, lookup_take, lookup_drop. destruct (decide (j < length dst)%nat) as [Hj|Hj].
    + rewrite H2 by done. unfold copied. rewrite Z.sub_0_r, Nat2Z.id. repeat case_decide; try lia; [|].
      * destruct (flat m bs !! j) eqn:E; [done|]. apply lookup_ge_None_1 in E. lia.
      * rewrite (lookup_ge_None_2 (flat m bs)) by lia. f_equal. lia.
    + rewrite (lookup_ge_None_2 d) by lia. by rewrite lookup_ge_None_2 by lia.
  - rewrite H3. fold (total bs). case_Z; cbn; lia.
Qed.

Lemma read_at_loop_spec m bs offset : Forall s_ok bs -> 0 <= offset -> forall ds dst n, 0 <= ds ->
  let r := UserBuffer.read_at_loop m bs ds offset dst n in
  length r.1 = length dst /\ (forall j, (j < length dst)%nat -> r.1 !! j = copied (flat m bs) dst (ds - offset) j) /\
  r.2 = n + Z.max 0 (Z.min (ds + total bs) (Z.of_nat (length dst) + offset) - Z.max ds offset).
Proof.
  intros H Ho. induction H as [|b lst Hb Hbs IH]; intros ds dst n Hds; cbn [UserBuffer.read_at_loop total foldr].
  { split; [done|]. split; [intros j Hj; unfold copied; cbn; case_decide; [lia|done]|]. cbn. lia. }
  fold (total lst). pose proof (length_s_bytes m b Hb) as Hl. pose proof (total_nonneg lst Hbs). pose proof (s_len_nonneg b Hb). rewrite flat_cons.
  pose proof (flat_length m lst Hbs) as Hfl. set (cs := Z.max ds offset). set (ce := Z.min (ds + s_len b) (Z.of_nat (length dst) + offset)). cbn zeta.
  destruct (Z.leb_spec ce cs) as [L|L].
  - destruct (IH (ds + s_len b) dst n ltac:(lia)) as (H1 & H2 & H3). split; [done|]. split; [|rewrite H3; lia]. intros j Hj.
    rewrite H2 by done. unfold copied. rewrite length_app. repeat case_decide; try lia; [|done]. rewrite lookup_app_r by lia. f_equal. lia.
  - assert (length (sub (s_bytes m b) (cs - ds) (ce - ds)) = Z.to_nat (ce - cs)) as Hsl by (rewrite length_sub; lia).
    destruct (IH (ds + s_len b) (list_inserts (Z.to_nat (cs - offset)) (sub (s_bytes m b) (cs - ds) (ce - ds)) dst) (n + (ce - cs)) ltac:(lia)) as (H1 & H2 & H3).
    rewrite length_inserts in *. split; [done|]. split; [|rewrite H3; lia]. intros j Hj. rewrite H2 by done.
    unfold copied. rewrite length_app, lookup_list_inserts by lia. rewrite lookup_sub by lia. repeat case_decide; try lia; try done.
    + rewrite lookup_app_r by lia. f_equal. lia.
    + rewrite lookup_app_l by lia. f_equal. lia.
Qed.

(** [read_at] is [read] of what follows the offset. *)
Lemma user_buffer_read_at m bs offset dst : Forall s_ok bs -> 0 <= offset ->
  UserBuffer.read_at m (UserBuffer.new bs) offset dst =
    (take (length dst) (drop (Z.to_nat offset) (flat m bs)) ++ drop (length (flat m bs) - Z.to_nat offset) dst,
     Z.max 0 (Z.min (total bs - offset) (Z.of_nat (length dst)))).
Proof.
  intros H Ho. unfold UserBuffer.read_at. cbn [UserBuffer.new UserBuffer.buffers UserBuffer.len]. fold (total bs). pose proof (flat_length m bs H).
  destruct (Z.leb_spec (total bs) offset) as [L|L].
  { rewrite drop_ge, take_nil by lia. replace (length (flat m bs) - Z.to_nat offset)%nat with 0%nat by lia. cbn. f_equal. lia. }
  pose proof (read_at_loop_spec m bs offset H Ho 0 dst 0 ltac:(lia)) as (H1 & H2 & H3).
  destruct (UserBuffer.read_at_loop m bs 0 offset dst 0) as [d o]. cbn [fst snd] in *. f_equal; [|lia].
  apply list_eq. intros j. rewrite lookup_app, length_take, lookup_take, lookup_drop, !lookup_drop, length_drop. destruct (decide (j < length dst)%nat) as [Hj|Hj].
  - rewrite H2 by done. unfold copied. repeat case_decide; try lia.
    + replace (Z.to_nat (Z.of_nat j - (0 - offset))) with (Z.to_nat offset + j)%nat by lia.
      destruct (flat m bs !! (Z.to_nat offset + j)%nat) eqn:E; [done|]. apply lookup_ge_None_1 in E. lia.
    + rewrite (lookup_ge_None_2 (flat m bs)) by lia. f_equal. lia.
  - rewrite (lookup_ge_None_2 d) by lia. by rewrite lookup_ge_None_2 by lia.
Qed.

(** *** Writing *)

(** The bytes go to the first places of [ls], in order, and nowhere else. *)
Definition writes (m m' : pmem) (ls : list (Z * nat)) (bs : list Z) : Prop :=
  (forall j l b, ls !! j = Some l -> bs !! j = Some b -> mbyte m' l = Some b) /\
  (forall l, l ∉ take (length bs) ls -> mbyte m' l = mbyte m l).

Lemma writes_nil m ls : writes m m ls [].
Proof. by split. Qed.
Lemma writes_app m m1 m2 ls1 ls2 bs1 bs2 : length ls1 = length bs1 -> NoDup (ls1 ++ ls2) ->
  writes m m1 ls1 bs1 -> writes m1 m2 ls2 bs2 -> writes m m2 (ls1 ++ ls2) (bs1 ++ bs2).
Proof.
  intros Hl (_ & Hd & _)%NoDup_app [W1 U1] [W2 U2]. split.
  - intros j l b. rewrite !lookup_app, Hl. destruct (decide (j < length bs1)%nat) as [Hj|Hj].
    + destruct (lookup_lt_is_Some_2 ls1 j ltac:(lia)) as [l' E1]. destruct (lookup_lt_is_Some_2 bs1 j Hj) as [b' E2].
      rewrite E1, E2. intros [= ->] [= ->]. rewrite U2; [by eapply W1|]. intros Hin.
      apply (Hd l); [by eapply list_elem_of_lookup_2|]. eapply subseteq_take; exact Hin.
    + rewrite (lookup_ge_None_2 ls1), (lookup_ge_None_2 bs1) by lia. apply W2.
  - intros l Hn. rewrite length_app, take_app in Hn. apply not_elem_of_app in Hn as [Hn1 Hn2].
    rewrite U2, U1; [done| |].
    + rewrite take_ge by lia. by rewrite take_ge in Hn1 by lia.
    + by replace (length bs1 + length bs2 - length ls1)%nat with (length bs2) in Hn2 by lia.
Qed.

Lemma page_bytes_write m s i bs p : s_ok s -> 0 <= i -> i + Z.of_nat (length bs) <= s_len s -> Forall byte_ok bs ->
  page_bytes (s_write m s i bs) p = if decide (p = s_ppn s) then list_inserts (Z.to_nat (s_lo s + i)) bs (page_bytes m p) else page_bytes m p.
Proof.
  intros [H1 H2] Hi Hl Hb. unfold s_write. case_decide as D; [subst p|by apply page_bytes_ext; intros; apply mem_set_bytes_other].
  apply page_bytes_set. pose proof (page_bytes_ok m (s_ppn s)) as [Hpl Hpb]. split; [by rewrite length_inserts|].
  apply Forall_forall. intros x [j Hj]%list_elem_of_lookup. rewrite Forall_forall in Hb, Hpb. unfold s_len in Hl.
  rewrite lookup_list_inserts in Hj by lia. case_decide; [eapply Hb|eapply Hpb]; by eapply list_elem_of_lookup_2.
Qed.

Lemma s_write_spec m s i bs : s_ok s -> 0 <= i -> i + Z.of_nat (length bs) <= s_len s -> Forall byte_ok bs ->
  writes m (s_write m s i bs) (drop (Z.to_nat i) (s_locs s)) bs.
Proof.
  intros Hs Hi Hl Hb. pose proof Hs as [H1 H2]. pose proof (page_bytes_ok m (s_ppn s)) as [Hpl _]. pose proof (length_s_locs s Hs) as Hll. unfold s_len in *. split.
  - intros j l b Hj Hbj. rewrite lookup_drop in Hj. apply s_locs_lookup in Hj as [-> Hjl]. assert (j < length bs)%nat by (by eapply lookup_lt_Some).
    unfold mbyte. cbn [fst snd]. rewrite page_bytes_write, decide_True, lookup_list_inserts by (done || unfold s_len; lia).
    rewrite decide_True by lia. rewrite <- Hbj. f_equal. lia.
  - intros [p o] Hn. unfold mbyte. cbn [fst snd]. rewrite page_bytes_write by (done || unfold s_len; lia). case_decide as D; [subst p|done].
    rewrite lookup_list_inserts by lia. case_decide as D; [|done]. destruct Hn.
    apply list_elem_of_lookup. exists (o - Z.to_nat (s_lo s + i))%nat. rewrite lookup_take_lt, lookup_drop by lia.
    unfold s_locs. rewrite list_lookup_fmap, lookup_seqZ_lt by (unfold s_len; lia). cbn. do 2 f_equal. lia.
Qed.

Lemma write_loop_spec m bs src : Forall s_ok bs -> NoDup (locs bs) -> Forall byte_ok src -> forall start, 0 <= start <= Z.of_nat (length src) ->
  let r := UserBuffer.write_loop m bs start src in
  writes m r.1 (locs bs) (take (Z.to_nat (total bs)) (drop (Z.to_nat start) src)) /\
  r.2 = if Z.of_nat (length src) <? start + total bs then Some (Z.of_nat (length src)) else None.
Proof.
  intros H Hn Hb. revert m. induction H as [|b lst Hs Hbs IH]; intros m start Hst; cbn [UserBuffer.write_loop total foldr].
  { split; [by rewrite take_0|]. by rewrite (proj2 (Z.ltb_ge _ _)) by lia. }
  fold (total lst). pose proof (length_s_locs b Hs) as Hl. pose proof (total_nonneg lst Hbs). pose proof (s_len_nonneg b Hs). rewrite locs_cons in Hn |- *.
  destruct (Z.ltb_spec (Z.of_nat (length src)) (start + s_len b)) as [L|L]; cbn zeta.
  - rewrite (proj2 (Z.ltb_lt _ _)) by lia. cbn [fst snd]. split; [|done].
    rewrite take_ge by (rewrite length_drop; lia).
    pose proof (s_write_spec m b 0 (drop (Z.to_nat start) src) Hs ltac:(lia) ltac:(rewrite length_drop; lia) ltac:(by apply Forall_drop)) as [W U].
    rewrite drop_0 in W, U. split.
    + intros j l x Hj Hx. apply (W j); [|done]. rewrite lookup_app_l in Hj; [done|]. apply lookup_lt_Some in Hx. rewrite length_drop in Hx. lia.
    + intros l Hnl. apply U. by rewrite take_app_le in Hnl by (rewrite length_drop; lia).
  - apply NoDup_app in Hn as Hn'. destruct (IH (proj2 (proj2 Hn')) (s_write m b 0 (sub src start (start + s_len b))) (start + s_len b) ltac:(lia)) as [W R].
    split; [|rewrite R; by rewrite Z.add_assoc].
    replace (take (Z.to_nat (s_len b + total lst)) (drop (Z.to_nat start) src))
      with (sub src start (start + s_len b) ++ take (Z.to_nat (total lst)) (drop (Z.to_nat (start + s_len b)) src)).
    2: { unfold sub. replace (start + s_len b - start) with (s_len b) by lia. replace (Z.to_nat (start + s_len b)) with (Z.to_nat start + Z.to_nat (s_len b))%nat by lia.
         replace (Z.to_nat (s_len b + total lst)) with (Z.to_nat (s_len b) + Z.to_nat (total lst))%nat by lia.
         by rewrite <- drop_drop, take_take_drop. }
    assert (length (sub src start (start + s_len b)) = Z.to_nat (s_len b)) as Hsl by (rewrite length_sub; lia).
    eapply writes_app; [lia|done| |exact W].
    apply (s_write_spec m b 0 (sub src start (start + s_len b))); [done|lia|lia|by apply Forall_sub].
Qed.

(** [write] fills the buffers from the front, as far as the source reaches. *)
Lemma user_buffer_write m bs src : Forall s_ok bs -> NoDup (locs bs) -> Forall byte_ok src ->
  let r := UserBuffer.write m (UserBuffer.new bs) src in
  writes m r.1 (locs bs) (take (Z.to_nat (total bs)) src) /\ r.2 = Z.min (total bs) (Z.of_nat (length src)).
Proof.
  intros H Hn Hb. unfold UserBuffer.write. cbn [UserBuffer.new UserBuffer.buffers UserBuffer.len].
  pose proof (write_loop_spec m bs src H Hn Hb 0 ltac:(lia)) as [W R].
  destruct (UserBuffer.write_loop m bs 0 src) as [m' o]. cbn [fst snd] in *. split; [done|]. rewrite R. fold (total bs). case_Z; cbn; lia.
Qed.

Lemma writes_pad m m' ls ls' bs : writes m m' ls bs -> (length bs <= length ls)%nat -> writes m m' (ls ++ ls') bs.
Proof.
  intros [W U] Hl. split.
  - intros j l b Hj Hb. apply (W j l b); [|done]. rewrite lookup_app_l in Hj; [done|]. apply lookup_lt_Some in Hb. lia.
  - intros l Hn. apply U. by rewrite take_app_le in Hn.
Qed.
Lemma writes_then_nothing m m1 m2 ls ls' bs : writes m m1 ls bs -> writes m1 m2 ls' [] -> writes m m2 ls bs.
Proof.
  intros [W U] [_ U']. assert (forall l, mbyte m2 l = mbyte m1 l) as E by (intros l; apply U'; apply not_elem_of_nil).
  split; [intros j l b Hj Hb; rewrite E; by apply (W j l b)|intros l Hl; rewrite E; by apply U].
Qed.
Lemma sub_empty {A} (l : list A) i j : j <= i -> sub l i j = [].
Proof. intros. unfold sub. replace (Z.to_nat (j - i)) with 0%nat by lia. apply take_0. Qed.
Lemma sub_app {A} (l : list A) i j n : 0 <= i <= j -> j <= n -> sub l i j ++ sub l j n = sub l i n.
Proof.
  intros. unfold sub. replace (Z.to_nat j) with (Z.to_nat i + Z.to_nat (j - i))%nat by lia.
  replace (Z.to_nat (n - i)) with (Z.to_nat (j - i) + Z.to_nat (n - j))%nat by lia. by rewrite <- drop_drop, take_take_drop.
Qed.

Lemma write_at_loop_spec m bs offset src : Forall s_ok bs -> NoDup (locs bs) -> Forall byte_ok src -> 0 <= offset -> forall ds n, 0 <= ds ->
  let r := UserBuffer.write_at_loop m bs ds offset src n in
  let lo := Z.max ds offset in
  let hi := Z.min (ds + total bs) (Z.of_nat (length src) + offset) in
  writes m r.1 (drop (Z.to_nat (lo - ds)) (locs bs)) (sub src (lo - offset) (hi - offset)) /\ r.2 = n + Z.max 0 (hi - lo).
Proof.
  intros H Hn Hb Ho. revert m. induction H as [|b lst Hs Hbs IH]; intros m ds n Hds; cbn [UserBuffer.write_at_loop total foldr].
  { rewrite sub_empty by lia. split; [apply writes_nil|]. cbn. lia. }
  fold (total lst). pose proof (length_s_locs b Hs) as Hl. pose proof (total_nonneg lst Hbs). pose proof (s_len_nonneg b Hs). rewrite locs_cons in Hn |- *.
  pose proof (NoDup_app (s_locs b) (locs lst)) as [(Hn1 & Hn2 & Hn3) _]; [done|]. specialize (IH Hn3).
  set (cs := Z.max ds offset). set (ce := Z.min (ds + s_len b) (Z.of_nat (length src) + offset)). cbn zeta.
  destruct (Z.leb_spec ce cs) as [L|L].
  - destruct (IH m (ds + s_len b) n ltac:(lia)) as [W R]. split; [|rewrite R; lia].
    destruct (decide (ds + s_len b <= cs)) as [D|D].
    + rewrite drop_app_ge by lia. replace (Z.max (ds + s_len b) offset) with cs in W by lia.
      replace (Z.to_nat (cs - ds) - length (s_locs b))%nat with (Z.to_nat (cs - (ds + s_len b))) by lia. by rewrite Z.add_assoc.
    + rewrite sub_empty in W |- * by lia. eapply writes_then_nothing; [apply writes_nil|exact W].
  - set (piece := sub src (cs - offset) (ce - offset)). assert (length piece = Z.to_nat (ce - cs)) as Hpl by (unfold piece; rewrite length_sub; lia).
    assert (length (drop (Z.to_nat (cs - ds)) (s_locs b)) = Z.to_nat (ds + s_len b - cs)) as Hdl by (rewrite length_drop; lia).
    destruct (IH (s_write m b (cs - ds) piece) (ds + s_len b) (n + (ce - cs)) ltac:(lia)) as [W R]. split; [|rewrite R; lia].
    pose proof (s_write_spec m b (cs - ds) piece Hs ltac:(lia) ltac:(lia) ltac:(by apply Forall_sub)) as W1.
    rewrite drop_app_le by lia. destruct (decide (ds + s_len b <= Z.of_nat (length src) + offset)) as [D|D].
    + assert (ce = ds + s_len b) as Ece by lia. replace (Z.max (ds + s_len b) offset) with (ds + s_len b) in W by lia.
      rewrite Z.sub_diag in W. change (Z.to_nat 0) with 0%nat in W. rewrite drop_0 in W. rewrite Z.add_assoc.
      rewrite <- (sub_app src (cs - offset) (ds + s_len b - offset)) by lia.
      replace (sub src (cs - offset) (ds + s_len b - offset)) with piece by (unfold piece; by rewrite Ece).
      eapply writes_app; [lia| |exact W1|exact W].
      rewrite <- (drop_app_le (s_locs b) (locs lst)) by lia. eapply sublist_NoDup; [exact Hn|apply sublist_drop].
    + rewrite sub_empty in W by lia. replace (Z.min (ds + (s_len b + total lst)) (Z.of_nat (length src) + offset)) with ce by lia.
      fold piece. apply writes_pad; [|lia]. eapply writes_then_nothing; [exact W1|exact W].
Qed.

(** [write_at] is [write] of the buffers behind the offset. *)
Lemma user_buffer_write_at m bs offset src : Forall s_ok bs -> NoDup (locs bs) -> Forall byte_ok src -> 0 <= offset ->
  let r := UserBuffer.write_at m (UserBuffer.new bs) offset src in
  writes m r.1 (drop (Z.to_nat offset) (locs bs)) (take (Z.to_nat (total bs - offset)) src) /\
  r.2 = Z.max 0 (Z.min (total bs - offset) (Z.of_nat (length src))).
Proof.
  intros H Hn Hb Ho. unfold UserBuffer.write_at. cbn [UserBuffer.new UserBuffer.buffers UserBuffer.len]. fold (total bs).
  destruct (Z.leb_spec (total bs) offset) as [L|L].
  { replace (Z.to_nat (total bs - offset)) with 0%nat by lia. rewrite take_0. split; [apply writes_nil|]. cbn. lia. }
  pose proof (write_at_loop_spec m bs offset src H Hn Hb Ho 0 0 ltac:(lia)) as [W R]. cbn zeta in *. split; [|lia].
  replace (Z.max 0 offset) with offset in W by lia. rewrite Z.sub_0_r, Z.sub_diag, Z.add_0_l in W. unfold sub in W. rewrite drop_0, Z.sub_0_r in W.
  replace (take (Z.to_nat (total bs - offset)) src) with (take (Z.to_nat (Z.min (total bs) (Z.of_nat (length src) + offset) - offset)) src); [done|].
  destruct (decide (total bs - offset <= Z.of_nat (length src))); [f_equal; lia|]. rewrite !take_ge by lia. done.
Qed.

(** What was written is read back. *)
Lemma writes_flat m m' bs offset src : Forall s_ok bs -> writes m m' (drop (Z.to_nat offset) (locs bs)) src -> 0 <= offset ->
  offset + Z.of_nat (length src) <= total bs -> take (length src) (drop (Z.to_nat offset) (flat m' bs)) = src.
Proof.
  intros H [W _] Ho Hl. apply list_eq. intros j. destruct (decide (j < length src)%nat) as [Hj|Hj].
  - rewrite lookup_take_lt, lookup_drop, flat_locs by done. pose proof (locs_length bs H).
    destruct (lookup_lt_is_Some_2 (locs bs) (Z.to_nat offset + j) ltac:(lia)) as [l El]. destruct (lookup_lt_is_Some_2 src j Hj) as [x Ex].
    rewrite El, Ex. cbn. apply (W j); [by rewrite lookup_drop|done].
  - rewrite lookup_take_ge, lookup_ge_None_2 by lia. done.
Qed.

(** A user buffer behaves as one array. For slices of distinct memory, [write_at] stores
    the source at the offset, as far as the buffer reaches, changes no other byte of
    memory, and returns the count; [read_at] at the same offset then returns the bytes that
    were written, whatever the boundaries of the slices. *)
Theorem user_buffer_roundtrip m bs offset src dst : Forall s_ok bs -> NoDup (locs bs) -> Forall byte_ok src ->
  0 <= offset -> offset + Z.of_nat (length src) <= total bs -> length dst = length src ->
  let '(m', n) := UserBuffer.write_at m (UserBuffer.new bs) offset src in
  n = Z.of_nat (length src) /\ UserBuffer.read_at m' (UserBuffer.new bs) offset dst = (src, n) /\
  forall l, l ∉ take (length src) (drop (Z.to_nat offset) (locs bs)) -> mbyte m' l = mbyte m l.
Proof.
  intros H Hn Hb Ho Hl Hd. pose proof (user_buffer_write_at m bs offset src H Hn Hb Ho) as [W R].
  destruct (UserBuffer.write_at m (UserBuffer.new bs) offset src) as [m' n]. cbn [fst snd] in W, R. rewrite take_ge in W by lia.
  split; [lia|]. split; [|apply W]. rewrite user_buffer_read_at by done. rewrite Hd, (writes_flat m m' bs offset src H W Ho Hl).
  rewrite drop_ge by (pose proof (flat_length m' bs H); lia). rewrite app_nil_r. f_equal. lia.
Qed.

Definition demo_slices : list slice := [Slice 0x80400 4092 4096; Slice 0x80402 0 8; Slice 0x80401 0 8].
Lemma user_buffer_roundtrip_witness :
  let '(m', n) := UserBuffer.write_at (fun _ _ => 0) (UserBuffer.new demo_slices) 2 [1; 2; 3; 4] in
  n = 4 /\ UserBuffer.read_at m' (UserBuffer.new demo_slices) 2 [0; 0; 0; 0] = ([1; 2; 3; 4], 4).
Proof.
  assert (NoDup (locs demo_slices)) as Hn by (apply (bool_decide_unpack _); vm_compute; exact I).
  assert (Forall s_ok demo_slices) as Hs by (repeat constructor; unfold PAGE_SIZE; cbn; lia).
  pose proof (user_buffer_roundtrip (fun _ _ => 0) demo_slices 2 [1; 2; 3; 4] [0; 0; 0; 0] Hs Hn
    ltac:(repeat constructor; unfold byte_ok; lia) ltac:(lia) ltac:(vm_compute; congruence) eq_refl) as P.
  destruct (UserBuffer.write_at (fun _ _ => 0) (UserBuffer.new demo_slices) 2 [1; 2; 3; 4]) as [m' n].
  destruct P as (P1 & P2 & _). split; [exact P1|]. rewrite P2, P1. reflexivity.
Defined.

(** *** Indexing and iteration *)

Definition loc_of (l : Z * Z) : Z * nat := (l.1, Z.to_nat l.2).

Lemma index_loop_spec bs : Forall s_ok bs -> forall i, 0 <= i < total bs ->
  exists l, UserBuffer.index_loop bs i = Ret l /\ locs bs !! Z.to_nat i = Some (loc_of l).
Proof.
  induction 1 as [|b lst Hs Hbs IH]; intros i Hi; cbn [UserBuffer.index_loop total foldr] in *; [lia|]. fold (total lst) in Hi.
  pose proof (length_s_locs b Hs) as Hl. rewrite locs_cons. destruct (Z.ltb_spec i (s_len b)) as [L|L].
  - eexists. split; [done|]. rewrite lookup_app_l by lia. unfold s_locs. rewrite list_lookup_fmap, lookup_seqZ_lt by lia.
    cbn. unfold loc_of. cbn. do 3 f_equal. lia.
  - destruct (IH (i - s_len b) ltac:(lia)) as (l & Hr & Hl'). exists l. split; [done|]. rewrite lookup_app_r by lia. rewrite <- Hl'. f_equal. lia.
Qed.

(** Calling [next] [n] times. *)
Fixpoint drain (n : nat) (it : UserBuffer.iter) : outcome (list (Z * Z) * UserBuffer.iter) :=
  match n with
  | O => Ret ([], it)
  | S n' =>
      '(o, it1) ← UserBuffer.next it;
      '(l, it2) ← drain n' it1;
      Ret (match o with Some x => x :: l | None => l end, it2)
  end.
(** What an iterator has still to deliver. *)
Definition remaining (it : UserBuffer.iter) : list (Z * nat) :=
  drop (Z.to_nat (UserBuffer.current_idx it)) (locs (drop (Z.to_nat (UserBuffer.current_buffer it)) (UserBuffer.it_buffers it))).
Definition iter_ok (it : UserBuffer.iter) : Prop :=
  Forall (fun s => s_ok s /\ 0 < s_len s) (UserBuffer.it_buffers it) /\ 0 <= UserBuffer.current_buffer it /\ 0 <= UserBuffer.current_idx it /\
  match UserBuffer.it_buffers it !! Z.to_nat (UserBuffer.current_buffer it) with
  | Some b => UserBuffer.current_idx it < s_len b
  | None => UserBuffer.current_idx it = 0
  end.

Lemma drop_S' {A} (l : list A) n x : l !! n = Some x -> drop n l = x :: drop (S n) l.
Proof. revert n. induction l as [|y l IH]; intros [|n] H; cbn in *; [done|done|by injection H as ->|by apply IH]. Qed.

Lemma next_spec it : iter_ok it ->
  match remaining it with
  | [] => UserBuffer.next it = Ret (None, it)
  | l :: r => exists x it', UserBuffer.next it = Ret (Some x, it') /\ loc_of x = l /\ remaining it' = r /\ iter_ok it'
  end.
Proof.
  destruct it as [bs cb ci]. unfold iter_ok, remaining. cbn [UserBuffer.it_buffers UserBuffer.current_buffer UserBuffer.current_idx].
  intros (Hf & Hcb & Hci & Hm). unfold UserBuffer.next. cbn [UserBuffer.it_buffers UserBuffer.current_buffer UserBuffer.current_idx].
  destruct (bs !! Z.to_nat cb) as [b|] eqn:Eb.
  2: { apply lookup_ge_None_1 in Eb. rewrite Hm, (drop_ge bs) by done. cbn. by rewrite (proj2 (Z.leb_le _ _)) by lia. }
  pose proof (lookup_lt_Some _ _ _ Eb) as Hlt. destruct (Forall_lookup_1 _ _ _ _ Hf Eb) as [Hs Hpos]. pose proof (length_s_locs b Hs) as Hl.
  rewrite (proj2 (Z.leb_gt _ _)) by lia. rewrite (drop_S' bs _ b Eb), locs_cons, drop_app_le by lia.
  assert (s_locs b !! Z.to_nat ci = Some (s_ppn b, Z.to_nat (s_lo b + ci))) as El.
  { unfold s_locs. rewrite list_lookup_fmap, lookup_seqZ_lt by lia. cbn. do 3 f_equal. lia. }
  rewrite (drop_S' _ _ _ El). cbn [app]. unfold Prelude.index. rewrite Eb. cbn [unwrap mbind outcome_bind].
  rewrite (proj2 (Z.ltb_lt _ _)) by lia. cbn [rust_assert mbind outcome_bind]. eexists _, _. split; [done|]. split; [done|].
  destruct (Z.eqb_spec (ci + 1) (s_len b)) as [E|E]; cbn [UserBuffer.it_buffers UserBuffer.current_buffer UserBuffer.current_idx].
  - split; [|split_and!; try done; [lia|]].
    + rewrite (drop_ge (s_locs b)) by lia. cbn. by replace (Z.to_nat (cb + 1)) with (S (Z.to_nat cb)) by lia.
    + destruct (bs !! Z.to_nat (cb + 1)) eqn:E'; [|done]. by apply (Forall_lookup_1 _ _ _ _ Hf) in E' as [_ ?].
  - split; [|split_and!; try done; [lia|rewrite Eb; lia]].
    rewrite (drop_S' bs _ b Eb), locs_cons, drop_app_le by lia. by replace (Z.to_nat (ci + 1)) with (S (Z.to_nat ci)) by lia.
Qed.

(** Iterating over a user buffer whose slices are not empty visits its bytes in order,
    each once, then stops; indexing goes to the same places. *)
Theorem user_buffer_iter bs : Forall (fun s => s_ok s /\ 0 < s_len s) bs ->
  (exists ls it, drain (length (locs bs)) (UserBuffer.into_iter (UserBuffer.new bs)) = Ret (ls, it) /\ loc_of <$> ls = locs bs /\
     UserBuffer.next it = Ret (None, it)) /\
  (forall i, 0 <= i < total bs -> exists l, UserBuffer.index (UserBuffer.new bs) i = Ret l /\ locs bs !! Z.to_nat i = Some (loc_of l)).
Proof.
  intros H. assert (Forall s_ok bs) as Hs by (eapply Forall_impl; [exact H|]; by intros ? []). split.
  - assert (forall it, iter_ok it -> exists ls it', drain (length (remaining it)) it = Ret (ls, it') /\ loc_of <$> ls = remaining it /\
      UserBuffer.next it' = Ret (None, it')) as Hd.
    { intros it. remember (remaining it) as r eqn:Er. revert it Er. induction r as [|l r IH]; intros it Er Hit; pose proof (next_spec it Hit) as Hx; rewrite <- Er in Hx.
      - by exists [], it.
      - destruct Hx as (x & it1 & Hx & El & Er1 & Hit1). destruct (IH it1 (eq_sym Er1) Hit1) as (ls & it2 & Hdr & Els & Hend).
        exists (x :: ls), it2. cbn [length drain]. rewrite Hx. cbn [mbind outcome_bind]. rewrite Hdr. cbn. by rewrite El, Els. }
    apply (Hd (UserBuffer.into_iter (UserBuffer.new bs))). unfold iter_ok. cbn. split_and!; try done. destruct bs as [|b ?]; [done|].
    apply Forall_cons in H as [[_ ?] _]. done.
  - intros i Hi. unfold UserBuffer.index. cbn [UserBuffer.len UserBuffer.new UserBuffer.buffers]. fold (total bs).
    rewrite (proj2 (Z.ltb_lt _ _)) by lia. by apply index_loop_spec.
Qed.

Lemma user_buffer_iter_witness : exists ls it,
  drain 20 (UserBuffer.into_iter (UserBuffer.new demo_slices)) = Ret (ls, it) /\ loc_of <$> ls = locs demo_slices.
Proof.
  destruct (user_buffer_iter demo_slices) as [(ls & it & Hd & Hl & _) _]; [repeat constructor; unfold PAGE_SIZE; cbn; lia|].
  exists ls, it. split; [exact Hd|exact Hl].
Defined.
