(* ===== verification/UserSpace.v ===== *)
(** * UserSpace: what the kernel relies on when it copies from and to user space

    The interface between the parts of the kernel that exchange data with a process and
    the memory of that process. [sees u mu] says that the process sees memory [mu];
    [can_write u a n c] and [can_read u a n c] that [c] accesses within the [n] bytes at [a]
    will find what they need: pages of the process, and frames to bring them in.
    [us_write] and [us_read] are [copy_to_user] and [copy_from_user], [us_put] and [us_get]
    assignments through [translated_refmut] and reads through [translated_ref]. *)
From S2P Require Import Prelude Address Bytes PageTable.

Class UserSpace (U : Type) := {
  us_write : U -> list Z -> Z -> outcome (Result unit Z * U);
  us_read : U -> Z -> Z -> outcome (Result (list Z) Z * U);
  us_put : U -> list Z -> Z -> outcome (Result unit Z * U);
  us_get : U -> Z -> Z -> outcome (Result (list Z) Z * U);
}.

Definition updated (mu : Z -> option Z) (a : Z) (bs : list Z) (x : Z) : option Z :=
  if decide (a <= x < a + Z.of_nat (length bs)) then bs !! Z.to_nat (x - a) else mu x.
Definition inside (b m a n : Z) : Prop := a <= b /\ 0 < m /\ b + m <= a + n.

Class UserSpaceOk (U : Type) `{UserSpace U} (sees : U -> (Z -> option Z) -> Prop) (can_write can_read : U -> Z -> Z -> nat -> Prop) := {
  us_write_ok : forall u mu bs b a n c, sees u mu -> can_write u a n (S c) -> inside b (Z.of_nat (length bs)) a n -> Forall byte_ok bs ->
    exists u' mu', us_write u bs b = Ret (Ok tt, u') /\ sees u' mu' /\ (forall x, mu' x = updated mu b bs x) /\ can_write u' a n c;
  us_read_ok : forall u mu b m a n c, sees u mu -> can_read u a n (S c) -> inside b m a n ->
    exists bs u' mu', us_read u b m = Ret (Ok bs, u') /\ Z.of_nat (length bs) = m /\ (forall i, 0 <= i < m -> bs !! Z.to_nat i = mu (b + i)) /\
      sees u' mu' /\ (forall x, mu' x = mu x) /\ can_read u' a n c;
  us_put_eq : forall u bs b, 0 <= b -> (0 < length bs)%nat -> b + Z.of_nat (length bs) <= 2 ^ 63 ->
    addr_floor b = addr_floor (b + Z.of_nat (length bs) - 1) -> us_put u bs b = us_write u bs b;
  us_get_eq : forall u b m, 0 <= b -> 0 < m -> b + m <= 2 ^ 63 -> addr_floor b = addr_floor (b + m - 1) -> us_get u b m = us_read u b m;
}.

Lemma updated_in mu a bs i x : bs !! i = Some x -> updated mu a bs (a + Z.of_nat i) = Some x.
Proof.
  intros H. unfold updated. pose proof (lookup_lt_Some _ _ _ H). rewrite decide_True by lia. rewrite <- H. f_equal. lia.
Qed.
Lemma updated_out mu a bs x : x < a \/ a + Z.of_nat (length bs) <= x -> updated mu a bs x = mu x.
Proof. intros H. unfold updated. by rewrite decide_False by lia. Qed.
