(* ===== verification/UserMemory.v ===== *)
(** * UserMemory: copying from and to user space is correct

    The functions of [UserBuffer] over address spaces that satisfy the invariant of
    [AddressSpace], on ranges with no file behind them: what they read is what the process sees, what they write is what it sees
    afterwards, and an address outside its areas is answered with [EFAULT]. *)
From S2P Require Import Prelude Errno AllocSpec Address FrameAlloc Bytes PageTable PageStore Trackers MapArea Pid MemorySet AddressSpace MemSystem UserBuffer UserSpace.
Import StackFrameAllocator.

Section UserMemory.
Context {cfg : config} {base limit : Z} {ZS SS T F : Type} `{!PageStore ZS} `{!PageStore SS} `{!PageTable T} `{!MapFile F}.
Context {zrep : ZS -> gmap Z (list Z) -> Prop} {zroom : gmap Z (list Z) -> Prop} `{!PageStoreOk ZS zrep zroom}.
Context {srep : SS -> gmap Z (list Z) -> Prop} {sroom : gmap Z (list Z) -> Prop} `{!PageStoreOk SS srep sroom}.
Context {vpn_ok ppn_ok : Z -> Prop} {rep : T -> pmem -> gmap Z (Z * Z) -> Prop} `{!PageTableOk T base limit vpn_ok ppn_ok rep}.
#[local] Notation kmem := (@kmem ZS SS).
#[local] Notation MapArea := (@MapArea F).
#[local] Notation MemorySet := (@MemorySet T F).
#[local] Notation kok := (kok base limit zrep srep).
#[local] Notation proc_ok := (proc_ok (base := base) (limit := limit) (zrep := zrep) (srep := srep) (vpn_ok := vpn_ok) (rep := rep)).
Implicit Types (k : kmem) (g : ghost) (rest : list Frame) (M : gmap Z (Z * Z)) (ms : MemorySet).

(** ** Addresses *)

Lemma offset_range a : 0 <= page_offset a < PAGE_SIZE.
Proof. unfold page_offset. change (PAGE_SIZE - 1) with (Z.ones 12). rewrite Z.land_ones by lia. by apply Z.mod_pos_bound. Qed.
Lemma addr_split a : a = addr_floor a * PAGE_SIZE + page_offset a.
Proof.
  unfold addr_floor, page_offset. change (PAGE_SIZE - 1) with (Z.ones 12). rewrite Z.land_ones by lia. change (2 ^ 12) with PAGE_SIZE.
  rewrite Z.mul_comm. apply Z.div_mod. unfold PAGE_SIZE. lia.
Qed.
Lemma addr_join v o : 0 <= o < PAGE_SIZE -> addr_floor (v * PAGE_SIZE + o) = v /\ page_offset (v * PAGE_SIZE + o) = o.
Proof.
  intros Ho. unfold addr_floor. rewrite Z.div_add_l, Z.div_small, Z.add_0_r by (unfold PAGE_SIZE in *; lia). split; [done|].
  unfold page_offset. change (PAGE_SIZE - 1) with (Z.ones 12). rewrite Z.land_ones by lia. change (2 ^ 12) with PAGE_SIZE.
  rewrite Z.add_comm, Z.mod_add, Z.mod_small by (unfold PAGE_SIZE in *; lia). done.
Qed.
Lemma pn_offset_join p o : 0 <= p < 2 ^ 52 -> 0 <= o < PAGE_SIZE -> pn_offset p o = p * PAGE_SIZE + o.
Proof.
  intros Hp Ho. unfold pn_offset. pose proof (start_addr_mul p Hp) as E. unfold start_addr in E. rewrite E.
  unfold PAGE_SIZE in *. apply add64_small. unfold in_range. lia.
Qed.
Lemma page_base v : 0 <= v < 2 ^ 52 -> addr_from_pn v = v * PAGE_SIZE.
Proof. apply start_addr_mul. Qed.

(** ** One page *)

(** What bringing in pages of a process leaves: pages mapped before stay mapped, a new one
    has the permissions of a readable user area, and the process sees the same memory. *)
Record brought k g ms M rest k' g' ms' M' : Prop := {
  b_ok : proc_ok k' g' ms' M' rest;
  b_step : proc_step k g ms rest k' g' ms';
  b_view : forall u, view ms' k' g' u = view ms k g u;
  b_sub : forall u e, M !! u = Some e -> M' !! u = Some e;
  b_new : forall u p fl, M' !! u = Some (p, fl) -> M !! u = Some (p, fl) \/ exists a, a ∈ areas ms /\ fault_area u a = true /\ fl = map_perm a;
  b_shape : Forall2 same_shape (areas ms) (areas ms');
}.

Lemma shape_refl (l : list MapArea) : Forall2 same_shape l l.
Proof. apply Forall2_same_length_lookup_2; [done|]. intros i x y Hx Hy. rewrite Hx in Hy. injection Hy as <-. done. Qed.
Lemma shape_trans (l1 l2 l3 : list MapArea) : Forall2 same_shape l1 l2 -> Forall2 same_shape l2 l3 -> Forall2 same_shape l1 l3.
Proof.
  intros H. revert l3. induction H as [|a b l1 l2 (E1 & E2 & E3) _ IH]; intros l3 H3; inversion H3 as [|? c ? ? (E4 & E5 & E6) H]; subst; constructor; [|auto].
  split_and!; congruence.
Qed.
Lemma shape_fault u (a b : MapArea) : same_shape a b -> fault_area u b = fault_area u a.
Proof. intros (E1 & E2 & _). unfold fault_area, area_start, area_end, lm_start, lm_end. by rewrite E1, E2. Qed.
Lemma shape_elem (l l' : list MapArea) b : Forall2 same_shape l l' -> b ∈ l' -> exists a, a ∈ l /\ same_shape a b.
Proof.
  intros H [i Hi]%list_elem_of_lookup. destruct (Forall2_lookup_r _ _ _ _ _ H Hi) as (a & Ha & Hs). exists a. split; [by eapply list_elem_of_lookup_2|done].
Qed.
Lemma shape_elem_l (l l' : list MapArea) a : Forall2 same_shape l l' -> a ∈ l -> exists b, b ∈ l' /\ same_shape a b.
Proof.
  intros H [i Hi]%list_elem_of_lookup. destruct (Forall2_lookup_l _ _ _ _ _ H Hi) as (b & Hb & Hs). exists b. split; [by eapply list_elem_of_lookup_2|done].
Qed.
Lemma brought_refl k g ms M rest : proc_ok k g ms M rest -> brought k g ms M rest k g ms M.
Proof. intros Q. constructor; [done|apply proc_step_refl|done|done|by left|apply shape_refl]. Qed.
Lemma brought_trans k g ms M rest k1 g1 ms1 M1 k2 g2 ms2 M2 :
  brought k g ms M rest k1 g1 ms1 M1 -> brought k1 g1 ms1 M1 rest k2 g2 ms2 M2 -> brought k g ms M rest k2 g2 ms2 M2.
Proof.
  intros [A1 A2 A3 A4 A5 A6] [B1 B2 B3 B4 B5 B6]. constructor; [done|by eapply proc_step_trans|congruence|auto| |].
  - intros u p fl [Hu|(b & Hb & Hf & ->)]%B5; [by apply A5|]. right. destruct (shape_elem _ _ b A6 Hb) as (a & Ha & Hs).
    exists a. split; [done|]. rewrite <- (shape_fault u a b Hs). split; [done|]. apply Hs.
  - by eapply shape_trans.
Qed.

Lemma in_area_mapped k g ms M rest v a p fl : proc_ok k g ms M rest -> a ∈ areas ms -> in_area a v -> M !! v = Some (p, fl) ->
  exists i a', areas ms !! i = Some a' /\ slot a' v = Some (InMemory p).
Proof.
  intros Q [i Hi]%list_elem_of_lookup Hv HM. exists i, a. split; [done|].
  pose proof (m_wf _ _ _ (q_ms _ _ _ _ _ Q) a (list_elem_of_lookup_2 _ _ _ Hi)) as W. destruct (slot_some a v W Hv) as [f Hs].
  pose proof (m_pages _ _ _ (q_ms _ _ _ _ _ Q) i a v f Hi Hs) as Hp. destruct f as [q| | |]; cbn in Hp; [|congruence..].
  destruct Hp as (fl' & HM' & _). rewrite HM in HM'. by injection HM' as -> _.
Qed.
Lemma slot_frame k g ms M rest i (a : MapArea) v p : proc_ok k g ms M rest -> areas ms !! i = Some a -> slot a v = Some (InMemory p) -> base <= p < limit.
Proof.
  intros Q Hi Hs. pose proof (q_k _ _ _ _ _ Q) as K. assert (p ∈ gL g) as Hp.
  { eapply frame_live; [exact K|]. apply elem_of_app. left. by eapply slot_elem. }
  destruct (k_fa _ _ _ _ _ _ _ K) as [? ? ? ? _ _ Hl]. apply Hl in Hp. lia.
Qed.

(** Frames are handed out cleared, fit the page table's format and have an address. *)
Context (oom : Z -> kmem -> bool * kmem).
Hypothesis (Hzero : zero_init cfg = false) (Hppn : forall p, base <= p < limit -> ppn_ok p) (Hlim : limit <= 2 ^ 52).

(** The answer for page [v]: its frame, or [EFAULT] when no area has it. *)
Definition fetched k g ms M rest v (r : Result Z Z) ms' k' : Prop :=
  match r with
  | Ok p => exists g' M' fl, brought k g ms M rest k' g' ms' M' /\ M' !! v = Some (p, fl) /\
      Z.of_nat (size (gL g')) <= Z.of_nat (size (gL g)) + 3
  | Err e => e = EFAULT /\ ms' = ms /\ k' = k /\ M !! v = None /\ forall a, a ∈ areas ms -> fault_area v a = false
  end.

Lemma check_fault_ok k g ms M rest va : proc_ok k g ms M rest -> anon_at ms (addr_floor va) ->
  Z.of_nat (size (gL g)) + 3 <= limit - base -> M !! addr_floor va = None ->
  exists r ms' k', check_page_fault cfg oom ms k va = Ret (map_ok (fun p => pn_offset p (page_offset va)) r, ms', k') /\
    fetched k g ms M rest (addr_floor va) r ms' k'.
Proof.
  intros Q Hf Hs Hn. unfold check_page_fault. rewrite (unallocated_frames_spec _ _ _ _ (k_fa _ _ _ _ _ _ _ (q_k _ _ _ _ _ Q))).
  rewrite (proj2 (Z.ltb_ge _ _)) by lia. cbn [mbind outcome_bind].
  destruct (page_fault_ok Hzero Hppn k g ms M rest va Q Hf Hs) as (r & ms' & k' & Hr & HP). rewrite Hr. cbn [mbind outcome_bind].
  destruct r as [pa|e].
  - destruct HP as (i & a & p & Hi & Hfa & -> & g' & M' & Q' & St & V & HM & Hc & Hsz & Hsh). exists (Ok p), ms', k'. split; [done|].
    exists g', M', (map_perm a). split; [|done]. constructor; try done.
    + intros u e Hu. rewrite Hc; [done|]. intros ->. congruence.
    + intros u q fl Hu. destruct (decide (u = addr_floor va)) as [->|Hne]; [|left; by rewrite Hc in Hu].
      right. exists a. rewrite HM in Hu. injection Hu as _ <-. split; [by eapply list_elem_of_lookup_2|done].
  - destruct HP as (-> & -> & [[-> Ha]|(_ & _ & _ & _ & [x Hx] & _)]); [|congruence]. by exists (Err EFAULT), ms, k.
Qed.

Lemma translate_page_ok k g ms M rest v : proc_ok k g ms M rest -> anon_at ms v ->
  Z.of_nat (size (gL g)) + 3 <= limit - base -> 0 <= v < 2 ^ 52 -> vpn_ok v -> (is_Some (M !! v) -> exists a, a ∈ areas ms /\ in_area a v) ->
  exists r ms' k', translate_page cfg oom ms k v = Ret (r, ms', k') /\ fetched k g ms M rest v r ms' k'.
Proof.
  intros Q Hf Hs Hv Hok Hm. unfold translate_page. destruct (pt_query_ok (page_table ms) (mem (wd k)) M v (q_pt _ _ _ _ _ Q) Hok) as (_ & -> & _).
  destruct (M !! v) as [[p fl]|] eqn:E; cbn [fmap option_fmap option_map fst].
  - exists (Ok p), ms, k. split; [done|]. exists g, M, fl. split; [by apply brought_refl|]. split; [done|lia].
  - destruct (addr_join v 0 ltac:(unfold PAGE_SIZE; lia)) as [E1 E2]. rewrite Z.add_0_r in E1, E2. rewrite page_base by done.
    destruct (check_fault_ok k g ms M rest (v * PAGE_SIZE) Q ltac:(by rewrite E1) Hs) as (r & ms' & k' & Hr & HP); [by rewrite E1|]. rewrite Hr, E2. cbn [mbind outcome_bind].
    rewrite E1 in HP. exists r, ms', k'. split; [|done]. destruct r as [p|e]; cbn; [|done]. do 4 f_equal.
    destruct HP as (g' & M' & fl & B & HM & _). destruct (b_new _ _ _ _ _ _ _ _ _ B v p fl HM) as [|(a & Ha & Hfa & _)]; [congruence|].
    destruct (shape_elem_l _ _ a (b_shape _ _ _ _ _ _ _ _ _ B) Ha) as (b & Hb & Hsh). pose proof Hfa as [_ Hin]%fault_area_spec.
    destruct (in_area_mapped k' g' ms' M' rest v b p fl (b_ok _ _ _ _ _ _ _ _ _ B) Hb) as (i & a' & Hi & Hsl); [|done|].
    { destruct Hsh as (Er & _). revert Hin. unfold in_area, area_start, area_end, lm_start, lm_end. by rewrite Er. }
    pose proof (slot_frame k' g' ms' M' rest i a' v p (b_ok _ _ _ _ _ _ _ _ _ B) Hi Hsl) as Hp.
    pose proof (rep_base _ _ _ _ (k_fa _ _ _ _ _ _ _ (q_k _ _ _ _ _ Q))). rewrite pn_offset_join by (unfold PAGE_SIZE; lia).
    by apply addr_join; unfold PAGE_SIZE; lia.
Qed.

Lemma translate_addr_ok k g ms M rest va : proc_ok k g ms M rest -> anon_at ms (addr_floor va) ->
  Z.of_nat (size (gL g)) + 3 <= limit - base -> vpn_ok (addr_floor va) ->
  exists r ms' k', translate_addr cfg oom ms k va = Ret (map_ok (fun p => pn_offset p (page_offset va)) r, ms', k') /\
    fetched k g ms M rest (addr_floor va) r ms' k'.
Proof.
  intros Q Hf Hs Hok. unfold translate_addr. rewrite (pt_va_ok (page_table ms) (mem (wd k)) M va (q_pt _ _ _ _ _ Q) Hok).
  destruct (M !! addr_floor va) as [[p fl]|] eqn:E; cbn [fmap option_fmap option_map fst]; [|by apply (check_fault_ok k g ms M)].
  exists (Ok p), ms, k. split; [done|]. exists g, M, fl. split; [by apply brought_refl|]. split; [done|lia].
Qed.

(** ** Ranges *)

(** The place in memory of the byte at a user address. *)
Definition placed M (a : Z) (l : Z * nat) : Prop :=
  exists p fl, M !! addr_floor a = Some (p, fl) /\ l = (p, Z.to_nat (page_offset a)).
(** Mapped pages of the range belong to areas of the process. *)
Definition user_range ms M (start end_ : Z) : Prop :=
  forall a, start <= a < end_ -> vpn_ok (addr_floor a) /\ (is_Some (M !! addr_floor a) -> exists ar, ar ∈ areas ms /\ in_area ar (addr_floor a)).
(** No file is behind a page of the range. *)
Definition anon_range ms (start end_ : Z) : Prop := forall a, start <= a < end_ -> anon_at ms (addr_floor a).
Definition unmapped_page ms M (a : Z) : Prop := M !! addr_floor a = None /\ forall ar, ar ∈ areas ms -> fault_area (addr_floor a) ar = false.

Lemma shape_in v (a b : MapArea) : same_shape a b -> in_area a v -> in_area b v.
Proof. intros (E & _). unfold in_area, area_start, area_end, lm_start, lm_end. by rewrite E. Qed.
Lemma brought_range k g ms M rest k' g' ms' M' start end_ : brought k g ms M rest k' g' ms' M' -> user_range ms M start end_ -> user_range ms' M' start end_.
Proof.
  intros B HR a Ha. destruct (HR a Ha) as [Hv Hm]. split; [done|]. intros [[p fl] HM].
  destruct (b_new _ _ _ _ _ _ _ _ _ B _ p fl HM) as [Hold|(ar & Har & [_ Hin]%fault_area_spec & _)].
  - destruct (Hm ltac:(by eexists)) as (ar & Har & Hin). destruct (shape_elem_l _ _ ar (b_shape _ _ _ _ _ _ _ _ _ B) Har) as (b & Hb & Hs).
    exists b. split; [done|by eapply shape_in].
  - destruct (shape_elem_l _ _ ar (b_shape _ _ _ _ _ _ _ _ _ B) Har) as (b & Hb & Hs). exists b. split; [done|by eapply shape_in].
Qed.
Lemma shape_anon ms ms' v : Forall2 same_shape (areas ms) (areas ms') -> anon_at ms v -> anon_at ms' v.
Proof.
  intros HS Hf b Hb Hfb. destruct (shape_elem _ _ b HS Hb) as (a & Ha & Hs). rewrite (shape_fault v a b Hs) in Hfb.
  destruct Hs as (_ & _ & ->). by apply Hf.
Qed.
Lemma brought_files k g ms M rest k' g' ms' M' start end_ : brought k g ms M rest k' g' ms' M' -> anon_range ms start end_ -> anon_range ms' start end_.
Proof. intros B Hf a Ha. eapply shape_anon; [apply B|]. by apply Hf. Qed.
Lemma brought_unmapped k g ms M rest k' g' ms' M' a : brought k g ms M rest k' g' ms' M' -> unmapped_page ms' M' a -> unmapped_page ms M a.
Proof.
  intros B [Hn Hf]. split.
  - destruct (M !! addr_floor a) as [e|] eqn:E; [|done]. apply (b_sub _ _ _ _ _ _ _ _ _ B) in E. congruence.
  - intros ar Har. destruct (shape_elem_l _ _ ar (b_shape _ _ _ _ _ _ _ _ _ B) Har) as (b & Hb & Hs). by rewrite <- (shape_fault _ ar b Hs), Hf.
Qed.
Lemma brought_placed k g ms M rest k' g' ms' M' al ls : brought k g ms M rest k' g' ms' M' -> Forall2 (placed M) al ls -> Forall2 (placed M') al ls.
Proof.
  intros B H. eapply Forall2_impl; [exact H|]. intros a l (p & fl & HM & El). exists p, fl. split; [by apply (b_sub _ _ _ _ _ _ _ _ _ B)|done].
Qed.

(** The part of a range that lies in the page of its start. *)
Definition first_end (start end_ : Z) : Z := Z.min ((addr_floor start + 1) * PAGE_SIZE) end_.
Definition last_byte (e : Z) : Z := if page_offset e =? 0 then PAGE_SIZE else page_offset e.
Lemma first_part start end_ : start < end_ -> let e := first_end start end_ in
  start < e <= end_ /\ last_byte e - page_offset start = e - start /\ page_offset start < last_byte e <= PAGE_SIZE /\
  (forall a, start <= a < e -> addr_floor a = addr_floor start /\ page_offset a = page_offset start + (a - start)) /\
  (e < end_ -> e = (addr_floor start + 1) * PAGE_SIZE).
Proof.
  intros Hlt e. pose proof (addr_split start) as Es. pose proof (offset_range start) as Ho. unfold e, first_end in *. set (v := addr_floor start) in *.
  assert (last_byte e - page_offset start = e - start /\ page_offset start < last_byte e <= PAGE_SIZE) as [H1 H2].
  { unfold last_byte, e, first_end. fold v. destruct (Z.min_spec ((v + 1) * PAGE_SIZE) end_) as [[_ ->]|[Hle ->]].
    - pose proof (addr_join (v + 1) 0 ltac:(unfold PAGE_SIZE; lia)) as [_ E]. rewrite Z.add_0_r in E. rewrite E. cbn. lia.
    - destruct (decide (end_ = (v + 1) * PAGE_SIZE)) as [->|Hne].
      + pose proof (addr_join (v + 1) 0 ltac:(unfold PAGE_SIZE; lia)) as [_ E]. rewrite Z.add_0_r in E. rewrite E. cbn. lia.
      + destruct (addr_join v (end_ - v * PAGE_SIZE) ltac:(lia)) as [_ E]. replace (v * PAGE_SIZE + (end_ - v * PAGE_SIZE)) with end_ in E by lia.
        rewrite E. case_Z; lia. }
  unfold e, first_end in H1, H2. fold v in H1, H2. split; [lia|]. split; [done|]. split; [done|]. split; [|lia]. intros a Ha.
  destruct (addr_join v (page_offset start + (a - start))) as [E1 E2]; [lia|].
  replace (v * PAGE_SIZE + (page_offset start + (a - start))) with a in E1, E2 by lia. done.
Qed.

Lemma placed_slice M start end_ p fl : start < end_ -> M !! addr_floor start = Some (p, fl) -> let e := first_end start end_ in
  Forall2 (placed M) (seqZ start (e - start)) (s_locs (Slice p (page_offset start) (last_byte e))).
Proof.
  intros Hlt HM e. destruct (first_part start end_ Hlt) as (He & Hl & Hr & Ha & _). fold e in He, Hl, Hr, Ha.
  apply Forall2_same_length_lookup_2.
  - unfold s_locs, s_len. cbn. rewrite length_fmap, !length_seqZ. lia.
  - intros n a l Hn Hs. apply lookup_seqZ in Hn as [-> Hn]. apply s_locs_lookup in Hs as [-> _]. cbn. exists p, fl.
    destruct (Ha (start + Z.of_nat n) ltac:(lia)) as [-> ->]. split; [done|]. do 2 f_equal. lia.
Qed.

(** What translating a range gives: slices with the places of its bytes in order, or
    [EFAULT] because of a page that is not mapped and in no readable user area. At most [d]
    frames are taken. *)
Definition translated k g ms M rest (start end_ d : Z) (r : Result unit Z) (sl : list slice) ms' k' : Prop :=
  exists g' M', brought k g ms M rest k' g' ms' M' /\ Z.of_nat (size (gL g')) <= Z.of_nat (size (gL g)) + d /\
  match r with
  | Ok _ => Forall (fun s => s_ok s /\ 0 < s_len s) sl /\ Forall2 (placed M') (seqZ start (end_ - start)) (locs sl)
  | Err e => e = EFAULT /\ exists a, start <= a < end_ /\ unmapped_page ms M a
  end.

Lemma translated_cons k g ms M rest k1 g1 ms1 M1 start end_ p fl d r sl ms' k' : start < end_ -> brought k g ms M rest k1 g1 ms1 M1 ->
  M1 !! addr_floor start = Some (p, fl) -> Z.of_nat (size (gL g1)) <= Z.of_nat (size (gL g)) + 3 ->
  translated k1 g1 ms1 M1 rest (first_end start end_) end_ d r sl ms' k' ->
  translated k g ms M rest start end_ (d + 3) r (Slice p (page_offset start) (last_byte (first_end start end_)) :: sl) ms' k'.
Proof.
  intros Hlt B HM Hsz (g' & M' & B' & Hd & HR). pose proof (offset_range start) as Ho. destruct (first_part start end_ Hlt) as (He & Hl & Hr & _).
  exists g', M'. split; [by eapply brought_trans|]. split; [lia|]. destruct r as [[]|e].
  - destruct HR as [Hs Hp]. split; [constructor; [|done]; unfold s_ok, s_len; cbn; lia|].
    rewrite locs_cons. replace (end_ - start) with ((first_end start end_ - start) + (end_ - first_end start end_)) by lia.
    rewrite seqZ_app by lia. apply Forall2_app; [|by replace (start + (first_end start end_ - start)) with (first_end start end_) by lia].
    eapply brought_placed; [exact B'|]. by eapply placed_slice.
  - destruct HR as (-> & a & Ha & Hu). split; [done|]. exists a. split; [lia|]. by eapply brought_unmapped.
Qed.

Lemma translate_loop_ok fuel : forall acc k g ms M rest start end_, proc_ok k g ms M rest -> anon_range ms start end_ ->
  Z.of_nat (size (gL g)) + 3 * Z.of_nat fuel <= limit - base -> 0 <= start -> end_ <= 2 ^ 63 -> user_range ms M start end_ ->
  1 <= Z.of_nat fuel -> (start < end_ -> addr_floor end_ - addr_floor start + 2 <= Z.of_nat fuel) ->
  exists r sl ms' k', translate_loop cfg oom fuel acc ms k start end_ = Ret (r, acc ++ sl, ms', k') /\
    translated k g ms M rest start end_ (3 * Z.of_nat fuel) r sl ms' k'.
Proof.
  induction fuel as [|fuel IH]; intros acc k g ms M rest start end_ Q Hf Hs H0 Hend HR Hfu Hm; [lia|]. cbn [translate_loop].
  destruct (Z.ltb_spec start end_) as [Hlt|Hge].
  2: { exists (Ok tt), [], ms, k. rewrite app_nil_r. split; [done|]. exists g, M. split; [by apply brought_refl|]. split; [lia|]. split; [done|].
       rewrite seqZ_nil by lia. constructor. }
  specialize (Hm Hlt). destruct (HR start ltac:(lia)) as [Hv Hmap]. pose proof (addr_split start) as Es. pose proof (offset_range start) as Ho.
  pose proof (addr_split end_) as Ee. pose proof (offset_range end_) as Hoe. unfold PAGE_SIZE in Es, Ho, Ee, Hoe.
  destruct (translate_page_ok k g ms M rest (addr_floor start) Q (Hf start ltac:(lia)) ltac:(lia) ltac:(lia) Hv Hmap) as (r & ms1 & k1 & Hr & HF). rewrite Hr. cbn [mbind outcome_bind].
  destruct r as [p|e].
  2: { destruct HF as (-> & -> & -> & Hn & Ha). exists (Err EFAULT), [], ms, k. rewrite app_nil_r. split; [done|]. exists g, M. split; [by apply brought_refl|].
       split; [lia|]. split; [done|]. exists start. split; [lia|done]. }
  destruct HF as (g1 & M1 & fl & B & HM & Hsz). rewrite add64_small by (unfold in_range; lia). rewrite page_base by lia. fold (first_end start end_).
  destruct (first_part start end_ Hlt) as (He & Hl & Hrng & Hfl & Hnext). fold (last_byte (first_end start end_)).
  unfold get_slice. rewrite (proj2 (Z.leb_le (page_offset start) _)), (proj2 (Z.leb_le _ PAGE_SIZE)) by lia. cbn [andb rust_assert mbind outcome_bind].
  destruct (IH (acc ++ [Slice p (page_offset start) (last_byte (first_end start end_))]) k1 g1 ms1 M1 rest (first_end start end_) end_) as (r & sl & ms' & k' & Hloop & HT).
  - apply B.
  - eapply brought_files; [exact B|]. intros a Ha. apply Hf. lia.
  - lia.
  - lia.
  - done.
  - eapply brought_range; [exact B|]. intros a Ha. apply HR. lia.
  - lia.
  - intros Hlt2. specialize (Hnext Hlt2). rewrite Hnext. pose proof (addr_join (addr_floor start + 1) 0 ltac:(unfold PAGE_SIZE; lia)) as [E _].
    rewrite Z.add_0_r in E. rewrite E. lia.
  - exists r, (Slice p (page_offset start) (last_byte (first_end start end_)) :: sl), ms', k'. split; [by rewrite Hloop, <- app_assoc|].
    replace (3 * Z.of_nat (S fuel)) with (3 * Z.of_nat fuel + 3) by lia. by eapply translated_cons.
Qed.

Lemma translated_byte_buffer_ok k g ms M rest ptr len : proc_ok k g ms M rest -> anon_range ms ptr (ptr + len) ->
  Z.of_nat (size (gL g)) + 3 * Z.of_nat (pages_of ptr (ptr + len)) <= limit - base -> 0 <= ptr -> 0 <= len -> ptr + len <= 2 ^ 63 -> user_range ms M ptr (ptr + len) ->
  exists r sl ms' k', translated_byte_buffer cfg oom ms k ptr len = Ret (map_ok (fun _ => sl) r, ms', k') /\
    translated k g ms M rest ptr (ptr + len) (3 * Z.of_nat (pages_of ptr (ptr + len))) r sl ms' k'.
Proof.
  intros Q Hf Hs Hp Hl Hend HR. unfold translated_byte_buffer. rewrite add64_small by (unfold in_range; lia).
  pose proof (Z.div_le_mono ptr (ptr + len) PAGE_SIZE ltac:(unfold PAGE_SIZE; lia) ltac:(lia)) as Hd. fold (addr_floor ptr) in Hd. fold (addr_floor (ptr + len)) in Hd.
  destruct (translate_loop_ok (pages_of ptr (ptr + len)) [] k g ms M rest ptr (ptr + len) Q Hf Hs Hp Hend HR) as (r & sl & ms' & k' & Hr & HT);
    [unfold pages_of; lia..|].
  rewrite Hr. cbn [mbind outcome_bind app]. by exists r, sl, ms', k'.
Qed.

(** ** Reading *)

(** The byte a process sees at an address. *)
Definition ubyte ms k g (a : Z) : option Z := view ms k g (addr_floor a) ≫= fun bs => bs !! Z.to_nat (page_offset a).

Lemma placed_slot k g ms M rest start end_ a p fl : proc_ok k g ms M rest -> user_range ms M start end_ -> start <= a < end_ ->
  M !! addr_floor a = Some (p, fl) -> exists i ar, areas ms !! i = Some ar /\ slot ar (addr_floor a) = Some (InMemory p).
Proof.
  intros Q HR Ha HM. destruct (proj2 (HR a Ha) ltac:(by eexists)) as (ar & Har & Hin). by eapply in_area_mapped.
Qed.
Lemma slot_view k g ms M rest i (ar : MapArea) v p : proc_ok k g ms M rest -> areas ms !! i = Some ar -> slot ar v = Some (InMemory p) ->
  view ms k g v = Some (page_bytes (mem (wd k)) p).
Proof.
  intros Q Hi Hs. unfold view. by rewrite (slot_of_lookup _ i ar v (m_disj _ _ _ (q_ms _ _ _ _ _ Q)) Hi (slot_in _ _ _ Hs)), Hs.
Qed.
Lemma placed_byte k g ms M rest start end_ a l : proc_ok k g ms M rest -> user_range ms M start end_ -> start <= a < end_ -> placed M a l ->
  mbyte (mem (wd k)) l = ubyte ms k g a.
Proof.
  intros Q HR Ha (p & fl & HM & ->). destruct (placed_slot k g ms M rest start end_ a p fl Q HR Ha HM) as (i & ar & Hi & Hs).
  unfold ubyte. by rewrite (slot_view k g ms M rest i ar _ p Q Hi Hs).
Qed.
Lemma ubyte_brought k g ms M rest k' g' ms' M' a : brought k g ms M rest k' g' ms' M' -> ubyte ms' k' g' a = ubyte ms k g a.
Proof. intros B. unfold ubyte. by rewrite (b_view _ _ _ _ _ _ _ _ _ B). Qed.

Lemma floor_same src size a : addr_floor src = addr_floor (src + size - 1) -> src <= a < src + size ->
  addr_floor a = addr_floor src /\ page_offset a = page_offset src + (a - src).
Proof.
  intros E Ha. assert (addr_floor a = addr_floor src) as Ef.
  { unfold addr_floor in *. pose proof (Z.div_le_mono src a PAGE_SIZE ltac:(unfold PAGE_SIZE; lia) ltac:(lia)).
    pose proof (Z.div_le_mono a (src + size - 1) PAGE_SIZE ltac:(unfold PAGE_SIZE; lia) ltac:(lia)). lia. }
  split; [done|]. pose proof (addr_split a). pose proof (addr_split src). rewrite Ef in *. lia.
Qed.
Lemma phys_offset p src i : 0 <= p < 2 ^ 52 -> 0 <= page_offset src + i < PAGE_SIZE ->
  addr_floor (pn_offset p (page_offset src) + i) = p /\ page_offset (pn_offset p (page_offset src) + i) = page_offset src + i.
Proof. intros Hp Hi. rewrite pn_offset_join by (done || apply offset_range). rewrite <- Z.add_assoc. by apply addr_join. Qed.

Lemma one_page_small ptr size : 0 <= ptr -> 0 < size -> ptr + size <= 2 ^ 63 -> one_page ptr size = (addr_floor ptr =? addr_floor (ptr + size - 1)).
Proof. intros. unfold one_page. rewrite add64_small, sub64_small by (unfold in_range; lia). done. Qed.

(** What was read is what the process sees; or a page of the range is not there. *)
Definition read_post k g ms M rest src (n : Z) (r : Result (list Z) Z) ms' k' : Prop :=
  exists g' M', brought k g ms M rest k' g' ms' M' /\ Z.of_nat (size (gL g')) <= Z.of_nat (size (gL g)) + 3 * Z.of_nat (pages_of src (src + n)) /\
  match r with
  | Ok bs => Z.of_nat (length bs) = n /\ forall i, 0 <= i < n -> bs !! Z.to_nat i = ubyte ms k g (src + i)
  | Err e => e = EFAULT /\ exists a, src <= a < src + n /\ unmapped_page ms M a
  end.

Lemma read_slices k g ms M rest start n sl : proc_ok k g ms M rest -> user_range ms M start (start + n) -> 0 <= n -> Forall (fun s => s_ok s /\ 0 < s_len s) sl ->
  Forall2 (placed M) (seqZ start n) (locs sl) -> Z.of_nat (length (flat (mem (wd k)) sl)) = n /\
  forall i, 0 <= i < n -> flat (mem (wd k)) sl !! Z.to_nat i = ubyte ms k g (start + i).
Proof.
  intros Q HR Hn Hs HP. assert (Forall s_ok sl) as Hok by (eapply Forall_impl; [exact Hs|by intros ? []]).
  pose proof (Forall2_length _ _ _ HP) as Hlen. rewrite length_seqZ in Hlen. pose proof (flat_length (mem (wd k)) sl Hok). pose proof (locs_length sl Hok).
  split; [lia|]. intros i Hi. rewrite flat_locs by done.
  destruct (Forall2_lookup_l _ _ _ (Z.to_nat i) (start + i) HP) as (l & Hl & Hp); [rewrite lookup_seqZ_lt by lia; f_equal; lia|].
  rewrite Hl. cbn. eapply placed_byte; [done|done| |done]. lia.
Qed.

Lemma copy_from_user_post k g ms M rest src dst : proc_ok k g ms M rest ->
  let n := Z.of_nat (length dst) in anon_range ms src (src + n) ->
  Z.of_nat (size (gL g)) + 3 * Z.of_nat (pages_of src (src + n)) <= limit - base -> 0 <= src -> 0 < n -> src + n <= 2 ^ 63 -> user_range ms M src (src + n) ->
  exists r ms' k', copy_from_user cfg oom ms k src dst = Ret (r, ms', k') /\ read_post k g ms M rest src n r ms' k'.
Proof.
  intros Q n Hf Hs Hp Hn Hend HR. unfold copy_from_user, translated_ref. fold n. rewrite one_page_small by done.
  assert (2 <= Z.of_nat (pages_of src (src + n))) as Hpg.
  { unfold pages_of, addr_floor. pose proof (Z.div_le_mono src (src + n) PAGE_SIZE ltac:(unfold PAGE_SIZE; lia) ltac:(lia)). lia. }
  destruct (Z.eqb_spec (addr_floor src) (addr_floor (src + n - 1))) as [E|E].
  - destruct (translate_addr_ok k g ms M rest src Q (Hf src ltac:(lia)) ltac:(lia) (proj1 (HR src ltac:(lia)))) as (r & ms' & k' & Hr & HF). rewrite Hr. cbn [mbind outcome_bind].
    eexists _, ms', k'. split; [done|]. destruct r as [p|e]; cbn [map_ok].
    2: { destruct HF as (-> & -> & -> & Hnm & Ha). exists g, M. split; [by apply brought_refl|]. split; [lia|]. split; [done|]. exists src. split; [lia|done]. }
    destruct HF as (g' & M' & fl & B & HM & Hsz). exists g', M'. split; [done|]. split; [lia|]. unfold phys_read. rewrite length_fmap, length_seqZ. split; [lia|]. intros i Hi.
    pose proof (b_ok _ _ _ _ _ _ _ _ _ B) as Q'. pose proof (brought_range _ _ _ _ _ _ _ _ _ _ _ B HR) as HR'.
    destruct (placed_slot k' g' ms' M' rest src (src + n) src p fl Q' HR' ltac:(lia) HM) as (j & ar & Hj & Hsl).
    pose proof (slot_frame k' g' ms' M' rest j ar _ p Q' Hj Hsl). pose proof (rep_base _ _ _ _ (k_fa _ _ _ _ _ _ _ (q_k _ _ _ _ _ Q))).
    rewrite list_lookup_fmap, lookup_seqZ_lt by lia. cbn [fmap option_fmap option_map]. rewrite Z.add_0_l, Z2Nat.id by lia. rewrite <- (ubyte_brought _ _ _ _ _ _ _ _ _ (src + i) B).
    destruct (floor_same src n (src + i) E ltac:(lia)) as [E1 E2]. unfold ubyte. rewrite E1, (slot_view k' g' ms' M' rest j ar _ p Q' Hj Hsl). cbn [mbind option_bind].
    rewrite E2. replace (src + i - src) with i by lia. unfold phys_byte. pose proof (offset_range (src + i)) as Hoff. rewrite E2 in Hoff.
    destruct (phys_offset p src i ltac:(lia) ltac:(lia)) as [-> ->].
    destruct (page_bytes (mem (wd k')) p !! Z.to_nat (page_offset src + i)) as [x|] eqn:Ex; [done|].
    apply lookup_ge_None_1 in Ex. pose proof (page_bytes_ok (mem (wd k')) p) as [Hlp _]. lia.
  - destruct (translated_byte_buffer_ok k g ms M rest src n Q Hf Hs Hp ltac:(lia) Hend HR) as (r & sl & ms' & k' & Hr & g' & M' & B & Hsz & HT). rewrite Hr. cbn [mbind outcome_bind].
    eexists _, ms', k'. split; [done|]. exists g', M'. split; [done|]. split; [done|]. destruct r as [[]|e]; cbn [map_ok]; [|done].
    destruct HT as [Hsl HP]. replace (src + n - src) with n in HP by lia. pose proof (brought_range _ _ _ _ _ _ _ _ _ _ _ B HR) as HR'.
    destruct (read_slices k' g' ms' M' rest src n sl (b_ok _ _ _ _ _ _ _ _ _ B) HR' ltac:(lia) Hsl HP) as [Hlen Hby].
    rewrite user_buffer_read by (eapply Forall_impl; [exact Hsl|by intros ? []]). cbn [fst]. rewrite take_ge, drop_ge, app_nil_r by lia.
    split; [done|]. intros i Hi. rewrite Hby by done. by eapply ubyte_brought.
Qed.

(** ** Writing *)

(** A sequence of writes to whole frames among those of [P]. *)
Inductive stores (P : Z -> Prop) : pmem -> pmem -> Prop :=
| stores_refl m : stores P m m
| stores_step m m' p bs : P p -> bytes_ok bs -> stores P (mem_set_bytes m p bs) m' -> stores P m m'.

Lemma stores_trans P m1 m2 m3 : stores P m1 m2 -> stores P m2 m3 -> stores P m1 m3.
Proof. induction 1; [done|]. intros. eapply stores_step; eauto. Qed.

Definition alone ms rest (p : Z) : Prop := exists i a v, areas ms !! i = Some a /\ slot a v = Some (InMemory p) /\
  InMemory p ∉ others (areas ms) i (Z.to_nat (v - area_start a)) a ++ rest.

Lemma alone_page k g ms M rest p i a v j b u : proc_ok k g ms M rest -> areas ms !! i = Some a -> slot a v = Some (InMemory p) ->
  InMemory p ∉ others (areas ms) i (Z.to_nat (v - area_start a)) a ++ rest -> areas ms !! j = Some b -> slot b u = Some (InMemory p) -> u = v.
Proof.
  intros Q Hi Hs Hn Hj Hu. destruct (decide (u = v)) as [|Hne]; [done|]. destruct Hn. apply elem_of_app. left.
  pose proof (m_wf _ _ _ (q_ms _ _ _ _ _ Q) a (list_elem_of_lookup_2 _ _ _ Hi)) as W.
  apply (slot_others (vpn_ok := vpn_ok) (areas ms) i a v j b u (InMemory p)); try done; [apply Q|by eapply slot_in].
Qed.

Lemma stores_ok (P : Z -> Prop) m m' : stores P m m' -> forall k g ms M rest, mem (wd k) = m -> proc_ok k g ms M rest -> (forall p, P p -> alone ms rest p) ->
  let k' := with_mem k m' in
  proc_ok k' g ms M rest /\ proc_step k g ms rest k' g ms /\
  (forall u, (forall p, slot_of (areas ms) u = Some (InMemory p) -> ~ P p) -> view ms k' g u = view ms k g u).
Proof.
  induction 1 as [m|m m' p bs Hp Hb _ IH]; intros k g ms M rest Em Q HP.
  - subst m. destruct k as [[f w] ar z s]. split; [done|]. split; [apply proc_step_refl|done].
  - destruct (HP p Hp) as (i & a & v & Hi & Hs & Hn). subst m.
    destruct (page_store_ok k g ms M rest i a v p bs Q Hi Hs Hn Hb) as (Q1 & St1 & V1).
    destruct (IH (set_bytes_array k p bs) g ms M rest eq_refl Q1 HP) as (Q2 & St2 & V2). cbn zeta in *.
    split; [exact Q2|]. split; [by eapply proc_step_trans|]. intros u Hu. etrans; [apply V2; exact Hu|]. rewrite V1.
    case_decide as D; [|done]. subst u. exfalso. apply (Hu p); [|done].
    by rewrite (slot_of_lookup _ i a v (m_disj _ _ _ (q_ms _ _ _ _ _ Q)) Hi (slot_in _ _ _ Hs)).
Qed.

Lemma bytes_ok_inserts i bs l : bytes_ok l -> Forall byte_ok bs -> (i + length bs <= length l)%nat -> bytes_ok (list_inserts i bs l).
Proof.
  intros [Hl Hf] Hb Hi. split; [by rewrite length_inserts|]. apply Forall_forall. intros x [j Hj]%list_elem_of_lookup.
  rewrite Forall_forall in Hf, Hb. rewrite lookup_list_inserts in Hj by done. case_decide; [eapply Hb|eapply Hf]; by eapply list_elem_of_lookup_2.
Qed.

Lemma s_write_stores P m s i bs : P (s_ppn s) -> s_ok s -> 0 <= i -> i + Z.of_nat (length bs) <= s_len s -> Forall byte_ok bs -> stores P m (s_write m s i bs).
Proof.
  intros Hp [H1 H2] Hi Hl Hb. unfold s_write. eapply stores_step; [exact Hp| |apply stores_refl]. pose proof (page_bytes_ok m (s_ppn s)) as [Hpl Hpb].
  apply bytes_ok_inserts; [done|done|]. unfold s_len in Hl. lia.
Qed.
Lemma write_loop_stores (P : Z -> Prop) sl src : Forall (fun s => s_ok s /\ P (s_ppn s)) sl -> Forall byte_ok src ->
  forall m start, 0 <= start <= Z.of_nat (length src) -> stores P m (UserBuffer.write_loop m sl start src).1.
Proof.
  intros H Hb. induction H as [|s sl [Hs Hp] _ IH]; intros m start Hst; cbn [UserBuffer.write_loop]; [apply stores_refl|].
  pose proof (s_len_nonneg s Hs). destruct (Z.ltb_spec (Z.of_nat (length src)) (start + s_len s)); cbn [fst].
  - apply s_write_stores; try done; [rewrite length_drop; lia|by apply Forall_drop].
  - eapply stores_trans; [|apply IH; lia]. apply s_write_stores; try done; [rewrite length_sub; lia|by apply Forall_sub].
Qed.

Lemma write_stores (P : Z -> Prop) m sl src : Forall (fun s => s_ok s /\ P (s_ppn s)) sl -> Forall byte_ok src ->
  stores P m (UserBuffer.write m (UserBuffer.new sl) src).1.
Proof.
  intros H Hb. unfold UserBuffer.write. pose proof (write_loop_stores P sl src H Hb m 0 ltac:(lia)) as Hst. cbn [UserBuffer.buffers UserBuffer.new].
  by destruct (UserBuffer.write_loop m sl 0 src).
Qed.

(** Writing through a pointer, inside one frame. *)
Lemma phys_write_ok (P : Z -> Prop) p bs : P p -> 0 <= p < 2 ^ 52 -> Forall byte_ok bs -> forall m o, 0 <= o -> o + Z.of_nat (length bs) <= PAGE_SIZE ->
  stores P m (phys_write m (p * PAGE_SIZE + o) bs) /\
  writes m (phys_write m (p * PAGE_SIZE + o) bs) ((fun i => (p, Z.to_nat i)) <$> seqZ o (Z.of_nat (length bs))) bs.
Proof.
  intros HP Hp. induction 1 as [|b bs Hb Hbs IH]; intros m o Ho Hl; cbn [phys_write]; [split; [apply stores_refl|apply writes_nil]|].
  cbn [length] in Hl. destruct (addr_join p o ltac:(lia)) as [-> ->]. set (m1 := mem_set_bytes _ _ _).
  pose proof (page_bytes_ok m p) as [Hpl Hpb].
  assert (bytes_ok (<[Z.to_nat o := b]> (page_bytes m p))) as Hok1 by (by apply bytes_ok_insert).
  destruct (IH m1 (o + 1) ltac:(lia) ltac:(lia)) as [S W]. rewrite Z.add_assoc in S, W. split; [by eapply stores_step|].
  replace (Z.of_nat (length (b :: bs))) with (1 + Z.of_nat (length bs)) by (cbn; lia). rewrite seqZ_app by lia. rewrite fmap_app.
  change (b :: bs) with ([b] ++ bs). eapply (writes_app m m1); [done| | |exact W].
  - rewrite <- fmap_app, <- seqZ_app by lia. apply NoDup_fmap_2_strong; [|apply NoDup_seqZ].
    intros x y Hx%elem_of_seqZ Hy%elem_of_seqZ [= E]. lia.
  - replace (seqZ o 1) with [o] by (rewrite seqZ_cons by lia; by rewrite seqZ_nil by lia). split.
    + intros [|j] l x; [|done]. cbn [lookup list_lookup fmap list_fmap]. intros [= <-] [= <-]. unfold mbyte. cbn [fst snd]. unfold m1.
      rewrite page_bytes_set by done. rewrite list_lookup_insert_eq; [done|lia].
    + intros [q n] Hn. unfold mbyte. cbn [fst snd]. unfold m1. destruct (decide (q = p)) as [->|Hq].
      * rewrite page_bytes_set by done. rewrite list_lookup_insert_ne; [done|]. intros <-. apply Hn. left.
      * f_equal. apply page_bytes_ext. intros. by apply mem_set_bytes_other.
Qed.

(** Pages of writable user areas, that are not write-protected for sharing. *)
Definition writable_range ms M (start end_ : Z) : Prop :=
  forall a, start <= a < end_ -> vpn_ok (addr_floor a) /\
    (exists ar, ar ∈ areas ms /\ fault_area (addr_floor a) ar = true /\ MapPermission.contains (map_perm ar) MapPermission.W = true) /\
    (forall p fl, M !! addr_floor a = Some (p, fl) -> MapPermission.contains fl MapPermission.W = true).

Lemma writable_user ms M start end_ : writable_range ms M start end_ -> user_range ms M start end_.
Proof.
  intros H a Ha. destruct (H a Ha) as (Hv & (ar & Har & [_ Hin]%fault_area_spec & _) & _). split; [done|]. intros _. by exists ar.
Qed.
Lemma writable_present ms M start end_ a : writable_range ms M start end_ -> start <= a < end_ -> ~ unmapped_page ms M a.
Proof. intros H Ha [_ Hf]. destruct (H a Ha) as (_ & (ar & Har & Hfa & _) & _). rewrite Hf in Hfa; done. Qed.

Lemma same_area k g ms M rest (a b : MapArea) v : proc_ok k g ms M rest -> a ∈ areas ms -> b ∈ areas ms -> fault_area v a = true -> fault_area v b = true -> a = b.
Proof.
  intros Q [i Hi]%list_elem_of_lookup [j Hj]%list_elem_of_lookup [_ Ha]%fault_area_spec [_ Hb]%fault_area_spec.
  pose proof (m_disj _ _ _ (q_ms _ _ _ _ _ Q) i j a b _ Hi Hj Ha Hb) as ->. rewrite Hi in Hj. by injection Hj.
Qed.

Lemma brought_alone k g ms M rest k' g' ms' M' start end_ a p fl : proc_ok k g ms M rest -> brought k g ms M rest k' g' ms' M' ->
  writable_range ms M start end_ -> start <= a < end_ -> M' !! addr_floor a = Some (p, fl) ->
  exists i ar, areas ms' !! i = Some ar /\ slot ar (addr_floor a) = Some (InMemory p) /\
    InMemory p ∉ others (areas ms') i (Z.to_nat (addr_floor a - area_start ar)) ar ++ rest.
Proof.
  intros Q B HW Ha HM. destruct (HW a Ha) as (Hv & (ar & Har & Hfa & Hw) & Hmw).
  apply (writable_alone k' g' ms' M' rest (addr_floor a) p fl (b_ok _ _ _ _ _ _ _ _ _ B) Hv HM).
  destruct (b_new _ _ _ _ _ _ _ _ _ B _ p fl HM) as [Hold|(b & Hb & Hfb & ->)]; [by eapply Hmw|].
  by rewrite (same_area k g ms M rest ar b (addr_floor a) Q Har Hb Hfa Hfb) in Hw.
Qed.

Lemma brought_writable k g ms M rest k' g' ms' M' start end_ : proc_ok k g ms M rest -> brought k g ms M rest k' g' ms' M' ->
  writable_range ms M start end_ -> writable_range ms' M' start end_.
Proof.
  intros Q B HW a Ha. destruct (HW a Ha) as (Hv & (ar & Har & Hfa & Hw) & Hmw). split; [done|]. split.
  - destruct (shape_elem_l _ _ ar (b_shape _ _ _ _ _ _ _ _ _ B) Har) as (b & Hb & Hs). exists b. split; [done|].
    rewrite (shape_fault _ ar b Hs). split; [done|]. destruct Hs as (_ & -> & _). done.
  - intros p fl HM. destruct (b_new _ _ _ _ _ _ _ _ _ B _ p fl HM) as [Hold|(b & Hb & Hfb & ->)]; [by eapply Hmw|].
    by rewrite (same_area k g ms M rest ar b (addr_floor a) Q Har Hb Hfa Hfb) in Hw.
Qed.

(** The bytes of [bs] at the addresses from [dst] on, in a memory with the pages of
    [brought]. *)
Definition write_post k g ms M rest dst (bs : list Z) (d : Z) ms' k' : Prop :=
  exists g' M', proc_ok k' g' ms' M' rest /\ proc_step k g ms rest k' g' ms' /\ Z.of_nat (size (gL g')) <= Z.of_nat (size (gL g)) + d /\
    (forall s e, writable_range ms M s e -> writable_range ms' M' s e) /\ Forall2 same_shape (areas ms) (areas ms') /\
    forall a, ubyte ms' k' g' a = if decide (dst <= a < dst + Z.of_nat (length bs)) then bs !! Z.to_nat (a - dst) else ubyte ms k g a.

Lemma written_ok k g ms M rest k' g' ms' M' dst bs ls m' d : proc_ok k g ms M rest -> brought k g ms M rest k' g' ms' M' ->
  Z.of_nat (size (gL g')) <= Z.of_nat (size (gL g)) + d ->
  let n := Z.of_nat (length bs) in writable_range ms M dst (dst + n) -> Forall2 (placed M') (seqZ dst n) ls ->
  writes (mem (wd k')) m' ls bs -> stores (fun p => p ∈ ls.*1) (mem (wd k')) m' -> write_post k g ms M rest dst bs d ms' (with_mem k' m').
Proof.
  intros Q B Hsz n HW HP [W U] S. pose proof (b_ok _ _ _ _ _ _ _ _ _ B) as Q'. pose proof (Forall2_length _ _ _ HP) as Hlen. rewrite length_seqZ in Hlen.
  assert (forall p, p ∈ ls.*1 -> exists a fl, dst <= a < dst + n /\ M' !! addr_floor a = Some (p, fl)) as Hls.
  { intros p (l & -> & Hl)%list_elem_of_fmap. apply list_elem_of_lookup in Hl as [j Hj]. destruct (Forall2_lookup_r _ _ _ _ _ HP Hj) as (a & Ha & (q & fl & HM & ->)).
    apply lookup_seqZ in Ha as [-> Ha]. exists (dst + Z.of_nat j), fl. split; [lia|done]. }
  destruct (stores_ok _ _ _ S k' g' ms' M' rest eq_refl Q') as (Q2 & St & V).
  { intros p (a & fl & Ha & HM)%Hls. destruct (brought_alone k g ms M rest k' g' ms' M' _ _ a p fl Q B HW Ha HM) as (i & ar & Hi & Hs & Hn).
    exists i, ar, (addr_floor a). done. }
  exists g', M'. split; [done|]. split; [eapply proc_step_trans; [apply B|exact St]|]. split; [done|].
  split; [intros s e; by apply (brought_writable _ _ _ _ _ _ _ _ _ _ _ Q B)|]. split; [apply B|]. intros a. fold n.
  rewrite <- (ubyte_brought _ _ _ _ _ _ _ _ _ a B). case_decide as D.
  - destruct (Forall2_lookup_l _ _ _ (Z.to_nat (a - dst)) a HP) as (l & Hl & Hp); [rewrite lookup_seqZ_lt by lia; f_equal; lia|].
    destruct (lookup_lt_is_Some_2 bs (Z.to_nat (a - dst)) ltac:(lia)) as [b Hb]. rewrite Hb, <- (W _ _ _ Hl Hb).
    destruct Hp as (p & fl & HM & ->). destruct (brought_alone k g ms M rest k' g' ms' M' _ _ a p fl Q B HW D HM) as (i & ar & Hi & Hs & _).
    unfold ubyte. by rewrite (slot_view (with_mem k' m') g' ms' M' rest i ar _ p Q2 Hi Hs).
  - unfold ubyte. destruct (slot_of (areas ms') (addr_floor a)) as [f|] eqn:Es; [|rewrite V; [done|congruence]].
    destruct (in_memory_or f) as [[p ->]|Hf]; [|rewrite V; [done|intros q Eq; destruct (Hf q); congruence]].
    destruct (decide (p ∈ ls.*1)) as [Hp|Hp]; [|rewrite V; [done|intros q Eq; by assert (q = p) as -> by congruence]].
    apply slot_of_elem in Es as (j & br & Hj & Hsj). rewrite (slot_view (with_mem k' m') g' ms' M' rest j br _ p Q2 Hj Hsj), (slot_view k' g' ms' M' rest j br _ p Q' Hj Hsj).
    cbn [mbind option_bind]. apply (U (p, Z.to_nat (page_offset a))). intros [i Hin]%list_elem_of_lookup. rewrite take_ge in Hin by lia.
    destruct (Forall2_lookup_r _ _ _ _ _ HP Hin) as (c & Hc & (q & fl & HM & [= <- Eoff])). apply lookup_seqZ in Hc as [-> Hc].
    set (c := dst + Z.of_nat i) in *. destruct (brought_alone k g ms M rest k' g' ms' M' _ _ c p fl Q B HW ltac:(lia) HM) as (i' & ar & Hi & Hs & Hn).
    pose proof (alone_page k' g' ms' M' rest p i' ar _ j br _ Q' Hi Hs Hn Hj Hsj) as Ef. apply D.
    pose proof (addr_split a). pose proof (addr_split c). pose proof (offset_range a). pose proof (offset_range c). rewrite Ef in *. lia.
Qed.

Lemma placed_inj k g ms M rest k' g' ms' M' dst n ls : proc_ok k g ms M rest -> brought k g ms M rest k' g' ms' M' ->
  writable_range ms M dst (dst + n) -> Forall2 (placed M') (seqZ dst n) ls -> NoDup ls.
Proof.
  intros Q B HW HP. apply NoDup_alt. intros i j l Hi Hj. pose proof (b_ok _ _ _ _ _ _ _ _ _ B) as Q'.
  destruct (Forall2_lookup_r _ _ _ _ _ HP Hi) as (a & Ha & (p & fl & HMa & ->)), (Forall2_lookup_r _ _ _ _ _ HP Hj) as (b & Hb & (q & fl' & HMb & [= <- Eoff])).
  apply lookup_seqZ in Ha as [-> Ha], Hb as [-> Hb]. set (a := dst + Z.of_nat i) in *. set (b := dst + Z.of_nat j) in *.
  destruct (brought_alone k g ms M rest k' g' ms' M' _ _ a p fl Q B HW ltac:(lia) HMa) as (ia & ar & Hia & Hsa & Hna).
  destruct (brought_alone k g ms M rest k' g' ms' M' _ _ b p fl' Q B HW ltac:(lia) HMb) as (ib & br & Hib & Hsb & _).
  pose proof (alone_page k' g' ms' M' rest p ia ar _ ib br _ Q' Hia Hsa Hna Hib Hsb) as Ef.
  pose proof (addr_split a). pose proof (addr_split b). pose proof (offset_range a). pose proof (offset_range b). rewrite Ef in *. lia.
Qed.

Lemma pages_of_two src n : 0 <= n -> 2 <= Z.of_nat (pages_of src (src + n)).
Proof.
  intros. unfold pages_of, addr_floor. pose proof (Z.div_le_mono src (src + n) PAGE_SIZE ltac:(unfold PAGE_SIZE; lia) ltac:(lia)). lia.
Qed.
Lemma placed_page M dst n p fl : M !! addr_floor dst = Some (p, fl) -> addr_floor dst = addr_floor (dst + n - 1) ->
  Forall2 (placed M) (seqZ dst n) ((fun i => (p, Z.to_nat i)) <$> seqZ (page_offset dst) n).
Proof.
  intros HM E. apply Forall2_same_length_lookup_2; [by rewrite length_fmap, !length_seqZ|]. intros j a l Ha Hl.
  apply lookup_seqZ in Ha as [-> Ha]. rewrite list_lookup_fmap, lookup_seqZ_lt in Hl by done. injection Hl as <-.
  destruct (floor_same dst n (dst + Z.of_nat j) E ltac:(lia)) as [E1 E2]. exists p, fl. rewrite E1, E2. split; [done|]. do 2 f_equal. lia.
Qed.

Lemma copy_to_user_post k g ms M rest src dst : proc_ok k g ms M rest ->
  let n := Z.of_nat (length src) in anon_range ms dst (dst + n) ->
  Z.of_nat (size (gL g)) + 3 * Z.of_nat (pages_of dst (dst + n)) <= limit - base -> 0 <= dst -> 0 < n -> dst + n <= 2 ^ 63 ->
  writable_range ms M dst (dst + n) -> Forall byte_ok src ->
  exists ms' k', copy_to_user cfg oom ms k src dst = Ret (Ok tt, ms', k') /\
    write_post k g ms M rest dst src (3 * Z.of_nat (pages_of dst (dst + n))) ms' k'.
Proof.
  intros Q n Hf Hs Hp Hn Hend HW Hb. unfold copy_to_user, translated_refmut. fold n. rewrite one_page_small by done.
  pose proof (pages_of_two dst n ltac:(lia)) as Hpg. pose proof (writable_user _ _ _ _ HW) as HR.
  destruct (Z.eqb_spec (addr_floor dst) (addr_floor (dst + n - 1))) as [E|E].
  - destruct (translate_addr_ok k g ms M rest dst Q (Hf dst ltac:(lia)) ltac:(lia) (proj1 (HR dst ltac:(lia)))) as (r & ms' & k' & Hr & HF). rewrite Hr. cbn [mbind outcome_bind].
    destruct r as [p|e]; cbn [map_ok].
    2: { destruct HF as (-> & -> & -> & Hnm & Ha). exfalso. by apply (writable_present ms M dst (dst + n) dst HW ltac:(lia)). }
    destruct HF as (g' & M' & fl & B & HM & Hsz). eexists ms', _. split; [done|].
    destruct (brought_alone k g ms M rest k' g' ms' M' _ _ dst p fl Q B HW ltac:(lia) HM) as (i & ar & Hi & Hsl & _).
    pose proof (slot_frame k' g' ms' M' rest i ar _ p (b_ok _ _ _ _ _ _ _ _ _ B) Hi Hsl). pose proof (rep_base _ _ _ _ (k_fa _ _ _ _ _ _ _ (q_k _ _ _ _ _ Q))).
    destruct (floor_same dst n (dst + n - 1) E ltac:(lia)) as [_ E2]. pose proof (offset_range (dst + n - 1)). pose proof (offset_range dst).
    rewrite pn_offset_join by lia. set (ls := (fun i => (p, Z.to_nat i)) <$> seqZ (page_offset dst) n).
    assert (p ∈ ls.*1) as Hin. { unfold ls. rewrite seqZ_cons by lia. left. }
    destruct (phys_write_ok (fun p => p ∈ ls.*1) p src Hin ltac:(lia) Hb (mem (wd k')) (page_offset dst) ltac:(lia) ltac:(lia)) as [S W].
    eapply (written_ok k g ms M rest k' g' ms' M' dst src ls); try done; [lia|]. by eapply placed_page.
  - destruct (translated_byte_buffer_ok k g ms M rest dst n Q Hf Hs Hp ltac:(lia) Hend HR) as (r & sl & ms' & k' & Hr & g' & M' & B & Hsz & HT). rewrite Hr. cbn [mbind outcome_bind].
    destruct r as [[]|e]; cbn [map_ok]; [|by destruct HT as (_ & a & Ha & Hu); destruct (writable_present ms M dst (dst + n) a HW Ha)].
    eexists ms', _. split; [done|]. destruct HT as [Hsl HP]. replace (dst + n - dst) with n in HP by lia.
    assert (Forall s_ok sl) as Hok by (eapply Forall_impl; [exact Hsl|by intros ? []]). pose proof (locs_length sl Hok). pose proof (Forall2_length _ _ _ HP) as Hlen.
    rewrite length_seqZ in Hlen. pose proof (placed_inj k g ms M rest k' g' ms' M' dst n _ Q B HW HP) as Hnd.
    destruct (user_buffer_write (mem (wd k')) sl src Hok Hnd Hb) as [W _]. rewrite take_ge in W by lia.
    eapply (written_ok k g ms M rest k' g' ms' M' dst src (locs sl)); try done. apply write_stores; [|done].
    apply Forall_forall. intros s Hin. rewrite Forall_forall in Hsl. destruct (Hsl s Hin) as [Hsok Hpos]. split; [done|].
    apply list_elem_of_fmap. exists (s_ppn s, Z.to_nat (s_lo s)). split; [done|]. apply list_elem_of_join. exists (s_locs s).
    split; [unfold s_locs; rewrite seqZ_cons by lia; left|]. by apply list_elem_of_fmap_2.
Qed.

(** ** User memory as a user space *)

#[local] Instance user_space : UserSpace (MemorySet * kmem) := {
  us_write '(ms, k) bs a := '(r, ms', k') ← copy_to_user cfg oom ms k bs a; Ret (r, (ms', k'));
  us_read '(ms, k) a n := '(r, ms', k') ← get_from_user cfg oom ms k a n; Ret (r, (ms', k'));
  us_put '(ms, k) bs a :=
    '(r, ms', k') ← translated_refmut cfg oom ms k a;
    Ret (match r with Ok pa => (Ok tt, (ms', with_mem k' (phys_write (mem (wd k')) pa bs))) | Err e => (Err e, (ms', k')) end);
  us_get '(ms, k) a n :=
    '(r, ms', k') ← translated_ref cfg oom ms k a; Ret (map_ok (fun pa => phys_read (mem (wd k')) pa n) r, (ms', k'));
}.
Definition user_sees (u : MemorySet * kmem) (mu : Z -> option Z) : Prop :=
  exists g M rest, proc_ok u.2 g u.1 M rest /\ forall x, mu x = ubyte u.1 u.2 g x.
Definition user_frames (u : MemorySet * kmem) (a n : Z) (c : nat) : Prop :=
  0 <= a /\ a + n <= 2 ^ 63 /\ 3 * Z.of_nat c * Z.of_nat (pages_of a (a + n)) <= unallocated_frames (fa (wd u.2)).
Definition user_can_write (u : MemorySet * kmem) (a n : Z) (c : nat) : Prop := (user_frames u a n c /\ anon_range u.1 a (a + n)) /\
  forall x, a <= x < a + n -> vpn_ok (addr_floor x) /\
    (exists ar, ar ∈ areas u.1 /\ fault_area (addr_floor x) ar = true /\ MapPermission.contains (map_perm ar) MapPermission.W = true) /\
    pt_writable (page_table u.1) (mem (wd u.2)) (addr_floor x) <> Some false.
Definition user_can_read (u : MemorySet * kmem) (a n : Z) (c : nat) : Prop := (user_frames u a n c /\ anon_range u.1 a (a + n)) /\
  forall x, a <= x < a + n -> vpn_ok (addr_floor x) /\ exists ar, ar ∈ areas u.1 /\ fault_area (addr_floor x) ar = true.

Lemma pages_of_inside b m a n : inside b m a n -> Z.of_nat (pages_of b (b + m)) <= Z.of_nat (pages_of a (a + n)).
Proof.
  intros (H1 & H2 & H3). unfold pages_of, addr_floor. pose proof (Z.div_le_mono a b PAGE_SIZE ltac:(unfold PAGE_SIZE; lia) H1).
  pose proof (Z.div_le_mono (b + m) (a + n) PAGE_SIZE ltac:(unfold PAGE_SIZE; lia) H3). lia.
Qed.
Lemma writable_pt ms k g M rest start end_ : proc_ok k g ms M rest -> writable_range ms M start end_ <->
  (forall x, start <= x < end_ -> vpn_ok (addr_floor x) /\
    (exists ar, ar ∈ areas ms /\ fault_area (addr_floor x) ar = true /\ MapPermission.contains (map_perm ar) MapPermission.W = true) /\
    pt_writable (page_table ms) (mem (wd k)) (addr_floor x) <> Some false).
Proof.
  intros Q. split; intros H x Hx; destruct (H x Hx) as (Hv & Har & Hw); (split; [done|split; [done|]]);
    destruct (pt_query_ok (page_table ms) (mem (wd k)) M _ (q_pt _ _ _ _ _ Q) Hv) as (_ & _ & E).
  - rewrite E. destruct (M !! addr_floor x) as [[p fl]|]; [|done]. cbn. rewrite (Hw p fl eq_refl). done.
  - intros p fl HM. rewrite E, HM in Hw. cbn in Hw. by destruct (MapPermission.contains fl MapPermission.W).
Qed.
Lemma frames_left k g ms M rest : proc_ok k g ms M rest -> unallocated_frames (fa (wd k)) = limit - base - Z.of_nat (size (gL g)).
Proof. intros Q. apply unallocated_frames_spec, (k_fa _ _ _ _ _ _ _ (q_k _ _ _ _ _ Q)). Qed.

(** Copying from and to user space keeps the promises of a user space. *)
Lemma user_space_ok : UserSpaceOk (MemorySet * kmem) user_sees user_can_write user_can_read.
Proof using All.
  constructor.
  - intros [ms k] mu bs b a n c (g & M & rest & Q & Hmu) [[(H0 & Hend & Hfr) Hf] HW] Hin Hb. cbn [fst snd] in *.
    pose proof (pages_of_inside b _ a n Hin) as Hpg. pose proof Hin as (I1 & I2 & I3). rewrite (frames_left _ _ _ _ _ Q) in Hfr.
    pose proof (proj2 (writable_pt ms k g M rest a (a + n) Q) HW) as HW'.
    destruct (copy_to_user_post k g ms M rest bs b Q) as (ms' & k' & Hr & g' & M' & Q' & St & Hsz & Hw & Hsh & HP); [intros x Hx; apply Hf; lia|nia|lia|lia|lia| |done|].
    { intros x Hx. apply HW'. lia. }
    exists (ms', k'), (ubyte ms' k' g'). cbn [us_write user_space]. rewrite Hr. cbn [mbind outcome_bind]. split; [done|]. split; [|split].
    + by exists g', M', rest.
    + intros x. rewrite HP. unfold updated. by rewrite Hmu.
    + split; [|by apply (proj1 (writable_pt ms' k' g' M' rest a (a + n) Q')), Hw]. split; [|intros x Hx; eapply shape_anon; [exact Hsh|by apply Hf]].
      split; [done|]. split; [done|]. cbn [fst snd]. rewrite (frames_left _ _ _ _ _ Q'). nia.
  - intros [ms k] mu b m a n c (g & M & rest & Q & Hmu) [[(H0 & Hend & Hfr) Hf] HR] Hin. cbn [fst snd] in *.
    pose proof (pages_of_inside b m a n Hin) as Hpg. pose proof Hin as (I1 & I2 & I3). rewrite (frames_left _ _ _ _ _ Q) in Hfr.
    assert (Z.of_nat (length (replicate (Z.to_nat m) 0)) = m) as Hlen by (rewrite length_replicate; lia).
    destruct (copy_from_user_post k g ms M rest b (replicate (Z.to_nat m) 0) Q) as (r & ms' & k' & Hr & g' & M' & B & Hsz & HP); rewrite ?Hlen in *; [intros x Hx; apply Hf; lia|nia|lia|lia|lia| |].
    { intros x Hx. destruct (HR x ltac:(lia)) as (Hv & ar & Har & [_ Hia]%fault_area_spec). split; [done|]. intros _. by exists ar. }
    destruct r as [bs|e].
    2: { destruct HP as (_ & x & Hx & _ & Hno). destruct (HR x ltac:(lia)) as (_ & ar & Har & Hfa). rewrite Hno in Hfa; done. }
    exists bs, (ms', k'), (ubyte ms' k' g'). cbn [us_read user_space]. unfold get_from_user. rewrite Hr. cbn [mbind outcome_bind]. split; [done|]. split; [apply HP|].
    split; [intros i Hi; rewrite Hmu; by apply HP|]. split; [|split].
    + exists g', M', rest. split; [apply B|done].
    + intros x. rewrite Hmu. by eapply ubyte_brought.
    + split; [split; [|by eapply brought_files]; split; [done|split; [done|]]; cbn [fst snd]; rewrite (frames_left _ _ _ _ _ (b_ok _ _ _ _ _ _ _ _ _ B)); nia|].
      intros x Hx. destruct (HR x Hx) as (Hv & ar & Har & Hfa). split; [done|].
      destruct (shape_elem_l _ _ ar (b_shape _ _ _ _ _ _ _ _ _ B) Har) as (br & Hbr & Hs). exists br. split; [done|]. by rewrite (shape_fault _ ar br Hs).
  - intros [ms k] bs b Hb Hl Hend E. cbn [us_put us_write user_space]. unfold copy_to_user. rewrite one_page_small by lia. rewrite (proj2 (Z.eqb_eq _ _) E).
    destruct (translated_refmut cfg oom ms k b) as [[[[pa|e] ms'] k']|]; done.
  - intros [ms k] b m Hb Hm Hend E. cbn [us_get us_read user_space]. unfold get_from_user, copy_from_user. rewrite length_replicate, Z2Nat.id by lia.
    rewrite one_page_small by lia. rewrite (proj2 (Z.eqb_eq _ _) E). destruct (translated_ref cfg oom ms k b) as [[[[pa|e] ms'] k']|]; done.
Qed.
End UserMemory.
