(* ===== verification/KernelUser.v ===== *)
(** * KernelUser: system calls and user memory on the RISC-V kernel

    Copying between kernel and user space on the memory system of [KernelMemory], and what
    the calls that change address spaces do outside the cases they were written for. *)
From S2P Require Import Prelude Errno AllocSpec Address FrameAlloc Bytes PageTable Sv39 PageStore Trackers MapArea Pid MemorySet AddressSpace Reclaim MemSystem Fork MemRun KernelMemory UserBuffer UserMemory.
Import StackFrameAllocator.

Section KernelUser.
Context (cfg : config) (base limit zcap spages : Z) (compress : list Z -> list Z) (decompress : list Z -> option (list Z)).
Context {F : Type} `{!MapFile F} (strampoline ssignaltrampoline : Z) (oom : Z -> @kmem Zram.t Swap.t -> bool * @kmem Zram.t Swap.t).
#[local] Notation kernel_config := (kernel_config cfg base limit compress decompress strampoline ssignaltrampoline).
#[local] Notation kernel_proc := (kernel_proc cfg base limit zcap spages compress).
#[local] Instance user_zram : PageStore Zram.t := kernel_zram compress decompress.
#[local] Instance user_page_table : PageTable Sv39PageTable.t := kernel_page_table cfg.
Implicit Types (k : @kmem Zram.t Swap.t) (ms : @MemorySet Sv39PageTable.t F) (M : gmap Z (Z * Z)) (rest : list Frame).

(** The page of an address is one the page table can hold; when it is mapped it belongs to
    an area. *)
Definition kernel_range ms M (start end_ : Z) : Prop := user_range (vpn_ok := Sv39PageTable.vpn_ok) ms M start end_.
Definition kernel_writable ms M (start end_ : Z) : Prop := writable_range (vpn_ok := Sv39PageTable.vpn_ok) ms M start end_.

(** C15: Copying from user space. For a non-empty range below 2^63 with no file-backed area
    behind it, whose mapped pages belong to areas of the process, and with three free frames for each page
    it touches, [copy_from_user] never panics: it returns the bytes the process sees, across page
    boundaries and whether the pages are in memory, compressed, swapped out or not
    allocated yet; or [EFAULT], and then the range has a page that is not mapped and in no
    readable user area. The memory of the process and of everyone else is unchanged. *)
Theorem kernel_copy_from_user k g ms M rest src dst : kernel_config -> kernel_proc k g ms M rest ->
  let n := Z.of_nat (length dst) in anon_range ms src (src + n) -> 3 * Z.of_nat (pages_of src (src + n)) <= unallocated_frames (fa (wd k)) ->
  0 <= src -> 0 < n -> src + n <= 2 ^ 63 -> kernel_range ms M src (src + n) ->
  exists r ms' k' g' M', copy_from_user cfg oom ms k src dst = Ret (r, ms', k') /\ kernel_proc k' g' ms' M' rest /\
  (forall u, view ms' k' g' u = view ms k g u) /\ same_contents k g k' g' rest /\
  match r with
  | Ok bs => Z.of_nat (length bs) = n /\ forall i, 0 <= i < n -> bs !! Z.to_nat i = ubyte ms k g (src + i)
  | Err e => e = EFAULT /\ exists a, src <= a < src + n /\ unmapped_page ms M a
  end.
Proof.
  intros C Q n Hf Hfree H0 Hn Hend HR. pose proof C as [Hz Hb Hl Hlz Ht Hs]. pose proof (kernel_ppn _ _ _ _ _ _ _ C) as Hppn.
  pose proof (Sv39PageTable.sv39_page_table_ok cfg base limit Hz Hb Hl) as Hpt. pose proof (Zram.Zram_PageStoreOk compress decompress Hlz zcap) as Hzok.
  pose proof (Swap.Swap_PageStoreOk spages) as Hsok. rewrite (unallocated_frames_spec _ _ _ _ (k_fa _ _ _ _ _ _ _ (q_k _ _ _ _ _ Q))) in Hfree.
  destruct (copy_from_user_post (cfg := cfg) (PageTableOk0 := Hpt) oom Hz Hppn ltac:(lia) k g ms M rest src dst Q) as (r & ms' & k' & Hr & g' & M' & B & _ & HP); try done; [fold n; lia|].
  exists r, ms', k', g', M'. split; [exact Hr|]. split; [apply B|]. split; [apply B|]. split; [apply B|done].
Qed.

(** C14: Copying to user space. For a non-empty range, below 2^63, of writable user pages
    with no file-backed area behind it, none of which is write-protected for sharing, and with three free
    frames for each page it touches, [copy_to_user] succeeds: afterwards the process sees the
    bytes at the destination and everything else as before, and nobody else's memory has
    changed. *)
Theorem kernel_copy_to_user k g ms M rest src dst : kernel_config -> kernel_proc k g ms M rest ->
  let n := Z.of_nat (length src) in anon_range ms dst (dst + n) -> 3 * Z.of_nat (pages_of dst (dst + n)) <= unallocated_frames (fa (wd k)) ->
  0 <= dst -> 0 < n -> dst + n <= 2 ^ 63 -> kernel_writable ms M dst (dst + n) -> Forall byte_ok src ->
  exists ms' k' g' M', copy_to_user cfg oom ms k src dst = Ret (Ok tt, ms', k') /\ kernel_proc k' g' ms' M' rest /\ same_contents k g k' g' rest /\
  forall a, ubyte ms' k' g' a = if decide (dst <= a < dst + n) then src !! Z.to_nat (a - dst) else ubyte ms k g a.
Proof.
  intros C Q n Hf Hfree H0 Hn Hend HR Hby. pose proof C as [Hz Hb Hl Hlz Ht Hs]. pose proof (kernel_ppn _ _ _ _ _ _ _ C) as Hppn.
  pose proof (Sv39PageTable.sv39_page_table_ok cfg base limit Hz Hb Hl) as Hpt. pose proof (Zram.Zram_PageStoreOk compress decompress Hlz zcap) as Hzok.
  pose proof (Swap.Swap_PageStoreOk spages) as Hsok. rewrite (unallocated_frames_spec _ _ _ _ (k_fa _ _ _ _ _ _ _ (q_k _ _ _ _ _ Q))) in Hfree.
  destruct (copy_to_user_post (cfg := cfg) (PageTableOk0 := Hpt) oom Hz Hppn ltac:(lia) k g ms M rest src dst Q) as (ms' & k' & Hr & g' & M' & Q' & St & _ & _ & _ & HP); try done; [fold n; lia|].
  exists ms', k', g', M'. split; [exact Hr|]. split; [done|]. split; [apply St|done].
Qed.
End KernelUser.

(** ** On the machine of [KernelMemory] *)

#[local] Instance no_user_files : MapFile Empty_set := no_files.
Definition no_oom (n : Z) (k : @kmem Zram.t Swap.t) : bool * @kmem Zram.t Swap.t := (false, k).
#[local] Instance demo_zram : PageStore Zram.t := kernel_zram (fun b => b) Some.
#[local] Instance demo_page_table : PageTable Sv39PageTable.t := kernel_page_table demo_cfg.

Lemma demo_user pt start end_ : 0x60000000 <= start -> end_ <= 0x60010000 -> kernel_writable (MkMS pt demo_areas) ∅ start end_.
Proof.
  intros Hs He a Ha. pose proof (addr_split a) as E. pose proof (offset_range a) as Ho. unfold PAGE_SIZE in *.
  assert (0x60000 <= addr_floor a < 0x60010) as Hf by lia. split; [left; lia|]. split; [|intros p fl; by rewrite lookup_empty].
  exists (demo_area 0x60000 0x60010 22). split; [left|]. split; [|reflexivity]. apply fault_area_spec. split; [reflexivity|]. unfold in_area. cbn. lia.
Qed.
Lemma demo_free pt k : demo_state = MkSys k [MkMS pt demo_areas] -> unallocated_frames (fa (wd k)) = 255.
Proof. intros Hd. assert (kern demo_state = k) as <- by (by rewrite Hd). vm_compute. reflexivity. Qed.

(** Witness: eight bytes across a page boundary. *)
Lemma kernel_copy_from_user_witness : exists k g ms ms' k' r, demo_proc k g ms ∅ [] /\
  copy_from_user demo_cfg no_oom ms k 0x60000ffc (replicate 8 0) = Ret (r, ms', k').
Proof.
  destruct demo_process as (pt & k & g & Hd & Q). pose proof (demo_free _ _ Hd) as Hfr.
  destruct (kernel_copy_from_user demo_cfg demo_base demo_limit 2048 256 (fun b => b) Some 0x80201000 0x80202000 no_oom k g (MkMS pt demo_areas) ∅ [] 0x60000ffc (replicate 8 0) demo_config Q)
    as (r & ms' & k' & _ & _ & Hr & _).
  - intros x _. apply anon_all. by repeat constructor.
  - rewrite Hfr. vm_compute. congruence.
  - lia.
  - done.
  - cbn. lia.
  - apply writable_user, demo_user; cbn; lia.
  - exists k, g, (MkMS pt demo_areas), ms', k', r. split; [exact Q|exact Hr].
Defined.

(** Witness: the same range is written. *)
Lemma kernel_copy_to_user_witness : exists k g ms ms' k', demo_proc k g ms ∅ [] /\
  copy_to_user demo_cfg no_oom ms k (replicate 8 7) 0x60000ffc = Ret (Ok tt, ms', k').
Proof.
  destruct demo_process as (pt & k & g & Hd & Q). pose proof (demo_free _ _ Hd) as Hfr.
  destruct (kernel_copy_to_user demo_cfg demo_base demo_limit 2048 256 (fun b => b) Some 0x80201000 0x80202000 no_oom k g (MkMS pt demo_areas) ∅ [] (replicate 8 7) 0x60000ffc demo_config Q)
    as (ms' & k' & _ & _ & Hr & _).
  - intros x _. apply anon_all. by repeat constructor.
  - rewrite Hfr. vm_compute. congruence.
  - lia.
  - done.
  - cbn. lia.
  - apply demo_user; cbn; lia.
  - repeat constructor; unfold byte_ok; lia.
  - exists k, g, (MkMS pt demo_areas), ms', k'. split; [exact Q|exact Hr].
Defined.

(** ** Beyond the contract *)

(** The demo process with page [v] and its trap context in memory. *)
Definition demo_run (v : Z) : outcome (@MemorySet Sv39PageTable.t Empty_set * @kmem Zram.t Swap.t) :=
  ms ← unwrap (head (procs demo_state));
  '(_, a0, pt1, k1) ← map_one_zeroed_unchecked demo_cfg (demo_area 0x60000 0x60010 22) (page_table ms) (kern demo_state) v;
  '(_, a1, pt2, k2) ← map_one_zeroed_unchecked demo_cfg (demo_area 0xffffffffffffd 0xffffffffffffe 6) pt1 k1 0xffffffffffffd;
  Ret (MkMS pt2 [a0; a1], k2).
(** The byte a process reads at an address. *)
Definition peek (ms : @MemorySet Sv39PageTable.t Empty_set) (k : @kmem Zram.t Swap.t) (a : Z) : option Z :=
  match copy_from_user demo_cfg no_oom ms k a [0] with Ret (Ok [b], _, _) => Some b | _ => None end.

(** [copy_to_user] does not look at the permissions of a page that is mapped, so it
    writes into pages shared by fork: the child reads what a system call stored for its
    parent. *)
Example copy_to_user_breaks_cow :
  ('(parent, k) ← demo_run 0x60000;
   '(child, k1) ← from_existing_user demo_cfg 0x80201000 0x80202000 parent k;
   '(r, parent1, k2) ← copy_to_user demo_cfg no_oom parent k1 [7] 0x60000123;
   Ret (peek child k1 0x60000123, r, peek child k2 0x60000123)) = Ret (Some 0, Ok tt, Some 7).
Proof. vm_compute. reflexivity. Qed.

(** Unmapping the first pages of an area leaves the list of active pages as it was, with
    indices that belong to the old start: the next cleaning under memory pressure panics. *)
Example munmap_then_clean_panics :
  ('(ms, k) ← demo_run 0x6000f;
   '(r, ms1, k1) ← munmap demo_cfg ms k 0x60000000 0x1000;
   Ret (r, match do_shallow_clean demo_cfg ms1 k1 with Panic => true | _ => false end)) = Ret (Ok tt, true).
Proof. vm_compute. reflexivity. Qed.

(** A range that ends where an area begins is not an error of [munmap]. *)
Example munmap_adjacent_ok :
  ('(ms, k) ← demo_run 0x60000;
   '(r, ms1, _) ← munmap demo_cfg ms k 0x5ffff000 0x1000;
   Ret (r, bool_decide (frames ∘ inner <$> areas ms1 = frames ∘ inner <$> areas ms))) = Ret (Ok tt, true).
Proof. vm_compute. reflexivity. Qed.

Section Calls.
Context (cfg : config) {ZS SS T F : Type} `{!PageStore ZS} `{!PageStore SS} `{!PageTable T} `{!MapFile F}.
Implicit Types (k : @kmem ZS SS) (ms : @MemorySet T F).

Lemma munmap_areas_none pt s e (l : list (@MapArea F)) k : (forall a, a ∈ l -> check_overlapping a s e = None) ->
  forall i, munmap_areas cfg pt s e l i k = Ret (false, [], None, l, k).
Proof.
  induction l as [|a l IH]; intros H i; cbn [munmap_areas]; [done|]. unfold munmap_area. rewrite (H a) by left. cbn [mbind outcome_bind].
  rewrite IH; [done|]. intros b Hb. apply H. by right.
Qed.

(** Lowering the program break panics. [sbrk] asks [munmap] for a range of negative
    length and unwraps the answer: whenever the break is not inside an area (the heap ends
    there), a decrement that stays above the bottom of the heap ends in a panic. *)
Theorem sbrk_shrink_panics get_ref ms k heap_pt heap_bottom increment : 0 <= heap_bottom -> heap_pt < 2 ^ 63 -> increment < 0 -> heap_bottom < heap_pt + increment ->
  (forall a, a ∈ areas ms -> ~ (area_start a <= addr_floor heap_pt < area_end a)) ->
  sbrk cfg get_ref ms k heap_pt heap_bottom increment = Panic.
Proof.
  intros Hb Hp Hi Hn Ha. assert (heap_pt ⊕ as_unsigned 64 increment = heap_pt + increment) as E.
  { rewrite <- (wrap_small 64 (heap_pt + increment)) by (unfold in_range; lia). unfold add64. apply wrap_add_r. }
  unfold sbrk. rewrite E. rewrite (proj2 (Z.ltb_ge _ _)), (proj2 (Z.ltb_lt increment 0)), (proj2 (Z.leb_gt _ _)) by lia.
  unfold munmap. destruct (addr_aligned heap_pt) eqn:Eal; cbn [negb mbind outcome_bind]; [|done]. rewrite E.
  rewrite munmap_areas_none; [done|]. intros a Hin. unfold check_overlapping. specialize (Ha a Hin).
  assert (addr_ceil (heap_pt + increment) <= addr_floor heap_pt) as Hc.
  { unfold addr_aligned in Eal. apply Z.eqb_eq in Eal. pose proof (addr_split heap_pt) as Es. rewrite Eal in Es. unfold addr_ceil.
    rewrite sub64_small, add64_small by (unfold in_range, PAGE_SIZE; lia). unfold PAGE_SIZE in *. apply Z.lt_succ_r, Z.div_lt_upper_bound; lia. }
  destruct (Z.ltb_spec (addr_ceil (heap_pt + increment)) (area_start a)); [done|]. destruct (Z.leb_spec (area_end a) (addr_floor heap_pt)); [done|]. lia.
Qed.

(** Raising a break that is not page-aligned reports success and maps nothing. *)
Lemma sbrk_unaligned get_ref ms k heap_pt heap_bottom increment : 0 <= heap_pt -> heap_bottom + USER_HEAP_SIZE < 2 ^ 63 -> 0 <= heap_bottom -> 0 < increment ->
  page_offset heap_pt <> 0 -> heap_pt + increment <= heap_bottom + USER_HEAP_SIZE ->
  sbrk cfg get_ref ms k heap_pt heap_bottom increment = Ret (heap_pt + increment, ms, k).
Proof.
  intros H0 Ht Hb Hi Ho Hl. unfold sbrk. change (as_unsigned 64 increment) with (wrap 64 increment). rewrite (wrap_small 64 increment), !add64_small by (unfold in_range, USER_HEAP_SIZE, PAGE_SIZE in *; lia).
  rewrite (proj2 (Z.ltb_lt _ _)), (proj2 (Z.ltb_ge _ _)) by lia. unfold mmap. unfold page_offset in Ho. change (PAGE_SIZE - 1) with 0xfff in Ho.
  rewrite (proj2 (Z.eqb_neq _ _)) by done. done.
Qed.

(** Protection bits the kernel does not know panic. *)
Lemma mprotect_unknown_prot ms k addr len : addr_aligned addr = true -> mprotect cfg ms k addr len 16 = Panic.
Proof. intros Ha. unfold mprotect. by rewrite Ha. Qed.
End Calls.

(** Witness: the demo process with a heap of one page below its areas. *)
Lemma sbrk_shrink_panics_witness : forall k,
  sbrk demo_cfg (fun _ => Err EBADF) (MkMS (Sv39PageTable.Mk 0 []) [demo_area 0x10000 0x10002 22; demo_area 0x60000 0x60010 22]) k 0x10002000 0x10000000 (-0x1000) = Panic.
Proof.
  intros k. apply (sbrk_shrink_panics demo_cfg (fun _ => Err EBADF)); [lia..|]. intros a Ha Hin. vm_compute in Hin.
  apply elem_of_cons in Ha as [->|[->|[]%not_elem_of_nil]%elem_of_cons]; vm_compute in Hin; destruct Hin as [H1 H2]; try done; by destruct H1.
Defined.
