(* ===== verification/Signal.v ===== *)
(** * Signal: signals of a task (os/src/task/signal.rs)

    Signal sets, the actions a process installs, the delivery of signals on the way back to
    user mode, and the return from a handler ([sys_sigreturn] of syscall/process.rs), for the
    RISC-V build. Data goes to and from user memory through the interface of [UserSpace]. *)
From S2P Require Import Prelude Errno Address Bytes PageTable Pid UserSpace.

(** ** Signal sets *)
Module Signals.
Definition t : Type := Z.
(** The bit of signal number [n]. *)
Definition bit (n : Z) : t := Z.shiftl 1 (n - 1).
Definition SIGILL : t := bit 4.
Definition SIGKILL : t := bit 9.
Definition SIGSEGV : t := bit 11.
Definition SIGCHLD : t := bit 17.
Definition SIGCONT : t := bit 18.
Definition SIGSTOP : t := bit 19.
Definition SIGTSTP : t := bit 20.
Definition SIGTTIN : t := bit 21.
Definition SIGTTOU : t := bit 22.
Definition SIGURG : t := bit 23.
Definition SIGWINCH : t := bit 28.
(** [insert], [remove] or [difference], [is_empty] of [bitflags]. *)
Definition union (a b : t) : t := Z.lor a b.
Definition difference (a b : t) : t := Z.land a (not_bits 64 b).
Definition CAN_NOT_BE_MASKED : t := Z.lor (Z.lor (Z.shiftl 1 3) (Z.shiftl 1 8)) (Z.lor (Z.shiftl 1 10) (Z.shiftl 1 18)).

Definition from_signum (signum : Z) : Result t unit :=
  if signum =? 0 then Ok 0 else if (1 <=? signum) && (signum <=? 64) then Ok (wrap 64 (Z.shiftl 1 (signum - 1))) else Err tt.
Fixpoint count_ones (n : nat) (x : Z) : Z :=
  match n with O => 0 | S n' => (if Z.testbit x (Z.of_nat n') then 1 else 0) + count_ones n' x end.
Definition to_signum (s : t) : Result Z unit := if count_ones 64 s =? 1 then Ok (trailing_zeros 64 s + 1) else Err tt.
Definition peek_front (s : t) : option Z := if s =? 0 then None else Some (trailing_zeros 64 s + 1).
End Signals.

(** ** Actions *)
Module SigActionFlags.
Definition SA_SIGINFO : Z := 4.
Definition SA_RESTART : Z := 0x10000000.
Definition SA_NODEFER : Z := 0x40000000.
Definition SA_RESETHAND : Z := 0x80000000.
Definition SA_RESTORER : Z := 0x04000000.
Definition contains (a b : Z) : bool := Z.land a b =? b.
End SigActionFlags.
Definition SIG_DFL : Z := 0.
Definition SIG_IGN : Z := 1.
Definition handler_addr (h : Z) : option Z := if (h =? SIG_DFL) || (h =? SIG_IGN) then None else Some h.

Record SigAction : Type := MkAction { handler : Z; flags : Z; restorer : Z; mask : Signals.t }.
Definition SigAction_new : SigAction := MkAction SIG_DFL 0 0 0.
(** [repr(C)] *)
Definition SigAction_bytes (s : SigAction) : list Z := le_split 8 (handler s) ++ le_split 8 (flags s) ++ le_split 8 (restorer s) ++ le_split 8 (mask s).
Definition word_at (bs : list Z) (o : nat) : Z := le_combine (take 8 (drop o bs)).
Definition SigAction_of (bs : list Z) : SigAction := MkAction (word_at bs 0) (word_at bs 8) (word_at bs 16) (word_at bs 24).

(** ** Trap contexts *)
Record GeneralRegs : Type := Gp {
  pc : Z; ra : Z; sp : Z; gp : Z; tp : Z; t0 : Z; t1 : Z; t2 : Z; s0 : Z; s1 : Z; a0 : Z; a1 : Z; a2 : Z; a3 : Z; a4 : Z; a5 : Z; a6 : Z; a7 : Z;
  s2 : Z; s3 : Z; s4 : Z; s5 : Z; s6 : Z; s7 : Z; s8 : Z; s9 : Z; s10 : Z; s11 : Z; t3 : Z; t4 : Z; t5 : Z; t6 : Z;
}.
Definition regs_list (r : GeneralRegs) : list Z :=
  [pc r; ra r; sp r; gp r; tp r; t0 r; t1 r; t2 r; s0 r; s1 r; a0 r; a1 r; a2 r; a3 r; a4 r; a5 r; a6 r; a7 r;
   s2 r; s3 r; s4 r; s5 r; s6 r; s7 r; s8 r; s9 r; s10 r; s11 r; t3 r; t4 r; t5 r; t6 r].
Definition regs_of (get : nat -> Z) : GeneralRegs :=
  Gp (get 0%nat) (get 1%nat) (get 2%nat) (get 3%nat) (get 4%nat) (get 5%nat) (get 6%nat) (get 7%nat) (get 8%nat) (get 9%nat) (get 10%nat) (get 11%nat) (get 12%nat) (get 13%nat) (get 14%nat) (get 15%nat)
     (get 16%nat) (get 17%nat) (get 18%nat) (get 19%nat) (get 20%nat) (get 21%nat) (get 22%nat) (get 23%nat) (get 24%nat) (get 25%nat) (get 26%nat) (get 27%nat) (get 28%nat) (get 29%nat) (get 30%nat) (get 31%nat).
(** Register [i] set to [v]: [ra] is 1, [sp] 2, [a0] 10, [a1] 11, [a2] 12. *)
Definition set_reg (i : nat) (v : Z) (r : GeneralRegs) : GeneralRegs := regs_of (fun j => if decide (j = i) then v else nth j (regs_list r) 0).
Record FloatRegs : Type := Fp { fregs : list Z; fcsr : Z }.
Record TrapContext : Type := Tc {
  tc_gp : GeneralRegs; tc_fp : FloatRegs; origin_a0 : Z; sstatus : Z; kernel_satp : Z; trap_handler : Z; kernel_sp : Z; kernel_tp : Z;
}.
Definition with_gp (c : TrapContext) (r : GeneralRegs) : TrapContext :=
  Tc r (tc_fp c) (origin_a0 c) (sstatus c) (kernel_satp c) (trap_handler c) (kernel_sp c) (kernel_tp c).

(** [MachineContext], the part of a trap context that starts it: 256 bytes of general
    registers, 256 of floating-point registers, [fcsr] and four bytes of padding. *)
Definition MACHINE_CONTEXT_SIZE : Z := 520.
Definition mcontext_bytes (c : TrapContext) : list Z :=
  mjoin (le_split 8 <$> regs_list (tc_gp c)) ++ mjoin (le_split 8 <$> fregs (tc_fp c)) ++ le_split 4 (fcsr (tc_fp c)) ++ [0; 0; 0; 0].
Definition mcontext_of (bs : list Z) (c : TrapContext) : TrapContext :=
  Tc (regs_of (fun i => word_at bs (8 * i))) (Fp ((fun i => word_at bs (256 + 8 * i)) <$> seq 0 32) (le_combine (take 4 (drop 512 bs))))
     (origin_a0 c) (sstatus c) (kernel_satp c) (trap_handler c) (kernel_sp c) (kernel_tp c).

(** ** The frame of a handler *)

(** [UserContext]: flags, link, the alternate stack, the mask, padding, the machine context. *)
Definition SIGINFO_SIZE : Z := 128.
Definition USER_CONTEXT_SIZE : Z := 696.
Definition SIGMASK_OFFSET : Z := 2 * 8 + 24.
Definition PADDING_SIZE : Z := 128.
Definition MCONTEXT_OFFSET : Z := SIGMASK_OFFSET + 8 + PADDING_SIZE.
Definition SignalStack_bytes (ssp size : Z) : list Z := le_split 8 ssp ++ le_split 4 2 ++ [0; 0; 0; 0] ++ le_split 8 size.
Definition UserContext_bytes (ssp size sigmask : Z) (c : TrapContext) : list Z :=
  le_split 8 0 ++ le_split 8 0 ++ SignalStack_bytes ssp size ++ le_split 8 sigmask ++ replicate 128 0 ++ mcontext_bytes c.
Definition SigInfo_bytes (si_signo si_errno si_code : Z) : list Z :=
  le_split 4 (wrap 32 si_signo) ++ le_split 4 (wrap 32 si_errno) ++ le_split 4 (wrap 32 si_code) ++ replicate 116 0.
(** [x & !0x7] *)
Definition align8 (x : Z) : Z := Z.land x (not_bits 64 7).

(** ** Tasks *)
Record sigtask : Type := MkTask {
  sigpending : Signals.t; sigmask : Signals.t; trap_cx : TrapContext; sighand : list (option SigAction); ustack_base : Z;
}.
Definition with_pending (t : sigtask) (p : Signals.t) : sigtask := MkTask p (sigmask t) (trap_cx t) (sighand t) (ustack_base t).
Definition with_sigmask (t : sigtask) (m : Signals.t) : sigtask := MkTask (sigpending t) m (trap_cx t) (sighand t) (ustack_base t).
Definition with_cx (t : sigtask) (c : TrapContext) : sigtask := MkTask (sigpending t) (sigmask t) c (sighand t) (ustack_base t).
Definition with_sighand (t : sigtask) (h : list (option SigAction)) : sigtask := MkTask (sigpending t) (sigmask t) (trap_cx t) h (ustack_base t).
Definition add_signal (t : sigtask) (s : Signals.t) : sigtask := with_pending t (Signals.union (sigpending t) s).

(** What delivering signals ends in: back to user mode (in a handler, or with nothing to
    deliver), the end of the process or of the thread, or the task blocks. *)
Inductive verdict : Type := Resume | Handle (signum : Z) | ExitGroup (code : Z) | Exit (code : Z) | Block.

(** ** The calls *)
Section Signal.
Context {U : Type} `{!UserSpace U}.
Implicit Types (t : sigtask) (u : U).

(** [result.unwrap()] *)
Definition unwrap_ok {A} (m : outcome (Result A Z * U)) : outcome (A * U) :=
  '(r, u) ← m; match r with Ok a => Ret (a, u) | Err _ => Panic end.

(** The registers a handler interrupts, after a system call that asked to be restarted:
    back to the [ecall], or with [EINTR]. *)
Definition interrupted (in_syscall : bool) (act : SigAction) (c : TrapContext) : GeneralRegs :=
  let r := tc_gp c in
  if in_syscall && (a0 r =? as_unsigned 64 ERESTART) then
    if SigActionFlags.contains (flags act) SigActionFlags.SA_RESTART then set_reg 10 (origin_a0 c) (set_reg 0 (pc r ⊖ 4) r)
    else set_reg 10 (as_unsigned 64 EINTR) r
  else r.
Definition ucontext_addr (r : GeneralRegs) : Z := align8 (sp r ⊖ USER_CONTEXT_SIZE).
Definition siginfo_addr (r : GeneralRegs) : Z := align8 (ucontext_addr r ⊖ SIGINFO_SIZE).

(** The frame of the handler is pushed; the arguments of a handler with three of them. *)
Definition push_frame (t : sigtask) (u : U) (signum : Z) (act : SigAction) (cx : TrapContext) (sig_size : Z) : outcome (GeneralRegs * U) :=
  let r := tc_gp cx in
  if SigActionFlags.contains (flags act) SigActionFlags.SA_SIGINFO then
    '(_, u1) ← unwrap_ok (us_write u (UserContext_bytes (siginfo_addr r) sig_size (sigmask t) cx) (ucontext_addr r));
    '(_, u2) ← unwrap_ok (us_write u1 (SigInfo_bytes signum 0 0) (siginfo_addr r));
    Ret (set_reg 11 (siginfo_addr r) (set_reg 12 (ucontext_addr r) r), u2)
  else
    '(_, u1) ← unwrap_ok (us_put u (le_split 8 (sigmask t)) (ucontext_addr r ⊕ SIGMASK_OFFSET));
    '(_, u2) ← unwrap_ok (us_write u1 (mcontext_bytes cx) (ucontext_addr r ⊕ MCONTEXT_OFFSET));
    Ret (r, u2).
Definition handler_mask (signum : Z) (act : SigAction) : Signals.t :=
  if SigActionFlags.contains (flags act) SigActionFlags.SA_NODEFER then Signals.difference (mask act) Signals.CAN_NOT_BE_MASKED
  else Signals.difference (Signals.union (wrap 64 (Z.shiftl 1 (signum - 1))) (mask act)) Signals.CAN_NOT_BE_MASKED.

(** A signal with an action. *)
Definition deliver (in_syscall : bool) (t : sigtask) (u : U) (signum : Z) (act : SigAction) : outcome (verdict * sigtask * U) :=
  let cx := with_gp (trap_cx t) (interrupted in_syscall act (trap_cx t)) in
  let sig_sp := siginfo_addr (tc_gp cx) in
  let stack_floor := ustack_base t ⊖ USER_STACK_SIZE in
  if sig_sp <? stack_floor then Ret (Exit 11, with_cx t cx, u)
  else
    '(r, u') ← push_frame t u signum act cx (sig_sp - stack_floor);
    let ra_ := if SigActionFlags.contains (flags act) SigActionFlags.SA_RESTORER then restorer act else SIGNAL_TRAMPOLINE in
    entry ← unwrap (handler_addr (handler act));
    let r' := set_reg 0 entry (set_reg 1 ra_ (set_reg 2 sig_sp (set_reg 10 signum r))) in
    let h := if SigActionFlags.contains (flags act) SigActionFlags.SA_RESETHAND then <[Z.to_nat (signum - 1) := None]> (sighand t) else sighand t in
    Ret (Handle signum, MkTask (sigpending t) (Signals.union (sigmask t) (handler_mask signum act)) (with_gp cx r') h (ustack_base t), u').

(** [do_signal]: signals without an action are ignored, stop the task or end the process. *)
Fixpoint do_signal_loop (fuel : nat) (in_syscall : bool) (t : sigtask) (u : U) : outcome (verdict * sigtask * U) :=
  match fuel with
  | O => Panic
  | S fuel =>
      match Signals.peek_front (Signals.difference (sigpending t) (sigmask t)) with
      | None => Ret (Resume, t, u)
      | Some signum =>
          let signal := wrap 64 (Z.shiftl 1 (signum - 1)) in
          let t1 := with_pending t (Signals.difference (sigpending t) signal) in
          o ← index (sighand t1) (signum - 1);
          match o with
          | Some act => deliver in_syscall t1 u signum act
          | None =>
              if bool_decide (signal ∈ [Signals.SIGCHLD; Signals.SIGCONT; Signals.SIGURG; Signals.SIGWINCH]) then do_signal_loop fuel in_syscall t1 u
              else if bool_decide (signal ∈ [Signals.SIGTSTP; Signals.SIGTTIN; Signals.SIGTTOU]) then Ret (Block, t1, u)
              else match Signals.to_signum signal with Ok n => Ret (ExitGroup n, t1, u) | Err _ => Panic end
          end
      end
  end.
Definition do_signal := do_signal_loop 65.

Definition sys_sigreturn (t : sigtask) (u : U) : outcome (Z * sigtask * U) :=
  let cx := trap_cx t in
  let uaddr := align8 (sp (tc_gp cx) ⊕ SIGINFO_SIZE ⊕ 7) in
  '(mask_bytes, u1) ← unwrap_ok (us_get u (uaddr ⊕ SIGMASK_OFFSET) 8);
  '(bs, u2) ← unwrap_ok (us_read u1 (uaddr ⊕ MCONTEXT_OFFSET) MACHINE_CONTEXT_SIZE);
  let cx' := mcontext_of bs cx in
  Ret (wrap_signed 64 (a0 (tc_gp cx')), with_cx (with_sigmask t (le_combine mask_bytes)) cx', u2).

(** Pointers are addresses, 0 is null. *)
Definition sigaction (t : sigtask) (u : U) (signum act oldact : Z) : outcome (Z * sigtask * U) :=
  if (signum =? 0) || (signum =? 9) || (signum =? 19) || (65 <=? signum) then Ret (EINVAL, t, u)
  else
    '(r, u1) ← (if negb (oldact =? 0) then o ← index (sighand t) (signum - 1); us_write u (SigAction_bytes (default SigAction_new o)) oldact
                else Ret (Ok tt, u));
    match r with
    | Err _ => Ret (EFAULT, t, u1)
    | Ok _ =>
        if negb (act =? 0) then
          '(r2, u2) ← us_read u1 act 32;
          match r2 with
          | Err _ => Ret (EFAULT, t, u2)
          | Ok bs =>
              let s := SigAction_of bs in
              let s' := MkAction (handler s) (flags s) (restorer s) (Signals.difference (mask s) Signals.CAN_NOT_BE_MASKED) in
              h ← store (sighand t) (signum - 1) (if negb ((handler s' =? SIG_DFL) || (handler s' =? SIG_IGN)) then Some s' else None);
              Ret (SUCCESS, with_sighand t h, u2)
          end
        else Ret (SUCCESS, t, u1)
    end.

Definition sigprocmask (t : sigtask) (u : U) (how set oldset : Z) : outcome (Z * sigtask * U) :=
  '(r, u1) ← (if negb (oldset =? 0) then us_put u (le_split 8 (sigmask t)) oldset else Ret (Ok tt, u));
  match r with
  | Err errno => Ret (errno, t, u1)
  | Ok _ =>
      if negb (set =? 0) then
        '(r2, u2) ← us_get u1 set 8;
        match r2 with
        | Err errno => Ret (errno, t, u2)
        | Ok bs =>
            let signal_set := le_combine bs in
            let m := if how =? 0 then Some (Signals.union (sigmask t) signal_set)
                     else if how =? 1 then Some (Signals.difference (sigmask t) signal_set)
                     else if how =? 2 then Some signal_set else None in
            match m with
            | None => Ret (EINVAL, t, u2)
            | Some m => Ret (SUCCESS, with_sigmask t (Signals.difference m Signals.CAN_NOT_BE_MASKED), u2)
            end
        end
      else Ret (SUCCESS, t, u1)
  end.

(** [sigtimedwait] up to the point where it blocks: the set and the timeout it waits for. *)
Definition sigtimedwait_begin (u : U) (set timeout : Z) : outcome (Result (Signals.t * (Z * Z)) Z * U) :=
  '(r, u1) ← us_get u set 8;
  match r with
  | Err errno => Ret (Err errno, u1)
  | Ok bs =>
      if timeout =? 0 then Ret (Err EINVAL, u1)
      else
        '(r2, u2) ← us_read u1 timeout 16;
        Ret (map_ok (fun ts => (le_combine bs, (word_at ts 0, word_at ts 8))) r2, u2)
  end.
(** What it does when it is woken; [late] says that the timeout has passed. *)
Definition sigtimedwait_end (t : sigtask) (u : U) (set : Signals.t) (info : Z) (late : bool) : outcome (Z * U) :=
  if negb (sigpending t =? 0) then
    match Signals.peek_front (Z.land (sigpending t) set) with
    | Some signum =>
        if negb (info =? 0) then
          '(r, u') ← us_write u (SigInfo_bytes signum 0 0) info;
          Ret (match r with Ok _ => signum | Err _ => EFAULT end, u')
        else Ret (signum, u)
    | None => Ret (EINTR, u)
    end
  else rust_assert late ;; Ret (EAGAIN, u).
End Signal.

(** ** Signal sets as sets of numbers *)
Lemma signal_bit n : 1 <= n <= 64 -> wrap 64 (Z.shiftl 1 (n - 1)) = Signals.bit n.
Proof.
  intros H. unfold wrap, Signals.bit. apply Z.mod_small. rewrite Z.shiftl_1_l. split; [apply Z.pow_nonneg; lia|apply Z.pow_lt_mono_r; lia].
Qed.
Lemma bit_range n : 1 <= n <= 64 -> in_range 64 (Signals.bit n).
Proof. intros H. rewrite <- signal_bit by done. apply wrap_range. lia. Qed.
Lemma testbit_bit n i : 1 <= n <= 64 -> 0 <= i -> Z.testbit (Signals.bit n) i = (i =? n - 1).
Proof. intros. apply testbit_one_shift; lia. Qed.
Lemma testbit_difference a b i : 0 <= i < 64 -> Z.testbit (Signals.difference a b) i = Z.testbit a i && negb (Z.testbit b i).
Proof. intros. unfold Signals.difference. by rewrite Z.land_spec, testbit_not_bits. Qed.
Lemma land_range a b : in_range 64 b -> in_range 64 (Z.land a b).
Proof.
  intros H. pose proof H as [H0 _]. apply in_range_testbit; [lia|]. split; [apply Z.land_nonneg; by right|].
  intros i Hi. by rewrite Z.land_spec, (testbit_high 64 b), andb_false_r by (done || lia).
Qed.
Lemma lor_range a b : in_range 64 a -> in_range 64 b -> in_range 64 (Z.lor a b).
Proof.
  intros Ha Hb. pose proof Ha as [? _]. pose proof Hb as [? _]. apply in_range_testbit; [lia|]. split; [by apply Z.lor_nonneg|].
  intros i Hi. by rewrite Z.lor_spec, !(testbit_high 64) by (done || lia).
Qed.
Lemma difference_range a b : in_range 64 b -> in_range 64 (Signals.difference a b).
Proof. intros H. by apply land_range, not_bits_range. Qed.
#[local] Hint Resolve land_range lor_range difference_range bit_range : kernel.
Lemma fixed_range : in_range 64 Signals.CAN_NOT_BE_MASKED.
Proof. by compute. Qed.
#[local] Hint Resolve fixed_range : kernel.

(** The front of a set is its least signal number. *)
Lemma peek_front_spec s : in_range 64 s ->
  match Signals.peek_front s with
  | None => s = 0
  | Some n => 1 <= n <= 64 /\ Z.testbit s (n - 1) = true /\ forall m, 1 <= m < n -> Z.testbit s (m - 1) = false
  end.
Proof.
  intros Hs. unfold Signals.peek_front. destruct (Z.eqb_spec s 0) as [|Hne]; [done|].
  destruct (trailing_zeros_spec 64 s) as (H1 & H2 & H3).
  assert (trailing_zeros 64 s < 64) as Hlt.
  { destruct (Z.ltb_spec (trailing_zeros 64 s) 64); [done|]. destruct Hne. apply (word_ext 64); [lia|done|done|].
    intros i Hi. rewrite H2, Z.bits_0; lia || done. }
  replace (trailing_zeros 64 s + 1 - 1) with (trailing_zeros 64 s) by lia. split; [lia|]. split; [by apply H3|]. intros m Hm. apply H2. lia.
Qed.
Lemma peek_front_first s n : in_range 64 s -> 1 <= n <= 64 -> Z.testbit s (n - 1) = true -> (forall m, 1 <= m < n -> Z.testbit s (m - 1) = false) ->
  Signals.peek_front s = Some n.
Proof.
  intros Hs Hn Ht Hm. pose proof (peek_front_spec s Hs) as H. destruct (Signals.peek_front s) as [k|].
  - destruct H as (Hk & Hk1 & Hk2). f_equal. destruct (Z.lt_total k n) as [?|[?|?]]; [|done|].
    + rewrite Hm in Hk1; [done|lia].
    + rewrite Hk2 in Ht; [done|lia].
  - subst. by rewrite Z.bits_0 in Ht.
Qed.

Lemma count_ones_none n s : Signals.count_ones n s = 0 <-> forall i, 0 <= i < Z.of_nat n -> Z.testbit s i = false.
Proof.
  assert (forall k, 0 <= Signals.count_ones k s) as Hp.
  { induction k; cbn [Signals.count_ones]; [lia|]. destruct (Z.testbit s (Z.of_nat k)); lia. }
  induction n as [|n IH]; cbn [Signals.count_ones]; [split; intros; [lia|done]|]. specialize (Hp n). split.
  - intros H i Hi. destruct (Z.testbit s (Z.of_nat n)) eqn:E; [lia|]. destruct (decide (i = Z.of_nat n)) as [->|]; [done|]. apply IH; lia.
  - intros H. rewrite (H (Z.of_nat n)) by lia. apply IH. intros. apply H. lia.
Qed.
Lemma count_ones_one n s : Signals.count_ones n s = 1 <->
  exists k, 0 <= k < Z.of_nat n /\ forall i, 0 <= i < Z.of_nat n -> Z.testbit s i = (i =? k).
Proof.
  induction n as [|n IH]; cbn [Signals.count_ones]; [split; [done|intros (k & ? & _); lia]|].
  destruct (Z.testbit s (Z.of_nat n)) eqn:E.
  - transitivity (Signals.count_ones n s = 0); [lia|]. rewrite count_ones_none. split.
    + intros H. exists (Z.of_nat n). split; [lia|]. intros i Hi. destruct (Z.eqb_spec i (Z.of_nat n)) as [->|]; [done|]. apply H. lia.
    + intros (k & Hk & H) i Hi. rewrite H in E by lia. apply Z.eqb_eq in E. rewrite H by lia. lia.
  - rewrite Z.add_0_l, IH. split; intros (k & Hk & H).
    + exists k. split; [lia|]. intros i Hi. destruct (decide (i = Z.of_nat n)) as [->|]; [rewrite E; lia|apply H; lia].
    + assert (k <> Z.of_nat n) by (intros ->; rewrite H in E by lia; lia). exists k. split; [lia|]. intros i Hi. apply H. lia.
Qed.

Lemma from_signum_bit n : 1 <= n <= 64 -> Signals.from_signum n = Ok (Signals.bit n).
Proof.
  intros H. unfold Signals.from_signum. rewrite (proj2 (Z.eqb_neq _ _)) by lia. rewrite (proj2 (andb_true_iff _ _)) by lia. by rewrite signal_bit.
Qed.
Lemma to_signum_bit n : 1 <= n <= 64 -> Signals.to_signum (Signals.bit n) = Ok n.
Proof.
  intros H. unfold Signals.to_signum. rewrite (proj2 (Z.eqb_eq _ _)).
  - f_equal. pose proof (peek_front_first (Signals.bit n) n (bit_range n H) H) as HP. unfold Signals.peek_front in HP.
    destruct (Z.eqb_spec (Signals.bit n) 0) as [E|]; [|injection HP as ->; [done|..]; intros; rewrite testbit_bit; lia].
    pose proof (testbit_bit n (n - 1) ltac:(lia) ltac:(lia)) as Hb. rewrite E, Z.bits_0 in Hb. lia.
  - apply count_ones_one. exists (n - 1). split; [lia|]. intros i Hi. apply testbit_bit; lia.
Qed.
Lemma to_signum_inv s n : in_range 64 s -> Signals.to_signum s = Ok n -> 1 <= n <= 64 /\ s = Signals.bit n.
Proof.
  intros Hs H. pose proof H as H'. unfold Signals.to_signum in H'. destruct (Z.eqb_spec (Signals.count_ones 64 s) 1) as [E|]; [|done]. clear H'.
  apply count_ones_one in E as (k & Hk & Hb).
  assert (s = Signals.bit (k + 1)) as ->.
  { apply (word_ext 64); [lia|done|apply bit_range; lia|]. intros i Hi. rewrite testbit_bit, Hb by lia. lia. }
  rewrite to_signum_bit in H by lia. injection H as <-. split; [lia|done].
Qed.
Lemma bit_inj n m : 1 <= n <= 64 -> 1 <= m <= 64 -> Signals.bit n = Signals.bit m -> n = m.
Proof. intros Hn Hm E. pose proof (to_signum_bit n Hn) as H. rewrite E, to_signum_bit in H by done. by injection H. Qed.
Lemma bit_elem n l : 1 <= n <= 64 -> Forall (fun m => 1 <= m <= 64) l -> bool_decide (Signals.bit n ∈ Signals.bit <$> l) = bool_decide (n ∈ l).
Proof.
  intros Hn Hl. apply bool_decide_ext. rewrite list_elem_of_fmap. split; [|by exists n]. intros (m & E & Hm). rewrite Forall_forall in Hl. by rewrite (bit_inj n m Hn (Hl m Hm) E).
Qed.

(** Signal numbers and one-signal sets are in bijection: [to_signum] gives number [n]
    exactly for the set [from_signum] makes of [n]. *)
Theorem signum_roundtrip s n : in_range 64 s -> Signals.to_signum s = Ok n <-> 1 <= n /\ Signals.from_signum n = Ok s.
Proof.
  intros Hs. split.
  - intros H. apply to_signum_inv in H as [Hn ->]; [|done]. split; [lia|by apply from_signum_bit].
  - intros [Hn H]. destruct (Z.leb_spec n 64).
    + rewrite from_signum_bit in H by lia. injection H as <-. apply to_signum_bit. lia.
    + unfold Signals.from_signum in H. rewrite (proj2 (Z.eqb_neq _ _)) in H by lia. by rewrite (proj2 (Z.leb_gt n 64)), andb_false_r in H by lia.
Qed.
Lemma signum_roundtrip_witness : in_range 64 1024 /\ (Signals.to_signum 1024 = Ok 11 <-> 1 <= 11 /\ Signals.from_signum 11 = Ok 1024).
Proof. split; [unfold in_range; lia|]. apply (signum_roundtrip 1024 11). unfold in_range. lia. Defined.

(** ** Words in memory *)
Lemma le_combine_split8 w : in_range 64 w -> le_combine (le_split 8 w) = w.
Proof. intros H. apply le_combine_split. exact H. Qed.
Lemma words_cons x (l : list Z) : mjoin (le_split 8 <$> x :: l) = le_split 8 x ++ mjoin (le_split 8 <$> l).
Proof. done. Qed.
Lemma length_words (l : list Z) : length (mjoin (le_split 8 <$> l)) = (8 * length l)%nat.
Proof. induction l as [|x l IH]; [done|]. rewrite words_cons. rewrite length_app, IH, le_split_length. cbn [length]. lia. Qed.
Lemma words_bytes (l : list Z) : Forall byte_ok (mjoin (le_split 8 <$> l)).
Proof. induction l as [|x l IH]; [constructor|]. rewrite words_cons. apply Forall_app. split; [apply le_split_bytes|done]. Qed.
Lemma word_at_app_l w rest : in_range 64 w -> word_at (le_split 8 w ++ rest) 0 = w.
Proof. intros H. unfold word_at. rewrite drop_0, take_app_length' by (by rewrite le_split_length). by apply le_combine_split8. Qed.
Lemma word_at_skip (pre l : list Z) o : word_at (pre ++ l) (length pre + o) = word_at l o.
Proof. unfold word_at. rewrite <- drop_drop. by rewrite drop_app_length. Qed.
Lemma word_at_words (l rest : list Z) (i : nat) (w : Z) : Forall (in_range 64) l -> l !! i = Some w -> word_at (mjoin (le_split 8 <$> l) ++ rest) (8 * i) = w.
Proof.
  intros H. revert i. induction H as [|x l Hx Hl IH]; intros [|i] E; try done; rewrite words_cons; rewrite <- app_assoc.
  - injection E as <-. by apply word_at_app_l.
  - replace (8 * S i)%nat with (length (le_split 8 x) + 8 * i)%nat by (rewrite le_split_length; lia). rewrite word_at_skip. by apply IH.
Qed.

(** ** Trap contexts in memory *)
Definition regs_ok (c : TrapContext) : Prop :=
  Forall (in_range 64) (regs_list (tc_gp c)) /\ length (fregs (tc_fp c)) = 32%nat /\ Forall (in_range 64) (fregs (tc_fp c)) /\ in_range 32 (fcsr (tc_fp c)).

Lemma regs_of_list get r : (forall i w, regs_list r !! i = Some w -> get i = w) -> regs_of get = r.
Proof. intros H. unfold regs_of. destruct r. f_equal; by apply H. Qed.
Lemma regs_list_of get : regs_list (regs_of get) = get <$> seq 0 32.
Proof. done. Qed.

Lemma mcontext_roundtrip c c' : regs_ok c ->
  mcontext_of (mcontext_bytes c) c' = Tc (tc_gp c) (tc_fp c) (origin_a0 c') (sstatus c') (kernel_satp c') (trap_handler c') (kernel_sp c') (kernel_tp c').
Proof.
  intros (Hg & Hl & Hf & Hc). unfold mcontext_of, mcontext_bytes. f_equal.
  - apply regs_of_list. intros i w E. by apply word_at_words.
  - destruct (tc_fp c) as [fs cs]. cbn [fregs fcsr] in *. f_equal.
    + apply list_eq. intros i. rewrite list_lookup_fmap. destruct (decide (i < 32)%nat) as [Hi|Hi].
      * rewrite lookup_seq_lt by done. cbn [fmap option_fmap option_map]. rewrite Nat.add_0_l. destruct (lookup_lt_is_Some_2 fs i ltac:(lia)) as [w E]. rewrite E. f_equal. cbn beta.
        replace (256 + 8 * i)%nat with (length (mjoin (le_split 8 <$> regs_list (tc_gp c))) + 8 * i)%nat by (rewrite length_words; done).
        rewrite word_at_skip. by apply word_at_words.
      * rewrite lookup_seq_ge by lia. rewrite lookup_ge_None_2 by lia. done.
    + rewrite app_assoc. rewrite drop_app_length' by (rewrite length_app, !length_words, Hl; done).
      rewrite take_app_length' by (by rewrite le_split_length). by apply le_combine_split.
Qed.
Lemma mcontext_bytes_length c : length (fregs (tc_fp c)) = 32%nat -> length (mcontext_bytes c) = 520%nat.
Proof. intros H. unfold mcontext_bytes. rewrite !length_app, !length_words, H, le_split_length. done. Qed.
Lemma mcontext_bytes_ok c : Forall byte_ok (mcontext_bytes c).
Proof.
  unfold mcontext_bytes. rewrite !Forall_app. split; [apply words_bytes|]. split; [apply words_bytes|]. split; [apply le_split_bytes|]. repeat constructor; unfold byte_ok; lia.
Qed.

Lemma forallb_in_range w l : forallb (fun x => (0 <=? x) && (x <? 2 ^ w)) l = true -> Forall (in_range w) l.
Proof. intros H. apply Forall_forall. intros x Hx. apply list_elem_of_In in Hx. rewrite forallb_forall in H. specialize (H x Hx). unfold in_range. lia. Qed.
Definition demo_cx : TrapContext := Tc (regs_of (fun i => 0x60000000 + Z.of_nat i)) (Fp (replicate 32 7) 3) 5 6 7 8 9 10.
Lemma demo_cx_ok : regs_ok demo_cx.
Proof. split; [by apply forallb_in_range|]. split; [done|]. split; [by apply forallb_in_range|]. unfold in_range. cbn. lia. Qed.

(** ** Addresses of the frame *)
Lemma align8_spec x : in_range 64 x -> align8 x = 8 * (x / 8).
Proof.
  intros Hx. assert (align8 x = Z.shiftl (Z.shiftr x 3) 3) as ->; [|rewrite Z.shiftl_mul_pow2, Z.shiftr_div_pow2 by lia; change (2 ^ 3) with 8; lia].
  unfold align8. apply Z.bits_inj'. intros i Hi. rewrite Z.land_spec, Z.shiftl_spec by lia. destruct (Z.ltb_spec i 3).
  - rewrite (Z.testbit_neg_r _ (i - 3)), testbit_not_bits by lia. assert (i = 0 \/ i = 1 \/ i = 2) as [->|[->| ->]] by lia; apply andb_false_r.
  - rewrite Z.shiftr_spec by lia. replace (i - 3 + 3) with i by lia. destruct (Z.ltb_spec i 64).
    + rewrite testbit_not_bits by lia. rewrite (testbit_high 3 7 i); [apply andb_true_r|unfold in_range; lia|lia].
    + by rewrite (testbit_high 64 x) by (done || lia).
Qed.
(** A stack pointer below half of the address space with room for a frame under it. *)
Definition sp_ok (r : GeneralRegs) : Prop := 1024 <= sp r <= 2 ^ 62.
Lemma frame_addrs r : sp_ok r -> ucontext_addr r = 8 * ((sp r - 696) / 8) /\ siginfo_addr r = ucontext_addr r - 128 /\ 128 < ucontext_addr r <= 2 ^ 62 - 696.
Proof.
  intros H. unfold sp_ok in H. assert (ucontext_addr r = 8 * ((sp r - 696) / 8)) as E.
  { unfold ucontext_addr, USER_CONTEXT_SIZE. rewrite sub64_small by lia. apply align8_spec. unfold in_range. lia. }
  assert (128 < ucontext_addr r <= 2 ^ 62 - 696) by (Z.to_euclidean_division_equations; lia). split; [done|]. split; [|done].
  unfold siginfo_addr, SIGINFO_SIZE. rewrite sub64_small by lia. rewrite align8_spec by (unfold in_range; lia). Z.to_euclidean_division_equations; lia.
Qed.
Lemma return_addr r s : sp_ok r -> s = siginfo_addr r -> align8 (s ⊕ SIGINFO_SIZE ⊕ 7) = ucontext_addr r.
Proof.
  intros H ->. destruct (frame_addrs r H) as (E & -> & Hr). unfold SIGINFO_SIZE. rewrite (add64_small (_ - _)) by (unfold in_range; lia).
  rewrite add64_small by (unfold in_range; lia). rewrite align8_spec by (unfold in_range; lia). Z.to_euclidean_division_equations; lia.
Qed.

(** ** The order of delivery *)
Section Delivery.
Context {U : Type} `{!UserSpace U}.
Implicit Types (t : sigtask) (u : U).

Definition deliverable (t : sigtask) (n : Z) : bool := Z.testbit (sigpending t) (n - 1) && negb (Z.testbit (sigmask t) (n - 1)).
Definition taken (t : sigtask) (n : Z) : sigtask := with_pending t (Signals.difference (sigpending t) (Signals.bit n)).
(** The signal numbers [ns] in order: the first deliverable one that is not ignored decides. *)
Fixpoint scan (ns : list Z) (in_syscall : bool) (t : sigtask) (u : U) : outcome (verdict * sigtask * U) :=
  match ns with
  | [] => Ret (Resume, t, u)
  | n :: ns =>
      if deliverable t n then
        match sighand t !! Z.to_nat (n - 1) with
        | Some (Some act) => deliver in_syscall (taken t n) u n act
        | _ =>
            if bool_decide (n ∈ [17; 18; 23; 28]) then scan ns in_syscall (taken t n) u
            else if bool_decide (n ∈ [20; 21; 22]) then Ret (Block, taken t n, u) else Ret (ExitGroup n, taken t n, u)
        end
      else scan ns in_syscall t u
  end.

Lemma unblocked_range t : in_range 64 (sigpending t) -> in_range 64 (Signals.difference (sigpending t) (sigmask t)).
Proof. intros H. unfold Signals.difference. rewrite Z.land_comm. by apply land_range. Qed.
Lemma unblocked_testbit t n : 1 <= n <= 64 -> Z.testbit (Signals.difference (sigpending t) (sigmask t)) (n - 1) = deliverable t n.
Proof. intros H. by rewrite testbit_difference by lia. Qed.
Lemma deliverable_taken t n m : 1 <= n <= 64 -> 1 <= m <= 64 -> deliverable (taken t n) m = deliverable t m && negb (m =? n).
Proof.
  intros Hn Hm. unfold deliverable, taken. cbn [sigpending sigmask with_pending]. rewrite testbit_difference, testbit_bit by lia.
  replace (m - 1 =? n - 1) with (m =? n) by lia. destruct (Z.testbit (sigpending t) (m - 1)), (Z.testbit (sigmask t) (m - 1)), (m =? n); done.
Qed.
Lemma taken_range t n : in_range 64 (sigpending t) -> in_range 64 (sigpending (taken t n)).
Proof. intros H. cbn. unfold Signals.difference. rewrite Z.land_comm. by apply land_range. Qed.

Lemma do_signal_loop_scan j : forall fuel i t u, (j < fuel)%nat -> (j <= 64)%nat -> in_range 64 (sigpending t) -> length (sighand t) = 64%nat ->
  (forall m, 1 <= m < 65 - Z.of_nat j -> deliverable t m = false) -> do_signal_loop fuel i t u = scan (seqZ (65 - Z.of_nat j) (Z.of_nat j)) i t u.
Proof.
  induction j as [|j IH]; intros [|fuel] i t u Hf Hj Hp Hh Hd; try lia; cbn [do_signal_loop].
  - pose proof (peek_front_spec _ (unblocked_range t Hp)) as HP. destruct (Signals.peek_front _) as [n|]; [|done].
    destruct HP as (Hn & Hb & _). rewrite unblocked_testbit, Hd in Hb by lia. done.
  - set (k := 65 - Z.of_nat (S j)) in *. assert (1 <= k <= 64) as Hk by lia. rewrite seqZ_cons by lia. replace (Z.succ k) with (65 - Z.of_nat j) by lia.
    replace (Z.pred (Z.of_nat (S j))) with (Z.of_nat j) by lia. cbn [scan]. destruct (deliverable t k) eqn:Hkd.
    + rewrite (peek_front_first _ k (unblocked_range t Hp) Hk); [|by rewrite unblocked_testbit by lia|intros m Hm; rewrite unblocked_testbit by lia; apply Hd; lia].
      rewrite signal_bit by done. fold (taken t k). unfold index. cbn [sighand with_pending taken].
      destruct (lookup_lt_is_Some_2 (sighand t) (Z.to_nat (k - 1)) ltac:(lia)) as [o Ho]. rewrite Ho. cbn [mbind outcome_bind unwrap].
      destruct o as [act|]; [done|].
      change [Signals.SIGCHLD; Signals.SIGCONT; Signals.SIGURG; Signals.SIGWINCH] with (Signals.bit <$> [17; 18; 23; 28]).
      change [Signals.SIGTSTP; Signals.SIGTTIN; Signals.SIGTTOU] with (Signals.bit <$> [20; 21; 22]).
      rewrite !bit_elem by first [done|repeat (constructor; [lia|]); constructor]. rewrite to_signum_bit by done.
      case_bool_decide; [|done]. apply IH; [lia..|by apply taken_range|done|].
      intros m Hm. rewrite deliverable_taken by lia. destruct (Z.eqb_spec m k) as [->|]; [apply andb_false_r|]. rewrite Hd by lia. done.
    + apply (IH (S fuel)); [lia..|done|done|]. intros m Hm. destruct (decide (m = k)) as [->|]; [done|]. apply Hd. lia.
Qed.

(** C17: [do_signal] goes through the 64 signals in increasing order: the first pending signal
    that is not blocked and that is not ignored decides what happens. *)
Theorem do_signal_scan i t u : in_range 64 (sigpending t) -> length (sighand t) = 64%nat -> do_signal i t u = scan (seqZ 1 64) i t u.
Proof. intros Hp Hh. apply (do_signal_loop_scan 64); [lia..|done|done|]. intros m Hm. lia. Qed.

(** ** Invariants *)
Definition action_ok (a : SigAction) : Prop := handler_addr (handler a) <> None /\ Z.land (mask a) Signals.CAN_NOT_BE_MASKED = 0.
Record sig_wf (t : sigtask) : Prop := {
  sw_pending : in_range 64 (sigpending t);
  sw_hand : length (sighand t) = 64%nat;
  sw_fixed : sighand t !! 8%nat = Some None /\ sighand t !! 18%nat = Some None;
  sw_actions : forall n a, sighand t !! n = Some (Some a) -> action_ok a;
}.
Definition unmasked (t : sigtask) : Prop := Z.land (sigmask t) Signals.CAN_NOT_BE_MASKED = 0.

Lemma difference_fixed s : Z.land (Signals.difference s Signals.CAN_NOT_BE_MASKED) Signals.CAN_NOT_BE_MASKED = 0.
Proof. unfold Signals.difference. rewrite <- Z.land_assoc. change (Z.land (not_bits 64 Signals.CAN_NOT_BE_MASKED) Signals.CAN_NOT_BE_MASKED) with 0. apply Z.land_0_r. Qed.
Lemma union_fixed a b : Z.land a Signals.CAN_NOT_BE_MASKED = 0 -> Z.land b Signals.CAN_NOT_BE_MASKED = 0 -> Z.land (Signals.union a b) Signals.CAN_NOT_BE_MASKED = 0.
Proof. intros Ha Hb. unfold Signals.union. by rewrite Z.land_lor_distr_l, Ha, Hb. Qed.
Lemma unmasked_testbit t k : unmasked t -> k ∈ [3; 8; 10; 18] -> Z.testbit (sigmask t) k = false.
Proof.
  intros H Hk. destruct (Z.testbit (sigmask t) k) eqn:E; [|done].
  assert (Z.testbit (Z.land (sigmask t) Signals.CAN_NOT_BE_MASKED) k = true) as Hb; [|by rewrite H, Z.bits_0 in Hb].
  rewrite Z.land_spec, E. set_unfold in Hk. by destruct Hk as [->|[->|[->|[->|[]]]]].
Qed.

(** What a step keeps. *)
Definition kept (t t' : sigtask) : Prop := (sig_wf t -> sig_wf t') /\ (sig_wf t -> unmasked t -> unmasked t').
Lemma kept_refl t : kept t t.
Proof. by split. Qed.
Lemma kept_trans t1 t2 t3 : kept t1 t2 -> kept t2 t3 -> kept t1 t3.
Proof. intros [A B] [C D]. split; auto. Qed.
Lemma kept_cx t c : kept t (with_cx t c).
Proof. split; [|done]. by intros []. Qed.
Lemma kept_taken t n : kept t (taken t n).
Proof. split; [|done]. intros [H1 H2 H3 H4]. split; [by apply taken_range|done..]. Qed.
Lemma kept_add_signal t s : in_range 64 s -> kept t (add_signal t s).
Proof. intros Hs. split; [|done]. intros [H1 H2 H3 H4]. split; [by apply lor_range|done..]. Qed.
Lemma kept_mask t m : kept t (with_sigmask t (Signals.difference m Signals.CAN_NOT_BE_MASKED)).
Proof. split; [by intros []|]. intros _ _. apply difference_fixed. Qed.
#[local] Hint Resolve kept_refl kept_cx kept_taken kept_mask : signal.

Lemma kept_sighand t h i o : sighand t = h -> i <> 8%nat -> i <> 18%nat -> (forall a, o = Some a -> action_ok a) -> kept t (with_sighand t (<[i := o]> h)).
Proof.
  intros <- H8 H18 Ho. split; [|done]. intros [H1 H2 H3 H4]. split; cbn [sighand with_sighand sigpending]; [done|by rewrite length_insert|by rewrite !list_lookup_insert_ne by congruence|].
  intros n a E. cbn in E. apply list_lookup_insert_Some in E as [(-> & E & _)|[_ E]]; eauto.
Qed.

Lemma deliver_kept i t u n act v t' u' : 1 <= n <= 64 -> (sig_wf t -> sighand t !! Z.to_nat (n - 1) = Some (Some act)) ->
  deliver i t u n act = Ret (v, t', u') -> kept t t' /\ (v = Exit 11 \/ v = Handle n /\ sigpending t' = sigpending t).
Proof.
  intros Hn Ha. unfold deliver. destruct (_ <? _).
  { intros [= <- <- <-]. split; [apply kept_cx|by left]. }
  destruct (push_frame t u n act _ _) as [[r u1]|]; [|done]. cbn [mbind outcome_bind]. destruct (handler_addr (handler act)) as [e|]; [|done].
  cbn [mbind outcome_bind unwrap]. intros [= <- <- <-]. split; [|by right]. split.
  - intros Hw. specialize (Ha Hw). pose proof Hw as [H1 H2 H3 H4].
    destruct (SigActionFlags.contains (flags act) SigActionFlags.SA_RESETHAND); [|done].
    assert (Z.to_nat (n - 1) <> 8%nat /\ Z.to_nat (n - 1) <> 18%nat) as [N8 N18] by (split; intros E; rewrite E in Ha; destruct H3; congruence).
    destruct (proj1 (kept_sighand t _ (Z.to_nat (n - 1)) None eq_refl N8 N18 ltac:(done)) Hw). by split.
  - intros Hw Hu. apply union_fixed; [done|]. unfold handler_mask. destruct (SigActionFlags.contains _ _); apply difference_fixed.
Qed.

Lemma scan_kept ns : Forall (fun n => 1 <= n <= 64) ns -> forall i t u v t' u', scan ns i t u = Ret (v, t', u') -> kept t t'.
Proof.
  induction 1 as [|n ns Hn Hns IH]; intros i t u v t' u'; cbn [scan]; [intros [= <- <- <-]; apply kept_refl|].
  destruct (deliverable t n); [|apply IH]. destruct (sighand t !! Z.to_nat (n - 1)) as [[act|]|] eqn:E.
  - intros H. apply deliver_kept in H as [H _]; [|done|by intros]. eapply kept_trans; [apply kept_taken|exact H].
  - destruct (bool_decide _); [intros H; eapply kept_trans; [apply kept_taken|by eapply IH]|]. destruct (bool_decide _); intros [= <- <- <-]; apply kept_taken.
  - destruct (bool_decide _); [intros H; eapply kept_trans; [apply kept_taken|by eapply IH]|]. destruct (bool_decide _); intros [= <- <- <-]; apply kept_taken.
Qed.
Lemma numbers_ok : Forall (fun n => 1 <= n <= 64) (seqZ 1 64).
Proof. apply Forall_forall. intros n Hn. apply elem_of_seqZ in Hn. lia. Qed.
Lemma do_signal_seq i t u : sig_wf t -> do_signal i t u = scan (seqZ 1 64) i t u.
Proof. intros [Hp Hh _ _]. apply (do_signal_loop_scan 64); [lia..|done|done|]. intros m Hm. lia. Qed.
Lemma do_signal_kept i t u v t' u' : sig_wf t -> do_signal i t u = Ret (v, t', u') -> kept t t'.
Proof. intros Hw. rewrite do_signal_seq by done. apply scan_kept, numbers_ok. Qed.

Lemma sigprocmask_kept t u how set oldset r t' u' : sigprocmask t u how set oldset = Ret (r, t', u') -> kept t t'.
Proof.
  unfold sigprocmask. destruct (if negb (oldset =? 0) then us_put u (le_split 8 (sigmask t)) oldset else Ret (Ok tt, u)) as [[[?|?] u1]|]; cbn [mbind outcome_bind]; [|intros [= <- <- <-]; apply kept_refl|done].
  destruct (negb (set =? 0)); [|intros [= <- <- <-]; apply kept_refl].
  destruct (us_get u1 set 8) as [[[bs|e] u2]|]; cbn [mbind outcome_bind]; [|intros [= <- <- <-]; apply kept_refl|done].
  destruct (how =? 0); [|destruct (how =? 1); [|destruct (how =? 2)]]; intros [= <- <- <-]; auto with signal.
Qed.
Lemma sigaction_kept t u signum act oldact r t' u' : 0 <= signum -> sigaction t u signum act oldact = Ret (r, t', u') -> kept t t'.
Proof.
  intros H0. unfold sigaction. destruct ((signum =? 0) || (signum =? 9) || (signum =? 19) || (65 <=? signum)) eqn:En; [intros [= <- <- <-]; apply kept_refl|].
  destruct (if negb (oldact =? 0) then _ else Ret (Ok tt, u)) as [[[?|?] u1]|]; cbn [mbind outcome_bind]; [|intros [= <- <- <-]; apply kept_refl|done].
  destruct (negb (act =? 0)); [|intros [= <- <- <-]; apply kept_refl].
  destruct (us_read u1 act 32) as [[[bs|e] u2]|]; cbn [mbind outcome_bind]; [|intros [= <- <- <-]; apply kept_refl|done].
  unfold store. case_bool_decide; [|done]. cbn [mbind outcome_bind]. intros [= <- <- <-]. apply kept_sighand; [done|lia|lia|].
  cbn [handler]. destruct ((word_at bs 0 =? SIG_DFL) || (word_at bs 0 =? SIG_IGN)) eqn:Eh; intros sa Ea; [done|].
  injection Ea as <-. split; [|apply difference_fixed]. unfold handler_addr. cbn [handler]. by rewrite Eh.
Qed.
Lemma sigreturn_wf t u r t' u' : sys_sigreturn t u = Ret (r, t', u') -> sig_wf t -> sig_wf t'.
Proof.
  unfold sys_sigreturn, unwrap_ok. destruct (us_get u _ 8) as [[[bs|e] u1]|]; cbn [mbind outcome_bind]; try done.
  destruct (us_read u1 _ _) as [[[bs'|e] u2]|]; cbn [mbind outcome_bind]; try done. intros [= <- <- <-]. by intros [].
Qed.

(** What can happen to a task: its own calls, the delivery of signals, signals sent to it, and
    its code running. *)
Inductive sig_step : sigtask * U -> sigtask * U -> Prop :=
  | step_sigaction t u signum act oldact r t' u' : 0 <= signum -> sigaction t u signum act oldact = Ret (r, t', u') -> sig_step (t, u) (t', u')
  | step_sigprocmask t u how set oldset r t' u' : sigprocmask t u how set oldset = Ret (r, t', u') -> sig_step (t, u) (t', u')
  | step_do_signal t u i v t' u' : do_signal i t u = Ret (v, t', u') -> sig_step (t, u) (t', u')
  | step_sigreturn t u r t' u' : sys_sigreturn t u = Ret (r, t', u') -> sig_step (t, u) (t', u')
  | step_add_signal t u s : in_range 64 s -> sig_step (t, u) (add_signal t s, u)
  | step_user t u c u' : sig_step (t, u) (with_cx t c, u').

(** C18: Whatever a task does, no action is ever installed for [SIGKILL] and [SIGSTOP], and
    every installed action has a handler and blocks none of the signals that cannot be blocked. *)
Theorem sig_wf_reachable s s' : sig_wf s.1 -> rtc sig_step s s' -> sig_wf s'.1.
Proof.
  intros Hw H. induction H as [|s s1 s' Hs _ IH]; [done|]. apply IH. clear IH. destruct Hs; cbn [fst] in *.
  - by eapply sigaction_kept.
  - by eapply sigprocmask_kept.
  - by eapply do_signal_kept.
  - by eapply sigreturn_wf.
  - by apply kept_add_signal.
  - by apply kept_cx.
Qed.

(** ** Signals that cannot be blocked *)
Definition ends (t' : sigtask) (v : verdict) : Prop :=
  (exists n, v = ExitGroup n) \/ v = Exit 11 \/ exists n, n < 9 /\ v = Handle n /\ deliverable t' 9 = true.

Lemma deliver_mask i t u n act v t' u' : deliver i t u n act = Ret (v, t', u') -> v = Exit 11 \/ v = Handle n /\
  sigmask t' = Signals.union (sigmask t) (handler_mask n act) /\ sigpending t' = sigpending t.
Proof.
  unfold deliver. destruct (_ <? _); [intros [= <- <- <-]; by left|].
  destruct (push_frame t u n act _ _) as [[r u1]|]; [|done]. cbn [mbind outcome_bind]. destruct (handler_addr (handler act)) as [e|]; [|done].
  cbn [mbind outcome_bind unwrap]. intros [= <- <- <-]. by right.
Qed.
Lemma scan_kills j : forall i t u v t' u', (j <= 8)%nat -> sig_wf t -> unmasked t -> Z.testbit (sigpending t) 8 = true ->
  scan (seqZ (9 - Z.of_nat j) (56 + Z.of_nat j)) i t u = Ret (v, t', u') -> ends t' v.
Proof.
  induction j as [|j IH]; intros i t u v t' u' Hj Hw Hu Hb; (rewrite seqZ_cons by lia); cbn [scan].
  - unfold deliverable. change (9 - Z.of_nat 0 - 1) with 8. rewrite Hb, (unmasked_testbit t 8 Hu) by set_solver. cbn [andb negb].
    change (Z.to_nat 8) with 8%nat. rewrite (proj1 (sw_fixed t Hw)). intros [= <- <- <-]. left. by eexists.
  - set (k := 9 - Z.of_nat (S j)). replace (Z.succ k) with (9 - Z.of_nat j) by lia. replace (Z.pred (56 + Z.of_nat (S j))) with (56 + Z.of_nat j) by lia.
    destruct (deliverable t k); [|apply IH; by (done || lia)].
    assert (bool_decide (k ∈ [17; 18; 23; 28]) = false) as -> by (apply bool_decide_eq_false; set_unfold; lia).
    assert (bool_decide (k ∈ [20; 21; 22]) = false) as -> by (apply bool_decide_eq_false; set_unfold; lia).
    destruct (sighand t !! Z.to_nat (k - 1)) as [[act|]|] eqn:Ea; [|intros [= <- <- <-]; left; by eexists..].
    intros H. pose proof H as Hm. apply deliver_kept in H as [[_ H] _]; [|lia|done].
    apply deliver_mask in Hm as [->|(-> & _ & Hp)]; [right; by left|]. right. right. exists k. split; [lia|]. split; [done|].
    unfold deliverable. change (9 - 1) with 8. rewrite (unmasked_testbit t' 8); [|apply H; [by apply kept_taken|done]|set_solver]. rewrite Hp. cbn [taken with_pending sigpending].
    rewrite testbit_difference, testbit_bit by lia. rewrite Hb. rewrite (proj2 (Z.eqb_neq _ _)) by lia. done.
Qed.
End Delivery.

(** ** From a handler back to where it was entered *)
Section Return.
Context {U : Type} `{!UserSpace U} {sees : U -> (Z -> option Z) -> Prop} {can_write can_read : U -> Z -> Z -> nat -> Prop}.
Context `{Hus : !UserSpaceOk U sees can_write can_read}.

(** [mu] has [bs] at [a]. *)
Definition holds (mu : Z -> option Z) (a : Z) (bs : list Z) : Prop := forall i b, bs !! i = Some b -> mu (a + Z.of_nat i) = Some b.
Lemma holds_updated mu mu' a bs : (forall x, mu' x = updated mu a bs x) -> holds mu' a bs.
Proof. intros H i b E. rewrite H. by apply updated_in. Qed.
Lemma holds_kept mu mu' a bs b bs' : (forall x, mu' x = updated mu b bs' x) -> a + Z.of_nat (length bs) <= b \/ b + Z.of_nat (length bs') <= a -> holds mu a bs -> holds mu' a bs.
Proof. intros H Hd Ha i x E. pose proof (lookup_lt_Some _ _ _ E). rewrite H, updated_out by lia. by apply Ha. Qed.
Lemma holds_sub mu a pre bs post : holds mu a (pre ++ bs ++ post) -> holds mu (a + Z.of_nat (length pre)) bs.
Proof.
  intros H i b E. replace (a + Z.of_nat (length pre) + Z.of_nat i) with (a + Z.of_nat (length pre + i)) by lia. apply H.
  rewrite lookup_app_r by lia. replace (length pre + i - length pre)%nat with i by lia. by apply lookup_app_l_Some.
Qed.
Lemma holds_read mu a bs m : holds mu a bs -> forall l, Z.of_nat (length l) = m -> m = Z.of_nat (length bs) -> (forall i, 0 <= i < m -> l !! Z.to_nat i = mu (a + i)) -> l = bs.
Proof.
  intros H l Hl Hm Hr. apply list_eq_same_length with (n := length bs); [done|lia|]. intros i x y Hi Hx Hy.
  specialize (Hr (Z.of_nat i) ltac:(lia)). rewrite Nat2Z.id, Hx, (H i y Hy) in Hr. by injection Hr.
Qed.

(** The frame of [t] for [cx] is in memory at [uc]. *)
Definition frame_at (mu : Z -> option Z) (uc : Z) (m : Signals.t) (cx : TrapContext) : Prop :=
  holds mu (uc + 40) (le_split 8 m) /\ holds mu (uc + 176) (mcontext_bytes cx).
Lemma frame_at_ext mu mu' uc m cx : (forall x, uc <= x < uc + 696 -> mu' x = mu x) -> length (fregs (tc_fp cx)) = 32%nat -> frame_at mu uc m cx -> frame_at mu' uc m cx.
Proof.
  intros H Hl [A B]. split; intros i b E; pose proof (lookup_lt_Some _ _ _ E) as Hi.
  - rewrite le_split_length in Hi. rewrite H by lia. by apply A.
  - rewrite mcontext_bytes_length in Hi by done. rewrite H by lia. by apply B.
Qed.
Lemma UserContext_length a n m c : length (fregs (tc_fp c)) = 32%nat -> length (UserContext_bytes a n m c) = 696%nat.
Proof. intros H. unfold UserContext_bytes, SignalStack_bytes. rewrite !length_app, mcontext_bytes_length, !le_split_length by done. done. Qed.
Lemma SigInfo_length a b c : length (SigInfo_bytes a b c) = 128%nat.
Proof. unfold SigInfo_bytes. by rewrite !length_app, !le_split_length. Qed.
Lemma zeros_bytes n : Forall byte_ok (replicate n 0).
Proof. apply Forall_replicate. unfold byte_ok. lia. Qed.
Lemma UserContext_ok a n m c : Forall byte_ok (UserContext_bytes a n m c).
Proof.
  unfold UserContext_bytes, SignalStack_bytes. rewrite !Forall_app. repeat split; try apply le_split_bytes; [apply (zeros_bytes 4)|apply zeros_bytes|apply mcontext_bytes_ok].
Qed.
Lemma SigInfo_ok a b c : Forall byte_ok (SigInfo_bytes a b c).
Proof. unfold SigInfo_bytes. rewrite !Forall_app. repeat split; try apply le_split_bytes. apply zeros_bytes. Qed.
Lemma UserContext_frame mu uc a n m c : holds mu uc (UserContext_bytes a n m c) -> frame_at mu uc m c.
Proof.
  intros H. split.
  - apply (holds_sub mu uc (le_split 8 0 ++ le_split 8 0 ++ SignalStack_bytes a n) (le_split 8 m) (replicate 128 0 ++ mcontext_bytes c)).
    by rewrite <- !app_assoc.
  - apply (holds_sub mu uc (le_split 8 0 ++ le_split 8 0 ++ SignalStack_bytes a n ++ le_split 8 m ++ replicate 128 0) (mcontext_bytes c) []).
    by rewrite app_nil_r, <- !app_assoc.
Qed.

Lemma word_in_page a : a mod 8 = 0 -> addr_floor a = addr_floor (a + Z.of_nat 8 - 1).
Proof. intros H. unfold addr_floor, PAGE_SIZE. Z.to_euclidean_division_equations; lia. Qed.
Lemma ucontext_mod r : sp_ok r -> (ucontext_addr r + 40) mod 8 = 0.
Proof. intros H. destruct (frame_addrs r H) as (-> & _). Z.to_euclidean_division_equations; lia. Qed.

(** What the handler's arguments depend on. *)
Definition handler_regs (act : SigAction) (r : GeneralRegs) : GeneralRegs :=
  if SigActionFlags.contains (flags act) SigActionFlags.SA_SIGINFO then set_reg 11 (siginfo_addr r) (set_reg 12 (ucontext_addr r) r) else r.

Lemma push_frame_post t u n act cx sz mu c : sees u mu -> sp_ok (tc_gp cx) -> regs_ok cx -> can_write u (siginfo_addr (tc_gp cx)) 824 (S (S c)) ->
  exists u' mu', push_frame t u n act cx sz = Ret (handler_regs act (tc_gp cx), u') /\ sees u' mu' /\ can_write u' (siginfo_addr (tc_gp cx)) 824 c /\
    frame_at mu' (ucontext_addr (tc_gp cx)) (sigmask t) cx /\
    forall x, x < siginfo_addr (tc_gp cx) \/ siginfo_addr (tc_gp cx) + 824 <= x -> mu' x = mu x.
Proof.
  intros Hs Hsp (_ & Hl & _) Hc. destruct (frame_addrs _ Hsp) as (_ & Ei & Hr). pose proof (ucontext_mod _ Hsp) as Hmod. unfold push_frame, handler_regs.
  set (uc := ucontext_addr (tc_gp cx)) in *. set (si := siginfo_addr (tc_gp cx)) in *. destruct (SigActionFlags.contains _ _).
  - pose proof (UserContext_length si sz (sigmask t) cx Hl) as L1. pose proof (SigInfo_length n 0 0) as L2.
    destruct (us_write_ok u mu (UserContext_bytes si sz (sigmask t) cx) uc si 824 (S c) Hs Hc) as (u1 & mu1 & -> & Hs1 & Hm1 & Hc1); [unfold inside; lia|apply UserContext_ok|].
    cbn [unwrap_ok mbind outcome_bind].
    destruct (us_write_ok u1 mu1 (SigInfo_bytes n 0 0) si si 824 c Hs1 Hc1) as (u2 & mu2 & -> & Hs2 & Hm2 & Hc2); [unfold inside; lia|apply SigInfo_ok|].
    exists u2, mu2. split; [done|]. split; [done|]. split; [done|]. split.
    + apply (UserContext_frame _ _ si sz). apply (holds_kept _ _ _ _ _ _ Hm2); [lia|]. by apply (holds_updated mu).
    + intros x Hx. rewrite Hm2, updated_out, Hm1, updated_out by lia. done.
  - unfold SIGMASK_OFFSET, MCONTEXT_OFFSET, SIGMASK_OFFSET, PADDING_SIZE. rewrite !add64_small by (unfold in_range; lia).
    pose proof (le_split_length 8 (sigmask t)) as L1. pose proof (mcontext_bytes_length cx Hl) as L2.
    change (uc + (2 * 8 + 24)) with (uc + 40). change (uc + (2 * 8 + 24 + 8 + 128)) with (uc + 176). rewrite us_put_eq; [|lia|lia|lia|by rewrite L1; apply word_in_page].
    destruct (us_write_ok u mu (le_split 8 (sigmask t)) (uc + 40) si 824 (S c) Hs Hc) as (u1 & mu1 & -> & Hs1 & Hm1 & Hc1); [unfold inside; lia|apply le_split_bytes|].
    cbn [unwrap_ok mbind outcome_bind].
    destruct (us_write_ok u1 mu1 (mcontext_bytes cx) (uc + 176) si 824 c Hs1 Hc1) as (u2 & mu2 & -> & Hs2 & Hm2 & Hc2); [unfold inside; lia|apply mcontext_bytes_ok|].
    exists u2, mu2. split; [done|]. split; [done|]. split; [done|]. split; [split|].
    + apply (holds_kept _ _ _ _ _ _ Hm2); [lia|]. by apply (holds_updated mu).
    + by apply (holds_updated mu1).
    + intros x Hx. rewrite Hm2, updated_out, Hm1, updated_out by lia. done.
Qed.

Lemma sigreturn_post t u mu r m cx c : sees u mu -> sp_ok r -> regs_ok cx -> in_range 64 m -> can_read u (siginfo_addr r) 824 (S (S c)) ->
  sp (tc_gp (trap_cx t)) = siginfo_addr r -> frame_at mu (ucontext_addr r) m cx ->
  exists t' u' mu', sys_sigreturn t u = Ret (wrap_signed 64 (a0 (tc_gp cx)), t', u') /\ sees u' mu' /\ (forall x, mu' x = mu x) /\ sigmask t' = m /\
    tc_gp (trap_cx t') = tc_gp cx /\ tc_fp (trap_cx t') = tc_fp cx /\ sigpending t' = sigpending t /\ sighand t' = sighand t.
Proof.
  intros Hs Hsp Hok Hm Hc Hrsp [F1 F2]. destruct (frame_addrs _ Hsp) as (_ & Ei & Hr). pose proof (ucontext_mod _ Hsp) as Hmod. pose proof Hok as (_ & Hl & _).
  unfold sys_sigreturn. rewrite (return_addr r _ Hsp Hrsp). set (uc := ucontext_addr r) in *. set (si := siginfo_addr r) in *.
  unfold SIGMASK_OFFSET, MCONTEXT_OFFSET, SIGMASK_OFFSET, PADDING_SIZE. rewrite !add64_small by (unfold in_range; lia).
  change (uc + (2 * 8 + 24)) with (uc + 40). change (uc + (2 * 8 + 24 + 8 + 128)) with (uc + 176).
  rewrite us_get_eq; [|lia|lia|lia|by apply word_in_page].
  destruct (us_read_ok u mu (uc + 40) 8 si 824 (S c) Hs Hc) as (b1 & u1 & mu1 & -> & L1 & R1 & Hs1 & Hm1 & Hc1); [unfold inside; lia|].
  cbn [unwrap_ok mbind outcome_bind]. apply (holds_read _ _ _ _ F1 _ L1) in R1 as ->; [|by rewrite le_split_length].
  destruct (us_read_ok u1 mu1 (uc + 176) MACHINE_CONTEXT_SIZE si 824 c Hs1 Hc1) as (b2 & u2 & mu2 & -> & L2 & R2 & Hs2 & Hm2 & Hc2); [unfold inside, MACHINE_CONTEXT_SIZE; lia|].
  cbn [unwrap_ok mbind outcome_bind]. assert (b2 = mcontext_bytes cx) as ->.
  { apply (holds_read _ _ _ _ F2 _ L2); [by rewrite mcontext_bytes_length|]. intros i Hi. by rewrite R2, Hm1. }
  rewrite mcontext_roundtrip by done. eexists _, u2, mu2. split; [done|]. split; [done|]. split; [intros x; by rewrite Hm2|].
  split; [by apply le_combine_split8|done].
Qed.

(** [deliver] enters the handler, with the frame on the stack and nothing else changed. *)
Lemma deliver_post i t u n act mu c : let r := interrupted i act (trap_cx t) in let cx := with_gp (trap_cx t) r in
  sees u mu -> sp_ok r -> regs_ok cx -> can_write u (siginfo_addr r) 824 (S (S c)) -> handler_addr (handler act) <> None -> ustack_base t ⊖ USER_STACK_SIZE <= siginfo_addr r ->
  exists t' u' mu', deliver i t u n act = Ret (Handle n, t', u') /\ sees u' mu' /\ can_write u' (siginfo_addr r) 824 c /\ frame_at mu' (ucontext_addr r) (sigmask t) cx /\
    (forall x, x < siginfo_addr r \/ siginfo_addr r + 824 <= x -> mu' x = mu x) /\
    pc (tc_gp (trap_cx t')) = handler act /\ a0 (tc_gp (trap_cx t')) = n /\ sp (tc_gp (trap_cx t')) = siginfo_addr r.
Proof.
  intros r cx Hs Hsp Hok Hc Hh Hfl. unfold deliver. fold r. fold cx. rewrite (proj2 (Z.ltb_ge _ _)) by exact Hfl.
  destruct (push_frame_post t u n act cx (siginfo_addr r - (ustack_base t ⊖ USER_STACK_SIZE)) mu c Hs Hsp Hok Hc) as (u' & mu' & E & Hs' & Hc' & HF & Hout).
  change (tc_gp cx) with r in *. rewrite E. cbn [mbind outcome_bind]. unfold handler_addr in *. destruct ((handler act =? SIG_DFL) || (handler act =? SIG_IGN)); [done|].
  cbn [mbind outcome_bind unwrap]. by eexists _, u', mu'.
Qed.

(** A handler that is entered and that leaves its frame alone returns to where it was
    entered: [sys_sigreturn] restores the registers, the floating-point registers and the
    signal mask. *)
Lemma handler_returns i t u n act mu c : let r := interrupted i act (trap_cx t) in let cx := with_gp (trap_cx t) r in
  sees u mu -> sp_ok r -> regs_ok cx -> in_range 64 (sigmask t) -> can_write u (siginfo_addr r) 824 (S (S c)) -> handler_addr (handler act) <> None ->
  ustack_base t ⊖ USER_STACK_SIZE <= siginfo_addr r ->
  exists t' u' mu', deliver i t u n act = Ret (Handle n, t', u') /\ sees u' mu' /\ pc (tc_gp (trap_cx t')) = handler act /\ a0 (tc_gp (trap_cx t')) = n /\
    (forall x, x < siginfo_addr r \/ siginfo_addr r + 824 <= x -> mu' x = mu x) /\
    forall t2 u2 mu2, sees u2 mu2 -> can_read u2 (siginfo_addr r) 824 2 -> sp (tc_gp (trap_cx t2)) = sp (tc_gp (trap_cx t')) ->
      (forall x, siginfo_addr r <= x < siginfo_addr r + 824 -> mu2 x = mu' x) ->
      exists t3 u3, sys_sigreturn t2 u2 = Ret (wrap_signed 64 (a0 r), t3, u3) /\ tc_gp (trap_cx t3) = r /\ tc_fp (trap_cx t3) = tc_fp (trap_cx t) /\ sigmask t3 = sigmask t.
Proof.
  intros r cx Hs Hsp Hok Hm Hc Hh Hfl. destruct (deliver_post i t u n act mu c Hs Hsp Hok Hc Hh Hfl) as (t' & u' & mu' & E & Hs' & _ & HF & Hout & Hpc & Ha0 & Hsp').
  exists t', u', mu'. split; [done|]. split; [done|]. split; [done|]. split; [done|]. split; [done|]. intros t2 u2 mu2 Hs2 Hc2 Hsp2 Hag.
  destruct (frame_addrs _ Hsp) as (_ & Ei & _). assert (frame_at mu2 (ucontext_addr r) (sigmask t) cx) as HF2.
  { apply (frame_at_ext mu'); [|apply Hok|done]. intros x Hx. apply Hag. lia. }
  destruct (sigreturn_post t2 u2 mu2 r (sigmask t) cx 0 Hs2 Hsp Hok Hm Hc2 (eq_trans Hsp2 Hsp') HF2) as (t3 & u3 & mu3 & E3 & _ & _ & Hm3 & Hg & Hf & _).
  by exists t3, u3.
Qed.

(** ** [SIGKILL] *)

(** There is room for a frame: for a deliverable signal below 9 that has an action, either the frame would
    lie below the user stack, or it can be written. *)
Definition frame_room (i : bool) (t : sigtask) (u : U) : Prop :=
  forall n act, 1 <= n < 9 -> deliverable t n = true -> sighand t !! Z.to_nat (n - 1) = Some (Some act) ->
    let r := interrupted i act (trap_cx t) in
    siginfo_addr r < ustack_base t ⊖ USER_STACK_SIZE \/ sp_ok r /\ regs_ok (with_gp (trap_cx t) r) /\ can_write u (siginfo_addr r) 824 2.
Lemma deliver_returns i t u n act mu : sees u mu -> handler_addr (handler act) <> None -> let r := interrupted i act (trap_cx t) in
  siginfo_addr r < ustack_base t ⊖ USER_STACK_SIZE \/ sp_ok r /\ regs_ok (with_gp (trap_cx t) r) /\ can_write u (siginfo_addr r) 824 2 ->
  exists v t' u', deliver i t u n act = Ret (v, t', u').
Proof.
  intros Hs Hh r Hr. destruct (Z.ltb_spec (siginfo_addr r) (ustack_base t ⊖ USER_STACK_SIZE)) as [Hlt|Hge].
  - exists (Exit 11). unfold deliver. change (tc_gp (with_gp (trap_cx t) (interrupted i act (trap_cx t)))) with r. rewrite (proj2 (Z.ltb_lt _ _) Hlt). by eexists _, _.
  - destruct Hr as [?|(H1 & H2 & H3)]; [lia|]. destruct (deliver_post i t u n act mu 0 Hs H1 H2 H3 Hh Hge) as (t' & u' & mu' & E & _). by exists (Handle n), t', u'.
Qed.
Lemma scan_returns j : forall i t u mu, (j <= 8)%nat -> sees u mu -> sig_wf t -> unmasked t -> Z.testbit (sigpending t) 8 = true -> frame_room i t u ->
  exists v t' u', scan (seqZ (9 - Z.of_nat j) (56 + Z.of_nat j)) i t u = Ret (v, t', u').
Proof.
  induction j as [|j IH]; intros i t u mu Hj Hs Hw Hu Hb Hr; (rewrite seqZ_cons by lia); cbn [scan].
  - unfold deliverable. change (9 - Z.of_nat 0 - 1) with 8. rewrite Hb, (unmasked_testbit t 8 Hu) by set_solver. cbn [andb negb].
    change (Z.to_nat 8) with 8%nat. rewrite (proj1 (sw_fixed t Hw)). by eexists _, _, _.
  - set (k := 9 - Z.of_nat (S j)). replace (Z.succ k) with (9 - Z.of_nat j) by lia. replace (Z.pred (56 + Z.of_nat (S j))) with (56 + Z.of_nat j) by lia.
    destruct (deliverable t k) eqn:Ed; [|eapply IH; by (done || lia)].
    assert (bool_decide (k ∈ [17; 18; 23; 28]) = false) as -> by (apply bool_decide_eq_false; set_unfold; lia).
    assert (bool_decide (k ∈ [20; 21; 22]) = false) as -> by (apply bool_decide_eq_false; set_unfold; lia).
    destruct (sighand t !! Z.to_nat (k - 1)) as [[act|]|] eqn:Ea; [|by eexists _, _, _..].
    apply (deliver_returns i (taken t k) u k act mu Hs); [by apply (sw_actions t Hw (Z.to_nat (k - 1)) act)|]. apply (Hr k act); [lia|done|done].
Qed.

(** C19: [SIGKILL] is not escaped. For a task whose mask has none of the signals that cannot be blocked, with its
    actions as [sigaction] installs them (a handler each, none for [SIGKILL] and [SIGSTOP]), a pending [SIGKILL] makes [do_signal] return
    with the end of the process or of the thread, or with the handler of a signal of a lower number, and then
    [SIGKILL] is still pending and not masked. This needs room for the handler's frame: for each deliverable
    lower signal with an action, the frame either starts below the user stack (the thread then ends), or it is in
    user memory that can be written, under a stack pointer from 1024 to 2^62. (Where it is neither, the code unwraps an error and panics.) *)
Theorem sigkill_ends i t u mu : sees u mu -> sig_wf t -> unmasked t -> Z.testbit (sigpending t) 8 = true -> frame_room i t u ->
  exists v t' u', do_signal i t u = Ret (v, t', u') /\ ends t' v.
Proof using Hus.
  intros Hs Hw Hu Hb Hr. destruct (scan_returns 8 i t u mu ltac:(lia) Hs Hw Hu Hb Hr) as (v & t' & u' & E). exists v, t', u'.
  split; [by rewrite do_signal_seq|]. by eapply (scan_kills 8); [lia|..].
Qed.
End Return.

(** ** The defects *)
Section Flat.
(** A process whose memory is all mapped. *)
#[local] Instance flat : UserSpace (Z -> Z) := {
  us_write m bs a := Ret (Ok tt, fun x => default (m x) (updated (fun _ => None) a bs x));
  us_read m a n := Ret (Ok ((fun i => m (a + i)) <$> seqZ 0 n), m);
  us_put m bs a := Ret (Ok tt, fun x => default (m x) (updated (fun _ => None) a bs x));
  us_get m a n := Ret (Ok ((fun i => m (a + i)) <$> seqZ 0 n), m);
}.
Definition demo_task : sigtask := MkTask 0 0 demo_cx (replicate 64 None) 0x60000000.

(** A process that asks to ignore [SIGUSR1] is killed by it: [sigaction] keeps no record of
    [SIG_IGN] and [do_signal] takes the default action. *)
Example ignored_signal_kills : exists t u, sigaction demo_task (fun x => if x =? 4096 then SIG_IGN else 0) 10 4096 0 = Ret (SUCCESS, t, u) /\
  exists t', do_signal true (add_signal t (Signals.bit 10)) u = Ret (ExitGroup 10, t', u).
Proof. eexists _, _. split; [reflexivity|]. eexists. vm_compute. reflexivity. Qed.

(** [SIGSTOP] ends the process instead of stopping it. *)
Example sigstop_kills u : exists t', do_signal true (add_signal demo_task Signals.SIGSTOP) u = Ret (ExitGroup 19, t', u).
Proof. eexists. vm_compute. reflexivity. Qed.

(** [sys_sigreturn] takes the mask of the frame as it is: a process that writes a full mask
    there blocks [SIGKILL]. *)
Example sigreturn_blocks_sigkill : exists r t u, sys_sigreturn demo_task (fun _ => 255) = Ret (r, t, u) /\
  do_signal true (add_signal t Signals.SIGKILL) u = Ret (Resume, add_signal t Signals.SIGKILL, u).
Proof. eexists _, _, _. split; [reflexivity|]. vm_compute. reflexivity. Qed.

Lemma do_signal_scan_witness : in_range 64 (sigpending demo_task) /\ do_signal false demo_task (fun _ => 0) = scan (seqZ 1 64) false demo_task (fun _ => 0).
Proof. split; [unfold in_range; cbn; lia|]. apply (do_signal_scan false demo_task (fun _ => 0)); [unfold in_range; cbn; lia|reflexivity]. Defined.
Lemma demo_task_wf : sig_wf demo_task.
Proof. split; [unfold in_range; cbn; lia|done|done|]. intros n a H. cbn [sighand demo_task] in H. by apply lookup_replicate in H as [? _]. Qed.
Lemma sig_wf_reachable_witness : sig_wf demo_task /\ sig_wf (add_signal demo_task (Signals.bit 9)).
Proof.
  split; [exact demo_task_wf|]. apply (sig_wf_reachable (demo_task, fun _ : Z => 0) (add_signal demo_task (Signals.bit 9), fun _ => 0) demo_task_wf).
  apply rtc_once. constructor. apply bit_range. lia.
Defined.
Definition flat_sees (m : Z -> Z) (mu : Z -> option Z) : Prop := forall x, mu x = Some (m x).
Lemma flat_ok : UserSpaceOk (Z -> Z) flat_sees (fun _ _ _ _ => True) (fun _ _ _ _ => True).
Proof.
  split; [| |done|done].
  - intros m mu bs b a n c Hs _ _ _. eexists _, (updated mu b bs). split; [done|]. split; [|done]. intros x. unfold updated. case_decide as D; [|by rewrite Hs].
    destruct (lookup_lt_is_Some_2 bs (Z.to_nat (x - b))) as [y ->]; [lia|done].
  - intros m mu b k a n c Hs _ (_ & Hk & _). eexists _, m, mu. split; [done|]. split; [rewrite length_fmap, length_seqZ; lia|]. split; [|done].
    intros i Hi. rewrite list_lookup_fmap, lookup_seqZ_lt by lia. cbn. rewrite Hs. do 3 f_equal. lia.
Qed.
(** [SIGINT], with a handler, and [SIGKILL] are pending. *)
Definition killed_task : sigtask :=
  MkTask (Signals.union (Signals.bit 2) (Signals.bit 9)) 0 demo_cx (<[1%nat := Some (MkAction 0x10000 0 0 0)]> (replicate 64 None)) 0x60000100.
Lemma killed_task_wf : sig_wf killed_task.
Proof.
  split; [unfold in_range; vm_compute; split; congruence|done|done|]. intros n a H. cbn [sighand killed_task] in H. destruct (decide (n = 1%nat)) as [->|Hn].
  - rewrite list_lookup_insert_eq in H by (rewrite length_replicate; lia). injection H as <-. split; [done|reflexivity].
  - rewrite list_lookup_insert_ne in H by done. by apply lookup_replicate in H as [? _].
Qed.
Lemma sigkill_ends_witness : exists v t' u', do_signal false killed_task (fun _ => 0) = Ret (v, t', u') /\ ends t' v.
Proof.
  apply (sigkill_ends (Hus := flat_ok) false killed_task (fun _ => 0) (fun _ => Some 0)); [done|exact killed_task_wf|reflexivity|reflexivity|].
  intros n act Hn _ Ha. right. split; [vm_compute; split; congruence|]. split; [exact demo_cx_ok|done].
Defined.
End Flat.
