(* ===== verification/KernelSignal.v ===== *)
(** * KernelSignal: signal handlers on the memory of a process

    The delivery of a signal and the return from its handler ([Signal]), with the frame in
    the user memory of [KernelUser]: pages that may be absent, compressed or swapped out. *)
From S2P Require Import Prelude Errno AllocSpec Address FrameAlloc Bytes PageTable Sv39 PageStore Trackers MapArea Pid MemorySet AddressSpace Reclaim MemSystem Fork MemRun KernelMemory UserBuffer UserSpace UserMemory KernelUser Signal.
Import StackFrameAllocator.

Section KernelSignal.
Context (cfg : config) (base limit zcap spages : Z) (compress : list Z -> list Z) (decompress : list Z -> option (list Z)).
Context {F : Type} `{!MapFile F} (strampoline ssignaltrampoline : Z) (oom : Z -> @kmem Zram.t Swap.t -> bool * @kmem Zram.t Swap.t).
#[local] Notation kernel_config := (kernel_config cfg base limit compress decompress strampoline ssignaltrampoline).
#[local] Notation kernel_proc := (kernel_proc cfg base limit zcap spages compress).
#[local] Instance signal_zram : PageStore Zram.t := kernel_zram compress decompress.
#[local] Instance signal_page_table : PageTable Sv39PageTable.t := kernel_page_table cfg.
#[local] Instance kernel_user_space : UserSpace (@MemorySet Sv39PageTable.t F * @kmem Zram.t Swap.t) := user_space (cfg := cfg) oom.
Implicit Types (k : @kmem Zram.t Swap.t) (ms : @MemorySet Sv39PageTable.t F) (M : gmap Z (Z * Z)) (rest : list Frame).

(** The frames two accesses to a handler's frame may need. *)
Definition frames_for (k : @kmem Zram.t Swap.t) (a : Z) : Prop := 6 * Z.of_nat (pages_of a (a + 824)) <= unallocated_frames (fa (wd k)).

(** Every byte of the range is in a user area that can be read. *)
Definition kernel_readable ms (start end_ : Z) : Prop := forall x, start <= x < end_ ->
  Sv39PageTable.vpn_ok (addr_floor x) /\ exists ar, ar ∈ areas ms /\ fault_area (addr_floor x) ar = true.

(** C16: A signal handler on the memory of a process. When the 824 bytes of the frame under
    the interrupted code's stack pointer (from 1024 to 2^62) do not start below the user
    stack and lie in writable user pages with no file-backed area behind them and not
    write-protected for sharing, and there are six free frames for each page they touch, [deliver] enters the handler with the signal
    number, and changes no memory outside the frame. When the process comes to
    [sys_sigreturn] with the bytes of the frame as they were, the stack pointer the handler
    was given, the frame in readable user pages with no file-backed area behind them, and
    as many free frames, the interrupted registers, floating-point registers and signal mask are restored. Pages of the frame
    may be in memory, compressed, swapped out or not allocated, both times. *)
Theorem kernel_signal_return k g ms M rest i t n act : kernel_config -> kernel_proc k g ms M rest ->
  let r := interrupted i act (trap_cx t) in let si := siginfo_addr r in
  sp_ok r -> regs_ok (with_gp (trap_cx t) r) -> in_range 64 (sigmask t) -> handler_addr (handler act) <> None -> anon_range ms si (si + 824) -> ustack_base t ⊖ USER_STACK_SIZE <= si ->
  kernel_writable ms M si (si + 824) -> frames_for k si ->
  exists t' ms' k' g' M' rest', deliver i t (ms, k) n act = Ret (Handle n, t', (ms', k')) /\ kernel_proc k' g' ms' M' rest' /\
    pc (tc_gp (trap_cx t')) = handler act /\ a0 (tc_gp (trap_cx t')) = n /\
    (forall x, x < si \/ si + 824 <= x -> ubyte ms' k' g' x = ubyte ms k g x) /\
    forall t2 k2 g2 ms2 M2 rest2, kernel_proc k2 g2 ms2 M2 rest2 -> anon_range ms2 si (si + 824) -> kernel_readable ms2 si (si + 824) -> frames_for k2 si ->
      sp (tc_gp (trap_cx t2)) = sp (tc_gp (trap_cx t')) -> (forall x, si <= x < si + 824 -> ubyte ms2 k2 g2 x = ubyte ms' k' g' x) ->
      exists t3 u3, sys_sigreturn t2 (ms2, k2) = Ret (wrap_signed 64 (a0 r), t3, u3) /\
        tc_gp (trap_cx t3) = r /\ tc_fp (trap_cx t3) = tc_fp (trap_cx t) /\ sigmask t3 = sigmask t.
Proof.
  intros C Q r si Hsp Hok Hm Hh Hf Hfl HW Hfr. pose proof C as [Hz Hb Hl Hlz Ht Hs]. pose proof (kernel_ppn _ _ _ _ _ _ _ C) as Hppn.
  pose proof (Sv39PageTable.sv39_page_table_ok cfg base limit Hz Hb Hl) as Hpt. pose proof (Zram.Zram_PageStoreOk compress decompress Hlz zcap) as Hzok.
  pose proof (Swap.Swap_PageStoreOk spages) as Hsok.
  pose proof (user_space_ok (cfg := cfg) (F := F) (PageTableOk0 := Hpt) oom Hz Hppn ltac:(lia)) as Hus.
  destruct (frame_addrs r Hsp) as (_ & Ei & Hr). fold si in Ei.
  destruct (handler_returns (Hus := Hus) i t (ms, k) n act (ubyte ms k g) 0) as (t' & [ms' k'] & mu' & E & (g' & M' & rest' & Q' & Hmu') & Hpc & Ha0 & Hout & Hret); try done.
  - by exists g, M, rest.
  - split; [|by apply (proj1 (writable_pt ms k g M rest si (si + 824) Q))]. fold r si. split; [|exact Hf]. split; [lia|]. split; [lia|]. unfold frames_for in Hfr. cbn [snd]. fold r si. lia.
  - exists t', ms', k', g', M', rest'. split; [exact E|]. split; [exact Q'|]. split; [done|]. split; [done|].
    split; [intros x Hx; rewrite <- Hmu'; by apply Hout|]. intros t2 k2 g2 ms2 M2 rest2 Q2 Hf2 HW2 Hfr2 Hsp2 Hag.
    apply (Hret t2 (ms2, k2) (ubyte ms2 k2 g2)); [by exists g2, M2, rest2| |done|].
    + split; [split; [|exact Hf2]; split; [fold r si; lia|split; [fold r si; lia|]]; unfold frames_for in Hfr2; cbn [snd]; fold r si; lia|exact HW2].
    + intros x Hx. rewrite Hmu'. by apply Hag.
Qed.
End KernelSignal.

(** Witness: a frame across a page boundary of a stack that is not in memory yet. *)
Definition demo_sigtask : sigtask := MkTask 0 5 (with_gp demo_cx (set_reg 2 0x60005200 (tc_gp demo_cx))) (replicate 64 None) 0x60005400.
Definition demo_action : SigAction := MkAction 0x10000 SigActionFlags.SA_SIGINFO 0 0.
Lemma kernel_signal_return_witness : exists k g ms t' u', demo_proc k g ms ∅ [] /\
  deliver (UserSpace0 := kernel_user_space demo_cfg (fun b => b) Some (MapFile0 := no_files) no_oom) false demo_sigtask (ms, k) 10 demo_action = Ret (Handle 10, t', u').
Proof.
  destruct demo_process as (pt & k & g & Hd & Q). pose proof (demo_free _ _ Hd) as Hfr.
  destruct (kernel_signal_return demo_cfg demo_base demo_limit 2048 256 (fun b => b) Some (MapFile0 := no_files) 0x80201000 0x80202000 no_oom k g (MkMS pt demo_areas) ∅ [] false demo_sigtask 10 demo_action demo_config Q)
    as (t' & ms' & k' & _ & _ & _ & Hr & _).
  - vm_compute. split; congruence.
  - split; [by apply forallb_in_range|]. split; [done|]. split; [by apply forallb_in_range|]. unfold in_range. cbn. lia.
  - unfold in_range. cbn. lia.
  - done.
  - intros x _. apply anon_all. by repeat constructor.
  - vm_compute. congruence.
  - apply demo_user; vm_compute; congruence.
  - unfold frames_for. rewrite Hfr. vm_compute. congruence.
  - exists k, g, (MkMS pt demo_areas), t', (ms', k'). split; [exact Q|exact Hr].
Defined.
