(* ===== verification/BTree.v ===== *)
(** * BTree: ordered maps

    Rust's [BTreeMap] as the list of its entries in key order: what the kernel uses
    of it is insertion that replaces an equal key, removal, the first entry, and
    iteration in key order from either end. Key types have a class of orders, with
    the instances the kernel's keys need. *)
From S2P Require Import Prelude.
From Stdlib Require Import Sorted.

Class OrdKey (K : Type) := {
  kcmp : K -> K -> comparison;
  kcmp_eq : forall a b, kcmp a b = Eq <-> a = b;
  kcmp_opp : forall a b, kcmp b a = CompOpp (kcmp a b);
  kcmp_trans : forall a b c, kcmp a b = Lt -> kcmp b c = Lt -> kcmp a c = Lt;
}.

#[global] Instance Z_OrdKey : OrdKey Z.
Proof.
  refine {| kcmp := Z.compare |}.
  - intros. apply Z.compare_eq_iff.
  - intros. apply Z.compare_antisym.
  - intros a b c. rewrite !Z.compare_lt_iff. lia.
Defined.

(** [a.cmp(b).then_with(|| ...)] *)
Definition then_with (c d : comparison) : comparison := match c with Eq => d | _ => c end.

#[global] Instance pair_OrdKey {A B} `{OrdKey A, OrdKey B} : OrdKey (A * B).
Proof.
  refine {| kcmp := fun x y => then_with (kcmp (fst x) (fst y)) (kcmp (snd x) (snd y)) |}.
  - intros [a1 a2] [b1 b2]. cbn. destruct (kcmp a1 b1) eqn:E; cbn.
    + apply kcmp_eq in E as ->. rewrite kcmp_eq. split; congruence.
    + split; [done|]. intros [= -> ->]. by rewrite (proj2 (kcmp_eq b1 b1)) in E.
    + split; [done|]. intros [= -> ->]. by rewrite (proj2 (kcmp_eq b1 b1)) in E.
  - intros [a1 a2] [b1 b2]. cbn. rewrite (kcmp_opp a1 b1).
    destruct (kcmp a1 b1); cbn; [apply kcmp_opp|done|done].
  - intros [a1 a2] [b1 b2] [c1 c2]. cbn.
    destruct (kcmp a1 b1) eqn:E1; cbn; [|intros _|done].
    + apply kcmp_eq in E1 as ->. destruct (kcmp b1 c1) eqn:E2; cbn; [|done|done].
      apply kcmp_trans.
    + destruct (kcmp b1 c1) eqn:E2; cbn; [|intros _|done].
      * intros _. apply kcmp_eq in E2 as ->. by rewrite E1.
      * by rewrite (kcmp_trans _ _ _ E1 E2).
Defined.

Section BTree.
Context {K V : Type} `{OrdKey K}.
Implicit Types (l : list (K * V)) (k : K) (v : V).

Fixpoint bt_insert k v l : list (K * V) :=
  match l with
  | [] => [(k, v)]
  | (k', v') :: r =>
      match kcmp k k' with
      | Lt => (k, v) :: l
      | Eq => (k, v) :: r
      | Gt => (k', v') :: bt_insert k v r
      end
  end.

Fixpoint bt_remove k l : option V * list (K * V) :=
  match l with
  | [] => (None, [])
  | (k', v') :: r =>
      match kcmp k k' with
      | Eq => (Some v', r)
      | _ => let '(o, r') := bt_remove k r in (o, (k', v') :: r')
      end
  end.

Definition bt_keys l : list K := map fst l.
Definition klt (a b : K) : Prop := kcmp a b = Lt.
Definition bt_sorted l : Prop := StronglySorted klt (bt_keys l).

Lemma kcmp_refl k : kcmp k k = Eq.
Proof. by apply kcmp_eq. Qed.

Lemma kcmp_gt a b : kcmp a b = Gt -> klt b a.
Proof. intros E. unfold klt. by rewrite kcmp_opp, E. Qed.

Lemma klt_irrefl k : ~ klt k k.
Proof. unfold klt. by rewrite kcmp_refl. Qed.

Lemma klt_total a b : klt a b \/ a = b \/ klt b a.
Proof.
  destruct (kcmp a b) eqn:E; [right; left; by apply kcmp_eq|by left|right; right; by apply kcmp_gt].
Qed.

#[global] Instance klt_trans : Transitive klt.
Proof. intros a b c. apply kcmp_trans. Qed.

Lemma bt_sorted_cons k v l :
  bt_sorted ((k, v) :: l) <-> Forall (fun e => klt k (fst e)) l /\ bt_sorted l.
Proof.
  unfold bt_sorted, bt_keys. cbn.
  split.
  - intros Hs. inversion Hs; subst. by rewrite Forall_map in H3.
  - intros [Hf Hs]. constructor; [done|]. by rewrite Forall_map.
Qed.

Lemma bt_insert_keys k v l k' v' :
  (k', v') ∈ bt_insert k v l -> k' = k \/ (k', v') ∈ l.
Proof.
  induction l as [|[k1 v1] r IH]; cbn.
  - intros Hin. apply list_elem_of_singleton in Hin. left. congruence.
  - destruct (kcmp k k1) eqn:E; rewrite ?elem_of_cons; naive_solver.
Qed.

Lemma bt_insert_sorted k v l : bt_sorted l -> bt_sorted (bt_insert k v l).
Proof.
  induction l as [|[k1 v1] r IH]; intros Hs.
  - cbn. apply bt_sorted_cons. split; constructor.
  - apply bt_sorted_cons in Hs as [Hf Hs]. cbn. destruct (kcmp k k1) eqn:E.
    + apply kcmp_eq in E as ->. by apply bt_sorted_cons.
    + apply bt_sorted_cons. split; [|by apply bt_sorted_cons].
      constructor; [done|]. eapply Forall_impl; [done|]. cbn. intros e He. by trans k1.
    + apply bt_sorted_cons. split; [|by apply IH]. apply Forall_forall. intros [k' v'] Hin.
      apply bt_insert_keys in Hin as [->|Hin]; [by apply kcmp_gt|].
      rewrite Forall_forall in Hf. by apply (Hf (k', v')).
Qed.

(** Inserting a key that is not there adds one entry and keeps the others. *)
Lemma bt_insert_fresh k v l : k ∉ bt_keys l -> bt_insert k v l ≡ₚ (k, v) :: l.
Proof.
  induction l as [|[k1 v1] r IH]; cbn; [done|]. intros Hk. apply not_elem_of_cons in Hk as [Hne Hk].
  destruct (kcmp k k1) eqn:E.
  - by apply kcmp_eq in E.
  - done.
  - rewrite IH by done. apply perm_swap.
Qed.

Lemma bt_remove_None k l : k ∉ bt_keys l -> bt_remove k l = (None, l).
Proof.
  induction l as [|[k1 v1] r IH]; cbn; [done|]. intros Hk. apply not_elem_of_cons in Hk as [Hne Hk].
  destruct (kcmp k k1) eqn:E; [by apply kcmp_eq in E| |]; by rewrite IH.
Qed.

Lemma bt_remove_Some k v l : bt_sorted l -> (k, v) ∈ l ->
  exists r, bt_remove k l = (Some v, r) /\ l ≡ₚ (k, v) :: r /\ bt_sorted r.
Proof.
  induction l as [|[k1 v1] r IH]; intros Hs Hin; [by apply not_elem_of_nil in Hin|].
  apply bt_sorted_cons in Hs as [Hf Hs]. cbn. apply elem_of_cons in Hin as [[= -> ->]|Hin].
  - rewrite kcmp_refl. by exists r.
  - assert (klt k1 k) as Hlt by (rewrite Forall_forall in Hf; by apply (Hf (k, v))).
    destruct (IH Hs Hin) as (r' & Hr & Hp & Hs').
    assert (kcmp k k1 = Gt) as -> by (by rewrite kcmp_opp, Hlt). rewrite Hr.
    exists ((k1, v1) :: r'). split; [done|]. split.
    + rewrite Hp. apply perm_swap.
    + apply bt_sorted_cons. split; [|done]. rewrite Hp in Hf. by inversion Hf.
Qed.

Lemma bt_sorted_NoDup l : bt_sorted l -> NoDup (bt_keys l).
Proof.
  induction l as [|[k v] r IH]; intros Hs; cbn; [apply NoDup_nil_2|].
  apply bt_sorted_cons in Hs as [Hf Hs]. apply NoDup_cons. split; [|by apply IH].
  intros Hin. apply list_elem_of_fmap in Hin as ([k' v'] & -> & Hin).
  rewrite Forall_forall in Hf. specialize (Hf _ Hin). by apply klt_irrefl in Hf.
Qed.

Lemma bt_keys_elem k l : k ∈ bt_keys l <-> exists v, (k, v) ∈ l.
Proof.
  unfold bt_keys. rewrite list_elem_of_fmap. split.
  - intros ([k' v'] & -> & Hin). eauto.
  - intros (v & Hin). by exists (k, v).
Qed.

Lemma bt_remove_lookup k l : bt_sorted l ->
  match bt_remove k l with
  | (Some v, r) => (k, v) ∈ l /\ l ≡ₚ (k, v) :: r /\ bt_sorted r
  | (None, r) => r = l /\ k ∉ bt_keys l
  end.
Proof.
  intros Hs. destruct (decide (Exists (fun e => kcmp k (fst e) = Eq) l)) as [Hex|Hno].
  - apply Exists_exists in Hex as ([k' v] & Hin & E). cbn in E. apply kcmp_eq in E as <-.
    destruct (bt_remove_Some k v l Hs Hin) as (r & -> & Hp & Hs'). done.
  - assert (k ∉ bt_keys l) as Hk.
    { intros (v & Hin)%bt_keys_elem. apply Hno, Exists_exists. exists (k, v). split; [done|]. apply kcmp_refl. }
    by rewrite bt_remove_None.
Qed.

End BTree.
