(* ===== verification/Sched.v ===== *)
(** * Sched: scheduling entities and the CFS run queue (os/src/task/cfs_scheduler.rs)

    A task is a reference (an [Arc] pointer, here an integer) into a store of task
    control blocks, of which the model keeps the fields the scheduler reads or
    writes. The run queue is the ordered map from (vruntime, tid) to task
    references, with the counters the code keeps beside it. *)
From S2P Require Import Prelude BTree.

(** ** Configuration *)
Definition SCHED_LATENCY_NS : Z := 6000000.
Definition MIN_GRANULARITY_NS : Z := 750000.
Definition NICE_0_WEIGHT : Z := 1024.
Definition WAKEUP_GRANULARITY_NS : Z := 1000000.

Definition NICE_TO_WEIGHT : list Z := [
  88761; 71755; 56483; 46273; 36291;
  29154; 23254; 18705; 14949; 11916;
  9548;  7620;  6100;  4904;  3906;
  3121;  2501;  1991;  1586;  1277;
  1024;  820;   655;   526;   423;
  335;   272;   215;   172;   137;
  110;   87;    70;    56;    45;
  36;    29;    23;    18;    15 ].

Definition NICE_TO_INV_WEIGHT : list Z := [
  48388;  59856;  76040;  92818;  118348;
  147320; 184698; 229616; 287308; 360437;
  449829; 563644; 704093; 875809; 1099582;
  1376151;1717300;2157191;2708050;3363326;
  4194304;5237765;6557202;8165337;10153587;
  12820798;15790321;19976592;24970740;31350126;
  39045157;49367440;61356676;76695844;95443717;
  119304647;148102320;186737708;238609294;286331153 ].

Definition clamp (x lo hi : Z) : Z := if x <? lo then lo else if hi <? x then hi else x.

(** [table[(nice + 20) as usize]]: the sum is an [i8], the cast sign-extends. *)
Definition nice_index (table : list Z) (nice : Z) : outcome Z :=
  index table (as_unsigned 64 (wrap_signed 8 (nice + 20))).

Definition nice_to_weight (nice : Z) : outcome Z := nice_index NICE_TO_WEIGHT (clamp nice (-20) 19).

(** ** Policies *)
Inductive SchedPolicy : Type := Normal | Fifo | RoundRobin | Batch | Idle.

Definition is_realtime (p : SchedPolicy) : bool :=
  match p with Fifo | RoundRobin => true | _ => false end.

Definition policy_from_raw (policy : Z) : option SchedPolicy :=
  if policy =? 0 then Some Normal
  else if policy =? 1 then Some Fifo
  else if policy =? 2 then Some RoundRobin
  else if policy =? 3 then Some Batch
  else if policy =? 5 then Some Idle
  else None.

(** ** Scheduling entities *)
Definition is_valid_nice (nice : Z) : bool := (-20 <=? nice) && (nice <=? 19).
(** [(prio - 120) as i8] on an [i32]. *)
Definition prio_to_nice (prio : Z) : Z := wrap_signed 8 (wrap_signed 32 (prio - 120)).
Definition nice_to_prio (nice : Z) : Z := nice + 120.

(** Priorities and nice values convert back and forth; the valid ones are 100 to 139. *)
Lemma prio_nice_roundtrip n : is_valid_nice n = true ->
  prio_to_nice (nice_to_prio n) = n /\ 100 <= nice_to_prio n <= 139.
Proof.
  unfold is_valid_nice, prio_to_nice, nice_to_prio. rewrite andb_true_iff, !Z.leb_le. intros H.
  rewrite !wrap_signed_small by (rewrite ?wrap_signed_small by lia; lia). lia.
Qed.

Record CfsStats : Type := Stats {
  context_switches : Z;
  voluntary_preempt : Z;
  involuntary_preempt : Z;
  wait_time : Z;
  run_time : Z;
}.
Definition record_switch (s : CfsStats) (voluntary : bool) : CfsStats :=
  Stats (context_switches s ⊕ 1)
    (if voluntary then voluntary_preempt s ⊕ 1 else voluntary_preempt s)
    (if voluntary then involuntary_preempt s else involuntary_preempt s ⊕ 1)
    (wait_time s) (run_time s).

Module SchedEntity.

Record t : Type := Mk {
  vruntime : Z;
  nice : Z;
  weight : Z;
  sum_exec_runtime : Z;
  exec_start : Z;
  prev_sum_exec_runtime : Z;
  last_cpu : Z;
  policy : SchedPolicy;
  rt_priority : Z;
  cpu_affinity : Z;
}.

Definition default : t := Mk 0 0 NICE_0_WEIGHT 0 0 0 0 Normal 0 usize_max.

Definition new (nice : Z) : outcome t :=
  w ← nice_to_weight nice;
  Ret (Mk 0 nice w 0 0 0 0 Normal 0 usize_max).

Definition new_rt (policy : SchedPolicy) (priority : Z) : t :=
  Mk 0 0 NICE_0_WEIGHT 0 0 0 0 policy (Z.max (Z.min priority 99) 1) usize_max.

Definition set_policy (e : t) (p : SchedPolicy) (priority : Z) : t :=
  Mk (vruntime e) (nice e) (weight e) (sum_exec_runtime e) (exec_start e)
    (prev_sum_exec_runtime e) (last_cpu e) p
    (if is_realtime p then Z.max (Z.min priority 99) 1 else 0) (cpu_affinity e).

Definition set_last_cpu (e : t) (cpu : Z) : t :=
  Mk (vruntime e) (nice e) (weight e) (sum_exec_runtime e) (exec_start e)
    (prev_sum_exec_runtime e) cpu (policy e) (rt_priority e) (cpu_affinity e).

(** [1 << cpu] takes the shift modulo the width. *)
Definition can_run_on (e : t) (cpu : Z) : bool :=
  negb (Z.land (cpu_affinity e) (Z.shiftl 1 (cpu mod 64)) =? 0).

Definition set_affinity (e : t) (mask : Z) : t :=
  Mk (vruntime e) (nice e) (weight e) (sum_exec_runtime e) (exec_start e)
    (prev_sum_exec_runtime e) (last_cpu e) (policy e) (rt_priority e) mask.

Definition set_nice (e : t) (n : Z) : outcome t :=
  let n' := clamp n (-20) 19 in
  w ← nice_to_weight n';
  Ret (Mk (vruntime e) n' w (sum_exec_runtime e) (exec_start e)
    (prev_sum_exec_runtime e) (last_cpu e) (policy e) (rt_priority e) (cpu_affinity e)).

Definition calc_delta_vruntime (e : t) (delta_exec : Z) : outcome Z :=
  if weight e =? NICE_0_WEIGHT then Ret delta_exec
  else
    inv_weight ← nice_index NICE_TO_INV_WEIGHT (nice e);
    Ret (Z.shiftr (delta_exec ⊗ inv_weight) 22).

Definition set_vruntime (e : t) (v : Z) : t :=
  Mk v (nice e) (weight e) (sum_exec_runtime e) (exec_start e)
    (prev_sum_exec_runtime e) (last_cpu e) (policy e) (rt_priority e) (cpu_affinity e).

Definition update_runtime (e : t) (now : Z) : outcome t :=
  if exec_start e =? 0 then Ret e
  else
    let delta_exec := sat_sub now (exec_start e) in
    d ← calc_delta_vruntime e delta_exec;
    Ret (Mk (vruntime e ⊕ d) (nice e) (weight e) (sum_exec_runtime e ⊕ delta_exec) now
      (prev_sum_exec_runtime e) (last_cpu e) (policy e) (rt_priority e) (cpu_affinity e)).

(** The entity invariant: the cached weight is that of the nice value, which is in
    range. [default], [new_rt] and [set_nice] establish it, and [new] does on valid
    arguments. *)
Definition wf (e : t) : Prop :=
  -20 <= nice e <= 19 /\ nice_to_weight (nice e) = Ret (weight e).

(** ** The weight tables *)

Definition weight_of (n : Z) : Z := List.nth (Z.to_nat (n + 20)) NICE_TO_WEIGHT 0.
Definition inv_weight_of (n : Z) : Z := List.nth (Z.to_nat (n + 20)) NICE_TO_INV_WEIGHT 0.

(** Statements over all forty nice values are decided by running through them. *)
Lemma nice_cases (P : Z -> bool) :
  forallb (fun i => P (Z.of_nat i - 20)) (seq 0 40) = true ->
  forall n, -20 <= n <= 19 -> P n = true.
Proof.
  intros H n Hn. rewrite forallb_forall in H.
  specialize (H (Z.to_nat (n + 20))). replace n with (Z.of_nat (Z.to_nat (n + 20)) - 20) by lia.
  apply H. apply in_seq. lia.
Qed.

Lemma nice_index_small table n :
  length table = 40%nat -> -20 <= n <= 19 ->
  nice_index table n = Ret (List.nth (Z.to_nat (n + 20)) table 0).
Proof.
  intros Hl Hn. unfold nice_index. rewrite wrap_signed_small by lia.
  unfold as_unsigned. rewrite Z.mod_small by lia. apply index_ret.
  destruct (lookup_lt_is_Some_2 table (Z.to_nat (n + 20)) ltac:(lia)) as [x Hx].
  rewrite Hx. f_equal. symmetry. by apply nth_lookup_Some with (d := 0).
Qed.

Lemma nice_to_weight_small n : -20 <= n <= 19 -> nice_to_weight n = Ret (weight_of n).
Proof.
  intros Hn. unfold nice_to_weight. replace (clamp n (-20) 19) with n
    by (unfold clamp; case_Z; lia). by apply nice_index_small.
Qed.

Lemma wf_weight e : wf e -> weight e = weight_of (nice e).
Proof. intros [Hn Hw]. rewrite nice_to_weight_small in Hw by done. congruence. Qed.

(** Weights are positive 32-bit integers, the inverse weights are 2^32 divided by
    them up to less than one unit, and are at most 29 bits. *)
Lemma weight_table_ok n : -20 <= n <= 19 ->
  15 <= weight_of n <= 88761 /\ 48388 <= inv_weight_of n <= 286331153 /\
  Z.abs (inv_weight_of n * weight_of n - 2 ^ 32) <= weight_of n.
Proof.
  intros Hn.
  pose proof (nice_cases (fun n => (15 <=? weight_of n) && (weight_of n <=? 88761) &&
    (48388 <=? inv_weight_of n) && (inv_weight_of n <=? 286331153) &&
    (Z.abs (inv_weight_of n * weight_of n - 2 ^ 32) <=? weight_of n)) eq_refl n Hn) as H.
  cbv beta in H. rewrite !andb_true_iff, !Z.leb_le in H. lia.
Qed.

(** Priorities are strictly ordered in both tables. *)
Lemma weight_table_monotone n1 n2 : -20 <= n1 -> n1 <= n2 <= 19 ->
  weight_of n2 <= weight_of n1 /\ inv_weight_of n1 <= inv_weight_of n2.
Proof.
  intros H1 H2.
  pose proof (nice_cases (fun a => forallb (fun j => let b := Z.of_nat j - 20 in
     (b <? a) || ((weight_of b <=? weight_of a) && (inv_weight_of a <=? inv_weight_of b))) (seq 0 40))
     eq_refl n1 ltac:(lia)) as H.
  rewrite forallb_forall in H. specialize (H (Z.to_nat (n2 + 20))). cbv beta in H.
  replace (Z.of_nat (Z.to_nat (n2 + 20)) - 20) with n2 in H by lia.
  specialize (H ltac:(apply in_seq; lia)). cbv zeta in H.
  rewrite orb_true_iff, andb_true_iff, !Z.leb_le, Z.ltb_lt in H. lia.
Qed.

(** One formula for both branches: the nice-0 inverse weight is 2^22. *)
Lemma calc_delta_formula e d : wf e -> in_range 64 d ->
  calc_delta_vruntime e d = Ret (if weight e =? NICE_0_WEIGHT then d
    else Z.shiftr (d ⊗ inv_weight_of (nice e)) 22).
Proof.
  intros [Hn _] Hd. unfold calc_delta_vruntime. case_Z; [done|].
  by rewrite nice_index_small.
Qed.

Lemma weight_1024_nice n : -20 <= n <= 19 -> weight_of n = NICE_0_WEIGHT -> n = 0.
Proof.
  intros Hn Hw.
  pose proof (nice_cases (fun n => negb (weight_of n =? NICE_0_WEIGHT) || (n =? 0)) eq_refl n Hn) as H.
  cbv beta in H. rewrite Hw, Z.eqb_refl in H. by apply Z.eqb_eq.
Qed.

Lemma calc_delta_exact e d : wf e -> 0 <= d < 2 ^ 35 ->
  calc_delta_vruntime e d = Ret (d * inv_weight_of (nice e) / 2 ^ 22).
Proof.
  intros Hwf Hd. rewrite calc_delta_formula by (done || (unfold in_range; lia)).
  pose proof (wf_weight e Hwf) as Hw. destruct Hwf as [Hn _].
  destruct (weight_table_ok (nice e) Hn) as (_ & Hi & _). f_equal.
  destruct (Z.eqb_spec (weight e) NICE_0_WEIGHT) as [E|E].
  - rewrite Hw in E. apply weight_1024_nice in E as ->; [|done].
    change (inv_weight_of 0) with (2 ^ 22). by rewrite Z.div_mul.
  - rewrite mul64_small by (unfold in_range; nia). by rewrite Z.shiftr_div_pow2.
Qed.

End SchedEntity.

(** Virtual time is fair. Over the same run time (below 2^35 ns) a task with a
    lower nice value never accumulates more vruntime than one with a higher nice
    value, and what a task accumulates is its run time scaled by 1024 / weight, up
    to rounding: the error, measured in weight units, is below one weight plus
    run time * weight / 2^22. *)
Theorem vruntime_fair e1 e2 d :
  SchedEntity.wf e1 -> SchedEntity.wf e2 -> SchedEntity.nice e1 <= SchedEntity.nice e2 ->
  0 <= d < 2 ^ 35 ->
  exists v1 v2, SchedEntity.calc_delta_vruntime e1 d = Ret v1 /\
    SchedEntity.calc_delta_vruntime e2 d = Ret v2 /\
    v1 <= v2 /\
    2 ^ 22 * Z.abs (v1 * SchedEntity.weight e1 - d * NICE_0_WEIGHT)
      <= (2 ^ 22 + d) * SchedEntity.weight e1.
Proof.
  intros H1 H2 Hle Hd. do 2 eexists. split; [by apply SchedEntity.calc_delta_exact|].
  split; [by apply SchedEntity.calc_delta_exact|].
  rewrite (SchedEntity.wf_weight e1 H1). destruct H1 as [Hn1 _], H2 as [Hn2 _].
  destruct (SchedEntity.weight_table_monotone _ _ (proj1 Hn1) (conj Hle (proj2 Hn2))) as [_ Hinv].
  destruct (SchedEntity.weight_table_ok _ Hn1) as (Hw & Hi & He). split.
  - apply Z.div_le_mono; [lia|]. apply Z.mul_le_mono_nonneg_l; lia.
  - set (i := SchedEntity.inv_weight_of _) in *. set (w := SchedEntity.weight_of _) in *.
    pose proof (Z.div_mod (d * i) (2 ^ 22) ltac:(lia)) as Hdm.
    pose proof (Z.mod_pos_bound (d * i) (2 ^ 22) ltac:(lia)) as Hm.
    set (q := d * i / 2 ^ 22) in *. set (r := (d * i) mod 2 ^ 22) in *.
    assert (2 ^ 22 * (q * w - d * NICE_0_WEIGHT) = d * (i * w - 2 ^ 32) - r * w) as E.
    { unfold NICE_0_WEIGHT. replace (2 ^ 22 * (q * w - d * 1024)) with (2 ^ 22 * q * w - d * 2 ^ 32) by lia.
      replace (2 ^ 22 * q) with (d * i - r) by lia. ring. }
    replace (2 ^ 22 * Z.abs (q * w - d * NICE_0_WEIGHT))
      with (Z.abs (2 ^ 22 * (q * w - d * NICE_0_WEIGHT))) by (rewrite Z.abs_mul; done).
    rewrite E. set (err := i * w - 2 ^ 32) in *.
    assert (Z.abs (d * err) <= d * w) by (rewrite Z.abs_mul, (Z.abs_eq d) by lia; apply Z.mul_le_mono_nonneg_l; lia).
    assert (0 <= r * w <= 2 ^ 22 * w) by nia. lia.
Qed.

(** For a nice -5 and a nice 10 task over 4 ms. *)
Lemma vruntime_fair_witness :
  exists e1 e2, SchedEntity.set_nice SchedEntity.default (-5) = Ret e1 /\
    SchedEntity.set_nice SchedEntity.default 10 = Ret e2 /\
  exists v1 v2, SchedEntity.calc_delta_vruntime e1 4000000 = Ret v1 /\
    SchedEntity.calc_delta_vruntime e2 4000000 = Ret v2 /\
    v1 <= v2 /\
    2 ^ 22 * Z.abs (v1 * SchedEntity.weight e1 - 4000000 * NICE_0_WEIGHT)
      <= (2 ^ 22 + 4000000) * SchedEntity.weight e1.
Proof.
  eexists _, _. split; [reflexivity|]. split; [reflexivity|].
  apply vruntime_fair; [split; [cbn; lia|reflexivity]..|cbn; lia|lia].
Defined.

(** ** Task control blocks

    [h] is the identity of a task, what [Arc::ptr_eq] compares. *)
Inductive TaskStatus : Type := Ready | Running | Zombie | Interruptible.

#[global] Instance TaskStatus_eq_dec : EqDecision TaskStatus.
Proof. solve_decision. Defined.

Record tcb : Type := Tcb {
  pid : Z;
  tgid : Z;
  on_cpu : bool;
  running_on_cpu : Z;
  task_status : TaskStatus;
  task_cx_ra : Z;
  sched_entity : SchedEntity.t;
}.
Definition TASK_NOT_RUNNING : Z := usize_max.

#[global] Instance tcb_inhabited : Inhabited tcb :=
  populate (Tcb 0 0 false TASK_NOT_RUNNING Ready 0 SchedEntity.default).

Abbreviation tstore := (gmap Z tcb).

Definition set_entity (t : tcb) (e : SchedEntity.t) : tcb :=
  Tcb (pid t) (tgid t) (on_cpu t) (running_on_cpu t) (task_status t) (task_cx_ra t) e.
Definition set_status (t : tcb) (s : TaskStatus) : tcb :=
  Tcb (pid t) (tgid t) (on_cpu t) (running_on_cpu t) s (task_cx_ra t) (sched_entity t).

(** ** The CFS run queue *)
Module CfsRunQueue.

(** [RunQueueKey] with its order: vruntime, then tid. *)
Abbreviation key := (Z * Z)%type.

Record t : Type := Mk {
  tasks : list (key * Z);
  min_vruntime : Z;
  total_weight : Z;
  nr_running : Z;
}.

Definition new : t := Mk [] 0 0 0.
Definition is_empty (rq : t) : bool := nr_running rq =? 0.
Definition len (rq : t) : Z := nr_running rq.

Definition calc_time_slice (rq : t) (weight : Z) : Z :=
  if nr_running rq <=? 1 then SCHED_LATENCY_NS
  else
    let slice := (SCHED_LATENCY_NS ⊗ weight) / Z.max (total_weight rq) 1 in
    Z.max slice MIN_GRANULARITY_NS.

Definition place_entity (rq : t) (e : SchedEntity.t) (initial : bool) : SchedEntity.t :=
  let v := if initial then sat_add64 (min_vruntime rq) (SCHED_LATENCY_NS / 2) else min_vruntime rq in
  SchedEntity.set_vruntime e (Z.max (SchedEntity.vruntime e) v).

(** [enqueue(task, &mut entity, is_new)]; [tid] is [task.pid.0]. *)
Definition enqueue (rq : t) (task tid : Z) (e : SchedEntity.t) (is_new : bool) : t * SchedEntity.t :=
  let e' := place_entity rq e is_new in
  (Mk (bt_insert (SchedEntity.vruntime e', tid) task (tasks rq)) (min_vruntime rq)
     (total_weight rq ⊕ SchedEntity.weight e') (nr_running rq ⊕ 1), e').

Definition dequeue (rq : t) (tid : Z) (e : SchedEntity.t) : t :=
  match bt_remove (SchedEntity.vruntime e, tid) (tasks rq) with
  | (Some _, r) => Mk r (min_vruntime rq) (sat_sub (total_weight rq) (SchedEntity.weight e))
                     (sat_sub (nr_running rq) 1)
  | (None, _) => rq
  end.

Definition pick_next (rq : t) : option Z * t :=
  match tasks rq with
  | [] => (None, rq)
  | (k, task) :: r =>
      (Some task, Mk r (Z.max (min_vruntime rq) (fst k))
         (sat_sub (total_weight rq) NICE_0_WEIGHT) (sat_sub (nr_running rq) 1))
  end.

(** The filter of [steal_for_cpu]: not switching, not running, valid context, allowed. *)
Definition stealable (st : tstore) (target_cpu task : Z) : bool :=
  let t := st !!! task in
  negb (on_cpu t) && (running_on_cpu t =? TASK_NOT_RUNNING) &&
  negb ((task_cx_ra t =? 0) || (task_cx_ra t <? 0x80000000)) &&
  SchedEntity.can_run_on (sched_entity t) target_cpu.

(** Removing an entry and its weight, as the last three operations do. *)
Definition take_key (st : tstore) (rq : t) (k : key) : option Z * t :=
  match bt_remove k (tasks rq) with
  | (Some task, r) =>
      (Some task, Mk r (min_vruntime rq)
         (sat_sub (total_weight rq) (SchedEntity.weight (sched_entity (st !!! task))))
         (sat_sub (nr_running rq) 1))
  | (None, _) => (None, rq)
  end.

Definition steal_for_cpu (st : tstore) (rq : t) (target_cpu : Z) : option Z * t :=
  match find_first (fun e => stealable st target_cpu (snd e)) (reverse (tasks rq)) with
  | Some (k, _) => take_key st rq k
  | None => (None, rq)
  end.

Definition peek_next (rq : t) : option Z := snd <$> head (tasks rq).

Definition should_preempt (rq : t) (curr wake : SchedEntity.t) : bool :=
  WAKEUP_GRANULARITY_NS <? sat_sub (SchedEntity.vruntime curr) (SchedEntity.vruntime wake).

Definition update_min_vruntime (rq : t) : t :=
  match tasks rq with
  | [] => rq
  | (k, _) :: _ => Mk (tasks rq) (Z.max (min_vruntime rq) (fst k)) (total_weight rq) (nr_running rq)
  end.

Definition iter (rq : t) : list Z := map snd (tasks rq).
Definition find_by_pid (st : tstore) (rq : t) (p : Z) : option Z :=
  find_first (fun h => pid (st !!! h) =? p) (iter rq).
Definition find_by_tgid (st : tstore) (rq : t) (g : Z) : option Z :=
  find_first (fun h => tgid (st !!! h) =? g) (iter rq).

(** [for key in keys { if let Some(task) = remove(&key) { ...; removed.push(task) } }] *)
Fixpoint take_keys (st : tstore) (rq : t) (ks : list key) (removed : list Z) : list Z * t :=
  match ks with
  | [] => (removed, rq)
  | k :: r =>
      match take_key st rq k with
      | (Some task, rq') => take_keys st rq' r (removed ++ [task])
      | (None, rq') => take_keys st rq' r removed
      end
  end.

Definition keys_where (p : Z -> bool) (rq : t) : list key :=
  map fst (List.filter (fun e => p (snd e)) (tasks rq)).

Definition remove_by_tgid (st : tstore) (rq : t) (g : Z) : list Z * t :=
  take_keys st rq (keys_where (fun h => tgid (st !!! h) =? g) rq) [].

Definition retain (st : tstore) (rq : t) (f : Z -> bool) : t :=
  snd (take_keys st rq (keys_where (fun h => negb (f h)) rq) []).

(** ** The queue invariant *)
Record inv (rq : t) : Prop := {
  inv_sorted : bt_sorted (tasks rq);
  inv_min : Forall (fun e => min_vruntime rq <= fst (fst e) <= usize_max) (tasks rq);
  inv_u64 : 0 <= min_vruntime rq <= usize_max;
  inv_count : nr_running rq = Z.of_nat (length (tasks rq));
}.

Definition tids (rq : t) : list Z := map (fun e => snd (fst e)) (tasks rq).

(** Every scheduling operation, and when a caller may issue it: a task is enqueued
    only while it is not queued (its pid is unique), and the queue stays below the
    range of its counter. *)
Inductive op : Type :=
| OpEnqueue (task tid : Z) (e : SchedEntity.t) (is_new : bool)
| OpDequeue (tid : Z) (e : SchedEntity.t)
| OpPick
| OpSteal (st : tstore) (cpu : Z)
| OpRemoveTgid (st : tstore) (g : Z)
| OpRetain (st : tstore) (f : Z -> bool)
| OpUpdateMin.

Definition apply (rq : t) (o : op) : t :=
  match o with
  | OpEnqueue task tid e is_new => fst (enqueue rq task tid e is_new)
  | OpDequeue tid e => dequeue rq tid e
  | OpPick => snd (pick_next rq)
  | OpSteal st cpu => snd (steal_for_cpu st rq cpu)
  | OpRemoveTgid st g => snd (remove_by_tgid st rq g)
  | OpRetain st f => retain st rq f
  | OpUpdateMin => update_min_vruntime rq
  end.

Definition op_ok (rq : t) (o : op) : Prop :=
  match o with
  | OpEnqueue _ tid e _ => tid ∉ tids rq /\ Z.of_nat (length (tasks rq)) < usize_max /\
      0 <= SchedEntity.vruntime e <= usize_max
  | _ => True
  end.

Inductive reachable : t -> Prop :=
| reach_new : reachable new
| reach_step rq o : reachable rq -> op_ok rq o -> reachable (apply rq o).

Lemma cfs_inv_new : inv new.
Proof. constructor; cbn; [constructor|constructor|by unfold usize_max|done]. Qed.

Lemma fresh_key rq tid v : tid ∉ tids rq -> (v, tid) ∉ bt_keys (tasks rq).
Proof.
  intros Ht Hin. apply Ht. apply list_elem_of_fmap in Hin as ([k h] & Hk & Hin).
  cbn in Hk. subst k. unfold tids. apply list_elem_of_fmap. by exists ((v, tid), h).
Qed.

Lemma place_entity_range rq e b :
  0 <= min_vruntime rq <= usize_max -> 0 <= SchedEntity.vruntime e <= usize_max ->
  min_vruntime rq <= SchedEntity.vruntime (place_entity rq e b) <= usize_max.
Proof.
  unfold place_entity, SchedEntity.set_vruntime, sat_add64.
  cbn [SchedEntity.vruntime]. change (SCHED_LATENCY_NS / 2) with 3000000. destruct b; lia.
Qed.

Lemma enqueue_tasks rq task tid e b : tid ∉ tids rq ->
  tasks (fst (enqueue rq task tid e b)) ≡ₚ
  ((SchedEntity.vruntime (place_entity rq e b), tid), task) :: tasks rq.
Proof. intros H. cbn. apply bt_insert_fresh. by apply fresh_key. Qed.

Lemma inv_enqueue rq task tid e b :
  inv rq -> op_ok rq (OpEnqueue task tid e b) -> inv (fst (enqueue rq task tid e b)).
Proof.
  intros [H1 H2 Hmin H3] (Hf & Hl & Hv). pose proof (enqueue_tasks rq task tid e b Hf) as Hp. constructor.
  - cbn. by apply bt_insert_sorted.
  - rewrite Hp. cbn [enqueue fst min_vruntime]. constructor; [|done].
    cbn [fst]. by apply place_entity_range.
  - done.
  - rewrite (Permutation_length Hp). cbn [enqueue fst nr_running length].
    rewrite H3, add64_small; unfold in_range, usize_max in *; lia.
Qed.

Lemma inv_take rq k h r tw : inv rq -> bt_remove k (tasks rq) = (Some h, r) ->
  inv (Mk r (min_vruntime rq) tw (sat_sub (nr_running rq) 1)) /\ tasks rq ≡ₚ (k, h) :: r.
Proof.
  intros [H1 H2 Hmin H3] Hr. pose proof (bt_remove_lookup k (tasks rq) H1) as Hl. rewrite Hr in Hl.
  destruct Hl as (Hin & Hp & Hs). split; [|done]. constructor; cbn.
  - done.
  - rewrite Hp in H2. by inversion H2.
  - done.
  - rewrite H3, (Permutation_length Hp). unfold sat_sub. cbn. lia.
Qed.

Lemma inv_dequeue rq tid e : inv rq -> inv (dequeue rq tid e).
Proof.
  intros Hi. unfold dequeue. destruct (bt_remove _ _) as [[h|] r] eqn:E; [|done].
  by eapply inv_take in E as [? _].
Qed.

Lemma take_key_spec st rq k : inv rq ->
  match take_key st rq k with
  | (Some h, rq') => inv rq' /\ tasks rq ≡ₚ (k, h) :: tasks rq' /\ min_vruntime rq' = min_vruntime rq
  | (None, rq') => rq' = rq /\ k ∉ bt_keys (tasks rq)
  end.
Proof.
  intros Hi. unfold take_key. destruct (bt_remove k (tasks rq)) as [[h|] r] eqn:E.
  - eapply inv_take in E as [? ?]; done.
  - pose proof (bt_remove_lookup k (tasks rq) (inv_sorted _ Hi)) as Hl. rewrite E in Hl. naive_solver.
Qed.

(** Above a key in the order means at or above it in vruntime. *)
Lemma keys_above (k : key) (m : Z) (l : list (key * Z)) :
  Forall (fun e => klt k (fst e)) l -> Forall (fun e => m <= fst (fst e) <= usize_max) l ->
  Forall (fun e => fst k <= fst (fst e) <= usize_max) l.
Proof.
  rewrite !Forall_forall. intros Hk Hm [[v i] x] Hin. specialize (Hk _ Hin). specialize (Hm _ Hin).
  unfold klt in Hk. cbn in *. destruct (Z.compare_spec (fst k) v); cbn in *; try done; lia.
Qed.

Lemma inv_pick rq h rq' : inv rq -> pick_next rq = (Some h, rq') ->
  exists k, tasks rq = (k, h) :: tasks rq' /\ inv rq' /\ min_vruntime rq' = fst k /\
    min_vruntime rq <= fst k /\ Forall (fun e => klt k (fst e)) (tasks rq').
Proof.
  intros [H1 H2 Hmin H3]. unfold pick_next. destruct (tasks rq) as [|[k h'] r] eqn:E; [done|].
  intros [= -> <-]. exists k. cbn. apply bt_sorted_cons in H1 as [Hf Hs].
  inversion H2 as [|? ? Hk Hr]; subst. cbn in Hk. rewrite Z.max_r by lia.
  split_and!; try done; [|lia]. constructor; cbn.
  - done.
  - by eapply keys_above.
  - lia.
  - rewrite H3. unfold sat_sub. cbn. lia.
Qed.

Lemma take_keys_spec st ks : forall rq acc,
  inv rq ->
  let '(removed, rq') := take_keys st rq ks acc in
  inv rq' /\ min_vruntime rq' = min_vruntime rq /\
  exists new, removed = acc ++ new /\ iter rq ≡ₚ new ++ iter rq'.
Proof.
  induction ks as [|k ks IH]; intros rq acc Hi; cbn.
  { split_and!; try done. exists []. by rewrite app_nil_r. }
  pose proof (take_key_spec st rq k Hi) as Hk. destruct (take_key st rq k) as [[h|] rq1].
  - destruct Hk as (Hi1 & Hp & Hm). specialize (IH rq1 (acc ++ [h]) Hi1).
    destruct (take_keys st rq1 ks (acc ++ [h])) as [removed rq'].
    destruct IH as (Hi' & Hm' & new & -> & Hp'). split_and!; [done|congruence|].
    exists (h :: new). rewrite <- app_assoc. split; [done|].
    unfold iter in *. rewrite Hp. cbn. by rewrite Hp'.
  - destruct Hk as [-> _]. by apply IH.
Qed.

Lemma inv_apply rq o :
  inv rq -> op_ok rq o -> inv (apply rq o).
Proof.
  intros Hi Hok. destruct o as [task tid e b|tid e| |st cpu|st g|st f|]; cbn [apply].
  - by apply inv_enqueue.
  - by apply inv_dequeue.
  - destruct (pick_next rq) as [[h|] rq'] eqn:E; cbn.
    + by destruct (inv_pick rq h rq' Hi E) as (? & ? & ? & ?).
    + unfold pick_next in E. destruct (tasks rq) as [|[? ?] ?]; congruence.
  - unfold steal_for_cpu. destruct (find_first _ _) as [[k h]|]; [|done].
    pose proof (take_key_spec st rq k Hi) as Hk. destruct (take_key st rq k) as [[h'|] rq1]; cbn.
    + apply Hk.
    + by destruct Hk as [-> _].
  - unfold remove_by_tgid. pose proof (take_keys_spec st (keys_where (fun h => tgid (st !!! h) =? g) rq) rq [] Hi) as H.
    destruct (take_keys st rq _ []). apply H.
  - unfold retain. pose proof (take_keys_spec st (keys_where (fun h => negb (f h)) rq) rq [] Hi) as H.
    destruct (take_keys st rq _ []). apply H.
  - unfold update_min_vruntime. destruct Hi as [H1 H2 Hmin H3].
    destruct (tasks rq) as [|[k h] r] eqn:E; [by constructor; rewrite ?E|].
    constructor; cbn; rewrite ?E in *; try done.
    + apply bt_sorted_cons in H1 as [Hf _]. inversion H2 as [|? ? Hk Hr]; subst. cbn in Hk.
      rewrite Z.max_r by lia. constructor; [cbn; lia|]. by eapply keys_above.
    + inversion H2 as [|? ? Hk Hr]; subst. cbn in *. lia.
Qed.

Lemma cfs_reachable_inv rq : reachable rq -> inv rq.
Proof. induction 1; [apply cfs_inv_new|by apply inv_apply]. Qed.

(** C34: in every state the CFS queue can reach by its operations (enqueue, dequeue,
    pick, steal, thread-group removal, retain, min update), as long as no task is
    enqueued twice, its count is the number of queued tasks and entries are strictly
    ordered; [pick_next] answers [None] exactly when the count is zero, and otherwise
    removes the task with the least (vruntime, tid), whose vruntime becomes
    [min_vruntime]. *)
Theorem cfs_pick_least rq : reachable rq ->
  bt_sorted (tasks rq) /\ len rq = Z.of_nat (length (tasks rq)) /\
  match pick_next rq with
  | (None, rq') => rq' = rq /\ is_empty rq = true
  | (Some h, rq') => is_empty rq = false /\
      exists k, tasks rq = (k, h) :: tasks rq' /\ min_vruntime rq' = fst k /\
        (forall k' h', (k', h') ∈ tasks rq' -> klt k k') /\ len rq' = len rq - 1
  end.
Proof.
  intros Hr%cfs_reachable_inv. pose proof Hr as [H1 H2 H3 H4]. split; [done|]. split; [done|].
  destruct (pick_next rq) as [[h|] rq'] eqn:E.
  - destruct (inv_pick rq h rq' Hr E) as (k & Ht & Hi' & Hm & _ & Hf).
    unfold is_empty, len. rewrite (inv_count rq Hr), (inv_count rq' Hi'), Ht. cbn [length]. split.
    + apply Z.eqb_neq. lia.
    + exists k. rewrite Forall_forall in Hf. split_and!; try done; [|lia].
      intros k' h' Hin. by apply (Hf (k', h')).
  - unfold pick_next in E. destruct (tasks rq) as [|[k h] r] eqn:Et; [|done].
    injection E as <-. split; [done|]. unfold is_empty. by rewrite H4.
Qed.

(** In a queue of three tasks. *)
Lemma cfs_pick_least_witness :
  let e v := SchedEntity.set_vruntime SchedEntity.default v in
  let rq := apply (apply (apply new (OpEnqueue 101 1 (e 50) false)) (OpEnqueue 102 2 (e 20) false))
                  (OpEnqueue 103 3 (e 80) false) in
  reachable rq /\
  bt_sorted (tasks rq) /\ len rq = Z.of_nat (length (tasks rq)) /\
  match pick_next rq with
  | (None, rq') => rq' = rq /\ is_empty rq = true
  | (Some h, rq') => is_empty rq = false /\
      exists k, tasks rq = (k, h) :: tasks rq' /\ min_vruntime rq' = fst k /\
        (forall k' h', (k', h') ∈ tasks rq' -> klt k k') /\ len rq' = len rq - 1
  end.
Proof.
  intros e rq. assert (reachable rq) as Hr.
  { repeat apply reach_step; [apply reach_new|..];
      (split; [apply (bool_decide_eq_true_1 _); reflexivity|split; [vm_compute; reflexivity|split; vm_compute; discriminate]]). }
  split; [exact Hr|]. exact (cfs_pick_least rq Hr).
Defined.

(** ** Removal of a set of tasks *)

Lemma bt_remove_filter (k : key) (l : list (key * Z)) : bt_sorted l ->
  snd (bt_remove k l) = List.filter (fun e => negb (bool_decide (fst e = k))) l.
Proof.
  induction l as [|[k1 v1] r IH]; intros Hs; [done|]. apply bt_sorted_cons in Hs as [Hf Hs].
  cbn [bt_remove List.filter fst]. destruct (kcmp k k1) eqn:E.
  - apply kcmp_eq in E as <-. rewrite bool_decide_eq_true_2 by done. cbn. symmetry.
    apply List.forallb_filter_id, List.forallb_forall. intros [k' v'] Hin. cbn.
    rewrite bool_decide_eq_false_2; [done|]. intros ->. rewrite Forall_forall in Hf.
    apply list_elem_of_In in Hin. by apply Hf, klt_irrefl in Hin.
  - rewrite bool_decide_eq_false_2 by (intros ->; by rewrite kcmp_refl in E).
    specialize (IH Hs). destruct (bt_remove k r). cbn in *. by rewrite IH.
  - rewrite bool_decide_eq_false_2 by (intros ->; by rewrite kcmp_refl in E).
    specialize (IH Hs). destruct (bt_remove k r). cbn in *. by rewrite IH.
Qed.

Lemma take_keys_filter st ks : forall rq acc, inv rq ->
  tasks (snd (take_keys st rq ks acc)) =
  List.filter (fun e => negb (bool_decide (fst e ∈ ks))) (tasks rq).
Proof.
  induction ks as [|k ks IH]; intros rq acc Hi; cbn [take_keys].
  { cbn. symmetry. apply List.forallb_filter_id, List.forallb_forall. intros e _.
    rewrite bool_decide_eq_false_2; [done|]. apply not_elem_of_nil. }
  assert (tasks (snd (take_key st rq k)) = List.filter (fun e => negb (bool_decide (fst e = k))) (tasks rq)) as Hk.
  { rewrite <- (bt_remove_filter k) by apply Hi. unfold take_key.
    pose proof (bt_remove_lookup k (tasks rq) (inv_sorted _ Hi)) as Hl.
    destruct (bt_remove k (tasks rq)) as [[h|] r]; cbn; [done|]. by destruct Hl as [-> _]. }
  assert (inv (snd (take_key st rq k))) as Hi'.
  { pose proof (take_key_spec st rq k Hi) as Hs. destruct (take_key st rq k) as [[h|] rq1]; cbn.
    - apply Hs.
    - by destruct Hs as [-> _]. }
  transitivity (List.filter (fun e => negb (bool_decide (fst e ∈ ks))) (tasks (snd (take_key st rq k)))).
  - destruct (take_key st rq k) as [[h|] rq1]; by apply IH.
  - rewrite Hk. clear. induction (tasks rq) as [|e l IH]; [done|]. cbn.
    rewrite (bool_decide_ext (fst e ∈ k :: ks) (fst e = k \/ fst e ∈ ks)) by apply elem_of_cons.
    destruct (decide (fst e = k)) as [E|E].
    + rewrite (bool_decide_eq_true_2 (fst e = k)) by done.
      rewrite bool_decide_eq_true_2 by (by left). cbn. done.
    + rewrite (bool_decide_eq_false_2 (fst e = k)) by done. cbn.
      rewrite (bool_decide_ext (fst e = k \/ fst e ∈ ks) (fst e ∈ ks)) by tauto. by rewrite IH.
Qed.

(** Keys are unique, so a key was selected iff its own task satisfies the predicate. *)
Lemma keys_where_elem p rq e : inv rq -> e ∈ tasks rq -> fst e ∈ keys_where p rq <-> p (snd e) = true.
Proof.
  intros Hi He. unfold keys_where. rewrite list_elem_of_fmap. split.
  - intros (e' & Hk & Hin). apply list_elem_of_In, filter_In in Hin as [Hin Hp].
    apply list_elem_of_In in Hin. enough (e' = e) as -> by done.
    destruct e as [k h], e' as [k' h']. cbn in Hk. subst k'. f_equal.
    pose proof (bt_remove_Some k h _ (inv_sorted _ Hi) He) as (r & Hr & _).
    pose proof (bt_remove_Some k h' _ (inv_sorted _ Hi) Hin) as (r' & Hr' & _). congruence.
  - intros Hp. exists e. split; [done|]. apply list_elem_of_In, filter_In. by rewrite <- list_elem_of_In.
Qed.

Lemma take_where_filter st p rq acc : inv rq ->
  tasks (snd (take_keys st rq (keys_where p rq) acc)) =
  List.filter (fun e => negb (p (snd e))) (tasks rq).
Proof.
  intros Hi. rewrite take_keys_filter by done. apply filter_ext_elem. intros e He. f_equal.
  apply eq_bool_prop_intro. rewrite bool_decide_spec, keys_where_elem by done. by rewrite Is_true_true.
Qed.

Lemma map_filter_snd (p : Z -> bool) (l : list (key * Z)) :
  map snd (List.filter (fun e => p (snd e)) l) = List.filter p (map snd l).
Proof. induction l as [|e r IH]; [done|]. cbn. destruct (p (snd e)); cbn; by rewrite IH. Qed.

(** [remove_by_tgid] removes every queued task of the thread group and no other,
    keeps the order of the rest, and returns the removed tasks; the queue stays
    well formed. *)
Lemma remove_by_tgid_ok st rq g : inv rq ->
  let '(removed, rq') := remove_by_tgid st rq g in
  inv rq' /\
  removed ≡ₚ List.filter (fun h => tgid (st !!! h) =? g) (iter rq) /\
  iter rq' = List.filter (fun h => negb (tgid (st !!! h) =? g)) (iter rq) /\
  len rq' = Z.of_nat (length (iter rq')) /\ min_vruntime rq' = min_vruntime rq.
Proof.
  intros Hi. unfold remove_by_tgid.
  pose proof (take_where_filter st (fun h => tgid (st !!! h) =? g) rq [] Hi) as Hf.
  pose proof (take_keys_spec st (keys_where (fun h => tgid (st !!! h) =? g) rq) rq [] Hi) as Hs.
  destruct (take_keys st rq _ []) as [removed rq']. cbn in Hf. destruct Hs as (Hi' & Hm & nw & -> & Hp).
  assert (iter rq' = List.filter (fun h => negb (tgid (st !!! h) =? g)) (iter rq)) as Hit.
  { unfold iter. rewrite Hf. apply (map_filter_snd (fun h => negb (tgid (st !!! h) =? g))). }
  split_and!; try done.
  - cbn. rewrite Hit in Hp. apply (Permutation_app_inv_r (List.filter (fun h => negb (tgid (st !!! h) =? g)) (iter rq))).
    rewrite <- Hp. apply filter_partition_perm.
  - unfold len, iter. by rewrite (inv_count _ Hi'), length_map.
Qed.

(** ** Stealing *)

Lemma sorted_app_lt (l1 : list (key * Z)) e l2 e' :
  bt_sorted (l1 ++ e :: l2) -> e' ∈ l1 -> klt (fst e') (fst e).
Proof.
  induction l1 as [|[k h] l IH]; intros Hs Hin; [by apply not_elem_of_nil in Hin|].
  apply bt_sorted_cons in Hs as [Hf Hs]. apply elem_of_cons in Hin as [->|Hin]; [|by apply IH].
  cbn. rewrite Forall_forall in Hf. apply Hf. apply elem_of_app. right. left.
Qed.

(** Work stealing takes a task only if it is not being switched, runs nowhere,
    has a valid context and may run on the target CPU, and of those the one with the
    greatest key (least urgent); it takes nothing only if no queued task qualifies. *)
Theorem steal_least_urgent st rq cpu : reachable rq ->
  match steal_for_cpu st rq cpu with
  | (None, rq') => rq' = rq /\ forall h, h ∈ iter rq -> stealable st cpu h = false
  | (Some h, rq') => stealable st cpu h = true /\ iter rq ≡ₚ h :: iter rq' /\
      exists k, (k, h) ∈ tasks rq /\
        forall k' h', (k', h') ∈ tasks rq -> stealable st cpu h' = true -> k' = k \/ klt k' k
  end.
Proof.
  intros Hi%cfs_reachable_inv. unfold steal_for_cpu.
  destruct (find_first _ _) as [[k h]|] eqn:E.
  - apply find_first_reverse in E as (l1 & l2 & Hl & Hp & Hf). cbn in Hp.
    assert ((k, h) ∈ tasks rq) as Hin by (rewrite Hl; apply elem_of_app; right; left).
    unfold take_key. destruct (bt_remove_Some k h _ (inv_sorted _ Hi) Hin) as (r & Hr & Hperm & _).
    rewrite Hr. split; [done|]. split; [unfold iter; by rewrite Hperm|].
    exists k. split; [done|]. intros k' h' Hin' Hp'. rewrite Hl in Hin'.
    apply elem_of_app in Hin' as [Hin'|Hin'].
    + right. pose proof (inv_sorted _ Hi) as Hs. rewrite Hl in Hs.
      apply (sorted_app_lt l1 (k, h) l2 (k', h') Hs Hin').
    + apply elem_of_cons in Hin' as [[= -> ->]|Hin']; [by left|]. exfalso.
      rewrite Forall_forall in Hf. specialize (Hf _ Hin'). cbn in Hf. congruence.
  - split; [done|]. intros h Hh. unfold iter in Hh. apply list_elem_of_fmap in Hh as ([k h'] & -> & Hin).
    rewrite find_first_None in E. apply (E (k, h')). by rewrite elem_of_reverse.
Qed.

(** With one stealable task behind one that is still being switched out. *)
Lemma steal_least_urgent_witness :
  let e v := SchedEntity.set_vruntime SchedEntity.default v in
  let rq := apply (apply new (OpEnqueue 101 1 (e 50) false)) (OpEnqueue 102 2 (e 80) false) in
  let t p b := Tcb p p b TASK_NOT_RUNNING Ready 0x80200000 SchedEntity.default in
  let st : tstore := {[101 := t 1 false; 102 := t 2 true]} in
  reachable rq /\
  match steal_for_cpu st rq 1 with
  | (None, rq') => rq' = rq /\ forall h, h ∈ iter rq -> stealable st 1 h = false
  | (Some h, rq') => stealable st 1 h = true /\ iter rq ≡ₚ h :: iter rq' /\
      exists k, (k, h) ∈ tasks rq /\
        forall k' h', (k', h') ∈ tasks rq -> stealable st 1 h' = true -> k' = k \/ klt k' k
  end.
Proof.
  intros e rq t st. assert (reachable rq) as Hr.
  { repeat apply reach_step; [apply reach_new|..];
      (split; [apply (bool_decide_eq_true_1 _); reflexivity|split; [vm_compute; reflexivity|split; vm_compute; discriminate]]). }
  split; [exact Hr|]. exact (steal_least_urgent st rq 1 Hr).
Defined.

(** ** The weight total drifts

    [enqueue] adds a task's weight and [pick_next] subtracts that of a nice-0 task, so
    a task that is queued and picked [n] times leaves [n * (weight - 1024)] behind on
    an empty queue. *)
Fixpoint cycle (n : nat) (rq : t) (h tid : Z) (e : SchedEntity.t) : t :=
  match n with
  | O => rq
  | S n' => cycle n' (snd (pick_next (fst (enqueue rq h tid e false)))) h tid e
  end.

Lemma cycle_weight n h tid e : NICE_0_WEIGHT <= SchedEntity.weight e -> forall rq,
  tasks rq = [] -> 0 <= total_weight rq ->
  total_weight rq + Z.of_nat n * SchedEntity.weight e < 2 ^ 64 ->
  tasks (cycle n rq h tid e) = [] /\
  total_weight (cycle n rq h tid e) = total_weight rq + Z.of_nat n * (SchedEntity.weight e - NICE_0_WEIGHT).
Proof.
  unfold NICE_0_WEIGHT. intros Hw. induction n as [|n IH]; intros rq Ht H0 Hb; [cbn; split; [done|lia]|].
  cbn [cycle]. set (rq1 := snd (pick_next (fst (enqueue rq h tid e false)))).
  assert (tasks rq1 = [] /\ total_weight rq1 = total_weight rq + (SchedEntity.weight e - 1024)) as [H1 H2].
  { subst rq1. unfold enqueue, pick_next. cbn [fst tasks]. rewrite Ht. cbn [bt_insert snd tasks total_weight].
    split; [done|]. unfold place_entity, SchedEntity.set_vruntime. cbn [SchedEntity.weight].
    rewrite add64_small by (unfold in_range; nia). unfold sat_sub, NICE_0_WEIGHT. lia. }
  destruct (IH rq1) as [H3 H4]; [done|lia|nia|]. split; [done|]. rewrite H4, H2. lia.
Qed.

End CfsRunQueue.

(** The load total the time slices are computed from is not the weight of the
    runnable tasks. Queueing and picking one task of nice -20 a thousand times, on an
    otherwise empty queue, leaves an empty queue whose [total_weight] is 1000 times
    the surplus over the nice-0 weight, not 0. *)
Theorem cfs_total_weight_drift :
  exists e, SchedEntity.set_nice SchedEntity.default (-20) = Ret e /\
    let rq := CfsRunQueue.cycle 1000 CfsRunQueue.new 101 1 e in
    CfsRunQueue.tasks rq = [] /\ CfsRunQueue.total_weight rq = 87737000.
Proof.
  eexists. split; [reflexivity|]. set (e := SchedEntity.Mk _ _ _ _ _ _ _ _ _ _).
  destruct (CfsRunQueue.cycle_weight 1000 101 1 e ltac:(vm_compute; discriminate) CfsRunQueue.new
    eq_refl ltac:(vm_compute; discriminate) ltac:(vm_compute; reflexivity)) as [H1 H2].
  cbv zeta. split; [exact H1|]. rewrite H2. reflexivity.
Qed.

(** Arithmetic at the edges: [SchedEntity::new] keeps a nice value out of range, and
    updating such an entity's runtime panics; and 65 s of run time at nice 19 exceed
    the product's 64 bits, so less than a hundredth of the vruntime is charged. *)
Example new_out_of_range_panics :
  (e ← SchedEntity.new 30; SchedEntity.calc_delta_vruntime e 1000) = Panic.
Proof. reflexivity. Qed.

Example delta_overflow_at_nice_19 :
  (e ← SchedEntity.new 19; SchedEntity.calc_delta_vruntime e 65000000000) = Ret 39286821196
  /\ 65000000000 * NICE_0_WEIGHT / 15 = 4437333333333.
Proof. split; reflexivity. Qed.
