(* ===== verification/SchedClass.v ===== *)
(** Real-time and idle run queues ([os/src/task/sched_class.rs]).

    [RtRunQueue] is the array of one FIFO per priority with the bitmap of non-empty
    levels. It is shown to implement a stable priority queue: the abstract state is
    one list of (priority, task) in arrival order, and picking takes the earliest
    task of the greatest priority present. *)
From S2P Require Import Prelude BTree Sched.

Definition MAX_RT_PRIO : Z := 99.
Definition RT_PRIO_LEVELS : Z := 100.
Definition RR_TIMESLICE_NS : Z := 100000000.

Inductive SchedClass : Type := ClassRt | ClassCfs | ClassIdle.

Definition get_sched_class (e : SchedEntity.t) : SchedClass :=
  match SchedEntity.policy e with
  | Fifo | RoundRobin => ClassRt
  | Idle => ClassIdle
  | Normal | Batch => ClassCfs
  end.

Module RtRunQueue.

Record t : Type := Mk {
  queues : list (list Z);
  bitmap : Z;
  nr_running : Z;
}.

Definition new : t := Mk (replicate (Z.to_nat RT_PRIO_LEVELS) []) 0 0.
Definition is_empty (rq : t) : bool := nr_running rq =? 0.
Definition len (rq : t) : Z := nr_running rq.

Definition prio_of (e : SchedEntity.t) : Z := Z.min (SchedEntity.rt_priority e) MAX_RT_PRIO.

Definition enqueue (rq : t) (task : Z) (e : SchedEntity.t) : outcome t :=
  let prio := prio_of e in
  if prio =? 0 then Ret rq
  else
    q ← index (queues rq) prio;
    qs ← store (queues rq) prio (q ++ [task]);
    Ret (Mk qs (bit_set (bitmap rq) prio) (nr_running rq ⊕ 1)).

(** [position] by pointer equality, and [VecDeque::remove]. *)
Definition dequeue (rq : t) (task : Z) (e : SchedEntity.t) : outcome t :=
  let prio := prio_of e in
  if prio =? 0 then Ret rq
  else
    q ← index (queues rq) prio;
    match remove_first (Z.eqb task) q with
    | (Some _, q') =>
        qs ← store (queues rq) prio q';
        Ret (Mk qs (if bool_decide (q' = []) then bit_clear 128 (bitmap rq) prio else bitmap rq)
              (sat_sub (nr_running rq) 1))
    | (None, _) => Ret rq
    end.

Definition highest_prio (rq : t) : Z := 127 - leading_zeros 128 (bitmap rq).

Definition pick_next (rq : t) : outcome (option Z * t) :=
  if bitmap rq =? 0 then Ret (None, rq)
  else
    q ← index (queues rq) (highest_prio rq);
    match q with
    | [] => Ret (None, rq)
    | task :: q' =>
        qs ← store (queues rq) (highest_prio rq) q';
        Ret (Some task,
             Mk qs (if bool_decide (q' = []) then bit_clear 128 (bitmap rq) (highest_prio rq) else bitmap rq)
               (sat_sub (nr_running rq) 1))
    end.

Definition peek_next (rq : t) : outcome (option Z) :=
  if bitmap rq =? 0 then Ret None
  else q ← index (queues rq) (highest_prio rq); Ret (head q).

Definition requeue_rr (rq : t) (task : Z) (e : SchedEntity.t) : outcome t :=
  let prio := prio_of e in
  if prio =? 0 then Ret rq
  else
    q ← index (queues rq) prio;
    qs ← store (queues rq) prio (q ++ [task]);
    Ret (Mk qs (bit_set (bitmap rq) prio) (nr_running rq)).

Definition should_preempt (rq : t) (curr wake : SchedEntity.t) : bool :=
  if negb (is_realtime (SchedEntity.policy curr)) then true
  else SchedEntity.rt_priority curr <? SchedEntity.rt_priority wake.

(** The nested loop over the queues finds the first match of the concatenation. *)
Fixpoint find_queues (p : Z -> bool) (qs : list (list Z)) : option Z :=
  match qs with
  | [] => None
  | q :: r => match find_first p q with Some x => Some x | None => find_queues p r end
  end.
Definition find_by_pid (st : tstore) (rq : t) (p : Z) : option Z :=
  find_queues (fun h => pid (st !!! h) =? p) (queues rq).
Definition find_by_tgid (st : tstore) (rq : t) (g : Z) : option Z :=
  find_queues (fun h => tgid (st !!! h) =? g) (queues rq).
Definition iter (rq : t) : list Z := mjoin (queues rq).

(** ** The abstract queue *)

Definition absq : Type := list (Z * Z).
Definition max_prio (l : absq) : Z := foldr Z.max 0 (map fst l).
Definition spec_enqueue (l : absq) (task prio : Z) : absq :=
  if prio =? 0 then l else l ++ [(prio, task)].
Definition spec_dequeue (l : absq) (task prio : Z) : absq :=
  snd (remove_first (fun e => (fst e =? prio) && (task =? snd e)) l).
Definition spec_pick (l : absq) : option Z * absq :=
  let '(o, r) := remove_first (fun e => fst e =? max_prio l) l in (snd <$> o, r).

(** The tasks of one priority, in arrival order. *)
Definition level (p : Z) (l : absq) : list Z := map snd (List.filter (fun e => fst e =? p) l).

Record rep (rq : t) (l : absq) : Prop := {
  r_len : length (queues rq) = 100%nat;
  r_queue : forall i, (i < 100)%nat -> queues rq !! i = Some (level (Z.of_nat i) l);
  r_prio : Forall (fun e => 1 <= fst e <= MAX_RT_PRIO) l;
  r_bitmap : in_range 128 (bitmap rq);
  r_bits : forall p, 0 <= p < 128 ->
    Z.testbit (bitmap rq) p = negb (bool_decide (level p l = []));
  r_count : nr_running rq = Z.of_nat (length l);
}.

Inductive op : Type :=
| OpEnqueue (task : Z) (e : SchedEntity.t)
| OpDequeue (task : Z) (e : SchedEntity.t)
| OpPick.

Definition op_ok (o : op) : Prop :=
  match o with OpEnqueue _ e | OpDequeue _ e => 0 <= SchedEntity.rt_priority e < 256 | OpPick => True end.

Definition step (rq : t) (o : op) : outcome (option Z * t) :=
  match o with
  | OpEnqueue h e => rq' ← enqueue rq h e; Ret (None, rq')
  | OpDequeue h e => rq' ← dequeue rq h e; Ret (None, rq')
  | OpPick => pick_next rq
  end.

Definition spec_op (l : absq) (o : op) : option Z * absq :=
  match o with
  | OpEnqueue h e => (None, spec_enqueue l h (prio_of e))
  | OpDequeue h e => (None, spec_dequeue l h (prio_of e))
  | OpPick => spec_pick l
  end.

Fixpoint run (rq : t) (ops : list op) : outcome (list (option Z) * t) :=
  match ops with
  | [] => Ret ([], rq)
  | o :: r => '(x, rq1) ← step rq o; '(xs, rq2) ← run rq1 r; Ret (x :: xs, rq2)
  end.
Fixpoint spec_run (l : absq) (ops : list op) : list (option Z) * absq :=
  match ops with
  | [] => ([], l)
  | o :: r => let '(x, l1) := spec_op l o in let '(xs, l2) := spec_run l1 r in (x :: xs, l2)
  end.

(** ** Levels *)

Lemma level_app p l1 l2 : level p (l1 ++ l2) = level p l1 ++ level p l2.
Proof. unfold level. by rewrite List.filter_app, map_app. Qed.

Lemma level_nil p l : level p l = [] <-> forall e, e ∈ l -> fst e <> p.
Proof.
  unfold level. induction l as [|[q h] l IH]; cbn; [split; [intros _ e He; by apply not_elem_of_nil in He|done]|].
  destruct (Z.eqb_spec q p) as [->|Hne]; cbn.
  - split; [done|]. intros H. by specialize (H (p, h) ltac:(left)).
  - rewrite IH. split; intros H e He; [|apply H; by right].
    apply elem_of_cons in He as [->|He]; [done|by apply H].
Qed.

Lemma level_remove_other P p q l :
  (forall e, P e = true -> fst e = p) -> q <> p -> level q (snd (remove_first P l)) = level q l.
Proof.
  intros HP Hq. induction l as [|e l IH]; [done|]. cbn. destruct (P e) eqn:E.
  - unfold level. cbn. destruct (Z.eqb_spec (fst e) q) as [<-|]; [|done]. by specialize (HP e E).
  - destruct (remove_first P l) as [o r]. cbn in *. unfold level in *. cbn. destruct (fst e =? q); cbn; congruence.
Qed.

Lemma level_remove_task p h l :
  remove_first (Z.eqb h) (level p l) =
    (snd <$> fst (remove_first (fun e => (fst e =? p) && (h =? snd e)) l),
     level p (snd (remove_first (fun e => (fst e =? p) && (h =? snd e)) l))).
Proof.
  induction l as [|[q x] l IH]; [done|]. unfold level in *. cbn. destruct (Z.eqb_spec q p) as [->|Hq]; cbn.
  - destruct (Z.eqb_spec h x) as [->|Hx]; cbn; [done|]. rewrite IH. destruct (remove_first _ l) as [o r]. cbn.
    by rewrite Z.eqb_refl.
  - rewrite IH. destruct (remove_first _ l) as [o r]. cbn. by destruct (Z.eqb_spec q p).
Qed.

Lemma level_remove_front p l :
  match remove_first (fun e => fst e =? p) l with
  | (Some e, r) => fst e = p /\ level p l = snd e :: level p r
  | (None, r) => level p l = []
  end.
Proof.
  induction l as [|[q x] l IH]; [done|]. unfold level in *. cbn. destruct (Z.eqb_spec q p) as [->|Hq]; [done|].
  destruct (remove_first _ l) as [[e|] r]; cbn; [|done]. destruct (Z.eqb_spec q p); [done|]. done.
Qed.

Lemma remove_first_length {A} (P : A -> bool) l :
  length (snd (remove_first P l)) = match fst (remove_first P l) with Some _ => pred (length l) | None => length l end.
Proof.
  pose proof (remove_first_spec P l) as H. destruct (remove_first P l) as [[y|] r]; cbn.
  - destruct H as (l1 & l2 & -> & -> & _). rewrite !length_app. cbn. lia.
  - by destruct H as [-> _].
Qed.

Lemma remove_first_Forall {A} (Q : A -> Prop) (P : A -> bool) l :
  Forall Q l -> Forall Q (snd (remove_first P l)).
Proof.
  induction 1 as [|x l Hx Hl IH]; [constructor|]. cbn. destruct (P x); [done|].
  destruct (remove_first P l) as [o r]. by constructor.
Qed.

Lemma max_prio_spec l : Forall (fun e => 1 <= fst e <= MAX_RT_PRIO) l ->
  (forall e, e ∈ l -> fst e <= max_prio l) /\ (l <> [] -> exists e, e ∈ l /\ fst e = max_prio l).
Proof.
  unfold max_prio. induction 1 as [|e l He Hl [IH1 IH2]]; [split; [intros e He; by apply not_elem_of_nil in He|done]|].
  cbn [foldr map]. split.
  - intros x Hx. apply elem_of_cons in Hx as [->|Hx]; [lia|]. specialize (IH1 x Hx). lia.
  - intros _. destruct (Z.max_spec (fst e) (foldr Z.max 0 (map fst l))) as [[Hlt ->]|[_ ->]]; [|exists e; split; [left|done]].
    destruct l as [|y l]; [cbn in Hlt; lia|]. destruct IH2 as (x & Hx & Hm); [done|]. exists x. split; [by right|done].
Qed.

(** ** Simulation *)

Lemma rt_rep_new : rep new [].
Proof.
  split; try done.
  - intros i Hi. apply lookup_replicate. done.
  - intros p _. apply Z.testbit_0_l.
Qed.

(** Changing one level and the bit that stands for it. *)
Lemma rep_update rq l l' p b n : rep rq l -> 0 <= p < 100 ->
  (forall q, q <> p -> level q l' = level q l) -> Forall (fun e => 1 <= fst e <= MAX_RT_PRIO) l' ->
  in_range 128 b ->
  (forall q, 0 <= q < 128 -> Z.testbit b q =
     if q =? p then negb (bool_decide (level p l' = [])) else Z.testbit (bitmap rq) q) ->
  n = Z.of_nat (length l') ->
  rep (Mk (<[Z.to_nat p := level p l']> (queues rq)) b n) l'.
Proof.
  intros [H1 H2 H3 H4 H5 H6] Hp Hl Hf Hb Hbits Hn. split; cbn; try done.
  - by rewrite length_insert.
  - intros i Hi. destruct (decide (i = Z.to_nat p)) as [->|Hne].
    + rewrite list_lookup_insert_eq by lia. rewrite Z2Nat.id by lia. done.
    + rewrite list_lookup_insert_ne by done. rewrite H2 by done. rewrite Hl by lia. done.
  - intros q Hq. rewrite Hbits by done. destruct (Z.eqb_spec q p) as [->|]; [done|].
    rewrite H5 by done. by rewrite Hl.
Qed.

Lemma rep_index rq l p : rep rq l -> 0 <= p < 100 -> index (queues rq) p = Ret (level p l).
Proof. intros H Hp. apply index_ret. rewrite (r_queue _ _ H) by lia. by rewrite Z2Nat.id by lia. Qed.

Lemma rt_rep_store rq l p q : rep rq l -> 0 <= p < 100 ->
  store (queues rq) p q = Ret (<[Z.to_nat p := q]> (queues rq)).
Proof. intros H Hp. apply store_lt. rewrite (r_len _ _ H). lia. Qed.

Lemma enqueue_ok rq l h e : rep rq l -> 0 <= SchedEntity.rt_priority e < 256 ->
  Z.of_nat (length l) + 1 < 2 ^ 64 ->
  exists rq', enqueue rq h e = Ret rq' /\ rep rq' (spec_enqueue l h (prio_of e)).
Proof.
  intros Hr He Hn. unfold enqueue, spec_enqueue. set (p := prio_of e). unfold prio_of, MAX_RT_PRIO in p.
  destruct (Z.eqb_spec p 0); [by eexists|]. assert (1 <= p <= 99) as Hp by lia.
  rewrite (rep_index _ l) by (done || lia). cbn [mbind outcome_bind].
  rewrite (rt_rep_store _ l) by (done || lia). cbn [mbind outcome_bind].
  assert (level p (l ++ [(p, h)]) = level p l ++ [h]) as Hl.
  { rewrite level_app. unfold level at 2. cbn. by rewrite Z.eqb_refl. }
  eexists. split; [done|]. rewrite <- Hl.
  apply (rep_update rq l); try done; try lia.
  - intros q Hq. rewrite level_app. unfold level at 2. cbn. destruct (Z.eqb_spec p q); [done|]. by rewrite app_nil_r.
  - apply Forall_app. split; [apply Hr|]. repeat constructor; cbn; unfold MAX_RT_PRIO; lia.
  - apply bit_set_range; [apply Hr|lia].
  - intros q Hq. rewrite testbit_bit_set by lia. destruct (Z.eqb_spec q p) as [->|]; [|done].
    rewrite Hl. by destruct (level p l).
  - rewrite (r_count _ _ Hr), add64_small by (unfold in_range; lia). rewrite length_app. cbn. lia.
Qed.

(** Taking a task out of level [p], whichever way it was found. *)
Lemma rep_remove rq l l' p : rep rq l -> 1 <= p <= 99 ->
  (forall q, q <> p -> level q l' = level q l) -> Forall (fun e => 1 <= fst e <= MAX_RT_PRIO) l' ->
  level p l <> [] -> length l = S (length l') ->
  rep (Mk (<[Z.to_nat p := level p l']> (queues rq))
         (if bool_decide (level p l' = []) then bit_clear 128 (bitmap rq) p else bitmap rq)
         (sat_sub (nr_running rq) 1)) l'.
Proof.
  intros Hr Hp Hl Hf Hne Hlen. apply (rep_update rq l); try done; try lia.
  - case_bool_decide; [apply bit_clear_range; [apply Hr|lia]|apply Hr].
  - intros q Hq. destruct (decide (level p l' = [])) as [E|E].
    + rewrite !bool_decide_true by done. rewrite testbit_bit_clear by lia.
      by destruct (Z.eqb_spec q p).
    + rewrite !bool_decide_false by done. destruct (Z.eqb_spec q p) as [->|]; [|done].
      rewrite (r_bits _ _ Hr) by lia. by rewrite bool_decide_false.
  - rewrite (r_count _ _ Hr). unfold sat_sub. lia.
Qed.

Lemma dequeue_ok rq l h e : rep rq l -> 0 <= SchedEntity.rt_priority e < 256 ->
  exists rq', dequeue rq h e = Ret rq' /\ rep rq' (spec_dequeue l h (prio_of e)).
Proof.
  intros Hr He. unfold dequeue, spec_dequeue. set (p := prio_of e). unfold prio_of, MAX_RT_PRIO in p.
  set (P := fun e : Z * Z => (fst e =? p) && (h =? snd e)).
  assert (forall x, P x = true -> fst x = p) as HP
    by (intros x Hx; unfold P in Hx; apply andb_true_iff in Hx as [Hx _]; by apply Z.eqb_eq).
  destruct (Z.eqb_spec p 0) as [E0|E0].
  { exists rq. split; [done|]. pose proof (remove_first_spec P l) as H.
    destruct (remove_first P l) as [[x|] r]; [|by destruct H as [-> _]].
    destruct H as (l1 & l2 & -> & _ & Hx & _). apply HP in Hx. pose proof (r_prio _ _ Hr) as Hf.
    apply Forall_app in Hf as [_ Hf]. inversion Hf. lia. }
  assert (1 <= p <= 99) as Hp by lia.
  rewrite (rep_index _ l) by (done || lia). cbn [mbind outcome_bind]. rewrite level_remove_task. fold P.
  pose proof (remove_first_length P l) as Hlen. pose proof (remove_first_spec P l) as H.
  pose proof (fun q => level_remove_other P p q l HP) as Ho.
  pose proof (remove_first_Forall _ P l (r_prio _ _ Hr)) as Hf.
  destruct (remove_first P l) as [[x|] r]; cbn [fmap option_fmap option_map fst snd] in *.
  - destruct H as (l1 & l2 & El & Er & Hx & _). rewrite (rt_rep_store _ l) by (done || lia). eexists. split; [done|].
    apply (rep_remove rq l); try done.
    + rewrite level_nil. intros H. apply (H x); [subst l; apply elem_of_app; right; left|by apply HP].
    + rewrite Hlen. subst l. rewrite length_app. cbn. lia.
  - exists rq. split; [done|]. by destruct H as [-> _].
Qed.

Lemma bitmap_zero rq l : rep rq l -> bitmap rq = 0 <-> l = [].
Proof.
  intros Hr. split; intros H.
  - destruct l as [|e l]; [done|]. exfalso. pose proof (r_prio _ _ Hr) as Hf. apply Forall_inv in Hf as He.
    unfold MAX_RT_PRIO in He. pose proof (r_bits _ _ Hr (fst e) ltac:(lia)) as Hb.
    rewrite H, Z.testbit_0_l in Hb. rewrite bool_decide_false in Hb; [done|]. rewrite level_nil. intros Hn.
    by apply (Hn e); [left|].
  - subst l. apply (word_ext 128); [lia|apply Hr|unfold in_range; lia|]. intros i Hi.
    rewrite (r_bits _ _ Hr) by lia. by rewrite Z.testbit_0_l.
Qed.

(** The highest bit of the bitmap is the greatest priority present. *)
Lemma highest_prio_max rq l : rep rq l -> l <> [] ->
  highest_prio rq = max_prio l /\ 1 <= max_prio l <= 99 /\ level (max_prio l) l <> [].
Proof.
  intros Hr Hl. destruct (max_prio_spec l (r_prio _ _ Hr)) as [Hmax Hex].
  destruct (Hex Hl) as (e & He & Hem). pose proof (r_prio _ _ Hr) as Hf. rewrite Forall_forall in Hf.
  specialize (Hf e He) as Hb. unfold MAX_RT_PRIO in Hb.
  assert (level (max_prio l) l <> []) as Hlev by (rewrite level_nil; intros H; by apply (H e)).
  split_and!; try lia; try done.
  destruct (leading_zeros_highest 128 (bitmap rq) (r_bitmap _ _ Hr)) as (H1 & H2 & H3);
    [by rewrite (bitmap_zero rq l)|].
  change (128 - 1 - leading_zeros 128 (bitmap rq)) with (highest_prio rq) in *. apply Z.le_antisymm.
  - rewrite (r_bits _ _ Hr) in H2 by done. destruct (decide (level (highest_prio rq) l = [])) as [E|E];
      [by rewrite bool_decide_true in H2|]. rewrite level_nil in E.
    destruct (Z.le_gt_cases (highest_prio rq) (max_prio l)) as [|Hgt]; [done|]. exfalso. apply E.
    intros x Hx. specialize (Hmax x Hx). lia.
  - destruct (Z.le_gt_cases (max_prio l) (highest_prio rq)) as [|Hgt]; [done|]. exfalso.
    specialize (H3 (max_prio l) Hgt). rewrite (r_bits _ _ Hr) in H3 by lia. by rewrite bool_decide_false in H3.
Qed.

Lemma pick_next_ok rq l : rep rq l ->
  exists rq', pick_next rq = Ret (fst (spec_pick l), rq') /\ rep rq' (snd (spec_pick l)).
Proof.
  intros Hr. unfold pick_next, spec_pick. destruct (Z.eqb_spec (bitmap rq) 0) as [E|E].
  { rewrite (bitmap_zero rq l) in E by done. subst l. by exists rq. }
  rewrite (bitmap_zero rq l) in E by done. destruct (highest_prio_max rq l Hr E) as (-> & Hp & Hne).
  rewrite (rep_index _ l) by (done || lia). cbn [mbind outcome_bind].
  set (m := max_prio l) in *. set (P := fun e : Z * Z => fst e =? m).
  assert (forall x, P x = true -> fst x = m) as HP by (intros x Hx; by apply Z.eqb_eq).
  pose proof (remove_first_length P l) as Hlen. pose proof (level_remove_front m l) as H. fold P in H.
  pose proof (fun q => level_remove_other P m q l HP) as Ho.
  pose proof (remove_first_Forall _ P l (r_prio _ _ Hr)) as Hf.
  destruct (remove_first P l) as [[x|] r]; [|done].
  cbn [fmap option_fmap option_map fst snd] in *. destruct H as [_ Hl]. rewrite Hl.
  rewrite (rt_rep_store _ l) by (done || lia). eexists. split; [done|]. apply (rep_remove rq l); try done.
  rewrite Hlen. destruct l; [done|]. cbn. lia.
Qed.

Lemma rt_run_ok ops : forall rq l, rep rq l -> Forall op_ok ops ->
  Z.of_nat (length l) + Z.of_nat (length ops) < 2 ^ 64 ->
  exists rq', run rq ops = Ret (fst (spec_run l ops), rq') /\ rep rq' (snd (spec_run l ops)).
Proof.
  induction ops as [|o ops IH]; intros rq l Hr Hok Hn; [by exists rq|].
  apply Forall_cons in Hok as [Ho Hok]. cbn [length] in Hn.
  assert (exists rq1, step rq o = Ret (fst (spec_op l o), rq1) /\ rep rq1 (snd (spec_op l o)) /\
    Z.of_nat (length (snd (spec_op l o))) <= Z.of_nat (length l) + 1) as (rq1 & Hs & Hr1 & Hl).
  { destruct o as [h e|h e|]; cbn [step spec_op fst snd op_ok] in *.
    - destruct (enqueue_ok rq l h e) as (rq1 & -> & H); [done..|lia|]. exists rq1. split_and!; try done.
      unfold spec_enqueue. case_Z; [|rewrite length_app; cbn]; lia.
    - destruct (dequeue_ok rq l h e) as (rq1 & -> & H); [done..|]. exists rq1. split_and!; try done.
      unfold spec_dequeue. rewrite remove_first_length. destruct (fst _); lia.
    - destruct (pick_next_ok rq l Hr) as (rq1 & -> & H). exists rq1. split_and!; try done.
      unfold spec_pick. pose proof (remove_first_length (fun e => fst e =? max_prio l) l) as Hx.
      destruct (remove_first _ l) as [o r]. cbn in *. destruct o; lia. }
  cbn [run spec_run]. rewrite Hs. destruct (spec_op l o) as [x l1]. cbn [mbind outcome_bind fst snd] in *.
  destruct (IH rq1 l1 Hr1 Hok) as (rq2 & H2 & Hr2); [lia|]. rewrite H2.
  destruct (spec_run l1 ops) as [xs l2]. by exists rq2.
Qed.

(** ** The queued tasks *)

Lemma levels_nil (ks : list Z) : mjoin (map (fun p => level p []) ks) = [].
Proof. by induction ks. Qed.

Lemma levels_other q h l (ks : list Z) : q ∉ ks ->
  map (fun p => level p ((q, h) :: l)) ks = map (fun p => level p l) ks.
Proof.
  induction ks as [|k ks IH]; [done|]. intros H. apply not_elem_of_cons in H as [Hne H]. cbn [map].
  rewrite IH by done. f_equal. unfold level. cbn. by destruct (Z.eqb_spec q k).
Qed.

Lemma levels_cons q h l (ks : list Z) : NoDup ks -> q ∈ ks ->
  mjoin (map (fun p => level p ((q, h) :: l)) ks) ≡ₚ h :: mjoin (map (fun p => level p l) ks).
Proof.
  induction 1 as [|k ks Hk Hnd IH]; intros Hin; [by apply not_elem_of_nil in Hin|]. cbn [map mjoin list_join].
  apply elem_of_cons in Hin as [->|Hin].
  - rewrite levels_other by done. unfold level at 1. cbn. by rewrite Z.eqb_refl.
  - assert (level k ((q, h) :: l) = level k l) as ->
      by (unfold level; cbn; destruct (Z.eqb_spec q k) as [->|]; done).
    rewrite IH by done. symmetry. apply Permutation_middle.
Qed.

(** The queued tasks are those of the abstract queue. *)
Lemma iter_perm rq l : rep rq l -> iter rq ≡ₚ map snd l.
Proof.
  intros Hr. unfold iter.
  assert (queues rq = map (fun p => level p l) (map Z.of_nat (seq 0 100))) as ->.
  { apply list_eq. intros i. rewrite !list_lookup_fmap. destruct (decide (i < 100)%nat) as [Hi|Hi].
    - rewrite (r_queue _ _ Hr) by done. rewrite lookup_seq_lt by done. done.
    - rewrite lookup_seq_ge by lia. apply lookup_ge_None. rewrite (r_len _ _ Hr). lia. }
  pose proof (r_prio _ _ Hr) as Hf. clear Hr. unfold MAX_RT_PRIO in Hf.
  induction Hf as [|[q h] l Hq Hl IH]; [by rewrite levels_nil|]. cbn [fst] in Hq.
  rewrite levels_cons; [by rewrite IH|apply NoDup_fmap_2; [apply _|apply NoDup_seq]|].
  apply list_elem_of_fmap. exists (Z.to_nat q). split; [lia|]. apply elem_of_seq. lia.
Qed.

Lemma spec_pick_spec l : Forall (fun e => 1 <= fst e <= MAX_RT_PRIO) l ->
  match spec_pick l with
  | (None, l') => l = [] /\ l' = []
  | (Some h, l') => exists p, l ≡ₚ (p, h) :: l' /\ forall e, e ∈ l -> fst e <= p
  end.
Proof.
  intros Hf. destruct (max_prio_spec l Hf) as [Hmax Hex]. unfold spec_pick.
  pose proof (remove_first_spec (fun e => fst e =? max_prio l) l) as H.
  destruct (remove_first _ l) as [[[p h]|] r]; cbn.
  - destruct H as (l1 & l2 & Hl & -> & Hp%Z.eqb_eq & _). cbn in Hp. exists p. rewrite Hp. split; [|done].
    rewrite <- Hp, Hl. symmetry. apply Permutation_middle.
  - destruct H as [-> Hn]. destruct l as [|e l]; [done|]. destruct Hex as (x & Hx & E); [done|].
    specialize (Hn x Hx). by rewrite E, Z.eqb_refl in Hn.
Qed.

Lemma find_queues_first p qs : find_queues p qs = find_first p (mjoin qs).
Proof.
  induction qs as [|q qs IH]; [done|]. cbn. rewrite IH. clear IH.
  induction q as [|x q IH]; [done|]. cbn. by destruct (p x).
Qed.

(** C35: The real-time run queue is a stable priority queue. Whatever sequence of
    enqueue, dequeue and pick operations (fewer than 2^64, priorities of a byte) runs on a
    new queue, no operation panics, each pick returns the task that has waited longest
    among those of the greatest priority queued, a dequeue removes the first entry of its
    task at its priority, and [len] is the number of queued tasks. Priorities above 99
    count as 99, and a task of priority 0 is not queued. *)
Theorem rt_queue_refines ops : Forall op_ok ops -> Z.of_nat (length ops) < 2 ^ 64 ->
  let '(outs, l) := spec_run [] ops in
  exists rq, run new ops = Ret (outs, rq) /\ rep rq l /\ len rq = Z.of_nat (length l).
Proof.
  intros Hok Hn. destruct (rt_run_ok ops new [] rt_rep_new Hok) as (rq & Hrun & Hrep); [cbn; lia|].
  destruct (spec_run [] ops) as [outs l]. exists rq. split_and!; try done. apply Hrep.
Qed.

(** On three tasks of two priorities, one of them dequeued. *)
Lemma rt_queue_refines_witness :
  let e p := SchedEntity.new_rt Fifo p in
  let ops := [OpEnqueue 1 (e 10); OpEnqueue 2 (e 50); OpEnqueue 3 (e 50); OpPick;
              OpEnqueue 4 (e 10); OpDequeue 1 (e 10); OpPick; OpPick; OpPick] in
  fst (spec_run [] ops) = [None; None; None; Some 2; None; None; Some 3; Some 4; None] /\
  let '(outs, l) := spec_run [] ops in
  exists rq, run new ops = Ret (outs, rq) /\ rep rq l /\ len rq = Z.of_nat (length l).
Proof.
  split; [reflexivity|].
  apply rt_queue_refines; [repeat constructor; vm_compute; congruence|reflexivity].
Defined.

(** A requeued round-robin task is queued without being counted. *)
Example requeue_rr_uncounted :
  (rq ← requeue_rr new 7 (SchedEntity.new_rt RoundRobin 20); Ret (iter rq, len rq, is_empty rq))
    = Ret ([7], 0, true).
Proof. reflexivity. Qed.

End RtRunQueue.

Module IdleRunQueue.

Definition t : Type := list Z.
Definition new : t := [].
Definition is_empty (q : t) : bool := bool_decide (q = []).
Definition len (q : t) : Z := Z.of_nat (length q).
Definition enqueue (q : t) (task : Z) : t := q ++ [task].
Definition dequeue (q : t) (task : Z) : t := snd (remove_first (Z.eqb task) q).
Definition pick_next (q : t) : option Z * t :=
  match q with [] => (None, []) | x :: r => (Some x, r) end.
Definition find_by_pid (st : tstore) (q : t) (p : Z) : option Z :=
  find_first (fun h => pid (st !!! h) =? p) q.
Definition find_by_tgid (st : tstore) (q : t) (g : Z) : option Z :=
  find_first (fun h => tgid (st !!! h) =? g) q.
Definition iter (q : t) : list Z := q.

End IdleRunQueue.
