(* ===== verification/TaskManager.v ===== *)
(** The per-CPU task managers ([os/src/task/manager.rs]).

    A manager holds the three run queues, the queue of sleeping tasks and the bitmap
    of recently active tasks. The managers of all CPUs are a list. A [try_lock] on
    another CPU's manager is an argument that says whether it succeeded. *)
From S2P Require Import Prelude BTree BitVec Sched SchedClass.

Definition MAX_CPU_NUM : Z := 4.
Definition SYSTEM_TASK_LIMIT : Z := 128.

Module ActiveTracker.

Definition t : Type := list Z.
Definition new : t := replicate (Z.to_nat ((SYSTEM_TASK_LIMIT + 63) / 64)) 0.

Definition check_active (b : t) (p : Z) : outcome bool :=
  w ← index b (p / 64); Ret (negb (Z.land w (Z.shiftl 1 (p mod 64)) =? 0)).
Definition check_inactive (b : t) (p : Z) : outcome bool :=
  w ← index b (p / 64); Ret (Z.land w (Z.shiftl 1 (p mod 64)) =? 0).
Definition mark_active (b : t) (p : Z) : outcome t :=
  w ← index b (p / 64); store b (p / 64) (bit_set w (p mod 64)).
Definition mark_inactive (b : t) (p : Z) : outcome t :=
  w ← index b (p / 64); store b (p / 64) (bit_clear 64 w (p mod 64)).

Definition wf (b : t) : Prop := length b = 2%nat /\ bv_words 64 b.

Lemma tracker_new_wf : wf new.
Proof. split; [done|]. apply (bv_words_replicate 64 ltac:(lia) 2). Qed.

Lemma lookup_word b p : wf b -> 0 <= p < 128 -> exists w, b !! Z.to_nat (p / 64) = Some w /\ in_range 64 w.
Proof.
  intros [Hl Hw] Hp. destruct (bv_lookup_lt 64 ltac:(lia) b p) as [w E]; [lia|].
  exists w. split; [done|]. by eapply bv_lookup_range.
Qed.

Lemma check_active_ok b p : wf b -> 0 <= p < 128 -> check_active b p = Ret (bv_test 64 b p).
Proof.
  intros Hw Hp. destruct (lookup_word b p Hw Hp) as (w & E & Hr). unfold check_active.
  rewrite (proj2 (index_ret _ _ _) E). cbn. pose proof (Z.mod_pos_bound p 64).
  rewrite land_bit_zero, negb_involutive by (unfold in_range in Hr; lia). by rewrite (bv_test_lookup 64 _ _ _ E).
Qed.

Lemma mark_active_ok b p : wf b -> 0 <= p < 128 ->
  exists b', mark_active b p = Ret b' /\ wf b' /\
    forall q, 0 <= q -> bv_test 64 b' q = (q =? p) || bv_test 64 b q.
Proof.
  intros Hw Hp. destruct (lookup_word b p Hw Hp) as (w & E & Hr). unfold mark_active.
  rewrite (proj2 (index_ret _ _ _) E). cbn. apply lookup_lt_Some in E as Hlt.
  rewrite store_lt by (destruct Hw as [Hl _]; pose proof (Z.div_pos p 64); lia).
  eexists. split; [done|]. split; [split; [rewrite length_insert; apply Hw|apply bv_words_set; [lia|apply Hw|done]]|].
  intros q Hq. apply bv_test_set; (lia || done).
Qed.

Lemma mark_inactive_ok b p : wf b -> 0 <= p < 128 -> exists b', mark_inactive b p = Ret b' /\ wf b'.
Proof.
  intros Hw Hp. destruct (lookup_word b p Hw Hp) as (w & E & Hr). unfold mark_inactive.
  rewrite (proj2 (index_ret _ _ _) E). cbn. apply lookup_lt_Some in E as Hlt.
  rewrite store_lt by (destruct Hw as [Hl _]; pose proof (Z.div_pos p 64); lia).
  eexists. split; [done|]. split; [rewrite length_insert; apply Hw|apply bv_words_clear; [lia|apply Hw|done]].
Qed.

Lemma mark_active_panics b p : wf b -> 128 <= p -> mark_active b p = Panic.
Proof.
  intros [Hl _] Hp. unfold mark_active, index. rewrite lookup_ge_None_2; [done|].
  rewrite Hl. pose proof (Z.div_le_mono 128 p 64 ltac:(lia) Hp) as H. change (128 / 64) with 2 in H. lia.
Qed.

End ActiveTracker.

Module TaskManager.

Record t : Type := Mk {
  rt_rq : RtRunQueue.t;
  cfs_rq : CfsRunQueue.t;
  idle_rq : IdleRunQueue.t;
  interruptible_queue : list Z;
  active_tracker : ActiveTracker.t;
}.

Definition new : t := Mk RtRunQueue.new CfsRunQueue.new IdleRunQueue.new [] ActiveTracker.new.

Definition set_rt m q := Mk q (cfs_rq m) (idle_rq m) (interruptible_queue m) (active_tracker m).
Definition set_cfs m q := Mk (rt_rq m) q (idle_rq m) (interruptible_queue m) (active_tracker m).
Definition set_idle m q := Mk (rt_rq m) (cfs_rq m) q (interruptible_queue m) (active_tracker m).
Definition set_interruptible m q := Mk (rt_rq m) (cfs_rq m) (idle_rq m) q (active_tracker m).
Definition set_tracker m b := Mk (rt_rq m) (cfs_rq m) (idle_rq m) (interruptible_queue m) b.

(** The CFS class writes the placed vruntime back into the task. *)
Definition add (st : tstore) (m : t) (task : Z) : outcome (tstore * t) :=
  let tk := st !!! task in
  let e := sched_entity tk in
  match get_sched_class e with
  | ClassRt => q ← RtRunQueue.enqueue (rt_rq m) task e; Ret (st, set_rt m q)
  | ClassCfs =>
      let is_new := SchedEntity.sum_exec_runtime e =? 0 in
      let '(q, e') := CfsRunQueue.enqueue (cfs_rq m) task (pid tk) e is_new in
      Ret (<[task := set_entity tk e']> st, set_cfs m q)
  | ClassIdle => Ret (st, set_idle m (IdleRunQueue.enqueue (idle_rq m) task))
  end.

Definition mark (st : tstore) (m : t) (task : Z) : outcome (option Z * t) :=
  b ← ActiveTracker.mark_active (active_tracker m) (pid (st !!! task));
  Ret (Some task, set_tracker m b).

Definition fetch (st : tstore) (m : t) : outcome (option Z * t) :=
  '(o, q) ← RtRunQueue.pick_next (rt_rq m);
  match o with
  | Some task => mark st (set_rt m q) task
  | None =>
      let m := set_rt m q in
      match CfsRunQueue.pick_next (cfs_rq m) with
      | (Some task, q) => mark st (set_cfs m q) task
      | (None, q) =>
          let m := set_cfs m q in
          match IdleRunQueue.pick_next (idle_rq m) with
          | (Some task, q) => mark st (set_idle m q) task
          | (None, q) => Ret (None, set_idle m q)
          end
      end
  end.

Definition steal_from_cfs (m : t) : option Z * t :=
  if 2 <=? CfsRunQueue.len (cfs_rq m) then
    let '(o, q) := CfsRunQueue.pick_next (cfs_rq m) in (o, set_cfs m q)
  else (None, m).

Definition steal_from_cfs_for_cpu (st : tstore) (m : t) (target_cpu : Z) : option Z * t :=
  if CfsRunQueue.len (cfs_rq m) <? 2 then (None, m)
  else let '(o, q) := CfsRunQueue.steal_for_cpu st (cfs_rq m) target_cpu in (o, set_cfs m q).

Definition total_count (m : t) : Z :=
  (RtRunQueue.len (rt_rq m) ⊕ CfsRunQueue.len (cfs_rq m)) ⊕ IdleRunQueue.len (idle_rq m).

Definition add_interruptible (m : t) (task : Z) : t :=
  set_interruptible m (interruptible_queue m ++ [task]).
Definition drop_interruptible (m : t) (task : Z) : t :=
  set_interruptible m (List.filter (fun h => negb (h =? task)) (interruptible_queue m)).

Definition find_by_pid (st : tstore) (m : t) (p : Z) : option Z :=
  match RtRunQueue.find_by_pid st (rt_rq m) p with
  | Some h => Some h
  | None =>
      match CfsRunQueue.find_by_pid st (cfs_rq m) p with
      | Some h => Some h
      | None =>
          match IdleRunQueue.find_by_pid st (idle_rq m) p with
          | Some h => Some h
          | None => find_first (fun h => pid (st !!! h) =? p) (interruptible_queue m)
          end
      end
  end.

Definition find_by_tgid (st : tstore) (m : t) (g : Z) : option Z :=
  match RtRunQueue.find_by_tgid st (rt_rq m) g with
  | Some h => Some h
  | None =>
      match CfsRunQueue.find_by_tgid st (cfs_rq m) g with
      | Some h => Some h
      | None =>
          match IdleRunQueue.find_by_tgid st (idle_rq m) g with
          | Some h => Some h
          | None => find_first (fun h => tgid (st !!! h) =? g) (interruptible_queue m)
          end
      end
  end.

Definition ready_count (m : t) : Z := wrap 16 (total_count m).
Definition interruptible_count (m : t) : Z := wrap 16 (Z.of_nat (length (interruptible_queue m))).

(** [true] is [Ok(())], [false] is [Err(WaitQueueError::AlreadyWaken)]. *)
Definition try_wake_interruptible (st : tstore) (m : t) (task : Z) : outcome (bool * tstore * t) :=
  let m := drop_interruptible m task in
  match find_by_pid st m (pid (st !!! task)) with
  | None => '(st', m') ← add st m task; Ret (true, st', m')
  | Some _ => Ret (false, st, m)
  end.

Definition wake_interruptible (st : tstore) (m : t) (task : Z) : outcome (tstore * t) :=
  '(_, st', m') ← try_wake_interruptible st m task; Ret (st', m').

(** Memory reclaim: [clean] is [do_deep_clean] or [do_shallow_clean] of a task's
    address space, on a memory state [V]. *)
Section Oom.
Context {V : Type} (deep_clean shallow_clean : Z -> V -> outcome (Z * V)).

Fixpoint oom_pass (st : tstore) (b : ActiveTracker.t) (clean : Z -> V -> outcome (Z * V)) (req : Z)
    (tasks : list Z) (cleaned : list Z) (released : Z) (v : V) : outcome (list Z * Z * V) :=
  match tasks with
  | [] => Ret (cleaned, released, v)
  | h :: r =>
      active ← ActiveTracker.check_active b (pid (st !!! h));
      if (active : bool) then
        '(n, v') ← clean h v;
        let '(cleaned', released') :=
          if 0 <? n then (cleaned ++ [pid (st !!! h)], released ⊕ n) else (cleaned, released) in
        if req <=? released' then Ret (cleaned', released', v')
        else oom_pass st b clean req r cleaned' released' v'
      else oom_pass st b clean req r cleaned released v
  end.

(** [while let Some(pid) = cleaned.pop()] *)
Fixpoint mark_all_inactive (b : ActiveTracker.t) (rev_cleaned : list Z) : outcome ActiveTracker.t :=
  match rev_cleaned with
  | [] => Ret b
  | p :: r => b' ← ActiveTracker.mark_inactive b p; mark_all_inactive b' r
  end.

Definition do_oom_local (st : tstore) (m : t) (req : Z) (v : V) : outcome (Z * t * V) :=
  '(cleaned, released, v1) ←
    oom_pass st (active_tracker m) deep_clean req (interruptible_queue m) [] 0 v;
  if req <=? released then
    b ← mark_all_inactive (active_tracker m) (reverse cleaned);
    Ret (released, set_tracker m b, v1)
  else
    '(cleaned2, released2, v2) ←
      oom_pass st (active_tracker m) shallow_clean req (CfsRunQueue.iter (cfs_rq m)) cleaned released v1;
    b ← mark_all_inactive (active_tracker m) (reverse cleaned2);
    Ret (released2, set_tracker m b, v2).
End Oom.

(** ** Invariant *)

(** Tasks that can be fetched. *)
Definition ready (m : t) : list Z :=
  RtRunQueue.iter (rt_rq m) ++ CfsRunQueue.iter (cfs_rq m) ++ idle_rq m.
Definition queued (m : t) : list Z := ready m ++ interruptible_queue m.

(** Pids are unique, vruntimes and priorities are in the range of their types, and a
    real-time task has a priority. *)
Record store_ok (st : tstore) : Prop := {
  so_pid : forall h1 h2 t1 t2, st !! h1 = Some t1 -> st !! h2 = Some t2 -> pid t1 = pid t2 -> h1 = h2;
  so_vruntime : forall h t, st !! h = Some t -> 0 <= SchedEntity.vruntime (sched_entity t) <= usize_max;
  so_prio : forall h t, st !! h = Some t -> 0 <= SchedEntity.rt_priority (sched_entity t) < 256;
  so_rt : forall h t, st !! h = Some t -> is_realtime (SchedEntity.policy (sched_entity t)) = true ->
    1 <= SchedEntity.rt_priority (sched_entity t);
}.

Record inv (st : tstore) (m : t) : Prop := {
  i_rt : exists l, RtRunQueue.rep (rt_rq m) l;
  i_cfs : CfsRunQueue.inv (cfs_rq m);
  i_key : forall k h, (k, h) ∈ CfsRunQueue.tasks (cfs_rq m) -> snd k = pid (st !!! h);
  i_nodup : NoDup (queued m);
  i_dom : forall h, h ∈ queued m -> is_Some (st !! h);
  i_tracker : ActiveTracker.wf (active_tracker m);
}.

(** The same tasks, up to their scheduling entities. *)
Definition core_of (t : tcb) : tcb := set_entity t SchedEntity.default.
Definition same_tasks (st st' : tstore) : Prop :=
  forall h, core_of <$> st !! h = core_of <$> st' !! h.

Lemma core_of_pid t t' : core_of t = core_of t' -> pid t = pid t'.
Proof. unfold core_of, set_entity. congruence. Qed.

Lemma same_tasks_total st st' h : same_tasks st st' -> core_of (st !!! h) = core_of (st' !!! h).
Proof.
  intros H. specialize (H h). rewrite !lookup_total_alt. destruct (st !! h), (st' !! h); cbn in *; congruence.
Qed.

Lemma inv_same_tasks st st' m : same_tasks st st' -> inv st m -> inv st' m.
Proof.
  intros Hs [H1 H2 H3 H4 H5 H6]. constructor; try done.
  - intros k h Hin. rewrite (H3 k h Hin). by apply core_of_pid, same_tasks_total.
  - intros h Hh. specialize (H5 h Hh) as [t Ht]. specialize (Hs h). rewrite Ht in Hs. cbn in Hs.
    destruct (st' !! h); [done|discriminate].
Qed.

Lemma manager_inv_new st : inv st new.
Proof.
  constructor; try (exists []; apply RtRunQueue.rt_rep_new); cbn.
  - apply CfsRunQueue.cfs_inv_new.
  - intros k h H. by apply not_elem_of_nil in H.
  - apply (bool_decide_eq_true_1 _). by vm_compute.
  - intros h H. vm_compute in H. by apply not_elem_of_nil in H.
  - apply ActiveTracker.tracker_new_wf.
Qed.

(** An invariant survives any change that permutes or shrinks the queued tasks. *)
Lemma inv_update st m m' : inv st m ->
  (exists l, RtRunQueue.rep (rt_rq m') l) -> CfsRunQueue.inv (cfs_rq m') ->
  (forall k h, (k, h) ∈ CfsRunQueue.tasks (cfs_rq m') -> snd k = pid (st !!! h)) ->
  (exists r, queued m ≡ₚ r ++ queued m') -> ActiveTracker.wf (active_tracker m') -> inv st m'.
Proof.
  intros Hi H1 H2 H3 [r Hr] H4. constructor; try done.
  - pose proof (i_nodup _ _ Hi) as Hn. rewrite Hr in Hn. by apply NoDup_app in Hn as (_ & _ & ?).
  - intros h Hh. apply (i_dom _ _ Hi). rewrite Hr. apply elem_of_app. by right.
Qed.

Lemma fresh_tid st m h : store_ok st -> inv st m -> is_Some (st !! h) -> h ∉ ready m ->
  pid (st !!! h) ∉ CfsRunQueue.tids (cfs_rq m).
Proof.
  intros Hs Hi [t Ht] Hh Hin. unfold CfsRunQueue.tids in Hin.
  apply list_elem_of_fmap in Hin as ([k h'] & Hp & Hin). cbn in Hp.
  rewrite (i_key _ _ Hi k h' Hin) in Hp.
  assert (h' ∈ ready m) as Hr.
  { unfold ready. rewrite !elem_of_app. right. left. unfold CfsRunQueue.iter. apply list_elem_of_fmap. by exists (k, h'). }
  destruct (i_dom _ _ Hi h') as [t' Ht']; [apply elem_of_app; by left|].
  rewrite !lookup_total_alt, Ht, Ht' in Hp. cbn in Hp. assert (h = h') as -> by by eapply so_pid.
  done.
Qed.

Lemma queued_cons m m' h : ready m' ≡ₚ h :: ready m -> interruptible_queue m' = interruptible_queue m ->
  queued m' ≡ₚ h :: queued m.
Proof. intros H E. unfold queued. by rewrite H, E. Qed.

Lemma inv_cons st m m' h : inv st m -> h ∉ queued m -> is_Some (st !! h) -> queued m' ≡ₚ h :: queued m ->
  (exists l, RtRunQueue.rep (rt_rq m') l) -> CfsRunQueue.inv (cfs_rq m') ->
  (forall k h, (k, h) ∈ CfsRunQueue.tasks (cfs_rq m') -> snd k = pid (st !!! h)) ->
  active_tracker m' = active_tracker m -> inv st m'.
Proof.
  intros Hi Hh Hd Hq H1 H2 H3 Ht. constructor; try done.
  - rewrite Hq. apply NoDup_cons. split; [done|apply Hi].
  - intros x Hx. rewrite Hq in Hx. apply elem_of_cons in Hx as [->|Hx]; [done|by apply (i_dom _ _ Hi)].
  - rewrite Ht. apply Hi.
Qed.

Lemma same_tasks_insert st h t t' : st !! h = Some t -> core_of t' = core_of t -> same_tasks st (<[h := t']> st).
Proof.
  intros Ht Hp x. destruct (decide (x = h)) as [->|Hne].
  - rewrite Ht, lookup_insert_eq. cbn. congruence.
  - by rewrite lookup_insert_ne.
Qed.

(** What [add] does, per class: the task is queued once more and at most its vruntime
    is written. *)
Definition add_post (st : tstore) (m : t) (h : Z) (st' : tstore) (m' : t) : Prop :=
  add st m h = Ret (st', m') /\ same_tasks st st' /\ store_ok st' /\ inv st' m' /\
  ready m' ≡ₚ h :: ready m /\ interruptible_queue m' = interruptible_queue m.

Section Add.
Context (st : tstore) (m : t) (h : Z) (tk : tcb).
Hypothesis (Hst : store_ok st) (Hi : inv st m) (Hh : st !! h = Some tk) (Hnew : h ∉ queued m).
Hypothesis (Hlen : Z.of_nat (length (queued m)) + 1 < 2 ^ 64).

Lemma tk_total : st !!! h = tk.
Proof using Hh. by rewrite lookup_total_alt, Hh. Qed.

Lemma not_ready : h ∉ ready m.
Proof using Hnew. intros H. apply Hnew. apply elem_of_app. by left. Qed.

Lemma add_rt_ok : get_sched_class (sched_entity tk) = ClassRt -> exists st' m', add_post st m h st' m'.
Proof using Hst Hi Hh Hnew Hlen.
  intros Hc. unfold add_post, add. rewrite tk_total, Hc. destruct (i_rt _ _ Hi) as [l Hl].
  assert (1 <= SchedEntity.rt_priority (sched_entity tk) < 256) as Hp.
  { pose proof (so_prio _ Hst _ _ Hh). pose proof (so_rt _ Hst _ _ Hh) as H2. unfold get_sched_class in Hc.
    destruct (SchedEntity.policy _); try done; specialize (H2 eq_refl); lia. }
  pose proof (RtRunQueue.iter_perm _ _ Hl) as Hit.
  destruct (RtRunQueue.enqueue_ok (rt_rq m) l h (sched_entity tk) Hl) as (q & Hq & Hr); [lia| |].
  { apply Permutation_length in Hit. rewrite length_fmap in Hit. unfold queued, ready in Hlen.
    rewrite !length_app in Hlen. lia. }
  rewrite Hq. cbn [mbind outcome_bind]. exists st, (set_rt m q).
  assert (ready (set_rt m q) ≡ₚ h :: ready m) as Hrd.
  { unfold ready. cbn [rt_rq cfs_rq idle_rq set_rt]. rewrite (RtRunQueue.iter_perm _ _ Hr), Hit.
    unfold RtRunQueue.spec_enqueue, RtRunQueue.prio_of, MAX_RT_PRIO.
    destruct (Z.eqb_spec (Z.min (SchedEntity.rt_priority (sched_entity tk)) 99) 0); [lia|].
    rewrite map_app. cbn. rewrite <- app_assoc. symmetry. apply Permutation_middle. }
  split_and!; try done. apply (inv_cons st m _ h); try done; try apply Hi.
  - by apply queued_cons.
  - eauto.
Qed.

Lemma add_idle_ok : get_sched_class (sched_entity tk) = ClassIdle -> exists st' m', add_post st m h st' m'.
Proof using Hst Hi Hh Hnew Hlen.
  intros Hc. unfold add_post, add. rewrite tk_total, Hc. do 2 eexists. split; [done|].
  assert (forall x, ready (set_idle m (IdleRunQueue.enqueue (idle_rq m) x)) ≡ₚ x :: ready m) as Hrd.
  { intros x. unfold ready, IdleRunQueue.enqueue. cbn [rt_rq cfs_rq idle_rq set_idle]. rewrite !app_assoc. symmetry. apply Permutation_cons_append. }
  split_and!; try done. apply (inv_cons st m _ h); try done; try apply Hi. by apply queued_cons.
Qed.

Lemma add_cfs_ok : get_sched_class (sched_entity tk) = ClassCfs -> exists st' m', add_post st m h st' m'.
Proof using Hst Hi Hh Hnew Hlen.
  intros Hc. unfold add_post, add. rewrite tk_total, Hc. set (b := _ =? 0).
  set (e' := CfsRunQueue.place_entity (cfs_rq m) (sched_entity tk) b).
  pose proof (fresh_tid st m h Hst Hi ltac:(eauto) not_ready) as Hf. rewrite tk_total in Hf.
  pose proof (so_vruntime _ Hst _ _ Hh) as Hv.
  assert (CfsRunQueue.op_ok (cfs_rq m) (CfsRunQueue.OpEnqueue h (pid tk) (sched_entity tk) b)) as Hok.
  { cbn. split_and!; try done; try lia. unfold queued, ready, CfsRunQueue.iter in Hlen.
    rewrite !length_app, length_fmap in Hlen. unfold usize_max. lia. }
  pose proof (CfsRunQueue.enqueue_tasks (cfs_rq m) h (pid tk) (sched_entity tk) b Hf) as Ht.
  pose proof (CfsRunQueue.inv_enqueue _ _ _ _ _ (i_cfs _ _ Hi) Hok) as Hinv.
  destruct (CfsRunQueue.enqueue (cfs_rq m) h (pid tk) (sched_entity tk) b) as [q e''] eqn:E.
  assert (e'' = e') as -> by (unfold CfsRunQueue.enqueue in E; by injection E as _ <-). cbn [fst] in *. fold e' in Ht.
  assert (ready (set_cfs m q) ≡ₚ h :: ready m) as Hrd.
  { unfold ready. cbn [rt_rq cfs_rq idle_rq set_cfs]. unfold CfsRunQueue.iter. rewrite Ht. cbn [map].
    rewrite <- app_comm_cons. symmetry. apply Permutation_middle. }
  assert (same_tasks st (<[h := set_entity tk e']> st)) as Hsp by (by apply (same_tasks_insert st h tk)).
  do 2 eexists. split_and!; try done.
  - assert (0 <= SchedEntity.vruntime e' <= usize_max) as Hv'.
    { pose proof (CfsRunQueue.inv_u64 _ (i_cfs _ _ Hi)).
      pose proof (CfsRunQueue.place_entity_range (cfs_rq m) (sched_entity tk) b ltac:(lia) Hv). unfold e'. lia. }
    constructor.
    + intros h1 h2 t1 t2 H1 H2 Hp. pose proof (Hsp h1) as E1. pose proof (Hsp h2) as E2. rewrite H1 in E1. rewrite H2 in E2.
      destruct (st !! h1) as [u1|] eqn:?, (st !! h2) as [u2|] eqn:?; try done. cbn in E1, E2.
      injection E1 as Hp1. injection E2 as Hp2. eapply so_pid; try done. congruence.
    + intros x t Hx. apply lookup_insert_Some in Hx as [[<- <-]|[_ Hx]]; [done|by eapply so_vruntime].
    + intros x t Hx. apply lookup_insert_Some in Hx as [[<- <-]|[_ Hx]]; [exact (so_prio _ Hst _ _ Hh)|by eapply so_prio].
    + intros x t Hx. apply lookup_insert_Some in Hx as [[<- <-]|[_ Hx]]; [exact (so_rt _ Hst _ _ Hh)|exact (so_rt _ Hst _ _ Hx)].
  - apply (inv_same_tasks st); [done|]. apply (inv_cons st m _ h); try done; try apply Hi; [by apply queued_cons|].
    intros k x Hin. cbn in Hin. rewrite Ht in Hin. apply elem_of_cons in Hin as [[= -> ->]|Hin].
    + by rewrite tk_total.
    + by apply (i_key _ _ Hi).
Qed.

Lemma manager_add_ok : exists st' m', add_post st m h st' m'.
Proof using Hst Hi Hh Hnew Hlen.
  destruct (get_sched_class (sched_entity tk)) eqn:E; [by apply add_rt_ok|by apply add_cfs_ok|by apply add_idle_ok].
Qed.
End Add.

(** ** Fetching *)

Lemma mark_ok st m m1 h : inv st m -> 0 <= pid (st !!! h) < 128 -> active_tracker m1 = active_tracker m ->
  exists b, mark st m1 h = Ret (Some h, set_tracker m1 b) /\ ActiveTracker.wf b /\
    ActiveTracker.check_active b (pid (st !!! h)) = Ret true.
Proof.
  intros Hi Hp Ht. unfold mark. rewrite Ht.
  destruct (ActiveTracker.mark_active_ok _ _ (i_tracker _ _ Hi) Hp) as (b & -> & Hw & Hb). exists b.
  split_and!; try done. rewrite ActiveTracker.check_active_ok by done. by rewrite Hb, Z.eqb_refl by lia.
Qed.

(** The task that is next, by class. *)
Definition is_next (m : t) (h : Z) : Prop :=
  (RtRunQueue.iter (rt_rq m) <> [] -> exists l p, RtRunQueue.rep (rt_rq m) l /\ (p, h) ∈ l /\
     forall e, e ∈ l -> fst e <= p) /\
  (RtRunQueue.iter (rt_rq m) = [] -> CfsRunQueue.iter (cfs_rq m) <> [] ->
     exists k, (k, h) ∈ CfsRunQueue.tasks (cfs_rq m) /\
       forall k' h', (k', h') ∈ CfsRunQueue.tasks (cfs_rq m) -> k' = k \/ klt k k') /\
  (RtRunQueue.iter (rt_rq m) = [] -> CfsRunQueue.iter (cfs_rq m) = [] -> head (idle_rq m) = Some h).

Definition fetch_post (st : tstore) (m : t) : Prop :=
  exists o m', fetch st m = Ret (o, m') /\ inv st m' /\ interruptible_queue m' = interruptible_queue m /\
  match o with
  | None => ready m = [] /\ ready m' = []
  | Some h => ready m ≡ₚ h :: ready m' /\ is_next m h /\
      ActiveTracker.check_active (active_tracker m') (pid (st !!! h)) = Ret true
  end.

(** Common end of the three branches: the picked task leaves its queue and is marked. *)
Lemma fetch_mark st m m1 h : inv st m -> (forall x, x ∈ ready m -> 0 <= pid (st !!! x) < 128) ->
  ready m ≡ₚ h :: ready m1 -> interruptible_queue m1 = interruptible_queue m ->
  active_tracker m1 = active_tracker m -> is_next m h ->
  (exists l, RtRunQueue.rep (rt_rq m1) l) -> CfsRunQueue.inv (cfs_rq m1) ->
  (forall e, e ∈ CfsRunQueue.tasks (cfs_rq m1) -> e ∈ CfsRunQueue.tasks (cfs_rq m)) ->
  fetch st m = mark st m1 h -> fetch_post st m.
Proof.
  intros Hi Hp Hr Hint Ht Hn H1 H2 H3 Hf. unfold fetch_post. rewrite Hf.
  destruct (mark_ok st m m1 h Hi) as (b & -> & Hw & Hc); [apply Hp; rewrite Hr; left|done|].
  exists (Some h), (set_tracker m1 b). split_and!; try done.
  apply (inv_update st m); try done.
  - intros k x Hin. apply (i_key _ _ Hi). by apply H3.
  - exists [h]. unfold queued. rewrite Hr. change (ready (set_tracker m1 b)) with (ready m1).
    cbn [interruptible_queue set_tracker]. by rewrite Hint.
Qed.

Lemma perm_cons_ne {A} (x : A) l l' : l ≡ₚ x :: l' -> l <> [].
Proof. intros H ->. by apply Permutation_nil_cons in H. Qed.

Lemma fetch_ok st m : inv st m -> (forall x, x ∈ ready m -> 0 <= pid (st !!! x) < 128) -> fetch_post st m.
Proof.
  intros Hi Hp. destruct (i_rt _ _ Hi) as [l Hl]. pose proof (RtRunQueue.iter_perm _ _ Hl) as Hit.
  pose proof (RtRunQueue.spec_pick_spec l (RtRunQueue.r_prio _ _ Hl)) as Hsp.
  destruct (RtRunQueue.pick_next_ok (rt_rq m) l Hl) as (q & Hpick & Hq).
  destruct (RtRunQueue.spec_pick l) as [[h|] l']; cbn [fst snd] in *.
  - destruct Hsp as (p & Hperm & Hmax). pose proof (RtRunQueue.iter_perm _ _ Hq) as Hit'.
    assert (RtRunQueue.iter (rt_rq m) ≡ₚ h :: RtRunQueue.iter q) as Hrt by (rewrite Hit, Hit', Hperm; done).
    apply (fetch_mark st m (set_rt m q) h); try done; [| |by eauto|apply Hi|].
    + unfold ready. cbn [rt_rq cfs_rq idle_rq set_rt]. by rewrite Hrt.
    + pose proof (perm_cons_ne _ _ _ Hrt). split_and!; try done. intros _. exists l, p.
      split_and!; try done. rewrite Hperm. left.
    + unfold fetch. by rewrite Hpick.
  - destruct Hsp as [-> ->]. apply Permutation_nil_r in Hit.
    pose proof (RtRunQueue.iter_perm _ _ Hq) as Hit'. apply Permutation_nil_r in Hit'.
    destruct (CfsRunQueue.pick_next (cfs_rq m)) as [[h|] q2] eqn:E2.
    + destruct (CfsRunQueue.inv_pick _ _ _ (i_cfs _ _ Hi) E2) as (k & Ht & Hi2 & _ & _ & Hf).
      apply (fetch_mark st m (set_cfs (set_rt m q) q2) h); try done; [| |by eauto| |].
      * unfold ready, CfsRunQueue.iter. cbn [rt_rq cfs_rq idle_rq set_rt set_cfs]. by rewrite Hit, Hit', Ht.
      * split_and!; [done| |intros _; unfold CfsRunQueue.iter; by rewrite Ht]. intros _ _. exists k. rewrite Ht.
        split; [left|]. intros k' h' Hin. apply elem_of_cons in Hin as [[= -> ->]|Hin]; [by left|right].
        rewrite Forall_forall in Hf. by apply (Hf (k', h')).
      * intros e He. cbn in He. rewrite Ht. by right.
      * unfold fetch. rewrite Hpick. cbn. by rewrite E2.
    + assert (CfsRunQueue.tasks (cfs_rq m) = [] /\ q2 = cfs_rq m) as [Ht ->].
      { unfold CfsRunQueue.pick_next in E2. destruct (CfsRunQueue.tasks (cfs_rq m)) as [|[? ?] ?]; split; congruence. }
      destruct (idle_rq m) as [|h r] eqn:E3.
      * exists None, (set_idle (set_cfs (set_rt m q) (cfs_rq m)) []). unfold fetch. rewrite Hpick. cbn. rewrite E2, E3.
        assert (ready m = []) as Hrd by (unfold ready, CfsRunQueue.iter; by rewrite Hit, Ht, E3).
        assert (ready (set_idle (set_cfs (set_rt m q) (cfs_rq m)) []) = []) as Hrd'
          by (unfold ready, CfsRunQueue.iter; cbn; by rewrite Hit', Ht).
        split_and!; try done. apply (inv_update st m); try done; cbn; try apply Hi; [by eauto|].
        exists []. unfold queued. by rewrite Hrd, Hrd'.
      * apply (fetch_mark st m (set_idle (set_cfs (set_rt m q) (cfs_rq m)) r) h); try done; [| |by eauto|apply Hi|].
        -- unfold ready, CfsRunQueue.iter. cbn [rt_rq cfs_rq idle_rq set_rt set_cfs set_idle].
           by rewrite Hit, Hit', Ht, E3.
        -- unfold is_next, CfsRunQueue.iter. rewrite Ht, E3, Hit. split_and!; done.
        -- unfold fetch. rewrite Hpick. cbn. by rewrite E2, E3.
Qed.

(** ** Waking *)

Lemma find_by_pid_first st m p : find_by_pid st m p = find_first (fun h => pid (st !!! h) =? p) (queued m).
Proof.
  unfold find_by_pid, queued, ready, RtRunQueue.find_by_pid, CfsRunQueue.find_by_pid, IdleRunQueue.find_by_pid.
  rewrite !find_first_app, RtRunQueue.find_queues_first. fold (RtRunQueue.iter (rt_rq m)).
  by repeat (destruct (find_first _ _); [done|]).
Qed.

(** Looking a task up by its pid finds it exactly when it is queued. *)
Lemma find_by_pid_self st m h : store_ok st -> inv st m -> is_Some (st !! h) ->
  find_by_pid st m (pid (st !!! h)) = if bool_decide (h ∈ queued m) then Some h else None.
Proof.
  intros Hs Hi [t Ht]. rewrite find_by_pid_first.
  assert (forall x, x ∈ queued m -> pid (st !!! x) = pid (st !!! h) -> x = h) as Hu.
  { intros x Hx Hp. destruct (i_dom _ _ Hi x Hx) as [t' Ht']. rewrite !lookup_total_alt, Ht, Ht' in Hp.
    by eapply so_pid. }
  destruct (find_first _ (queued m)) as [x|] eqn:E.
  - apply find_first_Some in E as [Hx Hp%Z.eqb_eq]. apply Hu in Hp as ->; [|done]. by rewrite bool_decide_true.
  - rewrite find_first_None in E. rewrite bool_decide_false; [done|]. intros Hx. specialize (E h Hx).
    by rewrite Z.eqb_refl in E.
Qed.

Lemma drop_ok st m h : inv st m -> inv st (drop_interruptible m h) /\ h ∉ interruptible_queue (drop_interruptible m h).
Proof.
  intros Hi. split.
  - apply (inv_update st m); try apply Hi; try done.
    exists (List.filter (fun x => x =? h) (interruptible_queue m)).
    unfold queued. change (ready (drop_interruptible m h)) with (ready m). cbn [drop_interruptible set_interruptible interruptible_queue].
    rewrite (filter_partition_perm (fun x => x =? h) (interruptible_queue m)) at 1.
    rewrite !app_assoc. apply Permutation_app_tail. apply Permutation_app_comm.
  - cbn. intros H. apply list_elem_of_In, filter_In in H as [_ H]. by rewrite Z.eqb_refl in H.
Qed.

Definition wake_post (st : tstore) (m : t) (h : Z) : Prop :=
  exists ok st' m', try_wake_interruptible st m h = Ret (ok, st', m') /\
    same_tasks st st' /\ store_ok st' /\ inv st' m' /\ ok = bool_decide (h ∉ ready m) /\
    ready m' ≡ₚ (if ok then [h] else []) ++ ready m /\
    interruptible_queue m' = List.filter (fun x => negb (x =? h)) (interruptible_queue m).

Lemma wake_ok st m h : store_ok st -> inv st m -> is_Some (st !! h) ->
  Z.of_nat (length (queued m)) + 1 < 2 ^ 64 -> wake_post st m h.
Proof.
  intros Hs Hi [tk Ht] Hlen. destruct (drop_ok st m h Hi) as [Hi1 Hd]. unfold wake_post, try_wake_interruptible.
  set (m1 := drop_interruptible m h) in *. change (ready m) with (ready m1).
  rewrite (find_by_pid_self st m1 h) by (done || eauto).
  assert (h ∈ queued m1 <-> h ∈ ready m1) as Hq by (unfold queued; rewrite elem_of_app; naive_solver).
  destruct (decide (h ∈ ready m1)) as [Hr|Hr].
  - rewrite (bool_decide_true (h ∈ queued m1)) by (by apply Hq). exists false, st, m1.
    rewrite bool_decide_false by (intros H; by apply H). split_and!; done.
  - rewrite (bool_decide_false (h ∈ queued m1)) by (by rewrite Hq). rewrite (bool_decide_true (h ∉ ready m1)) by done.
    destruct (manager_add_ok st m1 h tk Hs Hi1 Ht) as (st' & m' & Ha & Hp & Hs' & Hi' & Hrd & Hint); [by rewrite Hq| |].
    { unfold queued in *. change (ready m1) with (ready m). unfold m1. cbn [interruptible_queue drop_interruptible set_interruptible].
      rewrite length_app in *. pose proof (List.filter_length_le (fun x => negb (x =? h)) (interruptible_queue m)). lia. }
    rewrite Ha. cbn [mbind outcome_bind]. exists true, st', m'. split_and!; done.
Qed.

(** ** Reachable states *)

(** What happens to a manager and to the tasks: the manager's operations, and any
    change ([OpStore]) other code makes to tasks that keeps queued tasks alive with
    their pids and their entities in range. *)
Inductive op : Type :=
| OpAdd (h : Z) | OpFetch | OpSleep (h : Z) | OpWake (h : Z) | OpStore (st' : tstore).

Definition step (st : tstore) (m : t) (o : op) : outcome (tstore * t) :=
  match o with
  | OpAdd h => add st m h
  | OpFetch => '(_, m') ← fetch st m; Ret (st, m')
  | OpSleep h => Ret (st, add_interruptible m h)
  | OpWake h => wake_interruptible st m h
  | OpStore st' => Ret (st', m)
  end.

(** The contract of the manager's callers. A task is added or put to sleep only while it is
    in no queue, which [add] and [add_interruptible] do not check; the pids of fetched
    tasks are within the tracker. *)
Definition op_ok (st : tstore) (m : t) (o : op) : Prop :=
  Z.of_nat (length (queued m)) + 1 < 2 ^ 64 /\
  match o with
  | OpAdd h | OpSleep h => is_Some (st !! h) /\ h ∉ queued m
  | OpFetch => forall x, x ∈ ready m -> 0 <= pid (st !!! x) < 128
  | OpWake h => is_Some (st !! h)
  | OpStore st' => store_ok st' /\
      forall h, h ∈ queued m -> is_Some (st' !! h) /\ pid (st' !!! h) = pid (st !!! h)
  end.

Inductive reachable : tstore -> t -> Prop :=
| reach_new st : store_ok st -> reachable st new
| reach_step st m o st' m' : reachable st m -> op_ok st m o -> step st m o = Ret (st', m') ->
    reachable st' m'.

Lemma sleep_ok st m h : inv st m -> is_Some (st !! h) -> h ∉ queued m -> inv st (add_interruptible m h).
Proof.
  intros Hi Hd Hh. apply (inv_cons st m _ h); try done; try apply Hi. unfold queued.
  change (ready (add_interruptible m h)) with (ready m). cbn [add_interruptible set_interruptible interruptible_queue].
  rewrite !app_assoc. symmetry. apply Permutation_cons_append.
Qed.

(** Where the tasks of the queues are after an operation: exactly the task of the operation
    has moved. *)
Definition conserves (st : tstore) (m : t) (o : op) (m' : t) : Prop :=
  match o with
  | OpAdd h => ready m' ≡ₚ h :: ready m /\ interruptible_queue m' = interruptible_queue m
  | OpFetch => interruptible_queue m' = interruptible_queue m /\
      (fetch st m = Ret (None, m') /\ ready m = [] /\ ready m' = [] \/ exists h, fetch st m = Ret (Some h, m') /\ ready m ≡ₚ h :: ready m')
  | OpSleep h => ready m' = ready m /\ interruptible_queue m' = interruptible_queue m ++ [h]
  | OpWake h => ready m' ≡ₚ (if decide (h ∈ ready m) then [] else [h]) ++ ready m /\
      interruptible_queue m' = List.filter (fun x => negb (x =? h)) (interruptible_queue m)
  | OpStore _ => m' = m
  end.

Lemma manager_step_ok st m o : store_ok st -> inv st m -> op_ok st m o ->
  exists st' m', step st m o = Ret (st', m') /\ store_ok st' /\ inv st' m' /\ conserves st m o m'.
Proof.
  intros Hs Hi [Hl Ho]. destruct o as [h| |h|h|st2]; cbn [step].
  - destruct Ho as [[tk Ht] Hn]. destruct (manager_add_ok st m h tk) as (st' & m' & Ha & _ & Hs' & Hi' & Hc); eauto.
    by exists st', m'.
  - destruct (fetch_ok st m Hi Ho) as (o & m' & Hf & Hi' & Hint & Hr). rewrite Hf. exists st, m'. split_and!; try done.
    split; [done|]. destruct o as [h|]; [right; exists h; split; [done|apply Hr]|by left].
  - destruct Ho as [Hd Hn]. exists st, (add_interruptible m h). split_and!; [done..|by apply sleep_ok|done].
  - destruct (wake_ok st m h Hs Hi Ho Hl) as (ok & st' & m' & Hw & _ & Hs' & Hi' & -> & Hr & Hint).
    unfold wake_interruptible. rewrite Hw. exists st', m'. split_and!; try done. split; [|done]. rewrite Hr.
    destruct (decide (h ∈ ready m)); [by rewrite bool_decide_false by (intros H; by apply H)|by rewrite bool_decide_true].
  - destruct Ho as [Hs2 Hk]. exists st2, m. split_and!; try done. destruct Hi as [H1 H2 H3 H4 H5 H6]. constructor; try done.
    + intros k h Hin. rewrite (H3 k h Hin). symmetry. apply Hk. apply elem_of_app. left. unfold ready.
      rewrite !elem_of_app. right. left. unfold CfsRunQueue.iter. apply list_elem_of_fmap. by exists (k, h).
    + intros h Hh. by apply Hk.
Qed.

Lemma manager_reachable_inv st m : reachable st m -> store_ok st /\ inv st m.
Proof.
  induction 1 as [st Hs|st m o st' m' Hr [Hs Hi] Ho Hstep]; [split; [done|apply manager_inv_new]|].
  destruct (manager_step_ok st m o Hs Hi Ho) as (st1 & m1 & H1 & ? & ? & _). rewrite H1 in Hstep. by injection Hstep as <- <-.
Qed.

Lemma total_count_ok st m : inv st m -> Z.of_nat (length (queued m)) < 2 ^ 64 ->
  total_count m = Z.of_nat (length (ready m)).
Proof.
  intros Hi Hl. destruct (i_rt _ _ Hi) as [l Hrt]. pose proof (Permutation_length (RtRunQueue.iter_perm _ _ Hrt)) as E.
  rewrite length_fmap in E. pose proof (RtRunQueue.r_count _ _ Hrt). pose proof (CfsRunQueue.inv_count _ (i_cfs _ _ Hi)).
  unfold total_count, queued, ready, RtRunQueue.len, CfsRunQueue.len, IdleRunQueue.len, CfsRunQueue.iter in *.
  rewrite !length_app, length_fmap in *.
  rewrite !add64_small; unfold in_range; rewrite ?add64_small; unfold in_range; lia.
Qed.

(** C33: no task is lost or duplicated by a task manager that is used within its contract:
    a task is added or put to sleep only while it is in no queue of this manager, the tasks
    that are ready at a fetch have pids below 128 (the size of the tracker), fewer than
    2^64 tasks are queued, and other code that changes tasks keeps queued ones alive with
    their pids, distinct, and with their scheduling parameters in range. (The code does not
    check the first condition; callers that break it queue a task twice.) In every state
    reached so by adding, fetching, putting to sleep and waking tasks, no task is in two
    queues or twice in one, [total_count] counts the ready tasks, and looking a task up by
    its pid finds it exactly when it is queued. Every further operation within the contract
    returns without panic and moves exactly its task: [add] makes it ready and removes
    none, a fetch removes the one it returns, or none when nothing is ready, a task put to
    sleep joins the sleeping queue, and a wake takes it from there and makes it ready
    unless it was. *)
Theorem manager_no_duplicates st m : reachable st m ->
  Z.of_nat (length (queued m)) + 1 < 2 ^ 64 ->
  NoDup (queued m) /\ total_count m = Z.of_nat (length (ready m)) /\
  (forall h, is_Some (st !! h) ->
     find_by_pid st m (pid (st !!! h)) = if bool_decide (h ∈ queued m) then Some h else None) /\
  (forall o, op_ok st m o -> exists st' m', step st m o = Ret (st', m') /\ conserves st m o m' /\ reachable st' m').
Proof.
  intros Hr Hl. destruct (manager_reachable_inv st m Hr) as [Hs Hi]. split_and!.
  - apply Hi.
  - apply (total_count_ok st m Hi). lia.
  - intros h Hh. by apply find_by_pid_self.
  - intros o Ho. destruct (manager_step_ok st m o Hs Hi Ho) as (st' & m' & H1 & _ & _ & Hc). exists st', m'.
    split; [done|]. split; [done|]. by eapply reach_step.
Qed.

(** [fetch] schedules by class. In every reachable state whose ready tasks have
    pids within the tracker it returns [None] only if nothing is ready; otherwise it
    removes exactly one task, a real-time task of the greatest priority if there is a
    real-time task, else the CFS task with the least (vruntime, pid), else the oldest
    idle task, and that task is marked active. *)
Theorem fetch_by_class st m : reachable st m -> (forall x, x ∈ ready m -> 0 <= pid (st !!! x) < 128) ->
  exists o m', fetch st m = Ret (o, m') /\ interruptible_queue m' = interruptible_queue m /\
  match o with
  | None => ready m = []
  | Some h => ready m ≡ₚ h :: ready m' /\ is_next m h /\
      ActiveTracker.check_active (active_tracker m') (pid (st !!! h)) = Ret true
  end.
Proof.
  intros Hr Hp. destruct (manager_reachable_inv st m Hr) as [Hs Hi].
  destruct (fetch_ok st m Hi Hp) as (o & m' & Hf & _ & Hint & Ho). exists o, m'. split_and!; try done.
  destruct o; [done|apply Ho].
Qed.

(** [try_wake_interruptible] takes the task off the sleeping queue; if the task
    was not ready it becomes ready exactly once and the answer is [Ok], otherwise the
    answer is [AlreadyWaken] and the ready tasks are unchanged. *)
Theorem wake_contract st m h : reachable st m -> is_Some (st !! h) ->
  Z.of_nat (length (queued m)) + 1 < 2 ^ 64 ->
  exists ok st' m', try_wake_interruptible st m h = Ret (ok, st', m') /\
    ok = bool_decide (h ∉ ready m) /\ ready m' ≡ₚ (if ok then [h] else []) ++ ready m /\
    interruptible_queue m' = List.filter (fun x => negb (x =? h)) (interruptible_queue m).
Proof.
  intros Hr Hh Hl. destruct (manager_reachable_inv st m Hr) as [Hs Hi].
  destruct (wake_ok st m h Hs Hi Hh Hl) as (ok & st' & m' & Hw & _ & _ & _ & H1 & H2 & H3).
  by exists ok, st', m'.
Qed.

(** ** Reclaiming memory *)

Section Reclaim.
Context {V : Type} (P : V -> Prop) (free : V -> Z).
Hypothesis (Hfree : forall v, P v -> 0 <= free v < 2 ^ 64).

(** Cleaning a task returns, keeps [P] and takes no frame; an [exact] one frees what it reports. *)
Definition reclaims (exact : bool) (clean : V -> outcome (Z * V)) : Prop :=
  forall v, P v -> exists n v', clean v = Ret (n, v') /\ P v' /\ 0 <= n /\ free v <= free v' /\ (exact = true -> free v' = free v + n).
Definition pids_ok (st : tstore) (l : list Z) : Prop := Forall (fun h => 0 <= pid (st !!! h) < 128) l.
(** [released] frames were reported between [v0] and [v]. *)
Definition counted (exact : bool) (v0 v : V) (released : Z) : Prop := (0 <= released /\ 0 <= free v0 <= free v) /\ (exact = true -> released = free v - free v0).

Lemma oom_pass_ok st b clean req exact : ActiveTracker.wf b -> forall tasks, pids_ok st tasks -> Forall (fun h => reclaims exact (clean h)) tasks ->
  forall v0 cleaned released v, P v -> Forall (fun p => 0 <= p < 128) cleaned -> counted exact v0 v released ->
  exists cleaned' released' v', oom_pass st b clean req tasks cleaned released v = Ret (cleaned', released', v') /\ P v' /\
    Forall (fun p => 0 <= p < 128) cleaned' /\ counted exact v0 v' released'.
Proof using Hfree.
  intros Hb. induction tasks as [|h tasks IH]; intros Hp Hc v0 cleaned released v Hv Hcl Hr; cbn [oom_pass]; [by eexists _, _, _|].
  apply Forall_cons in Hp as [Hh Hp]. apply Forall_cons in Hc as [Hch Hc]. rewrite ActiveTracker.check_active_ok by done. cbn [mbind outcome_bind].
  destruct (bv_test 64 b (pid (st !!! h))); [|by apply IH]. destruct (Hch v Hv) as (n & v' & -> & Hv' & Hn & Hle & Hex). cbn [mbind outcome_bind].
  pose proof (Hfree v Hv) as F1. pose proof (Hfree v' Hv') as F2. destruct Hr as [H0 Hr].
  assert (forall r, r = released ⊕ n \/ n = 0 /\ r = released -> counted exact v0 v' r) as Hr'.
  { assert (0 <= released ⊕ n) by (apply (wrap_range 64); lia). intros r [->|[-> ->]]; (split; [lia|]); intros E; specialize (Hex E); specialize (Hr E); [|lia]. rewrite add64_small by (unfold in_range; lia). lia. }
  destruct (Z.ltb_spec 0 n) as [Hpos|Hz].
  - assert (Forall (fun p => 0 <= p < 128) (cleaned ++ [pid (st !!! h)])) by (apply Forall_app; split; [done|by apply Forall_singleton]).
    destruct (req <=? released ⊕ n); [eexists _, _, _; split_and!; try done; apply Hr'; by left|]. apply IH; try done. apply Hr'. by left.
  - assert (n = 0) as -> by lia. assert (counted exact v0 v' released) by (apply Hr'; by right).
    destruct (req <=? released); [by eexists _, _, _|]. by apply IH.
Qed.
Lemma mark_all_inactive_ok l : forall b, ActiveTracker.wf b -> Forall (fun p => 0 <= p < 128) l -> exists b', mark_all_inactive b l = Ret b' /\ ActiveTracker.wf b'.
Proof.
  induction l as [|p l IH]; intros b Hb Hl; cbn [mark_all_inactive]; [by eexists|]. apply Forall_cons in Hl as [Hp Hl].
  destruct (ActiveTracker.mark_inactive_ok b p Hb Hp) as (b1 & -> & Hb1). cbn [mbind outcome_bind]. by apply IH.
Qed.

(** [do_oom_local] returns and leaves the queues alone. When no task sleeps it frees what it reports. *)
Lemma do_oom_local_ok deep shallow st m req v : ActiveTracker.wf (active_tracker m) -> pids_ok st (queued m) ->
  Forall (fun h => reclaims false (deep h)) (interruptible_queue m) -> Forall (fun h => reclaims true (shallow h)) (CfsRunQueue.iter (cfs_rq m)) -> P v ->
  exists n b v', do_oom_local deep shallow st m req v = Ret (n, set_tracker m b, v') /\ ActiveTracker.wf b /\ P v' /\ 0 <= n /\ free v <= free v' /\
    (interruptible_queue m = [] -> free v' = free v + n).
Proof using Hfree.
  intros Hb Hp Hd Hs Hv. unfold do_oom_local. pose proof (Hfree v Hv) as H0. unfold pids_ok, queued, ready in Hp. rewrite !Forall_app in Hp. destruct Hp as [(_ & Hpc & _) Hpi].
  set (none := bool_decide (interruptible_queue m = [])). assert (Forall (fun h => reclaims none (deep h)) (interruptible_queue m)) as Hd'.
  { unfold none. case_bool_decide as E; [rewrite E; constructor|done]. }
  assert (Forall (fun h => reclaims none (shallow h)) (CfsRunQueue.iter (cfs_rq m))) as Hs'.
  { eapply Forall_impl; [exact Hs|]. intros h Hh v1 H1. destruct (Hh v1 H1) as (n & v2 & ? & ? & ? & ? & Hx). exists n, v2. split_and!; try done. intros _. by apply Hx. }
  destruct (oom_pass_ok st _ deep req none Hb _ Hpi Hd' v [] 0 v Hv) as (cl & rel & v1 & -> & Hv1 & Hcl & Hc1); [constructor|split; [lia|intros _; lia]|]. cbn [mbind outcome_bind].
  assert (forall l, Forall (fun p => 0 <= p < 128) l -> Forall (fun p => 0 <= p < 128) (reverse l)) as Hrev by (intros l; by apply Forall_reverse).
  assert (forall w r, counted none v w r -> 0 <= r /\ free v <= free w /\ (interruptible_queue m = [] -> free w = free v + r)) as Hend.
  { intros w r [H1 H2]. split; [lia|]. split; [lia|]. intros E. unfold none in H2. rewrite (H2 (bool_decide_eq_true_2 _ E)). lia. }
  destruct (req <=? rel).
  - destruct (mark_all_inactive_ok (reverse cl) _ Hb (Hrev _ Hcl)) as (b & -> & Hwb). cbn [mbind outcome_bind]. eexists _, b, _. split; [done|]. split; [done|]. split; [done|]. by apply Hend.
  - destruct (oom_pass_ok st _ shallow req none Hb _ Hpc Hs' v cl rel v1 Hv1 Hcl Hc1) as (cl2 & rel2 & v2 & -> & Hv2 & Hcl2 & Hc2). cbn [mbind outcome_bind].
    destruct (mark_all_inactive_ok (reverse cl2) _ Hb (Hrev _ Hcl2)) as (b & -> & Hwb). cbn [mbind outcome_bind]. eexists _, b, _. split; [done|]. split; [done|]. split; [done|]. by apply Hend.
Qed.
End Reclaim.

(** ** A manager with one task of each class *)

Lemma store_ok_check st :
  map_Forall (fun h t => pid t = h /\ 0 <= SchedEntity.vruntime (sched_entity t) <= usize_max /\
    0 <= SchedEntity.rt_priority (sched_entity t) < 256 /\
    (is_realtime (SchedEntity.policy (sched_entity t)) = false \/ 1 <= SchedEntity.rt_priority (sched_entity t))) st ->
  store_ok st.
Proof.
  intros H. constructor.
  - intros h1 h2 t1 t2 H1 H2 Hp. destruct (H _ _ H1) as [<- _], (H _ _ H2) as [<- _]. done.
  - intros h t Ht. by destruct (H _ _ Ht) as (_ & ? & _).
  - intros h t Ht. by destruct (H _ _ Ht) as (_ & _ & ? & _).
  - intros h t Ht Hr. destruct (H _ _ Ht) as (_ & _ & _ & [?|?]); [congruence|done].
Qed.

Definition demo_task (p : Z) (e : SchedEntity.t) : tcb := Tcb p p false TASK_NOT_RUNNING Ready 0x80200000 e.
Definition demo_st : tstore :=
  {[1 := demo_task 1 (SchedEntity.new_rt Fifo 10); 2 := demo_task 2 SchedEntity.default;
    3 := demo_task 3 (SchedEntity.set_policy SchedEntity.default Idle 0);
    4 := demo_task 4 SchedEntity.default]}.
Definition demo_ops : list op := [OpAdd 3; OpAdd 2; OpAdd 1; OpSleep 4].

Fixpoint steps (st : tstore) (m : t) (ops : list op) : outcome (tstore * t) :=
  match ops with
  | [] => Ret (st, m)
  | o :: r => '(st', m') ← step st m o; steps st' m' r
  end.

Lemma steps_reachable ops : forall st m st' m', reachable st m -> steps st m ops = Ret (st', m') ->
  (forall l1 o l2 st1 m1, ops = l1 ++ o :: l2 -> steps st m l1 = Ret (st1, m1) -> op_ok st1 m1 o) ->
  reachable st' m'.
Proof.
  induction ops as [|o ops IH]; intros st m st' m' Hr Hs Ho; cbn in Hs; [by injection Hs as <- <-|].
  apply bind_ret_inv in Hs as ([st1 m1] & H1 & H2). apply (IH st1 m1); try done.
  - eapply reach_step; [done| |done]. by apply (Ho [] o ops).
  - intros l1 o' l2 st2 m2 -> Hs2. apply (Ho (o :: l1) o' l2); [done|]. cbn. by rewrite H1.
Qed.

Definition demo : tstore * t := Eval vm_compute in
  match steps demo_st new demo_ops with Ret x => x | Panic => (demo_st, new) end.

Lemma manager_demo_reachable : reachable (fst demo) (snd demo).
Proof.
  assert (store_ok demo_st) as Hs.
  { apply store_ok_check, (bool_decide_eq_true_1 _). vm_compute. reflexivity. }
  apply (steps_reachable demo_ops demo_st new); [by apply reach_new|by vm_compute|].
  intros l1 o l2 st1 m1 Hl H1.
  do 4 (destruct l1 as [|? l1]; [injection Hl as <- _; injection H1 as <- <-; (split;
    [vm_compute; reflexivity|split; [vm_compute; eauto|apply (bool_decide_eq_true_1 _); vm_compute; reflexivity]])
    |injection Hl as <- Hl]).
  by destruct l1.
Qed.

(** On the demonstration manager. *)
Lemma manager_no_duplicates_witness :
  let st := fst demo in let m := snd demo in
  queued m = [1; 2; 3; 4] /\ NoDup (queued m) /\ total_count m = Z.of_nat (length (ready m)) /\
  (forall h, is_Some (st !! h) ->
     find_by_pid st m (pid (st !!! h)) = if bool_decide (h ∈ queued m) then Some h else None) /\
  (forall o, op_ok st m o -> exists st' m', step st m o = Ret (st', m') /\ conserves st m o m' /\ reachable st' m').
Proof.
  split; [reflexivity|].
  apply (manager_no_duplicates (fst demo) (snd demo)); [exact manager_demo_reachable|vm_compute; reflexivity].
Defined.

(** On the demonstration manager. *)
Lemma fetch_by_class_witness :
  let st := fst demo in let m := snd demo in
  exists o m', fetch st m = Ret (o, m') /\ interruptible_queue m' = interruptible_queue m /\
  match o with
  | None => ready m = []
  | Some h => ready m ≡ₚ h :: ready m' /\ is_next m h /\
      ActiveTracker.check_active (active_tracker m') (pid (st !!! h)) = Ret true
  end.
Proof.
  apply (fetch_by_class (fst demo) (snd demo)); [exact manager_demo_reachable|].
  intros x Hx. assert (x = 1 \/ x = 2 \/ x = 3) as [->|[->| ->]]; [|vm_compute; split; congruence..].
  change (x ∈ [1; 2; 3]) in Hx. apply list_elem_of_In in Hx. cbn in Hx. naive_solver.
Defined.

(** On the sleeping task of the demonstration manager. *)
Lemma wake_contract_witness :
  let st := fst demo in let m := snd demo in
  exists ok st' m', try_wake_interruptible st m 4 = Ret (ok, st', m') /\
    ok = bool_decide (4 ∉ ready m) /\ ready m' ≡ₚ (if ok then [4] else []) ++ ready m /\
    interruptible_queue m' = List.filter (fun x => negb (x =? 4)) (interruptible_queue m).
Proof.
  apply (wake_contract (fst demo) (snd demo)); [exact manager_demo_reachable|vm_compute; eauto|vm_compute; reflexivity].
Defined.

(** The tracker has a bit for 128 pids and nothing keeps pids below that: fetching a
    ready task with a greater pid panics. *)
Lemma fetch_large_pid_panics st m h q : ActiveTracker.wf (active_tracker m) ->
  RtRunQueue.pick_next (rt_rq m) = Ret (Some h, q) -> 128 <= pid (st !!! h) -> fetch st m = Panic.
Proof.
  intros Hw Hq Hp. unfold fetch. rewrite Hq. cbn. unfold mark. cbn [active_tracker set_rt].
  by rewrite ActiveTracker.mark_active_panics.
Qed.

End TaskManager.

(** * The managers of all CPUs *)
Module Managers.
Import TaskManager.

Record t : Type := Mk { st : tstore; managers : list TaskManager.t }.

(** [TASK_MANAGERS], and the tasks. *)
Definition init (s : tstore) : t := Mk s (replicate (Z.to_nat MAX_CPU_NUM) TaskManager.new).

(** An operation on one manager, behind its lock. *)
Definition with_manager {A} (s : t) (cpu : Z)
    (f : tstore -> TaskManager.t -> outcome (A * tstore * TaskManager.t)) : outcome (A * t) :=
  m ← index (managers s) cpu;
  '(a, st', m') ← f (st s) m;
  ms ← store (managers s) cpu m';
  Ret (a, Mk st' ms).

Definition add_on (s : t) (cpu task : Z) : outcome t :=
  '(_, s') ← with_manager s cpu (fun st m => '(st', m') ← add st m task; Ret (tt, st', m')); Ret s'.

(** [free]: whether [try_lock] on the task's last CPU succeeds. *)
Definition add_task (s : t) (current_cpu : Z) (free : bool) (task : Z) : outcome t :=
  let last_cpu := SchedEntity.last_cpu (sched_entity (st s !!! task)) in
  if (last_cpu <? MAX_CPU_NUM) && negb (last_cpu =? current_cpu) && free
  then add_on s last_cpu task
  else add_on s current_cpu task.

Definition add_task_to_cpu (s : t) (current_cpu task cpu_id : Z) : outcome t :=
  if cpu_id <? MAX_CPU_NUM then add_on s cpu_id task else add_on s current_cpu task.

Definition fetch_task (s : t) (cpu_id : Z) : outcome (option Z * t) :=
  rust_assert (cpu_id <? MAX_CPU_NUM) ;;
  with_manager s cpu_id (fun st m => '(o, m') ← fetch st m; Ret (o, st, m')).

Fixpoint first_some (f : TaskManager.t -> option Z) (ms : list TaskManager.t) : option Z :=
  match ms with
  | [] => None
  | m :: r => match f m with Some h => Some h | None => first_some f r end
  end.

(** [current]: the task running on this CPU. *)
Definition find_task_by_pid (s : t) (current : option Z) (p : Z) : option Z :=
  match current with
  | Some h => if pid (st s !!! h) =? p then Some h else first_some (fun m => find_by_pid (st s) m p) (managers s)
  | None => first_some (fun m => find_by_pid (st s) m p) (managers s)
  end.
Definition find_task_by_tgid (s : t) (current : option Z) (g : Z) : option Z :=
  match current with
  | Some h => if tgid (st s !!! h) =? g then Some h else first_some (fun m => find_by_tgid (st s) m g) (managers s)
  | None => first_some (fun m => find_by_tgid (st s) m g) (managers s)
  end.

Definition sleep_interruptible (s : t) (cpu_id task : Z) : outcome t :=
  '(_, s') ← with_manager s cpu_id (fun st m => Ret (tt, st, add_interruptible m task)); Ret s'.

(** One pass over all managers; [free] says which locks [try_lock] obtains. The answer
    says whether the function returns or spins once more. *)
Fixpoint wake_pass (s : t) (task : Z) (cpus : list Z) (free : Z -> bool) (all_checked : bool)
    : outcome (bool * t) :=
  match cpus with
  | [] => Ret (all_checked, s)
  | cpu :: r =>
      if free cpu then
        '(ok, s') ← with_manager s cpu (fun st m => try_wake_interruptible st m task);
        if (ok : bool) then Ret (true, s') else wake_pass s' task r free all_checked
      else wake_pass s task r free false
  end.

Definition all_cpus (s : t) : list Z := map Z.of_nat (seq 0 (length (managers s))).

(** The retry loop; [free] gives the outcomes of [try_lock] per round and [others]
    what the other CPUs do between two rounds. [None] is a loop still spinning. *)
Fixpoint wake_interruptible (rounds : list ((Z -> bool) * (t -> t))) (s : t) (task : Z) : outcome (option t) :=
  match rounds with
  | [] => Ret None
  | (free, others) :: r =>
      '(done, s') ← wake_pass s task (all_cpus s) free true;
      if (done : bool) then Ret (Some s') else wake_interruptible r (others s') task
  end.

Definition procs_count (s : t) : Z :=
  foldl (fun total m => wrap 16 (total + wrap 16 (ready_count m + interruptible_count m))) 0 (managers s).

(** [exit_group_and_run_next]: the loop that pops each sleeping task once and pushes
    the tasks of other groups back; [remain] is the length of the queue. *)
Fixpoint rotate (s : tstore) (g : Z) (remain : nat) (q exit_list : list Z) : list Z * list Z :=
  match q with
  | [] => (exit_list, [])
  | h :: r =>
      let '(ex, q') := if tgid (s !!! h) =? g then (exit_list ++ [h], r) else (exit_list, r ++ [h]) in
      match remain with
      | S (S _ as n) => rotate s g n q' ex
      | _ => (ex, q')
      end
  end.

(** The threads taken out of the queues of one manager, then of all managers. *)
Definition take_group (s : tstore) (g : Z) (m : TaskManager.t) (exit_list : list Z) : list Z * TaskManager.t :=
  let '(removed, q) := CfsRunQueue.remove_by_tgid s (cfs_rq m) g in
  let '(ex, sleeping) :=
    rotate s g (length (interruptible_queue m)) (interruptible_queue m) (exit_list ++ removed) in
  (ex, set_interruptible (set_cfs m q) sleeping).

Fixpoint collect_group (s : tstore) (g : Z) (ms : list TaskManager.t) (exit_list : list Z)
    : list Z * list TaskManager.t :=
  match ms with
  | [] => (exit_list, [])
  | m :: r =>
      let '(ex, m') := take_group s g m exit_list in
      let '(ex', r') := collect_group s g r ex in (ex', m' :: r')
  end.

Section ExitGroup.
Context (s : tstore) (g : Z).
Let inside (h : Z) : bool := tgid (s !!! h) =? g.
Let outside (h : Z) : bool := negb (tgid (s !!! h) =? g).

Lemma rotate_ok a : forall b ex, a <> [] ->
  rotate s g (length a) (a ++ b) ex = (ex ++ List.filter inside a, b ++ List.filter outside a).
Proof.
  induction a as [|h a IH]; intros b ex Hne; [done|]. cbn [length app rotate List.filter].
  unfold inside at 1, outside at 1. destruct a as [|h2 a].
  - cbn. destruct (tgid (s !!! h) =? g); cbn; by rewrite ?app_nil_r.
  - destruct (tgid (s !!! h) =? g); cbn [length negb]; change (S (length a)) with (length (h2 :: a)).
    + rewrite (IH b (ex ++ [h])) by done. by rewrite <- app_assoc.
    + rewrite <- app_assoc. rewrite (IH (b ++ [h]) ex) by done. by rewrite <- app_assoc.
Qed.

Lemma rotate_all q ex :
  rotate s g (length q) q ex = (ex ++ List.filter inside q, List.filter outside q).
Proof.
  destruct q as [|h q]; [cbn; by rewrite app_nil_r|]. rewrite <- (app_nil_r (h :: q)) at 2.
  by rewrite (rotate_ok (h :: q) [] ex).
Qed.

(** What is left of one manager, and what was taken from it. *)
Definition without_group (m m' : TaskManager.t) : Prop :=
  CfsRunQueue.iter (cfs_rq m') = List.filter outside (CfsRunQueue.iter (cfs_rq m)) /\
  interruptible_queue m' = List.filter outside (interruptible_queue m) /\
  rt_rq m' = rt_rq m /\ idle_rq m' = idle_rq m /\ active_tracker m' = active_tracker m.
Definition group_of (m : TaskManager.t) : list Z :=
  List.filter inside (CfsRunQueue.iter (cfs_rq m)) ++ List.filter inside (interruptible_queue m).

Lemma take_group_ok m ex : CfsRunQueue.inv (cfs_rq m) ->
  let '(ex', m') := take_group s g m ex in
  ex' ≡ₚ ex ++ group_of m /\ without_group m m' /\ CfsRunQueue.inv (cfs_rq m').
Proof.
  intros Hi. unfold take_group. pose proof (CfsRunQueue.remove_by_tgid_ok s (cfs_rq m) g Hi) as H.
  destruct (CfsRunQueue.remove_by_tgid s (cfs_rq m) g) as [removed q]. destruct H as (Hi' & Hp & Hit & _).
  rewrite rotate_all. split_and!; try done. unfold group_of, inside. by rewrite Hp, <- !app_assoc.
Qed.

(** A group exit collects every thread of the group that waits in a CFS queue or
    sleeps, on any CPU, each as often as it was queued, and leaves exactly the other
    tasks, in their order; the real-time and idle queues are left as they are. *)
Theorem exit_group_collects ms : Forall (fun m => CfsRunQueue.inv (cfs_rq m)) ms -> forall ex,
  let '(ex', ms') := collect_group s g ms ex in
  ex' ≡ₚ ex ++ mjoin (map group_of ms) /\ Forall2 without_group ms ms'.
Proof.
  induction 1 as [|m ms Hm Hms IH]; intros ex; cbn [collect_group]; [cbn; by rewrite app_nil_r|].
  pose proof (take_group_ok m ex Hm) as H. destruct (take_group s g m ex) as [ex1 m1].
  destruct H as (Hp & Hw & _). specialize (IH ex1). destruct (collect_group s g ms ex1) as [ex2 ms2].
  destruct IH as [Hp2 Hf2]. split; [|by constructor]. rewrite Hp2, Hp. cbn. by rewrite <- app_assoc.
Qed.
End ExitGroup.

(** On two CPUs. *)
Lemma exit_group_collects_witness :
  let ms := [snd demo; TaskManager.new] in
  let '(ex', ms') := collect_group demo_st 2 ms [] in
  ex' ≡ₚ [] ++ mjoin (map (group_of demo_st 2) ms) /\ Forall2 (without_group demo_st 2) ms ms'.
Proof.
  apply exit_group_collects. constructor; [|constructor; [apply CfsRunQueue.cfs_inv_new|constructor]].
  apply (i_cfs (fst demo)). exact (proj2 (manager_reachable_inv _ _ manager_demo_reachable)).
Defined.

(** A real-time thread of the exiting group stays queued. *)
Example exit_group_leaves_rt :
  let '(ex, ms) := collect_group demo_st 1 [snd demo] [] in (ex, map ready ms) = ([], [[1; 2; 3]]).
Proof. reflexivity. Qed.

(** ** Waking on any CPU *)

Record inv (s : t) : Prop := {
  mi_store : store_ok (st s);
  mi_managers : Forall (TaskManager.inv (st s)) (managers s);
}.
(** Room for [n] more tasks in every queue. *)
Definition room (n : Z) (s : t) : Prop :=
  Forall (fun m => Z.of_nat (length (queued m)) + n < 2 ^ 64) (managers s).
Definition in_ready (s : t) (h : Z) : Prop := exists m, m ∈ managers s /\ h ∈ ready m.

(** What a wake-up may change; [ok] if it queued a task. *)
Record woken (s : t) (ok : bool) (s' : t) : Prop := {
  w_tasks : same_tasks (st s) (st s');
  w_inv : inv s';
  w_len : length (managers s') = length (managers s);
  w_room : forall n, room (n + Z.b2z ok) s -> room n s';
  w_ready : forall x, in_ready s x -> in_ready s' x;
}.

Lemma Forall_managers (P : TaskManager.t -> Prop) ms cpu m : Forall P ms -> P m ->
  Forall P (<[Z.to_nat cpu := m]> ms).
Proof. intros. by apply Forall_insert. Qed.

Lemma try_wake_on s cpu h : inv s -> room 1 s -> 0 <= cpu < Z.of_nat (length (managers s)) ->
  is_Some (st s !! h) ->
  exists ok s', with_manager s cpu (fun st m => try_wake_interruptible st m h) = Ret (ok, s') /\
    woken s ok s' /\ in_ready s' h.
Proof.
  intros [Hs Hm] Hroom Hcpu Hh. unfold with_manager.
  destruct (index_lt (managers s) cpu) as (m & -> & Hlk); [lia|]. cbn [mbind outcome_bind].
  pose proof (Forall_lookup_1 _ _ _ _ Hm Hlk) as Hi. pose proof (Forall_lookup_1 _ _ _ _ Hroom Hlk) as Hr. cbn in Hr.
  destruct (wake_ok (st s) m h Hs Hi Hh Hr) as (ok & st' & m' & -> & Ht & Hs' & Hi' & Hok & Hrd & Hint).
  cbn [mbind outcome_bind]. rewrite store_lt by lia. cbn [mbind outcome_bind]. exists ok, (Mk st' (<[Z.to_nat cpu := m']> (managers s))).
  assert (m' ∈ <[Z.to_nat cpu := m']> (managers s)) as Hin
    by (apply list_elem_of_lookup; exists (Z.to_nat cpu); apply list_lookup_insert_eq; lia).
  assert (forall x, x ∈ ready m -> x ∈ ready m') as Hsub by (intros x Hx; rewrite Hrd; apply elem_of_app; by right).
  split_and!; [done|constructor; cbn; try done|].
  - constructor; cbn; [done|]. apply Forall_managers; [|done].
    apply (Forall_impl _ _ _ Hm). intros x. by apply inv_same_tasks.
  - by rewrite length_insert.
  - intros n Hn. unfold room in *. cbn. apply Forall_managers; [apply (Forall_impl _ _ _ Hn); cbn; intros; destruct ok; cbn in *; lia|].
    pose proof (Forall_lookup_1 _ _ _ _ Hn Hlk) as Hq. cbn in Hq. unfold queued in *. rewrite length_app in *.
    cbn in Hq. rewrite (Permutation_length Hrd), length_app, Hint.
    pose proof (List.filter_length_le (fun x => negb (x =? h)) (interruptible_queue m)). destruct ok; cbn in *; lia.
  - intros x (m0 & H0 & Hx). apply list_elem_of_lookup in H0 as [i H0].
    destruct (decide (i = Z.to_nat cpu)) as [->|Hne].
    + exists m'. split; [done|]. apply Hsub. congruence.
    + exists m0. split; [|done]. cbn. apply list_elem_of_lookup. exists i. by rewrite list_lookup_insert_ne.
  - exists m'. split; [done|]. rewrite Hrd, Hok. case_bool_decide as E; [apply elem_of_app; left; left|].
    apply elem_of_app. by right.
Qed.

Lemma woken_trans s1 s2 s3 ok : woken s1 false s2 -> woken s2 ok s3 -> woken s1 ok s3.
Proof.
  intros [A1 A2 A3 A4 A5] [B1 B2 B3 B4 B5]. constructor.
  - intros x. trans (core_of <$> st s2 !! x); [apply A1|apply B1].
  - done.
  - congruence.
  - intros n Hn. apply B4, A4. cbn. by rewrite Z.add_0_r.
  - naive_solver.
Qed.

Lemma woken_refl s : inv s -> woken s false s.
Proof. intros H. constructor; try done. intros n Hn. cbn in Hn. by rewrite Z.add_0_r in Hn. Qed.

Lemma same_tasks_dom st1 st2 h : same_tasks st1 st2 -> is_Some (st1 !! h) -> is_Some (st2 !! h).
Proof. intros H [t Ht]. specialize (H h). rewrite Ht in H. destruct (st2 !! h); [done|discriminate]. Qed.

Lemma wake_pass_ok h cpus : forall s, inv s -> room 1 s -> is_Some (st s !! h) ->
  (forall cpu, cpu ∈ cpus -> 0 <= cpu < Z.of_nat (length (managers s))) ->
  exists ok s', wake_pass s h cpus (fun _ => true) true = Ret (true, s') /\ woken s ok s'.
Proof.
  induction cpus as [|cpu cpus IH]; intros s Hi Hr Hh Hc; cbn [wake_pass].
  { exists false, s. split; [done|by apply woken_refl]. }
  destruct (try_wake_on s cpu h) as (ok & s1 & -> & Hw & _); [done..|apply Hc; left|done|].
  cbn [mbind outcome_bind]. destruct ok; [by exists true, s1|].
  destruct (IH s1) as (ok & s' & Hp & Hw').
  - apply Hw.
  - apply (w_room _ _ _ Hw). cbn. by rewrite Z.add_0_r.
  - apply (same_tasks_dom _ _ _ (w_tasks _ _ _ Hw) Hh).
  - intros c Hin. rewrite (w_len _ _ _ Hw). apply Hc. by right.
  - exists ok, s'. split; [done|]. by eapply woken_trans.
Qed.

(** Without contention the retry loop ends in its first round. *)
Lemma wake_uncontended s h others r : inv s -> room 1 s -> is_Some (st s !! h) ->
  exists ok s', wake_interruptible ((fun _ => true, others) :: r) s h = Ret (Some s') /\ woken s ok s'.
Proof.
  intros Hi Hr Hh. destruct (wake_pass_ok h (all_cpus s) s) as (ok & s' & Hp & Hw); [done..| |].
  { intros cpu Hin. unfold all_cpus in Hin. apply list_elem_of_fmap in Hin as (i & -> & Hin%elem_of_seq). lia. }
  exists ok, s'. cbn [wake_interruptible]. by rewrite Hp.
Qed.

(** A change of the store that keeps the pids of live tasks and valid entities. *)
Lemma inv_store s st' : inv s -> store_ok st' -> (forall h, pid <$> st s !! h = pid <$> st' !! h) ->
  inv (Mk st' (managers s)).
Proof.
  intros [Hs Hm] Hs' Hp. constructor; [done|]. apply (Forall_impl _ _ _ Hm). intros m [H1 H2 H3 H4 H5 H6].
  constructor; try done.
  - intros k h Hin. rewrite (H3 k h Hin), !lookup_total_alt. cbn. specialize (Hp h).
    destruct (st s !! h), (st' !! h); cbn in *; congruence.
  - intros h Hh. specialize (H5 h Hh) as [t Ht]. specialize (Hp h). rewrite Ht in Hp. cbn in *. by destruct (st' !! h).
Qed.

(** Waking a task that sleeps on another CPU leaves it in that CPU's sleeping
    queue. The scan visits the managers in CPU order and the first one that does not
    hold the task takes it as ready; afterwards the task is both ready on CPU 0 and
    asleep on CPU 1, although the comment says that it is removed from the sleeping
    queue. *)
Theorem wake_leaves_stale_sleeper :
  (s ← sleep_interruptible (init demo_st) 1 4;
   o ← wake_interruptible [((fun _ => true), id)] s 4;
   Ret (option_map (fun s' => (map ready (managers s'), map interruptible_queue (managers s'))) o))
  = Ret (Some ([[4]; []; []; []], [[]; [4]; []; []])).
Proof. vm_compute. reflexivity. Qed.

End Managers.
