(* ===== verification/KernelOom.v ===== *)
(** * KernelOom: reclaiming memory on the RISC-V kernel

    The out-of-memory handler of [FrameAlloc] with the parts it calls: the cleaning of the running task's
    memory, and [do_oom_local] of the task managers ([TaskManager]), which cleans the memories of sleeping and
    ready tasks on the memory system of [KernelMemory]. *)
From S2P Require Import Prelude AllocSpec Address FrameAlloc Bytes PageTable Sv39 PageStore Trackers MapArea Pid MemorySet AddressSpace Reclaim MemSystem Fork MemRun KernelMemory Sched SchedClass TaskManager.
Import StackFrameAllocator.

(** ** Totals *)
Lemma sum_list_insert {A} (f : A -> nat) l i x y : l !! i = Some x -> (sum_list (f <$> <[i := y]> l) + f x = sum_list (f <$> l) + f y)%nat.
Proof.
  revert i. induction l as [|a l IH]; intros [|i] Hi; [done..|injection Hi as ->; csimpl; lia|]. specialize (IH i Hi). change (<[S i := y]> (a :: l)) with (a :: <[i := y]> l). csimpl in *. lia.
Qed.

Section KernelOom.
Context (cfg : config) (base limit zcap spages : Z) (compress : list Z -> list Z) (decompress : list Z -> option (list Z)).
Context {F : Type} `{!MapFile F} (strampoline ssignaltrampoline : Z).
#[local] Notation kernel_config := (kernel_config cfg base limit compress decompress strampoline ssignaltrampoline).
#[local] Notation kernel_proc := (kernel_proc cfg base limit zcap spages compress).
#[local] Notation kernel_sees := (kernel_sees cfg base limit zcap spages compress).
#[local] Notation kernel_state := (@kernel_state F).
#[local] Instance oom_zram : PageStore Zram.t := kernel_zram compress decompress.
#[local] Instance oom_page_table : PageTable Sv39PageTable.t := kernel_page_table cfg.
#[local] Notation kmem := (@kmem Zram.t Swap.t).
#[local] Notation MemorySet := (@MemorySet Sv39PageTable.t F).
#[local] Notation kernel_sys := (sys_ok (base := base) (limit := limit) (zrep := zram_holds zcap compress) (srep := swap_holds spages) (vpn_ok := Sv39PageTable.vpn_ok) (rep := Sv39PageTable.pt_repr)).
Implicit Types (k : kmem) (ms : MemorySet) (M : gmap Z (Z * Z)) (rest extra : list Frame) (s : kernel_state).

(** ** The handler with what it calls *)
Record machine : Type := MkMachine { memory : kernel_state; cpus : list TaskManager.t }.
Implicit Types (w : machine).

(** [do_deep_clean] or [do_shallow_clean] on the memory of process [i]. *)
Definition clean_process (clean : MemorySet -> kmem -> outcome (Z * MemorySet * kmem)) (i : nat) s : outcome (Z * kernel_state) :=
  ms ← unwrap (procs s !! i); '(n, ms', k') ← clean ms (kern s); Ret (n, set_proc s i ms' k').
(** [do_oom_local] of manager [j]; task [h] runs in process [vm h]. *)
Definition manager_oom (st : tstore) (vm : Z -> nat) (j : nat) (req : Z) w : outcome (Z * machine) :=
  m ← unwrap (cpus w !! j);
  '(n, m', s') ← TaskManager.do_oom_local (fun h => clean_process (do_deep_clean cfg) (vm h)) (fun h => clean_process (do_shallow_clean cfg) (vm h)) st m req (memory w);
  Ret (n, MkMachine s' (<[j := m']> (cpus w))).
(** The running task's memory, when its lock is free. *)
Definition clean_current (i : nat) (lock_free : bool) w : outcome (option (Z * machine)) :=
  if lock_free then '(n, s') ← clean_process (do_shallow_clean cfg) i (memory w); Ret (Some (n, MkMachine s' (cpus w))) else Ret None.
(** [oom_handler] when the file system's caches have nothing to give back. *)
Definition kernel_oom (st : tstore) (vm : Z -> nat) (current : Z) (lock_free : bool) (req : Z) w : outcome (bool * machine) :=
  oom_handler (fun w => Ret (0, w)) (Some (clean_current (vm current) lock_free)) (manager_oom st vm <$> seq 0 (length (cpus w))) req w.

(** ** Cleaning one process *)

Definition free_count s : Z := unallocated_frames (fa (wd (kern s))).
Definition total_active s : nat := sum_list ((fun ms => active_pages (areas ms)) <$> procs s).
(** The swap area can take every active page. *)
Definition swap_ready s : Prop := forall S, swap_holds spages (swap (kern s)) S -> Z.of_nat (size S + total_active s) <= spages.

(** The state stands for [pg] and has [N] processes, and the swap area can take every active page. *)
Definition oom_ok extra pg (N : nat) s : Prop := exists g ps, fst <$> ps = procs s /\ kernel_sys (kern s) g ps extra /\ kernel_tidy s /\
  (forall j u, pg j u = procs s !! j ≫= fun ms => view ms (kern s) g u) /\ Z.of_nat (size (gS g) + total_active s) <= spages /\ length (procs s) = N.

Lemma oom_ok_start extra pg s : kernel_sees s extra pg -> kernel_tidy s -> swap_ready s -> procs s <> [] -> oom_ok extra pg (length (procs s)) s.
Proof.
  intros (g & ps & Hps & Y & Hpg) Ht Hsw Hne. exists g, ps. split_and!; try done. apply Hsw.
  destruct ps as [|[ms M] ps']; [by destruct (procs s)|]. apply (k_swap _ _ _ _ _ _ _ (q_k _ _ _ _ _ (y_proc _ _ _ _ Y 0%nat ms M eq_refl))).
Qed.
Lemma oom_ok_sees extra pg N s : oom_ok extra pg N s -> kernel_sees s extra pg /\ kernel_tidy s.
Proof. intros (g & ps & Hps & Y & Ht & Hpg & _). split; [by exists g, ps|done]. Qed.

(** Cleaning evicts pages; when [exact], as many frames become free as pages leave. *)
Definition evicting (exact : bool) (clean : MemorySet -> kmem -> outcome (Z * MemorySet * kmem)) : Prop :=
  forall k g ms M rest, kernel_proc k g ms M rest -> Forall active_ok (areas ms) -> Z.of_nat (size (gS g) + active_pages (areas ms)) <= spages ->
  exists n m ms' k' g', clean ms k = Ret (wrap 64 (Z.of_nat n), ms', k') /\
    evicted (base := base) (limit := limit) (zrep := zram_holds zcap compress) (srep := swap_holds spages) (vpn_ok := Sv39PageTable.vpn_ok) (rep := Sv39PageTable.pt_repr) k g ms rest n m ms' k' g' /\
    (exact = true -> m = n) /\ Forall active_ok (areas ms') /\ (n + active_pages (areas ms') <= active_pages (areas ms))%nat.

Lemma oom_free extra pg N s : kernel_config -> oom_ok extra pg N s -> (0 < N)%nat -> 0 <= free_count s < 2 ^ 64.
Proof.
  intros C (g & ps & Hps & Y & _ & _ & _ & HN) Hpos. destruct C as [_ Hb Hl _ _ _]. rewrite <- Hps, length_fmap in HN. destruct ps as [|[ms M] ps']; [cbn in HN; lia|].
  pose proof (k_fa _ _ _ _ _ _ _ (q_k _ _ _ _ _ (y_proc _ _ _ _ Y 0%nat ms M eq_refl))) as Hfa. unfold free_count. rewrite (unallocated_frames_spec _ _ _ _ Hfa).
  pose proof (live_partition _ _ _ _ Hfa). pose proof (rep_limit _ _ _ _ Hfa). lia.
Qed.

Lemma clean_process_ok exact clean extra pg N i : kernel_config -> evicting exact clean -> (i < N)%nat ->
  TaskManager.reclaims (oom_ok extra pg N) free_count exact (clean_process clean i).
Proof.
  intros C Hc Hi s (g & ps & Hps & Y & Ht & Hpg & Hsw & HN). destruct C as [Hz Hb Hl Hlz _ _].
  pose proof (Sv39PageTable.sv39_page_table_ok cfg base limit Hz Hb Hl) as Hpt. pose proof (Zram.Zram_PageStoreOk compress decompress Hlz zcap) as Hzok.
  pose proof (Swap.Swap_PageStoreOk spages) as Hsok.
  destruct (lookup_lt_is_Some_2 (procs s) i ltac:(lia)) as [ms Hms]. destruct (procs_lookup s ps i ms Hps Hms) as [M HM].
  pose proof (y_proc _ _ _ _ Y i ms M HM) as Q. pose proof (proj1 (Forall_lookup _ _) Ht i ms Hms) as Hact. cbn in Hact.
  pose proof (sum_list_insert (fun ms => active_pages (areas ms)) (procs s) i ms) as Hsum. unfold total_active in Hsw.
  destruct (Hc (kern s) g ms M _ Q Hact) as (n & m & ms' & k' & g' & E & HE & Hex & Hact' & Hn).
  { specialize (Hsum (MkMS (page_table ms) []) Hms). cbn in Hsum. lia. }
  destruct HE as ([M' Q'] & St & V & HL & HS & _). destruct (system_step (kern s) g ps extra extra i ms M k' g' ms' M' Y HM Q' St) as [Y' V']; [done|].
  exists (wrap 64 (Z.of_nat n)), (set_proc s i ms' k'). split; [unfold clean_process; rewrite Hms; cbn [unwrap mbind outcome_bind]; by rewrite E|].
  assert (i < length (procs s))%nat as Hlt by lia. split.
  - exists g', (<[i := (ms', M')]> ps). split; [cbn; rewrite list_fmap_insert; by rewrite Hps|]. split; [done|]. split; [cbn; by apply Forall_insert|]. split; [|split].
    + intros j u. rewrite Hpg. cbn. destruct (decide (j = i)) as [->|Hne]; [rewrite list_lookup_insert_eq, Hms by done; symmetry; apply V|]. rewrite list_lookup_insert_ne by done.
      destruct (procs s !! j) as [msj|] eqn:Ej; [|done]. destruct (procs_lookup s ps j msj Hps Ej) as [Mj Hj]. symmetry. by eapply V'.
    + unfold total_active. cbn. specialize (Hsum ms' Hms). lia.
    + cbn. by rewrite length_insert.
  - pose proof (k_fa _ _ _ _ _ _ _ (q_k _ _ _ _ _ Q)) as Hfa. pose proof (k_fa _ _ _ _ _ _ _ (q_k _ _ _ _ _ Q')) as Hfa'. unfold free_count. cbn [kern set_proc].
    rewrite (unallocated_frames_spec _ _ _ _ Hfa), (unallocated_frames_spec _ _ _ _ Hfa'). pose proof (live_partition _ _ _ _ Hfa). pose proof (rep_limit _ _ _ _ Hfa).
    pose proof (Z.mod_pos_bound (Z.of_nat n) (2 ^ 64) ltac:(lia)). unfold wrap. split; [lia|]. split; [lia|]. intros Ex. specialize (Hex Ex) as ->. rewrite Z.mod_small by lia. lia.
Qed.
Lemma shallow_evicting : kernel_config -> evicting true (do_shallow_clean cfg).
Proof.
  intros C k g ms M rest Q Hact Hroom. pose proof C as [Hz Hb Hl Hlz _ _].
  pose proof (Sv39PageTable.sv39_page_table_ok cfg base limit Hz Hb Hl) as Hpt. pose proof (Zram.Zram_PageStoreOk compress decompress Hlz zcap) as Hzok.
  pose proof (Zram.Zram_PageStoreTotal compress decompress Hlz zcap) as Hzt. pose proof (Swap.Swap_PageStoreOk spages) as Hsok.
  destruct (shallow_clean_ok (cfg := cfg) k g ms M rest Q Hact) as (n & ms' & k' & g' & Hr & HE & Ha & Hn); [intros S HS; apply swap_room_size; lia|].
  exists n, n, ms', k', g'. by split_and!.
Qed.
Lemma deep_evicting : kernel_config -> evicting false (do_deep_clean cfg).
Proof.
  intros C k g ms M rest Q Hact Hroom. pose proof C as [Hz Hb Hl Hlz _ _].
  pose proof (Sv39PageTable.sv39_page_table_ok cfg base limit Hz Hb Hl) as Hpt. pose proof (Zram.Zram_PageStoreOk compress decompress Hlz zcap) as Hzok.
  pose proof (Zram.Zram_PageStoreTotal compress decompress Hlz zcap) as Hzt. pose proof (Swap.Swap_PageStoreOk spages) as Hsok.
  destruct (deep_clean_ok (cfg := cfg) k g ms M rest Q Hact) as (n & m & ms' & k' & g' & Hr & HE & _ & Ha & Hn); [intros S HS; apply swap_room_size; lia|].
  exists n, m, ms', k', g'. by split_and!.
Qed.

(** ** The cascade *)
Section Cascade.
Context (P : machine -> Prop) (free : machine -> Z).
Hypothesis (Hfree : forall w, P w -> 0 <= free w < 2 ^ 64).
#[local] Notation reclaims := (TaskManager.reclaims P free).

Lemma do_oom_loop_ok exact (mgrs : list (Z -> machine -> outcome (Z * machine))) : Forall (fun m => forall req, reclaims exact (m req)) mgrs -> forall w0 req total w, P w -> TaskManager.counted free exact w0 w total ->
  exists ok w', do_oom_loop mgrs req total w = Ret (ok, w') /\ P w' /\ free w <= free w' /\ (exact = true -> ok = (req <=? free w' - free w0)).
Proof using Hfree.
  induction 1 as [|m mgrs Hm Hms IH]; intros w0 req total w Hw [H0 Hc]; cbn [do_oom_loop].
  - exists (req <=? total), w. split; [done|]. split; [done|]. split; [lia|]. intros E. by rewrite (Hc E).
  - destruct (Z.leb_spec req total) as [Hle|Hgt]; [exists true, w; split; [done|]; split; [done|]; split; [lia|]; intros E; rewrite (Hc E) in Hle; symmetry; by apply Z.leb_le|].
    destruct (Hm (req ⊖ total) w Hw) as (n & w1 & -> & Hw1 & Hn & Hle1 & Hex). cbn [mbind outcome_bind]. pose proof (Hfree w1 Hw1) as F1.
    destruct (IH w0 req (total ⊕ n) w1 Hw1) as (ok & w' & -> & Hw' & Hle' & Ho).
    { split; [split; [apply (wrap_range 64); lia|lia]|]. intros E. specialize (Hc E). specialize (Hex E). rewrite add64_small by (unfold in_range; lia). lia. }
    exists ok, w'. split; [done|]. split; [done|]. split; [lia|done].
Qed.

Lemma oom_handler_ok exact (current : machine -> outcome (option (Z * machine))) (mgrs : list (Z -> machine -> outcome (Z * machine))) req w : Forall (fun m => forall req, reclaims exact (m req)) mgrs ->
  current w = Ret None \/ (exists clean, reclaims true clean /\ current w = ('(n, w') ← clean w; Ret (Some (n, w')))) -> P w -> 0 < req < 2 ^ 64 ->
  exists ok w', oom_handler (fun w => Ret (0, w)) (Some current) mgrs req w = Ret (ok, w') /\ P w' /\ free w <= free w' /\
    (exact = true -> ok = (req <=? free w' - free w)) /\
    forall n w2, current w = Ret (Some (n, w2)) -> n = free w2 - free w /\ free w2 <= free w' /\ (req <= n -> ok = true /\ w' = w2).
Proof using Hfree.
  intros Hms Hcur Hw Hreq. unfold oom_handler. cbn [mbind outcome_bind unwrap]. rewrite (proj2 (Z.leb_gt _ _)) by lia. pose proof (Hfree w Hw) as F0.
  assert (exists r rel w2, current w = Ret r /\ match r with Some (n2, w2) => (0 ⊕ n2, w2) | None => (0, w) end = (rel, w2) /\ P w2 /\ free w <= free w2 /\ rel = free w2 - free w /\
    forall n w3, r = Some (n, w3) -> n = rel /\ w3 = w2) as (r & rel & w2 & -> & Er & Hw2 & Hle2 & -> & Hr).
  { destruct Hcur as [E|(clean & Hc & E)]; rewrite E; [exists None, 0, w; split_and!; try done; lia|].
    destruct (Hc w Hw) as (n & w2 & -> & Hw2 & Hn & Hle & Hex). specialize (Hex eq_refl). pose proof (Hfree w2 Hw2). exists (Some (n, w2)), n, w2.
    rewrite add64_small by (unfold in_range; lia). split_and!; try done; [lia|]. by intros n3 w3 [= -> ->]. }
  cbn [mbind outcome_bind]. rewrite Er. pose proof (Hfree w2 Hw2) as F2. destruct (Z.leb_spec req (free w2 - free w)) as [Hle|Hgt].
  { exists true, w2. split; [done|]. split; [done|]. split; [lia|]. split; [intros _; symmetry; by apply Z.leb_le|]. intros n w3 [= ->]. destruct (Hr n w3 eq_refl) as [-> ->]. split; [done|]. split; [lia|done]. }
  unfold do_oom. destruct (do_oom_loop_ok exact mgrs Hms w2 (req ⊖ (free w2 - free w)) 0 w2 Hw2) as (ok & w' & E & Hw' & Hle' & Ho); [split; [lia|]; lia|]. rewrite E.
  exists ok, w'. split; [done|]. split; [done|]. split; [lia|]. split.
  - intros X. rewrite (Ho X), sub64_small by lia. apply eq_bool_prop_intro. rewrite !Is_true_true, !Z.leb_le. lia.
  - intros n w3 [= ->]. destruct (Hr n w3 eq_refl) as [-> ->]. split; [done|]. split; [lia|lia].
Qed.
End Cascade.

(** The manager's tasks have pids of the tracker and run in processes there are. *)
Definition manager_ready (st : tstore) (vm : Z -> nat) (N : nat) (m : TaskManager.t) : Prop :=
  ActiveTracker.wf (TaskManager.active_tracker m) /\ TaskManager.pids_ok st (TaskManager.queued m) /\ Forall (fun h => (vm h < N)%nat) (TaskManager.queued m).
(** Only the tracker may differ. *)
Definition same_queues (m m' : TaskManager.t) : Prop := exists b, m' = TaskManager.set_tracker m b.
Definition machine_ok extra pg N st vm cpus0 w : Prop :=
  oom_ok extra pg N (memory w) /\ Forall (manager_ready st vm N) (cpus w) /\ Forall2 same_queues cpus0 (cpus w).

Lemma manager_oom_ok exact extra pg N st vm cpus0 j req : kernel_config -> (0 < N)%nat -> (j < length cpus0)%nat ->
  (exact = true -> Forall (fun m => TaskManager.interruptible_queue m = []) cpus0) ->
  TaskManager.reclaims (machine_ok extra pg N st vm cpus0) (fun w => free_count (memory w)) exact (manager_oom st vm j req).
Proof.
  intros C HN Hj Hex w (Ho & Hr & Hq). destruct (lookup_lt_is_Some_2 cpus0 j Hj) as [m0 Hm0]. destruct (Forall2_lookup_l _ _ _ _ _ Hq Hm0) as (m & Hm & b0 & Eb).
  pose proof (Forall_lookup_1 _ _ _ _ Hr Hm) as (Hb & Hp & Hv). pose proof Hv as Hv'. unfold TaskManager.queued, TaskManager.ready in Hv'. rewrite !Forall_app in Hv'. destruct Hv' as [(_ & Hvc & _) Hvi].
  destruct (TaskManager.do_oom_local_ok (oom_ok extra pg N) free_count ltac:(intros s Hs; by eapply oom_free) (fun h => clean_process (do_deep_clean cfg) (vm h))
    (fun h => clean_process (do_shallow_clean cfg) (vm h)) st m req (memory w) Hb Hp) as (n & b & s' & E & Hwb & Ho' & Hn & Hle & Hx); [| |done|].
  { eapply Forall_impl; [exact Hvi|]. intros h Hh. apply clean_process_ok; [done|by apply deep_evicting|done]. }
  { eapply Forall_impl; [exact Hvc|]. intros h Hh. apply clean_process_ok; [done|by apply shallow_evicting|done]. }
  exists n, (MkMachine s' (<[j := TaskManager.set_tracker m b]> (cpus w))). split; [unfold manager_oom; rewrite Hm; cbn [unwrap mbind outcome_bind]; by rewrite E|].
  split; [|split; [done|]; split; [done|]; cbn [memory]; intros X; apply Hx; rewrite Eb; by apply (Forall_lookup_1 _ _ _ _ (Hex X) Hm0)].
  split; [done|]. cbn [cpus]. split.
  - apply Forall_insert; [done|]. by split.
  - replace cpus0 with (<[j := m0]> cpus0) by (by apply list_insert_id). apply Forall2_insert; [done|]. exists b. by rewrite Eb.
Qed.

End KernelOom.

(** ** The process of [KernelMemory] with one page in memory *)
Lemma swap_dom s M1 M2 : Swap.rep s M1 -> Swap.rep s M2 -> size M1 = size M2.
Proof.
  intros R1 R2. rewrite <- !size_dom. f_equal. apply set_eq. intros i. rewrite !elem_of_dom. destruct (decide (0 <= i)) as [Hi|Hi].
  - pose proof (Swap.rp_bits _ _ R1 i Hi) as E. rewrite (Swap.rp_bits _ _ R2 i Hi) in E. split; intros H; [rewrite (bool_decide_true (is_Some (M1 !! i))) in E by done|rewrite (bool_decide_true (is_Some (M2 !! i))) in E by done; symmetry in E]; by apply bool_decide_eq_true_1 in E.
  - split; intros [p Hp]; [apply (Swap.rp_keys _ _ R1) in Hp|apply (Swap.rp_keys _ _ R2) in Hp]; lia.
Qed.
#[local] Instance oom_no_files : MapFile Empty_set := no_files.
