(* ===== verification/Timer.v ===== *)
(** Time values ([os/src/timer.rs]).

    [TimeSpec] and [TimeVal] are pairs of 64-bit counters; the tick counter and the
    clock frequency of the platform are arguments. *)
From S2P Require Import Prelude.

Definition MSEC_PER_SEC : Z := 1000.
Definition USEC_PER_SEC : Z := 1000000.
Definition USEC_PER_MSEC : Z := 1000.
Definition NSEC_PER_SEC : Z := 1000000000.
Definition NSEC_PER_MSEC : Z := 1000000.
Definition NSEC_PER_USEC : Z := 1000.

Definition get_time_sec (freq tick : Z) : Z := if freq =? 0 then 0 else tick / freq.
Definition get_time_ms (freq tick : Z) : Z :=
  if freq =? 0 then 0
  else let divisor := freq / MSEC_PER_SEC in
    if divisor =? 0 then (tick ⊗ MSEC_PER_SEC) / freq else tick / divisor.
Definition get_time_us (freq tick : Z) : Z :=
  if freq =? 0 then 0
  else let divisor := freq / USEC_PER_SEC in
    if divisor =? 0 then (tick ⊗ USEC_PER_SEC) / freq else tick / divisor.
Definition get_time_ns (freq tick : Z) : Z :=
  if freq =? 0 then 0 else (tick ⊗ NSEC_PER_SEC) / freq.

(** The two structs have the same shape; the derived order is lexicographic. *)
Module TimeSpec.

Record t : Type := Mk { tv_sec : Z; tv_nsec : Z }.

Definition new : t := Mk 0 0.
Definition add_assign (a b : t) : t := Mk (tv_sec a ⊕ tv_sec b) (tv_nsec a ⊕ tv_nsec b).
Definition add (a b : t) : t :=
  let nsec := tv_nsec a ⊕ tv_nsec b in
  Mk ((tv_sec a ⊕ tv_sec b) ⊕ (nsec / NSEC_PER_SEC)) (nsec mod NSEC_PER_SEC).
Definition to_ns (a : t) : Z := (tv_sec a ⊗ NSEC_PER_SEC) ⊕ tv_nsec a.
Definition from_ns (ns : Z) : t := Mk (ns / NSEC_PER_SEC) (ns mod NSEC_PER_SEC).
Definition from_us (us : Z) : t := Mk (us / USEC_PER_SEC) ((us mod USEC_PER_SEC) ⊗ NSEC_PER_USEC).
Definition from_ms (ms : Z) : t := Mk (ms / MSEC_PER_SEC) ((ms mod MSEC_PER_SEC) ⊗ NSEC_PER_MSEC).
Definition from_s (s : Z) : t := Mk s 0.
Definition from_tick (freq tick : Z) : t :=
  if freq =? 0 then Mk 0 0
  else Mk (tick / freq) (((tick mod freq) ⊗ NSEC_PER_SEC) / freq).
Definition sub (a b : t) : t :=
  if to_ns a <=? to_ns b then new else from_ns (to_ns a ⊖ to_ns b).
Definition cmp (a b : t) : comparison :=
  match tv_sec a ?= tv_sec b with
  | Eq => tv_nsec a ?= tv_nsec b
  | c => c
  end.
Definition is_zero (a : t) : bool := (tv_sec a =? 0) && (tv_nsec a =? 0).

(** The value in nanoseconds, and a normalised value that fits 64 bits. *)
Definition ns (a : t) : Z := tv_sec a * NSEC_PER_SEC + tv_nsec a.
Definition normal (a : t) : Prop := 0 <= tv_sec a /\ 0 <= tv_nsec a < NSEC_PER_SEC.
Definition fits (a : t) : Prop := normal a /\ ns a < 2 ^ 64.

Lemma from_ns_ok n : 0 <= n -> normal (from_ns n) /\ ns (from_ns n) = n.
Proof.
  intros H. unfold normal, ns, from_ns, NSEC_PER_SEC. cbn [tv_sec tv_nsec].
  pose proof (Z.div_mod n 1000000000 ltac:(lia)). pose proof (Z.mod_pos_bound n 1000000000 ltac:(lia)).
  pose proof (Z.div_pos n 1000000000 ltac:(lia) ltac:(lia)). lia.
Qed.

Lemma to_ns_ok a : fits a -> to_ns a = ns a.
Proof.
  intros [[H1 H2] H3]. unfold to_ns, ns, NSEC_PER_SEC in *.
  rewrite mul64_small by (unfold in_range; lia). apply add64_small. unfold in_range. lia.
Qed.

Lemma cmp_ok a b : normal a -> normal b -> cmp a b = (ns a ?= ns b).
Proof.
  intros [Ha1 Ha2] [Hb1 Hb2]. unfold cmp, ns, NSEC_PER_SEC in *. symmetry.
  destruct (Z.compare_spec (tv_sec a) (tv_sec b)); [destruct (Z.compare_spec (tv_nsec a) (tv_nsec b))|..];
    first [apply Z.compare_eq_iff|apply Z.compare_lt_iff|apply Z.compare_gt_iff]; lia.
Qed.

Lemma timespec_add_ok a b : fits a -> fits b -> ns a + ns b < 2 ^ 64 ->
  fits (add a b) /\ ns (add a b) = ns a + ns b.
Proof.
  intros [[Ha1 Ha2] Ha3] [[Hb1 Hb2] Hb3] Hs. unfold fits, normal, ns, add, NSEC_PER_SEC in *. cbn [tv_sec tv_nsec].
  rewrite (add64_small (tv_nsec a)) by (unfold in_range; lia).
  set (n := tv_nsec a + tv_nsec b) in *. pose proof (Z.div_mod n 1000000000 ltac:(lia)).
  pose proof (Z.mod_pos_bound n 1000000000 ltac:(lia)). pose proof (Z.div_pos n 1000000000 ltac:(lia) ltac:(lia)).
  rewrite (add64_small (tv_sec a)) by (unfold in_range; lia).
  rewrite add64_small by (unfold in_range; lia). lia.
Qed.

Lemma sub_ok a b : fits a -> fits b -> fits (sub a b) /\ ns (sub a b) = Z.max 0 (ns a - ns b).
Proof.
  intros Ha Hb. unfold sub. rewrite !to_ns_ok by done.
  assert (0 <= ns b) by (destruct Hb as [[? ?] _]; unfold ns, NSEC_PER_SEC in *; lia).
  destruct (Z.leb_spec (ns a) (ns b)).
  - rewrite Z.max_l by lia. split; [|done]. split; [split|]; unfold NSEC_PER_SEC, ns; cbn; lia.
  - rewrite sub64_small by (destruct Ha; lia). destruct (from_ns_ok (ns a - ns b)) as [H1 H2]; [lia|].
    rewrite H2, Z.max_r by lia. split; [|done]. split; [done|]. destruct Ha. lia.
Qed.

(** Arithmetic on time values is arithmetic on nanoseconds. For normalised
    values whose sum fits 64 bits, sums and (saturated) differences are normalised and
    exact, the comparison is that of the nanoseconds, and conversion to nanoseconds and
    back is the identity. *)
Theorem timespec_arith a b : fits a -> fits b -> ns a + ns b < 2 ^ 64 ->
  normal (add a b) /\ to_ns (add a b) = to_ns a + to_ns b /\
  normal (sub a b) /\ to_ns (sub a b) = Z.max 0 (to_ns a - to_ns b) /\
  cmp a b = (to_ns a ?= to_ns b) /\ from_ns (to_ns a) = a.
Proof.
  intros Ha Hb Hs. destruct (timespec_add_ok a b Ha Hb Hs) as [H1 H2]. destruct (sub_ok a b Ha Hb) as [H3 H4].
  rewrite !to_ns_ok by done. split_and!; try done; try apply H1; try apply H3.
  - apply cmp_ok; [apply Ha|apply Hb].
  - destruct a as [s n]. destruct Ha as [[Ha1 Ha2] _]. unfold from_ns, ns, NSEC_PER_SEC in *. cbn [tv_sec tv_nsec] in *.
    rewrite Z.add_comm, Z.div_add, Z.mod_add, Z.div_small, Z.mod_small by lia. done.
Qed.

(** On a sum with a carry. *)
Lemma timespec_arith_witness :
  let a := Mk 3 900000000 in let b := Mk 1 200000000 in
  normal (add a b) /\ to_ns (add a b) = to_ns a + to_ns b /\
  normal (sub a b) /\ to_ns (sub a b) = Z.max 0 (to_ns a - to_ns b) /\
  cmp a b = (to_ns a ?= to_ns b) /\ from_ns (to_ns a) = a.
Proof.
  apply timespec_arith; [split; [split; [|split]|]; vm_compute; congruence..|vm_compute; reflexivity].
Defined.

(** C40: the time of day computed from the tick counter is exact: for a clock of at
    most 18 GHz it is normalised, and its nanoseconds are ticks * 10^9 / frequency
    rounded down, whatever the tick count, also where the product does not fit 64
    bits. *)
Theorem from_tick_exact freq tick : 0 < freq < 18446744073 -> 0 <= tick < 2 ^ 64 ->
  normal (from_tick freq tick) /\ ns (from_tick freq tick) = tick * NSEC_PER_SEC / freq.
Proof.
  intros Hf Ht. unfold from_tick. destruct (Z.eqb_spec freq 0); [lia|].
  pose proof (Z.mod_pos_bound tick freq ltac:(lia)) as Hm. pose proof (Z.div_mod tick freq ltac:(lia)) as Hd.
  pose proof (Z.div_pos tick freq ltac:(lia) ltac:(lia)).
  unfold normal, ns, NSEC_PER_SEC. cbn [tv_sec tv_nsec]. set (q := tick / freq) in *. set (r := tick mod freq) in *.
  rewrite mul64_small by (unfold in_range; nia). split_and!; try lia.
  - apply Z.div_pos; lia.
  - apply Z.div_lt_upper_bound; nia.
  - rewrite Hd. replace ((freq * q + r) * 1000000000) with (r * 1000000000 + (q * 1000000000) * freq) by ring.
    rewrite Z.div_add by lia. lia.
Qed.

(** On the QEMU clock after an hour. *)
Lemma from_tick_exact_witness :
  normal (from_tick 12500000 45000000001) /\
  ns (from_tick 12500000 45000000001) = 45000000001 * NSEC_PER_SEC / 12500000.
Proof. apply from_tick_exact; lia. Defined.

(** [+=] does not carry: the result is not normalised and compares wrongly. *)
Example add_assign_no_carry :
  let a := Mk 0 600000000 in let s := add_assign a a in
  ~ normal s /\ cmp s (Mk 1 0) = Lt /\ ns s = 1200000000.
Proof. split_and!; [unfold normal; vm_compute; naive_solver|reflexivity..]. Qed.

End TimeSpec.

(** [get_time_ns], which the scheduler reads, multiplies before it divides. On the
    12.5 MHz clock of the QEMU board it jumps back to 0 after 24 minutes and 36
    seconds. *)
Example get_time_ns_wraps :
  get_time_ns 12500000 18446744073 = 1475739525840 /\ get_time_ns 12500000 18446744074 = 23.
Proof. split; reflexivity. Qed.

Module TimeVal.

Record t : Type := Mk { tv_sec : Z; tv_usec : Z }.

Definition new : t := Mk 0 0.
Definition from_tick (freq tick : Z) : t :=
  if freq =? 0 then Mk 0 0
  else Mk (tick / freq) (((tick mod freq) ⊗ USEC_PER_SEC) / freq).
Definition to_tick (freq : Z) (a : t) : Z :=
  if freq =? 0 then 0 else (tv_sec a ⊗ freq) ⊕ ((tv_usec a ⊗ freq) / USEC_PER_SEC).
Definition from_s (s : Z) : t := Mk s 0.
Definition from_ms (ms : Z) : t := Mk (ms / MSEC_PER_SEC) ((ms mod MSEC_PER_SEC) ⊗ USEC_PER_MSEC).
Definition from_us (us : Z) : t := Mk (us / USEC_PER_SEC) (us mod USEC_PER_SEC).
Definition to_us (a : t) : Z := (tv_sec a ⊗ USEC_PER_SEC) ⊕ tv_usec a.
Definition is_zero (a : t) : bool := (tv_sec a =? 0) && (tv_usec a =? 0).
Definition add (a b : t) : t :=
  let usec := tv_usec a ⊕ tv_usec b in
  Mk ((tv_sec a ⊕ tv_sec b) ⊕ (usec / USEC_PER_SEC)) (usec mod USEC_PER_SEC).
Definition sub (a b : t) : t :=
  if to_us a <=? to_us b then new else from_us (to_us a ⊖ to_us b).
Definition cmp (a b : t) : comparison :=
  match tv_sec a ?= tv_sec b with
  | Eq => tv_usec a ?= tv_usec b
  | c => c
  end.

(** Ticks of a time value never exceed the ticks it was made from, and lose less than
    one microsecond's worth and one tick. *)
Lemma tick_roundtrip freq tick : 0 < freq < 18446744073 -> 0 <= tick < 2 ^ 63 ->
  let t' := to_tick freq (from_tick freq tick) in
  t' <= tick /\ tick - t' <= freq / USEC_PER_SEC + 1.
Proof.
  intros Hf Ht. unfold to_tick, from_tick, USEC_PER_SEC. destruct (Z.eqb_spec freq 0); [lia|]. cbn [tv_sec tv_usec].
  pose proof (Z.mod_pos_bound tick freq ltac:(lia)) as Hm. pose proof (Z.div_mod tick freq ltac:(lia)) as Hd.
  pose proof (Z.div_pos tick freq ltac:(lia) ltac:(lia)).
  set (q := tick / freq) in *. set (r := tick mod freq) in *.
  rewrite (mul64_small r) by (unfold in_range; nia). set (u := r * 1000000 / freq).
  assert (0 <= u < 1000000) as Hu by (split; [apply Z.div_pos; lia|apply Z.div_lt_upper_bound; lia]).
  pose proof (Z.mul_div_le (r * 1000000) freq ltac:(lia)) as H1. fold u in H1.
  pose proof (Z.mul_succ_div_gt (r * 1000000) freq ltac:(lia)) as H2. fold u in H2.
  rewrite (mul64_small u) by (unfold in_range; nia). set (v := u * freq / 1000000).
  pose proof (Z.mul_div_le (u * freq) 1000000 ltac:(lia)) as H3. fold v in H3.
  pose proof (Z.mul_succ_div_gt (u * freq) 1000000 ltac:(lia)) as H4. fold v in H4.
  pose proof (Z.mul_succ_div_gt freq 1000000 ltac:(lia)) as H5. set (w := freq / 1000000) in *.
  assert (0 <= v) by (apply Z.div_pos; nia).
  rewrite (mul64_small q) by (unfold in_range; nia). rewrite add64_small by (unfold in_range; nia).
  cbv zeta. split; nia.
Qed.

End TimeVal.
