(* ===== verification/WaitQueue.v ===== *)
(** * WaitQueue: wait queues and timeouts (os/src/task/manager.rs)

    A wait queue holds weak references: upgrading one fails when the task is no longer
    in the store. The locks of other CPUs' managers are free when a wake-up passes
    over them (contention makes the pass repeat, see [Managers.wake_interruptible]). *)
From S2P Require Import Prelude BTree Sched SchedClass TaskManager Timer.

(** The status write and the two-step wake-up that wait queues and timers share. *)
Definition set_task_status (s : Managers.t) (h : Z) (x : TaskStatus) : Managers.t :=
  Managers.Mk (alter (fun t => set_status t x) h (Managers.st s)) (Managers.managers s).

Definition wake_local_or_global (s : Managers.t) (cpu_id h : Z) : outcome Managers.t :=
  '(ok, s1) ← Managers.with_manager s cpu_id (fun st m => TaskManager.try_wake_interruptible st m h);
  if (ok : bool) then Ret s1
  else
    o ← Managers.wake_interruptible [(fun _ => true, id)] s1 h;
    Ret (default s1 o).

Definition is_interruptible (st : tstore) (h : Z) : bool :=
  match st !! h with Some t => bool_decide (task_status t = Interruptible) | None => false end.

Module WaitQueue.

Abbreviation t := (list Z).
Definition new : t := [].
Definition add_task (q : t) (task : Z) : t := q ++ [task].
Definition pop_task (q : t) : option Z * t := match q with [] => (None, []) | h :: r => (Some h, r) end.
Definition contains (q : t) (task : Z) : bool := existsb (Z.eqb task) q.
Definition is_empty (q : t) : bool := bool_decide (q = []).

Fixpoint wake_loop (cpu_id limit : Z) (q : t) (cnt : Z) (s : Managers.t) : outcome (Z * t * Managers.t) :=
  match q with
  | [] => Ret (cnt, [], s)
  | h :: r =>
      match Managers.st s !! h with
      | Some tk =>
          match task_status tk with
          | Interruptible =>
              s' ← wake_local_or_global (set_task_status s h Ready) cpu_id h;
              let cnt := cnt ⊕ 1 in
              if cnt =? limit then Ret (cnt, r, s') else wake_loop cpu_id limit r cnt s'
          | _ => wake_loop cpu_id limit r cnt s
          end
      | None => wake_loop cpu_id limit r cnt s
      end
  end.

Definition wake_at_most (s : Managers.t) (cpu_id : Z) (q : t) (limit : Z) : outcome (Z * t * Managers.t) :=
  if limit =? 0 then Ret (0, q, s) else wake_loop cpu_id limit q 0 s.
Definition wake_all (s : Managers.t) (cpu_id : Z) (q : t) : outcome (Z * t * Managers.t) :=
  wake_at_most s cpu_id q usize_max.

End WaitQueue.

Module TimeoutWaitQueue.

Record waiter : Type := Waiter { task : Z; timeout : TimeSpec.t }.

(** The [BinaryHeap] of waiters, as the sequence of its elements; its maximum under the
    reversed order is a waiter with the least timeout. *)
Definition t : Type := list waiter.
Definition new : t := [].
Definition waiter_cmp (a b : waiter) : comparison := CompOpp (TimeSpec.cmp (timeout a) (timeout b)).
Definition add_task (q : t) (h : Z) (at_ : TimeSpec.t) : t := q ++ [Waiter h at_].

Fixpoint heap_pop (q : t) : option (waiter * t) :=
  match q with
  | [] => None
  | w :: r =>
      match heap_pop r with
      | None => Some (w, [])
      | Some (w', r') =>
          match waiter_cmp w w' with Lt => Some (w', w :: r') | _ => Some (w, r) end
      end
  end.

(** [fuel] bounds the number of pops: one per waiter, and one to see the end. *)
Fixpoint wake_loop (fuel : nat) (cpu_id : Z) (q : t) (now : TimeSpec.t) (s : Managers.t)
    : outcome (t * Managers.t) :=
  match fuel with
  | O => Ret (q, s)
  | S n =>
      match heap_pop q with
      | None => Ret (q, s)
      | Some (w, r) =>
          match TimeSpec.cmp (timeout w) now with
          | Gt => Ret (r ++ [w], s)
          | _ =>
              match Managers.st s !! task w with
              | Some tk =>
                  match task_status tk with
                  | Interruptible =>
                      s' ← wake_local_or_global (set_task_status s (task w) Ready) cpu_id (task w);
                      wake_loop n cpu_id r now s'
                  | _ => wake_loop n cpu_id r now s
                  end
              | None => wake_loop n cpu_id r now s
              end
          end
      end
  end.

Definition wake_expired (s : Managers.t) (cpu_id : Z) (q : t) (now : TimeSpec.t) : outcome (t * Managers.t) :=
  wake_loop (S (length q)) cpu_id q now s.

End TimeoutWaitQueue.

(** * Properties of one wake-up *)

Import Managers.

(** Statuses after waking the tasks of [l]. *)
Definition statuses (st st' : tstore) (l : list Z) : Prop :=
  forall h, task_status <$> st' !! h =
    (if bool_decide (h ∈ l) then Some Ready else task_status <$> st !! h).

Lemma set_status_store st h x : TaskManager.store_ok st ->
  TaskManager.store_ok (alter (fun t => set_status t x) h st).
Proof.
  intros [H1 H2 H3 H4].
  assert (forall k u, alter (fun t => set_status t x) h st !! k = Some u ->
    exists u0, st !! k = Some u0 /\ pid u = pid u0 /\ sched_entity u = sched_entity u0) as Hk.
  { intros k u Hu. destruct (decide (k = h)) as [->|Hne].
    - rewrite lookup_alter_eq in Hu. destruct (st !! h) as [u0|]; [|done]. injection Hu as <-. by exists u0.
    - rewrite lookup_alter_ne in Hu by done. by exists u. }
  constructor.
  - intros k1 k2 u1 u2 (v1 & E1 & -> & _)%Hk (v2 & E2 & -> & _)%Hk. by apply H1.
  - intros k u (v & E & _ & ->)%Hk. by eapply H2.
  - intros k u (v & E & _ & ->)%Hk. by eapply H3.
  - intros k u (v & E & _ & ->)%Hk. by eapply H4.
Qed.

Lemma set_status_inv s h x : inv s -> inv (set_task_status s h x).
Proof.
  intros Hi. apply inv_store; [done|apply set_status_store, Hi|]. intros k.
  destruct (decide (k = h)) as [->|Hne]; [|by rewrite lookup_alter_ne]. rewrite lookup_alter_eq. by destruct (st s !! h).
Qed.

Lemma same_tasks_status st1 st2 h : TaskManager.same_tasks st1 st2 ->
  task_status <$> st1 !! h = task_status <$> st2 !! h.
Proof.
  intros H. specialize (H h). destruct (st1 !! h), (st2 !! h); cbn in *; try done.
  unfold TaskManager.core_of, set_entity in H. congruence.
Qed.

(** Waking one sleeping task: it becomes ready in status and in a queue. *)
Lemma wake_one s cpu h : inv s -> room 1 s -> 0 <= cpu < Z.of_nat (length (managers s)) -> is_Some (st s !! h) ->
  exists s', wake_local_or_global (set_task_status s h Ready) cpu h = Ret s' /\
    inv s' /\ length (managers s') = length (managers s) /\ (forall n, room (n + 1) s -> room n s') /\
    statuses (st s) (st s') [h] /\ in_ready s' h /\ (forall x, in_ready s x -> in_ready s' x).
Proof.
  intros Hi Hr Hc Hh. unfold wake_local_or_global. set (s0 := set_task_status s h Ready).
  assert (inv s0) as Hi0 by by apply set_status_inv.
  assert (is_Some (st s0 !! h)) as Hh0 by (cbn; rewrite lookup_alter_eq; by destruct Hh as [? ->]).
  assert (forall s', TaskManager.same_tasks (st s0) (st s') -> statuses (st s) (st s') [h]) as Hst.
  { intros s' Hs x. rewrite <- (same_tasks_status _ _ x Hs). cbn. destruct (decide (x = h)) as [->|Hne].
    - rewrite lookup_alter_eq, bool_decide_eq_true_2 by left. by destruct Hh as [? ->].
    - rewrite lookup_alter_ne, bool_decide_eq_false_2 by (done || by intros ->%list_elem_of_singleton). done. }
  assert (forall ok s', woken s0 ok s' -> forall n, room (n + 1) s -> room n s') as Hroom.
  { intros ok s' Hw n Hn. apply (w_room _ _ _ Hw). destruct ok; cbn; [done|].
    apply (Forall_impl _ _ _ Hn). cbn. intros. lia. }
  destruct (try_wake_on s0 cpu h Hi0 Hr Hc Hh0) as (ok & s1 & -> & Hw & Hin). cbn [mbind outcome_bind].
  destruct ok.
  - exists s1. split_and!; try done; [apply Hw|apply (w_len _ _ _ Hw)|by apply (Hroom true)|by apply Hst, Hw|].
    intros x Hx. by apply (w_ready _ _ _ Hw).
  - destruct (wake_uncontended s1 h id []) as (ok & s2 & -> & Hw2); [apply Hw| | |].
    + apply (w_room _ _ _ Hw). cbn. by rewrite Z.add_0_r.
    + by apply (same_tasks_dom _ _ _ (w_tasks _ _ _ Hw)).
    + cbn. pose proof (woken_trans _ _ _ _ Hw Hw2) as Hw3. exists s2.
      split_and!; try done; [apply Hw3|apply (w_len _ _ _ Hw3)|by apply (Hroom ok)|by apply Hst, Hw3| |].
      * by apply (w_ready _ _ _ Hw2).
      * intros x Hx. by apply (w_ready _ _ _ Hw3).
Qed.

Lemma is_interruptible_status st h :
  is_interruptible st h = bool_decide (task_status <$> st !! h = Some Interruptible).
Proof.
  unfold is_interruptible. destruct (st !! h) as [t|]; cbn; [|by rewrite bool_decide_eq_false_2].
  apply bool_decide_ext. split; congruence.
Qed.

(** After waking [h], the tasks still to wake are those that slept before. *)
Lemma statuses_other st st' h x : statuses st st' [h] -> x <> h -> is_interruptible st' x = is_interruptible st x.
Proof.
  intros Hs Hne. rewrite !is_interruptible_status, (Hs x).
  rewrite (bool_decide_eq_false_2 (x ∈ [h])) by (by intros ->%list_elem_of_singleton). done.
Qed.

Lemma statuses_self st st' h : statuses st st' [h] -> is_interruptible st' h = false.
Proof.
  intros Hs. rewrite is_interruptible_status, (Hs h), (bool_decide_eq_true_2 (h ∈ [h])) by left.
  by rewrite bool_decide_eq_false_2.
Qed.

Lemma statuses_step st st1 st2 h l : statuses st st1 [h] -> is_interruptible st h = true ->
  statuses st1 st2 (List.filter (is_interruptible st1) l) ->
  statuses st st2 (List.filter (is_interruptible st) (h :: l)).
Proof.
  intros H1 Hh H2 x. rewrite (H2 x), (H1 x). cbn [List.filter]. rewrite Hh.
  destruct (decide (x = h)) as [->|Hne].
  - rewrite (bool_decide_eq_true_2 (h ∈ [h])) by left.
    rewrite (bool_decide_eq_true_2 (h ∈ h :: _)) by left. by case_bool_decide.
  - rewrite (bool_decide_eq_false_2 (x ∈ [h])) by (by intros ->%list_elem_of_singleton).
    rewrite (bool_decide_ext (x ∈ List.filter (is_interruptible st1) l) (x ∈ h :: List.filter (is_interruptible st) l)); [done|].
    rewrite elem_of_cons, !elem_of_filter_bool, (statuses_other _ _ _ _ H1 Hne). naive_solver.
Qed.

Lemma statuses_skip st st2 h l : is_interruptible st h = false ->
  statuses st st2 (List.filter (is_interruptible st) l) ->
  statuses st st2 (List.filter (is_interruptible st) (h :: l)).
Proof. intros Hh H. cbn. by rewrite Hh. Qed.

(** * Wait queues *)

Section Wake.
Context (cpu : Z).

(** A state in which [n] tasks can still be woken. *)
Definition can_wake (n : nat) (s : Managers.t) : Prop :=
  inv s /\ room (Z.of_nat n) s /\ 0 <= cpu < Z.of_nat (length (managers s)).

Lemma can_wake_less n s : can_wake (S n) s -> can_wake n s.
Proof.
  intros (H1 & H2 & H3). split_and!; try done; try lia. apply (Forall_impl _ _ _ H2). cbn. intros. lia.
Qed.

Lemma wake_one_step n s h : can_wake (S n) s -> is_Some (st s !! h) ->
  exists s', wake_local_or_global (set_task_status s h Ready) cpu h = Ret s' /\ can_wake n s' /\
    statuses (st s) (st s') [h] /\ in_ready s' h /\ (forall x, in_ready s x -> in_ready s' x).
Proof.
  intros (H1 & H2 & H3) Hh. destruct (wake_one s cpu h) as (s' & Hw & Hi & Hl & Hr & Hs & Hin & Hm); try done.
  - apply (Forall_impl _ _ _ H2). cbn. intros. lia.
  - exists s'. split_and!; try done; try lia. split_and!; try done; try lia. apply Hr.
    replace (Z.of_nat n + 1) with (Z.of_nat (S n)) by lia. done.
Qed.

Definition wake_loop_post limit q cnt s : Prop :=
  exists pre q' s', q = pre ++ q' /\
    let woken := List.filter (is_interruptible (st s)) pre in
    let cnt' := cnt + Z.of_nat (length woken) in
    WaitQueue.wake_loop cpu limit q cnt s = Ret (cnt', q', s') /\
    cnt' <= limit /\ (cnt' = limit \/ q' = []) /\ statuses (st s) (st s') woken /\
    (forall h, h ∈ woken -> in_ready s' h) /\ (forall x, in_ready s x -> in_ready s' x).

(** A reference that is dead or not asleep is dropped without effect. *)
Lemma wake_loop_skip limit h q cnt s : is_interruptible (st s) h = false ->
  WaitQueue.wake_loop cpu limit (h :: q) cnt s = WaitQueue.wake_loop cpu limit q cnt s.
Proof.
  unfold is_interruptible. cbn. destruct (st s !! h) as [tk|]; [|done]. intros H.
  destruct (task_status tk); try done.
Qed.

Lemma wake_loop_ok limit q : limit <= usize_max -> forall cnt s, can_wake (length q) s -> NoDup q ->
  0 <= cnt < limit -> wake_loop_post limit q cnt s.
Proof.
  intros Hlim. unfold wake_loop_post. induction q as [|h q IH]; intros cnt s Hc Hnd Hcnt.
  { exists [], [], s. split; [done|]. cbn. rewrite Z.add_0_r. split_and!; try done; try lia; [by right|].
    intros h Hh. by apply not_elem_of_nil in Hh. }
  apply NoDup_cons in Hnd as [Hh Hnd]. destruct (is_interruptible (st s) h) eqn:E; cycle 1.
  { destruct (IH cnt s) as (pre & q' & s' & -> & Hpost); [by apply can_wake_less|done..|].
    exists (h :: pre), q', s'. split; [done|]. rewrite wake_loop_skip by done. cbn [List.filter]. by rewrite E. }
  pose proof E as E'. unfold is_interruptible in E'. cbn [WaitQueue.wake_loop].
  destruct (st s !! h) as [tk|] eqn:Ht; [|done]. apply bool_decide_eq_true_1 in E'. rewrite E'.
  destruct (wake_one_step (length q) s h Hc) as (s1 & -> & Hc1 & Hs1 & Hin1 & Hm1); [by eauto|].
  cbn [mbind outcome_bind]. rewrite add64_small by (unfold in_range, usize_max in *; lia).
  destruct (Z.eqb_spec (cnt + 1) limit) as [Heq|Hne].
  - exists [h], q, s1. split; [done|]. cbn [List.filter]. rewrite E. cbn [length]. split_and!; try done; try lia.
    intros x Hx. by apply list_elem_of_singleton in Hx as ->.
  - destruct (IH (cnt + 1) s1 Hc1 Hnd) as (pre & q' & s' & -> & Hrun & Hle & Hor & Hs & Hin & Hm); [lia|].
    assert (List.filter (is_interruptible (st s1)) pre = List.filter (is_interruptible (st s)) pre) as Hf.
    { apply filter_ext_elem. intros x Hx. apply (statuses_other _ _ h); [done|].
      intros ->. apply Hh. apply elem_of_app. by left. }
    exists (h :: pre), q', s'. split; [done|]. rewrite Hrun. cbn [List.filter]. rewrite E. cbn [length].
    rewrite Hf in *. replace (cnt + Z.of_nat (S (length (List.filter (is_interruptible (st s)) pre))))
      with (cnt + 1 + Z.of_nat (length (List.filter (is_interruptible (st s)) pre))) by lia.
    split_and!; try done.
    + pose proof (statuses_step (st s) (st s1) (st s') h pre Hs1 E) as H. rewrite Hf in H. specialize (H Hs).
      cbn [List.filter] in H. by rewrite E in H.
    + intros x Hx. apply elem_of_cons in Hx as [->|Hx]; [by apply Hm|by apply Hin].
    + intros x Hx. by apply Hm, Hm1.
Qed.
End Wake.

Definition wake_post cpu s q limit : Prop :=
  exists pre q' s', q = pre ++ q' /\
    let woken := List.filter (is_interruptible (st s)) pre in
    WaitQueue.wake_at_most s cpu q limit = Ret (Z.of_nat (length woken), q', s') /\
    Z.of_nat (length woken) <= limit /\ (Z.of_nat (length woken) = limit \/ q' = []) /\
    statuses (st s) (st s') woken /\
    (forall h, h ∈ woken -> in_ready s' h) /\ (forall x, in_ready s x -> in_ready s' x).

Lemma wake_at_most_ok cpu s q limit : can_wake cpu (length q) s -> NoDup q -> 0 <= limit <= usize_max ->
  wake_post cpu s q limit.
Proof.
  intros Hc Hnd Hlim. unfold wake_post, WaitQueue.wake_at_most. destruct (Z.eqb_spec limit 0) as [->|Hne].
  - exists [], q, s. split; [done|]. cbn. split_and!; try done; [by left|].
    intros h Hh. by apply not_elem_of_nil in Hh.
  - destruct (wake_loop_ok cpu limit q ltac:(lia) 0 s Hc Hnd) as (pre & q' & s' & -> & H); [lia|].
    cbv zeta in H. rewrite Z.add_0_l in H. by exists pre, q', s'.
Qed.

(** [wake_at_most] wakes in arrival order. From a queue without repetitions it
    takes a prefix; the tasks of the prefix that are alive and asleep, and no others,
    become ready, in status and in a run queue; the answer is their number, which
    never exceeds the limit; and it stops before the end of the queue only when the
    limit is reached. *)
Theorem wait_queue_wakes cpu s q limit : can_wake cpu (length q) s -> NoDup q -> 0 <= limit <= usize_max ->
  exists pre q' s', q = pre ++ q' /\
    let woken := List.filter (is_interruptible (st s)) pre in
    WaitQueue.wake_at_most s cpu q limit = Ret (Z.of_nat (length woken), q', s') /\
    Z.of_nat (length woken) <= limit /\ (Z.of_nat (length woken) = limit \/ q' = []) /\
    statuses (st s) (st s') woken /\
    (forall h, h ∈ woken -> in_ready s' h) /\ (forall x, in_ready s x -> in_ready s' x).
Proof. apply wake_at_most_ok. Qed.

(** The demonstration state for wait queues: tasks 2 and 4 asleep on CPUs 0 and 1. *)
Definition demo_sleep_st : tstore :=
  alter (fun t => set_status t Interruptible) 2 (alter (fun t => set_status t Interruptible) 4 TaskManager.demo_st).
Definition demo_state : Managers.t :=
  Mk demo_sleep_st [TaskManager.add_interruptible TaskManager.new 2; TaskManager.add_interruptible TaskManager.new 4;
                    TaskManager.new; TaskManager.new].

Lemma demo_can_wake : can_wake 0 4 demo_state.
Proof.
  assert (TaskManager.store_ok demo_sleep_st) as Hs.
  { apply TaskManager.store_ok_check, (bool_decide_eq_true_1 _). vm_compute. reflexivity. }
  assert (forall h, h ∈ [2; 4] -> TaskManager.inv demo_sleep_st (TaskManager.add_interruptible TaskManager.new h)) as Hi.
  { intros h Hh. apply TaskManager.sleep_ok; [apply TaskManager.manager_inv_new| |].
    - apply list_elem_of_In in Hh as [<-|[<-|[]]]; vm_compute; eauto.
    - vm_compute. intros H. by apply not_elem_of_nil in H. }
  split_and!; [|repeat constructor; vm_compute; reflexivity|done..].
  constructor; [done|]. cbn [managers demo_state].
  repeat (apply Forall_cons; split); try apply TaskManager.manager_inv_new; try (apply Hi; set_solver). constructor.
Qed.

(** With a dead reference, a task that is awake, and two sleepers. *)
Lemma wait_queue_wakes_witness :
  exists pre q' s', [9; 3; 4; 2] = pre ++ q' /\
    let woken := List.filter (is_interruptible (st demo_state)) pre in
    WaitQueue.wake_at_most demo_state 0 [9; 3; 4; 2] 1 = Ret (Z.of_nat (length woken), q', s') /\
    Z.of_nat (length woken) <= 1 /\ (Z.of_nat (length woken) = 1 \/ q' = []) /\
    statuses (st demo_state) (st s') woken /\
    (forall h, h ∈ woken -> in_ready s' h) /\ (forall x, in_ready demo_state x -> in_ready s' x).
Proof.
  apply wait_queue_wakes; [exact demo_can_wake|apply (bool_decide_eq_true_1 _); reflexivity|vm_compute; split; congruence].
Defined.

(** * Timeouts *)

Definition ts_le (a b : TimeSpec.t) : Prop := TimeSpec.cmp a b <> Gt.

Lemma ts_le_iff a b : ts_le a b <->
  TimeSpec.tv_sec a < TimeSpec.tv_sec b \/
  TimeSpec.tv_sec a = TimeSpec.tv_sec b /\ TimeSpec.tv_nsec a <= TimeSpec.tv_nsec b.
Proof.
  unfold ts_le, TimeSpec.cmp. destruct (Z.compare_spec (TimeSpec.tv_sec a) (TimeSpec.tv_sec b));
    [destruct (Z.compare_spec (TimeSpec.tv_nsec a) (TimeSpec.tv_nsec b))|..]; split; try done; try lia.
Qed.

(** Popping the heap takes a waiter with the least timeout. *)
Lemma heap_pop_spec q :
  match TimeoutWaitQueue.heap_pop q with
  | None => q = []
  | Some (w, r) => q ≡ₚ w :: r /\
      forall x, x ∈ r -> ts_le (TimeoutWaitQueue.timeout w) (TimeoutWaitQueue.timeout x)
  end.
Proof.
  induction q as [|w q IH]; [done|]. cbn. destruct (TimeoutWaitQueue.heap_pop q) as [[w' r]|].
  - destruct IH as [Hp Hle]. unfold TimeoutWaitQueue.waiter_cmp.
    destruct (TimeSpec.cmp (TimeoutWaitQueue.timeout w) (TimeoutWaitQueue.timeout w')) eqn:E; cbn.
    1,2: split; [done|]; intros x Hx; rewrite Hp in Hx; apply elem_of_cons in Hx as [->|Hx];
      [unfold ts_le; by rewrite E|]; specialize (Hle x Hx); assert (ts_le (TimeoutWaitQueue.timeout w)
      (TimeoutWaitQueue.timeout w')) as H by (unfold ts_le; by rewrite E); rewrite ts_le_iff in *; lia.
    split; [rewrite Hp; constructor|]. intros x Hx. apply elem_of_cons in Hx as [->|Hx]; [|by apply Hle].
    assert (~ ts_le (TimeoutWaitQueue.timeout w) (TimeoutWaitQueue.timeout w')) as H
      by (unfold ts_le; rewrite E; naive_solver). rewrite ts_le_iff in *. lia.
  - subst q. split; [done|]. intros x Hx. by apply not_elem_of_nil in Hx.
Qed.

Definition expired (now : TimeSpec.t) (w : TimeoutWaitQueue.waiter) : bool :=
  match TimeSpec.cmp (TimeoutWaitQueue.timeout w) now with Gt => false | _ => true end.

Lemma expired_le now w : expired now w = true <-> ts_le (TimeoutWaitQueue.timeout w) now.
Proof. unfold expired, ts_le. destruct (TimeSpec.cmp _ _); naive_solver. Qed.

Lemma ts_le_trans a b c : ts_le a b -> ts_le b c -> ts_le a c.
Proof. rewrite !ts_le_iff. lia. Qed.

Definition expired_tasks (now : TimeSpec.t) (q : TimeoutWaitQueue.t) : list Z :=
  map TimeoutWaitQueue.task (List.filter (expired now) q).

Definition timeout_post cpu now q s fuel : Prop :=
  exists q' s', TimeoutWaitQueue.wake_loop fuel cpu q now s = Ret (q', s') /\
    q' ≡ₚ List.filter (fun w => negb (expired now w)) q /\
    exists order, order ≡ₚ expired_tasks now q /\
    let woken := List.filter (is_interruptible (st s)) order in
    statuses (st s) (st s') woken /\
    (forall h, h ∈ woken -> in_ready s' h) /\ (forall x, in_ready s x -> in_ready s' x).

(** Nothing is expired once the least timeout lies in the future. *)
Lemma none_expired now w (r : list TimeoutWaitQueue.waiter) :
  (forall x, x ∈ r -> ts_le (TimeoutWaitQueue.timeout w) (TimeoutWaitQueue.timeout x)) ->
  expired now w = false -> List.filter (expired now) (w :: r) = [] /\
    List.filter (fun w => negb (expired now w)) (w :: r) = w :: r.
Proof.
  intros Hle Hw.
  assert (forall x, x ∈ w :: r -> expired now x = false) as H.
  { intros x Hx. apply elem_of_cons in Hx as [->|Hx]; [done|]. destruct (expired now x) eqn:E; [|done].
    apply expired_le in E. specialize (Hle x Hx). pose proof (ts_le_trans _ _ _ Hle E) as E2.
    apply expired_le in E2. congruence. }
  split.
  - rewrite (filter_ext_elem _ (fun _ => false)) by done. generalize (w :: r) as l. by induction l.
  - rewrite (filter_ext_elem _ (fun _ => true)) by (intros x Hx; by rewrite (H x Hx)). generalize (w :: r) as l.
    induction l as [|y l IH]; [done|]. cbn. by rewrite IH.
Qed.

#[global] Instance filter_bool_Proper {A} (p : A -> bool) : Proper (Permutation ==> Permutation) (List.filter p).
Proof.
  intros l l' H. induction H as [|x l l' H IH|x y l|l1 l2 l3 _ IH1 _ IH2]; cbn; [done| | |by rewrite IH1].
  - destruct (p x); by rewrite IH.
  - destruct (p x), (p y); done || constructor.
Qed.

Lemma expired_pop now w r q : q ≡ₚ w :: r -> expired now w = true ->
  expired_tasks now q ≡ₚ TimeoutWaitQueue.task w :: expired_tasks now r /\
  List.filter (fun w => negb (expired now w)) q ≡ₚ List.filter (fun w => negb (expired now w)) r.
Proof. intros H E. unfold expired_tasks. rewrite H. cbn. rewrite E. done. Qed.

(** One expired waiter: what the loop does with it, then the rest. *)
Lemma timeout_step cpu now q w r s fuel n : TimeoutWaitQueue.heap_pop q = Some (w, r) ->
  q ≡ₚ w :: r -> expired now w = true -> can_wake cpu (S n) s ->
  (forall s1, can_wake cpu n s1 -> timeout_post cpu now r s1 fuel) -> timeout_post cpu now q s (S fuel).
Proof.
  intros Hpop Hp He Hc IH. destruct (expired_pop now w r q Hp He) as [Ht Hq].
  unfold timeout_post. cbn [TimeoutWaitQueue.wake_loop]. rewrite Hpop.
  set (h := TimeoutWaitQueue.task w) in *. unfold expired in He.
  destruct (is_interruptible (st s) h) eqn:E; cycle 1.
  - destruct (IH s (can_wake_less _ _ _ Hc)) as (q' & s' & Hrun & Hq' & order & Ho & Hs & Hin & Hm).
    exists q', s'. split.
    { rewrite <- Hrun. unfold is_interruptible in E.
      destruct (TimeSpec.cmp _ now); try done; destruct (st s !! h) as [tk|]; try done; by destruct (task_status tk). }
    split; [by rewrite Hq|]. exists (h :: order). split; [by rewrite Ht, Ho|].
    cbn [List.filter]. by rewrite E.
  - pose proof E as E'. unfold is_interruptible in E'. destruct (st s !! h) as [tk|] eqn:Hh; [|done].
    apply bool_decide_eq_true_1 in E'. rewrite E'.
    destruct (wake_one_step cpu n s h Hc) as (s1 & Hw & Hc1 & Hs1 & Hin1 & Hm1); [by eauto|].
    destruct (IH s1 Hc1) as (q' & s' & Hrun & Hq' & order & Ho & Hs & Hin & Hm).
    exists q', s'. split; [rewrite Hw; cbn; destruct (TimeSpec.cmp _ now); done|].
    split; [by rewrite Hq|]. exists (h :: order). split; [by rewrite Ht, Ho|]. cbv zeta. split_and!.
    + by apply (statuses_step _ (st s1)).
    + intros x Hx. apply elem_of_filter_bool in Hx as [Hx Hix]. destruct (decide (x = h)) as [->|Hne]; [by apply Hm|].
      apply Hin, elem_of_filter_bool. rewrite (statuses_other _ _ _ _ Hs1 Hne). split; [|done].
      by apply elem_of_cons in Hx as [?|?].
    + intros x Hx. by apply Hm, Hm1.
Qed.

Lemma timeout_loop_ok cpu now fuel : forall q s, (length q < fuel)%nat -> can_wake cpu (length q) s ->
  timeout_post cpu now q s fuel.
Proof.
  induction fuel as [|fuel IH]; intros q s Hf Hc; [lia|]. pose proof (heap_pop_spec q) as Hpop.
  destruct (TimeoutWaitQueue.heap_pop q) as [[w r]|] eqn:Eq.
  - destruct Hpop as [Hp Hle]. pose proof (Permutation_length Hp) as Hlen. cbn in Hlen. rewrite Hlen in Hc.
    destruct (expired now w) eqn:E.
    + eapply timeout_step; try done. intros s1 Hc1. apply IH; [lia|done].
    + destruct (none_expired now w r Hle E) as [H1 H2]. exists (r ++ [w]), s. cbn [TimeoutWaitQueue.wake_loop].
      rewrite Eq. unfold expired in E. destruct (TimeSpec.cmp _ now); try done. split; [done|].
      split; [rewrite Hp, H2; symmetry; apply Permutation_cons_append|]. exists [].
      split; [unfold expired_tasks; by rewrite Hp, H1|]. cbn. split_and!; try done.
      intros h Hh. by apply not_elem_of_nil in Hh.
  - subst q. exists [], s. cbn. split_and!; try done. exists []. split_and!; try done.
    intros h Hh. by apply not_elem_of_nil in Hh.
Qed.

(** C36: the timer wakes exactly the expired waiters. [wake_expired] returns with the
    waiters whose timeout is not after now removed and all others kept; every task of
    a removed waiter that was alive and asleep is ready afterwards, in status and in a
    run queue, and no other task's status changes. *)
Theorem wake_expired_exact cpu s q now : can_wake cpu (length q) s ->
  exists q' s', TimeoutWaitQueue.wake_expired s cpu q now = Ret (q', s') /\
    q' ≡ₚ List.filter (fun w => negb (expired now w)) q /\
    (forall h, task_status <$> st s' !! h =
       if bool_decide (h ∈ expired_tasks now q) && is_interruptible (st s) h then Some Ready
       else task_status <$> st s !! h) /\
    (forall h, h ∈ expired_tasks now q -> is_interruptible (st s) h = true -> in_ready s' h).
Proof.
  intros Hc. destruct (timeout_loop_ok cpu now (S (length q)) q s) as (q' & s' & Hr & Hq & order & Ho & Hs & Hin & _);
    [lia|done|]. exists q', s'. split_and!; try done.
  - intros h. rewrite (Hs h). replace (bool_decide (h ∈ List.filter (is_interruptible (st s)) order))
      with (bool_decide (h ∈ expired_tasks now q) && is_interruptible (st s) h); [done|].
    apply eq_bool_prop_intro. rewrite andb_True, !bool_decide_spec, elem_of_filter_bool, Is_true_true.
    by rewrite Ho.
  - intros h Hh Hi. apply Hin, elem_of_filter_bool. by rewrite Ho.
Qed.

(** With one waiter expired and one in the future. *)
Lemma wake_expired_exact_witness :
  let w h n := TimeoutWaitQueue.Waiter h (TimeSpec.Mk 5 n) in
  let q := [w 4 700; w 2 100] in let now := TimeSpec.Mk 5 500 in
  exists q' s', TimeoutWaitQueue.wake_expired demo_state 0 q now = Ret (q', s') /\
    q' ≡ₚ List.filter (fun w => negb (expired now w)) q /\
    (forall h, task_status <$> st s' !! h =
       if bool_decide (h ∈ expired_tasks now q) && is_interruptible (st demo_state) h then Some Ready
       else task_status <$> st demo_state !! h) /\
    (forall h, h ∈ expired_tasks now q -> is_interruptible (st demo_state) h = true -> in_ready s' h).
Proof.
  apply wake_expired_exact. apply can_wake_less, can_wake_less. exact demo_can_wake.
Defined.
