(* ===== verification/Kill.v ===== *)
(** * Kill: sending signals (os/src/syscall/process.rs)

    [sys_kill], [sys_tkill] and [sys_tgkill] on the task managers of all CPUs, with the
    pending signals of every task. *)
From S2P Require Import Prelude Errno Signal Sched SchedClass TaskManager WaitQueue.
Import Managers.

Record t : Type := Mk { mgr : Managers.t; pending : gmap Z Signals.t }.
Implicit Types (rounds : list ((Z -> bool) * (Managers.t -> Managers.t))).

(** The signal is added to a task, which is woken if it sleeps; [rounds] are the rounds of
    the wake-up loop, [None] a loop that still spins. *)
Definition post (rounds : list ((Z -> bool) * (Managers.t -> Managers.t))) (s : t) (h : Z) (signal : Signals.t) : outcome (option t) :=
  let p := <[h := Signals.union (default 0 (pending s !! h)) signal]> (pending s) in
  if is_interruptible (st (mgr s)) h then
    o ← wake_interruptible rounds (set_task_status (mgr s) h Ready) h;
    Ret (option_map (fun m => Mk m p) o)
  else Ret (Some (Mk (mgr s) p)).
Definition reply (r : Z) (m : outcome (option t)) : outcome (option (Z * t)) := o ← m; Ret (option_map (fun s => (r, s)) o).

Definition sys_kill rounds (s : t) (current : option Z) (pid sig : Z) : outcome (option (Z * t)) :=
  match Signals.from_signum sig with
  | Err _ => Ret (Some (EINVAL, s))
  | Ok signal =>
      if 0 <? pid then
        match find_task_by_tgid (mgr s) current pid with
        | Some h => if negb (signal =? 0) then reply SUCCESS (post rounds s h signal) else Ret (Some (SUCCESS, s))
        | None => Ret (Some (ESRCH, s))
        end
      else Ret (Some (SUCCESS, s))
  end.
Definition sys_tkill rounds (s : t) (current : option Z) (tid sig : Z) : outcome (option (Z * t)) :=
  match Signals.from_signum sig with
  | Err _ => Ret (Some (EINVAL, s))
  | Ok signal =>
      if 0 <? tid then
        match find_task_by_pid (mgr s) current tid with
        | Some h => if negb (signal =? 0) then reply SUCCESS (post rounds s h signal) else Ret (Some (SUCCESS, s))
        | None => Ret (Some (ESRCH, s))
        end
      else Panic
  end.
Definition sys_tgkill rounds (s : t) (current : option Z) (tgid tid sig : Z) : outcome (option (Z * t)) :=
  match Signals.from_signum sig with
  | Err _ => Ret (Some (EINVAL, s))
  | Ok signal =>
      match find_task_by_tgid (mgr s) current tgid with
      | Some h =>
          if negb (signal =? 0) then
            if pid (st (mgr s) !!! h) =? tid then reply SUCCESS (post rounds s h signal) else Ret (Some (SUCCESS, s))
          else Ret (Some (SUCCESS, s))
      | None => Ret (Some (ESRCH, s))
      end
  end.

Lemma wake_uncontended_ready (s : Managers.t) h others : inv s -> room 1 s -> is_Some (st s !! h) -> managers s <> [] ->
  exists ok s', wake_interruptible [(fun _ => true, others)] s h = Ret (Some s') /\ woken s ok s' /\ in_ready s' h.
Proof.
  intros Hi Hr Hh Hne. assert (exists n, length (managers s) = S n) as [n Hn] by (destruct (managers s) as [|? l]; [done|by exists (length l)]).
  assert (forall c, c ∈ all_cpus s -> 0 <= c < Z.of_nat (length (managers s))) as Hc.
  { intros c Hin. unfold all_cpus in Hin. apply list_elem_of_fmap in Hin as (i & -> & Hin%elem_of_seq). lia. }
  assert (all_cpus s = 0 :: map Z.of_nat (seq 1 n)) as E by (unfold all_cpus; by rewrite Hn). cbn [wake_interruptible]. rewrite E in *. cbn [wake_pass].
  destruct (try_wake_on s 0 h Hi Hr (Hc 0 ltac:(left)) Hh) as (ok & s1 & -> & Hw & Hin). cbn [mbind outcome_bind]. destruct ok.
  { exists true, s1. by split. }
  destruct (wake_pass_ok h (map Z.of_nat (seq 1 n)) s1) as (ok & s' & -> & Hw').
  - apply Hw.
  - apply (w_room _ _ _ Hw). cbn. by rewrite Z.add_0_r.
  - apply (same_tasks_dom _ _ _ (w_tasks _ _ _ Hw) Hh).
  - intros c Hin'. rewrite (w_len _ _ _ Hw). apply Hc. by right.
  - exists ok, s'. split; [done|]. split; [by eapply woken_trans|]. by apply (w_ready _ _ _ Hw').
Qed.

Lemma post_ok (s : t) h signal others : inv (mgr s) -> room 1 (mgr s) -> is_Some (st (mgr s) !! h) -> managers (mgr s) <> [] ->
  exists s', post [(fun _ => true, others)] s h signal = Ret (Some s') /\ inv (mgr s') /\
    pending s' = <[h := Signals.union (default 0 (pending s !! h)) signal]> (pending s) /\
    (is_interruptible (st (mgr s)) h = true -> in_ready (mgr s') h) /\ (forall x, in_ready (mgr s) x -> in_ready (mgr s') x).
Proof.
  intros Hi Hr Hh Hne. unfold post. destruct (is_interruptible (st (mgr s)) h); [|by eexists].
  destruct (wake_uncontended_ready (set_task_status (mgr s) h Ready) h others) as (ok & m & -> & Hw & Hin); [by apply set_status_inv|done| |done|].
  - cbn. rewrite lookup_alter_eq. by destruct Hh as [? ->].
  - cbn [mbind outcome_bind option_map]. eexists. split; [done|]. cbn [mgr pending]. split; [apply Hw|]. split; [done|]. split; [done|]. apply (w_ready _ _ _ Hw).
Qed.

(** [sys_tkill] reaches the thread: the signal is pending for it, no other task's pending
    signals change, and if the thread slept it is now ready on some CPU. *)
Theorem tkill_reaches (s : t) current tid sig h others : inv (mgr s) -> room 1 (mgr s) -> managers (mgr s) <> [] -> 0 < tid -> 1 <= sig <= 64 ->
  find_task_by_pid (mgr s) current tid = Some h -> is_Some (st (mgr s) !! h) ->
  exists s', sys_tkill [(fun _ => true, others)] s current tid sig = Ret (Some (SUCCESS, s')) /\ inv (mgr s') /\
    Z.testbit (default 0 (pending s' !! h)) (sig - 1) = true /\ (forall x, x <> h -> pending s' !! x = pending s !! x) /\
    (is_interruptible (st (mgr s)) h = true -> in_ready (mgr s') h).
Proof.
  intros Hi Hr Hne Ht Hsig Hf Hh. unfold sys_tkill. rewrite from_signum_bit by done. rewrite (proj2 (Z.ltb_lt _ _)) by done. rewrite Hf.
  assert (Signals.bit sig =? 0 = false) as ->.
  { apply Z.eqb_neq. intros E. pose proof (testbit_bit sig (sig - 1) Hsig ltac:(lia)) as Hb. rewrite E, Z.bits_0, Z.eqb_refl in Hb. done. }
  destruct (post_ok s h (Signals.bit sig) others Hi Hr Hh Hne) as (s' & E & Hi' & Hp & Hw & _). cbn [negb]. unfold reply. rewrite E. cbn [mbind outcome_bind option_map].
  exists s'. split; [done|]. split; [done|]. rewrite Hp. split; [|split; [|done]].
  - rewrite lookup_insert_eq. change (Z.testbit (Z.lor (default 0 (pending s !! h)) (Signals.bit sig)) (sig - 1) = true). rewrite Z.lor_spec, testbit_bit, Z.eqb_refl by lia. apply orb_true_r.
  - intros x Hx. by rewrite lookup_insert_ne.
Qed.

(** Task 4 of the demonstration sleeps. *)
Definition demo_kill : t := Mk (Managers.Mk (fst TaskManager.demo) [snd TaskManager.demo]) ∅.
Lemma tkill_reaches_witness : exists s', sys_tkill [(fun _ => true, id)] demo_kill (Some 2) 4 15 = Ret (Some (SUCCESS, s')) /\
  Z.testbit (default 0 (pending s' !! 4)) 14 = true.
Proof.
  pose proof (TaskManager.manager_reachable_inv _ _ TaskManager.manager_demo_reachable) as [Hs Hi].
  destruct (tkill_reaches demo_kill (Some 2) 4 15 4 id) as (s' & E & _ & Hb & _).
  - split; [exact Hs|]. constructor; [exact Hi|constructor].
  - constructor; [vm_compute; reflexivity|constructor].
  - done.
  - lia.
  - lia.
  - vm_compute. reflexivity.
  - vm_compute. eauto.
  - by exists s'.
Defined.

(** [sys_tgkill] looks at one task of the group, whichever comes first: a signal to another
    thread of the caller's own process is dropped, and the call reports success. *)
Definition two_threads : t :=
  Mk (Managers.Mk {[1 := Tcb 1 1 true 0 Running 0x80200000 SchedEntity.default; 2 := Tcb 2 1 false TASK_NOT_RUNNING Ready 0x80200000 SchedEntity.default]} [TaskManager.new]) ∅.
Example tgkill_drops_signal : sys_tgkill [(fun _ => true, id)] two_threads (Some 1) 1 2 15 = Ret (Some (SUCCESS, two_threads)).
Proof. vm_compute. reflexivity. Qed.
