(* ===== verification/Futex.v ===== *)
(** Futexes ([os/src/task/threads.rs]).

    A process's futexes map word addresses to wait queues. [do_futex_wait] is modelled
    in the two halves that the blocking call in its middle separates. *)
From S2P Require Import Prelude Errno BTree Sched SchedClass TaskManager Timer WaitQueue.

Inductive FutexCmd : Type :=
| Wait | Wake | Fd | Requeue | CmpRequeue | WakeOp | LockPi | UnlockPi | TrylockPi | WaitBitset | Invalid.

(** [FromPrimitive] with a default. *)
Definition futex_cmd_from (n : Z) : FutexCmd :=
  match n with
  | 0 => Wait | 1 => Wake | 2 => Fd | 3 => Requeue | 4 => CmpRequeue | 5 => WakeOp | 6 => LockPi
  | 7 => UnlockPi | 8 => TrylockPi | 9 => WaitBitset | _ => Invalid
  end.

Module Futex.

Abbreviation t := (gmap Z WaitQueue.t).

Definition new : t := ∅.
Definition clear (f : t) : t := ∅.

Definition wake (s : Managers.t) (cpu_id : Z) (f : t) (addr val : Z) : outcome (Z * t * Managers.t) :=
  match f !! addr with
  | Some q =>
      '(ret, q', s') ← WaitQueue.wake_at_most s cpu_id q val;
      let f' := delete addr f in
      Ret (ret, if WaitQueue.is_empty q' then f' else <[addr := q']> f', s')
  | None => Ret (0, f, s)
  end.

(** The loop that moves waiters, until [val2] are moved. *)
Fixpoint move (q q2 : WaitQueue.t) (cnt val2 : Z) : WaitQueue.t * WaitQueue.t * Z :=
  match q with
  | [] => ([], q2, cnt)
  | h :: r =>
      let q2 := WaitQueue.add_task q2 h in
      let cnt := cnt + 1 in
      if cnt =? val2 then (r, q2, cnt) else move r q2 cnt val2
  end.

Definition requeue (s : Managers.t) (cpu_id : Z) (f : t) (addr addr2 val val2 : Z)
    : outcome (Z * t * Managers.t) :=
  '(wake_cnt, f1, s') ← (if negb (val =? 0) then wake s cpu_id f addr val else Ret (0, f, s));
  match f1 !! addr with
  | Some q =>
      let f2 := delete addr f1 in
      let '(q2, f3) := match f2 !! addr2 with Some q2 => (q2, delete addr2 f2) | None => (WaitQueue.new, f2) end in
      let '(q', q2', requeue_cnt) := if negb (val2 =? 0) then move q q2 0 val2 else (q, q2, 0) in
      let f4 := if WaitQueue.is_empty q' then f3 else <[addr := q']> f3 in
      let f5 := if WaitQueue.is_empty q2' then f4 else <[addr2 := q2']> f4 in
      Ret (wake_cnt + requeue_cnt, f5, s')
  | None => Ret (wake_cnt, f1, s')
  end.

(** [do_futex_wait] up to the point where the caller blocks: an error, or the caller is
    registered with the futex and with the timer. *)
Definition wait_prepare (f : t) (tq : TimeoutWaitQueue.t) (task addr word val : Z)
    (timeout : option TimeSpec.t) (now : TimeSpec.t) : Z + t * TimeoutWaitQueue.t :=
  let timeout := (fun d => TimeSpec.add d now) <$> timeout in
  if negb (word =? val) then inl EAGAIN
  else
    let q := default WaitQueue.new (f !! addr) in
    let f' := <[addr := WaitQueue.add_task q task]> (delete addr f) in
    inr (f', match timeout with Some at_ => TimeoutWaitQueue.add_task tq task at_ | None => tq end).

(** ... and after it runs again, with its pending signals and signal mask. *)
Definition wait_finish (sigpending sigmask : Z) : Z :=
  if negb (Z.land sigpending (not_bits 64 sigmask) =? 0) then EINTR else SUCCESS.

(** The waiters of an address. No queue in the map is empty. *)
Definition waiters (f : t) (addr : Z) : list Z := default [] (f !! addr).
Definition wf (f : t) : Prop := map_Forall (fun _ q => q <> []) f.

Lemma put_waiters (f : t) a q x : f !! a = None ->
  waiters (if WaitQueue.is_empty q then f else <[a := q]> f) x = if bool_decide (x = a) then q else waiters f x.
Proof.
  intros Ha. unfold WaitQueue.is_empty, waiters. case_bool_decide as Hq.
  - case_bool_decide as Hx; [|done]. by rewrite Hx, Ha, Hq.
  - case_bool_decide as Hx; [by rewrite Hx, lookup_insert_eq|]. by rewrite lookup_insert_ne.
Qed.

Lemma put_wf (f : t) a q : wf f -> wf (if WaitQueue.is_empty q then f else <[a := q]> f).
Proof.
  intros Hf. unfold WaitQueue.is_empty. case_bool_decide as Hq; [done|]. by apply map_Forall_insert_2.
Qed.

Lemma delete_wf (f : t) a : wf f -> wf (delete a f).
Proof. apply map_Forall_delete. Qed.

Lemma move_ok q : forall q2 cnt val2, 0 <= cnt < val2 ->
  move q q2 cnt val2 =
    (let n := Nat.min (Z.to_nat (val2 - cnt)) (length q) in (drop n q, q2 ++ take n q, cnt + Z.of_nat n)).
Proof.
  induction q as [|h q IH]; intros q2 cnt val2 Hc; cbn [move length].
  - rewrite Nat.min_0_r. cbn. by rewrite app_nil_r, Z.add_0_r.
  - unfold WaitQueue.add_task. destruct (Z.eqb_spec (cnt + 1) val2) as [E|E].
    + replace (Z.to_nat (val2 - cnt)) with 1%nat by lia. cbn. by rewrite drop_0, take_0.
    + rewrite IH by lia. replace (Z.to_nat (val2 - cnt)) with (S (Z.to_nat (val2 - (cnt + 1)))) by lia.
      cbn. rewrite <- app_assoc. cbn. f_equal. lia.
Qed.

(** Moving up to [val2] waiters from one queue to another. *)
Lemma requeue_only s cpu f a1 a2 val2 : a1 <> a2 -> 0 <= val2 -> wf f ->
  let n := Nat.min (Z.to_nat val2) (length (waiters f a1)) in
  exists f', requeue s cpu f a1 a2 0 val2 = Ret (Z.of_nat n, f', s) /\ wf f' /\
    waiters f' a1 = drop n (waiters f a1) /\ waiters f' a2 = waiters f a2 ++ take n (waiters f a1) /\
    forall x, x <> a1 -> x <> a2 -> waiters f' x = waiters f x.
Proof.
  intros Hne Hv Hf n. unfold requeue. cbn [Z.eqb negb mbind outcome_bind].
  destruct (f !! a1) as [q|] eqn:E1; cycle 1.
  { assert (waiters f a1 = []) as Hw by (unfold waiters; by rewrite E1). exists f.
    assert (n = 0%nat) as -> by (unfold n; rewrite Hw; apply Nat.min_0_r). rewrite Hw. cbn.
    rewrite app_nil_r. split_and!; done. }
  assert (waiters f a1 = q) as Hw1 by (unfold waiters; by rewrite E1). rewrite Hw1 in *.
  rewrite lookup_delete_ne by done.
  assert (exists f3, (match f !! a2 with Some q2 => (q2, delete a2 (delete a1 f)) | None => (WaitQueue.new, delete a1 f) end)
      = (waiters f a2, f3) /\ wf f3 /\ f3 !! a1 = None /\ f3 !! a2 = None /\
      forall x, x <> a1 -> x <> a2 -> waiters f3 x = waiters f x) as (f3 & -> & Hf3 & H1 & H2 & H3).
  { unfold waiters. destruct (f !! a2) as [q2|] eqn:E2; eexists.
    - split; [done|]. split_and!; [by apply delete_wf, delete_wf|by rewrite lookup_delete_ne, lookup_delete_eq|
        apply lookup_delete_eq|]. intros x Hx1 Hx2. by rewrite !lookup_delete_ne.
    - split; [done|]. split_and!; [by apply delete_wf|apply lookup_delete_eq|by rewrite lookup_delete_ne|].
      intros x Hx1 Hx2. by rewrite !lookup_delete_ne. }
  assert ((if negb (val2 =? 0) then move q (waiters f a2) 0 val2 else (q, waiters f a2, 0))
    = (drop n q, waiters f a2 ++ take n q, Z.of_nat n)) as ->.
  { destruct (Z.eqb_spec val2 0) as [->|Hz]; cbn [negb]; [cbn; by rewrite drop_0, take_0, app_nil_r|].
    rewrite move_ok by lia. unfold n. rewrite Hw1. by rewrite Z.sub_0_r. }
  eexists. split; [done|]. set (q1' := drop n q). set (q2' := waiters f a2 ++ take n q).
  set (f4 := if WaitQueue.is_empty q1' then f3 else <[a1 := q1']> f3).
  assert (f4 !! a2 = None) as H4 by (unfold f4; destruct (WaitQueue.is_empty q1'); [done|by rewrite lookup_insert_ne]).
  split_and!.
  - by apply put_wf, put_wf.
  - rewrite put_waiters by done. rewrite bool_decide_eq_false_2 by done. unfold f4. rewrite put_waiters by done.
    by rewrite bool_decide_eq_true_2.
  - rewrite put_waiters by done. by rewrite bool_decide_eq_true_2.
  - intros x Hx1 Hx2. rewrite put_waiters by done. rewrite bool_decide_eq_false_2 by done. unfold f4.
    rewrite put_waiters by done. rewrite bool_decide_eq_false_2 by done. by apply H3.
Qed.
(** Waking on one address: the waiters of a prefix are taken off, the rest stays. *)
Lemma futex_wake_ok s cpu f addr val : can_wake cpu (length (waiters f addr)) s -> NoDup (waiters f addr) ->
  0 <= val <= usize_max -> wf f ->
  exists pre rest f' s', waiters f addr = pre ++ rest /\
    let woken := List.filter (is_interruptible (Managers.st s)) pre in
    wake s cpu f addr val = Ret (Z.of_nat (length woken), f', s') /\ wf f' /\
    waiters f' addr = rest /\ (forall x, x <> addr -> waiters f' x = waiters f x) /\
    Z.of_nat (length woken) <= val /\ (Z.of_nat (length woken) = val \/ rest = []) /\
    statuses (Managers.st s) (Managers.st s') woken /\ (forall h, h ∈ woken -> Managers.in_ready s' h).
Proof.
  intros Hc Hnd Hv Hf. unfold wake. destruct (f !! addr) as [q|] eqn:E.
  - assert (waiters f addr = q) as Hq by (unfold waiters; by rewrite E). rewrite Hq in *.
    destruct (wake_at_most_ok cpu s q val Hc Hnd Hv) as (pre & rest & s' & -> & Hw & Hle & Hor & Hs & Hin & _).
    rewrite Hw. cbn [mbind outcome_bind]. do 4 eexists. split; [done|]. split; [done|]. split_and!; try done.
    + by apply put_wf, delete_wf.
    + rewrite put_waiters by apply lookup_delete_eq. by rewrite bool_decide_eq_true_2.
    + intros x Hx. rewrite put_waiters by apply lookup_delete_eq. rewrite bool_decide_eq_false_2 by done.
      unfold waiters. by rewrite lookup_delete_ne.
  - assert (waiters f addr = []) as Hq by (unfold waiters; by rewrite E). rewrite Hq. exists [], [], f, s.
    split; [done|]. cbn. split_and!; try done; try lia; [by right|]. intros h Hh. by apply not_elem_of_nil in Hh.
Qed.

Lemma requeue_split s cpu f a1 a2 val val2 c f1 s1 r f2 : val <> 0 ->
  wake s cpu f a1 val = Ret (c, f1, s1) -> requeue s1 cpu f1 a1 a2 0 val2 = Ret (r, f2, s1) ->
  requeue s cpu f a1 a2 val val2 = Ret (c + r, f2, s1).
Proof.
  intros Hv Hw Hr. unfold requeue in *. destruct (Z.eqb_spec val 0); [done|]. cbn [negb Z.eqb mbind outcome_bind] in *.
  rewrite Hw. cbn [mbind outcome_bind]. destruct (f1 !! a1) as [q|].
  - destruct (match delete a1 f1 !! a2 with Some _ => _ | None => _ end) as [q2 f3].
    destruct (if negb (val2 =? 0) then _ else _) as [[q' q2'] rc]. by injection Hr as <- <-.
  - injection Hr as <- <-. by rewrite Z.add_0_r.
Qed.

(** FUTEX_REQUEUE between two different words loses no waiter. Of the waiters on
    the first word a prefix is taken off, whose sleeping tasks (at most [val]) are
    woken; of the remaining ones the first [val2] are appended to the second word's
    queue in order and the others stay; the answer is the number woken plus the number
    moved; no other queue changes and no empty queue is kept. *)
Theorem futex_requeue_conserves s cpu f a1 a2 val val2 : a1 <> a2 ->
  can_wake cpu (length (waiters f a1)) s -> NoDup (waiters f a1) ->
  0 <= val <= usize_max -> 0 <= val2 -> wf f ->
  exists pre rest f' s', waiters f a1 = pre ++ rest /\
    let woken := List.filter (is_interruptible (Managers.st s)) pre in
    let n := Nat.min (Z.to_nat val2) (length rest) in
    requeue s cpu f a1 a2 val val2 = Ret (Z.of_nat (length woken) + Z.of_nat n, f', s') /\ wf f' /\
    waiters f' a1 = drop n rest /\ waiters f' a2 = waiters f a2 ++ take n rest /\
    (forall x, x <> a1 -> x <> a2 -> waiters f' x = waiters f x) /\
    Z.of_nat (length woken) <= val /\ (Z.of_nat (length woken) = val \/ rest = []) /\
    statuses (Managers.st s) (Managers.st s') woken.
Proof.
  intros Hne Hc Hnd Hv Hv2 Hf. destruct (Z.eq_dec val 0) as [->|Hz].
  - destruct (requeue_only s cpu f a1 a2 val2 Hne Hv2 Hf) as (f' & Hr & Hf' & H1 & H2 & H3).
    exists [], (waiters f a1), f', s. split; [done|]. cbn [List.filter length]. split_and!; try done. by left.
  - destruct (futex_wake_ok s cpu f a1 val Hc Hnd Hv Hf) as (pre & rest & f1 & s1 & Hq & Hw & Hf1 & Hr1 & Ho1 & Hle & Hor & Hs & _).
    destruct (requeue_only s1 cpu f1 a1 a2 val2 Hne Hv2 Hf1) as (f' & Hr & Hf' & H1 & H2 & H3). rewrite Hr1 in *.
    exists pre, rest, f', s1. split; [done|]. cbv zeta. rewrite (requeue_split s cpu f a1 a2 val val2 _ f1 s1 _ f' Hz Hw Hr).
    split_and!; try done.
    + rewrite H2, Ho1 by done. done.
    + intros x Hx1 Hx2. rewrite H3, Ho1 by done. done.
Qed.

(** One of two sleepers woken, one moved. *)
Lemma futex_requeue_conserves_witness :
  let f : t := {[0x1000 := [4; 2; 3]; 0x2000 := [1]]} in
  exists pre rest f' s', waiters f 0x1000 = pre ++ rest /\
    let woken := List.filter (is_interruptible (Managers.st demo_state)) pre in
    let n := Nat.min (Z.to_nat 1) (length rest) in
    requeue demo_state 0 f 0x1000 0x2000 1 1 = Ret (Z.of_nat (length woken) + Z.of_nat n, f', s') /\ wf f' /\
    waiters f' 0x1000 = drop n rest /\ waiters f' 0x2000 = waiters f 0x2000 ++ take n rest /\
    (forall x, x <> 0x1000 -> x <> 0x2000 -> waiters f' x = waiters f x) /\
    Z.of_nat (length woken) <= 1 /\ (Z.of_nat (length woken) = 1 \/ rest = []) /\
    statuses (Managers.st demo_state) (Managers.st s') woken.
Proof.
  intros f. apply futex_requeue_conserves; [lia|apply can_wake_less; exact demo_can_wake|
    apply (bool_decide_eq_true_1 _); reflexivity|vm_compute; split; congruence|lia|].
  apply (bool_decide_eq_true_1 (map_Forall (fun _ q => q <> []) f)). vm_compute. reflexivity.
Defined.

(** Requeueing a word onto itself loses the waiters that are not moved: both
    queues are written back under the same address, the second over the first. *)
Theorem futex_requeue_same_loses :
  (let f : t := {[0x1000 := [4; 2; 3]]} in
   '(n, f', _) ← requeue demo_state 0 f 0x1000 0x1000 0 1; Ret (n, waiters f' 0x1000)) = Ret (1, [4]).
Proof. vm_compute. reflexivity. Qed.

(** A futex wake-up can be lost. Between the registration of a waiter and the
    moment it goes to sleep its status is still Running; a FUTEX_WAKE in that window
    takes it off the queue, wakes nobody and answers 0, and the waiter then sleeps on a
    word no queue knows any more. The doc comment says that the load, the comparison
    and the sleep are atomic. *)
Theorem futex_wake_lost :
  let st := <[5 := Tcb 5 5 true 1 Running 0x80200000 SchedEntity.default]> TaskManager.demo_st in
  let s := Managers.init st in
  match wait_prepare new [] 5 0x1000 7 7 None TimeSpec.new with
  | inr (f, _) => waiters f 0x1000 = [5] /\
      ('(n, f', s') ← wake s 0 f 0x1000 1; Ret (n, f', map TaskManager.ready (Managers.managers s')))
        = Ret (0, new, [[]; []; []; []])
  | inl _ => False
  end.
Proof. split; vm_compute; reflexivity. Qed.

End Futex.
