(* ===== verification/Processor.v ===== *)
(** The scheduling loop of every CPU ([os/src/task/processor.rs], and the switching
    functions of [os/src/task/mod.rs]).

    A CPU is the position of its idle loop and the [Processor] record. The loop is cut
    where other CPUs can run in between: each definition below is executed by one CPU
    without interference on the data it touches, and the system interleaves them. *)
From S2P Require Import Prelude BTree Sched SchedClass TaskManager Timer WaitQueue.

(** Where a CPU is: at the top of [run_tasks], holding a taken pending task and its
    status, before [fetch_task], spinning on a fetched task, or in a task. *)
Inductive position : Type :=
| AtTop
| Flushing (h : Z) (status : TaskStatus)
| Fetching
| Waiting (h : Z)
| InTask.

Module Processor.

Record t : Type := Mk { pos : position; current : option Z; pending_task : option Z }.

Definition new : t := Mk AtTop None None.
Definition take_current (p : t) : option Z * t := (current p, Mk (pos p) None (pending_task p)).
Definition is_vacant (p : t) : bool := match current p with None => true | Some _ => false end.
Definition set_pending (p : t) (h : Z) : t := Mk (pos p) (current p) (Some h).
Definition take_pending (p : t) : option Z * t := (pending_task p, Mk (pos p) (current p) None).
Definition at_pos (p : t) (x : position) : t := Mk x (current p) (pending_task p).

End Processor.

Record sys : Type := Sys { mgr : Managers.t; processors : list Processor.t }.

Definition sys_init (st : tstore) : sys :=
  Sys (Managers.init st) (replicate (Z.to_nat MAX_CPU_NUM) Processor.new).

Definition task_of (s : sys) (h : Z) : tcb := Managers.st (mgr s) !!! h.
Definition update_task (s : sys) (h : Z) (f : tcb -> tcb) : sys :=
  Sys (Managers.Mk (<[h := f (task_of s h)]> (Managers.st (mgr s))) (Managers.managers (mgr s))) (processors s).
Definition set_processor (s : sys) (cpu : Z) (p : Processor.t) : outcome sys :=
  ps ← store (processors s) cpu p; Ret (Sys (mgr s) ps).

Definition set_running (t : tcb) (on : bool) (cpu : Z) : tcb :=
  Tcb (pid t) (tgid t) on cpu (task_status t) (task_cx_ra t) (sched_entity t).
Definition set_exec_start (e : SchedEntity.t) (now : Z) : SchedEntity.t :=
  SchedEntity.Mk (SchedEntity.vruntime e) (SchedEntity.nice e) (SchedEntity.weight e)
    (SchedEntity.sum_exec_runtime e) now (SchedEntity.prev_sum_exec_runtime e)
    (SchedEntity.last_cpu e) (SchedEntity.policy e) (SchedEntity.rt_priority e) (SchedEntity.cpu_affinity e).

(** A task leaves the CPU: its status is set and it becomes the pending task. The
    context switch goes back to the top of the loop. *)
Definition leave (s : sys) (cpu : Z) (h : Z) (x : TaskStatus) (p : Processor.t) : outcome sys :=
  set_processor (update_task s h (fun t => set_status t x)) cpu
    (Processor.at_pos (Processor.set_pending p h) AtTop).

Definition suspend_current_and_run_next (s : sys) (cpu : Z) : outcome sys :=
  p ← index (processors s) cpu;
  match Processor.take_current p with
  | (Some h, p') => leave s cpu h Ready p'
  | (None, _) => Ret s
  end.

Definition block_current_and_run_next (s : sys) (cpu : Z) : outcome sys :=
  p ← index (processors s) cpu;
  match Processor.take_current p with
  | (Some h, p') => leave s cpu h Interruptible p'
  | (None, _) => Panic
  end.

(** [exit_current_and_run_next]: the task becomes a zombie and nothing is pending. What
    [do_exit] does to other tasks are separate steps. *)
Definition exit_current_and_run_next (s : sys) (cpu : Z) : outcome sys :=
  p ← index (processors s) cpu;
  match Processor.take_current p with
  | (Some h, p') => set_processor (update_task s h (fun t => set_status t Zombie)) cpu (Processor.at_pos p' AtTop)
  | (None, _) => Panic
  end.

(** [run_tasks]: the pending task is taken, marked as off the CPU and charged for its
    run time; its status is read. *)
Definition flush_begin (s : sys) (cpu now : Z) : outcome sys :=
  p ← index (processors s) cpu;
  match Processor.take_pending p with
  | (Some h, p') =>
      let t := task_of s h in
      e ← SchedEntity.update_runtime (sched_entity t) now;
      let s' := update_task s h (fun t => set_entity (set_running t false TASK_NOT_RUNNING) e) in
      set_processor s' cpu (Processor.at_pos p' (Flushing h (task_status t)))
  | (None, p') => set_processor s cpu (Processor.at_pos p' Fetching)
  end.

(** ... and it is queued according to that status. *)
Definition flush_end (s : sys) (cpu : Z) (free : bool) : outcome sys :=
  p ← index (processors s) cpu;
  match Processor.pos p with
  | Flushing h Ready =>
      m ← Managers.add_task (mgr s) cpu free h;
      set_processor (Sys m (processors s)) cpu (Processor.at_pos p Fetching)
  | Flushing h Interruptible =>
      m ← Managers.sleep_interruptible (mgr s) cpu h;
      set_processor (Sys m (processors s)) cpu (Processor.at_pos p Fetching)
  | _ => Panic
  end.

Definition run_fetch (s : sys) (cpu : Z) : outcome sys :=
  p ← index (processors s) cpu;
  '(o, m) ← Managers.fetch_task (mgr s) cpu;
  set_processor (Sys m (processors s)) cpu
    (Processor.at_pos p (match o with Some h => Waiting h | None => AtTop end)).

Definition valid_ra (ra : Z) : bool :=
  negb (ra =? 0) && negb ((ra <? 0x80000000) || (0xffffffff00000000 <? ra)).

(** The fetched task is run once its previous CPU has switched away from it; the
    compare-and-exchange on [running_on_cpu] guards against running it twice. *)
Definition dispatch (s : sys) (cpu now : Z) : outcome sys :=
  p ← index (processors s) cpu;
  match Processor.pos p with
  | Waiting h =>
      let t := task_of s h in
      if on_cpu t then Ret s
      else if running_on_cpu t =? TASK_NOT_RUNNING then
        rust_assert (valid_ra (task_cx_ra t)) ;;
        let e := SchedEntity.set_last_cpu (set_exec_start (sched_entity t) now) cpu in
        let s' := update_task s h (fun t => set_status (set_entity (set_running t true cpu) e) Running) in
        set_processor s' cpu (Processor.Mk InTask (Some h) (Processor.pending_task p))
      else Panic
  | _ => Panic
  end.

(** Another CPU wakes a task if it is asleep ([do_exit], signals, wait queues). *)
Definition wake_task (s : sys) (cpu h : Z) : outcome sys :=
  match task_status (task_of s h) with
  | Interruptible =>
      m ← wake_local_or_global (set_task_status (mgr s) h Ready) cpu h; Ret (Sys m (processors s))
  | _ => Ret s
  end.

(** The tasks a CPU holds. *)
Definition holds (s : sys) (cpu h : Z) : Prop :=
  0 <= cpu /\ exists p, processors s !! Z.to_nat cpu = Some p /\
    (Processor.current p = Some h \/ Processor.pending_task p = Some h).

(** One step of one CPU, in the order of its loop; [StepOther] is everything else the
    kernel does: it may change the tasks and the queues at will, except the
    [running_on_cpu] field of a task that a CPU holds. *)
Inductive step : sys -> sys -> Prop :=
| StepSuspend s cpu s' p : processors s !! Z.to_nat cpu = Some p -> 0 <= cpu -> Processor.pos p = InTask ->
    suspend_current_and_run_next s cpu = Ret s' -> step s s'
| StepBlock s cpu s' p : processors s !! Z.to_nat cpu = Some p -> 0 <= cpu -> Processor.pos p = InTask ->
    block_current_and_run_next s cpu = Ret s' -> step s s'
| StepExit s cpu s' p : processors s !! Z.to_nat cpu = Some p -> 0 <= cpu -> Processor.pos p = InTask ->
    exit_current_and_run_next s cpu = Ret s' -> step s s'
| StepFlushBegin s cpu now s' p : processors s !! Z.to_nat cpu = Some p -> 0 <= cpu -> Processor.pos p = AtTop ->
    flush_begin s cpu now = Ret s' -> step s s'
| StepFlushEnd s cpu free s' : 0 <= cpu -> flush_end s cpu free = Ret s' -> step s s'
| StepFetch s cpu s' p : processors s !! Z.to_nat cpu = Some p -> 0 <= cpu -> Processor.pos p = Fetching ->
    run_fetch s cpu = Ret s' -> step s s'
| StepDispatch s cpu now s' : 0 <= cpu -> dispatch s cpu now = Ret s' -> step s s'
| StepOther s m' :
    (forall cpu h, holds s cpu h -> running_on_cpu (Managers.st m' !!! h) = running_on_cpu (task_of s h)) ->
    step s (Sys m' (processors s)).

Inductive reachable : sys -> Prop :=
| reach_init st : reachable (sys_init st)
| reach_step s s' : reachable s -> step s s' -> reachable s'.

(** * No task runs on two CPUs *)

(** What a CPU holds, by its position. *)
Definition pos_ok (p : Processor.t) : Prop :=
  match Processor.pos p with
  | InTask => Processor.pending_task p = None
  | AtTop => Processor.current p = None
  | _ => Processor.current p = None /\ Processor.pending_task p = None
  end.
Definition held (p : Processor.t) (h : Z) : Prop :=
  Processor.current p = Some h \/ Processor.pending_task p = Some h.

Record inv (s : sys) : Prop := {
  inv_len : length (processors s) = 4%nat;
  inv_pos : forall i p, processors s !! i = Some p -> pos_ok p;
  inv_held : forall i p h, processors s !! i = Some p -> held p h ->
    running_on_cpu (task_of s h) = Z.of_nat i;
}.

Lemma inv_init st : inv (sys_init st).
Proof.
  constructor; [done|..]; intros i p.
  - intros [-> _]%lookup_replicate_1. done.
  - intros h [-> _]%lookup_replicate_1 [?|?]; done.
Qed.

(** A step of CPU [c]: it changes its own processor, and may change [running_on_cpu]
    only for tasks that no other CPU holds. *)
Lemma inv_own s s' c p' : inv s -> processors s' = <[c := p']> (processors s) -> pos_ok p' ->
  (forall h, held p' h -> running_on_cpu (task_of s' h) = Z.of_nat c) ->
  (forall i p h, i <> c -> processors s !! i = Some p -> held p h ->
     running_on_cpu (task_of s' h) = running_on_cpu (task_of s h)) -> inv s'.
Proof.
  intros [Hl Hp Hh] E Hpos Hown Hother. constructor; rewrite E.
  - by rewrite length_insert.
  - intros i p Hi. apply list_lookup_insert_Some in Hi as [(<- & <- & _)|[_ Hi]]; [done|by eapply Hp].
  - intros i p h Hi Hhp. apply list_lookup_insert_Some in Hi as [(<- & <- & _)|[Hne Hi]]; [by apply Hown|].
    rewrite (Hother i p h) by done. by eapply Hh.
Qed.

Lemma set_processor_inv s cpu p s' : set_processor s cpu p = Ret s' ->
  mgr s' = mgr s /\ processors s' = <[Z.to_nat cpu := p]> (processors s).
Proof.
  unfold set_processor. intros (ps & Hs & [= <-])%bind_ret_inv. apply store_ret in Hs as [_ ->]. done.
Qed.

Lemma task_of_update s h f x : task_of (update_task s h f) x = if bool_decide (x = h) then f (task_of s h) else task_of s x.
Proof.
  unfold task_of, update_task. cbn [mgr Managers.st]. case_bool_decide as E; [subst; apply lookup_total_insert_eq|].
  by apply lookup_total_insert_ne.
Qed.

(** Updates that do not write [running_on_cpu]. *)
Lemma update_running s h f x : (forall t, running_on_cpu (f t) = running_on_cpu t) ->
  running_on_cpu (task_of (update_task s h f) x) = running_on_cpu (task_of s x).
Proof. intros H. rewrite task_of_update. case_bool_decide as E; [by rewrite H, E|done]. Qed.

Lemma inv_leave s cpu h x p s' : inv s -> processors s !! Z.to_nat cpu = Some p -> Processor.current p = Some h ->
  leave s cpu h x (snd (Processor.take_current p)) = Ret s' -> inv s'.
Proof.
  intros Hi Hp Hc Hl. unfold leave in Hl. apply set_processor_inv in Hl as [Hm Hps].
  assert (forall y, running_on_cpu (task_of s' y) = running_on_cpu (task_of s y)) as Hr.
  { intros y. rewrite <- (update_running s h (fun t => set_status t x) y) by done. unfold task_of. by rewrite Hm. }
  apply (inv_own s s' (Z.to_nat cpu) _ Hi Hps).
  - done.
  - intros y [Hy|[= <-]]; [done|]. rewrite Hr. eapply inv_held; [done..|by left].
  - intros; apply Hr.
Qed.

Lemma inv_suspend s cpu s' p : inv s -> processors s !! Z.to_nat cpu = Some p ->
  suspend_current_and_run_next s cpu = Ret s' -> inv s'.
Proof.
  intros Hi Hp Hs. unfold suspend_current_and_run_next in Hs. rewrite (proj2 (index_ret _ _ _) Hp) in Hs. cbn in Hs.
  destruct (Processor.current p) as [h|] eqn:E; [|congruence]. by eapply inv_leave.
Qed.

Lemma inv_block s cpu s' p : inv s -> processors s !! Z.to_nat cpu = Some p ->
  block_current_and_run_next s cpu = Ret s' -> inv s'.
Proof.
  intros Hi Hp Hs. unfold block_current_and_run_next in Hs. rewrite (proj2 (index_ret _ _ _) Hp) in Hs. cbn in Hs.
  destruct (Processor.current p) as [h|] eqn:E; [|congruence]. by eapply inv_leave.
Qed.

Lemma inv_exit s cpu s' p : inv s -> processors s !! Z.to_nat cpu = Some p -> Processor.pos p = InTask ->
  exit_current_and_run_next s cpu = Ret s' -> inv s'.
Proof.
  intros Hi Hp Hpos Hs. unfold exit_current_and_run_next in Hs. rewrite (proj2 (index_ret _ _ _) Hp) in Hs. cbn in Hs.
  destruct (Processor.current p) as [h|] eqn:E; [|congruence]. apply set_processor_inv in Hs as [Hm Hps].
  pose proof (inv_pos _ Hi _ _ Hp) as Hpo. unfold pos_ok in Hpo. rewrite Hpos in Hpo.
  apply (inv_own s s' (Z.to_nat cpu) _ Hi Hps); [done| |].
  - intros y [Hy|Hy]; cbn in Hy; congruence.
  - intros i q y _ _ _. rewrite <- (update_running s h (fun t => set_status t Zombie) y) by done. unfold task_of. by rewrite Hm.
Qed.

(** A task another CPU holds is not the one this CPU holds. *)
Lemma held_other s i j p q h x : inv s -> processors s !! i = Some p -> held p h -> processors s !! j = Some q ->
  held q x -> i <> j -> x <> h.
Proof.
  intros Hi Hp Hh Hq Hx Hne ->. pose proof (inv_held _ Hi _ _ _ Hp Hh). pose proof (inv_held _ Hi _ _ _ Hq Hx). lia.
Qed.

Lemma inv_flush_begin s cpu now s' p : inv s -> processors s !! Z.to_nat cpu = Some p -> Processor.pos p = AtTop ->
  flush_begin s cpu now = Ret s' -> inv s'.
Proof.
  intros Hi Hp Hpos Hs. unfold flush_begin in Hs. rewrite (proj2 (index_ret _ _ _) Hp) in Hs. cbn in Hs.
  pose proof (inv_pos _ Hi _ _ Hp) as Hpo. unfold pos_ok in Hpo. rewrite Hpos in Hpo.
  destruct (Processor.pending_task p) as [h|] eqn:E.
  - apply bind_ret_inv in Hs as (e & _ & Hs). apply set_processor_inv in Hs as [Hm Hps].
    apply (inv_own s s' (Z.to_nat cpu) _ Hi Hps); [by cbn|intros y [Hy|Hy]; cbn in Hy; congruence|].
    intros i q y Hne Hq Hy. pose proof (held_other s _ _ p q h y Hi Hp ltac:(by right) Hq Hy ltac:(done)) as Hyh.
    unfold task_of at 1. rewrite Hm. fold (task_of (update_task s h
      (fun t => set_entity (set_running t false TASK_NOT_RUNNING) e)) y). rewrite task_of_update.
    by rewrite bool_decide_eq_false_2.
  - apply set_processor_inv in Hs as [Hm Hps].
    apply (inv_own s s' (Z.to_nat cpu) _ Hi Hps); [by cbn|intros y [Hy|Hy]; cbn in Hy; congruence|].
    intros i q y _ _ _. unfold task_of. by rewrite Hm.
Qed.

Lemma add_running st m h st' m' x : TaskManager.add st m h = Ret (st', m') ->
  running_on_cpu (st' !!! x) = running_on_cpu (st !!! x).
Proof.
  unfold TaskManager.add. destruct (get_sched_class _).
  - by intros (q & _ & [= <- _])%bind_ret_inv.
  - destruct (CfsRunQueue.enqueue _ _ _ _ _) as [q e]. intros [= <- _].
    destruct (decide (x = h)) as [->|Hne]; [by rewrite lookup_total_insert_eq|by rewrite lookup_total_insert_ne].
  - by intros [= <- _].
Qed.

Lemma with_manager_st {A} m cpu (f : tstore -> TaskManager.t -> outcome (A * tstore * TaskManager.t)) a m' x :
  (forall m0 a0 st0 m1, f (Managers.st m) m0 = Ret (a0, st0, m1) ->
     running_on_cpu (st0 !!! x) = running_on_cpu (Managers.st m !!! x)) ->
  Managers.with_manager m cpu f = Ret (a, m') ->
  running_on_cpu (Managers.st m' !!! x) = running_on_cpu (Managers.st m !!! x).
Proof.
  intros Hf. unfold Managers.with_manager.
  intros (m0 & _ & ([[a0 st0] m1] & H1 & (ms & _ & [= _ <-])%bind_ret_inv)%bind_ret_inv)%bind_ret_inv. by eapply Hf.
Qed.

Lemma add_task_running m cpu free h m' x : Managers.add_task m cpu free h = Ret m' ->
  running_on_cpu (Managers.st m' !!! x) = running_on_cpu (Managers.st m !!! x).
Proof.
  assert (forall c, Managers.add_on m c h = Ret m' ->
    running_on_cpu (Managers.st m' !!! x) = running_on_cpu (Managers.st m !!! x)) as H.
  { intros c. unfold Managers.add_on. intros ([u m1] & H1 & [= <-])%bind_ret_inv. eapply with_manager_st; [|done].
    cbn. intros m0 a0 st0 m2 ([st1 m3] & H2 & [= _ <- _])%bind_ret_inv. by eapply add_running. }
  unfold Managers.add_task. destruct (_ && free); apply H.
Qed.

(** Queue operations of one CPU leave the processors and [running_on_cpu] alone. *)
Lemma inv_move s cpu m' x p s' : inv s -> processors s !! Z.to_nat cpu = Some p ->
  (forall y, running_on_cpu (Managers.st m' !!! y) = running_on_cpu (task_of s y)) ->
  Processor.current p = None -> Processor.pending_task p = None ->
  (x = AtTop \/ x = Fetching \/ exists h, x = Waiting h) ->
  set_processor (Sys m' (processors s)) cpu (Processor.at_pos p x) = Ret s' -> inv s'.
Proof.
  intros Hi Hp Hr Hc Hpd Hx Hs. apply set_processor_inv in Hs as [Hm Hps].
  apply (inv_own s s' (Z.to_nat cpu) _ Hi Hps).
  - destruct Hx as [->|[->|[h ->]]]; done.
  - intros y [Hy|Hy]; cbn in Hy; congruence.
  - intros i q y _ _ _. unfold task_of at 1. rewrite Hm. apply Hr.
Qed.

Lemma inv_flush_end s cpu free s' : inv s -> flush_end s cpu free = Ret s' -> inv s'.
Proof.
  intros Hi (p & Hp%index_ret & Hs)%bind_ret_inv. pose proof (inv_pos _ Hi _ _ Hp) as Hpo. unfold pos_ok in Hpo.
  destruct (Processor.pos p) as [|h status| | |]; try done. destruct Hpo as [Hc Hpd].
  destruct status; try done; apply bind_ret_inv in Hs as (m & Hm & Hs);
    (eapply inv_move; [done..| |done|done|by right; left|done]); intros y.
  - by eapply add_task_running.
  - unfold Managers.sleep_interruptible in Hm. apply bind_ret_inv in Hm as ([u m1] & H1 & [= <-]).
    eapply with_manager_st; [|done]. cbn. by intros ? ? ? ? [= _ <- _].
Qed.

Lemma inv_fetch s cpu s' p : inv s -> processors s !! Z.to_nat cpu = Some p -> Processor.pos p = Fetching ->
  run_fetch s cpu = Ret s' -> inv s'.
Proof.
  intros Hi Hp Hpos Hs. unfold run_fetch in Hs. rewrite (proj2 (index_ret _ _ _) Hp) in Hs. cbn [mbind outcome_bind] in Hs.
  pose proof (inv_pos _ Hi _ _ Hp) as Hpo. unfold pos_ok in Hpo. rewrite Hpos in Hpo. destruct Hpo as [Hc Hpd].
  apply bind_ret_inv in Hs as ([o m] & Hf & Hs). eapply inv_move; [done..| |done|done| |done].
  - intros y. unfold Managers.fetch_task in Hf. apply bind_ret_inv in Hf as (u & _ & Hf).
    eapply with_manager_st; [|done]. cbn. by intros m0 a0 st0 m1 ([o1 m2] & _ & [= _ <- _])%bind_ret_inv.
  - destruct o; [right; right; eauto|by left].
Qed.

Lemma inv_dispatch s cpu now s' : inv s -> 0 <= cpu -> dispatch s cpu now = Ret s' -> inv s'.
Proof.
  intros Hi Hc0 (p & Hp%index_ret & Hs)%bind_ret_inv. pose proof (inv_pos _ Hi _ _ Hp) as Hpo. unfold pos_ok in Hpo.
  destruct (Processor.pos p) as [| | |h|]; try done. destruct Hpo as [Hc Hpd].
  cbv zeta in Hs. destruct (on_cpu (task_of s h)); [by injection Hs as <-|].
  destruct (Z.eqb_spec (running_on_cpu (task_of s h)) TASK_NOT_RUNNING) as [Hnr|]; [|done].
  apply bind_ret_inv in Hs as (u & _ & Hs). apply set_processor_inv in Hs as [Hm Hps].
  assert (forall y, task_of s' y = task_of (update_task s h (fun t => set_status (set_entity (set_running t true cpu)
    (SchedEntity.set_last_cpu (set_exec_start (sched_entity (task_of s h)) now) cpu)) Running)) y) as Ht
    by (intros y; unfold task_of at 1; by rewrite Hm).
  apply (inv_own s s' (Z.to_nat cpu) _ Hi Hps); [done| |].
  - intros y [Hy|Hy]; cbn in Hy; [injection Hy as <-|congruence]. rewrite Ht, task_of_update, bool_decide_eq_true_2 by done. cbn. lia.
  - intros i q y Hne Hq Hy. rewrite Ht, task_of_update. rewrite bool_decide_eq_false_2; [done|]. intros ->.
    pose proof (inv_held _ Hi _ _ _ Hq Hy) as Hr. apply lookup_lt_Some in Hq. rewrite (inv_len _ Hi) in Hq.
    rewrite Hnr in Hr. unfold TASK_NOT_RUNNING, usize_max in Hr. lia.
Qed.

Lemma inv_step s s' : inv s -> step s s' -> inv s'.
Proof.
  intros Hi Hstep. destruct Hstep.
  - by eapply inv_suspend.
  - by eapply inv_block.
  - by eapply inv_exit.
  - by eapply inv_flush_begin.
  - by eapply inv_flush_end.
  - by eapply inv_fetch.
  - by eapply inv_dispatch.
  - destruct Hi as [H1 H2 H3]. constructor; try done. intros i p h Hp Hh. rewrite <- (H3 i p h Hp Hh).
    apply (H (Z.of_nat i)). split; [lia|]. exists p. by rewrite Nat2Z.id.
Qed.

Lemma cpus_reachable_inv s : reachable s -> inv s.
Proof. induction 1; [apply inv_init|by eapply inv_step]. Qed.

(** C21: no task runs on two CPUs. In every state that any interleaving of the CPUs'
    scheduling loops reaches, whatever the rest of the kernel does to tasks and queues
    meanwhile (queueing a task twice included), a task is current or pending on at most
    one CPU, and its [running_on_cpu] names that CPU. *)
Theorem no_double_run s c1 c2 h : reachable s -> holds s c1 h -> holds s c2 h ->
  c1 = c2 /\ running_on_cpu (task_of s h) = c1.
Proof.
  intros Hi%cpus_reachable_inv (H1 & p1 & Hp1 & Hh1) (H2 & p2 & Hp2 & Hh2).
  pose proof (inv_held _ Hi _ _ _ Hp1 Hh1) as E1. pose proof (inv_held _ Hi _ _ _ Hp2 Hh2) as E2. lia.
Qed.

(** * Executions *)

Lemma try_wake_running st m h ok st' m' x : TaskManager.try_wake_interruptible st m h = Ret (ok, st', m') ->
  running_on_cpu (st' !!! x) = running_on_cpu (st !!! x).
Proof.
  unfold TaskManager.try_wake_interruptible. destruct (TaskManager.find_by_pid _ _ _); [by intros [= _ <- _]|].
  intros ([st1 m1] & H1 & [= _ <- _])%bind_ret_inv. by eapply add_running.
Qed.

Lemma wake_pass_running h cpus free x : forall m b r m', Managers.wake_pass m h cpus free b = Ret (r, m') ->
  running_on_cpu (Managers.st m' !!! x) = running_on_cpu (Managers.st m !!! x).
Proof.
  induction cpus as [|c cpus IH]; intros m b r m' H; cbn in H; [by injection H as _ <-|].
  destruct (free c); [|by eapply IH]. apply bind_ret_inv in H as ([ok m1] & H1 & H2).
  assert (running_on_cpu (Managers.st m1 !!! x) = running_on_cpu (Managers.st m !!! x)) as E.
  { eapply with_manager_st; [|done]. intros m0 a0 st0 m2 H0. exact (try_wake_running _ _ _ _ _ _ x H0). }
  destruct ok; [by injection H2 as _ <-|]. rewrite <- E. by eapply IH.
Qed.

Lemma wake_running m cpu h m' x : wake_local_or_global m cpu h = Ret m' ->
  running_on_cpu (Managers.st m' !!! x) = running_on_cpu (Managers.st m !!! x).
Proof.
  intros ([ok m1] & H1 & H2)%bind_ret_inv.
  assert (running_on_cpu (Managers.st m1 !!! x) = running_on_cpu (Managers.st m !!! x)) as E.
  { eapply with_manager_st; [|done]. intros m0 a0 st0 m2 H0. exact (try_wake_running _ _ _ _ _ _ x H0). }
  destruct ok; [by injection H2 as <-|]. apply bind_ret_inv in H2 as (o & H2 & H3).
  cbn in H2. apply bind_ret_inv in H2 as ([d m2] & H4 & H5). apply (wake_pass_running _ _ _ x) in H4.
  destruct d; injection H5 as <-; injection H3 as <-; [by rewrite H4|done].
Qed.

Lemma set_task_status_running m h y x :
  running_on_cpu (Managers.st (set_task_status m h y) !!! x) = running_on_cpu (Managers.st m !!! x).
Proof.
  unfold set_task_status. cbn. destruct (decide (x = h)) as [->|Hne]; [|by rewrite !lookup_total_alt, lookup_alter_ne].
  rewrite !lookup_total_alt, lookup_alter_eq. by destruct (Managers.st m !! h).
Qed.

Inductive action : Type :=
| ASuspend (cpu : Z) | ABlock (cpu : Z) | AFlushBegin (cpu now : Z) | AFlushEnd (cpu : Z)
| AFetch (cpu : Z) | ADispatch (cpu now : Z) | AAdd (cpu h : Z) | AWake (cpu h : Z).

#[global] Instance position_eq_dec : EqDecision position.
Proof. solve_decision. Defined.

Definition at_position (s : sys) (cpu : Z) (x : position) : bool :=
  (0 <=? cpu) && match processors s !! Z.to_nat cpu with Some p => bool_decide (Processor.pos p = x) | None => false end.

(** The action is possible where the CPU is. *)
Definition enabled (s : sys) (a : action) : bool :=
  match a with
  | ASuspend c | ABlock c => at_position s c InTask
  | AFlushBegin c _ => at_position s c AtTop
  | AFetch c => at_position s c Fetching
  | AFlushEnd c | ADispatch c _ | AAdd c _ | AWake c _ => 0 <=? c
  end.

Lemma at_position_inv s cpu x : at_position s cpu x = true ->
  0 <= cpu /\ exists p, processors s !! Z.to_nat cpu = Some p /\ Processor.pos p = x.
Proof.
  unfold at_position. rewrite andb_true_iff, Z.leb_le. intros [Hc H]. split; [done|].
  destruct (processors s !! Z.to_nat cpu) as [p|]; [|done]. exists p. split; [done|]. by apply bool_decide_eq_true_1 in H.
Qed.

Definition exec (s : sys) (a : action) : outcome sys :=
  match a with
  | ASuspend c => suspend_current_and_run_next s c
  | ABlock c => block_current_and_run_next s c
  | AFlushBegin c now => flush_begin s c now
  | AFlushEnd c => flush_end s c true
  | AFetch c => run_fetch s c
  | ADispatch c now => dispatch s c now
  | AAdd c h => m ← Managers.add_task (mgr s) c true h; Ret (Sys m (processors s))
  | AWake c h => wake_task s c h
  end.

Lemma exec_step s a s' : enabled s a = true -> exec s a = Ret s' -> step s s'.
Proof.
  destruct a as [c|c|c now|c|c|c now|c h|c h]; cbn [enabled exec].
  1,2,3,5: intros (Hc & p & Hp & Hpos)%at_position_inv H; by econstructor.
  - intros Hc%Z.leb_le H. by eapply StepFlushEnd.
  - intros Hc%Z.leb_le H. by eapply StepDispatch.
  - intros Hc (m & Hm & [= <-])%bind_ret_inv. apply StepOther. intros c' x _. by eapply add_task_running.
  - intros Hc. unfold wake_task. destruct s as [m ps].
    destruct (task_status (task_of _ h)); try (intros [= <-]; by apply (StepOther (Sys m ps) m)).
    intros (m' & Hm & [= <-])%bind_ret_inv. apply (StepOther (Sys m ps)). intros c' x _.
    rewrite (wake_running _ _ _ _ x Hm). apply set_task_status_running.
Qed.

Fixpoint execs (s : sys) (l : list action) : outcome sys :=
  match l with [] => Ret s | a :: r => rust_assert (enabled s a) ;; s' ← exec s a; execs s' r end.

Lemma execs_reachable l : forall s s', reachable s -> execs s l = Ret s' -> reachable s'.
Proof.
  induction l as [|a l IH]; intros s s' Hr He; cbn in He; [by injection He as <-|].
  apply bind_ret_inv in He as (u & Ha & (s1 & H1 & H2)%bind_ret_inv). apply (IH s1); [|done].
  eapply reach_step; [done|]. eapply exec_step; [|done]. by destruct (enabled s a).
Qed.

(** Task 2 is queued on CPU 1 and run there. *)
Definition demo_run : list action := [AAdd 1 2; AFlushBegin 1 0; AFetch 1; ADispatch 1 1000].
(** It blocks; before CPU 1 has queued it as sleeping, CPU 0 wakes it. *)
Definition demo_race : list action :=
  demo_run ++ [ABlock 1; AWake 0 2; AFlushBegin 1 2000; AFlushEnd 1].

Definition demo_init : sys :=
  sys_init (alter (fun t => set_entity t (SchedEntity.set_last_cpu (sched_entity t) 1)) 2 TaskManager.demo_st).
Definition demo_sys (l : list action) : sys :=
  match execs demo_init l with Ret s => s | Panic => demo_init end.

Lemma cpus_demo_reachable l : reachable (demo_sys l).
Proof.
  unfold demo_sys. destruct (execs demo_init l) as [s|] eqn:E; [|apply reach_init].
  eapply execs_reachable; [|done]. apply reach_init.
Qed.

(** For task 2, which runs on CPU 1. *)
Lemma no_double_run_witness :
  let s := demo_sys demo_run in holds s 1 2 /\ 1 = 1 /\ running_on_cpu (task_of s 2) = 1.
Proof.
  intros s. assert (holds s 1 2) as H.
  { split; [lia|]. exists (Processor.Mk InTask (Some 2) None). split; [vm_compute; reflexivity|by left]. }
  split; [exact H|]. exact (no_double_run s 1 1 2 (cpus_demo_reachable demo_run) H H).
Defined.

(** A task can be ready on two CPUs at once. A task that blocks is pending on its
    CPU with status Interruptible before it is in any queue; if another CPU wakes it
    there, it is queued by the waker and, since its status now is Ready, once more by
    its own CPU. The comment in [block_current_and_run_next] says the pending task
    prevents this race. *)
Theorem block_wake_queues_twice :
  let s := demo_sys demo_race in
  reachable s /\ map TaskManager.ready (Managers.managers (mgr s)) = [[2]; [2]; []; []].
Proof. split; [apply cpus_demo_reachable|vm_compute; reflexivity]. Qed.
