(* ===== verification/Pipe.v ===== *)
(** Pipes ([os/src/fs/dev/pipe.rs]).

    The ring buffer is the array with head, tail and a status that tells a full buffer
    from an empty one. A call is modelled up to the point where it returns or blocks;
    whether the other ends are closed is an argument. *)
From S2P Require Import Prelude Errno.

Definition RING_DEFAULT_BUFFER_SIZE : Z := 256.

Inductive RingBufferStatus : Type := FULL | EMPTY | NORMAL.

#[global] Instance RingBufferStatus_eq_dec : EqDecision RingBufferStatus.
Proof. solve_decision. Defined.

Module PipeRingBuffer.

Record t : Type := Mk { arr : list Z; head : Z; tail : Z; status : RingBufferStatus }.

Definition new : t := Mk (replicate (Z.to_nat RING_DEFAULT_BUFFER_SIZE) 0) 0 0 EMPTY.
Definition set_status (r : t) (s : RingBufferStatus) : t := Mk (arr r) (head r) (tail r) s.

Definition get_used_size (r : t) : outcome Z :=
  if bool_decide (status r = FULL) then Ret (Z.of_nat (length (arr r)))
  else if bool_decide (status r = EMPTY) then Ret 0
  else
    rust_assert (negb (head r =? tail r)) ;;
    Ret (if head r <? tail r then tail r ⊖ head r
         else (tail r ⊕ Z.of_nat (length (arr r))) ⊖ head r).

(** [copy_nonoverlapping] out of and into the array. *)
Definition copy_out (l : list Z) (begin n : Z) : list Z := take (Z.to_nat n) (drop (Z.to_nat begin) l).
Definition copy_in (l : list Z) (begin n : Z) (buf : list Z) : list Z :=
  take (Z.to_nat begin) l ++ take (Z.to_nat n) buf ++ drop (Z.to_nat (begin + n)) l.

(** The bytes copied into a buffer of [len] bytes. *)
Definition buffer_read (r : t) (len : Z) : list Z * t :=
  let begin := head r in
  let end_ := if tail r <=? head r then RING_DEFAULT_BUFFER_SIZE else tail r in
  let read_bytes := Z.min len (end_ - begin) in
  (copy_out (arr r) begin read_bytes,
   Mk (arr r) (if begin + read_bytes =? RING_DEFAULT_BUFFER_SIZE then 0 else begin + read_bytes)
     (tail r) (status r)).

Definition buffer_write (r : t) (buf : list Z) : Z * t :=
  let begin := tail r in
  let end_ := if tail r <? head r then head r else RING_DEFAULT_BUFFER_SIZE in
  let write_bytes := Z.min (Z.of_nat (length buf)) (end_ - begin) in
  (write_bytes,
   Mk (copy_in (arr r) begin write_bytes buf) (head r)
     (if begin + write_bytes =? RING_DEFAULT_BUFFER_SIZE then 0 else begin + write_bytes) (status r)).

(** The inner loops, on one buffer: [true] says that the buffer ran empty (or full) and
    the call returns. [None]: the fuel is used up. *)
Fixpoint read_loop (fuel : nat) (r : t) (len : Z) : option (list Z * t * bool) :=
  if len <=? 0 then Some ([], r, false)
  else
    match fuel with
    | O => None
    | S n =>
        let '(bs, r1) := buffer_read r len in
        if head r1 =? tail r1 then Some (bs, set_status r1 EMPTY, true)
        else
          '(bs2, r2, done) ← read_loop n r1 (len - Z.of_nat (length bs));
          Some (bs ++ bs2, r2, done)
    end.

Fixpoint write_loop (fuel : nat) (r : t) (buf : list Z) : option (Z * t * bool) :=
  match buf with
  | [] => Some (0, r, false)
  | _ =>
      match fuel with
      | O => None
      | S n =>
          let '(k, r1) := buffer_write r buf in
          if head r1 =? tail r1 then Some (k, set_status r1 FULL, true)
          else
            '(k2, r2, done) ← write_loop n r1 (drop (Z.to_nat k) buf);
            Some (k + k2, r2, done)
      end
  end.

(** [read_user], [write_user]: the outer loops over the parts of a user buffer. *)
Fixpoint read_parts (r : t) (lens : list Z) : option (list Z * t * bool) :=
  match lens with
  | [] => Some ([], r, false)
  | len :: rest =>
      '(bs, r1, done) ← read_loop 2 r len;
      if (done : bool) then Some (bs, r1, true)
      else '(bs2, r2, done2) ← read_parts r1 rest; Some (bs ++ bs2, r2, done2)
  end.

Fixpoint write_parts (r : t) (bufs : list (list Z)) : option (Z * t * bool) :=
  match bufs with
  | [] => Some (0, r, false)
  | buf :: rest =>
      '(k, r1, done) ← write_loop 2 r buf;
      if (done : bool) then Some (k, r1, true)
      else '(k2, r2, done2) ← write_parts r1 rest; Some (k + k2, r2, done2)
  end.

(** A call returns, blocks with nothing transferred, or refuses an explicit offset. *)
Inductive result (A : Type) : Type := Returns (a : A) (r : t) | Blocks | Fails (errno : Z).
Arguments Returns {A}.
Arguments Blocks {A}.
Arguments Fails {A}.

Definition finish (r : t) (done : bool) : t := if done then r else set_status r NORMAL.

Definition read_user (r : t) (write_ends_closed : bool) (offset : option Z) (lens : list Z)
    : option (result (list Z)) :=
  if bool_decide (is_Some offset) then Some (Fails ESPIPE)
  else if bool_decide (status r = EMPTY) then
    Some (if write_ends_closed then Returns [] r else Blocks)
  else '(bs, r', done) ← read_parts r lens; Some (Returns bs (finish r' done)).
Definition write_user (r : t) (read_ends_closed : bool) (offset : option Z) (bufs : list (list Z))
    : option (result Z) :=
  if bool_decide (is_Some offset) then Some (Fails ESPIPE)
  else if bool_decide (status r = FULL) then
    Some (if read_ends_closed then Returns 0 r else Blocks)
  else '(k, r', done) ← write_parts r bufs; Some (Returns k (finish r' done)).

(** [read] and [write] on one slice. *)
Definition read (r : t) (write_ends_closed : bool) (offset : option Z) (len : Z)
    : option (result (list Z)) :=
  if bool_decide (is_Some offset) then Some (Fails ESPIPE)
  else if bool_decide (status r = EMPTY) then
    Some (if write_ends_closed then Returns [] r else Blocks)
  else '(bs, r', done) ← read_loop 2 r len; Some (Returns bs (finish r' done)).
Definition write (r : t) (read_ends_closed : bool) (offset : option Z) (buf : list Z)
    : option (result Z) :=
  if bool_decide (is_Some offset) then Some (Fails ESPIPE)
  else if bool_decide (status r = FULL) then
    Some (if read_ends_closed then Returns 0 r else Blocks)
  else '(k, r', done) ← write_loop 2 r buf; Some (Returns k (finish r' done)).

Definition r_ready (r : t) : bool := negb (bool_decide (status r = EMPTY)).
Definition w_ready (r : t) : bool := negb (bool_decide (status r = FULL)).

(** ** Contents *)

(** The number of bytes held, told by the status where head and tail meet, and the
    bytes from the head on. *)
Definition ring_index (x : Z) : Z := if x <? 256 then x else x - 256.
Definition used (r : t) : Z :=
  if head r =? tail r then (if bool_decide (status r = EMPTY) then 0 else 256)
  else if head r <? tail r then tail r - head r else tail r + 256 - head r.
Definition byte_at (r : t) (i : Z) : Z := arr r !!! Z.to_nat (ring_index (head r + i)).
Definition contents (r : t) : list Z := map (byte_at r) (seqZ 0 (used r)).

(** Bounds, and in between two iterations of a loop; [wf] is what callers see. *)
Definition shape (r : t) : Prop :=
  length (arr r) = 256%nat /\ 0 <= head r < 256 /\ 0 <= tail r < 256.
Definition wf (r : t) : Prop :=
  shape r /\ (status r = NORMAL <-> head r <> tail r).

Lemma contents_length r : shape r -> Z.of_nat (length (contents r)) = used r /\ 0 <= used r <= 256.
Proof.
  intros (_ & Hh & Ht). unfold contents. rewrite length_map, length_seqZ. unfold used. case_Z; try case_bool_decide; lia.
Qed.

Lemma seqZ_shift (f : Z -> Z) a n : 0 <= n -> map f (seqZ a n) = map (fun i => f (a + i)) (seqZ 0 n).
Proof.
  intros Hn. apply list_eq. intros i. rewrite !list_lookup_fmap. destruct (decide (Z.of_nat i < n)) as [Hi|Hi].
  - rewrite !lookup_seqZ_lt by done. cbn. f_equal.
  - rewrite !lookup_seqZ_ge by lia. done.
Qed.

Lemma copy_out_bytes r n : shape r -> 0 <= n -> head r + n <= 256 ->
  copy_out (arr r) (head r) n = map (byte_at r) (seqZ 0 n).
Proof.
  intros (Hl & Hh & Ht) Hn Hb. unfold copy_out. apply list_eq. intros i. rewrite list_lookup_fmap.
  destruct (decide (Z.of_nat i < n)) as [Hi|Hi].
  - rewrite lookup_take_lt by lia. rewrite lookup_drop, lookup_seqZ_lt by done. cbn. unfold byte_at, ring_index.
    destruct (Z.ltb_spec (head r + (0 + Z.of_nat i)) 256); [|lia].
    replace (Z.to_nat (head r + (0 + Z.of_nat i))) with (Z.to_nat (head r) + i)%nat by lia.
    apply list_lookup_lookup_total_lt. lia.
  - rewrite lookup_seqZ_ge by lia. cbn. apply lookup_ge_None. rewrite length_take. lia.
Qed.

Lemma ring_index_range x : 0 <= x < 512 -> 0 <= ring_index x < 256.
Proof. unfold ring_index. case_Z; lia. Qed.

(** ** Reading *)

(** Something can be read: head and tail meet only in a full buffer. *)
Definition live (r : t) : Prop := shape r /\ (head r = tail r -> status r <> EMPTY).

Definition advance (r : t) (m : Z) (done : bool) : t :=
  Mk (arr r) (ring_index (head r + m)) (tail r) (if done then EMPTY else status r).

Lemma used_live r : live r -> 0 < used r <= 256 /\
  used r = if head r <? tail r then tail r - head r else tail r + 256 - head r.
Proof.
  intros [(_ & Hh & Ht) Hne]. unfold used. destruct (Z.eqb_spec (head r) (tail r)) as [E|E].
  - rewrite bool_decide_eq_false_2 by auto. destruct (Z.ltb_spec (head r) (tail r)); lia.
  - destruct (Z.ltb_spec (head r) (tail r)); lia.
Qed.

Lemma advance_spec r m : live r -> 0 <= m < used r -> live (advance r m false) /\
  used (advance r m false) = used r - m /\
  (forall i, 0 <= i -> m + i < 256 -> byte_at (advance r m false) i = byte_at r (m + i)).
Proof.
  intros Hl Hm. destruct (used_live r Hl) as [Hu Hue]. pose proof Hl as [(Hlen & Hh & Ht) Hne].
  assert (live (advance r m false)) as Hl'.
  { split; [split_and!; cbn; try done; try lia; unfold ring_index; case_Z; lia|]. cbn. intros E. apply Hne.
    revert E Hue. unfold ring_index. case_Z; lia. }
  split; [done|]. destruct (used_live _ Hl') as [_ Hue']. split.
  - rewrite Hue', Hue in *. cbn [advance head tail] in *. revert Hm. unfold ring_index. case_Z; lia.
  - intros i Hi Hb. unfold byte_at, advance, ring_index. cbn [arr head]. f_equal. case_Z; lia.
Qed.

Lemma advance_advance r a b d : 0 <= head r < 256 -> 0 <= a -> 0 <= b -> a + b <= 256 ->
  advance (advance r a false) b d = advance r (a + b) d.
Proof.
  intros Hh Ha Hb Hs. unfold advance. cbn [arr head tail status]. f_equal. unfold ring_index. case_Z; lia.
Qed.

Lemma advance_0 r : 0 <= head r < 256 -> advance r 0 false = r.
Proof.
  intros Hh. unfold advance, ring_index. rewrite Z.add_0_r. destruct (Z.ltb_spec (head r) 256); [|lia]. by destruct r.
Qed.

Lemma bytes_app r a b : live r -> 0 <= a < used r -> 0 <= b -> a + b <= 256 ->
  map (byte_at r) (seqZ 0 a) ++ map (byte_at (advance r a false)) (seqZ 0 b) = map (byte_at r) (seqZ 0 (a + b)).
Proof.
  intros Hl Ha Hb Hs. destruct (advance_spec r a Hl Ha) as (_ & _ & Hbyte).
  rewrite seqZ_app by lia. rewrite map_app. f_equal. rewrite (seqZ_shift _ (0 + a)) by lia.
  apply map_ext_in. intros i Hi%list_elem_of_In%elem_of_seqZ. rewrite Hbyte by lia. done.
Qed.

(** One copy out of the buffer. *)
Lemma buffer_read_ok r len : live r -> 0 < len ->
  let n := Z.min len (if head r <? tail r then used r else 256 - head r) in
  buffer_read r len = (map (byte_at r) (seqZ 0 n), advance r n false) /\ 0 < n <= used r.
Proof.
  intros Hl Hlen n. destruct (used_live r Hl) as [Hu Hue]. pose proof Hl as [Hs Hne]. pose proof Hs as (Hla & Hh & Ht).
  unfold buffer_read, RING_DEFAULT_BUFFER_SIZE.
  assert (Z.min len ((if tail r <=? head r then 256 else tail r) - head r) = n) as ->.
  { unfold n. destruct (Z.leb_spec (tail r) (head r)), (Z.ltb_spec (head r) (tail r)); lia. }
  assert (0 < n <= used r /\ head r + n <= 256) as [Hn Hb].
  { unfold n. destruct (Z.ltb_spec (head r) (tail r)); lia. }
  split; [|done]. rewrite copy_out_bytes by (done || lia). f_equal. unfold advance. f_equal. unfold ring_index. case_Z; lia.
Qed.

Definition read_loop_post (fuel : nat) (r : t) (len : Z) : Prop :=
  let m := Z.min len (used r) in let done := (0 <? len) && (used r <=? len) in
  read_loop fuel r len = Some (map (byte_at r) (seqZ 0 m), advance r m done, done).

Lemma read_loop_0 fuel r : live r -> read_loop_post fuel r 0.
Proof.
  intros Hl. destruct (used_live r Hl) as [Hu _]. unfold read_loop_post. cbn zeta. rewrite Z.min_l by lia.
  change ((0 <? 0) && (used r <=? 0)) with false. rewrite advance_0 by apply Hl. by destruct fuel.
Qed.

(** The first copy ends the loop, or leaves a shorter rest. *)
Lemma read_loop_step fuel r len : live r -> 0 < len ->
  let n := Z.min len (if head r <? tail r then used r else 256 - head r) in
  (n < used r -> read_loop_post fuel (advance r n false) (len - n)) -> read_loop_post (S fuel) r len.
Proof.
  intros Hl Hlen n IH. destruct (buffer_read_ok r len Hl Hlen) as [Hr Hn]. fold n in Hr, Hn.
  destruct (used_live r Hl) as [Hu Hue]. unfold read_loop_post in *. cbn [read_loop].
  destruct (Z.leb_spec len 0); [lia|]. destruct (Z.ltb_spec 0 len); [|lia]. rewrite Hr. cbn [andb].
  destruct (Z.eq_dec n (used r)) as [E|E].
  - assert (head (advance r n false) = tail (advance r n false)) as Eh.
    { pose proof Hl as [(_ & Hh & Ht) _]. cbn. unfold ring_index. rewrite E, Hue. case_Z; lia. }
    rewrite Eh, Z.eqb_refl. destruct (Z.leb_spec (used r) len); [|lia]. rewrite Z.min_r by lia. by rewrite E.
  - destruct (advance_spec r n Hl ltac:(lia)) as (Hl' & Hu' & _). specialize (IH ltac:(lia)).
    destruct (Z.eqb_spec (head (advance r n false)) (tail (advance r n false))) as [Eh|_].
    + exfalso. destruct (used_live _ Hl') as [_ Hx]. rewrite Eh, Z.ltb_irrefl in Hx. lia.
    + rewrite length_map, length_seqZ, Z2Nat.id by lia. rewrite IH. cbn [mbind option_bind].
      assert (n <= len) by (unfold n; lia). rewrite Hu'. rewrite bytes_app by (done || lia). replace (n + Z.min (len - n) (used r - n)) with (Z.min len (used r)) by lia.
      replace ((0 <? len - n) && (used r - n <=? len - n)) with (used r <=? len)
        by (destruct (Z.ltb_spec 0 (len - n)), (Z.leb_spec (used r - n) (len - n)), (Z.leb_spec (used r) len); lia || done).
      rewrite advance_advance by (try apply Hl; lia).
      by replace (n + Z.min (len - n) (used r - n)) with (Z.min len (used r)) by lia.
Qed.

Lemma read_loop_ok r len : live r -> 0 <= len -> read_loop_post 2 r len.
Proof.
  intros Hl Hlen. destruct (Z.eq_dec len 0) as [->|Hne]; [by apply read_loop_0|].
  destruct (buffer_read_ok r len Hl ltac:(lia)) as [_ Hn0]. apply read_loop_step; [done|lia|].
  set (n := Z.min len (if head r <? tail r then used r else 256 - head r)) in *. intros Hn.
  destruct (advance_spec r n Hl ltac:(lia)) as (Hl' & Hu' & _).
  destruct (Z.eq_dec (len - n) 0) as [->|Hrest]; [by apply read_loop_0|].
  destruct (used_live _ Hl') as [_ Hue']. pose proof Hl as [(_ & Hh & Ht) _].
  assert (head (advance r n false) = 0) as E.
  { cbn. unfold n, ring_index in *. destruct (Z.ltb_spec (head r) (tail r)); [lia|].
    destruct (Z.ltb_spec (head r + Z.min len (256 - head r)) 256); lia. }
  assert ((if head (advance r n false) <? tail (advance r n false) then used (advance r n false)
           else 256 - head (advance r n false)) = used (advance r n false)) as Eu.
  { rewrite E in *. revert Hue'. destruct (Z.ltb_spec 0 (tail (advance r n false))); cbn [tail advance] in *; lia. }
  apply read_loop_step; [done|lia|]. rewrite Eu. intros Hn2.
  replace (len - n - Z.min (len - n) (used (advance r n false))) with 0 by lia.
  apply read_loop_0. apply advance_spec; [done|]. split; [|done]. destruct (used_live _ Hl'). unfold n in *. lia.
Qed.

(** Over the parts of a user buffer: as one read of the total length. *)
Lemma read_parts_ok lens : Forall (fun n => 0 <= n) lens -> forall r, live r ->
  let len := zsum lens in
  let m := Z.min len (used r) in let done := (0 <? len) && (used r <=? len) in
  read_parts r lens = Some (map (byte_at r) (seqZ 0 m), advance r m done, done).
Proof.
  induction 1 as [|len lens Hlen Hlens IH]; intros r Hl; cbn [read_parts]; rewrite ?zsum_cons.
  { destruct (used_live r Hl) as [Hu _]. cbn. rewrite Z.min_l by lia. cbn. by rewrite advance_0 by apply Hl. }
  pose proof (zsum_nonneg lens Hlens) as Hs.
  rewrite (read_loop_ok r len Hl Hlen). cbn [mbind option_bind]. destruct (used_live r Hl) as [Hu _]. cbv zeta.
  destruct ((0 <? len) && (used r <=? len)) eqn:E.
  - apply andb_true_iff in E as [E1%Z.ltb_lt E2%Z.leb_le]. rewrite !Z.min_r by lia.
    destruct (Z.ltb_spec 0 (len + zsum lens)), (Z.leb_spec (used r) (len + zsum lens)); try lia. done.
  - assert (len < used r) as Hlt by (apply andb_false_iff in E as [E%Z.ltb_ge|E%Z.leb_gt]; lia).
    rewrite Z.min_l by lia. destruct (advance_spec r len Hl ltac:(lia)) as (Hl' & Hu' & _). rewrite (IH _ Hl').
    cbn [mbind option_bind]. rewrite Hu', bytes_app by (done || lia). rewrite advance_advance by (try apply Hl; lia).
    replace (len + Z.min (zsum lens) (used r - len)) with (Z.min (len + zsum lens) (used r)) by lia.
    replace ((0 <? zsum lens) && (used r - len <=? zsum lens)) with ((0 <? len + zsum lens) && (used r <=? len + zsum lens));
      [done|]. destruct (Z.ltb_spec 0 (zsum lens)), (Z.ltb_spec 0 (len + zsum lens)),
        (Z.leb_spec (used r - len) (zsum lens)), (Z.leb_spec (used r) (len + zsum lens)); lia || done.
Qed.

(** What a read of [len] > 0 bytes from a buffer that is not empty leaves. *)
Lemma read_finish r len : wf r -> status r <> EMPTY -> 0 < len ->
  let m := Z.min len (used r) in let r' := finish (advance r m (used r <=? len)) (used r <=? len) in
  wf r' /\ contents r' = drop (Z.to_nat len) (contents r) /\
  map (byte_at r) (seqZ 0 m) = take (Z.to_nat len) (contents r).
Proof.
  intros Hw Hne Hlen m r'. pose proof Hw as [Hs Hst]. assert (live r) as Hl by (by split).
  destruct (used_live r Hl) as [Hu Hue]. destruct (contents_length r Hs) as [Hcl _]. pose proof Hs as (Hla & Hh & Ht).
  assert (map (byte_at r) (seqZ 0 m) = take (Z.to_nat len) (contents r)) as Htake.
  { unfold contents. rewrite <- fmap_take. f_equal. rewrite take_seqZ. f_equal. unfold m. lia. }
  destruct (Z.leb_spec (used r) len) as [Hge|Hlt].
  - assert (m = used r) as Em by (unfold m; lia). assert (head r' = tail r') as E.
    { unfold r'. cbn. rewrite Em. unfold ring_index. rewrite Hue. case_Z; lia. }
    split_and!; [split; [split_and!; cbn; try done; try lia; apply ring_index_range; lia|]| |done].
    + unfold r' in *. cbn in *. split; [done|]. intros H. by rewrite E in H.
    + rewrite drop_ge by lia. unfold contents, used. rewrite E, Z.eqb_refl. done.
  - assert (m = len) as Em by (unfold m; lia). destruct (advance_spec r len Hl ltac:(lia)) as (Hl' & Hu' & Hb). pose proof (proj1 Hl') as Hs'.
    unfold r', finish. rewrite Em in *. set (a := advance r len false) in *.
    assert (used (set_status a NORMAL) = used r - len) as Hus.
    { rewrite <- Hu'. unfold used, set_status. cbn [head tail status]. destruct (head a =? tail a); [|done].
      by rewrite !bool_decide_eq_false_2. }
    assert (head a <> tail a) as Hd.
    { intros E. destruct (used_live a Hl') as [_ Hx]. rewrite E, Z.ltb_irrefl in Hx. lia. }
    split_and!; [split; [done|by cbn; split]| |done].
    unfold contents. rewrite Hus, <- fmap_drop, drop_seqZ. replace (0 + Z.of_nat (Z.to_nat len)) with len by lia.
    replace (used r - Z.of_nat (Z.to_nat len)) with (used r - len) by lia. rewrite (seqZ_shift _ len) by lia.
    apply map_ext_in. intros i Hi%list_elem_of_In%elem_of_seqZ. rewrite <- Hb by lia. done.
Qed.

(** ** Writing *)

(** Something can be written: head and tail meet only in an empty buffer. *)
Definition open_ (r : t) : Prop := shape r /\ (head r = tail r -> status r = EMPTY).

Lemma used_open r : open_ r -> 0 <= used r < 256 /\
  used r = if tail r <? head r then tail r + 256 - head r else tail r - head r.
Proof.
  intros [(_ & Hh & Ht) He]. unfold used. destruct (Z.eqb_spec (head r) (tail r)) as [E|E].
  - rewrite bool_decide_eq_true_2 by auto. destruct (Z.ltb_spec (tail r) (head r)); lia.
  - destruct (Z.ltb_spec (head r) (tail r)), (Z.ltb_spec (tail r) (head r)); lia.
Qed.

(** [r'] is [r] with the first [k] bytes of [buf] appended. *)
Record wrote (r : t) (buf : list Z) (k : Z) (st : RingBufferStatus) (r' : t) : Prop := {
  wr_shape : shape r';
  wr_head : head r' = head r;
  wr_tail : tail r' = ring_index (tail r + k);
  wr_status : status r' = st;
  wr_old : forall i, 0 <= i < used r -> byte_at r' i = byte_at r i;
  wr_new : forall i, 0 <= i < k -> byte_at r' (used r + i) = buf !!! Z.to_nat i;
}.

Lemma copy_in_lookup l begin n buf j : 0 <= begin -> 0 <= n -> begin + n <= Z.of_nat (length l) ->
  n <= Z.of_nat (length buf) -> 0 <= j ->
  copy_in l begin n buf !!! Z.to_nat j =
    if (begin <=? j) && (j <? begin + n) then buf !!! Z.to_nat (j - begin) else l !!! Z.to_nat j.
Proof.
  intros Hb Hn Hl Hbuf Hj. unfold copy_in. rewrite !list_lookup_total_alt.
  destruct (Z.leb_spec begin j) as [H1|H1]; cbn [andb].
  - rewrite lookup_app_r by (rewrite length_take; lia). rewrite length_take, Nat.min_l by lia.
    destruct (Z.ltb_spec j (begin + n)) as [H2|H2].
    + rewrite lookup_app_l by (rewrite length_take; lia). rewrite lookup_take_lt by lia. do 2 f_equal. lia.
    + rewrite lookup_app_r by (rewrite length_take; lia). rewrite length_take, Nat.min_l by lia.
      rewrite lookup_drop. do 2 f_equal. lia.
  - rewrite lookup_app_l by (rewrite length_take; lia). by rewrite lookup_take_lt by lia.
Qed.

Lemma buffer_write_ok r buf : open_ r -> buf <> [] ->
  let room := if tail r <? head r then head r - tail r else 256 - tail r in
  let k := Z.min (Z.of_nat (length buf)) room in
  exists r1, buffer_write r buf = (k, r1) /\ wrote r buf k (status r) r1 /\ 0 < k <= 256 - used r.
Proof.
  intros Ho Hbuf room k. destruct (used_open r Ho) as [Hu Hue]. pose proof Ho as [Hs He]. pose proof Hs as (Hla & Hh & Ht).
  assert (0 < Z.of_nat (length buf)) as Hlb by (destruct buf; [done|cbn; lia]).
  assert (0 < k <= 256 - used r /\ tail r + k <= 256 /\ (tail r < head r -> tail r + k <= head r)) as (Hk & Hk2 & Hk3).
  { unfold k, room. destruct (Z.ltb_spec (tail r) (head r)); lia. }
  unfold buffer_write, RING_DEFAULT_BUFFER_SIZE.
  replace (Z.min (Z.of_nat (length buf)) ((if tail r <? head r then head r else 256) - tail r)) with k
    by (unfold k, room; destruct (Z.ltb_spec (tail r) (head r)); lia).
  eexists. split; [done|]. split; [|done]. constructor; cbn [arr head tail status]; try done.
  - split_and!; cbn; try lia.
    + unfold copy_in. rewrite !length_app, !length_take, length_drop. unfold k in *. lia.
    + destruct (Z.eqb_spec (tail r + k) 256); lia.
    + destruct (Z.eqb_spec (tail r + k) 256); lia.
  - unfold ring_index. destruct (Z.eqb_spec (tail r + k) 256), (Z.ltb_spec (tail r + k) 256); lia.
  - intros i Hi. unfold byte_at. cbn [arr head]. pose proof (ring_index_range (head r + i) ltac:(lia)).
    rewrite copy_in_lookup by (unfold k in *; lia).
    destruct (Z.leb_spec (tail r) (ring_index (head r + i))), (Z.ltb_spec (ring_index (head r + i)) (tail r + k)); cbn; try done.
    exfalso. revert Hue. unfold ring_index in *. case_Z; lia.
  - intros i Hi. unfold byte_at. cbn [arr head].
    assert (ring_index (head r + (used r + i)) = tail r + i) as ->.
    { rewrite Hue. unfold ring_index. case_Z; lia. }
    rewrite copy_in_lookup by (unfold k in *; lia).
    destruct (Z.leb_spec (tail r) (tail r + i)), (Z.ltb_spec (tail r + i) (tail r + k)); try lia. cbn. f_equal. lia.
Qed.

(** Partial writes leave the buffer open, with [k] bytes more. *)
Lemma wrote_open r buf k r' : open_ r -> wrote r buf k (status r) r' -> 0 < k < 256 - used r ->
  open_ r' /\ used r' = used r + k /\ head r' <> tail r'.
Proof.
  intros Ho [W1 W2 W3 W4 _ _] Hk. destruct (used_open r Ho) as [Hu Hue]. pose proof Ho as [(_ & Hh & Ht) He].
  assert (head r' <> tail r') as Hne.
  { rewrite W2, W3. revert Hk. rewrite Hue. unfold ring_index. case_Z; lia. }
  assert (open_ r') as Ho' by (split; [done|by intros]). split; [done|]. split; [|done].
  destruct (used_open r' Ho') as [_ Hue']. rewrite Hue', W2, W3. revert Hk. rewrite Hue. unfold ring_index. case_Z; lia.
Qed.

Lemma wrote_full r buf k st r' : open_ r -> wrote r buf k st r' -> k = 256 - used r -> head r' = tail r'.
Proof.
  intros Ho [W1 W2 W3 W4 _ _] Hk. destruct (used_open r Ho) as [Hu Hue]. pose proof Ho as [(_ & Hh & Ht) He].
  rewrite W2, W3, Hk, Hue. unfold ring_index. case_Z; lia.
Qed.

Lemma wrote_trans r buf k1 r1 k2 st r2 : open_ r -> wrote r buf k1 (status r) r1 -> 0 < k1 < 256 - used r ->
  wrote r1 (drop (Z.to_nat k1) buf) k2 st r2 -> 0 <= k2 -> k1 + k2 <= 256 - used r ->
  wrote r buf (k1 + k2) st r2.
Proof.
  intros Ho W1 Hk1 W2 Hk2 Hs. destruct (wrote_open _ _ _ _ Ho W1 Hk1) as (Ho1 & Hu1 & _).
  destruct (used_open r Ho) as [Hu Hue]. pose proof Ho as [(_ & Hh & Ht) _]. constructor.
  - apply W2.
  - rewrite (wr_head _ _ _ _ _ W2). apply W1.
  - rewrite (wr_tail _ _ _ _ _ W2), (wr_tail _ _ _ _ _ W1). unfold ring_index. case_Z; lia.
  - apply W2.
  - intros i Hi. rewrite (wr_old _ _ _ _ _ W2) by lia. by apply (wr_old _ _ _ _ _ W1).
  - intros i Hi. destruct (Z.ltb_spec i k1).
    + rewrite (wr_old _ _ _ _ _ W2) by lia. apply (wr_new _ _ _ _ _ W1). lia.
    + replace (used r + i) with (used r1 + (i - k1)) by lia. rewrite (wr_new _ _ _ _ _ W2) by lia.
      rewrite !list_lookup_total_alt, lookup_drop. do 2 f_equal. lia.
Qed.

Lemma wrote_0 r : open_ r -> wrote r [] 0 (status r) r.
Proof.
  intros [Hs He]. constructor; try done; [|lia]. unfold ring_index. destruct Hs as (_ & _ & Ht).
  destruct (Z.ltb_spec (tail r + 0) 256); lia.
Qed.

Definition write_loop_post (fuel : nat) (r : t) (buf : list Z) : Prop :=
  let len := Z.of_nat (length buf) in
  let k := Z.min len (256 - used r) in let done := (0 <? len) && (256 - used r <=? len) in
  exists r', write_loop fuel r buf = Some (k, r', done) /\ wrote r buf k (if done then FULL else status r) r'.

Lemma write_loop_nil fuel r : open_ r -> write_loop_post fuel r [].
Proof.
  intros Ho. destruct (used_open r Ho) as [Hu _]. exists r. cbn [length]. rewrite Z.min_l by lia. cbn.
  split; [by destruct fuel|by apply wrote_0].
Qed.

Lemma wrote_set_status r buf k st st' r' : wrote r buf k st r' -> wrote r buf k st' (set_status r' st').
Proof. intros [W1 W2 W3 W4 W5 W6]. by constructor. Qed.

Lemma write_loop_step fuel r buf : open_ r -> buf <> [] ->
  let room := if tail r <? head r then head r - tail r else 256 - tail r in
  let k := Z.min (Z.of_nat (length buf)) room in
  (forall r1, wrote r buf k (status r) r1 -> k < 256 - used r -> write_loop_post fuel r1 (drop (Z.to_nat k) buf)) ->
  write_loop_post (S fuel) r buf.
Proof.
  intros Ho Hbuf room k IH. destruct (buffer_write_ok r buf Ho Hbuf) as (r1 & Hw & W & Hk). fold room k in Hw, W, Hk.
  assert (0 < Z.of_nat (length buf)) as Hpos by (destruct buf; [done|cbn; lia]).
  assert (k <= Z.of_nat (length buf)) as Hkl by (unfold k; lia). clearbody k. clear room.
  destruct (used_open r Ho) as [Hu _]. unfold write_loop_post. cbn [write_loop].
  destruct buf as [|b0 bs] eqn:Eb; [done|]. rewrite <- Eb in *. rewrite Hw.
  destruct (Z.eq_dec k (256 - used r)) as [E|E].
  - rewrite (wrote_full _ _ _ _ _ Ho W E), Z.eqb_refl. exists (set_status r1 FULL).
    destruct (Z.ltb_spec 0 (Z.of_nat (length buf))); [|lia]. destruct (Z.leb_spec (256 - used r) (Z.of_nat (length buf))); [|lia].
    rewrite Z.min_r by lia. cbn [andb]. rewrite <- E. split; [done|by eapply wrote_set_status].
  - destruct (wrote_open _ _ _ _ Ho W ltac:(lia)) as (Ho1 & Hu1 & Hne).
    destruct (Z.eqb_spec (head r1) (tail r1)); [done|]. destruct (IH r1 W ltac:(lia)) as (r2 & Hl & W2).
    rewrite Hl. cbn [mbind option_bind]. rewrite length_drop in *. rewrite Hu1 in *.
    replace (Z.of_nat (length buf - Z.to_nat k)) with (Z.of_nat (length buf) - k) in * by lia.
    replace ((0 <? Z.of_nat (length buf) - k) && (256 - (used r + k) <=? Z.of_nat (length buf) - k))
      with ((0 <? Z.of_nat (length buf)) && (256 - used r <=? Z.of_nat (length buf))) in *
      by (destruct (Z.ltb_spec 0 (Z.of_nat (length buf))), (Z.ltb_spec 0 (Z.of_nat (length buf) - k)),
        (Z.leb_spec (256 - used r) (Z.of_nat (length buf))),
        (Z.leb_spec (256 - (used r + k)) (Z.of_nat (length buf) - k)); lia || done).
    replace (k + Z.min (Z.of_nat (length buf) - k) (256 - (used r + k)))
      with (Z.min (Z.of_nat (length buf)) (256 - used r)) by lia.
    exists r2. split; [done|].
    replace (Z.min (Z.of_nat (length buf)) (256 - used r))
      with (k + Z.min (Z.of_nat (length buf) - k) (256 - (used r + k))) by lia.
    rewrite (wr_status _ _ _ _ _ W) in W2. by apply (wrote_trans r buf k r1); try done; lia.
Qed.

Lemma write_loop_ok r buf : open_ r -> write_loop_post 2 r buf.
Proof.
  intros Ho. destruct (decide (buf = [])) as [->|Hne]; [by apply write_loop_nil|].
  apply write_loop_step; [done|done|]. destruct (used_open r Ho) as [Hu Hue]. pose proof Ho as [(_ & Hh & Ht) _].
  set (room := if tail r <? head r then head r - tail r else 256 - tail r).
  set (k := Z.min (Z.of_nat (length buf)) room). intros r1 W Hk.
  assert (0 < Z.of_nat (length buf)) by (destruct buf; [done|cbn; lia]).
  assert (0 < k) as Hk0 by (unfold k, room; case_Z; lia).
  destruct (wrote_open _ _ _ _ Ho W ltac:(lia)) as (Ho1 & Hu1 & _).
  destruct (decide (drop (Z.to_nat k) buf = [])) as [->|Hrest]; [by apply write_loop_nil|].
  assert (k < Z.of_nat (length buf)) as Hkl.
  { destruct (Z.ltb_spec k (Z.of_nat (length buf))); [done|]. exfalso. apply Hrest. apply drop_ge. lia. }
  destruct (used_open _ Ho1) as [Hub1 Hue1]. pose proof (wr_tail _ _ _ _ _ W) as Et. pose proof (wr_head _ _ _ _ _ W) as Eh.
  assert (tail r1 = 0 /\ tail r1 < head r1) as [E0 Elt].
  { rewrite Et, Eh. unfold k, room, ring_index in *. revert Hkl Hk Hue. case_Z; lia. }
  apply write_loop_step; [done|done|]. intros r2 W2 Hk2.
  set (rest := drop (Z.to_nat k) buf) in *. destruct (Z.ltb_spec (tail r1) (head r1)); [|lia].
  set (k2 := Z.min (Z.of_nat (length rest)) (head r1 - tail r1)) in *.
  assert (0 < Z.of_nat (length rest)) by (destruct rest; [done|cbn; lia]).
  assert (k2 = Z.of_nat (length rest)) as E2 by (unfold k2 in *; lia).
  rewrite (drop_ge rest) by lia. apply write_loop_nil.
  eapply wrote_open; [done|exact W2|lia].
Qed.

Lemma wrote_extend r buf buf' k st r' : wrote r buf k st r' -> k <= Z.of_nat (length buf) ->
  wrote r (buf ++ buf') k st r'.
Proof.
  intros [W1 W2 W3 W4 W5 W6] Hk. constructor; try done. intros i Hi. rewrite W6 by done.
  rewrite !list_lookup_total_alt, lookup_app_l by lia. done.
Qed.

(** Over the parts of a user buffer: as one write of their concatenation. *)
Lemma write_parts_ok bufs : forall r, open_ r ->
  let buf := concat bufs in let len := Z.of_nat (length buf) in
  let k := Z.min len (256 - used r) in let done := (0 <? len) && (256 - used r <=? len) in
  exists r', write_parts r bufs = Some (k, r', done) /\ wrote r buf k (if done then FULL else status r) r'.
Proof.
  induction bufs as [|buf bufs IH]; intros r Ho; cbn [write_parts concat].
  { destruct (used_open r Ho) as [Hu _]. exists r. cbn [length]. rewrite Z.min_l by lia. split; [done|by apply wrote_0]. }
  destruct (used_open r Ho) as [Hu _]. destruct (write_loop_ok r buf Ho) as (r1 & Hl & W). rewrite Hl. cbn [mbind option_bind].
  rewrite length_app, Nat2Z.inj_add. set (len := Z.of_nat (length buf)) in *. set (rest := concat bufs) in *.
  destruct ((0 <? len) && (256 - used r <=? len)) eqn:E.
  - apply andb_true_iff in E as [E1%Z.ltb_lt E2%Z.leb_le]. rewrite Z.min_r in * by lia. rewrite (Z.min_r (len + _)) by lia.
    destruct (Z.ltb_spec 0 (len + Z.of_nat (length rest))), (Z.leb_spec (256 - used r) (len + Z.of_nat (length rest))); try lia.
    exists r1. split; [done|]. apply wrote_extend; [done|lia].
  - destruct (Z.eq_dec len 0) as [E0|E0].
    { assert (buf = []) as -> by (destruct buf; [done|cbn in *; lia]).
      cbn [write_loop] in Hl. injection Hl as _ <-.
      rewrite E0 in *. destruct (IH r Ho) as (r2 & Hp & W2). fold rest in Hp, W2. rewrite Hp. cbn [mbind option_bind app].
      rewrite Z.min_l by lia. rewrite !Z.add_0_l. by exists r2. }
    assert (len < 256 - used r) as Hlt by (apply andb_false_iff in E as [E%Z.ltb_ge|E%Z.leb_gt]; lia).
    rewrite Z.min_l in * by lia. destruct (wrote_open _ _ _ _ Ho W ltac:(lia)) as (Ho1 & Hu1 & _).
    destruct (IH r1 Ho1) as (r2 & Hp & W2). fold rest in Hp, W2. rewrite Hp. cbn [mbind option_bind]. rewrite Hu1 in *.
    rewrite (wr_status _ _ _ _ _ W) in W2.
    replace (len + Z.min (Z.of_nat (length rest)) (256 - (used r + len)))
      with (Z.min (len + Z.of_nat (length rest)) (256 - used r)) by lia.
    replace ((0 <? Z.of_nat (length rest)) && (256 - (used r + len) <=? Z.of_nat (length rest)))
      with ((0 <? len + Z.of_nat (length rest)) && (256 - used r <=? len + Z.of_nat (length rest))) in *
      by (destruct (Z.ltb_spec 0 (len + Z.of_nat (length rest))), (Z.ltb_spec 0 (Z.of_nat (length rest))),
        (Z.leb_spec (256 - used r) (len + Z.of_nat (length rest))),
        (Z.leb_spec (256 - (used r + len)) (Z.of_nat (length rest))); lia || done).
    exists r2. split; [done|].
    replace (Z.min (len + Z.of_nat (length rest)) (256 - used r))
      with (len + Z.min (Z.of_nat (length rest)) (256 - (used r + len))) by lia.
    apply (wrote_trans r _ len r1); try done; try lia; [by apply wrote_extend|].
    unfold len. by rewrite Nat2Z.id, drop_app_length.
Qed.

(** What a write of a non-empty buffer into a buffer that is not full leaves. *)
Lemma write_finish r buf r' : wf r -> status r <> FULL -> buf <> [] ->
  let len := Z.of_nat (length buf) in let k := Z.min len (256 - used r) in
  let full := 256 - used r <=? len in
  wrote r buf k (if full then FULL else status r) r' ->
  wf (finish r' full) /\ contents (finish r' full) = contents r ++ take (Z.to_nat k) buf.
Proof.
  intros [Hs Hst] Hnf Hbuf len k full W.
  assert (open_ r) as Ho.
  { split; [done|]. intros E. destruct (status r) eqn:Es; [done|done|]. by destruct (proj1 Hst eq_refl). }
  destruct (used_open r Ho) as [Hu Hue]. assert (0 < len) as Hlen by (unfold len; destruct buf; [done|cbn; lia]).
  assert (head (finish r' full) = head r' /\ tail (finish r' full) = tail r' /\ arr (finish r' full) = arr r')
    as (Fh & Ft & Fa) by (by unfold finish; destruct full).
  assert (shape (finish r' full) /\ used (finish r' full) = used r + k /\
    (status (finish r' full) = NORMAL <-> head r' <> tail r')) as (Fs & Fu & Fst).
  { unfold shape. rewrite Fh, Ft, Fa. split; [apply W|]. unfold used at 1. rewrite Fh, Ft. unfold full in *.
    destruct (Z.leb_spec (256 - used r) len) as [Hge|Hlt]; cbn [finish].
    - assert (k = 256 - used r) as Ek by (unfold k; lia). rewrite (wrote_full _ _ _ _ _ Ho W Ek), Z.eqb_refl.
      rewrite (wr_status _ _ _ _ _ W), bool_decide_eq_false_2 by done. split; [lia|by split].
    - destruct (wrote_open _ _ _ _ Ho W ltac:(unfold k; lia)) as (Ho1 & Hu1 & Hne).
      rewrite <- Hu1. unfold used. destruct (Z.eqb_spec (head r') (tail r')); [done|]. by split. }
  split; [split; [done|by rewrite Fh, Ft]|].
  unfold contents. rewrite Fu, seqZ_app by (unfold k; lia). rewrite map_app. f_equal.
  - apply map_ext_in. intros i Hi%list_elem_of_In%elem_of_seqZ. unfold byte_at. rewrite Fh, Fa. apply (wr_old _ _ _ _ _ W). lia.
  - rewrite seqZ_shift by (unfold k; lia). apply list_eq. intros i. rewrite list_lookup_fmap.
    destruct (decide (Z.of_nat i < k)) as [Hi|Hi].
    + rewrite lookup_seqZ_lt by done. cbn. rewrite lookup_take_lt by lia.
      unfold byte_at. rewrite Fh, Fa. fold (byte_at r' (0 + used r + (0 + Z.of_nat i))).
      rewrite Z.add_0_l, (wr_new _ _ _ _ _ W) by lia. rewrite Z.add_0_l, Nat2Z.id. symmetry.
      apply list_lookup_lookup_total_lt. unfold k, len in *. lia.
    + rewrite lookup_seqZ_ge by lia. symmetry. apply lookup_ge_None. rewrite length_take. lia.
Qed.

(** ** The calls *)

Lemma wf_empty r : wf r -> status r = EMPTY <-> contents r = [].
Proof.
  intros [Hs Hst]. destruct (contents_length r Hs) as [Hl _]. split.
  - intros E. apply nil_length_inv. assert (head r = tail r) as Eh.
    { destruct (Z.eq_dec (head r) (tail r)) as [|Hne]; [done|]. apply Hst in Hne. congruence. }
    unfold used in Hl. rewrite Eh, Z.eqb_refl, bool_decide_eq_true_2 in Hl by done. lia.
  - intros E. rewrite E in Hl. cbn in Hl. destruct (status r) eqn:Es; [|done|]; exfalso.
    + assert (live r) as H%used_live by (split; [done|by rewrite Es]). lia.
    + assert (live r) as H%used_live by (split; [done|by rewrite Es]). lia.
Qed.

Lemma wf_full r : wf r -> status r = FULL <-> length (contents r) = 256%nat.
Proof.
  intros [Hs Hst]. destruct (contents_length r Hs) as [Hl _]. split.
  - intros E. assert (head r = tail r) as Eh.
    { destruct (Z.eq_dec (head r) (tail r)) as [|Hne]; [done|]. apply Hst in Hne. congruence. }
    unfold used in Hl. rewrite Eh, Z.eqb_refl, bool_decide_eq_false_2 in Hl by congruence. lia.
  - intros E. destruct (status r) eqn:Es; [done| |]; exfalso.
    + assert (open_ r) as H%used_open by (by split). lia.
    + assert (open_ r) as H%used_open by (split; [done|]; intros H; by destruct (proj1 Hst eq_refl)). lia.
Qed.

(** Where nothing is to be read or no room is left. *)
Definition read_post (r : t) (closed : bool) (len : Z) (o : option (result (list Z))) : Prop :=
  if bool_decide (contents r = []) then o = Some (if closed then Returns [] r else Blocks)
  else exists r', o = Some (Returns (take (Z.to_nat len) (contents r)) r') /\ wf r' /\
    contents r' = drop (Z.to_nat len) (contents r).
Definition write_post (r : t) (closed : bool) (buf : list Z) (o : option (result Z)) : Prop :=
  let room := (256 - length (contents r))%nat in
  if bool_decide (room = 0%nat) then o = Some (if closed then Returns 0 r else Blocks)
  else exists r', o = Some (Returns (Z.of_nat (length (take room buf))) r') /\ wf r' /\
    contents r' = contents r ++ take room buf.

Lemma read_user_ok r closed lens : wf r -> Forall (fun n => 0 <= n) lens -> 0 < zsum lens ->
  read_post r closed (zsum lens) (read_user r closed None lens).
Proof.
  intros Hw Hlens Hlen. unfold read_post, read_user. rewrite (bool_decide_eq_false_2 (is_Some None)) by (by intros [? ?]).
  destruct (decide (status r = EMPTY)) as [E|E].
  - by rewrite !bool_decide_eq_true_2 by (done || by apply wf_empty).
  - rewrite !bool_decide_eq_false_2 by (done || by rewrite <- wf_empty). pose proof Hw as [Hs _].
    rewrite (read_parts_ok lens Hlens r) by (by split). cbn [mbind option_bind].
    destruct (Z.ltb_spec 0 (zsum lens)); [|lia]. cbn [andb].
    destruct (read_finish r (zsum lens) Hw E Hlen) as (Hw' & Hc & Hb). rewrite Hb. eauto.
Qed.

Lemma write_user_ok r closed bufs : wf r -> concat bufs <> [] ->
  write_post r closed (concat bufs) (write_user r closed None bufs).
Proof.
  intros Hw Hbuf. unfold write_post, write_user. rewrite (bool_decide_eq_false_2 (is_Some None)) by (by intros [? ?]).
  pose proof Hw as [Hs Hst]. destruct (contents_length r Hs) as [Hl Hu]. pose proof (wf_full r Hw) as Hfull.
  destruct (decide (status r = FULL)) as [E|E].
  - rewrite (bool_decide_eq_true_2 (status r = FULL)) by done. rewrite bool_decide_eq_true_2; [done|].
    rewrite (proj1 Hfull E). lia.
  - rewrite (bool_decide_eq_false_2 (status r = FULL)) by done.
    rewrite bool_decide_eq_false_2 by (intros H; apply E, Hfull; lia).
    assert (open_ r) as Ho.
    { split; [done|]. intros Eh. destruct (status r) eqn:Es; [done|done|]. by destruct (proj1 Hst eq_refl). }
    destruct (write_parts_ok bufs r Ho) as (r' & Hp & W). rewrite Hp. cbn [mbind option_bind].
    assert (0 < Z.of_nat (length (concat bufs))) by (destruct (concat bufs); [done|cbn; lia]).
    destruct (Z.ltb_spec 0 (Z.of_nat (length (concat bufs)))); [|lia]. cbn [andb] in *.
    destruct (write_finish r (concat bufs) r' Hw E Hbuf W) as [Hw' Hc].
    eexists. split; [f_equal; f_equal; rewrite length_take; lia|]. split; [done|]. rewrite Hc. f_equal.
    destruct (Z.le_ge_cases (Z.of_nat (length (concat bufs))) (256 - used r)).
    + rewrite Z.min_l, Nat2Z.id by lia. rewrite !take_ge by lia. done.
    + rewrite Z.min_r by lia. f_equal. lia.
Qed.

(** A call on one slice is one on a single part. *)
Lemma read_one r closed offset len : read r closed offset len = read_user r closed offset [len].
Proof.
  unfold read, read_user. do 2 (case_bool_decide; [done|]). cbn [read_parts].
  destruct (read_loop 2 r len) as [[[bs r1] []]|]; cbn; rewrite ?app_nil_r; done.
Qed.
Lemma write_one r closed offset buf : write r closed offset buf = write_user r closed offset [buf].
Proof.
  unfold write, write_user. do 2 (case_bool_decide; [done|]). cbn [write_parts].
  destruct (write_loop 2 r buf) as [[[k r1] []]|]; cbn; rewrite ?Z.add_0_r; done.
Qed.

(** A sequence of calls of the readers and writers, each with what it delivered to the
    reader and what it took from the writer; a call that blocks changes nothing and may
    be issued again. *)
Inductive call : Type := Read (closed : bool) (lens : list Z) | Write (closed : bool) (bufs : list (list Z)).

Definition do_call (r : t) (c : call) : option (list Z * list Z * t) :=
  match c with
  | Read closed lens =>
      res ← read_user r closed None lens;
      Some (match res with Returns bs r' => (bs, [], r') | _ => ([], [], r) end)
  | Write closed bufs =>
      res ← write_user r closed None bufs;
      Some (match res with Returns k r' => ([], take (Z.to_nat k) (concat bufs), r') | _ => ([], [], r) end)
  end.
Fixpoint run (r : t) (cs : list call) : option (list Z * list Z * t) :=
  match cs with
  | [] => Some ([], [], r)
  | c :: rest =>
      '(out, inp, r1) ← do_call r c;
      '(outs, inps, r2) ← run r1 rest;
      Some (out ++ outs, inp ++ inps, r2)
  end.

(** The calls that ask for at least one byte. *)
Definition nonempty (c : call) : Prop :=
  match c with
  | Read _ lens => Forall (fun n => 0 <= n) lens /\ 0 < zsum lens
  | Write _ bufs => concat bufs <> []
  end.

Lemma do_call_ok r c : wf r -> nonempty c -> exists out inp r', do_call r c = Some (out, inp, r') /\ wf r' /\
  contents r ++ inp = out ++ contents r'.
Proof.
  intros Hw Hc. destruct c as [closed lens|closed bufs]; cbn [do_call].
  - destruct Hc as [H1 H2]. pose proof (read_user_ok r closed lens Hw H1 H2) as H. unfold read_post in H.
    case_bool_decide as E.
    + rewrite H. cbn [mbind option_bind]. exists [], [], r. rewrite app_nil_r. by destruct closed.
    + destruct H as (r' & -> & Hw' & Hcr). cbn [mbind option_bind]. do 3 eexists. split; [done|]. split; [done|].
      by rewrite Hcr, take_drop, app_nil_r.
  - pose proof (write_user_ok r closed bufs Hw Hc) as H. unfold write_post in H. case_bool_decide as E.
    + rewrite H. cbn [mbind option_bind]. exists [], [], r. rewrite app_nil_r. by destruct closed.
    + destruct H as (r' & -> & Hw' & Hcr). cbn [mbind option_bind]. do 3 eexists. split; [done|]. split; [done|].
      rewrite Hcr. cbn. f_equal. rewrite Nat2Z.id, length_take. set (n := (256 - _)%nat).
      destruct (le_lt_dec n (length (concat bufs))); [by rewrite Nat.min_l|]. rewrite Nat.min_r by lia.
      by rewrite !take_ge by lia.
Qed.

Lemma pipe_new_wf : wf new /\ contents new = [].
Proof. done. Qed.

Lemma pipe_run_ok cs : Forall nonempty cs -> forall r, wf r -> exists outs inps r', run r cs = Some (outs, inps, r') /\
  wf r' /\ contents r ++ inps = outs ++ contents r'.
Proof.
  induction 1 as [|c cs Hc Hcs IH]; intros r Hw; cbn [run].
  { exists [], [], r. by rewrite app_nil_r. }
  destruct (do_call_ok r c Hw Hc) as (out & inp & r1 & -> & Hw1 & E1). cbn [mbind option_bind].
  destruct (IH r1 Hw1) as (outs & inps & r2 & -> & Hw2 & E2). cbn [mbind option_bind].
  do 3 eexists. split; [done|]. split; [done|]. by rewrite app_assoc, E1, <- !app_assoc, E2.
Qed.

(** A pipe call transfers what there is. On a well-formed ring buffer a read of
    [n > 0] bytes, in one slice or over the parts of a user buffer, returns the first
    [n] bytes held (all, if fewer) and leaves the rest; a write appends as much of the
    data as there is room for and returns its length. A call blocks exactly when nothing
    is held (or no room is left) and the other end is open, returns 0 there once it is
    closed, and keeps the buffer well-formed; both loops finish within two copies per
    part. An explicit offset is refused with ESPIPE. *)
Theorem pipe_calls r closed lens bufs off : wf r -> Forall (fun n => 0 <= n) lens ->
  0 < zsum lens -> concat bufs <> [] ->
  read_post r closed (zsum lens) (read_user r closed None lens) /\
  read_post r closed (zsum lens) (read r closed None (zsum lens)) /\
  write_post r closed (concat bufs) (write_user r closed None bufs) /\
  write_post r closed (concat bufs) (write r closed None (concat bufs)) /\
  r_ready r = negb (bool_decide (contents r = [])) /\
  w_ready r = bool_decide (Z.of_nat (length (contents r)) < RING_DEFAULT_BUFFER_SIZE) /\
  get_used_size r = Ret (Z.of_nat (length (contents r))) /\
  read_user r closed (Some off) lens = Some (Fails ESPIPE) /\
  write_user r closed (Some off) bufs = Some (Fails ESPIPE).
Proof.
  intros Hw H1 H2 H3. pose proof Hw as [Hs Hst]. destruct (contents_length r Hs) as [Hl Hu].
  pose proof (wf_empty r Hw) as He. pose proof (wf_full r Hw) as Hf. split_and!.
  - by apply read_user_ok.
  - rewrite read_one. pose proof (read_user_ok r closed [zsum lens] Hw) as H.
    rewrite zsum_cons in H. change (zsum []) with 0 in H. rewrite Z.add_0_r in H.
    apply H; [repeat constructor; lia|done].
  - by apply write_user_ok.
  - rewrite write_one. pose proof (write_user_ok r closed [concat bufs] Hw) as H. cbn [concat] in H.
    rewrite app_nil_r in H. by apply H.
  - unfold r_ready. f_equal. by apply bool_decide_ext.
  - unfold w_ready, RING_DEFAULT_BUFFER_SIZE. rewrite <- bool_decide_not. apply bool_decide_ext. rewrite Hf. lia.
  - unfold get_used_size. rewrite Hl. destruct Hs as (Hla & Hh & Ht). destruct (decide (status r = FULL)) as [E|E].
    + rewrite bool_decide_eq_true_2 by done. f_equal. apply Hf in E. lia.
    + rewrite bool_decide_eq_false_2 by done. destruct (decide (status r = EMPTY)) as [E'|E'].
      * rewrite bool_decide_eq_true_2 by done. f_equal. apply He in E'. rewrite <- Hl, E'. done.
      * rewrite bool_decide_eq_false_2 by done. assert (head r <> tail r) as Hne by (apply Hst; by destruct (status r)).
        unfold used. destruct (Z.eqb_spec (head r) (tail r)); [done|].
        cbn [negb rust_assert]. cbn. rewrite Hla. f_equal. destruct (Z.ltb_spec (head r) (tail r));
          rewrite ?add64_small, ?sub64_small by (unfold in_range; rewrite ?add64_small; unfold in_range; lia); lia.
  - done.
  - done.
Qed.

(** Witness: a write of three bytes into a new pipe. *)
Lemma pipe_calls_witness :
  write_post new false [7; 8; 9] (write new false None [7; 8; 9]) /\
  read_post new true 2 (read_user new true None [1; 1]).
Proof.
  pose proof (pipe_calls new false [1; 1] [[7; 8]; [9]] 0) as H. pose proof (pipe_calls new true [1; 1] [[7; 8]; [9]] 0) as H'.
  split; [apply H|apply H']; try done; try apply pipe_new_wf; by repeat constructor.
Defined.

(** C32: a pipe is a lossless first-in first-out channel. Whatever sequence of reads and
    writes of at least one byte is issued on a new pipe, every call returns (or blocks
    unchanged), and the bytes delivered so far followed by the bytes still held are the
    bytes accepted so far, in order; at most 256 bytes are held. *)
Theorem pipe_fifo cs : Forall nonempty cs -> exists outs inps r, run new cs = Some (outs, inps, r) /\
  wf r /\ inps = outs ++ contents r /\ Z.of_nat (length (contents r)) <= RING_DEFAULT_BUFFER_SIZE.
Proof.
  intros Hcs. destruct (pipe_run_ok cs Hcs new (proj1 pipe_new_wf)) as (outs & inps & r & Hr & Hw & E).
  exists outs, inps, r. split_and!; [done|done|done|].
  destruct (contents_length r (proj1 Hw)). unfold RING_DEFAULT_BUFFER_SIZE. lia.
Qed.

(** Witness: two writes over parts, a read between them. *)
Lemma pipe_fifo_witness : exists outs inps r,
  run new [Write false [[1; 2; 3]; [4]]; Read false [1; 1]; Write false [[5]]] = Some (outs, inps, r) /\
  inps = [1; 2; 3; 4; 5] /\ outs = [1; 2] /\ contents r = [3; 4; 5] /\ wf r.
Proof.
  destruct (pipe_fifo [Write false [[1; 2; 3]; [4]]; Read false [1; 1]; Write false [[5]]])
    as (outs & inps & r & Hr & Hw & _ & _).
  - by repeat constructor.
  - exists outs, inps, r. split; [done|]. vm_compute in Hr. injection Hr as <- <- <-. split_and!; done.
Defined.

(** A zero-length call breaks the pipe. Writing 0 bytes to an empty pipe marks it as
    not empty: the next read delivers 256 bytes that were never written. Reading 0 bytes
    from a full pipe marks it as not full: the next write overwrites data not yet read. *)
Theorem pipe_zero_length :
  (exists r, write_user new false None [] = Some (Returns 0 r) /\ r_ready r = true /\
    ~ wf r /\ exists r', read_user r false None [256] = Some (Returns (replicate 256 0) r')) /\
  (exists full r r', write new false None (replicate 256 1) = Some (Returns 256 full) /\
    read_user full false None [] = Some (Returns [] r) /\ w_ready r = true /\
    write r false None [2] = Some (Returns 1 r') /\
    contents full !! 0%nat = Some 1 /\ contents r' = replicate 1 2).
Proof.
  split.
  - eexists. split; [done|]. split; [done|]. split.
    + intros [_ [H _]]. by apply H.
    + eexists. vm_compute. reflexivity.
  - do 3 eexists. split; [vm_compute; reflexivity|]. split; [vm_compute; reflexivity|]. split_and!; [done|vm_compute; reflexivity|done|vm_compute; reflexivity].
Qed.
End PipeRingBuffer.
