(* ===== verification/FdTable.v ===== *)
(** File descriptor tables ([os/src/fs/file_descriptor.rs]) and the system calls of
    [os/src/syscall/fs.rs] and [process.rs] that work on them.

    A descriptor's [Arc<dyn File>] is the identity of the shared file object. A table
    is refined by a finite map from descriptor numbers to descriptors. *)
From S2P Require Import Prelude Errno.

Record FileDescriptor : Type := FD { cloexec : bool; nonblock : bool; file : Z }.

#[global] Instance FileDescriptor_eq_dec : EqDecision FileDescriptor.
Proof. solve_decision. Defined.

Definition set_cloexec (d : FileDescriptor) (flag : bool) : FileDescriptor := FD flag (nonblock d) (file d).
Definition get_cloexec (d : FileDescriptor) : bool := cloexec d.
Definition get_nonblock (d : FileDescriptor) : bool := nonblock d.

Module FdTable.

Record t : Type := Mk {
  inner : list (option FileDescriptor);
  recycled : list Z;
  soft_limit : Z;
  hard_limit : Z;
}.

Definition DEFAULT_FD_LIMIT : Z := 128.
Definition SYSTEM_FD_LIMIT : Z := 256.

Definition len (ft : t) : Z := Z.of_nat (length (inner ft)).
Definition with_inner (ft : t) (l : list (option FileDescriptor)) (r : list Z) : t :=
  Mk l r (soft_limit ft) (hard_limit ft).

Definition new (l : list (option FileDescriptor)) : t := Mk l [] DEFAULT_FD_LIMIT SYSTEM_FD_LIMIT.

(** [truncate] and [retain], where the new limit is below the length. *)
Definition cut (ft : t) (limit : Z) : t :=
  if limit <? len ft then
    with_inner ft (take (Z.to_nat limit) (inner ft)) (List.filter (fun fd => fd <? limit) (recycled ft))
  else ft.
Definition get_soft_limit (ft : t) : Z := soft_limit ft.
Definition get_hard_limit (ft : t) : Z := hard_limit ft.
Definition set_soft_limit (ft : t) (limit : Z) : t :=
  let ft := cut ft limit in Mk (inner ft) (recycled ft) limit (hard_limit ft).
Definition set_hard_limit (ft : t) (limit : Z) : t :=
  let ft := cut ft limit in Mk (inner ft) (recycled ft) (soft_limit ft) limit.

Definition get_ref (ft : t) (fd : Z) : outcome (Result FileDescriptor Z) :=
  if len ft <=? fd then Ret (Err EBADF)
  else o ← index (inner ft) fd; Ret (match o with Some d => Ok d | None => Err EBADF end).
(** [get_refmut], with the update made through the reference. *)
Definition update_ref (ft : t) (fd : Z) (f : FileDescriptor -> FileDescriptor) : outcome (Result unit Z * t) :=
  if len ft <=? fd then Ret (Err EBADF, ft)
  else
    o ← index (inner ft) fd;
    match o with
    | Some d => l ← store (inner ft) fd (Some (f d)); Ret (Ok tt, with_inner ft l (recycled ft))
    | None => Ret (Err EBADF, ft)
    end.
Definition remove (ft : t) (fd : Z) : outcome (Result FileDescriptor Z * t) :=
  if len ft <=? fd then Ret (Err EBADF, ft)
  else
    o ← index (inner ft) fd;
    l ← store (inner ft) fd None;
    match o with
    | Some d => Ret (Ok d, with_inner ft l (recycled ft ++ [wrap 8 fd]))
    | None => Ret (Err EBADF, with_inner ft l (recycled ft))
    end.
Definition check (ft : t) (fd : Z) : outcome (Result unit Z) :=
  if len ft <=? fd then Ret (Err EBADF)
  else o ← index (inner ft) fd; Ret (match o with Some _ => Ok tt | None => Err EBADF end).

(** [iter().min()] *)
Definition list_min (l : list Z) : option Z :=
  match l with [] => None | x :: r => Some (foldr Z.min x r) end.

Definition find_min (ft : t) : option Z * t :=
  match list_min (recycled ft) with
  | Some min_value =>
      match remove_first (fun x => x =? min_value) (recycled ft) with
      | (Some _, r) => (Some min_value, with_inner ft (inner ft) r)
      | (None, _) => (None, ft)
      end
  | None => (None, ft)
  end.

(** The [None] branch of [insert], which [try_insert_at] shares. *)
Definition push (ft : t) (d : FileDescriptor) : Result Z Z * t :=
  if len ft =? soft_limit ft then (Err EMFILE, ft)
  else (Ok (len ft), with_inner ft (inner ft ++ [Some d]) (recycled ft)).
Definition insert (ft : t) (d : FileDescriptor) : outcome (Result Z Z * t) :=
  let '(o, ft1) := find_min ft in
  match o with
  | Some fd => l ← store (inner ft1) fd (Some d); Ret (Ok fd, with_inner ft1 l (recycled ft1))
  | None => Ret (push ft1 d)
  end.

Definition insert_at (ft : t) (d : FileDescriptor) (pos : Z) : outcome (Result Z Z * t) :=
  let current := len ft in
  if pos <? current then
    o ← index (inner ft) pos;
    let r := match o with None => List.filter (fun fd => negb (fd =? pos)) (recycled ft) | Some _ => recycled ft end in
    l ← store (inner ft) pos (Some d);
    Ret (Ok pos, with_inner ft l r)
  else if soft_limit ft <=? pos then Ret (Err EMFILE, ft)
  else Ret (Ok pos, with_inner ft (resize (Z.to_nat pos) None (inner ft) ++ [Some d])
              (recycled ft ++ map (wrap 8) (reverse (seqZ current (pos - current))))).

Definition try_insert_at (ft : t) (d : FileDescriptor) (hint : Z) : outcome (Result Z Z * t) :=
  if soft_limit ft <=? hint then Ret (Err EMFILE, ft)
  else
    let current := len ft in
    if hint <? current then
      o ← index (inner ft) hint;
      match o with
      | Some _ =>
          match find_first (fun fd => hint <? fd) (recycled ft) with
          | Some fd => l ← store (inner ft) fd (Some d); Ret (Ok fd, with_inner ft l (recycled ft))
          | None => Ret (push ft d)
          end
      | None =>
          l ← store (inner ft) hint (Some d);
          Ret (Ok hint, with_inner ft l (List.filter (fun fd => negb (fd =? hint)) (recycled ft)))
      end
    else if soft_limit ft <=? hint then Ret (Err EMFILE, ft)
    else Ret (Ok hint, with_inner ft (resize (Z.to_nat hint) None (inner ft) ++ [Some d])
                (recycled ft ++ map (wrap 8) (seqZ current (hint - current)))).

Definition take (ft : t) (fd : Z) : outcome (option FileDescriptor * t) :=
  if len ft <=? fd then Ret (None, ft)
  else o ← index (inner ft) fd; l ← store (inner ft) fd None; Ret (o, with_inner ft l (recycled ft)).

(** ** System calls *)

Definition errno_of (r : Result Z Z) : Z := match r with Ok fd => fd | Err e => e end.

Definition sys_close (ft : t) (fd : Z) : outcome (Z * t) :=
  '(r, ft') ← remove ft fd; Ret (match r with Ok _ => SUCCESS | Err e => e end, ft').
Definition sys_dup (ft : t) (oldfd : Z) : outcome (Z * t) :=
  r ← get_ref ft oldfd;
  match r with
  | Ok d => '(r', ft') ← insert ft d; Ret (errno_of r', ft')
  | Err e => Ret (e, ft)
  end.
Definition sys_dup2 (ft : t) (oldfd newfd : Z) : outcome (Z * t) :=
  r ← get_ref ft oldfd;
  match r with
  | Ok d => '(r', ft') ← insert_at ft (set_cloexec d false) newfd; Ret (errno_of r', ft')
  | Err e => Ret (e, ft)
  end.

Definition O_CLOEXEC : Z := 0x80000.
Definition sys_dup3 (ft : t) (oldfd newfd flags : Z) : outcome (Z * t) :=
  if oldfd =? newfd then Ret (EINVAL, ft)
  else if negb ((flags =? O_CLOEXEC) || (flags =? 0)) then Ret (EINVAL, ft)
  else
    r ← get_ref ft oldfd;
    match r with
    | Ok d => '(r', ft') ← insert_at ft (set_cloexec d (flags =? O_CLOEXEC)) newfd; Ret (errno_of r', ft')
    | Err e => Ret (e, ft)
    end.

Definition F_DUPFD : Z := 0.
Definition F_GETFD : Z := 1.
Definition F_SETFD : Z := 2.
Definition F_GETFL : Z := 3.
Definition F_DUPFD_CLOEXEC : Z := 1030.
Definition FD_CLOEXEC : Z := 1.
Definition O_RDWR : Z := 2.
Definition O_NONBLOCK : Z := 0x800.

Definition sys_fcntl (ft : t) (fd cmd arg : Z) : outcome (Z * t) :=
  if cmd =? F_DUPFD then
    r ← get_ref ft fd;
    match r with
    | Ok d => '(r', ft') ← try_insert_at ft d arg; Ret (errno_of r', ft')
    | Err e => Ret (e, ft)
    end
  else if cmd =? F_DUPFD_CLOEXEC then
    r ← get_ref ft fd;
    match r with
    | Ok d => '(r', ft') ← try_insert_at ft (set_cloexec d true) arg; Ret (errno_of r', ft')
    | Err e => Ret (e, ft)
    end
  else if cmd =? F_GETFD then
    r ← get_ref ft fd;
    Ret (match r with Ok d => Z.b2z (get_cloexec d) | Err e => e end, ft)
  else if cmd =? F_SETFD then
    '(r, ft') ← update_ref ft fd (fun d => set_cloexec d (negb (Z.land arg FD_CLOEXEC =? 0)));
    Ret (match r with Ok _ => SUCCESS | Err e => e end, ft')
  else if cmd =? F_GETFL then
    r ← get_ref ft fd;
    Ret (match r with Ok d => if get_nonblock d then Z.lor O_RDWR O_NONBLOCK else O_RDWR | Err e => e end, ft)
  else Ret (SUCCESS, ft).

(** [sys_prlimit] on [RLIMIT_NOFILE] with a new limit. *)
Definition prlimit_nofile (ft : t) (rlim_cur rlim_max : Z) : t :=
  set_hard_limit (set_soft_limit ft rlim_cur) rlim_max.

(** ** The table as a finite map *)

(** [recycled] lists exactly the holes, once each; descriptor numbers fit in a byte. *)
Record rep (ft : t) (M : gmap Z FileDescriptor) : Prop := {
  rp_len : len ft <= soft_limit ft;
  rp_byte : soft_limit ft <= 256;
  rp_nodup : NoDup (recycled ft);
  rp_holes : forall i, i ∈ recycled ft <-> 0 <= i /\ inner ft !! Z.to_nat i = Some None;
  rp_map : forall i, M !! i = if 0 <=? i then mjoin (inner ft !! Z.to_nat i) else None;
}.

Lemma fd_rep_lookup ft M i : rep ft M -> 0 <= i -> M !! i = mjoin (inner ft !! Z.to_nat i).
Proof. intros R Hi. rewrite (rp_map _ _ R). by destruct (Z.leb_spec 0 i); [|lia]. Qed.

Lemma inner_lookup (ft : t) i : 0 <= i < len ft -> exists o, inner ft !! Z.to_nat i = Some o.
Proof. intros Hi. apply lookup_lt_is_Some. unfold len in Hi. lia. Qed.

(** A number is free where it is a hole or past the end. *)
Lemma rep_free ft M i : rep ft M -> 0 <= i -> M !! i = None <-> i ∈ recycled ft \/ len ft <= i.
Proof.
  intros R Hi. rewrite (fd_rep_lookup _ _ _ R Hi), (rp_holes _ _ R). unfold len. split.
  - destruct (inner ft !! Z.to_nat i) as [[d|]|] eqn:E; cbn; [done|by left|]. intros _. right.
    apply lookup_ge_None in E. lia.
  - intros [[_ E]|E]; [by rewrite E|]. by rewrite lookup_ge_None_2 by lia.
Qed.

Lemma hole_range ft M i : rep ft M -> i ∈ recycled ft -> 0 <= i < len ft.
Proof.
  intros R [Hi E]%(rp_holes _ _ R). apply lookup_lt_Some in E. unfold len. lia.
Qed.

Lemma fd_rep_new l : Z.of_nat (length l) <= DEFAULT_FD_LIMIT -> (forall i, l !! i <> Some None) ->
  rep (new l) (list_to_map (imap (fun i o => (Z.of_nat i, default (FD false false 0) o)) l)).
Proof.
  intros Hl Hh. constructor; cbn; try done.
  - constructor.
  - intros i. split; [intros H; by apply not_elem_of_nil in H|]. intros [_ E]. by destruct (Hh _ E).
  - intros i. assert (forall k d, (imap (fun i o => (Z.of_nat i, default (FD false false 0) o)) l) !! k = Some d <->
      exists o, l !! k = Some o /\ d = (Z.of_nat k, default (FD false false 0) o)) as Him.
    { intros k d. rewrite list_lookup_imap. destruct (l !! k); cbn; naive_solver. }
    destruct (Z.leb_spec 0 i) as [Hi|Hi].
    + destruct (l !! Z.to_nat i) as [o|] eqn:E; cbn.
      * assert (is_Some o) as [d ->] by (destruct o; [by eexists|by destruct (Hh _ E)]).
        apply elem_of_list_to_map_1.
        -- rewrite fmap_imap. apply NoDup_alt. intros a b k Ha Hb. rewrite list_lookup_imap in Ha, Hb. cbn in Ha, Hb.
           destruct (l !! a), (l !! b); cbn in *; try done. injection Ha. injection Hb. lia.
        -- apply list_elem_of_lookup. exists (Z.to_nat i). apply Him. exists (Some d). split; [done|]. f_equal. lia.
      * apply not_elem_of_list_to_map_1. intros H%list_elem_of_fmap. destruct H as ([k d] & -> & Hk).
        apply list_elem_of_lookup in Hk as [k' (o & Ho & Heq)%Him]. injection Heq as -> ->. cbn in E.
        rewrite Nat2Z.id in E. congruence.
    + apply not_elem_of_list_to_map_1. intros H%list_elem_of_fmap. destruct H as ([k d] & -> & Hk).
      apply list_elem_of_lookup in Hk as [k' (o & Ho & Heq)%Him]. injection Heq as -> ->. cbn in Hi. lia.
Qed.

(** Storing at a number below the length, with the hole there (if any) dropped. *)
Lemma rep_put ft M i d r : rep ft M -> 0 <= i < len ft -> NoDup r ->
  (forall j, j ∈ r <-> j ∈ recycled ft /\ j <> i) ->
  exists l, store (inner ft) i (Some d) = Ret l /\ rep (with_inner ft l r) (<[i := d]> M).
Proof.
  intros R Hi Hnd Hr. unfold len in Hi. eexists. split; [apply store_lt; lia|]. constructor; cbn.
  - unfold len. cbn. rewrite length_insert. apply R.
  - apply R.
  - done.
  - intros j. rewrite Hr, (rp_holes _ _ R). split.
    + intros [[Hj E] Hne]. split; [done|]. rewrite list_lookup_insert_ne by lia. done.
    + intros [Hj E]. destruct (decide (j = i)) as [->|Hne].
      * rewrite list_lookup_insert_eq in E by lia. done.
      * rewrite list_lookup_insert_ne in E by lia. done.
  - intros j. destruct (decide (j = i)) as [->|Hne].
    + rewrite lookup_insert_eq. destruct (Z.leb_spec 0 i); [|lia]. by rewrite list_lookup_insert_eq by lia.
    + rewrite lookup_insert_ne by done. rewrite (rp_map _ _ R). destruct (Z.leb_spec 0 j); [|done].
      by rewrite list_lookup_insert_ne by lia.
Qed.

(** Extending the table up to [pos] with holes and storing there. *)
Lemma rep_extend ft M pos d r : rep ft M -> len ft <= pos < soft_limit ft -> NoDup r ->
  (forall j, j ∈ r <-> j ∈ recycled ft \/ len ft <= j < pos) ->
  rep (with_inner ft (resize (Z.to_nat pos) None (inner ft) ++ [Some d]) r) (<[pos := d]> M).
Proof.
  intros R Hp Hnd Hr. unfold len in Hp, Hr. rewrite resize_ge by lia. rewrite <- app_assoc.
  set (l := inner ft ++ replicate (Z.to_nat pos - length (inner ft)) None ++ [Some d]).
  assert (length l = S (Z.to_nat pos)) as Hl by (unfold l; rewrite !length_app, length_replicate; cbn; lia).
  assert (forall j, 0 <= j -> l !! Z.to_nat j =
    if j <? Z.of_nat (length (inner ft)) then inner ft !! Z.to_nat j
    else if j <? pos then Some None else if j =? pos then Some (Some d) else None) as Hlk.
  { intros j Hj. unfold l. destruct (Z.ltb_spec j (Z.of_nat (length (inner ft)))); [by rewrite lookup_app_l by lia|].
    rewrite lookup_app_r by lia. destruct (Z.ltb_spec j pos).
    - rewrite lookup_app_l by (rewrite length_replicate; lia). apply lookup_replicate_2. lia.
    - rewrite lookup_app_r by (rewrite length_replicate; lia). rewrite length_replicate. destruct (Z.eqb_spec j pos) as [->|].
      + by replace (Z.to_nat pos - length (inner ft) - (Z.to_nat pos - length (inner ft)))%nat with 0%nat by lia.
      + apply lookup_ge_None_2. cbn. lia. }
  constructor; cbn.
  - unfold len. cbn. rewrite Hl. lia.
  - apply R.
  - done.
  - intros j. rewrite Hr, (rp_holes _ _ R). split.
    + intros [[Hj E]|Hj]; (split; [lia|]); rewrite Hlk by lia.
      * pose proof (lookup_lt_Some _ _ _ E). by destruct (Z.ltb_spec j (Z.of_nat (length (inner ft)))); [|lia].
      * destruct (Z.ltb_spec j (Z.of_nat (length (inner ft)))), (Z.ltb_spec j pos); lia || done.
    + intros [Hj E]. rewrite Hlk in E by lia. destruct (Z.ltb_spec j (Z.of_nat (length (inner ft)))); [by left|].
      destruct (Z.ltb_spec j pos); [right; lia|]. by destruct (Z.eqb_spec j pos).
  - intros j. destruct (decide (j = pos)) as [->|Hne].
    + rewrite lookup_insert_eq. destruct (Z.leb_spec 0 pos); [|lia]. rewrite Hlk by lia.
      destruct (Z.ltb_spec pos (Z.of_nat (length (inner ft)))); [lia|]. by rewrite Z.ltb_irrefl, Z.eqb_refl.
    + rewrite lookup_insert_ne by done. rewrite (rp_map _ _ R). destruct (Z.leb_spec 0 j); [|done]. rewrite Hlk by lia.
      destruct (Z.ltb_spec j (Z.of_nat (length (inner ft)))); [done|]. rewrite lookup_ge_None_2 by lia.
      destruct (Z.ltb_spec j pos); [done|]. by destruct (Z.eqb_spec j pos).
Qed.

Lemma rep_delete ft M i d r : rep ft M -> M !! i = Some d -> NoDup r ->
  (forall j, j ∈ r <-> j ∈ recycled ft \/ j = i) ->
  exists l, store (inner ft) i None = Ret l /\ rep (with_inner ft l r) (delete i M).
Proof.
  intros R HM Hnd Hr. rewrite (rp_map _ _ R) in HM. destruct (Z.leb_spec 0 i) as [Hi|]; [|done].
  destruct (inner ft !! Z.to_nat i) as [o|] eqn:E; [|done]. pose proof (lookup_lt_Some _ _ _ E) as Hlt.
  eexists. split; [apply store_lt; lia|]. constructor; cbn.
  - unfold len. cbn. rewrite length_insert. apply R.
  - apply R.
  - done.
  - intros j. rewrite Hr, (rp_holes _ _ R). destruct (decide (j = i)) as [->|Hne].
    + rewrite list_lookup_insert_eq by lia. naive_solver.
    + split.
      * intros [[Hj Ej]|]; [|done]. by rewrite list_lookup_insert_ne by lia.
      * intros [Hj Ej]. rewrite list_lookup_insert_ne in Ej by lia. by left.
  - intros j. destruct (decide (j = i)) as [->|Hne].
    + rewrite lookup_delete_eq. destruct (Z.leb_spec 0 i); [|lia]. by rewrite list_lookup_insert_eq by lia.
    + rewrite lookup_delete_ne by done. rewrite (rp_map _ _ R). destruct (Z.leb_spec 0 j); [|done].
      by rewrite list_lookup_insert_ne by lia.
Qed.

(** ** The lowest free number *)

Definition least_free (M : gmap Z FileDescriptor) (lo hi : Z) : option Z :=
  find_first (fun i => bool_decide (M !! i = None)) (seqZ lo (hi - lo)).

Lemma least_free_none M lo hi : (forall j, lo <= j < hi -> M !! j <> None) -> least_free M lo hi = None.
Proof.
  intros H. apply find_first_None. intros x Hx%elem_of_seqZ. apply bool_decide_eq_false_2, H. lia.
Qed.

Lemma least_free_some M lo hi i : lo <= i < hi -> M !! i = None ->
  (forall j, lo <= j < i -> M !! j <> None) -> least_free M lo hi = Some i.
Proof.
  intros Hi Hn Hb. unfold least_free. replace (hi - lo) with ((i - lo) + (hi - i)) by lia.
  rewrite seqZ_app, find_first_app by lia.
  pose proof (least_free_none M lo i Hb) as E. unfold least_free in E. rewrite E. clear E.
  rewrite seqZ_cons by lia. cbn [find_first]. replace (lo + (i - lo)) with i by lia.
  by rewrite bool_decide_eq_true_2.
Qed.

Lemma list_min_spec l : match list_min l with
  | None => l = []
  | Some m => m ∈ l /\ forall x, x ∈ l -> m <= x
  end.
Proof.
  destruct l as [|x l]; [done|]. cbn. induction l as [|y l IH]; cbn.
  - split; [left|]. intros z Hz%list_elem_of_singleton. lia.
  - destruct IH as [Hin Hle]. split.
    + destruct (Z.min_spec y (foldr Z.min x l)) as [[_ ->]|[_ ->]]; [by right; left|].
      apply elem_of_cons in Hin as [->|]; [by left|by right; right].
    + intros z Hz. apply elem_of_cons in Hz as [->|Hz]; [specialize (Hle x (list_elem_of_here _ _)); lia|].
      apply elem_of_cons in Hz as [->|Hz]; [lia|]. specialize (Hle z (list_elem_of_further _ _ _ Hz)). lia.
Qed.

Lemma remove_first_eq (l : list Z) (m : Z) : NoDup l -> m ∈ l ->
  exists r, remove_first (fun x => x =? m) l = (Some m, r) /\ NoDup r /\ forall j, j ∈ r <-> j ∈ l /\ j <> m.
Proof.
  intros Hnd Hm. pose proof (remove_first_spec (fun x => x =? m) l) as H.
  destruct (remove_first _ l) as [[y|] r].
  - destruct H as (l1 & l2 & -> & -> & ->%Z.eqb_eq & _). exists (l1 ++ l2). split; [done|].
    apply NoDup_app in Hnd as (H1 & H2 & H3). apply NoDup_cons in H3 as [H3 H4]. split.
    + apply NoDup_app. split_and!; [done| |done]. intros x Hx Hx2. apply (H2 x Hx). by right.
    + intros j. rewrite !elem_of_app, elem_of_cons. split; [|naive_solver].
      intros [Hj|Hj]; (split; [tauto|]); intros ->; [|done]. apply (H2 m Hj). left.
  - destruct H as [_ H]. specialize (H m Hm). cbn in H. rewrite Z.eqb_refl in H. done.
Qed.

(** What an insertion of a descriptor does to the map. *)
Definition spec_insert (M : gmap Z FileDescriptor) (lo limit : Z) (d : FileDescriptor)
    : Result Z Z * gmap Z FileDescriptor :=
  match least_free M lo limit with
  | Some i => (Ok i, <[i := d]> M)
  | None => (Err EMFILE, M)
  end.

Definition simulates {A} (ft : t) (o : outcome (A * t)) (s : A * gmap Z FileDescriptor) : Prop :=
  exists ft', o = Ret (fst s, ft') /\ rep ft' (snd s) /\ soft_limit ft' = soft_limit ft.

Lemma push_ok ft M lo d : rep ft M -> 0 <= lo <= len ft -> (forall j, lo <= j -> j ∈ recycled ft -> False) ->
  simulates ft (Ret (push ft d)) (spec_insert M lo (soft_limit ft) d).
Proof.
  intros R Hlo Hno. pose proof (rp_len _ _ R) as Hlen.
  assert (forall j, lo <= j < len ft -> M !! j <> None) as Hocc.
  { intros j Hj E. apply (rep_free _ _ _ R) in E as [E|E]; [|lia|lia]. by apply (Hno j ltac:(lia)). }
  unfold simulates, push, spec_insert. destruct (Z.eqb_spec (len ft) (soft_limit ft)) as [E|E].
  - rewrite least_free_none by (rewrite <- E; done). by exists ft.
  - rewrite (least_free_some M lo (soft_limit ft) (len ft)); [|lia| |done].
    2: { apply (rep_free _ _ _ R); [lia|by right]. }
    pose proof (rep_extend ft M (len ft) d (recycled ft) R ltac:(lia) (rp_nodup _ _ R)) as H.
    eexists. split; [done|]. split; [|done]. cbn.
    replace (Z.to_nat (len ft)) with (length (inner ft)) in H by (unfold len; lia). rewrite resize_all in H.
    apply H. intros j. split; [by left|]. intros [|]; [done|lia].
Qed.

Lemma insert_ok ft M d : rep ft M -> simulates ft (insert ft d) (spec_insert M 0 (soft_limit ft) d).
Proof.
  intros R. pose proof (rp_len _ _ R) as Hlen. unfold insert, find_min.
  pose proof (list_min_spec (recycled ft)) as Hmin. destruct (list_min (recycled ft)) as [m|].
  - destruct Hmin as [Hm Hle]. destruct (hole_range _ _ _ R Hm) as [Hm0 Hml].
    destruct (remove_first_eq (recycled ft) m (rp_nodup _ _ R) Hm) as (r & -> & Hnd & Hr).
    destruct (rep_put ft M m d r R ltac:(lia) Hnd Hr) as (l & Hs & R'). cbn [inner with_inner]. rewrite Hs.
    unfold simulates, spec_insert. rewrite (least_free_some M 0 (soft_limit ft) m); [|lia| |].
    + by eexists.
    + apply (rep_free _ _ _ R); [done|by left].
    + intros j Hj E. apply (rep_free _ _ j R ltac:(lia)) in E as [E|E]; [|lia]. specialize (Hle j E). lia.
  - apply push_ok; [done|unfold len; lia|]. intros j _. rewrite Hmin. apply not_elem_of_nil.
Qed.

Definition spec_insert_at (M : gmap Z FileDescriptor) (limit : Z) (d : FileDescriptor) (pos : Z)
    : Result Z Z * gmap Z FileDescriptor :=
  if pos <? limit then (Ok pos, <[pos := d]> M) else (Err EMFILE, M).

Lemma filter_ne_spec (l : list Z) (p : Z) : NoDup l ->
  NoDup (List.filter (fun fd => negb (fd =? p)) l) /\
  forall j, j ∈ List.filter (fun fd => negb (fd =? p)) l <-> j ∈ l /\ j <> p.
Proof.
  intros Hnd. split; [by apply NoDup_ListNoDup, List.NoDup_filter, NoDup_ListNoDup|].
  intros j. rewrite elem_of_filter_bool. by destruct (Z.eqb_spec j p); naive_solver.
Qed.

Lemma bytes_ok ft M pos l : rep ft M -> len ft <= pos < soft_limit ft -> l ≡ₚ seqZ (len ft) (pos - len ft) ->
  NoDup (recycled ft ++ map (wrap 8) l) /\
  forall j, j ∈ recycled ft ++ map (wrap 8) l <-> j ∈ recycled ft \/ len ft <= j < pos.
Proof.
  intros R Hp Hl. pose proof (rp_byte _ _ R) as Hb.
  assert (map (wrap 8) l = l) as ->.
  { rewrite <- (map_id l) at 2. apply map_ext_in. intros x Hx%list_elem_of_In. apply wrap_small.
    rewrite Hl in Hx. apply elem_of_seqZ in Hx. unfold in_range. unfold len in *. lia. }
  split.
  - apply NoDup_app. split_and!; [apply R| |].
    + intros x Hx Hx2. rewrite Hl in Hx2. apply elem_of_seqZ in Hx2. pose proof (hole_range _ _ _ R Hx). lia.
    + rewrite Hl. apply NoDup_seqZ.
  - intros j. rewrite elem_of_app, Hl, elem_of_seqZ. split; (intros [H|H]; [by left|right; lia]).
Qed.

Lemma insert_at_ok ft M d pos : rep ft M -> 0 <= pos ->
  simulates ft (insert_at ft d pos) (spec_insert_at M (soft_limit ft) d pos).
Proof.
  intros R Hp. pose proof (rp_len _ _ R) as Hlen. unfold insert_at, simulates, spec_insert_at.
  destruct (Z.ltb_spec pos (len ft)) as [Hlt|Hge].
  - destruct (inner_lookup ft pos ltac:(lia)) as [o Ho]. rewrite (proj2 (index_ret _ _ _) Ho). cbn [mbind outcome_bind].
    destruct (Z.ltb_spec pos (soft_limit ft)); [|lia].
    destruct (filter_ne_spec (recycled ft) pos (rp_nodup _ _ R)) as [Hnd Hf].
    destruct o as [d'|]; cbv zeta.
    + destruct (rep_put ft M pos d (recycled ft) R ltac:(lia) (rp_nodup _ _ R)) as (l & -> & R').
      * intros j. split; [|tauto]. intros Hj. split; [done|]. intros ->. apply (rp_holes _ _ R) in Hj. naive_solver.
      * by eexists.
    + destruct (rep_put ft M pos d _ R ltac:(lia) Hnd Hf) as (l & -> & R'). by eexists.
  - destruct (Z.leb_spec (soft_limit ft) pos); (destruct (Z.ltb_spec pos (soft_limit ft)); try lia); [by exists ft|].
    eexists. split; [done|]. split; [|done]. destruct (bytes_ok ft M pos (reverse (seqZ (len ft) (pos - len ft))) R ltac:(lia)) as [Hnd Hj].
    + apply reverse_Permutation.
    + by apply rep_extend.
Qed.

(** ** The other operations *)

Lemma get_ref_ok ft M fd : rep ft M -> 0 <= fd ->
  get_ref ft fd = Ret (match M !! fd with Some d => Ok d | None => Err EBADF end).
Proof.
  intros R Hfd. unfold get_ref. rewrite (fd_rep_lookup _ _ _ R Hfd). destruct (Z.leb_spec (len ft) fd).
  - by rewrite lookup_ge_None_2 by (unfold len in *; lia).
  - destruct (inner_lookup ft fd ltac:(lia)) as [o Ho]. rewrite (proj2 (index_ret _ _ _) Ho), Ho. by destruct o.
Qed.

Lemma update_ref_ok ft M fd f : rep ft M -> 0 <= fd ->
  simulates ft (update_ref ft fd f)
    (match M !! fd with Some d => (Ok tt, <[fd := f d]> M) | None => (Err EBADF, M) end).
Proof.
  intros R Hfd. unfold update_ref, simulates. rewrite (fd_rep_lookup _ _ _ R Hfd). destruct (Z.leb_spec (len ft) fd).
  - rewrite lookup_ge_None_2 by (unfold len in *; lia). by exists ft.
  - destruct (inner_lookup ft fd ltac:(lia)) as [o Ho]. rewrite (proj2 (index_ret _ _ _) Ho), Ho.
    destruct o as [d|]; cbn [mbind outcome_bind mjoin option_join]; [|by exists ft].
    destruct (rep_put ft M fd (f d) (recycled ft) R ltac:(lia) (rp_nodup _ _ R)) as (l & -> & R').
    + intros j. split; [|tauto]. intros Hj. split; [done|]. intros ->. apply (rp_holes _ _ R) in Hj. naive_solver.
    + by eexists.
Qed.

Lemma remove_ok ft M fd : rep ft M -> 0 <= fd ->
  simulates ft (remove ft fd)
    (match M !! fd with Some d => (Ok d, delete fd M) | None => (Err EBADF, M) end).
Proof.
  intros R Hfd. pose proof (fd_rep_lookup _ _ _ R Hfd) as HM. unfold remove, simulates. destruct (Z.leb_spec (len ft) fd).
  - rewrite HM, lookup_ge_None_2 by (unfold len in *; lia). by exists ft.
  - destruct (inner_lookup ft fd ltac:(lia)) as [o Ho]. rewrite (proj2 (index_ret _ _ _) Ho). rewrite Ho in HM.
    destruct o as [d|]; cbn [mbind outcome_bind mjoin option_join] in *; rewrite HM.
    + assert (wrap 8 fd = fd) as -> by (apply wrap_small; unfold in_range; destruct R; lia).
      destruct (rep_delete ft M fd d (recycled ft ++ [fd]) R HM) as (l & -> & R'); [| |by eexists].
      * apply NoDup_app. split_and!; [apply R| |apply NoDup_singleton]. intros x Hx ->%list_elem_of_singleton.
        apply (rp_holes _ _ R) in Hx. naive_solver.
      * intros j. by rewrite elem_of_app, list_elem_of_singleton.
    + rewrite store_lt by (unfold len in *; lia). cbn [mbind outcome_bind]. rewrite list_insert_id by done.
      exists ft. by destruct ft.
Qed.

Definition restrict (M : gmap Z FileDescriptor) (limit : Z) : gmap Z FileDescriptor :=
  filter (fun kv => kv.1 < limit) M.

Lemma lookup_restrict M limit i : restrict M limit !! i = if i <? limit then M !! i else None.
Proof.
  unfold restrict. destruct (Z.ltb_spec i limit).
  - destruct (M !! i) as [d|] eqn:E; [by apply map_lookup_filter_Some|]. apply map_lookup_filter_None. by left.
  - apply map_lookup_filter_None. right. intros d _. cbn. lia.
Qed.

Lemma cut_ok ft M limit : rep ft M -> 0 <= limit ->
  rep (cut ft limit) (restrict M limit) /\ len (cut ft limit) <= limit /\ soft_limit (cut ft limit) = soft_limit ft.
Proof.
  intros R Hl. unfold cut. pose proof (rp_len _ _ R). destruct (Z.ltb_spec limit (len ft)) as [Hlt|Hge].
  - assert (len (with_inner ft (firstn (Z.to_nat limit) (inner ft)) (List.filter (fun fd => fd <? limit) (recycled ft))) = limit) as Hlen.
    { unfold len in *. cbn. rewrite length_take. lia. }
    split; [|split; [lia|done]]. constructor; cbn.
    + rewrite Hlen. lia.
    + apply R.
    + by apply NoDup_ListNoDup, List.NoDup_filter, NoDup_ListNoDup, R.
    + intros i. rewrite elem_of_filter_bool, (rp_holes _ _ R). destruct (Z.ltb_spec i limit).
      * split; [intros [[Hi E] _]; split; [done|]; by rewrite lookup_take_lt by lia|].
        intros [Hi E]. rewrite lookup_take_lt in E by lia. done.
      * split; [by intros [_ ?]|]. intros [Hi E]. rewrite lookup_take_ge in E by lia. done.
    + intros i. rewrite lookup_restrict, (rp_map _ _ R). destruct (Z.leb_spec 0 i), (Z.ltb_spec i limit); try done.
      * by rewrite lookup_take_lt by lia.
      * by rewrite lookup_take_ge by lia.
  - split; [|split; [lia|done]]. destruct R as [R1 R2 R3 R4 R5]. constructor; try done.
    intros i. rewrite lookup_restrict, R5. destruct (Z.leb_spec 0 i), (Z.ltb_spec i limit); try done.
    by rewrite lookup_ge_None_2 by (unfold len in *; lia).
Qed.

Lemma prlimit_ok ft M cur max : rep ft M -> 0 <= cur <= 256 -> 0 <= max ->
  rep (prlimit_nofile ft cur max) (restrict (restrict M cur) max) /\ soft_limit (prlimit_nofile ft cur max) = cur.
Proof.
  intros R Hc Hm. destruct (cut_ok ft M cur R ltac:(lia)) as (R1 & Hl1 & _).
  assert (rep (set_soft_limit ft cur) (restrict M cur)) as R2.
  { destruct R1 as [A1 A2 A3 A4 A5]. constructor; try done; cbn; lia || done. }
  destruct (cut_ok _ _ max R2 Hm) as (R3 & Hl3 & Hs). split; [|exact Hs].
  destruct R3 as [A1 A2 A3 A4 A5]. by constructor.
Qed.

(** ** Sequences of system calls *)

Inductive op : Type :=
| Open (d : FileDescriptor)
| Close (fd : Z)
| Dup (oldfd : Z)
| Dup2 (oldfd newfd : Z)
| Dup3 (oldfd newfd flags : Z)
| Fcntl (fd cmd arg : Z)
| Prlimit (cur max : Z).

(** Arguments are unsigned; the duplicating [fcntl] commands apart, and with a limit of
    at most 256 descriptors. *)
Definition op_ok (o : op) : Prop :=
  match o with
  | Open _ => True
  | Close fd => 0 <= fd
  | Dup fd => 0 <= fd
  | Dup2 a b | Dup3 a b _ => 0 <= a /\ 0 <= b
  | Fcntl fd cmd _ => 0 <= fd /\ cmd <> F_DUPFD /\ cmd <> F_DUPFD_CLOEXEC
  | Prlimit cur max => 0 <= cur <= 256 /\ 0 <= max
  end.

Definition step (ft : t) (o : op) : outcome (Z * t) :=
  match o with
  | Open d => '(r, ft') ← insert ft d; Ret (errno_of r, ft')
  | Close fd => sys_close ft fd
  | Dup fd => sys_dup ft fd
  | Dup2 a b => sys_dup2 ft a b
  | Dup3 a b flags => sys_dup3 ft a b flags
  | Fcntl fd cmd arg => sys_fcntl ft fd cmd arg
  | Prlimit cur max => Ret (SUCCESS, prlimit_nofile ft cur max)
  end.

(** The same calls on a finite map with a limit. *)
Definition spec_step (M : gmap Z FileDescriptor) (limit : Z) (o : op) : Z * gmap Z FileDescriptor * Z :=
  let place (r : Result Z Z * gmap Z FileDescriptor) := (errno_of (fst r), snd r, limit) in
  match o with
  | Open d => place (spec_insert M 0 limit d)
  | Close fd => match M !! fd with Some _ => (SUCCESS, delete fd M, limit) | None => (EBADF, M, limit) end
  | Dup fd => match M !! fd with Some d => place (spec_insert M 0 limit d) | None => (EBADF, M, limit) end
  | Dup2 a b =>
      match M !! a with
      | Some d => place (spec_insert_at M limit (set_cloexec d false) b)
      | None => (EBADF, M, limit)
      end
  | Dup3 a b flags =>
      if bool_decide (a = b \/ flags ∉ [O_CLOEXEC; 0]) then (EINVAL, M, limit)
      else match M !! a with
           | Some d => place (spec_insert_at M limit (set_cloexec d (flags =? O_CLOEXEC)) b)
           | None => (EBADF, M, limit)
           end
  | Fcntl fd cmd arg =>
      if bool_decide (cmd ∈ [F_GETFD; F_SETFD; F_GETFL]) then
        match M !! fd with
        | None => (EBADF, M, limit)
        | Some d =>
            if cmd =? F_GETFD then (Z.b2z (cloexec d), M, limit)
            else if cmd =? F_SETFD then (SUCCESS, <[fd := set_cloexec d (Z.odd arg)]> M, limit)
            else ((if nonblock d then Z.lor O_RDWR O_NONBLOCK else O_RDWR), M, limit)
        end
      else (SUCCESS, M, limit)
  | Prlimit cur max => (SUCCESS, restrict (restrict M cur) max, cur)
  end.

Definition step_post (ft : t) (o : outcome (Z * t)) (s : Z * gmap Z FileDescriptor * Z) : Prop :=
  exists ft', o = Ret (fst (fst s), ft') /\ rep ft' (snd (fst s)) /\ soft_limit ft' = snd s.

Lemma step_of_simulates ft (o : outcome (Result Z Z * t)) s : simulates ft o s ->
  step_post ft ('(r, ft') ← o; Ret (errno_of r, ft')) (errno_of (fst s), snd s, soft_limit ft).
Proof. intros (ft' & -> & R & Hs). by exists ft'. Qed.

Lemma step_id ft M z : rep ft M -> step_post ft (Ret (z, ft)) (z, M, soft_limit ft).
Proof. intros R. by exists ft. Qed.

Lemma fcntl_ok ft M fd cmd arg : rep ft M -> op_ok (Fcntl fd cmd arg) ->
  step_post ft (sys_fcntl ft fd cmd arg) (spec_step M (soft_limit ft) (Fcntl fd cmd arg)).
Proof.
  intros R (Hfd & H1 & H2). unfold sys_fcntl, spec_step. rewrite (get_ref_ok _ _ _ R Hfd).
  destruct (Z.eqb_spec cmd F_DUPFD); [done|]. destruct (Z.eqb_spec cmd F_DUPFD_CLOEXEC); [done|].
  destruct (Z.eqb_spec cmd F_GETFD) as [->|].
  { rewrite bool_decide_eq_true_2 by (by left). cbn [mbind outcome_bind]. destruct (M !! fd); by apply step_id. }
  destruct (Z.eqb_spec cmd F_SETFD) as [->|].
  { rewrite bool_decide_eq_true_2 by (by right; left).
    destruct (update_ref_ok ft M fd (fun d => set_cloexec d (negb (Z.land arg FD_CLOEXEC =? 0))) R Hfd) as (ft' & -> & R' & Hs).
    cbn [mbind outcome_bind]. exists ft'.
    assert (negb (Z.land arg FD_CLOEXEC =? 0) = Z.odd arg) as E.
    { unfold FD_CLOEXEC. change 1 with (Z.ones 1). rewrite Z.land_ones by lia. change (2 ^ 1) with 2. rewrite Zmod_odd. by destruct (Z.odd arg). }
    rewrite <- E. by destruct (M !! fd). }
  destruct (Z.eqb_spec cmd F_GETFL) as [->|].
  { rewrite bool_decide_eq_true_2 by (by right; right; left). cbn [mbind outcome_bind]. destruct (M !! fd); by apply step_id. }
  rewrite bool_decide_eq_false_2; [by apply step_id|]. rewrite !elem_of_cons. intros [|[|[|H]]]; try done. by apply not_elem_of_nil in H.
Qed.

Lemma fd_step_ok ft M o : rep ft M -> op_ok o -> step_post ft (step ft o) (spec_step M (soft_limit ft) o).
Proof.
  intros R Ho. destruct o as [d|fd|fd|a b|a b flags|fd cmd arg|cur max]; cbn [step].
  - by apply step_of_simulates, insert_ok.
  - destruct (remove_ok ft M fd R Ho) as (ft' & Hr & R' & Hs). unfold sys_close. rewrite Hr. cbn [mbind outcome_bind].
    exists ft'. cbn [spec_step]. by destruct (M !! fd).
  - unfold sys_dup. rewrite (get_ref_ok _ _ _ R Ho). cbn [mbind outcome_bind spec_step].
    destruct (M !! fd); [by apply step_of_simulates, insert_ok|by apply step_id].
  - destruct Ho as [Ha Hb]. unfold sys_dup2. rewrite (get_ref_ok _ _ _ R Ha). cbn [mbind outcome_bind spec_step].
    destruct (M !! a); [by apply step_of_simulates, insert_at_ok|by apply step_id].
  - destruct Ho as [Ha Hb]. unfold sys_dup3. rewrite (get_ref_ok _ _ _ R Ha). cbn [spec_step].
    destruct (Z.eqb_spec a b) as [->|Hne]; [rewrite bool_decide_eq_true_2 by (by left); by apply step_id|].
    destruct (negb ((flags =? O_CLOEXEC) || (flags =? 0))) eqn:E.
    + rewrite bool_decide_eq_true_2; [by apply step_id|]. right. rewrite !elem_of_cons.
      intros [->|[->|H]]; [done|done|by apply not_elem_of_nil in H].
    + rewrite bool_decide_eq_false_2.
      * cbn [mbind outcome_bind]. destruct (M !! a); [by apply step_of_simulates, insert_at_ok|by apply step_id].
      * intros [|H]; [done|]. apply H. apply negb_false_iff, orb_true_iff in E as [->%Z.eqb_eq| ->%Z.eqb_eq]; [left|by right; left].
  - by apply fcntl_ok.
  - destruct Ho as [Hc Hm]. destruct (prlimit_ok ft M cur max R Hc Hm) as [R' Hs]. by eexists.
Qed.

Fixpoint run (ft : t) (os : list op) : outcome (list Z * t) :=
  match os with
  | [] => Ret ([], ft)
  | o :: rest => '(z, ft1) ← step ft o; '(zs, ft2) ← run ft1 rest; Ret (z :: zs, ft2)
  end.
Fixpoint spec_run (M : gmap Z FileDescriptor) (limit : Z) (os : list op) : list Z * gmap Z FileDescriptor :=
  match os with
  | [] => ([], M)
  | o :: rest =>
      let '(z, M1, limit1) := spec_step M limit o in
      let '(zs, M2) := spec_run M1 limit1 rest in (z :: zs, M2)
  end.

Lemma fd_run_ok os : Forall op_ok os -> forall ft M, rep ft M ->
  exists ft', run ft os = Ret (fst (spec_run M (soft_limit ft) os), ft') /\ rep ft' (snd (spec_run M (soft_limit ft) os)).
Proof.
  induction 1 as [|o os Ho Hos IH]; intros ft M R; cbn [run spec_run]; [by exists ft|].
  destruct (fd_step_ok ft M o R Ho) as (ft1 & Hs & R1 & Hl). rewrite Hs. cbn [mbind outcome_bind].
  destruct (spec_step M (soft_limit ft) o) as [[z M1] limit1]. cbn [fst snd] in *. subst limit1.
  destruct (IH ft1 M1 R1) as (ft2 & -> & R2). cbn [mbind outcome_bind].
  destruct (spec_run M1 (soft_limit ft1) os) as [zs M2]. by exists ft2.
Qed.

(** The three standard streams a process starts with. *)
Definition stdio : list (option FileDescriptor) :=
  [Some (FD false false 0); Some (FD false false 1); Some (FD false false 2)].
Definition stdio_map : gmap Z FileDescriptor :=
  list_to_map [(0, FD false false 0); (1, FD false false 1); (2, FD false false 2)].

Lemma stdio_rep : rep (new stdio) stdio_map.
Proof. apply (fd_rep_new stdio); [done|]. intros [|[|[|i]]]; by cbn. Qed.

(** C24: a descriptor table implements a finite map that hands out the lowest free number.
    For every sequence of open, close, dup, dup2, dup3, fcntl (the duplicating commands
    apart) and prlimit calls, from any table whose recycling list holds exactly its
    holes, each once, and with a soft limit of at most 256 descriptors, at the start and
    in every prlimit call (numbers are kept in a byte; larger limits are outside the
    theorem), no call panics, every result (numbers and errors) is that of the map, a new
    descriptor goes to the lowest number that is not in use and below the limit, and
    the recycling list again holds exactly the holes. *)
Theorem fd_table_refines ft M os : rep ft M -> Forall op_ok os ->
  exists ft', run ft os = Ret (fst (spec_run M (soft_limit ft) os), ft') /\
    rep ft' (snd (spec_run M (soft_limit ft) os)) /\
    forall fd, 0 <= fd -> get_ref ft' fd =
      Ret (match snd (spec_run M (soft_limit ft) os) !! fd with Some d => Ok d | None => Err EBADF end).
Proof.
  intros R Hos. destruct (fd_run_ok os Hos ft M R) as (ft' & Hr & R'). exists ft'. split_and!; [done|done|].
  intros fd Hfd. by apply get_ref_ok.
Qed.

(** Witness: a table with the three standard streams. *)
Lemma fd_table_refines_witness : exists ft',
  run (new stdio) [Close 1; Dup 2; Dup2 0 5; Open (FD true false 9); Close 7] = Ret ([0; 1; 5; 3; EBADF], ft') /\
  get_ref ft' 3 = Ret (Ok (FD true false 9)).
Proof.
  destruct (fd_table_refines (new stdio) stdio_map [Close 1; Dup 2; Dup2 0 5; Open (FD true false 9); Close 7] stdio_rep)
    as (ft' & Hr & _ & Hg).
  - repeat constructor; cbn; lia.
  - exists ft'. split; [rewrite Hr; do 2 f_equal|rewrite Hg by lia]; vm_compute; reflexivity.
Defined.

(** Duplicating to a number at or above a hint. Where [hint] is free or no free
    number above it lies inside the table, [try_insert_at] stores at the lowest free
    number not below [hint], or fails with [EMFILE] where there is none below the limit. *)
Theorem try_insert_at_lowest ft M d hint : rep ft M -> 0 <= hint ->
  (M !! hint = None \/ forall fd, fd ∈ recycled ft -> fd < hint) ->
  simulates ft (try_insert_at ft d hint) (spec_insert M hint (soft_limit ft) d).
Proof.
  intros R Hh Hc. pose proof (rp_len _ _ R) as Hlen. unfold try_insert_at.
  destruct (Z.leb_spec (soft_limit ft) hint) as [Hge|Hlt].
  { exists ft. unfold spec_insert. rewrite least_free_none by lia. done. }
  destruct (Z.ltb_spec hint (len ft)) as [Hin|Hout].
  - destruct (inner_lookup ft hint ltac:(lia)) as [o Ho]. rewrite (proj2 (index_ret _ _ _) Ho). cbn [mbind outcome_bind].
    pose proof (fd_rep_lookup _ _ _ R Hh) as HM. rewrite Ho in HM. destruct o as [d'|]; cbn in HM.
    + destruct Hc as [Hc|Hc]; [congruence|]. assert (find_first (fun fd => hint <? fd) (recycled ft) = None) as ->.
      { apply find_first_None. intros x Hx%Hc. apply Z.ltb_ge. lia. }
      apply push_ok; [done|lia|]. intros j Hj Hin2%Hc. lia.
    + destruct (filter_ne_spec (recycled ft) hint (rp_nodup _ _ R)) as [Hnd Hf].
      destruct (rep_put ft M hint d _ R ltac:(lia) Hnd Hf) as (l & -> & R'). unfold simulates, spec_insert.
      rewrite (least_free_some M hint (soft_limit ft) hint) by (done || lia). by eexists.
  - unfold simulates, spec_insert. rewrite (least_free_some M hint (soft_limit ft) hint); [|lia| |lia].
    + destruct (bytes_ok ft M hint (seqZ (len ft) (hint - len ft)) R ltac:(lia) ltac:(done)) as [Hnd Hj].
      eexists. split; [done|]. split; [by apply rep_extend|done].
    + apply (rep_free _ _ _ R); [done|by right].
Qed.

(** Witness: [F_DUPFD] with hint 10 on a table with the standard streams. *)
Lemma try_insert_at_lowest_witness :
  simulates (new stdio) (try_insert_at (new stdio) (FD false false 1) 10) (Ok 10, <[10 := FD false false 1]> stdio_map).
Proof.
  exact (try_insert_at_lowest (new stdio) stdio_map (FD false false 1) 10 stdio_rep ltac:(lia) (or_introl eq_refl)).
Defined.

(** Opening, closing and duplicating: [setup] has descriptors 0 to 5 open except 3 and 4. *)
Definition setup (d : FileDescriptor) : outcome t :=
  '(_, ft) ← run (new stdio) [Open d; Open d; Open d; Close 4; Close 3]; Ret ft.

(** [F_DUPFD] can lose an open file. With descriptors 3 and 4 closed, [F_DUPFD] with
    hint 1 returns 4 although 3 is free, and leaves 4 in the recycling list; the second
    of the next two opens then gets 4 again and silently replaces the descriptor that
    is open there. *)
Theorem fcntl_dupfd_clobbers : exists ft ft1 ft2,
  setup (FD false false 7) = Ret ft /\
  sys_fcntl ft 0 F_DUPFD 1 = Ret (4, ft1) /\
  get_ref ft1 3 = Ret (Err EBADF) /\ get_ref ft1 4 = Ret (Ok (FD false false 0)) /\
  run ft1 [Open (FD false false 8); Open (FD false false 9)] = Ret ([3; 4], ft2) /\
  get_ref ft2 4 = Ret (Ok (FD false false 9)).
Proof. do 3 eexists. split; [vm_compute; reflexivity|]. split; [vm_compute; reflexivity|]. split_and!; vm_compute; reflexivity. Qed.

(** A limit above 256 corrupts the table. After [prlimit] raises the limit,
    closing descriptor 300 recycles its number as a byte, 44; the next open returns 44
    and replaces the descriptor that is open there. *)
Theorem prlimit_byte_clobbers : exists zs ft1 ft2,
  run (new stdio) (Prlimit 1000 1000 :: replicate 298 (Open (FD false false 7))) = Ret (zs, ft1) /\
  get_ref ft1 44 = Ret (Ok (FD false false 7)) /\
  run ft1 [Close 300; Open (FD false false 9)] = Ret ([0; 44], ft2) /\
  get_ref ft2 44 = Ret (Ok (FD false false 9)) /\ get_ref ft2 300 = Ret (Err EBADF).
Proof. do 3 eexists. split; [vm_compute; reflexivity|]. split; [vm_compute; reflexivity|]. split_and!; vm_compute; reflexivity. Qed.
End FdTable.
