(* ===== verification/StateMachine.v ===== *)
(** The process state machine ([os/src/task/state_machine.rs]).

    The atomic cell is the byte it stores. A call of [try_transition] is two atomic
    steps, a load and a compare-and-swap, which other threads' steps may separate. *)
From S2P Require Import Prelude.
From Stdlib Require Import String.

Inductive ProcessState : Type := Created | Ready | Running | Blocked | Zombie | Exited | Stopped.

#[global] Instance ProcessState_eq_dec : EqDecision ProcessState.
Proof. solve_decision. Defined.

Module ProcessState.

(** The discriminants. *)
Definition to_raw (s : ProcessState) : Z :=
  match s with
  | Created => 0 | Ready => 1 | Running => 2 | Blocked => 3 | Zombie => 4 | Exited => 5 | Stopped => 6
  end.
Definition from_raw (value : Z) : option ProcessState :=
  if value =? 0 then Some Created
  else if value =? 1 then Some Ready
  else if value =? 2 then Some Running
  else if value =? 3 then Some Blocked
  else if value =? 4 then Some Zombie
  else if value =? 5 then Some Exited
  else if value =? 6 then Some Stopped
  else None.
Definition is_runnable (s : ProcessState) : bool := match s with Ready | Running => true | _ => false end.
Definition is_terminated (s : ProcessState) : bool := match s with Zombie | Exited => true | _ => false end.
Definition can_schedule (s : ProcessState) : bool := match s with Ready => true | _ => false end.
Definition as_str (s : ProcessState) : string :=
  match s with
  | Created => "created" | Ready => "ready" | Running => "running" | Blocked => "blocked"
  | Zombie => "zombie" | Exited => "exited" | Stopped => "stopped"
  end%string.

Lemma from_to_raw s : from_raw (to_raw s) = Some s.
Proof. by destruct s. Qed.
Lemma from_raw_inj v s : from_raw v = Some s -> v = to_raw s.
Proof. unfold from_raw. case_Z; intros [= <-]; cbn; lia. Qed.
End ProcessState.

Definition is_task_ready (s : ProcessState) : bool := ProcessState.can_schedule s.
Definition is_schedulable (s : ProcessState) : bool := ProcessState.is_runnable s.
Definition is_task_terminated (s : ProcessState) : bool := ProcessState.is_terminated s.
Definition is_task_blocked (s : ProcessState) : bool := match s with Blocked | Stopped => true | _ => false end.

Inductive ExitReason : Type := Normal (code : Z) | Signal (sig : Z) | Abnormal.

Module ExitReason.
(** The value for [wait]; codes and signals are [i32]. *)
Definition wait_status (r : ExitReason) : Z :=
  match r with
  | Normal code => Z.shiftl (Z.land code 0xff) 8
  | Signal sig => Z.land sig 0x7f
  | Abnormal => 0x80
  end.
Definition is_normal (r : ExitReason) : bool := match r with Normal _ => true | _ => false end.
End ExitReason.

Module AtomicProcessState.
Abbreviation t := Z (only parsing).

Definition new (initial : ProcessState) : t := ProcessState.to_raw initial.
Definition load (cell : t) : ProcessState := default Exited (ProcessState.from_raw cell).
Definition store (cell : t) (new_state : ProcessState) : t := ProcessState.to_raw new_state.
Definition compare_exchange (cell : t) (expected new : ProcessState)
    : Result ProcessState ProcessState * t :=
  if cell =? ProcessState.to_raw expected then (Ok (load cell), ProcessState.to_raw new)
  else (Err (load cell), cell).
Definition default_state : t := new Created.
End AtomicProcessState.

Record TransitionError : Type := TransErr { from : ProcessState; to : ProcessState }.

Module StateTransitionValidator.
Import AtomicProcessState.

Definition is_valid_transition (from to : ProcessState) : bool :=
  match from, to with
  | Created, Ready => true
  | Ready, Running => true
  | Ready, Zombie => true
  | Running, Ready => true
  | Running, Blocked => true
  | Running, Zombie => true
  | Running, Stopped => true
  | Blocked, Ready => true
  | Blocked, Zombie => true
  | Zombie, Exited => true
  | Stopped, Ready => true
  | Stopped, Zombie => true
  | _, _ => false
  end.

(** The call is its first half, up to the check, and its second half. *)
Definition try_begin (cell : t) (new_state : ProcessState) : Result ProcessState TransitionError :=
  let old := load cell in
  if is_valid_transition old new_state then Ok old else Err (TransErr old new_state).
Definition try_commit (cell : t) (old new_state : ProcessState) : Result ProcessState TransitionError * t :=
  match compare_exchange cell old new_state with
  | (Ok prev, cell') => (Ok prev, cell')
  | (Err actual, cell') => (Err (TransErr actual new_state), cell')
  end.
Definition try_transition (cell : t) (new_state : ProcessState) : Result ProcessState TransitionError * t :=
  match try_begin cell new_state with
  | Ok old => try_commit cell old new_state
  | Err e => (Err e, cell)
  end.

(** ** Interleavings

    Threads share the cell; each is idle or between the two halves of a call. [trail]
    lists the values the cell has had, the latest first. *)
Record sys : Type := Sys {
  cell : t;
  calls : list (option (ProcessState * ProcessState));
  trail : list ProcessState;
}.

Definition record (c : t) (tr : list ProcessState) : list ProcessState :=
  if bool_decide (head tr = Some (load c)) then tr else load c :: tr.

Inductive step : sys -> sys -> Prop :=
| step_begin s i target old :
    calls s !! i = Some None -> try_begin (cell s) target = Ok old ->
    step s (Sys (cell s) (<[i := Some (old, target)]> (calls s)) (trail s))
| step_refused s i target e :
    calls s !! i = Some None -> try_begin (cell s) target = Err e -> step s s
| step_commit s i old target r c :
    calls s !! i = Some (Some (old, target)) -> try_commit (cell s) old target = (r, c) ->
    step s (Sys c (<[i := None]> (calls s)) (record c (trail s))).

Definition start (initial : ProcessState) (threads : nat) : sys :=
  Sys (new initial) (replicate threads None) [initial].

(** Consecutive states, latest first, are valid transitions. *)
Fixpoint chain (tr : list ProcessState) : Prop :=
  match tr with
  | b :: ((a :: _) as rest) => is_valid_transition a b = true /\ chain rest
  | _ => True
  end.

Record inv (s : sys) : Prop := {
  iv_cell : exists st, cell s = ProcessState.to_raw st /\ head (trail s) = Some st;
  iv_calls : forall i old target, calls s !! i = Some (Some (old, target)) -> is_valid_transition old target = true;
  iv_chain : chain (trail s);
}.

Lemma load_to_raw st : load (ProcessState.to_raw st) = st.
Proof. unfold load. by rewrite ProcessState.from_to_raw. Qed.

Lemma to_raw_inj a b : ProcessState.to_raw a = ProcessState.to_raw b -> a = b.
Proof. intros H. apply (f_equal load) in H. by rewrite !load_to_raw in H. Qed.

Lemma start_inv st n : inv (start st n).
Proof.
  constructor; cbn; [by exists st| |done]. intros i old target H. by apply lookup_replicate in H as [? _].
Qed.

Lemma step_inv s s' : inv s -> step s s' -> inv s'.
Proof.
  intros [(st & Hc & Hh) Hcalls Hch] Hstep. destruct Hstep as [s i target old Hi Hb|s i target e Hi Hb|s i old target r c Hi Hb].
  - constructor; cbn; [by exists st| |done]. intros j o g Hj. destruct (decide (j = i)) as [->|Hne].
    + rewrite list_lookup_insert_eq in Hj by (by eapply lookup_lt_Some). injection Hj as <- <-.
      unfold try_begin in Hb. by destruct (is_valid_transition (load (cell s)) target) eqn:E; simplify_eq.
    + rewrite list_lookup_insert_ne in Hj by done. by eapply Hcalls.
  - by constructor; [exists st| |].
  - pose proof (Hcalls _ _ _ Hi) as Hv. unfold try_commit, compare_exchange in Hb. rewrite Hc in Hb.
    assert (forall j o g, <[i := None]> (calls s) !! j = Some (Some (o, g)) -> is_valid_transition o g = true) as Hcalls'.
    { intros j o g Hj. destruct (decide (j = i)) as [->|Hne].
      - by rewrite list_lookup_insert_eq in Hj by (by eapply lookup_lt_Some).
      - rewrite list_lookup_insert_ne in Hj by done. by eapply Hcalls. }
    destruct (Z.eqb_spec (ProcessState.to_raw st) (ProcessState.to_raw old)) as [E|E]; injection Hb as <- <-.
    + apply to_raw_inj in E as ->. constructor; cbn; [|done|]; unfold record; rewrite load_to_raw.
      * exists target. split; [done|]. case_bool_decide; [done|by cbn].
      * case_bool_decide; [done|]. destruct (trail s) as [|a tr]; [done|]. cbn in Hh. injection Hh as ->. by split.
    + constructor; cbn; [|done|]; unfold record; rewrite load_to_raw; rewrite bool_decide_eq_true_2 by done; [by exists st|done].
Qed.

Lemma steps_inv s s' : inv s -> rtc step s s' -> inv s'.
Proof. intros Hi. induction 1; eauto using step_inv. Qed.

(** Along a chain a terminated state is followed by terminated ones only, and nothing
    follows [Exited]. *)
Lemma chain_terminated tr1 a tr2 : chain (tr1 ++ a :: tr2) -> ProcessState.is_terminated a = true ->
  Forall (fun b => b = Exited) tr1 /\ (a = Exited -> tr1 = []).
Proof.
  revert a tr2. induction tr1 as [|b tr1 IH] using rev_ind; intros a tr2 Hch Ha; [by split; [constructor|]|].
  rewrite <- app_assoc in Hch. cbn in Hch.
  assert (is_valid_transition a b = true) as Hab.
  { clear IH. induction tr1 as [|c tr1 IH1]; cbn in Hch; [by destruct Hch|]. apply IH1.
    by destruct (tr1 ++ b :: a :: tr2); [|destruct Hch]. }
  destruct a; try done; destruct b; try done. destruct (IH Exited (Zombie :: tr2) Hch eq_refl) as [_ Hnil].
  rewrite (Hnil eq_refl). split; [by repeat constructor|done].
Qed.

(** C37: no interleaving of transition requests breaks the state machine. Whatever the
    number of threads and the order of their loads and compare-and-swaps, each pair of
    consecutive states of the process is a valid transition, the cell holds the latest
    state, and once the process is a zombie its only further state is [Exited], once,
    so it never becomes runnable again. Without interference a call succeeds exactly on
    the valid transitions, returns the old state, and otherwise changes nothing. *)
Theorem state_machine_safe initial threads s : rtc step (start initial threads) s ->
  chain (trail s) /\ head (trail s) = Some (load (cell s)) /\
  (forall later a earlier, trail s = later ++ a :: earlier -> ProcessState.is_terminated a = true ->
     Forall (fun b => b = Exited) later /\ (a = Exited -> later = [])) /\
  (forall target, try_transition (cell s) target =
     if is_valid_transition (load (cell s)) target then (Ok (load (cell s)), ProcessState.to_raw target)
     else (Err (TransErr (load (cell s)) target), cell s)).
Proof.
  intros Hs. destruct (steps_inv _ _ (start_inv initial threads) Hs) as [(st & Hc & Hh) _ Hch].
  split_and!; [done|by rewrite Hc, load_to_raw| |].
  - intros later a earlier E Ha. rewrite E in Hch. by eapply chain_terminated.
  - intros target. rewrite Hc. unfold try_transition, try_begin. rewrite load_to_raw.
    destruct (is_valid_transition st target); [|done]. unfold try_commit, compare_exchange.
    by rewrite Z.eqb_refl, load_to_raw.
Qed.

(** Witness: two threads race to run and to kill a ready process. *)
Lemma state_machine_safe_witness :
  chain [Zombie; Ready] /\
  exists s, rtc step (start Ready 2) s /\ trail s = [Zombie; Ready] /\ load (cell s) = Zombie.
Proof.
  assert (rtc step (start Ready 2) (Sys 4 [None; None] [Zombie; Ready])) as Hs.
  { eapply rtc_l; [exact (step_begin (start Ready 2) 0 Running Ready eq_refl eq_refl)|].
    eapply rtc_l; [eapply (step_begin _ 1 Zombie Ready); reflexivity|].
    eapply rtc_l; [eapply (step_commit _ 1 Ready Zombie); reflexivity|].
    eapply rtc_l; [eapply (step_commit _ 0 Ready Running); reflexivity|]. apply rtc_refl. }
  destruct (state_machine_safe Ready 2 _ Hs) as (Hch & _). split; [exact Hch|]. eexists. split; [exact Hs|]. by split.
Defined.

End StateTransitionValidator.

(** The status [wait] reports: the code of a normal exit in bits 8 to 15 over a zero byte,
    the signal of a killed process in the low seven bits. *)
Lemma wait_status_decode r : 0 <= ExitReason.wait_status r < 2 ^ 16 /\
  match r with
  | Normal code => Z.land (ExitReason.wait_status r) 0x7f = 0 /\
      Z.land (Z.shiftr (ExitReason.wait_status r) 8) 0xff = code mod 256
  | Signal sig => Z.land (ExitReason.wait_status r) 0x7f = sig mod 128
  | Abnormal => Z.testbit (ExitReason.wait_status r) 7 = true
  end.
Proof.
  destruct r as [code|sig|]; cbn [ExitReason.wait_status]; [| |done].
  - change 0xff with (Z.ones 8). change 0x7f with (Z.ones 7). rewrite !Z.land_ones, Z.shiftl_mul_pow2 by lia.
    pose proof (Z.mod_pos_bound code (2 ^ 8)). split; [lia|]. split.
    + replace (code mod 2 ^ 8 * 2 ^ 8) with (code mod 2 ^ 8 * 2 * 2 ^ 7) by lia. apply Z.mod_mul. lia.
    + rewrite Z.shiftr_div_pow2 by lia. rewrite Z.div_mul by lia. by rewrite Z.mod_mod by lia.
  - change 0x7f with (Z.ones 7). rewrite !Z.land_ones by lia. pose proof (Z.mod_pos_bound sig (2 ^ 7)).
    split; [lia|]. by rewrite Z.mod_mod by lia.
Qed.
